(* ===== verification/_CoqProject ===== *)
-Q . S2P
Prelude.v
BlockDev.v
BlockStore.v
BlockCache.v
Bitmap.v
Layout.v
DiskCodec.v
Tree.v
BuildTree.v
TreeOps.v
ClearTree.v
Inode.v
InodeOps.v
FileData.v
Efs.v
Vfs.v
FsInv.v
FsAlloc.v
FsUpdate.v
FsOps.v
FsDir.v
FsCreate.v
FsSpec.v
FsRefine.v
FsTheorems.v
Pack.v
EfsTest.v
Address.v
Frames.v
PageTable.v
PtInv.v
PtOps.v
Space.v
PtRefine.v
MemorySet.v
AreaOps.v
MsOps.v
MsLife.v
MsBuild.v
UserMem.v
MmTheorems.v
Virtio.v
World.v
Proc.v
Kernel.v
OsInode.v
Task.v
Syscall.v
Boot.v
Pids.v
CxMem.v
Asm.v
KLogic.v
KInv.v
KSched.v
KProc.v
KFork.v
KTree.v
KExit.v
KWait.v
KTable.v
KFile.v
KBuf.v
KIo.v
KExec.v
KSafe.v
KRun.v
KBoot.v
User.v
Unix.v
UserLogic.v
UserTheorems.v
UserFiles.v
KDemo.v
SysTheorems.v
KernelTheorems.v
FileTheorems.v
CacheTheorems.v
BitmapTheorems.v
InodeTheorems.v
