(* ===== verification/Prelude.v ===== *)
(** * rCore-Tutorial: a verified model of the kernel, its file system and its programs

    The repository is a teaching operating system in Rust: a file system library
    (easy-fs), a tool that packs programs into an image (easy-fs-fuse), a RISC-V
    kernel with paging, processes and files (os) and the programs it runs (user).
    The library models them from the block device up to the shell and proves that
    the parts do what their callers rely on.

    ** How the parts interact

    easy-fs works on blocks through a cache and keeps one flat directory.  The
    packer formats an image with it and copies the programs in.  The kernel boots
    from that image: it builds its address space, loads [initproc] and enters the
    scheduler.  A program traps; [__alltraps] saves its registers, [trap_handler]
    serves the call, kills the program or preempts it, and [trap_return] with
    [__restore] goes back, to it or to the next task of the ready queue.  The user
    library turns the calls into functions, and the programs use those.

    ** The style of the model

    Rust code is translated function by function into Rocq functions.  Code with
    effects is a command [cmd St A], a function from the state to a result with a
    new state or to a [fault]: a panic, a lock taken twice, undefined behaviour, or
    a loop that exceeds its bound.  Machine integers are in [Z], with the wrap-around
    of the release build ([w8], [w32], [w64]) written where the code computes.  What
    a component needs of another is a class: [BlockDevice] and [BlockStore] for
    blocks, [FrameAllocator] for frames, each with a class of laws that the
    implementations satisfy.  User programs are interaction trees over the calls of
    user/src/syscall.rs.

    ** Files, by the code they model

    - easy-fs/src/block_dev.rs, the device of easy-fs-fuse/src/main.rs: [BlockDev].
      block_cache.rs: [BlockCache], an implementation of the interface [BlockStore].
      bitmap.rs: [Bitmap].  layout.rs: [Layout] (definitions), [DiskCodec] (bytes),
      [Tree], [BuildTree], [TreeOps], [ClearTree] (indirect blocks), [Inode],
      [InodeOps], [FileData] (the blocks and the bytes of a file).
    - easy-fs/src/efs.rs and vfs.rs: [Efs] and [Vfs] (definitions), [FsInv] (the
      invariant), [FsAlloc], [FsUpdate], [FsOps], [FsDir], [FsCreate];
      [FsSpec] is the specification, a list of named files, and [FsRefine] shows
      that the operations implement it.
    - easy-fs-fuse/src/main.rs: [Pack] ([easy_fs_pack]) and [EfsTest] ([efs_test]).
    - os/src/mm: [Address], [Frames], [PageTable], [MemorySet] (definitions); [PtInv],
      [PtOps], [Space], [PtRefine], [AreaOps], [MsOps], [MsLife], [MsBuild], [UserMem]
      (lemmas); [World] puts the address spaces together.
    - os/src/drivers/block/virtio_blk.rs: [Virtio] (the memory functions).
    - os/src/task, os/src/fs, os/src/syscall, os/src/trap, os/src/timer.rs,
      os/src/sync: [Kernel] (the state: tasks in a heap of references, cells with
      their borrows), [OsInode], [Task], [Syscall] (definitions); os/src/main.rs:
      [Boot].  [Pids], [CxMem], [KLogic] and the files [KInv] to [KBoot] hold the
      invariant [kinv] and that every operation keeps it; [KSafe] also that the words
      through which [__alltraps] enters the kernel stay in the trap contexts
      ([seals]); [KRun] is the machine as a transition system, in which a trap goes
      where those words send it; [KDemo] is a run of a machine with the layout of the
      QEMU board: it boots, forks, switches and loses a process to a fault.
    - os/src/trap/trap.S and os/src/task/switch.S: [Asm], on a small semantics of the
      instructions they use.
    - [Proc] is the specification of the processes: a table of parents, children
      and exit codes with the steps fork, exit, yield, dispatch and wait.  [KTable]
      reads that table off the kernel's state.
    - user/src: [User] (the library and every program), [Unix] (programs on the table
      of [Proc], as a transition system and in turns), [UserLogic] (a program logic
      with a promise on the exit code of every child, proved sound for every
      interleaving), [UserFiles] (a process that works on files, its specification
      and its programs).

    ** What the theorems show

    - The whole system ([SysTheorems]), on the runs in which every system call that
      returns is well formed ([behaves] of [KRun]: valid pointers, descriptors and
      sizes; stores, faults, interrupts and panics are free): the kernel boots into
      [initproc]; every reachable state satisfies the invariant; every trap enters
      the handler, and none with well-formed arguments makes it borrow twice, loop
      or panic, text that is not ASCII apart; waiting processes keep their memory;
      scheduling is round-robin; every run refines the process table of [Proc]; tasks,
      references and kernel stacks are accounted for; a packed image boots; the
      test of the file system passes on every device.
    - System calls and traps ([KernelTheorems], [FileTheorems], [Asm]): what fork,
      exec, exit and waitpid do, what a fault and a read of the console do; a file
      written through one descriptor and read through another; a program cannot
      redirect its traps; a call from user mode and back through the assembly; a task that was switched away
      resumes where it was; the calls on files give the answers of [UserFiles]; calls
      that panic the kernel.
    - Memory ([MmTheorems], [Virtio]): page tables refine finite maps, the invalid
      entries [translate] gives away included; copies are
      isolated, the kernel's code is protected, frames have one owner and come back;
      the access to user buffers is right on its domain and diverges outside; what
      the device driver may rely on.
    - The file system ([FsTheorems], [CacheTheorems], [BitmapTheorems],
      [InodeTheorems]): every sequence of operations acts as on the list of named
      files, through a cache that is transparent; clearing frees all blocks.
    - The programs ([UserTheorems], [FileTheorems]): the tests that fork and wait
      exit with 0 under every interleaving; the shell exits only when its heap is
      exhausted; the tests on files end with the files they should leave.

    ** Bounds

    A loop whose length depends on data takes fuel.  In the kernel the bound is
    [loops env], and the theorems ask for enough of it: a read of a file of n bytes
    needs n/512 + 2 rounds, a user buffer n/4096 + 2, a string its length plus one.
    [read_back] of [EfsTest] has the length of the string, [fork_tree] of [User] the
    depth of the tree, which the code bounds too.  [urun] of [Unix] runs a given
    number of steps, for the witnesses.  That a board has room (frames
    for the tables and the programs, blocks for the files) is a hypothesis where an
    operation needs it.

    ** Not modelled

    - The crates: the driver virtio-drivers (reading and writing blocks are the class
      [BlockDevice]), the ELF parser (a parameter that gives the headers), the heap
      allocator.  The heap of the kernel does not run out; the heap of the shell, the
      only program that allocates, is a parameter that may.
      The block device transfers the block it is asked for, into the buffer it is
      asked for: [Virtio] shows when the physical address of a buffer allows that.
    - Firmware calls, the panic handler and the exit device: printing appends to the
      console of the state, panicking and powering off are outcomes.
    - entry.asm, [clear_bss], [init_heap], the write of satp in [activate],
      [enable_timer_interrupt] and the TLB: they act on registers and memory that the
      model does not have.  There are no traps in kernel mode.
    - The Debug formatters, the demonstrations [heap_test], [frame_allocator_test] and
      [block_device_test], and functions without a caller ([push_on_top]).
    - Memory of a user program is in the model of the kernel, its instructions are not:
      a step of the machine lets the program store anything into its pages, save any
      registers and trap; a system call that is not well formed is followed only
      if it panics.  The interaction trees model the programs at the level
      of their calls, without their stack, on which [stack_overflow] depends.

    This file holds what all others share: results and commands, loops, machine
    integers, and lemmas on lists, bits and integers. *)

From stdpp Require Export base numbers list gmap.
From coqutil Require Export Byte.
From coqutil Require Import Word.LittleEndianList.
From Stdlib Require Export ZArith Lia.

#[global] Open Scope Z_scope.

(** ** Faults and the command monad

    A Rust computation either returns or stops: [Panic] is [panic!], a failed
    [assert!], an [unwrap] of [None] or an index out of range; [Deadlock] is a
    [spin::Mutex] locked again by its own holder; [Undefined] is undefined
    behaviour (a reference to an enum whose byte is no discriminant);
    [OutOfFuel] is a loop of the model that exceeded its iteration bound. *)
Inductive fault := Panic | Deadlock | Undefined | OutOfFuel.

Inductive result (A : Type) :=
| Ok (a : A)
| Fail (f : fault).
Arguments Ok {A} a.
Arguments Fail {A} f.

Definition cmd (St A : Type) : Type := St -> result (A * St).

Definition ret {St A} (a : A) : cmd St A := fun s => Ok (a, s).

Definition bind {St A B} (m : cmd St A) (k : A -> cmd St B) : cmd St B :=
  fun s => match m s with
           | Ok (a, s') => k a s'
           | Fail f => Fail f
           end.

Definition fail {St A} (f : fault) : cmd St A := fun _ => Fail f.

Definition lift {St A} (r : result A) : cmd St A :=
  match r with Ok a => ret a | Fail f => fail f end.

(** [assert!] and the bounds checks the compiler inserts. *)
Definition assert {St} (b : bool) : cmd St unit :=
  if b then ret tt else fail Panic.

(** [Option::unwrap]. *)
Definition unwrap {A} (o : option A) : result A :=
  match o with Some a => Ok a | None => Fail Panic end.

Declare Scope cmd_scope.
Delimit Scope cmd_scope with cmd.
Notation "'let*' p ':=' m 'in' k" := (bind m (fun x => match x with p => k end))
  (at level 10, p pattern, m at level 100, k at level 200) : cmd_scope.
Notation "m ;; k" := (bind m (fun _ => k))
  (at level 100, k at level 200, right associativity) : cmd_scope.
Open Scope cmd_scope.

(** [while cond { body }] over the loop's local variables [st]. *)
Fixpoint while {St L} (fuel : nat) (cond : L -> bool) (body : L -> cmd St L)
    (st : L) : cmd St L :=
  match fuel with
  | O => fail OutOfFuel
  | S n => if cond st then let* st' := body st in while n cond body st' else ret st
  end.

(** [for x in xs { body }] over the loop's local variables [st]. *)
Fixpoint for_each {St L X} (xs : list X) (body : X -> L -> cmd St L) (st : L) : cmd St L :=
  match xs with
  | [] => ret st
  | x :: xs => let* st' := body x st in for_each xs body st'
  end.

(** ** Machine integers

    Both crates are built with [--release], where [+], [-], [*] and [<<] wrap
    around.  An integer of width [w] is a [Z] in [0, 2^w). *)
Definition w8 (z : Z) : Z := z mod 2 ^ 8.
Definition w32 (z : Z) : Z := z mod 2 ^ 32.
Definition w64 (z : Z) : Z := z mod 2 ^ 64.

Definition is_u8 (z : Z) : Prop := 0 <= z < 2 ^ 8.
Definition is_u32 (z : Z) : Prop := 0 <= z < 2 ^ 32.
Definition is_u64 (z : Z) : Prop := 0 <= z < 2 ^ 64.

Definition ceil_div (a b : Z) : Z := (a + b - 1) / b.

(** ** Slices and arrays

    Indexing and slicing with the run-time checks of Rust. *)
Definition zlen {A} (l : list A) : Z := Z.of_nat (length l).

Definition index {A} (l : list A) (i : Z) : result A :=
  if 0 <=? i then unwrap (l !! Z.to_nat i) else Fail Panic.

Definition index_set {A} (l : list A) (i : Z) (x : A) : result (list A) :=
  if (0 <=? i) && (i <? zlen l) then Ok (<[Z.to_nat i := x]> l) else Fail Panic.

(** [&l[a..b]]. *)
Definition slice {A} (l : list A) (a b : Z) : result (list A) :=
  if (0 <=? a) && (a <=? b) && (b <=? zlen l)
  then Ok (take (Z.to_nat (b - a)) (drop (Z.to_nat a) l)) else Fail Panic.

(** [take]/[drop] splice: the bytes of [l] from [a] on overwritten by [x]. *)
Definition splice {A} (l : list A) (a : nat) (x : list A) : list A :=
  take a l ++ x ++ drop (a + length x) l.

(** [l[a..b].copy_from_slice(x)]: the lengths must agree. *)
Definition copy_from_slice {A} (l : list A) (a b : Z) (x : list A) : result (list A) :=
  if (0 <=? a) && (a <=? b) && (b <=? zlen l) && (zlen x =? b - a)
  then Ok (splice l (Z.to_nat a) x) else Fail Panic.

(** [vec.into_iter().next().unwrap()] on the list of the items left. *)
Definition next_unwrap {A} (it : list A) : result (A * list A) :=
  match it with x :: it' => Ok (x, it') | [] => Fail Panic end.

(** Bytes are compared through their values. *)
#[global] Instance byte_eq_dec : EqDecision byte.
Proof.
  refine (fun a b => cast_if (decide (byte.unsigned a = byte.unsigned b)));
    [by apply byte.unsigned_inj|congruence].
Defined.

(** ** Little-endian codecs

    Every structure of the file system is read from and written to the bytes
    of a block, on little-endian hosts ([riscv64gc], [x86_64]). *)
Definition enc_word (w : nat) (z : Z) : list byte := le_split w z.
Definition dec_word (b : list byte) : Z := le_combine b.

(** An array [[uN; n]] of [w]-byte integers. *)
Fixpoint dec_words (w n : nat) (b : list byte) : list Z :=
  match n with
  | O => []
  | S n => dec_word (take w b) :: dec_words w n (drop w b)
  end.
Definition enc_words (w : nat) (l : list Z) : list byte := concat (enc_word w <$> l).

(** * Lemmas *)

(** The rewriting base of the development: lengths of lists. *)
Create Rewrite HintDb len.
#[export] Hint Rewrite @length_app @length_take @length_drop @length_insert
  @length_replicate @length_fmap @length_seqZ @length_cons @length_nil
  @length_zip_with @length_reverse : len.
Ltac len := autorewrite with len in *; unfold zlen in *; try lia.

(** [lia] with the Euclidean equations of the divisions by constants. *)
Ltac dlia := zify; Z.to_euclidean_division_equations; lia.

(** ** Machine integers *)
Lemma w32_small z : 0 <= z < 2 ^ 32 -> w32 z = z.
Proof. apply Z.mod_small. Qed.
Lemma w64_small z : 0 <= z < 2 ^ 64 -> w64 z = z.
Proof. apply Z.mod_small. Qed.
Lemma w8_range z : 0 <= w8 z < 2 ^ 8.
Proof. apply Z.mod_pos_bound; lia. Qed.
Lemma w32_range z : 0 <= w32 z < 2 ^ 32.
Proof. apply Z.mod_pos_bound; lia. Qed.
Lemma w64_range z : 0 <= w64 z < 2 ^ 64.
Proof. apply Z.mod_pos_bound; lia. Qed.

(** Discharges the wrap-arounds of the goal that cannot happen. *)
Ltac unwrap_words :=
  repeat first [ rewrite w32_small by lia | rewrite w64_small by lia ].

(** ** The command monad *)
Lemma bind_ret {St A B} (a : A) (k : A -> cmd St B) s : bind (ret a) k s = k a s.
Proof. done. Qed.

Lemma bind_assoc {St A B C} (m : cmd St A) (k : A -> cmd St B) (l : B -> cmd St C) s :
  bind (bind m k) l s = bind m (fun a => bind (k a) l) s.
Proof. unfold bind. by destruct (m s) as [[]|]. Qed.

Lemma bind_Ok {St A B} (m : cmd St A) (k : A -> cmd St B) s a s' :
  m s = Ok (a, s') -> bind m k s = k a s'.
Proof. unfold bind. by intros ->. Qed.

Lemma for_each_app {St L X} (xs ys : list X) (f : X -> L -> cmd St L) : forall st s st' s', for_each xs f st s = Ok (st', s') ->
  for_each (xs ++ ys) f st s = for_each ys f st' s'.
Proof.
  induction xs as [|x xs IH]; intros st s st' s' E; [by injection E as -> ->|]. cbn in *. unfold bind in *. destruct (f x st s) as [[st1 s1]|]; [|done]. by apply IH.
Qed.

Lemma bind_inv {St A B} (m : cmd St A) (k : A -> cmd St B) s r :
  bind m k s = Ok r -> exists a s', m s = Ok (a, s') /\ k a s' = Ok r.
Proof. unfold bind. destruct (m s) as [[a s']|]; naive_solver. Qed.

(** ** Lists *)
Lemma filter_all {A} (P : A -> Prop) `{!forall x, Decision (P x)} (l : list A) :
  Forall P l -> filter P l = l.
Proof. induction 1; [done|]. rewrite filter_cons_True by done. by f_equal. Qed.

Lemma elem_of_concat_fmap {A B} (f : A -> list B) (l : list A) b :
  b ∈ concat (f <$> l) <-> exists c, c ∈ l /\ b ∈ f c.
Proof.
  rewrite list_elem_of_In, in_concat. setoid_rewrite <- list_elem_of_In. split.
  - intros (x & Hx & Hb). apply list_elem_of_fmap in Hx as (c & -> & ?). eauto.
  - intros (c & Hc & Hb). exists (f c). split; [|done]. apply list_elem_of_fmap. eauto.
Qed.

(** ** Slices *)
Lemma zlen_nonneg {A} (l : list A) : 0 <= zlen l.
Proof. unfold zlen. lia. Qed.

Lemma index_Ok {A} (l : list A) i x :
  0 <= i -> l !! Z.to_nat i = Some x -> index l i = Ok x.
Proof. unfold index. intros ? E. destruct (Z.leb_spec 0 i); [by rewrite E | lia]. Qed.

Lemma index_inv {A} (l : list A) i x :
  index l i = Ok x -> 0 <= i /\ l !! Z.to_nat i = Some x.
Proof.
  unfold index. destruct (Z.leb_spec 0 i); [|done].
  destruct (l !! _) eqn:E; simpl; naive_solver.
Qed.

Lemma index_set_Ok {A} (l : list A) i x :
  0 <= i < zlen l -> index_set l i x = Ok (<[Z.to_nat i := x]> l).
Proof.
  unfold index_set. intros ?.
  destruct (Z.leb_spec 0 i), (Z.ltb_spec i (zlen l)); simpl; [done|lia..].
Qed.

Lemma slice_Ok {A} (l : list A) a b :
  0 <= a <= b -> b <= zlen l ->
  slice l a b = Ok (take (Z.to_nat (b - a)) (drop (Z.to_nat a) l)).
Proof.
  unfold slice. intros.
  destruct (Z.leb_spec 0 a), (Z.leb_spec a b), (Z.leb_spec b (zlen l)); simpl; [done|lia..].
Qed.

Lemma copy_from_slice_Ok {A} (l : list A) a b x :
  0 <= a <= b -> b <= zlen l -> zlen x = b - a ->
  copy_from_slice l a b x = Ok (splice l (Z.to_nat a) x).
Proof.
  unfold copy_from_slice. intros.
  destruct (Z.leb_spec 0 a), (Z.leb_spec a b), (Z.leb_spec b (zlen l)),
    (Z.eqb_spec (zlen x) (b - a)); simpl; [done|lia..].
Qed.

Lemma splice_length {A} (l : list A) a x :
  (a + length x <= length l)%nat -> length (splice l a x) = length l.
Proof. unfold splice. intros. len. Qed.

Lemma splice_nil {A} (l : list A) a : splice l a [] = l.
Proof. unfold splice. simpl. by rewrite Nat.add_0_r, take_drop. Qed.

Lemma splice_all {A} (l x : list A) : length x = length l -> splice l 0 x = x.
Proof.
  intros E. unfold splice. simpl. by rewrite E, drop_all, app_nil_r.
Qed.

Lemma lookup_splice_out {A} (l : list A) a x i :
  (a + length x <= length l)%nat -> (i < a \/ a + length x <= i)%nat ->
  splice l a x !! i = l !! i.
Proof.
  unfold splice. intros ? [?|?].
  - rewrite lookup_app_l by len. by rewrite lookup_take_lt.
  - rewrite lookup_app_r by len. rewrite lookup_app_r by len.
    rewrite lookup_drop. f_equal. len.
Qed.

Lemma lookup_splice_in {A} (l : list A) a x i :
  (a + length x <= length l)%nat -> (a <= i < a + length x)%nat ->
  splice l a x !! i = x !! (i - a)%nat.
Proof.
  unfold splice. intros ??.
  rewrite lookup_app_r by len. rewrite lookup_app_l by len. f_equal. len.
Qed.

Lemma take_drop_splice {A} (l : list A) a x :
  (a + length x <= length l)%nat -> take (length x) (drop a (splice l a x)) = x.
Proof.
  intros. unfold splice. rewrite drop_app_ge by len.
  replace (a - length (take a l))%nat with 0%nat by len.
  rewrite drop_0, take_app_le by lia. by rewrite take_ge by lia.
Qed.

Lemma take_drop_splice_before {A} (l : list A) a x b n :
  (a + length x <= length l)%nat -> (b + n <= a)%nat ->
  take n (drop b (splice l a x)) = take n (drop b l).
Proof.
  intros. apply list_eq. intros i.
  destruct (decide (i < n)%nat).
  - rewrite !lookup_take_lt, !lookup_drop by lia. apply lookup_splice_out; lia.
  - by rewrite !lookup_take_ge by lia.
Qed.

Lemma take_drop_splice_after {A} (l : list A) a x b n :
  (a + length x <= length l)%nat -> (a + length x <= b)%nat ->
  take n (drop b (splice l a x)) = take n (drop b l).
Proof.
  intros. apply list_eq. intros i.
  destruct (decide (i < n)%nat).
  - rewrite !lookup_take_lt, !lookup_drop by lia. apply lookup_splice_out; lia.
  - by rewrite !lookup_take_ge by lia.
Qed.

(** ** Codecs *)
Lemma enc_word_length w z : length (enc_word w z) = w.
Proof. apply length_le_split. Qed.

Lemma dec_enc_word w z : 0 <= z < 2 ^ (Z.of_nat w * 8) -> dec_word (enc_word w z) = z.
Proof. intros. unfold dec_word, enc_word. rewrite le_combine_split. by apply Z.mod_small. Qed.

Lemma enc_dec_word b : enc_word (length b) (dec_word b) = b.
Proof. apply split_le_combine. Qed.

Lemma dec_word_range b : 0 <= dec_word b < 2 ^ (Z.of_nat (length b) * 8).
Proof. rewrite Z.mul_comm. apply le_combine_bound. Qed.

Lemma dec_words_length w n b : length (dec_words w n b) = n.
Proof. revert b. induction n; intros; simpl; [done | by rewrite IHn]. Qed.

Lemma enc_words_length w l : length (enc_words w l) = (w * length l)%nat.
Proof.
  unfold enc_words. induction l as [|z l IH]; csimpl; [lia|].
  rewrite length_app, IH, enc_word_length. lia.
Qed.

#[export] Hint Rewrite enc_word_length dec_words_length enc_words_length : len.

Lemma dec_words_app w n b b' :
  length b = (w * n)%nat -> dec_words w n (b ++ b') = dec_words w n b.
Proof.
  revert b. induction n as [|n IH]; intros b Hb; simpl; [done|].
  rewrite take_app_le, drop_app_le by lia. by rewrite IH by len.
Qed.

Lemma dec_enc_words w l :
  Forall (fun z => 0 <= z < 2 ^ (Z.of_nat w * 8)) l ->
  dec_words w (length l) (enc_words w l) = l.
Proof.
  induction 1 as [|z l Hz Hl IH]; [done|].
  unfold enc_words in *; csimpl.
  rewrite take_app_length', drop_app_length' by (by rewrite enc_word_length).
  by rewrite IH, dec_enc_word.
Qed.

Lemma enc_dec_words w n b :
  length b = (w * n)%nat -> enc_words w (dec_words w n b) = b.
Proof.
  revert b. induction n as [|n IH]; intros b Hb; simpl.
  - destruct b; simpl in *; [done | lia].
  - unfold enc_words in *; csimpl. rewrite IH by len.
    assert (Hw : length (take w b) = w) by len.
    rewrite <- Hw at 1. by rewrite enc_dec_word, take_drop.
Qed.

Lemma dec_words_range w n b :
  length b = (w * n)%nat ->
  Forall (fun z => 0 <= z < 2 ^ (Z.of_nat w * 8)) (dec_words w n b).
Proof.
  revert b. induction n as [|n IH]; intros b Hb; simpl; constructor.
  - pose proof (dec_word_range (take w b)) as H. revert H. by rewrite length_take_le by lia.
  - apply IH. len.
Qed.

#[global] Arguments dec_words : simpl never.
#[global] Arguments enc_words : simpl never.
#[global] Arguments dec_word : simpl never.
#[global] Arguments enc_word : simpl never.
