(* ===== verification/BlockDev.v ===== *)
(** * Block devices (easy-fs/src/block_dev.rs, easy-fs-fuse/src/main.rs)

    The trait [BlockDevice], the laws its implementors are relied on for, and
    the implementation the image packer uses: a host file read and written
    in units of 512 bytes. *)

From S2P Require Import Prelude.

(** [BLOCK_SZ] of lib.rs. *)
Definition BLOCK_SZ : Z := 512.
Definition block_len : nat := 512.

(** The trait: a device is read and written through [&self], so both
    operations may change the device's internal state. *)
Class BlockDevice (D : Type) := {
  read_block : Z -> list byte -> cmd D (list byte);
  write_block : Z -> list byte -> cmd D unit;
}.

(** What the file system relies on: below the device's capacity, a block reads
    as it was last written. *)
Class BlockDeviceSpec (D : Type) `{BlockDevice D} := {
  disk : D -> gmap Z (list byte);
  dev_ok : D -> Prop;
  disk_length d id b : dev_ok d -> disk d !! id = Some b -> length b = block_len;
  read_block_ok d id b buf :
    dev_ok d -> disk d !! id = Some b -> length buf = block_len ->
    exists d', read_block id buf d = Ok (b, d') /\ disk d' = disk d /\ dev_ok d';
  write_block_ok d id b :
    dev_ok d -> is_Some (disk d !! id) -> length b = block_len ->
    exists d', write_block id b d = Ok (tt, d')
               /\ disk d' = <[id := b]> (disk d) /\ dev_ok d';
}.

(** ** [BlockFile]: a device backed by a host file *)
Module BlockFile.

(** [std::fs::File]: the bytes and the cursor. *)
Record File := mkFile { data : list byte; pos : Z }.

(** [seek(SeekFrom::Start(p))]. *)
Definition seek (p : Z) (f : File) : File := mkFile (data f) p.

(** [read(buf)]: fills a prefix of [buf], as much as the file has. *)
Definition read (buf : list byte) (f : File) : Z * list byte * File :=
  let got := take (length buf) (drop (Z.to_nat (pos f)) (data f)) in
  (zlen got, got ++ drop (length got) buf, mkFile (data f) (pos f + zlen got)).

(** [write(buf)]: overwrites from the cursor on, extending the file; a gap past
    the end reads as zeros. *)
Definition write (buf : list byte) (f : File) : Z * File :=
  let p := Z.to_nat (pos f) in
  let padded := data f ++ replicate (p - length (data f)) Byte.x00 in
  (zlen buf, mkFile (splice padded p buf) (pos f + zlen buf)).

Definition read_block (block_id : Z) (buf : list byte) : cmd File (list byte) :=
  fun f =>
    let '(n, buf', f') := read buf (seek (w64 (block_id * BLOCK_SZ)) f) in
    if n =? BLOCK_SZ then Ok (buf', f') else Fail Panic.

Definition write_block (block_id : Z) (buf : list byte) : cmd File unit :=
  fun f =>
    let '(n, f') := write buf (seek (w64 (block_id * BLOCK_SZ)) f) in
    if n =? BLOCK_SZ then Ok (tt, f') else Fail Panic.

#[export] Instance file_device : BlockDevice File := {
  BlockDev.read_block := read_block;
  BlockDev.write_block := write_block;
}.

Definition block_at (l : list byte) (k : nat) : list byte :=
  take block_len (drop (block_len * k) l).

(** The complete blocks of the file. *)
Definition disk (f : File) : gmap Z (list byte) :=
  map_seqZ 0 (block_at (data f) <$> seq 0 (length (data f) / block_len)).

Definition ok (f : File) : Prop := zlen (data f) < 2 ^ 63.

Lemma disk_lookup f id b :
  disk f !! id = Some b <->
  0 <= id < zlen (data f) / BLOCK_SZ /\ b = block_at (data f) (Z.to_nat id).
Proof.
  unfold disk. rewrite lookup_map_seqZ_Some, Z.sub_0_r, list_lookup_fmap_Some.
  setoid_rewrite lookup_seq. unfold zlen, BLOCK_SZ, block_len.
  change 512 with (Z.of_nat 512). rewrite <- Nat2Z.inj_div.
  split; [intros (? & ? & -> & -> & ?) | intros (? & ->)].
  - split; [lia | done].
  - split; [lia|]. exists (Z.to_nat id). split; [done|]. lia.
Qed.

Lemma block_at_length l k :
  (block_len * k + block_len <= length l)%nat -> length (block_at l k) = block_len.
Proof. unfold block_at. intros. len. Qed.

Lemma in_range f id :
  0 <= id < zlen (data f) / BLOCK_SZ ->
  (block_len * Z.to_nat id + block_len <= length (data f))%nat.
Proof.
  unfold zlen, BLOCK_SZ, block_len. intros.
  pose proof (Z.mul_div_le (Z.of_nat (length (data f))) 512). lia.
Qed.

Lemma seek_no_wrap f id :
  ok f -> 0 <= id < zlen (data f) / BLOCK_SZ -> w64 (id * BLOCK_SZ) = id * BLOCK_SZ.
Proof.
  unfold ok. intros ? H. apply w64_small.
  pose proof (in_range _ _ H). unfold zlen, BLOCK_SZ, block_len in *. lia.
Qed.

(** Reading a block below the end of the file returns its bytes. *)
Lemma read_block_ok f id b buf :
  ok f -> disk f !! id = Some b -> length buf = block_len ->
  exists f', read_block id buf f = Ok (b, f') /\ disk f' = disk f /\ ok f'.
Proof.
  intros Hok Hb Hbuf. apply disk_lookup in Hb as [Hid ->].
  pose proof (in_range _ _ Hid) as Hr.
  unfold read_block. rewrite (seek_no_wrap _ _ Hok Hid). cbn [read seek data pos].
  rewrite Hbuf. replace (Z.to_nat (id * BLOCK_SZ)) with (block_len * Z.to_nat id)%nat
    by (unfold BLOCK_SZ, block_len; lia).
  fold (block_at (data f) (Z.to_nat id)).
  rewrite block_at_length by done. rewrite drop_ge, app_nil_r by lia.
  unfold zlen at 1. rewrite block_at_length by done. simpl. eauto.
Qed.

Lemma write_data f id b :
  ok f -> 0 <= id < zlen (data f) / BLOCK_SZ -> length b = block_len ->
  exists f', write_block id b f = Ok (tt, f')
             /\ data f' = splice (data f) (block_len * Z.to_nat id) b.
Proof.
  intros Hok Hid Hb. pose proof (in_range _ _ Hid) as Hr.
  unfold write_block. rewrite (seek_no_wrap _ _ Hok Hid). cbn [write seek data pos].
  unfold zlen at 1. rewrite Hb. simpl.
  replace (Z.to_nat (id * BLOCK_SZ)) with (block_len * Z.to_nat id)%nat
    by (unfold BLOCK_SZ, block_len; lia).
  replace (block_len * Z.to_nat id - length (data f))%nat with 0%nat by lia.
  rewrite app_nil_r. by eexists.
Qed.

Lemma block_at_splice_same l k b :
  (block_len * k + block_len <= length l)%nat -> length b = block_len ->
  block_at (splice l (block_len * k) b) k = b.
Proof. intros. unfold block_at. rewrite <- H0. apply take_drop_splice. lia. Qed.

Lemma block_at_splice_other l k k' b :
  (block_len * k + block_len <= length l)%nat -> length b = block_len -> k <> k' ->
  block_at (splice l (block_len * k) b) k' = block_at l k'.
Proof.
  intros Hl Hb Hne. unfold block_at.
  destruct (decide (k < k')%nat).
  - apply take_drop_splice_after; unfold block_len in *; lia.
  - apply take_drop_splice_before; unfold block_len in *; lia.
Qed.

(** Writing a block below the end of the file changes that block only. *)
Lemma write_block_ok f id b :
  ok f -> is_Some (disk f !! id) -> length b = block_len ->
  exists f', write_block id b f = Ok (tt, f') /\ disk f' = <[id := b]> (disk f) /\ ok f'.
Proof.
  intros Hok [b0 Hb0] Hb. apply disk_lookup in Hb0 as [Hid _].
  destruct (write_data f id b Hok Hid Hb) as (f' & Hw & Hd).
  pose proof (in_range _ _ Hid) as Hr.
  assert (Hlen : length (data f') = length (data f)) by (rewrite Hd; apply splice_length; lia).
  assert (Hz : zlen (data f') = zlen (data f)) by (unfold zlen; by rewrite Hlen).
  exists f'. split; [done|]. split; [|unfold ok; by rewrite Hz].
  apply map_eq. intros i. apply option_eq. intros x.
  rewrite disk_lookup, lookup_insert_Some, disk_lookup, Hz, Hd.
  split.
  - intros [Hi ->]. destruct (decide (id = i)) as [->|Hne].
    + left. split; [done|]. by rewrite block_at_splice_same.
    + right. rewrite block_at_splice_other by (done || lia). done.
  - intros [[<- <-]|[Hne [Hi ->]]].
    + by rewrite block_at_splice_same.
    + rewrite block_at_splice_other by (done || lia). done.
Qed.

Lemma disk_length f id b : ok f -> disk f !! id = Some b -> length b = block_len.
Proof.
  intros _ H. apply disk_lookup in H as [? ->]. by apply block_at_length, in_range.
Qed.

#[export] Instance file_device_spec : BlockDeviceSpec File := {
  BlockDev.disk := disk;
  BlockDev.dev_ok := ok;
  BlockDev.disk_length := disk_length;
  BlockDev.read_block_ok := read_block_ok;
  BlockDev.write_block_ok := write_block_ok;
}.

End BlockFile.
