(* ===== verification/BlockStore.v ===== *)
(** * The block store interface

    What the file-system layers (bitmap.rs, layout.rs, efs.rs, vfs.rs) use of
    the block cache: [get_block_cache(id, dev).lock()], references into the
    bytes of the locked block, and the end of the statement, which drops the
    lock guard and the [Arc].  [BlockStoreSpec] is the promise the cache makes
    to its clients; [runs] is the proof system the clients use, in which the
    store is nothing but a finite map from block ids to blocks. *)

From S2P Require Import Prelude BlockDev.

(** [BLOCK_CACHE_SIZE] of block_cache.rs. *)
Definition BLOCK_CACHE_SIZE : Z := 16.

Class BlockStore (St : Type) := {
  (** [get_block_cache(id, ...).lock()] *)
  acquire : Z -> cmd St unit;
  (** [&self.cache] of a locked block *)
  get_ref : Z -> cmd St (list byte);
  (** [&mut self.cache] of a locked block, marking it modified *)
  get_mut : Z -> cmd St (list byte);
  (** a write through that reference *)
  put : Z -> list byte -> cmd St unit;
  (** the guard and the [Arc] go out of scope *)
  release : Z -> cmd St unit;
  (** [block_cache_sync_all()] *)
  sync_all : cmd St unit;
}.

(** The contract.  [content] is the logical disk, [held] the blocks locked at
    the moment, [stable] what is on the device. *)
Class BlockStoreSpec (St : Type) `{BlockStore St} := {
  content : St -> gmap Z (list byte);
  stable : St -> gmap Z (list byte);
  held : St -> gset Z;
  wf : St -> Prop;
  content_length s id b : wf s -> content s !! id = Some b -> length b = block_len;
  acquire_ok s id :
    wf s -> is_Some (content s !! id) -> id ∉ held s ->
    Z.of_nat (size (held s)) < BLOCK_CACHE_SIZE ->
    exists s', acquire id s = Ok (tt, s') /\ wf s'
               /\ content s' = content s /\ held s' = {[id]} ∪ held s;
  get_ref_ok s id b :
    wf s -> id ∈ held s -> content s !! id = Some b -> get_ref id s = Ok (b, s);
  get_mut_ok s id b :
    wf s -> id ∈ held s -> content s !! id = Some b ->
    exists s', get_mut id s = Ok (b, s') /\ wf s'
               /\ content s' = content s /\ held s' = held s;
  put_ok s id b :
    wf s -> id ∈ held s -> length b = block_len ->
    exists s', put id b s = Ok (tt, s') /\ wf s'
               /\ content s' = <[id := b]> (content s) /\ held s' = held s;
  release_ok s id :
    wf s -> id ∈ held s ->
    exists s', release id s = Ok (tt, s') /\ wf s'
               /\ content s' = content s /\ held s' = held s ∖ {[id]};
  sync_all_ok s :
    wf s -> held s = ∅ ->
    exists s', sync_all s = Ok (tt, s') /\ wf s'
               /\ content s' = content s /\ held s' = ∅ /\ stable s' = content s';
}.

(** ** Typed references into a block

    [&*(addr as *const T)]: how a [T] is laid out in [size_of] bytes.  [encode]
    takes the bytes it overwrites, so that padding keeps its value. *)
Record View (T : Type) := mkView {
  size_of : Z;
  decode : list byte -> result T;
  encode : list byte -> T -> list byte;
}.
Arguments mkView {T}.
Arguments size_of {T}.
Arguments decode {T}.
Arguments encode {T}.

(** The bytes of an object of size [n] at offset [off]. *)
Definition field (b : list byte) (off n : Z) : list byte :=
  take (Z.to_nat n) (drop (Z.to_nat off) b).

Section Access.
Context {St : Type} `{BlockStore St}.

(** [BlockCache::read(off, f)] on [get_block_cache(id, dev).lock()]. *)
Definition read {T V} (vw : View T) (id off : Z) (f : T -> cmd St V) : cmd St V :=
  acquire id;;
  assert (w64 (off + size_of vw) <=? BLOCK_SZ);;
  assert (off <? BLOCK_SZ);;
  let* b := get_ref id in
  let* t := lift (decode vw (field b off (size_of vw))) in
  let* v := f t in
  release id;;
  ret v.

(** [BlockCache::modify(off, f)] on [get_block_cache(id, dev).lock()]: [f]
    returns the closure's value and the new object. *)
Definition modify {T V} (vw : View T) (id off : Z) (f : T -> cmd St (V * T)) : cmd St V :=
  acquire id;;
  assert (w64 (off + size_of vw) <=? BLOCK_SZ);;
  assert (off <? BLOCK_SZ);;
  let* b := get_mut id in
  let old := field b off (size_of vw) in
  let* t := lift (decode vw old) in
  let* (v, t') := f t in
  put id (splice b (Z.to_nat off) (encode vw old t'));;
  release id;;
  ret v.

End Access.

(** ** The proof system *)
Section Logic.
Context {St : Type} `{BlockStoreSpec St}.

(** From a store with logical content [σ] and the blocks [L] locked, [m]
    returns [a] and leaves the content [σ'] and the blocks [L'] locked.  This is
    total correctness: no panic, no deadlock, no missing iteration. *)
Definition exec {A} (L : gset Z) (σ : gmap Z (list byte)) (m : cmd St A) (a : A)
    (L' : gset Z) (σ' : gmap Z (list byte)) : Prop :=
  forall s, wf s -> content s = σ -> held s = L ->
  exists s', m s = Ok (a, s') /\ wf s' /\ content s' = σ' /\ held s' = L'.

(** The usual case: every lock taken is given back. *)
Definition runs {A} (L : gset Z) (σ : gmap Z (list byte)) (m : cmd St A) (a : A)
    (σ' : gmap Z (list byte)) : Prop := exec L σ m a L σ'.

Lemma exec_bind {A B} L L1 L2 σ σ1 σ2 (m : cmd St A) (k : A -> cmd St B) a b :
  exec L σ m a L1 σ1 -> exec L1 σ1 (k a) b L2 σ2 -> exec L σ (bind m k) b L2 σ2.
Proof.
  intros Hm Hk s Hs Hc Hh. destruct (Hm s Hs Hc Hh) as (s1 & E & Hs1 & Hc1 & Hh1).
  rewrite (bind_Ok _ _ _ _ _ E). eauto.
Qed.

Lemma runs_ret {A} L σ (a : A) : runs L σ (ret a) a σ.
Proof. intros s ???. by exists s. Qed.

Lemma runs_bind {A B} L σ σ1 σ2 (m : cmd St A) (k : A -> cmd St B) a b :
  runs L σ m a σ1 -> runs L σ1 (k a) b σ2 -> runs L σ (bind m k) b σ2.
Proof. apply exec_bind. Qed.

Lemma runs_lift {A} L σ (r : result A) a : r = Ok a -> runs L σ (lift r) a σ.
Proof. intros ->. apply runs_ret. Qed.

Lemma runs_assert L σ b : b = true -> runs L σ (assert b) tt σ.
Proof. intros ->. apply runs_ret. Qed.

Lemma runs_bind_lift {A B} L σ σ' (r : result A) (k : A -> cmd St B) a b :
  r = Ok a -> runs L σ (k a) b σ' -> runs L σ (bind (lift r) k) b σ'.
Proof. intros ??. eapply runs_bind; [by apply runs_lift|done]. Qed.

Lemma runs_bind_assert {B} L σ σ' c (k : unit -> cmd St B) b :
  c = true -> runs L σ (k tt) b σ' -> runs L σ (bind (assert c) k) b σ'.
Proof. intros ??. eapply runs_bind; [by apply runs_assert|done]. Qed.

Lemma runs_bind_ret {A B} L σ σ' a (k : A -> cmd St B) b :
  runs L σ (k a) b σ' -> runs L σ (bind (ret a) k) b σ'.
Proof. intros ?. eapply runs_bind; [by apply runs_ret|done]. Qed.

Lemma runs_while_done {X} L σ n (cond : X -> bool) (body : X -> cmd St X) st :
  cond st = false -> runs L σ (while (S n) cond body st) st σ.
Proof. intros E. simpl. rewrite E. apply runs_ret. Qed.

Lemma runs_while_step {X} L σ σ1 σ2 n (cond : X -> bool) (body : X -> cmd St X) st st' r :
  cond st = true -> runs L σ (body st) st' σ1 -> runs L σ1 (while n cond body st') r σ2 ->
  runs L σ (while (S n) cond body st) r σ2.
Proof. intros E Hb Hw. simpl. rewrite E. by eapply runs_bind. Qed.

Lemma exec_acquire L σ id :
  is_Some (σ !! id) -> id ∉ L -> Z.of_nat (size L) < BLOCK_CACHE_SIZE ->
  exec L σ (acquire id) tt ({[id]} ∪ L) σ.
Proof. intros Hid Hn Hsz s Hs <- <-. by apply acquire_ok. Qed.

Lemma exec_release L σ id :
  id ∉ L -> exec ({[id]} ∪ L) σ (release id) tt L σ.
Proof.
  intros Hn s Hs <- Hh. destruct (release_ok s id) as (s' & ? & ? & ? & Hh');
    [done|set_solver|].
  exists s'. split_and!; [done..|]. rewrite Hh', Hh. set_solver.
Qed.

Lemma exec_get_ref L σ id b :
  id ∈ L -> σ !! id = Some b -> runs L σ (get_ref id) b σ.
Proof. intros Hn Hb s Hs <- <-. exists s. split; [by apply get_ref_ok|done]. Qed.

Lemma exec_get_mut L σ id b :
  id ∈ L -> σ !! id = Some b -> runs L σ (get_mut id) b σ.
Proof. intros Hn Hb s Hs <- <-. by apply get_mut_ok. Qed.

Lemma exec_put L σ id b :
  id ∈ L -> length b = block_len -> runs L σ (put id b) tt (<[id := b]> σ).
Proof. intros Hn Hb s Hs <- <-. by apply put_ok. Qed.

Lemma size_held_union (L : gset Z) id :
  id ∉ L -> size ({[id]} ∪ L) = S (size L).
Proof. intros. rewrite size_union by set_solver. by rewrite size_singleton. Qed.

Lemma field_length b off n :
  length b = block_len -> 0 <= off -> 0 <= n -> off + n <= BLOCK_SZ ->
  length (field b off n) = Z.to_nat n.
Proof. unfold field, BLOCK_SZ, block_len. intros. len. Qed.

(** The side conditions of a typed access: the block is not locked yet, the
    cache has a slot that can be evicted, and the object lies in the block. *)
Definition access_ok (L : gset Z) (id off n : Z) : Prop :=
  (id ∉ L) /\ Z.of_nat (size L) < BLOCK_CACHE_SIZE /\
  0 <= off < BLOCK_SZ /\ 0 <= n /\ off + n <= BLOCK_SZ.

Lemma access_checks {A} L L' L'' σ σ' id off n (k : cmd St A) a :
  access_ok L id off n ->
  exec L' σ k a L'' σ' ->
  exec L' σ (assert (w64 (off + n) <=? BLOCK_SZ);; assert (off <? BLOCK_SZ);; k) a L'' σ'.
Proof.
  intros (_ & _ & Hoff & Hn & Hsum) Hk. unfold BLOCK_SZ in *.
  eapply exec_bind; [apply runs_assert, Z.leb_le; rewrite w64_small; lia|].
  eapply exec_bind; [apply runs_assert, Z.ltb_lt; lia|]. done.
Qed.

(** [BlockCache::read]: the closure runs with the block locked. *)
Lemma runs_read {T V} L σ σ' (vw : View T) id off b t (f : T -> cmd St V) v :
  access_ok L id off (size_of vw) ->
  σ !! id = Some b -> decode vw (field b off (size_of vw)) = Ok t ->
  runs ({[id]} ∪ L) σ (f t) v σ' ->
  runs L σ (read vw id off f) v σ'.
Proof.
  intros Hok Hb Ht Hf. pose proof Hok as (Hid & Hsz & _).
  eapply exec_bind; [by apply exec_acquire|].
  eapply access_checks; [done|].
  eapply exec_bind; [apply exec_get_ref; [set_solver|done]|].
  eapply exec_bind; [by apply runs_lift|].
  eapply exec_bind; [apply Hf|].
  eapply exec_bind; [by apply exec_release|]. apply runs_ret.
Qed.

(** [BlockCache::modify]: what the closure leaves in the object is what the
    block holds afterwards, and the bytes around it are unchanged. *)
Lemma runs_modify {T V} L σ σ' (vw : View T) id off b t t' (f : T -> cmd St (V * T)) v :
  access_ok L id off (size_of vw) ->
  σ !! id = Some b -> length b = block_len ->
  decode vw (field b off (size_of vw)) = Ok t ->
  length (encode vw (field b off (size_of vw)) t') = Z.to_nat (size_of vw) ->
  runs ({[id]} ∪ L) σ (f t) (v, t') σ' ->
  runs L σ (modify vw id off f) v
    (<[id := splice b (Z.to_nat off) (encode vw (field b off (size_of vw)) t')]> σ').
Proof.
  intros Hok Hb Hlen Ht He Hf. pose proof Hok as (Hid & Hsz & Hoff & Hn & Hsum).
  eapply exec_bind; [by apply exec_acquire|].
  eapply access_checks; [done|].
  eapply exec_bind; [apply exec_get_mut; [set_solver|done]|].
  eapply exec_bind; [by apply runs_lift|].
  eapply exec_bind; [apply Hf|]. cbn beta iota.
  eapply exec_bind; [apply exec_put; [set_solver|]|].
  { unfold block_len, BLOCK_SZ in *. rewrite splice_length; lia. }
  eapply exec_bind; [by apply exec_release|]. apply runs_ret.
Qed.

(** Views of a whole block: an array that fills it. *)
Definition lockable (L : gset Z) (id : Z) : Prop :=
  (id ∉ L) /\ Z.of_nat (size L) < BLOCK_CACHE_SIZE.

Lemma field_all b : length b = block_len -> field b 0 BLOCK_SZ = b.
Proof. intros. unfold field. rewrite drop_0. apply take_ge. unfold block_len, BLOCK_SZ in *. lia. Qed.

Lemma runs_read_block {T V} L σ σ' (vw : View T) id b t (f : T -> cmd St V) v :
  size_of vw = BLOCK_SZ -> lockable L id ->
  σ !! id = Some b -> length b = block_len -> decode vw b = Ok t ->
  runs ({[id]} ∪ L) σ (f t) v σ' ->
  runs L σ (read vw id 0 f) v σ'.
Proof.
  intros Hsz [Hid Hroom] Hb Hlen Ht Hf. eapply runs_read; [|done| |done].
  - rewrite Hsz. unfold access_ok, BLOCK_SZ. split_and!; (done || lia).
  - by rewrite Hsz, field_all.
Qed.

Lemma runs_modify_block {T V} L σ σ' (vw : View T) id b t t' (f : T -> cmd St (V * T)) v :
  size_of vw = BLOCK_SZ -> lockable L id ->
  σ !! id = Some b -> length b = block_len -> decode vw b = Ok t ->
  length (encode vw b t') = block_len ->
  runs ({[id]} ∪ L) σ (f t) (v, t') σ' ->
  runs L σ (modify vw id 0 f) v (<[id := encode vw b t']> σ').
Proof.
  intros Hsz [Hid Hroom] Hb Hlen Ht He Hf.
  pose proof (runs_modify L σ σ' vw id 0 b t t' f v) as Hm.
  rewrite Hsz, field_all in Hm by done. change (Z.to_nat 0) with 0%nat in Hm.
  rewrite splice_all in Hm by congruence.
  by apply Hm.
Qed.

(** [m] fails with [e] from every store with that content. *)
Definition fails {A} (L : gset Z) (σ : gmap Z (list byte)) (m : cmd St A) (e : fault) : Prop :=
  forall s, wf s -> content s = σ -> held s = L -> m s = Fail e.

Lemma fails_fail {A} L σ e : fails L σ (fail e : cmd St A) e.
Proof. by intros s ???. Qed.

Lemma fails_bind {A B} L σ (m : cmd St A) (k : A -> cmd St B) e :
  fails L σ m e -> fails L σ (bind m k) e.
Proof. intros Hm s Hs Hc Hh. unfold bind. by rewrite (Hm s Hs Hc Hh). Qed.

Lemma exec_bind_fails {A B} L L1 σ σ1 (m : cmd St A) (k : A -> cmd St B) a e :
  exec L σ m a L1 σ1 -> fails L1 σ1 (k a) e -> fails L σ (bind m k) e.
Proof.
  intros Hm Hk s Hs Hc Hh. destruct (Hm s Hs Hc Hh) as (s1 & E & Hs1 & Hc1 & Hh1).
  rewrite (bind_Ok _ _ _ _ _ E). by apply Hk.
Qed.

Lemma fails_lift {A} L σ (r : result A) e : r = Fail e -> fails L σ (lift r : cmd St A) e.
Proof. intros -> s ???. done. Qed.

Lemma fails_assert L σ b : b = false -> fails L σ (assert b : cmd St unit) Panic.
Proof. intros -> s ???. done. Qed.

(** A closure that fails takes the whole access with it. *)
Lemma fails_modify {T V} L σ (vw : View T) id off b t (f : T -> cmd St (V * T)) e :
  access_ok L id off (size_of vw) -> σ !! id = Some b ->
  decode vw (field b off (size_of vw)) = Ok t ->
  fails ({[id]} ∪ L) σ (f t) e -> fails L σ (modify vw id off f) e.
Proof.
  intros Hok Hb Ht Hf. pose proof Hok as (Hid & Hsz & Hoff & Hn & Hsum). unfold BLOCK_SZ in *.
  eapply exec_bind_fails; [by apply exec_acquire|].
  eapply exec_bind_fails; [apply runs_assert, Z.leb_le; rewrite w64_small; unfold BLOCK_SZ; lia|].
  eapply exec_bind_fails; [apply runs_assert, Z.ltb_lt; unfold BLOCK_SZ; lia|].
  eapply exec_bind_fails; [apply exec_get_mut; [set_solver|done]|].
  eapply exec_bind_fails; [by apply runs_lift|]. by apply fails_bind.
Qed.

Lemma fails_read {T V} L σ (vw : View T) id off b t (f : T -> cmd St V) e :
  access_ok L id off (size_of vw) -> σ !! id = Some b ->
  decode vw (field b off (size_of vw)) = Ok t ->
  fails ({[id]} ∪ L) σ (f t) e -> fails L σ (read vw id off f) e.
Proof.
  intros Hok Hb Ht Hf. pose proof Hok as (Hid & Hsz & Hoff & Hn & Hsum). unfold BLOCK_SZ in *.
  eapply exec_bind_fails; [by apply exec_acquire|].
  eapply exec_bind_fails; [apply runs_assert, Z.leb_le; rewrite w64_small; unfold BLOCK_SZ; lia|].
  eapply exec_bind_fails; [apply runs_assert, Z.ltb_lt; unfold BLOCK_SZ; lia|].
  eapply exec_bind_fails; [apply exec_get_ref; [set_solver|done]|].
  eapply exec_bind_fails; [by apply runs_lift|]. by apply fails_bind.
Qed.

(** [m; block_cache_sync_all(); v]: with nothing locked, the effect of [m] is
    on the device when the statement ends. *)
Lemma runs_sync_all {A} σ σ' (m : cmd St A) a s :
  runs ∅ σ m a σ' -> wf s -> content s = σ -> held s = ∅ ->
  exists s', (let* x := m in sync_all;; ret x) s = Ok (a, s') /\ wf s'
             /\ content s' = σ' /\ held s' = ∅ /\ stable s' = σ'.
Proof.
  intros Hm Hs Hc Hh. destruct (Hm s Hs Hc Hh) as (s1 & E & Hs1 & Hc1 & Hh1).
  rewrite (bind_Ok _ _ _ _ _ E).
  destruct (sync_all_ok s1 Hs1 Hh1) as (s2 & E2 & Hs2 & Hc2 & Hh2 & Hst).
  rewrite (bind_Ok _ _ _ _ _ E2). exists s2. split_and!; [done..|congruence|done|congruence].
Qed.

End Logic.
