(* ===== verification/BlockCache.v ===== *)
(** * The block cache (easy-fs/src/block_cache.rs)

    At most sixteen blocks in memory, evicted first-in first-out among those
    nobody references, written back when dropped or synchronised.  The theorem
    of this file is that the cache is a [BlockStore]: to its clients the
    cache and the device together are one finite map of blocks. *)

From S2P Require Import Prelude BlockDev BlockStore.

Record BlockCache := mkCache {
  cache : list byte;
  block_id : Z;
  modified : bool;
}.

(** [Arc<Mutex<BlockCache>>] as the queue holds it: the cache, the strong count
    of the [Arc] and whether the mutex is locked. *)
Record CacheArc := mkArc {
  inner : BlockCache;
  strong_count : Z;
  locked : bool;
}.

(** The device together with [BLOCK_CACHE_MANAGER]. *)
Record CacheState (D : Type) := mkState {
  device : D;
  queue : list (Z * CacheArc);
}.
Arguments mkState {D}.
Arguments device {D}.
Arguments queue {D}.

Section Cache.
Context {D : Type} `{BlockDevice D}.

Definition on_device {A} (m : cmd D A) : cmd (CacheState D) A :=
  fun s => match m (device s) with
           | Ok (a, d) => Ok (a, mkState d (queue s))
           | Fail f => Fail f
           end.

Definition set_queue (q : list (Z * CacheArc)) : cmd (CacheState D) unit :=
  fun s => Ok (tt, mkState (device s) q).

Definition get_queue : cmd (CacheState D) (list (Z * CacheArc)) := fun s => Ok (queue s, s).

(** [BlockCache::new]. *)
Definition cache_new (id : Z) : cmd D BlockCache :=
  let* c := read_block id (replicate block_len Byte.x00) in
  ret (mkCache c id false).

(** [BlockCache::sync], also the body of [drop]. *)
Definition sync (c : BlockCache) : cmd D BlockCache :=
  if modified c then
    write_block (block_id c) (cache c);;
    ret (mkCache (cache c) (block_id c) false)
  else ret c.

(** [iter().find(|pair| pair.0 == block_id)]. *)
Definition find_id (id : Z) (q : list (Z * CacheArc)) : option (nat * CacheArc) :=
  '(i, p) ← list_find (fun p => p.1 = id) q; Some (i, p.2).

(** [iter().enumerate().find(|(_, pair)| Arc::strong_count(&pair.1) == 1)]. *)
Definition find_victim (q : list (Z * CacheArc)) : option (nat * CacheArc) :=
  '(i, p) ← list_find (fun p => strong_count p.2 = 1) q; Some (i, p.2).

(** The [i]-th entry of the queue, that of block [id], becomes [a]. *)
Definition set_arc (i : nat) (id : Z) (a : CacheArc) : cmd (CacheState D) unit :=
  fun s => Ok (tt, mkState (device s) (<[i := (id, a)]> (queue s))).

(** The substitution step: with sixteen blocks cached, the first one that only
    the queue references is dropped, which writes it back. *)
Definition make_room : cmd (CacheState D) unit :=
  let* q := get_queue in
  if zlen q =? BLOCK_CACHE_SIZE then
    match find_victim q with
    | Some (idx, a) => set_queue (delete idx q);; on_device (sync (inner a));; ret tt
    | None => fail Panic
    end
  else ret tt.

(** [BlockCacheManager::get_block_cache]; the [Arc] returned is counted. *)
Definition get_block_cache (id : Z) : cmd (CacheState D) unit :=
  let* q := get_queue in
  match find_id id q with
  | Some (i, a) => set_arc i id (mkArc (inner a) (strong_count a + 1) (locked a))
  | None =>
      make_room;;
      let* c := on_device (cache_new id) in
      let* q := get_queue in
      set_queue (q ++ [(id, mkArc c 2 false)])
  end.

(** The [Arc] of a block some statement has got hold of. *)
Definition arc_of (id : Z) : cmd (CacheState D) (nat * CacheArc) :=
  let* q := get_queue in
  match find_id id q with Some r => ret r | None => fail Undefined end.

(** [Mutex::lock]: spins forever on a lock this thread holds. *)
Definition lock (id : Z) : cmd (CacheState D) unit :=
  let* (i, a) := arc_of id in
  if locked a then fail Deadlock else set_arc i id (mkArc (inner a) (strong_count a) true).

(** End of statement: the [MutexGuard] unlocks, then the [Arc] is dropped. *)
Definition drop_guard (id : Z) : cmd (CacheState D) unit :=
  let* (i, a) := arc_of id in
  set_arc i id (mkArc (inner a) (strong_count a - 1) false).

Definition cache_ref (id : Z) : cmd (CacheState D) (list byte) :=
  let* (i, a) := arc_of id in ret (cache (inner a)).

(** [get_mut] sets the dirty flag and hands out the bytes. *)
Definition cache_mut (id : Z) : cmd (CacheState D) (list byte) :=
  let* (i, a) := arc_of id in
  let c := inner a in
  set_arc i id (mkArc (mkCache (cache c) (block_id c) true) (strong_count a) (locked a));;
  ret (cache c).

(** A write through the reference [get_mut] handed out. *)
Definition cache_put (id : Z) (b : list byte) : cmd (CacheState D) unit :=
  let* (i, a) := arc_of id in
  set_arc i id (mkArc (mkCache b (block_id (inner a)) true) (strong_count a) (locked a)).

(** [cache.lock().sync()] for the [i]-th entry of the queue. *)
Definition sync_entry (i : nat) : cmd (CacheState D) unit :=
  let* q := get_queue in
  match q !! i with
  | None => ret tt
  | Some (id, a) =>
      if locked a then fail Deadlock else
      let* c := on_device (sync (inner a)) in
      set_arc i id (mkArc c (strong_count a) (locked a))
  end.

(** [block_cache_sync_all]: locks and synchronises every entry in order. *)
Definition block_cache_sync_all : cmd (CacheState D) unit :=
  let* q := get_queue in
  for_each (seq 0 (length q)) (fun i _ => sync_entry i) tt.

#[export] Instance cache_store : BlockStore (CacheState D) := {
  acquire id := (get_block_cache id;; lock id);
  get_ref := cache_ref;
  get_mut := cache_mut;
  put := cache_put;
  release := drop_guard;
  sync_all := block_cache_sync_all;
}.

End Cache.

(** ** The invariant and the abstraction *)
Section Spec.
Context {D : Type} `{BlockDeviceSpec D}.
Implicit Types (s : CacheState D) (q : list (Z * CacheArc)) (a : CacheArc).

(** Between statements the queue references a block once and the holder of its
    lock once more; a clean cache agrees with the device. *)
Definition entry_ok (dk : gmap Z (list byte)) (p : Z * CacheArc) : Prop :=
  block_id (inner p.2) = p.1 /\
  length (cache (inner p.2)) = block_len /\
  strong_count p.2 = (if locked p.2 then 2 else 1) /\
  exists b, dk !! p.1 = Some b /\ (modified (inner p.2) = false -> cache (inner p.2) = b).

Definition cache_wf s : Prop :=
  dev_ok (device s) /\
  NoDup (queue s).*1 /\
  Forall (entry_ok (disk (device s))) (queue s) /\
  zlen (queue s) <= BLOCK_CACHE_SIZE.

Definition cached q : gmap Z (list byte) :=
  list_to_map ((fun p => (p.1, cache (inner p.2))) <$> q).

(** The logical disk: cached blocks shadow the device. *)
Definition logical s : gmap Z (list byte) := cached (queue s) ∪ disk (device s).

Definition is_locked (p : Z * CacheArc) : Prop := locked p.2 = true.
#[local] Instance is_locked_dec p : Decision (is_locked p).
Proof. unfold is_locked. apply _. Defined.

Definition locks q : gset Z := list_to_set (filter is_locked q).*1.

(** ** Looking entries up *)
Lemma find_id_Some id q i a :
  NoDup q.*1 -> q !! i = Some (id, a) -> find_id id q = Some (i, a).
Proof.
  intros Hnd Hi. unfold find_id.
  assert (E : list_find (fun p : Z * CacheArc => p.1 = id) q = Some (i, (id, a))).
  { apply list_find_Some. split_and!; [done|done|].
    intros j [id' a'] Hj Hlt Heq. simpl in Heq. subst id'.
    assert (q.*1 !! i = Some id) by (by rewrite list_lookup_fmap, Hi).
    assert (q.*1 !! j = Some id) by (by rewrite list_lookup_fmap, Hj).
    assert (i = j) by (by eapply NoDup_lookup). lia. }
  by rewrite E.
Qed.

Lemma find_id_None id q : id ∉ q.*1 -> find_id id q = None.
Proof.
  intros Hn. unfold find_id.
  assert (E : list_find (fun p : Z * CacheArc => p.1 = id) q = None).
  { apply list_find_None, Forall_forall. intros p Hp <-. apply Hn.
    by apply list_elem_of_fmap_2. }
  by rewrite E.
Qed.

Lemma cached_lookup q i id a :
  NoDup q.*1 -> q !! i = Some (id, a) -> cached q !! id = Some (cache (inner a)).
Proof.
  intros Hnd Hi. unfold cached. apply elem_of_list_to_map_1.
  - rewrite <- list_fmap_compose. done.
  - apply list_elem_of_fmap. exists (id, a). split; [done|]. by eapply list_elem_of_lookup_2.
Qed.

Lemma cached_None q id : id ∉ q.*1 -> cached q !! id = None.
Proof.
  intros. unfold cached. apply not_elem_of_list_to_map_1. by rewrite <- list_fmap_compose.
Qed.

Lemma logical_in s i id a :
  cache_wf s -> queue s !! i = Some (id, a) -> logical s !! id = Some (cache (inner a)).
Proof.
  intros (_ & Hnd & _) Hi. unfold logical. apply lookup_union_Some_l. by eapply cached_lookup.
Qed.

Lemma logical_out s id : id ∉ (queue s).*1 -> logical s !! id = disk (device s) !! id.
Proof. intros. unfold logical. by rewrite lookup_union_r by by apply cached_None. Qed.

Lemma entry_at s i id a :
  cache_wf s -> queue s !! i = Some (id, a) -> entry_ok (disk (device s)) (id, a).
Proof. intros (_ & _ & Hf & _) Hi. by eapply Forall_lookup_1 in Hf. Qed.

Lemma logical_dom s id : cache_wf s -> is_Some (logical s !! id) <-> is_Some (disk (device s) !! id).
Proof.
  intros Hs. destruct (decide (id ∈ (queue s).*1)) as [Hin|Hout].
  - apply list_elem_of_fmap in Hin as ([id' a] & -> & Hin). apply list_elem_of_lookup_1 in Hin as [i Hi].
    destruct (entry_at _ _ _ _ Hs Hi) as (_ & _ & _ & b & Hb & _). simpl in *.
    rewrite (logical_in _ _ _ _ Hs Hi), Hb. split; eauto.
  - by rewrite logical_out.
Qed.

Lemma logical_length s id b : cache_wf s -> logical s !! id = Some b -> length b = block_len.
Proof.
  intros Hs Hb. destruct (decide (id ∈ (queue s).*1)) as [Hin|Hout].
  - apply list_elem_of_fmap in Hin as ([id' a] & -> & Hin). apply list_elem_of_lookup_1 in Hin as [i Hi].
    simpl in Hb. rewrite (logical_in _ _ _ _ Hs Hi) in Hb. injection Hb as <-.
    by destruct (entry_at _ _ _ _ Hs Hi) as (_ & ? & _).
  - rewrite logical_out in Hb by done. destruct Hs as [Hd _]. by eapply disk_length.
Qed.

Lemma locks_spec q id :
  id ∈ locks q <-> exists i a, q !! i = Some (id, a) /\ locked a = true.
Proof.
  unfold locks. rewrite elem_of_list_to_set, list_elem_of_fmap. split.
  - intros ([id' a] & -> & Hin). apply list_elem_of_filter in Hin as [Hl Hin].
    apply list_elem_of_lookup_1 in Hin as [i Hi]. by exists i, a.
  - intros (i & a & Hi & Hl). exists (id, a). split; [done|].
    apply list_elem_of_filter. split; [done|]. by eapply list_elem_of_lookup_2.
Qed.

Lemma held_entry s id :
  id ∈ locks (queue s) ->
  exists i a, queue s !! i = Some (id, a) /\ locked a = true.
Proof. apply locks_spec. Qed.

(** ** Replacing one entry *)
Lemma insert_keys q i id a a' :
  q !! i = Some (id, a) -> (<[i := (id, a')]> q).*1 = q.*1.
Proof.
  intros Hi. rewrite list_fmap_insert. apply list_insert_id. by rewrite list_lookup_fmap, Hi.
Qed.

Lemma cached_insert q i id a a' :
  NoDup q.*1 -> q !! i = Some (id, a) ->
  cached (<[i := (id, a')]> q) = <[id := cache (inner a')]> (cached q).
Proof.
  intros Hnd Hi. pose proof (insert_keys _ _ _ _ a' Hi) as Hk.
  assert (Hlt : (i < length q)%nat) by (by eapply lookup_lt_Some).
  apply map_eq. intros j. rewrite lookup_insert. case_decide as Hj.
  - subst j. eapply cached_lookup; [by rewrite Hk|]. by apply list_lookup_insert_eq.
  - destruct (decide (j ∈ q.*1)) as [Hin|Hout].
    + apply list_elem_of_fmap in Hin as ([j' aj] & -> & Hin).
      apply list_elem_of_lookup_1 in Hin as [k Hk']. simpl in *.
      rewrite (cached_lookup q k j' aj) by done.
      eapply cached_lookup; [by rewrite Hk|]. rewrite list_lookup_insert_ne; [done|].
      intros ->. congruence.
    + rewrite !cached_None; [done|done|by rewrite Hk].
Qed.

Lemma locks_insert q i id a a' :
  NoDup q.*1 -> q !! i = Some (id, a) ->
  locks (<[i := (id, a')]> q) = if locked a' then {[id]} ∪ locks q else locks q ∖ {[id]}.
Proof.
  intros Hnd Hi. assert (Hlt : (i < length q)%nat) by (by eapply lookup_lt_Some).
  assert (Huniq : forall k b, q !! k = Some (id, b) -> k = i).
  { intros k b Hk. eapply NoDup_lookup; [done| |].
    - by rewrite list_lookup_fmap, Hk.
    - by rewrite list_lookup_fmap, Hi. }
  assert (Hother : forall j, j <> id ->
    (j ∈ locks (<[i := (id, a')]> q) <-> j ∈ locks q)).
  { intros j Hj. rewrite !locks_spec. split; intros (k & b & Hk & Hl).
    - destruct (decide (i = k)) as [->|Hne].
      + rewrite list_lookup_insert_eq in Hk by done. congruence.
      + rewrite list_lookup_insert_ne in Hk by done. eauto.
    - exists k, b. split; [|done]. rewrite list_lookup_insert_ne; [done|]. intros ->. congruence. }
  assert (Hself : id ∈ locks (<[i := (id, a')]> q) <-> locked a' = true).
  { rewrite locks_spec. split.
    - intros (k & b & Hk & Hl). destruct (decide (i = k)) as [->|Hne].
      + rewrite list_lookup_insert_eq in Hk by done. congruence.
      + rewrite list_lookup_insert_ne in Hk by done. by apply Huniq in Hk.
    - intros Hl. exists i, a'. split; [|done]. by apply list_lookup_insert_eq. }
  apply leibniz_equiv. intros j. destruct (decide (j = id)) as [->|Hj].
  - rewrite Hself. destruct (locked a'); set_solver.
  - rewrite (Hother j Hj). destruct (locked a'); set_solver.
Qed.

(** A state whose [i]-th entry is replaced by another well-formed one. *)
Lemma set_entry s i id a a' :
  cache_wf s -> queue s !! i = Some (id, a) -> entry_ok (disk (device s)) (id, a') ->
  let s' := mkState (device s) (<[i := (id, a')]> (queue s)) in
  cache_wf s' /\ logical s' = <[id := cache (inner a')]> (logical s)
  /\ locks (queue s') = (if locked a' then {[id]} ∪ locks (queue s) else locks (queue s) ∖ {[id]}).
Proof.
  intros (Hd & Hnd & Hf & Hlen) Hi Ha'. simpl. split_and!.
  - unfold cache_wf. simpl. rewrite (insert_keys _ _ _ _ _ Hi). split_and!; [done..| |].
    + apply Forall_insert; done.
    + unfold zlen in *. by rewrite length_insert.
  - unfold logical. simpl. rewrite (cached_insert _ _ _ a a') by done. by rewrite insert_union_l.
  - by apply (locks_insert _ _ _ a).
Qed.

(** ** Writing back and evicting *)

(** [sync] leaves the cached bytes on the device, clean or not. *)
Lemma sync_ok d id a :
  dev_ok d -> entry_ok (disk d) (id, a) ->
  exists d', sync (inner a) d = Ok (mkCache (cache (inner a)) id false, d')
             /\ disk d' = <[id := cache (inner a)]> (disk d) /\ dev_ok d'.
Proof.
  intros Hd (Hid & Hlen & _ & b & Hb & Hclean). simpl in *.
  destruct (inner a) as [c bid m]. simpl in *. subst bid. unfold sync. simpl. destruct m.
  - destruct (write_block_ok d id c) as (d' & E & Hdk & Hd'); [done|eauto|done|].
    rewrite (bind_Ok _ _ _ _ _ E). by exists d'.
  - specialize (Hclean eq_refl). subst c. exists d. split; [done|]. by rewrite insert_id.
Qed.

Lemma entry_ok_write dk id c p :
  entry_ok dk p -> p.1 <> id -> entry_ok (<[id := c]> dk) p.
Proof.
  intros (? & ? & ? & b & Hb & ?) Hne. split_and!; [done..|].
  exists b. by rewrite lookup_insert_ne by done.
Qed.

Lemma drop_entry s i id a d' :
  cache_wf s -> queue s !! i = Some (id, a) -> locked a = false ->
  dev_ok d' -> disk d' = <[id := cache (inner a)]> (disk (device s)) ->
  let s' := mkState d' (delete i (queue s)) in
  cache_wf s' /\ logical s' = logical s /\ locks (queue s') = locks (queue s).
Proof.
  intros (Hd & Hnd & Hf & Hlen) Hi Hl Hd' Hdk. simpl.
  pose proof (delete_Permutation _ _ _ Hi) as Hp.
  pose proof (fmap_Permutation fst _ _ Hp) as Hpk. simpl in Hpk.
  assert (Hnd' : NoDup (id :: (delete i (queue s)).*1)) by (by rewrite <- Hpk).
  apply NoDup_cons in Hnd' as [Hnin Hnd'].
  split_and!.
  - unfold cache_wf; simpl. split_and!; [done|done| |].
    + rewrite Hp in Hf. apply Forall_cons in Hf as [_ Hf]. rewrite Hdk.
      apply Forall_forall. intros p Hin. apply entry_ok_write.
      * by eapply Forall_forall in Hf.
      * intros <-. apply Hnin. by apply list_elem_of_fmap_2.
    + apply Permutation_length in Hp. simpl in Hp. unfold zlen in *. lia.
  - unfold logical. simpl. rewrite Hdk.
    rewrite <- insert_union_r by (by apply cached_None).
    rewrite insert_union_l. f_equal. unfold cached.
    transitivity (list_to_map (M := gmap Z (list byte))
      ((fun p : Z * CacheArc => (p.1, cache (inner p.2))) <$> (id, a) :: delete i (queue s)));
      [done|].
    apply list_to_map_proper; [|by apply fmap_Permutation].
    rewrite <- list_fmap_compose. simpl. by apply NoDup_cons.
  - assert (Hfp : filter is_locked (queue s) ≡ₚ filter is_locked (delete i (queue s))).
    { etransitivity; [by apply filter_Permutation|].
      rewrite filter_cons_False; [done|]. unfold is_locked. simpl. congruence. }
    unfold locks. apply list_to_set_perm_L. by apply fmap_Permutation.
Qed.

(** With fewer than sixteen blocks locked, a full queue has a victim. *)
Lemma victim_exists s :
  cache_wf s -> zlen (queue s) = BLOCK_CACHE_SIZE ->
  Z.of_nat (size (locks (queue s))) < BLOCK_CACHE_SIZE ->
  exists i id a, find_victim (queue s) = Some (i, a) /\ queue s !! i = Some (id, a)
                 /\ locked a = false.
Proof.
  intros (_ & Hnd & Hf & _) Hfull Hsz. unfold find_victim.
  destruct (list_find _ (queue s)) as [[i [id a]]|] eqn:E.
  - apply list_find_Some in E as (Hi & Hc & _). exists i, id, a. split_and!; [done|done|].
    eapply Forall_lookup_1 in Hi; [|done]. destruct Hi as (_ & _ & Hs & _). simpl in *.
    destruct (locked a); [lia|done].
  - exfalso. apply list_find_None in E.
    assert (Hall : filter is_locked (queue s) = queue s).
    { apply filter_all, Forall_forall. intros p Hp.
      eapply Forall_forall in E; [|done]. eapply Forall_forall in Hf; [|done].
      destruct Hf as (_ & _ & Hs & _). unfold is_locked. destruct (locked p.2); done. }
    unfold locks in Hsz. rewrite Hall, size_list_to_set, length_fmap in Hsz by done.
    unfold zlen in Hfull. lia.
Qed.

Lemma make_room_ok s :
  cache_wf s -> Z.of_nat (size (locks (queue s))) < BLOCK_CACHE_SIZE ->
  exists s', make_room s = Ok (tt, s') /\ cache_wf s' /\ logical s' = logical s
             /\ locks (queue s') = locks (queue s)
             /\ zlen (queue s') < BLOCK_CACHE_SIZE
             /\ (forall id, id ∉ (queue s).*1 -> id ∉ (queue s').*1).
Proof.
  intros Hs Hsz. unfold make_room, get_queue, bind at 1.
  destruct (Z.eqb_spec (zlen (queue s)) BLOCK_CACHE_SIZE) as [Hfull|Hnot].
  - destruct (victim_exists s Hs Hfull Hsz) as (i & id & a & -> & Hi & Hl).
    destruct (sync_ok (device s) id a) as (d' & E & Hdk & Hd');
      [apply Hs|by eapply entry_at|].
    destruct (drop_entry s i id a d' Hs Hi Hl Hd' Hdk) as (Hs' & Hlog & Hlk).
    exists (mkState d' (delete i (queue s))).
    unfold set_queue, on_device, bind. simpl. rewrite E.
    pose proof (delete_Permutation _ _ _ Hi) as Hp.
    split_and!; [done..| |].
    + apply Permutation_length in Hp. simpl in *. unfold zlen in *. lia.
    + simpl. intros j Hj Hin. apply Hj. rewrite Hp. simpl. by right.
  - exists s. split_and!; [done..| |done].
    destruct Hs as (_ & _ & _ & ?). unfold zlen in *. lia.
Qed.

(** ** The operations of the interface *)
Lemma arc_of_ok s i id a :
  cache_wf s -> queue s !! i = Some (id, a) -> arc_of id s = Ok ((i, a), s).
Proof.
  intros (_ & Hnd & _) Hi. unfold arc_of, get_queue, bind.
  by rewrite (find_id_Some _ _ _ _ Hnd Hi).
Qed.

(** [get_block_cache] followed by [lock], the block being in the queue. *)
Lemma acquire_hit s i id a :
  cache_wf s -> queue s !! i = Some (id, a) -> locked a = false ->
  acquire id s = Ok (tt, mkState (device s) (<[i := (id, mkArc (inner a) 2 true)]> (queue s))).
Proof.
  intros Hs Hi Hl. pose proof Hs as (_ & Hnd & _).
  destruct (entry_at _ _ _ _ Hs Hi) as (_ & _ & Hc & _). simpl in Hc. rewrite Hl in Hc.
  cbn. unfold bind, get_block_cache, lock, arc_of, get_queue, set_arc, bind.
  rewrite (find_id_Some _ _ _ _ Hnd Hi). simpl.
  rewrite (find_id_Some id _ i (mkArc (inner a) (strong_count a + 1) (locked a))).
  - simpl. rewrite Hl, Hc. simpl. by rewrite list_insert_insert_eq.
  - by rewrite (insert_keys _ _ _ a).
  - apply list_lookup_insert_eq. by eapply lookup_lt_Some.
Qed.

Lemma cache_new_ok d id b :
  dev_ok d -> disk d !! id = Some b ->
  exists d', cache_new id d = Ok (mkCache b id false, d') /\ disk d' = disk d /\ dev_ok d'.
Proof.
  intros Hd Hb.
  destruct (read_block_ok d id b (replicate block_len Byte.x00)) as (d' & E & Hdk & Hd');
    [done|done|apply length_replicate|].
  unfold cache_new. rewrite (bind_Ok _ _ _ _ _ E). by exists d'.
Qed.

Lemma push_entry s id b d' :
  cache_wf s -> id ∉ (queue s).*1 -> zlen (queue s) < BLOCK_CACHE_SIZE ->
  dev_ok d' -> disk d' = disk (device s) -> disk (device s) !! id = Some b ->
  let s' := mkState d' (queue s ++ [(id, mkArc (mkCache b id false) 1 false)]) in
  cache_wf s' /\ logical s' = logical s /\ locks (queue s') = locks (queue s).
Proof.
  intros (Hd & Hnd & Hf & Hlen) Hnin Hroom Hd' Hdk Hb. simpl. split_and!.
  - unfold cache_wf. simpl. rewrite fmap_app, Hdk. split_and!.
    + done.
    + apply NoDup_app. split; [done|]. split; [set_solver|apply NoDup_singleton].
    + apply Forall_app. split; [done|]. apply Forall_singleton. unfold entry_ok. simpl.
      split_and!; [done| |done|by exists b]. by apply (disk_length (device s) id).
    + unfold zlen in *. rewrite length_app. simpl. lia.
  - unfold logical. simpl. rewrite Hdk. unfold cached.
    rewrite fmap_app, list_to_map_app. simpl.
    apply map_eq. intros j. rewrite !lookup_union.
    fold (cached (queue s)). rewrite lookup_insert, lookup_empty.
    case_decide as Hj; [subst j|by rewrite (right_id_L None (∪))].
    rewrite cached_None by done. by rewrite Hb.
  - unfold locks. rewrite filter_app, filter_cons_False by (unfold is_locked; done).
    by rewrite filter_nil, app_nil_r.
Qed.

(** ... and the block being loaded from the device. *)
Lemma acquire_miss s id :
  cache_wf s -> is_Some (disk (device s) !! id) -> id ∉ (queue s).*1 ->
  Z.of_nat (size (locks (queue s))) < BLOCK_CACHE_SIZE ->
  exists s1 i a, cache_wf s1 /\ logical s1 = logical s /\ locks (queue s1) = locks (queue s)
    /\ queue s1 !! i = Some (id, a) /\ locked a = false /\ acquire id s = acquire id s1.
Proof.
  intros Hs [b Hb] Hnin Hsz.
  destruct (make_room_ok s Hs Hsz) as (s1 & E1 & Hs1 & Hlog1 & Hlk1 & Hroom & Hkeys).
  specialize (Hkeys _ Hnin).
  assert (Hb1 : disk (device s1) !! id = Some b).
  { by rewrite <- (logical_out s1), Hlog1, logical_out. }
  destruct (cache_new_ok (device s1) id b) as (d' & E2 & Hdk & Hd'); [apply Hs1|done|].
  destruct (push_entry s1 id b d') as (Hs2 & Hlog2 & Hlk2); [done..|].
  set (s2 := mkState d' (queue s1 ++ [(id, mkArc (mkCache b id false) 1 false)])) in *.
  assert (Hi : queue s2 !! length (queue s1) = Some (id, mkArc (mkCache b id false) 1 false)).
  { unfold s2. simpl. by rewrite lookup_app_r, Nat.sub_diag by lia. }
  exists s2, (length (queue s1)), (mkArc (mkCache b id false) 1 false).
  split_and!; [done|congruence|congruence|done|done|].
  rewrite (acquire_hit _ _ _ _ Hs2 Hi) by done.
  cbn. unfold bind at 1, get_block_cache at 1, get_queue at 1, bind at 1.
  rewrite (find_id_None _ _ Hnin), (bind_Ok _ _ _ _ _ E1).
  unfold on_device, get_queue, set_queue, bind at 1. rewrite E2. cbn.
  unfold lock, arc_of, get_queue, set_arc, bind.
  destruct Hs2 as (_ & Hnd2 & _). unfold s2 in Hnd2. simpl in Hnd2. rewrite fmap_app in Hnd2.
  rewrite (find_id_Some id _ (length (queue s1)) (mkArc (mkCache b id false) 2 false)).
  - simpl. f_equal. f_equal. f_equal. by rewrite !insert_app_r_alt, !Nat.sub_diag by lia.
  - simpl. by rewrite fmap_app.
  - simpl. by rewrite lookup_app_r, Nat.sub_diag by lia.
Qed.

Lemma cache_acquire_ok s id :
  cache_wf s -> is_Some (logical s !! id) -> id ∉ locks (queue s) ->
  Z.of_nat (size (locks (queue s))) < BLOCK_CACHE_SIZE ->
  exists s', acquire id s = Ok (tt, s') /\ cache_wf s'
             /\ logical s' = logical s /\ locks (queue s') = {[id]} ∪ locks (queue s).
Proof.
  intros Hs Hid Hnl Hsz.
  assert (exists s1 i a, cache_wf s1 /\ logical s1 = logical s /\ locks (queue s1) = locks (queue s)
    /\ queue s1 !! i = Some (id, a) /\ locked a = false /\ acquire id s = acquire id s1)
    as (s1 & i & a & Hs1 & <- & <- & Hi & Hl & ->).
  { destruct (decide (id ∈ (queue s).*1)) as [Hin|Hout].
    - apply list_elem_of_fmap in Hin as ([id' a] & -> & Hin).
      apply list_elem_of_lookup_1 in Hin as [i Hi]. simpl in *.
      exists s, i, a. split_and!; [done..| |done].
      destruct (locked a) eqn:E; [|done]. exfalso. apply Hnl, locks_spec. eauto.
    - apply acquire_miss; [done|by apply logical_dom|done|done]. }
  destruct (entry_at _ _ _ _ Hs1 Hi) as (H1 & H2 & H3 & H4). simpl in *.
  destruct (set_entry s1 i id a (mkArc (inner a) 2 true) Hs1 Hi) as (Hs' & Hlog & Hlk);
    [by split_and!|].
  eexists. split; [by apply acquire_hit|]. split_and!; [done| |done].
  rewrite Hlog. apply insert_id. simpl. by apply (logical_in s1 i).
Qed.

Lemma cache_ref_ok s id b :
  cache_wf s -> id ∈ locks (queue s) -> logical s !! id = Some b -> cache_ref id s = Ok (b, s).
Proof.
  intros Hs Hl Hb. apply held_entry in Hl as (i & a & Hi & Hl).
  rewrite (logical_in _ _ _ _ Hs Hi) in Hb. injection Hb as <-.
  unfold cache_ref. by rewrite (bind_Ok _ _ _ _ _ (arc_of_ok _ _ _ _ Hs Hi)).
Qed.

(** Overwriting the bytes of a locked block (with its own bytes: [get_mut]). *)
Lemma write_locked s i id a b :
  cache_wf s -> queue s !! i = Some (id, a) -> locked a = true -> length b = block_len ->
  let a' := mkArc (mkCache b (block_id (inner a)) true) (strong_count a) (locked a) in
  let s' := mkState (device s) (<[i := (id, a')]> (queue s)) in
  cache_wf s' /\ logical s' = <[id := b]> (logical s) /\ locks (queue s') = locks (queue s).
Proof.
  intros Hs Hi Hl Hb a' s'. destruct (entry_at _ _ _ _ Hs Hi) as (H1 & H2 & H3 & bd & H4 & H5).
  destruct (set_entry s i id a a' Hs Hi) as (Hs' & Hlog & Hlk).
  { split_and!; [done..|]. exists bd. by split. }
  split_and!; [done..|]. simpl in Hlk |- *. rewrite Hlk, Hl.
  apply subseteq_union_1_L, singleton_subseteq_l, locks_spec. eauto.
Qed.

Lemma cache_mut_ok s id b :
  cache_wf s -> id ∈ locks (queue s) -> logical s !! id = Some b ->
  exists s', cache_mut id s = Ok (b, s') /\ cache_wf s' /\ logical s' = logical s
             /\ locks (queue s') = locks (queue s).
Proof.
  intros Hs Hl Hb. apply held_entry in Hl as (i & a & Hi & Hl).
  pose proof (logical_length _ _ _ Hs Hb) as Hlen.
  rewrite (logical_in _ _ _ _ Hs Hi) in Hb. injection Hb as <-.
  destruct (write_locked s i id a (cache (inner a)) Hs Hi Hl Hlen) as (Hs' & Hlog & Hlk).
  unfold cache_mut. rewrite (bind_Ok _ _ _ _ _ (arc_of_ok _ _ _ _ Hs Hi)). simpl.
  eexists. split; [done|]. split_and!; [done| |done].
  rewrite Hlog. apply insert_id. by apply (logical_in s i).
Qed.

Lemma cache_put_ok s id b :
  cache_wf s -> id ∈ locks (queue s) -> length b = block_len ->
  exists s', cache_put id b s = Ok (tt, s') /\ cache_wf s'
             /\ logical s' = <[id := b]> (logical s) /\ locks (queue s') = locks (queue s).
Proof.
  intros Hs Hl Hlen. apply held_entry in Hl as (i & a & Hi & Hl).
  unfold cache_put. rewrite (bind_Ok _ _ _ _ _ (arc_of_ok _ _ _ _ Hs Hi)). simpl.
  eexists. split; [done|]. by apply write_locked.
Qed.

Lemma drop_guard_ok s id :
  cache_wf s -> id ∈ locks (queue s) ->
  exists s', drop_guard id s = Ok (tt, s') /\ cache_wf s'
             /\ logical s' = logical s /\ locks (queue s') = locks (queue s) ∖ {[id]}.
Proof.
  intros Hs Hl. apply held_entry in Hl as (i & a & Hi & Hl).
  destruct (entry_at _ _ _ _ Hs Hi) as (H1 & H2 & H3 & H4).
  unfold drop_guard. rewrite (bind_Ok _ _ _ _ _ (arc_of_ok _ _ _ _ Hs Hi)).
  assert (He : entry_ok (disk (device s)) (id, mkArc (inner a) (strong_count a - 1) false)).
  { simpl in *. rewrite Hl in H3. unfold entry_ok. simpl. split_and!; [done|done|lia|done]. }
  destruct (set_entry s i id a _ Hs Hi He) as (Hs' & Hlog & Hlk).
  eexists. split; [done|]. split_and!; [done| |done].
  rewrite Hlog. apply insert_id. simpl. by apply (logical_in s i).
Qed.

(** ** Synchronising everything *)
Definition clean (n : nat) s : Prop :=
  forall i p, (i < n)%nat -> queue s !! i = Some p -> modified (inner p.2) = false.

Lemma sync_entry_ok s i :
  cache_wf s -> locks (queue s) = ∅ -> clean i s -> (i < length (queue s))%nat ->
  exists s', sync_entry i s = Ok (tt, s') /\ cache_wf s' /\ logical s' = logical s
             /\ locks (queue s') = ∅ /\ clean (S i) s'
             /\ length (queue s') = length (queue s).
Proof.
  intros Hs Hlk Hcl Hlt. destruct (lookup_lt_is_Some_2 _ _ Hlt) as [[id a] Hi].
  pose proof (entry_at _ _ _ _ Hs Hi) as He.
  assert (Hl : locked a = false).
  { destruct (locked a) eqn:E; [|done]. exfalso.
    assert (id ∈ locks (queue s)) by (apply locks_spec; eauto). set_solver. }
  destruct (sync_ok (device s) id a) as (d' & E & Hdk & Hd'); [apply Hs|done|].
  pose proof Hs as (Hd & Hnd & Hf & Hlen). pose proof He as (H1 & H2 & H3 & H4). simpl in *.
  set (a' := mkArc (mkCache (cache (inner a)) id false) (strong_count a) (locked a)).
  exists (mkState d' (<[i := (id, a')]> (queue s))). simpl.
  unfold sync_entry, get_queue, on_device, bind. rewrite Hi, Hl. rewrite E. simpl.
  split_and!; [unfold a'; by rewrite Hl| | | | |apply length_insert].
  - unfold cache_wf; simpl. rewrite (insert_keys _ _ _ a) by done. rewrite Hdk.
    split_and!; [done|done| |].
    + apply Forall_lookup_2. intros j p Hj. destruct (decide (i = j)) as [<-|Hne].
      * rewrite list_lookup_insert_eq in Hj by done. injection Hj as <-.
        unfold entry_ok. simpl. split_and!; [done..|]. eexists. by rewrite lookup_insert_eq.
      * rewrite list_lookup_insert_ne in Hj by done. apply entry_ok_write.
        -- by eapply Forall_lookup_1 in Hf.
        -- intros Heq. apply Hne. apply (NoDup_lookup (queue s).*1 i j id Hnd).
           ++ by rewrite list_lookup_fmap, Hi.
           ++ rewrite list_lookup_fmap, Hj. simpl. by rewrite Heq.
    + unfold zlen in *. by rewrite length_insert.
  - unfold logical. simpl. rewrite (cached_insert _ _ _ a a') by done. simpl. rewrite Hdk.
    rewrite insert_id by (by eapply cached_lookup).
    apply map_eq. intros j. rewrite !lookup_union, lookup_insert.
    case_decide; [subst j|done]. rewrite (cached_lookup (queue s) i id a) by done. by destruct (disk (device s) !! id).
  - rewrite (locks_insert _ _ _ a a') by done. simpl. rewrite Hl. set_solver.
  - intros j p Hj Hp. simpl in Hp. destruct (decide (i = j)) as [<-|Hne].
    + rewrite list_lookup_insert_eq in Hp by done. by injection Hp as <-.
    + rewrite list_lookup_insert_ne in Hp by done. eapply Hcl; [|done]. lia.
Qed.

Lemma sync_entries_ok n i s :
  cache_wf s -> locks (queue s) = ∅ -> clean i s -> (i + n = length (queue s))%nat ->
  exists s', for_each (seq i n) (fun i _ => sync_entry i) tt s = Ok (tt, s')
             /\ cache_wf s' /\ logical s' = logical s /\ locks (queue s') = ∅
             /\ clean (length (queue s')) s'.
Proof.
  revert i s. induction n as [|n IH]; intros i s Hs Hlk Hcl Hlen; simpl.
  - exists s. split_and!; [done..|]. by replace (length (queue s)) with i by lia.
  - destruct (sync_entry_ok s i) as (s1 & E & Hs1 & Hlog1 & Hlk1 & Hcl1 & Hlen1); [done..|lia|].
    rewrite (bind_Ok _ _ _ _ _ E).
    destruct (IH (S i) s1) as (s2 & E2 & Hs2 & Hlog2 & Hlk2 & Hcl2); [done..|lia|].
    exists s2. split_and!; [done|done|congruence|done|done].
Qed.

Lemma clean_logical s :
  cache_wf s -> clean (length (queue s)) s -> logical s = disk (device s).
Proof.
  intros Hs Hcl. apply map_eq. intros id.
  destruct (decide (id ∈ (queue s).*1)) as [Hin|Hout]; [|by apply logical_out].
  apply list_elem_of_fmap in Hin as ([id' a] & -> & Hin).
  apply list_elem_of_lookup_1 in Hin as [i Hi].
  destruct (entry_at _ _ _ _ Hs Hi) as (_ & _ & _ & b & Hb & Hc). simpl in *.
  rewrite (logical_in _ _ _ _ Hs Hi), Hb. f_equal. apply Hc.
  apply (Hcl i (id', a)); [by eapply lookup_lt_Some|done].
Qed.

Lemma block_cache_sync_all_ok s :
  cache_wf s -> locks (queue s) = ∅ ->
  exists s', block_cache_sync_all s = Ok (tt, s') /\ cache_wf s'
             /\ logical s' = logical s /\ locks (queue s') = ∅
             /\ disk (device s') = logical s'.
Proof.
  intros Hs Hlk.
  destruct (sync_entries_ok (length (queue s)) 0 s) as (s' & E & Hs' & Hlog & Hlk' & Hcl);
    [done|done|intros i p ?; lia|lia|].
  exists s'. split_and!; [done..|]. by rewrite clean_logical.
Qed.

(** The cache keeps the promises of the interface. *)
#[export] Instance cache_store_spec : BlockStoreSpec (CacheState D) := {
  content := logical;
  stable s := disk (device s);
  held s := locks (queue s);
  wf := cache_wf;
  content_length := logical_length;
  acquire_ok := cache_acquire_ok;
  get_ref_ok := cache_ref_ok;
  get_mut_ok := cache_mut_ok;
  put_ok := cache_put_ok;
  release_ok := drop_guard_ok;
  sync_all_ok := block_cache_sync_all_ok;
}.

End Spec.
