(* ===== verification/Bitmap.v ===== *)
(** * Bitmaps (easy-fs/src/bitmap.rs)

    A bitmap occupies consecutive blocks; bit [k] is bit [k mod 64] of word
    [k / 64 mod 64] of block [k / 4096].  [alloc] takes the first clear bit,
    [dealloc] clears a set bit and refuses a clear one. *)

From S2P Require Import Prelude BlockDev BlockStore.

(** [type BitmapBlock = [u64; 64]]. *)
Definition bitmap_view : View (list Z) :=
  mkView 512 (fun b => Ok (dec_words 8 64 b)) (fun _ t => enc_words 8 t).

Definition BLOCK_BITS : Z := BLOCK_SZ * 8.
Definition u64_MAX : Z := 2 ^ 64 - 1.

Record Bitmap := mkBitmap {
  start_block_id : Z;
  blocks : Z;
}.

(** Decompose a bit into (block_pos, bits64_pos, inner_pos). *)
Definition decomposition (bit : Z) : Z * Z * Z :=
  let block_pos := bit / BLOCK_BITS in
  let bit := bit mod BLOCK_BITS in
  (block_pos, bit / 64, bit mod 64).

(** [u64::trailing_ones]. *)
Fixpoint trailing_ones_upto (n : nat) (w : Z) : Z :=
  match n with
  | O => 0
  | S n => if Z.odd w then 1 + trailing_ones_upto n (Z.shiftr w 1) else 0
  end.
Definition trailing_ones (w : Z) : Z := trailing_ones_upto 64 w.

(** The closure of [alloc]: the first word that is not full, and in it the
    first clear bit. *)
Definition alloc_in_block (block_id : Z) (bitmap_block : list Z) : option Z * list Z :=
  match list_find (fun bits64 => bits64 <> u64_MAX) bitmap_block with
  | Some (bits64_pos, bits64) =>
      let inner_pos := trailing_ones bits64 in
      (Some (w64 (block_id * BLOCK_BITS + Z.of_nat bits64_pos * 64 + inner_pos)),
       <[bits64_pos := Z.lor bits64 (Z.shiftl 1 inner_pos)]> bitmap_block)
  | None => (None, bitmap_block)
  end.

Section Ops.
Context {St : Type} `{BlockStore St}.

(** The loop of [alloc]: returns at the first block with a free bit. *)
Fixpoint alloc_from (self : Bitmap) (ids : list Z) : cmd St (option Z) :=
  match ids with
  | [] => ret None
  | block_id :: ids =>
      let* pos := modify bitmap_view (w64 (block_id + start_block_id self)) 0
        (fun bitmap_block => ret (alloc_in_block block_id bitmap_block)) in
      match pos with
      | Some _ => ret pos
      | None => alloc_from self ids
      end
  end.

Definition alloc (self : Bitmap) : cmd St (option Z) :=
  alloc_from self (seqZ 0 (blocks self)).

Definition dealloc (self : Bitmap) (bit : Z) : cmd St unit :=
  let '(block_pos, bits64_pos, inner_pos) := decomposition bit in
  modify bitmap_view (w64 (block_pos + start_block_id self)) 0 (fun bitmap_block =>
    let* w := lift (index bitmap_block bits64_pos) in
    assert (0 <? Z.land w (Z.shiftl 1 inner_pos));;
    let* bitmap_block := lift (index_set bitmap_block bits64_pos
                                 (w64 (w - Z.shiftl 1 inner_pos))) in
    ret (tt, bitmap_block)).

(** [maximum]. *)
Definition maximum (self : Bitmap) : Z := w64 (blocks self * BLOCK_BITS).

End Ops.

(** ** Words *)
Lemma trailing_ones_upto_range n w : 0 <= trailing_ones_upto n w <= Z.of_nat n.
Proof.
  revert w. induction n as [|n IH]; intros w; cbn [trailing_ones_upto]; [lia|].
  destruct (Z.odd w); [|lia]. specialize (IH (Z.shiftr w 1)). lia.
Qed.

Lemma trailing_ones_below n w i :
  0 <= i < trailing_ones_upto n w -> Z.testbit w i = true.
Proof.
  revert w i. induction n as [|n IH]; intros w i Hi; cbn [trailing_ones_upto] in Hi; [lia|].
  destruct (Z.odd w) eqn:E; [|lia].
  destruct (decide (i = 0)) as [->|Hne]; [by rewrite Z.bit0_odd|].
  specialize (IH (Z.shiftr w 1) (i - 1)). rewrite Z.shiftr_spec in IH by lia.
  replace (i - 1 + 1) with i in IH by lia. apply IH. lia.
Qed.

Lemma trailing_ones_stop n w :
  trailing_ones_upto n w < Z.of_nat n -> Z.testbit w (trailing_ones_upto n w) = false.
Proof.
  revert w. induction n as [|n IH]; intros w Hlt; cbn [trailing_ones_upto] in *; [lia|].
  destruct (Z.odd w) eqn:E; [|by rewrite Z.bit0_odd].
  specialize (IH (Z.shiftr w 1)). rewrite Z.shiftr_spec in IH
    by apply trailing_ones_upto_range.
  rewrite Z.add_comm. apply IH. lia.
Qed.

Lemma all_ones w :
  0 <= w < 2 ^ 64 -> (forall i, 0 <= i < 64 -> Z.testbit w i = true) -> w = u64_MAX.
Proof.
  intros Hw Hb. change u64_MAX with (Z.ones 64). apply Z.bits_inj'. intros i Hi.
  destruct (decide (i < 64)).
  - rewrite Hb, Z.ones_spec_low by lia. done.
  - rewrite Z.ones_spec_high by lia. destruct (decide (w = 0)) as [->|]; [apply Z.bits_0|].
    apply Z.bits_above_log2; [lia|]. assert (Z.log2 w < 64) by (apply Z.log2_lt_pow2; lia). lia.
Qed.

Lemma u64_MAX_bits i : 0 <= i < 64 -> Z.testbit u64_MAX i = true.
Proof. intros. change u64_MAX with (Z.ones 64). by apply Z.ones_spec_low. Qed.

(** A word that is not full has a clear bit at [trailing_ones], none below. *)
Lemma trailing_ones_spec w :
  0 <= w < 2 ^ 64 -> w <> u64_MAX ->
  0 <= trailing_ones w < 64 /\ Z.testbit w (trailing_ones w) = false /\
  forall i, 0 <= i < trailing_ones w -> Z.testbit w i = true.
Proof.
  intros Hw Hne. unfold trailing_ones.
  pose proof (trailing_ones_upto_range 64 w) as Hr.
  assert (Hlt : trailing_ones_upto 64 w < 64).
  { destruct (decide (trailing_ones_upto 64 w = 64)) as [E|]; [|lia].
    exfalso. apply Hne, all_ones; [done|]. intros i Hi.
    apply (trailing_ones_below 64). lia. }
  split_and!; [lia..|apply trailing_ones_stop; lia|]. intros i Hi. by apply (trailing_ones_below 64).
Qed.

Lemma word_bound w : (forall i, 64 <= i -> Z.testbit w i = false) -> 0 <= w -> 0 <= w < 2 ^ 64.
Proof.
  intros Hb Hw. split; [done|]. destruct (decide (w = 0)) as [->|]; [lia|].
  apply Z.log2_lt_pow2; [lia|].
  destruct (decide (Z.log2 w < 64)); [done|].
  specialize (Hb (Z.log2 w)). rewrite Z.bit_log2 in Hb by lia. naive_solver lia.
Qed.

Lemma word_high w i : 0 <= w < 2 ^ 64 -> 64 <= i -> Z.testbit w i = false.
Proof.
  intros Hw Hi. destruct (decide (w = 0)) as [->|]; [apply Z.bits_0|].
  apply Z.bits_above_log2; [lia|]. assert (Z.log2 w < 64) by (apply Z.log2_lt_pow2; lia). lia.
Qed.

Lemma shiftl_1_bit t i : 0 <= t -> Z.testbit (Z.shiftl 1 t) i = (i =? t).
Proof.
  intros. rewrite Z.shiftl_1_l, Z.pow2_bits_eqb by done. apply Z.eqb_sym.
Qed.

Lemma set_bit w t :
  0 <= w < 2 ^ 64 -> 0 <= t < 64 ->
  0 <= Z.lor w (Z.shiftl 1 t) < 2 ^ 64 /\
  forall i, Z.testbit (Z.lor w (Z.shiftl 1 t)) i = Z.testbit w i || (i =? t).
Proof.
  intros Hw Ht.
  assert (Hb : forall i, Z.testbit (Z.lor w (Z.shiftl 1 t)) i = Z.testbit w i || (i =? t)).
  { intros i. by rewrite Z.lor_spec, shiftl_1_bit by lia. }
  split; [|done]. apply word_bound.
  - intros i Hi. rewrite Hb, word_high by done. destruct (Z.eqb_spec i t); [lia|done].
  - apply Z.lor_nonneg. split; [lia|]. rewrite Z.shiftl_1_l. lia.
Qed.

Lemma test_bit w t : 0 <= t -> (0 <? Z.land w (Z.shiftl 1 t)) = Z.testbit w t.
Proof.
  intros Ht. destruct (Z.testbit w t) eqn:E.
  - apply Z.ltb_lt. assert (Z.land w (Z.shiftl 1 t) <> 0).
    { intros Hz. assert (Hb : Z.testbit (Z.land w (Z.shiftl 1 t)) t = true).
      { rewrite Z.land_spec, shiftl_1_bit, E by done. simpl. lia. }
      rewrite Hz, Z.bits_0 in Hb. done. }
    assert (0 <= Z.land w (Z.shiftl 1 t)).
    { apply Z.land_nonneg. right. rewrite Z.shiftl_1_l. lia. }
    lia.
  - apply Z.ltb_ge. apply Z.eq_le_incl. apply Z.bits_inj_0. intros i.
    rewrite Z.land_spec, shiftl_1_bit by done.
    destruct (Z.eqb_spec i t) as [->|]; [by rewrite E|by rewrite andb_false_r].
Qed.

Lemma clear_bit w t :
  0 <= w < 2 ^ 64 -> 0 <= t < 64 -> Z.testbit w t = true ->
  0 <= w - Z.shiftl 1 t < 2 ^ 64 /\
  forall i, Z.testbit (w - Z.shiftl 1 t) i = Z.testbit w i && negb (i =? t).
Proof.
  intros Hw Ht Hset.
  assert (E : w - Z.shiftl 1 t = Z.ldiff w (Z.shiftl 1 t)).
  { apply Z.sub_nocarry_ldiff. apply Z.bits_inj_0. intros i.
    rewrite Z.ldiff_spec, shiftl_1_bit by lia.
    destruct (Z.eqb_spec i t) as [->|]; [by rewrite Hset|done]. }
  rewrite E.
  assert (Hb : forall i, Z.testbit (Z.ldiff w (Z.shiftl 1 t)) i = Z.testbit w i && negb (i =? t)).
  { intros i. by rewrite Z.ldiff_spec, shiftl_1_bit by lia. }
  split; [|done]. apply word_bound.
  - intros i Hi. by rewrite Hb, word_high by done.
  - apply Z.ldiff_nonneg. by left; lia.
Qed.

(** ** Blocks *)
Definition block_bit (l : list Z) (k : Z) : option bool :=
  w ← l !! Z.to_nat (k / 64); Some (Z.testbit w (k mod 64)).

Definition words_ok (l : list Z) : Prop :=
  length l = 64%nat /\ Forall (fun w => 0 <= w < 2 ^ 64) l.

Lemma dec_words_ok b : length b = block_len -> words_ok (dec_words 8 64 b).
Proof. intros. split; [apply dec_words_length|]. by apply (dec_words_range 8 64). Qed.

Lemma word_at l p : words_ok l -> (p < 64)%nat -> exists w, l !! p = Some w /\ 0 <= w < 2 ^ 64.
Proof.
  intros [Hlen Hf] Hp. destruct (lookup_lt_is_Some_2 l p) as [w Hw]; [lia|].
  exists w. split; [done|]. by eapply Forall_lookup_1 in Hf.
Qed.

Lemma words_ok_insert l p w : words_ok l -> 0 <= w < 2 ^ 64 -> words_ok (<[p := w]> l).
Proof. intros [??] ?. split; [by rewrite length_insert|by apply Forall_insert]. Qed.

(** Bits of a block after one word of it is overwritten. *)
Lemma block_bit_insert l p w' k :
  words_ok l -> (p < 64)%nat -> 0 <= k < BLOCK_BITS ->
  block_bit (<[p := w']> l) k =
    if decide (k / 64 = Z.of_nat p) then Some (Z.testbit w' (k mod 64)) else block_bit l k.
Proof.
  intros [Hlen _] Hp Hk. unfold block_bit. case_decide as E.
  - rewrite E, Nat2Z.id, list_lookup_insert_eq by lia. done.
  - rewrite list_lookup_insert_ne; [done|]. intros ->. apply E.
    rewrite Z2Nat.id; [done|]. apply Z.div_pos; lia.
Qed.

Lemma bit_split k :
  0 <= k < BLOCK_BITS ->
  0 <= k / 64 < 64 /\ 0 <= k mod 64 < 64 /\ k = k / 64 * 64 + k mod 64.
Proof. unfold BLOCK_BITS, BLOCK_SZ. intros. dlia. Qed.

(** The closure of [alloc] finds the first clear bit of the block. *)
Lemma alloc_in_block_spec id l :
  words_ok l -> 0 <= id < 2 ^ 32 ->
  match alloc_in_block id l with
  | (None, l') => l' = l /\ forall j, 0 <= j < BLOCK_BITS -> block_bit l j = Some true
  | (Some r, l') => exists k, r = id * BLOCK_BITS + k /\ 0 <= k < BLOCK_BITS
      /\ block_bit l k = Some false
      /\ (forall j, 0 <= j < k -> block_bit l j = Some true)
      /\ words_ok l'
      /\ (forall j, 0 <= j < BLOCK_BITS ->
            block_bit l' j = if decide (j = k) then Some true else block_bit l j)
  end.
Proof.
  intros Hl Hid. unfold alloc_in_block.
  destruct (list_find _ l) as [[p w]|] eqn:E.
  - apply list_find_Some in E as (Hp & Hne & Hbefore). cbn beta in *.
    assert (Hlt : (p < 64)%nat) by (destruct Hl; apply lookup_lt_Some in Hp; lia).
    assert (Hw : 0 <= w < 2 ^ 64) by (destruct Hl as [_ Hf]; by eapply Forall_lookup_1 in Hf).
    destruct (trailing_ones_spec w Hw Hne) as (Ht & Hclear & Hones).
    set (t := trailing_ones w) in *.
    destruct (set_bit w t Hw Ht) as [Hw' Hbits].
    exists (Z.of_nat p * 64 + t). unfold BLOCK_BITS, BLOCK_SZ.
    assert (Hdiv : (Z.of_nat p * 64 + t) / 64 = Z.of_nat p) by dlia.
    assert (Hmod : (Z.of_nat p * 64 + t) mod 64 = t) by dlia.
    split_and!; [rewrite w64_small; lia|lia..| | |by apply words_ok_insert|].
    + unfold block_bit. by rewrite Hdiv, Hmod, Nat2Z.id, Hp, <- Hclear.
    + intros j Hj. unfold block_bit.
      destruct (decide (j / 64 = Z.of_nat p)) as [Ej|Ej].
      * rewrite Ej, Nat2Z.id, Hp. simpl. rewrite Hones; [done|]. dlia.
      * assert (Hjp : (Z.to_nat (j / 64) < p)%nat) by dlia.
        destruct (word_at l (Z.to_nat (j / 64)) Hl) as (wj & Hwj & _); [dlia|].
        rewrite Hwj. simpl. destruct (decide (wj = u64_MAX)) as [->|Hn].
        -- by rewrite u64_MAX_bits by dlia.
        -- by specialize (Hbefore _ _ Hwj Hjp).
    + intros j Hj. rewrite block_bit_insert by (done || unfold BLOCK_BITS, BLOCK_SZ; lia).
      case_decide as Ej; case_decide as Ek.
      * subst j. rewrite Hmod, Hbits, Z.eqb_refl. by rewrite orb_true_r.
      * rewrite Hbits. unfold block_bit. rewrite Ej, Nat2Z.id, Hp. simpl.
        destruct (Z.eqb_spec (j mod 64) t); [dlia|]. by rewrite orb_false_r.
      * subst j. dlia.
      * done.
  - apply list_find_None in E. split; [done|]. intros j Hj.
    destruct (bit_split j Hj) as (? & ? & _).
    destruct (word_at l (Z.to_nat (j / 64)) Hl) as (wj & Hwj & _); [lia|].
    unfold block_bit. rewrite Hwj. simpl.
    eapply Forall_lookup_1 in E; [|done]. apply dec_stable in E. subst wj.
    by rewrite u64_MAX_bits.
Qed.

(** ** Bitmaps *)
Definition bitmap_bit (σ : gmap Z (list byte)) (bm : Bitmap) (k : Z) : option bool :=
  b ← σ !! (start_block_id bm + k / BLOCK_BITS);
  block_bit (dec_words 8 64 b) (k mod BLOCK_BITS).

Definition capacity (bm : Bitmap) : Z := blocks bm * BLOCK_BITS.

Record bitmap_ok (σ : gmap Z (list byte)) (bm : Bitmap) : Prop := {
  bitmap_start : 0 <= start_block_id bm;
  bitmap_blocks : 0 <= blocks bm;
  bitmap_end : start_block_id bm + blocks bm <= 2 ^ 32;
  bitmap_mapped i : 0 <= i < blocks bm ->
    exists b, σ !! (start_block_id bm + i) = Some b /\ length b = block_len;
}.

(** The bitmap's blocks can be locked. *)
Definition bitmap_free (L : gset Z) (bm : Bitmap) : Prop :=
  Z.of_nat (size L) < BLOCK_CACHE_SIZE /\
  forall i, 0 <= i < blocks bm -> start_block_id bm + i ∉ L.

(** What [alloc] promises. *)
Definition alloc_post (σ : gmap Z (list byte)) (bm : Bitmap) (r : option Z)
    (σ' : gmap Z (list byte)) : Prop :=
  match r with
  | Some k => 0 <= k < capacity bm /\ bitmap_bit σ bm k = Some false
      /\ (forall j, 0 <= j < k -> bitmap_bit σ bm j = Some true)
      /\ (forall j, 0 <= j < capacity bm ->
            bitmap_bit σ' bm j = if decide (j = k) then Some true else bitmap_bit σ bm j)
      /\ (forall id, id <> start_block_id bm + k / BLOCK_BITS -> σ' !! id = σ !! id)
      /\ bitmap_ok σ' bm
  | None => σ' = σ /\ forall j, 0 <= j < capacity bm -> bitmap_bit σ bm j = Some true
  end.

Lemma bitmap_bit_write σ bm c l' j :
  0 <= c -> words_ok l' ->
  bitmap_bit (<[start_block_id bm + c := enc_words 8 l']> σ) bm j =
    if decide (j / BLOCK_BITS = c) then block_bit l' (j mod BLOCK_BITS) else bitmap_bit σ bm j.
Proof.
  intros Hc [Hlen Hf]. unfold bitmap_bit. case_decide as E.
  - rewrite E, lookup_insert_eq. simpl. rewrite <- Hlen. by rewrite dec_enc_words.
  - by rewrite lookup_insert_ne by lia.
Qed.

Lemma bitmap_ok_write σ bm c l' :
  0 <= c < blocks bm -> words_ok l' -> bitmap_ok σ bm ->
  bitmap_ok (<[start_block_id bm + c := enc_words 8 l']> σ) bm.
Proof.
  intros Hc [Hlen _] [H1 H2 H3 H4]. split; [done..|]. intros i Hi.
  destruct (decide (i = c)) as [->|Hne].
  - rewrite lookup_insert_eq. eexists. split; [done|]. rewrite enc_words_length, Hlen. done.
  - rewrite lookup_insert_ne by lia. by apply H4.
Qed.

Section Proofs.
Context {St : Type} `{BlockStoreSpec St}.

(** One access to the [c]-th block of a bitmap. *)
Lemma runs_bitmap_block {V} L σ bm c b l' (f : list Z -> cmd St (V * list Z)) v :
  bitmap_ok σ bm -> bitmap_free L bm -> 0 <= c < blocks bm ->
  σ !! (start_block_id bm + c) = Some b -> length b = block_len ->
  length l' = 64%nat ->
  runs ({[start_block_id bm + c]} ∪ L) σ (f (dec_words 8 64 b)) (v, l') σ ->
  runs L σ (modify bitmap_view (w64 (c + start_block_id bm)) 0 f) v
    (<[start_block_id bm + c := enc_words 8 l']> σ).
Proof.
  intros [H1 H2 H3 _] [Hsz Hfree] Hc Hb Hlen Hl' Hf.
  rewrite w64_small by lia. rewrite (Z.add_comm c).
  eapply (runs_modify_block _ _ _ bitmap_view); [done|split; [by apply Hfree|done]|done|done|done| |done].
  simpl. by rewrite enc_words_length, Hl'.
Qed.

(** The bits of one block of the bitmap. *)
Lemma bitmap_bit_block σ bm c b j : σ !! (start_block_id bm + c) = Some b -> 0 <= j < BLOCK_BITS ->
  bitmap_bit σ bm (c * BLOCK_BITS + j) = block_bit (dec_words 8 64 b) j.
Proof.
  intros Hb Hj. unfold bitmap_bit, BLOCK_BITS, BLOCK_SZ in *.
  replace ((c * (512 * 8) + j) / (512 * 8)) with c by dlia. rewrite Hb. simpl. f_equal. dlia.
Qed.

Lemma in_block c j : c * BLOCK_BITS <= j < (c + 1) * BLOCK_BITS -> exists k, j = c * BLOCK_BITS + k /\ 0 <= k < BLOCK_BITS.
Proof. intros ?. exists (j - c * BLOCK_BITS). unfold BLOCK_BITS, BLOCK_SZ in *. lia. Qed.

(** The bits up to the end of a block, when those before and those in it are set. *)
Lemma bits_below σ bm c b n : σ !! (start_block_id bm + c) = Some b -> n <= BLOCK_BITS ->
  (forall j, 0 <= j < c * BLOCK_BITS -> bitmap_bit σ bm j = Some true) ->
  (forall j, 0 <= j < n -> block_bit (dec_words 8 64 b) j = Some true) ->
  forall j, 0 <= j < c * BLOCK_BITS + n -> bitmap_bit σ bm j = Some true.
Proof.
  intros Hb Hn Hbelow Hall j Hj. destruct (decide (j < c * BLOCK_BITS)); [apply Hbelow; lia|].
  destruct (in_block c j) as (i & -> & Hi); [lia|]. rewrite (bitmap_bit_block σ bm c b) by done. apply Hall. lia.
Qed.

(** A bit of a block has been taken. *)
Lemma alloc_found_post σ bm c b k l' : bitmap_ok σ bm -> 0 <= c < blocks bm -> σ !! (start_block_id bm + c) = Some b ->
  0 <= k < BLOCK_BITS -> block_bit (dec_words 8 64 b) k = Some false -> words_ok l' ->
  (forall j, 0 <= j < c * BLOCK_BITS + k -> bitmap_bit σ bm j = Some true) ->
  (forall j, 0 <= j < BLOCK_BITS -> block_bit l' j = if decide (j = k) then Some true else block_bit (dec_words 8 64 b) j) ->
  alloc_post σ bm (Some (c * BLOCK_BITS + k)) (<[start_block_id bm + c := enc_words 8 l']> σ).
Proof.
  intros Hok Hc Hb Hk Hfalse Hl' Hones Hnew. pose proof (bitmap_bit_block σ bm c b) as Hbit.
  assert (Hdiv : (c * BLOCK_BITS + k) / BLOCK_BITS = c) by (unfold BLOCK_BITS, BLOCK_SZ in *; dlia). split_and!.
  - unfold BLOCK_BITS, BLOCK_SZ in *; lia.
  - unfold capacity, BLOCK_BITS, BLOCK_SZ in *. lia.
  - by rewrite Hbit.
  - done.
  - intros j Hj. rewrite bitmap_bit_write by (done || lia). case_decide as Ej; case_decide as Ek; try done.
    + subst j. rewrite Hnew by (unfold BLOCK_BITS, BLOCK_SZ; dlia). rewrite decide_True; [done|]. unfold BLOCK_BITS, BLOCK_SZ in *. dlia.
    + rewrite Hnew by (unfold BLOCK_BITS, BLOCK_SZ; dlia). rewrite decide_False by (unfold BLOCK_BITS, BLOCK_SZ in *; dlia).
      rewrite <- Hbit by (done || unfold BLOCK_BITS, BLOCK_SZ; dlia). f_equal. unfold BLOCK_BITS, BLOCK_SZ in *. dlia.
    + subst j. congruence.
  - intros id Hid. rewrite lookup_insert_ne; [done|]. rewrite Hdiv in Hid. congruence.
  - by apply bitmap_ok_write; [lia|..].
Qed.

Lemma alloc_from_ok L σ bm (n : nat) c :
  bitmap_ok σ bm -> bitmap_free L bm -> 0 <= c -> c + Z.of_nat n = blocks bm ->
  (forall j, 0 <= j < c * BLOCK_BITS -> bitmap_bit σ bm j = Some true) ->
  exists r σ', runs L σ (alloc_from bm (seqZ c (Z.of_nat n))) r σ' /\ alloc_post σ bm r σ'.
Proof.
  intros Hok Hfree. revert c. induction n as [|n IH]; intros c Hc Hn Hbelow.
  { exists None, σ. split; [apply runs_ret|]. split; [done|].
    intros j Hj. apply Hbelow. unfold capacity in Hj. by replace c with (blocks bm) by lia. }
  pose proof Hok as [H1 H2 H3 H4]. destruct (H4 c) as (b & Hb & Hlen); [lia|].
  rewrite seqZ_cons by lia. replace (Z.pred (Z.of_nat (S n))) with (Z.of_nat n) by lia.
  pose proof (dec_words_ok b Hlen) as Hl.
  pose proof (alloc_in_block_spec c (dec_words 8 64 b) Hl ltac:(lia)) as Hspec.
  cbn [alloc_from].
  destruct (alloc_in_block c (dec_words 8 64 b)) as [[r|] l'] eqn:E.
  - destruct Hspec as (k & -> & Hk & Hfalse & Hones & Hl' & Hnew).
    exists (Some (c * BLOCK_BITS + k)), (<[start_block_id bm + c := enc_words 8 l']> σ). split.
    { eapply runs_bind; [eapply runs_bitmap_block; [done..|lia|done|done|apply Hl'|]; rewrite E; apply runs_ret|apply runs_ret]. }
    apply (alloc_found_post σ bm c b k l'); try done; [lia|]. apply (bits_below σ bm c b k); [done|lia|done..].
  - destruct Hspec as [-> Hall].
    destruct (IH (Z.succ c)) as (r & σ' & Hr & Hp); [lia|lia| |].
    { replace (Z.succ c * BLOCK_BITS) with (c * BLOCK_BITS + BLOCK_BITS) by lia. by apply (bits_below σ bm c b). }
    exists r, σ'. split; [|done].
    eapply runs_bind.
    + eapply runs_bitmap_block; [done..|lia|done|done|apply Hl|].
      rewrite E. apply runs_ret.
    + cbn beta iota. rewrite (enc_dec_words 8 64) by done.
      rewrite insert_id by done. done.
Qed.

Lemma alloc_ok L σ bm :
  bitmap_ok σ bm -> bitmap_free L bm ->
  exists r σ', runs L σ (alloc bm) r σ' /\ alloc_post σ bm r σ'.
Proof.
  intros Hok Hfree. pose proof Hok as [_ H2 _ _].
  destruct (alloc_from_ok L σ bm (Z.to_nat (blocks bm)) 0) as (r & σ' & Hr & Hp);
    [done|done|lia|lia|lia|].
  exists r, σ'. split; [|done]. unfold alloc. by rewrite Z2Nat.id in Hr by done.
Qed.

(** What [dealloc] promises for a bit that is set. *)
Definition dealloc_post (σ : gmap Z (list byte)) (bm : Bitmap) (k : Z)
    (σ' : gmap Z (list byte)) : Prop :=
  (forall j, 0 <= j < capacity bm ->
     bitmap_bit σ' bm j = if decide (j = k) then Some false else bitmap_bit σ bm j)
  /\ (forall id, id <> start_block_id bm + k / BLOCK_BITS -> σ' !! id = σ !! id)
  /\ bitmap_ok σ' bm.

Lemma dealloc_ok L σ bm k :
  bitmap_ok σ bm -> bitmap_free L bm -> 0 <= k < capacity bm ->
  bitmap_bit σ bm k = Some true ->
  exists σ', runs L σ (dealloc bm k) tt σ' /\ dealloc_post σ bm k σ'.
Proof.
  intros Hok Hfree Hk Hset. pose proof Hok as [H1 H2 H3 H4]. unfold capacity in Hk.
  set (c := k / BLOCK_BITS). set (m := k mod BLOCK_BITS).
  assert (Hc : 0 <= c < blocks bm) by (unfold c, BLOCK_BITS, BLOCK_SZ in *; dlia).
  assert (Hm : 0 <= m < BLOCK_BITS) by (unfold m, BLOCK_BITS, BLOCK_SZ in *; dlia).
  destruct (H4 c Hc) as (b & Hb & Hlen). pose proof (dec_words_ok b Hlen) as Hl.
  destruct (bit_split m Hm) as (Hp & Ht & Hmeq).
  destruct (word_at _ (Z.to_nat (m / 64)) Hl) as (w & Hw & Hwr); [lia|].
  unfold bitmap_bit in Hset. fold c m in Hset. rewrite Hb in Hset. simpl in Hset.
  unfold block_bit in Hset. rewrite Hw in Hset. simpl in Hset. injection Hset as Hset.
  destruct (clear_bit w (m mod 64) Hwr Ht Hset) as [Hw' Hbits].
  set (l' := <[Z.to_nat (m / 64) := w - Z.shiftl 1 (m mod 64)]> (dec_words 8 64 b)).
  assert (Hl' : words_ok l') by (by apply words_ok_insert).
  exists (<[start_block_id bm + c := enc_words 8 l']> σ). split.
  { unfold dealloc, decomposition. fold c m.
    eapply runs_bitmap_block; [done..|apply Hl'|].
    eapply runs_bind_lift; [by apply index_Ok; [lia|]|].
    eapply runs_bind_assert; [by rewrite test_bit by lia|].
    eapply runs_bind_lift.
    { apply index_set_Ok. unfold zlen. rewrite dec_words_length. lia. }
    rewrite w64_small by done. apply runs_ret. }
  split_and!.
  - intros j Hj. rewrite bitmap_bit_write by (done || lia).
    case_decide as Ej; case_decide as Ek; try done.
    + subst j. fold m. unfold l'. rewrite block_bit_insert by (done || lia).
      rewrite decide_True by lia. by rewrite Hbits, Z.eqb_refl, andb_false_r.
    + unfold l'. rewrite block_bit_insert by (done || unfold BLOCK_BITS, BLOCK_SZ; dlia || lia).
      assert (Hold : bitmap_bit σ bm j = block_bit (dec_words 8 64 b) (j mod BLOCK_BITS)).
      { unfold bitmap_bit. by rewrite Ej, Hb. }
      rewrite Hold. case_decide as E64; [|done].
      rewrite Hbits. unfold block_bit. rewrite E64, Nat2Z.id, Hw. simpl.
      destruct (Z.eqb_spec ((j mod BLOCK_BITS) mod 64) (m mod 64)) as [Et|]; [|by rewrite andb_true_r].
      exfalso. apply Ek. unfold m, c, BLOCK_BITS, BLOCK_SZ in *. dlia.
    + subst j. by exfalso; apply Ej.
  - intros id Hid. rewrite lookup_insert_ne; [done|]. intros <-. done.
  - by apply bitmap_ok_write.
Qed.

End Proofs.
