(* ===== verification/Layout.v ===== *)
(** * On-disk structures (easy-fs/src/layout.rs): definitions

    [SuperBlock], [DiskInode] with its three levels of indirect blocks, and
    [DirEntry], with their byte layouts and every operation of the file.  The
    theorems about them are in DiskCodec, Tree to FileData and InodeTheorems. *)

From S2P Require Import Prelude BlockDev BlockStore.

Definition EFS_MAGIC : Z := 0x3b800001.
Definition INODE_DIRECT_COUNT : Z := 27.
Definition NAME_LENGTH_LIMIT : Z := 27.
Definition INODE_INDIRECT1_COUNT : Z := BLOCK_SZ / 4.
Definition INODE_INDIRECT2_COUNT : Z := INODE_INDIRECT1_COUNT * INODE_INDIRECT1_COUNT.
Definition INODE_INDIRECT3_COUNT : Z := INODE_INDIRECT2_COUNT * INODE_INDIRECT1_COUNT.
Definition DIRECT_BOUND : Z := INODE_DIRECT_COUNT.
Definition INDIRECT1_BOUND : Z := DIRECT_BOUND + INODE_INDIRECT1_COUNT.
Definition INDIRECT2_BOUND : Z := INDIRECT1_BOUND + INODE_INDIRECT2_COUNT.

(** ** Super block *)
Record SuperBlock := mkSuperBlock {
  magic : Z;
  sb_total_blocks : Z;
  inode_bitmap_blocks : Z;
  inode_area_blocks : Z;
  data_bitmap_blocks : Z;
  data_area_blocks : Z;
}.

Definition super_words (sb : SuperBlock) : list Z :=
  [magic sb; sb_total_blocks sb; inode_bitmap_blocks sb; inode_area_blocks sb;
   data_bitmap_blocks sb; data_area_blocks sb].

(** [#[repr(C)]]: six [u32], 24 bytes. *)
Definition super_view : View SuperBlock :=
  mkView 24
    (fun b => match dec_words 4 6 b with
              | [m; t; ib; ia; db; da] => Ok (mkSuperBlock m t ib ia db da)
              | _ => Fail Undefined
              end)
    (fun _ sb => enc_words 4 (super_words sb)).

Definition super_initialize (total_blocks inode_bitmap_blocks inode_area_blocks
    data_bitmap_blocks data_area_blocks : Z) : SuperBlock :=
  mkSuperBlock EFS_MAGIC total_blocks inode_bitmap_blocks inode_area_blocks
    data_bitmap_blocks data_area_blocks.

Definition super_is_valid (self : SuperBlock) : bool := magic self =? EFS_MAGIC.

(** ** Disk inodes *)
Inductive DiskInodeType := File | Directory.

#[export] Instance DiskInodeType_eq_dec : EqDecision DiskInodeType.
Proof. solve_decision. Defined.

(** [type IndirectBlock = [u32; 128]] and [type DataBlock = [u8; 512]]. *)
Definition indirect_view : View (list Z) :=
  mkView BLOCK_SZ (fun b => Ok (dec_words 4 128 b)) (fun _ t => enc_words 4 t).
Definition data_view : View (list byte) := mkView BLOCK_SZ (fun b => Ok b) (fun _ t => t).

Record DiskInode := mkInode {
  size : Z;
  direct : list Z;
  indirect1 : Z;
  indirect2 : Z;
  indirect3 : Z;
  type_ : DiskInodeType;
}.

Definition type_of_byte (b : byte) : result DiskInodeType :=
  if byte.unsigned b =? 0 then Ok File
  else if byte.unsigned b =? 1 then Ok Directory
  else Fail Undefined.

Definition byte_of_type (t : DiskInodeType) : byte :=
  match t with File => Byte.x00 | Directory => Byte.x01 end.

Definition inode_words (di : DiskInode) : list Z :=
  size di :: direct di ++ [indirect1 di; indirect2 di; indirect3 di].

(** [size_of::<DiskInode>()]: 31 [u32], the type's byte and three of padding. *)
Definition DISK_INODE_SZ : Z := 128.

Definition inode_view : View DiskInode :=
  mkView DISK_INODE_SZ
    (fun b =>
       match dec_words 4 31 b, b !! 124%nat with
       | sz :: ws, Some tb =>
           match drop 27 ws, type_of_byte tb with
           | [i1; i2; i3], Ok ty => Ok (mkInode sz (take 27 ws) i1 i2 i3 ty)
           | _, _ => Fail Undefined
           end
       | _, _ => Fail Undefined
       end)
    (fun old di => enc_words 4 (inode_words di) ++ [byte_of_type (type_ di)] ++ drop 125 old).

(** [DiskInode::initialize]; the direct array keeps its length. *)
Definition initialize (self : DiskInode) (ty : DiskInodeType) : DiskInode :=
  mkInode 0 ((fun _ => 0) <$> direct self) 0 0 0 ty.

Definition is_dir (self : DiskInode) : bool := bool_decide (type_ self = Directory).
Definition is_file (self : DiskInode) : bool := bool_decide (type_ self = File).

Definition _data_blocks (size : Z) : Z := w32 (w32 (size + BLOCK_SZ) - 1) / BLOCK_SZ.

Definition data_blocks (self : DiskInode) : Z := _data_blocks (size self).

Definition total_blocks (size : Z) : Z :=
  let data_blocks := _data_blocks size in
  let total := data_blocks in
  let total := if data_blocks >? INODE_DIRECT_COUNT then total + 1 else total in
  let total :=
    if data_blocks >? INDIRECT1_BOUND then
      let level2_extra :=
        (data_blocks - INDIRECT1_BOUND + INODE_INDIRECT1_COUNT - 1) / INODE_INDIRECT1_COUNT in
      total + 1 + Z.min level2_extra INODE_INDIRECT1_COUNT
    else total in
  let total :=
    if data_blocks >? INDIRECT2_BOUND then
      let remaining := data_blocks - INDIRECT2_BOUND in
      let level2_extra := (remaining + INODE_INDIRECT2_COUNT - 1) / INODE_INDIRECT2_COUNT in
      let level3_extra := (remaining + INODE_INDIRECT1_COUNT - 1) / INODE_INDIRECT1_COUNT in
      total + (1 + level2_extra + level3_extra)
    else total in
  w32 total.

Definition blocks_num_needed (self : DiskInode) (new_size : Z) : result Z :=
  if new_size >=? size self then Ok (w32 (total_blocks new_size - total_blocks (size self)))
  else Fail Panic.

Definition set_size (di : DiskInode) (z : Z) : DiskInode :=
  mkInode z (direct di) (indirect1 di) (indirect2 di) (indirect3 di) (type_ di).
Definition set_direct (di : DiskInode) (d : list Z) : DiskInode :=
  mkInode (size di) d (indirect1 di) (indirect2 di) (indirect3 di) (type_ di).
Definition set_indirect1 (di : DiskInode) (z : Z) : DiskInode :=
  mkInode (size di) (direct di) z (indirect2 di) (indirect3 di) (type_ di).
Definition set_indirect2 (di : DiskInode) (z : Z) : DiskInode :=
  mkInode (size di) (direct di) (indirect1 di) z (indirect3 di) (type_ di).
Definition set_indirect3 (di : DiskInode) (z : Z) : DiskInode :=
  mkInode (size di) (direct di) (indirect1 di) (indirect2 di) z (type_ di).

Definition decompose2 (id : Z) : Z * Z :=
  (id / INODE_INDIRECT1_COUNT, id mod INODE_INDIRECT1_COUNT).

Section Ops.
Context {St : Type} `{BlockStore St}.

(** One step down: entry [i] of the indirect block [id]. *)
Definition read_entry (id i : Z) : cmd St Z :=
  read indirect_view id 0 (fun indirect_block => lift (index indirect_block i)).

Definition get_block_id (self : DiskInode) (inner_id : Z) : cmd St Z :=
  if inner_id <? INODE_DIRECT_COUNT then lift (index (direct self) inner_id)
  else if inner_id <? INDIRECT1_BOUND then
    read_entry (indirect1 self) (inner_id - INODE_DIRECT_COUNT)
  else if inner_id <? INDIRECT2_BOUND then
    let last := inner_id - INDIRECT1_BOUND in
    let* indirect1 := read_entry (indirect2 self) (last / INODE_INDIRECT1_COUNT) in
    read_entry indirect1 (last mod INODE_INDIRECT1_COUNT)
  else
    let last := inner_id - INDIRECT2_BOUND in
    let* indirect1 := read_entry (indirect3 self) (last / INODE_INDIRECT2_COUNT) in
    let* indirect2 :=
      read_entry indirect1 ((last mod INODE_INDIRECT2_COUNT) / INODE_INDIRECT1_COUNT) in
    read_entry indirect2 ((last mod INODE_INDIRECT2_COUNT) mod INODE_INDIRECT1_COUNT).

(** One round of the loop of [build_tree]: the [i]-th entry, a new block when no
    leaf below it exists yet, then the subtree; [rec] is the recursive call. *)
Definition build_step (rec : list Z -> Z -> Z -> cmd St (Z * list Z)) (src_leaf : Z)
    (st : Z * Z * list Z * list Z) : cmd St (Z * Z * list Z * list Z) :=
  let '(i, cur_leaf, blocks, indirect_block) := st in
  let* (blocks, indirect_block) :=
    if cur_leaf >=? src_leaf then
      let* (b, blocks) := lift (next_unwrap blocks) in
      let* indirect_block := lift (index_set indirect_block i b) in
      ret (blocks, indirect_block)
    else ret (blocks, indirect_block) in
  let* child := lift (index indirect_block i) in
  let* (cur_leaf, blocks) := rec blocks child cur_leaf in
  ret (i + 1, cur_leaf, blocks, indirect_block).

(** [build_tree]: extends the leaves of the tree under [block_id] from
    [src_leaf] to [dst_leaf].  The fuel is the height of the tree. *)
Fixpoint build_tree (fuel : nat) (blocks : list Z) (block_id cur_leaf src_leaf dst_leaf
    cur_depth dst_depth : Z) : cmd St (Z * list Z) :=
  if cur_depth =? dst_depth then ret (cur_leaf + 1, blocks)
  else match fuel with
  | O => fail OutOfFuel
  | S fuel =>
      modify indirect_view block_id 0 (fun indirect_block =>
        let* (_, cur_leaf, blocks, indirect_block) :=
          while (S (Z.to_nat INODE_INDIRECT1_COUNT))
            (fun '(i, cur_leaf, _, _) => (i <? INODE_INDIRECT1_COUNT) && (cur_leaf <? dst_leaf))
            (build_step (fun blocks child cur_leaf =>
               build_tree fuel blocks child cur_leaf src_leaf dst_leaf (cur_depth + 1) dst_depth)
               src_leaf)
            (0, cur_leaf, blocks, indirect_block) in
        ret ((cur_leaf, blocks), indirect_block))
  end.

(** [increase_size], one definition per stretch of the function. *)

(** "fill direct" *)
Definition fill_direct (self : DiskInode) (current_blocks total_blocks : Z)
    (new_blocks : list Z) : cmd St (DiskInode * Z * list Z) :=
  while (S (Z.to_nat INODE_DIRECT_COUNT))
    (fun '(self, current_blocks, _) => current_blocks <? Z.min total_blocks INODE_DIRECT_COUNT)
    (fun '(self, current_blocks, new_blocks) =>
       let* (b, new_blocks) := lift (next_unwrap new_blocks) in
       let* d := lift (index_set (direct self) current_blocks b) in
       ret (set_direct self d, w32 (current_blocks + 1), new_blocks))
    (self, current_blocks, new_blocks).

(** "fill indirect1" *)
Definition fill_indirect1 (id current_blocks total_blocks : Z) (new_blocks : list Z)
    : cmd St (Z * list Z) :=
  modify indirect_view id 0 (fun indirect1 =>
    let* (indirect1, current_blocks, new_blocks) :=
      while (S (Z.to_nat INODE_INDIRECT1_COUNT))
        (fun '(_, current_blocks, _) =>
           current_blocks <? Z.min total_blocks INODE_INDIRECT1_COUNT)
        (fun '(indirect1, current_blocks, new_blocks) =>
           let* (b, new_blocks) := lift (next_unwrap new_blocks) in
           let* indirect1 := lift (index_set indirect1 current_blocks b) in
           ret (indirect1, w32 (current_blocks + 1), new_blocks))
        (indirect1, current_blocks, new_blocks) in
    ret ((current_blocks, new_blocks), indirect1)).

(** One round of "alloc low-level indirect1": the leaf at position (a0, b0). *)
Definition fill2_step (st : list Z * Z * Z * Z * list Z)
    : cmd St (list Z * Z * Z * Z * list Z) :=
  let '(indirect2, a0, b0, current_blocks, new_blocks) := st in
  let* (indirect2, new_blocks) :=
    if b0 =? 0 then
      let* (b, new_blocks) := lift (next_unwrap new_blocks) in
      let* indirect2 := lift (index_set indirect2 a0 b) in
      ret (indirect2, new_blocks)
    else ret (indirect2, new_blocks) in
  (* fill current *)
  let* child := lift (index indirect2 a0) in
  let* new_blocks := modify indirect_view child 0 (fun indirect1 =>
    let* (b, new_blocks) := lift (next_unwrap new_blocks) in
    let* indirect1 := lift (index_set indirect1 b0 b) in
    ret (new_blocks, indirect1)) in
  (* move to next *)
  let current_blocks := w32 (current_blocks + 1) in
  let b0 := b0 + 1 in
  if b0 =? INODE_INDIRECT1_COUNT
  then ret (indirect2, a0 + 1, 0, current_blocks, new_blocks)
  else ret (indirect2, a0, b0, current_blocks, new_blocks).

(** "fill indirect2 from (a0, b0) -> (a1, b1)" *)
Definition fill_indirect2 (id current_blocks total_blocks : Z) (new_blocks : list Z)
    : cmd St (Z * list Z) :=
  let '(a0, b0) := decompose2 current_blocks in
  let '(a1, b1) := decompose2 (Z.min total_blocks INODE_INDIRECT2_COUNT) in
  modify indirect_view id 0 (fun indirect2 =>
    let* (indirect2, _, _, current_blocks, new_blocks) :=
      while (S (Z.to_nat INODE_INDIRECT2_COUNT))
        (fun '(_, a0, b0, _, _) => (a0 <? a1) || ((a0 =? a1) && (b0 <? b1)))
        fill2_step (indirect2, a0, b0, current_blocks, new_blocks) in
    ret ((current_blocks, new_blocks), indirect2)).

Definition increase_size (self : DiskInode) (new_size : Z) (new_blocks : list Z)
    : cmd St DiskInode :=
  let current_blocks := data_blocks self in
  let self := set_size self new_size in
  let total_blocks := data_blocks self in
  let* (self, current_blocks, new_blocks) :=
    fill_direct self current_blocks total_blocks new_blocks in
  (* alloc indirect1 *)
  if negb (total_blocks >? INODE_DIRECT_COUNT) then ret self else
  let* (self, new_blocks) :=
    if current_blocks =? INODE_DIRECT_COUNT then
      let* (b, new_blocks) := lift (next_unwrap new_blocks) in
      ret (set_indirect1 self b, new_blocks)
    else ret (self, new_blocks) in
  let current_blocks := w32 (current_blocks - INODE_DIRECT_COUNT) in
  let total_blocks := w32 (total_blocks - INODE_DIRECT_COUNT) in
  let* (current_blocks, new_blocks) :=
    fill_indirect1 (indirect1 self) current_blocks total_blocks new_blocks in
  (* alloc indirect2 *)
  if negb (total_blocks >? INODE_INDIRECT1_COUNT) then ret self else
  let* (self, new_blocks) :=
    if current_blocks =? INODE_INDIRECT1_COUNT then
      let* (b, new_blocks) := lift (next_unwrap new_blocks) in
      ret (set_indirect2 self b, new_blocks)
    else ret (self, new_blocks) in
  let current_blocks := w32 (current_blocks - INODE_INDIRECT1_COUNT) in
  let total_blocks := w32 (total_blocks - INODE_INDIRECT1_COUNT) in
  let* (current_blocks, new_blocks) :=
    fill_indirect2 (indirect2 self) current_blocks total_blocks new_blocks in
  (* alloc indirect3 *)
  if negb (total_blocks >? INODE_INDIRECT2_COUNT) then ret self else
  let* (self, new_blocks) :=
    if current_blocks =? INODE_INDIRECT2_COUNT then
      let* (b, new_blocks) := lift (next_unwrap new_blocks) in
      ret (set_indirect3 self b, new_blocks)
    else ret (self, new_blocks) in
  let current_blocks := w32 (current_blocks - INODE_INDIRECT2_COUNT) in
  let total_blocks := w32 (total_blocks - INODE_INDIRECT2_COUNT) in
  let* _ := build_tree 3 new_blocks (indirect3 self) 0 current_blocks total_blocks 0 3 in
  ret self.

(** One round of the loop of [collect_tree_blocks]. *)
Definition collect_step (rec : list Z -> Z -> Z -> cmd St (Z * list Z)) (indirect_block : list Z)
    (st : Z * Z * list Z) : cmd St (Z * Z * list Z) :=
  let '(i, cur_leaf, collected) := st in
  let* child := lift (index indirect_block i) in
  let* (cur_leaf, collected) := rec (collected ++ [child]) child cur_leaf in
  ret (i + 1, cur_leaf, collected).

(** [collect_tree_blocks]: pushes the blocks under [block_id], in order. *)
Fixpoint collect_tree_blocks (fuel : nat) (collected : list Z)
    (block_id cur_leaf max_leaf cur_depth dst_depth : Z) : cmd St (Z * list Z) :=
  if cur_depth =? dst_depth then ret (cur_leaf + 1, collected)
  else match fuel with
  | O => fail OutOfFuel
  | S fuel =>
      read indirect_view block_id 0 (fun indirect_block =>
        let* (_, cur_leaf, collected) :=
          while (S (Z.to_nat INODE_INDIRECT1_COUNT))
            (fun '(i, cur_leaf, _) => (i <? INODE_INDIRECT1_COUNT) && (cur_leaf <? max_leaf))
            (collect_step (fun collected child cur_leaf =>
               collect_tree_blocks fuel collected child cur_leaf max_leaf (cur_depth + 1) dst_depth)
               indirect_block)
            (0, cur_leaf, collected) in
        ret (cur_leaf, collected))
  end.

(** [clear_size], one definition per stretch of the function; [v] is the vector
    of the blocks to deallocate. *)

(** "direct" *)
Definition clear_direct (self : DiskInode) (data_blocks : Z) : cmd St (DiskInode * list Z) :=
  let* (self, _, v) :=
    while (S (Z.to_nat INODE_DIRECT_COUNT))
      (fun '(_, current_blocks, _) => current_blocks <? Z.min data_blocks INODE_DIRECT_COUNT)
      (fun '(self, current_blocks, v) =>
         let* b := lift (index (direct self) current_blocks) in
         let* d := lift (index_set (direct self) current_blocks 0) in
         ret (set_direct self d, current_blocks + 1, v ++ [b]))
      (self, 0, []) in
  ret (self, v).

(** "indirect1" *)
Definition clear_indirect1 (id data_blocks : Z) (v : list Z) : cmd St (list Z) :=
  modify indirect_view id 0 (fun indirect1 =>
    let* (_, v) :=
      while (S (Z.to_nat INODE_INDIRECT1_COUNT))
        (fun '(current_blocks, _) => current_blocks <? Z.min data_blocks INODE_INDIRECT1_COUNT)
        (fun '(current_blocks, v) =>
           let* b := lift (index indirect1 current_blocks) in
           ret (current_blocks + 1, v ++ [b]))
        (0, v) in
    ret (v, indirect1)).

(** "indirect2": the full indirect1 blocks, then the last one. *)
Definition clear_indirect2 (id data_blocks : Z) (v : list Z) : cmd St (list Z) :=
  let '(a1, b1) := decompose2 (Z.min data_blocks INODE_INDIRECT2_COUNT) in
  modify indirect_view id 0 (fun indirect2 =>
    let* v :=
      for_each (take (Z.to_nat a1) indirect2) (fun entry v =>
        modify indirect_view entry 0 (fun indirect1 =>
          ret ((v ++ [entry]) ++ indirect1, indirect1))) v in
    let* v :=
      if b1 >? 0 then
        let* entry := lift (index indirect2 a1) in
        modify indirect_view entry 0 (fun indirect1 =>
          ret ((v ++ [entry]) ++ take (Z.to_nat b1) indirect1, indirect1))
      else ret v in
    ret (v, indirect2)).

Definition clear_size (self : DiskInode) : cmd St (list Z * DiskInode) :=
  let data_blocks := data_blocks self in
  let self := set_size self 0 in
  let* (self, v) := clear_direct self data_blocks in
  (* indirect1 block *)
  if negb (data_blocks >? INODE_DIRECT_COUNT) then ret (v, self) else
  let v := v ++ [indirect1 self] in
  let data_blocks := data_blocks - INODE_DIRECT_COUNT in
  let* v := clear_indirect1 (indirect1 self) data_blocks v in
  let self := set_indirect1 self 0 in
  (* indirect2 block *)
  if negb (data_blocks >? INODE_INDIRECT1_COUNT) then ret (v, self) else
  let v := v ++ [indirect2 self] in
  let data_blocks := data_blocks - INODE_INDIRECT1_COUNT in
  let* v := clear_indirect2 (indirect2 self) data_blocks v in
  let self := set_indirect2 self 0 in
  (* indirect3 block *)
  assert (data_blocks <=? INODE_INDIRECT3_COUNT);;
  if negb (data_blocks >? INODE_INDIRECT2_COUNT) then ret (v, self) else
  let v := v ++ [indirect3 self] in
  let data_blocks := data_blocks - INODE_INDIRECT2_COUNT in
  let* (_, v) := collect_tree_blocks 3 v (indirect3 self) 0 data_blocks 0 3 in
  ret (v, set_indirect3 self 0).

(** The [loop] of [read_at]; every round but the last fills up to the end of a
    block, so the length of the buffer bounds the rounds. *)
Fixpoint read_loop (fuel : nat) (self : DiskInode) (start end_ start_block read_size : Z)
    (buf : list byte) : cmd St (Z * list byte) :=
  match fuel with
  | O => fail OutOfFuel
  | S fuel =>
      let end_current_block := Z.min ((start / BLOCK_SZ + 1) * BLOCK_SZ) end_ in
      let block_read_size := end_current_block - start in
      let* id := get_block_id self (w32 start_block) in
      let* buf := read data_view id 0 (fun data_block =>
        let* src := lift (slice data_block (start mod BLOCK_SZ)
                            (start mod BLOCK_SZ + block_read_size)) in
        lift (copy_from_slice buf read_size (read_size + block_read_size) src)) in
      let read_size := read_size + block_read_size in
      if end_current_block =? end_ then ret (read_size, buf)
      else read_loop fuel self end_current_block end_ (start_block + 1) read_size buf
  end.

(** [read_at]: the number of bytes read and the buffer. *)
Definition read_at (self : DiskInode) (offset : Z) (buf : list byte)
    : cmd St (Z * list byte) :=
  let start := offset in
  let end_ := Z.min (w64 (offset + zlen buf)) (size self) in
  if start >=? end_ then ret (0, buf)
  else read_loop (S (length buf)) self start end_ (start / BLOCK_SZ) 0 buf.

Fixpoint write_loop (fuel : nat) (self : DiskInode) (start end_ start_block write_size : Z)
    (buf : list byte) : cmd St Z :=
  match fuel with
  | O => fail OutOfFuel
  | S fuel =>
      let end_current_block := Z.min ((start / BLOCK_SZ + 1) * BLOCK_SZ) end_ in
      let block_write_size := end_current_block - start in
      let* id := get_block_id self (w32 start_block) in
      modify data_view id 0 (fun data_block =>
        let* src := lift (slice buf write_size (write_size + block_write_size)) in
        let* data_block := lift (copy_from_slice data_block (start mod BLOCK_SZ)
                                   (start mod BLOCK_SZ + block_write_size) src) in
        ret (tt, data_block));;
      let write_size := write_size + block_write_size in
      if end_current_block =? end_ then ret write_size
      else write_loop fuel self end_current_block end_ (start_block + 1) write_size buf
  end.

(** [write_at]: the number of bytes written. *)
Definition write_at (self : DiskInode) (offset : Z) (buf : list byte) : cmd St Z :=
  let start := offset in
  let end_ := Z.min (w64 (offset + zlen buf)) (size self) in
  assert (start <=? end_);;
  write_loop (S (length buf)) self start end_ (start / BLOCK_SZ) 0 buf.

End Ops.

(** ** Directory entries *)
Record DirEntry := mkDirEntry {
  ent_name : list byte;
  ent_inode : Z;
}.

Definition DIRENT_SZ : Z := 32.

(** [DirEntry::empty]. *)
Definition dirent_empty : DirEntry :=
  mkDirEntry (replicate (Z.to_nat (NAME_LENGTH_LIMIT + 1)) Byte.x00) 0.

(** [DirEntry::new]: a name is the bytes of a [&str]. *)
Definition dirent_new (name : list byte) (inode_number : Z) : result DirEntry :=
  match copy_from_slice (replicate (Z.to_nat (NAME_LENGTH_LIMIT + 1)) Byte.x00)
          0 (zlen name) name with
  | Ok bytes => Ok (mkDirEntry bytes inode_number)
  | Fail f => Fail f
  end.

(** [as_bytes], and what [as_bytes_mut] stores back into the entry. *)
Definition dirent_as_bytes (self : DirEntry) : list byte :=
  ent_name self ++ enc_word 4 (ent_inode self).

Definition dirent_of_bytes (b : list byte) : DirEntry :=
  mkDirEntry (take 28 b) (dec_word (drop 28 b)).

(** [DirEntry::inode_number]. *)
Definition dirent_inode_number (self : DirEntry) : Z := ent_inode self.

(** [core::str::from_utf8(b).is_ok()]: the well-formed sequences of Unicode. *)
Definition in_range (b : byte) (lo hi : Z) : bool :=
  (lo <=? byte.unsigned b) && (byte.unsigned b <=? hi).
Definition continuation (b : byte) : bool := in_range b 0x80 0xbf.

Fixpoint utf8_valid (b : list byte) : bool :=
  match b with
  | [] => true
  | b0 :: r0 =>
      if in_range b0 0 0x7f then utf8_valid r0 else
      match r0 with
      | [] => false
      | b1 :: r1 =>
          if in_range b0 0xc2 0xdf then continuation b1 && utf8_valid r1 else
          match r1 with
          | [] => false
          | b2 :: r2 =>
              if in_range b0 0xe0 0xef then
                (if in_range b0 0xe0 0xe0 then in_range b1 0xa0 0xbf
                 else if in_range b0 0xed 0xed then in_range b1 0x80 0x9f
                 else continuation b1)
                && continuation b2 && utf8_valid r2
              else match r2 with
              | [] => false
              | b3 :: r3 =>
                  in_range b0 0xf0 0xf4 &&
                  (if in_range b0 0xf0 0xf0 then in_range b1 0x90 0xbf
                   else if in_range b0 0xf4 0xf4 then in_range b1 0x80 0x8f
                   else continuation b1)
                  && continuation b2 && continuation b3 && utf8_valid r3
              end
          end
      end
  end.

(** [name]: the bytes before the first zero; indexing past the array panics
    when there is none, and so does a name that is not UTF-8. *)
Definition dirent_name (self : DirEntry) : result (list byte) :=
  match list_find (fun b => b = Byte.x00) (ent_name self) with
  | Some (len, _) =>
      let s := take len (ent_name self) in
      if utf8_valid s then Ok s else Fail Panic
  | None => Fail Panic
  end.
