(* ===== verification/DiskCodec.v ===== *)
(** * Byte layouts of the on-disk structures (layout.rs)

    Reading back what was written: super block, inode and directory entry. *)

From S2P Require Import Prelude BlockDev BlockStore Layout.

Definition u32_all (l : list Z) : Prop := Forall (fun z => 0 <= z < 2 ^ 32) l.

(** ** Inodes *)
Record inode_words_ok (di : DiskInode) : Prop := {
  iw_size : 0 <= size di < 2 ^ 32;
  iw_direct : length (direct di) = 27%nat;
  iw_words : u32_all (direct di);
  iw_indirect : u32_all [indirect1 di; indirect2 di; indirect3 di];
}.

Lemma type_of_byte_of_type t : type_of_byte (byte_of_type t) = Ok t.
Proof. by destruct t. Qed.

Lemma inode_encode_length old di :
  length old = 128%nat -> length (direct di) = 27%nat -> length (encode inode_view old di) = 128%nat.
Proof.
  intros Ho Hd. cbn [encode inode_view]. rewrite !length_app, enc_words_length, length_drop.
  unfold inode_words. cbn [length]. rewrite length_app, Hd, Ho. done.
Qed.

Lemma inode_decode_encode old di :
  length old = 128%nat -> inode_words_ok di -> decode inode_view (encode inode_view old di) = Ok di.
Proof.
  intros Ho [Hs Hd Hw Hi]. cbn [encode decode inode_view].
  assert (Hlen : length (inode_words di) = 31%nat) by (unfold inode_words; simpl; rewrite length_app, Hd; done).
  assert (Hall : Forall (fun z => 0 <= z < 2 ^ (Z.of_nat 4 * 8)) (inode_words di)).
  { unfold inode_words. constructor; [done|]. by apply Forall_app. }
  rewrite dec_words_app by (rewrite enc_words_length, Hlen; done).
  replace (dec_words 4 31 (enc_words 4 (inode_words di))) with (inode_words di)
    by (rewrite <- Hlen; by rewrite dec_enc_words).
  rewrite lookup_app_r by (rewrite enc_words_length, Hlen; lia).
  rewrite enc_words_length, Hlen. simpl lookup. cbv iota. unfold inode_words at 1.
  rewrite (drop_app_length' _ _ 27), (take_app_length' _ _ 27) by done.
  rewrite type_of_byte_of_type. by destruct di.
Qed.

(** ** The super block *)
Lemma super_decode_encode old sb :
  u32_all (super_words sb) -> decode super_view (encode super_view old sb) = Ok sb.
Proof.
  intros Hall. cbn [encode decode super_view].
  change 6%nat with (length (super_words sb)). rewrite (dec_enc_words 4) by done. by destruct sb.
Qed.

(** ** Directory entries *)
Lemma dirent_bytes_roundtrip e :
  length (ent_name e) = 28%nat -> 0 <= ent_inode e < 2 ^ 32 -> dirent_of_bytes (dirent_as_bytes e) = e.
Proof.
  intros Hn Hi. unfold dirent_of_bytes, dirent_as_bytes.
  rewrite take_app_length', drop_app_length' by done. rewrite dec_enc_word by done. by destruct e.
Qed.

Lemma dirent_as_bytes_length e : length (ent_name e) = 28%nat -> length (dirent_as_bytes e) = 32%nat.
Proof. intros Hn. unfold dirent_as_bytes. rewrite length_app, enc_word_length, Hn. done. Qed.

(** The names an entry can hold and give back. *)
Definition name_ok (name : list byte) : Prop :=
  zlen name <= NAME_LENGTH_LIMIT /\ utf8_valid name = true /\ Byte.x00 ∉ name.

Lemma dirent_new_ok name i :
  zlen name <= NAME_LENGTH_LIMIT + 1 ->
  dirent_new name i = Ok (mkDirEntry (name ++ replicate (28 - length name) Byte.x00) i).
Proof.
  unfold NAME_LENGTH_LIMIT, zlen. intros Hlen. unfold dirent_new, NAME_LENGTH_LIMIT.
  change (Z.to_nat (27 + 1)) with 28%nat.
  rewrite copy_from_slice_Ok; [|unfold zlen; lia|unfold zlen; rewrite length_replicate; lia|unfold zlen; lia].
  do 2 f_equal. unfold splice. rewrite take_0, drop_replicate. done.
Qed.

Lemma dirent_new_too_long name i :
  zlen name > NAME_LENGTH_LIMIT + 1 -> dirent_new name i = Fail Panic.
Proof.
  unfold NAME_LENGTH_LIMIT, zlen. intros Hlen. unfold dirent_new, copy_from_slice, NAME_LENGTH_LIMIT, zlen.
  change (Z.to_nat (27 + 1)) with 28%nat. rewrite length_replicate.
  destruct (Z.leb_spec (Z.of_nat (length name)) (Z.of_nat 28)); [lia|].
  by rewrite ?andb_false_r, ?andb_false_l.
Qed.

Lemma find_zero name k :
  Byte.x00 ∉ name ->
  list_find (fun b => b = Byte.x00) (name ++ replicate (S k) Byte.x00) = Some (length name, Byte.x00).
Proof.
  intros Hnz. apply list_find_Some. split_and!; [|done|].
  - rewrite lookup_app_r by lia. by rewrite Nat.sub_diag.
  - intros j y Hj Hlt ->. apply lookup_app_Some in Hj as [Hj|[Hge _]]; [|lia].
    apply Hnz. by eapply list_elem_of_lookup_2.
Qed.

Lemma dirent_name_new name i e :
  name_ok name -> dirent_new name i = Ok e -> dirent_name e = Ok name.
Proof.
  intros (Hlen & Hutf & Hnz) He. rewrite dirent_new_ok in He by (unfold NAME_LENGTH_LIMIT in *; lia).
  injection He as <-. unfold dirent_name. cbn [ent_name]. unfold NAME_LENGTH_LIMIT, zlen in Hlen.
  replace (28 - length name)%nat with (S (27 - length name)) by lia.
  rewrite find_zero by done. rewrite take_app_length. by rewrite Hutf.
Qed.
