(* ===== verification/Tree.v ===== *)
(** * Trees of indirect blocks

    The data blocks of a file beyond the direct ones hang off trees of indirect
    blocks, 128 entries per node.  [tree] is the abstract tree, [trep] says that
    the blocks of the store represent one with a given number of leaves. *)

From S2P Require Import Prelude BlockDev BlockStore Layout.

Inductive tree := Node (id : Z) (cs : list tree).

Definition root (t : tree) : Z := let 'Node id _ := t in id.
Definition children (t : tree) : list tree := let 'Node _ cs := t in cs.

(** A tree of height [0] is a data block, one of height [S h] an indirect block
    over trees of height [h]. *)
Fixpoint leaves (h : nat) (t : tree) : list Z :=
  match h with
  | O => [root t]
  | S h => concat (leaves h <$> children t)
  end.

(** The indirect blocks. *)
Fixpoint indexes (h : nat) (t : tree) : list Z :=
  match h with
  | O => []
  | S h => root t :: concat (indexes h <$> children t)
  end.

(** All the blocks, each before those below it. *)
Fixpoint preorder (h : nat) (t : tree) : list Z :=
  match h with
  | O => [root t]
  | S h => root t :: concat (preorder h <$> children t)
  end.

(** Leaves of a full tree of height [h]. *)
Definition cap (h : nat) : Z := 128 ^ Z.of_nat h.

Definition clamp (z lo hi : Z) : Z := Z.max lo (Z.min z hi).

(** Leaves below the [i]-th child of a tree of height [S h] with [n] leaves. *)
Definition share (n : Z) (h i : nat) : Z := clamp (n - Z.of_nat i * cap h) 0 (cap h).

(** The entries of an indirect block. *)
Definition table (σ : gmap Z (list byte)) (id : Z) : option (list Z) :=
  b ← σ !! id; Some (dec_words 4 128 b).

(** The blocks of [σ] hold the tree [t] of height [h], filled with [n] leaves
    from the left. *)
Fixpoint trep (σ : gmap Z (list byte)) (h : nat) (n : Z) (t : tree) : Prop :=
  match h with
  | O => 0 <= n <= 1 /\ children t = []
  | S h' => exists ents, table σ (root t) = Some ents
      /\ 0 <= n <= cap (S h')
      /\ zlen (children t) = ceil_div n (cap h')
      /\ forall i c, children t !! i = Some c ->
           ents !! i = Some (root c) /\ trep σ h' (share n h' i) c
  end.

Definition blocks_ok (σ : gmap Z (list byte)) : Prop :=
  forall id b, σ !! id = Some b -> length b = block_len.

(** ** Arithmetic of shares *)
Lemma cap_0 : cap 0 = 1.
Proof. done. Qed.

Lemma cap_S h : cap (S h) = 128 * cap h.
Proof. unfold cap. rewrite Nat2Z.inj_succ, Z.pow_succ_r by lia. done. Qed.

Lemma cap_pos h : 0 < cap h.
Proof. unfold cap. apply Z.pow_pos_nonneg; lia. Qed.

Lemma share_range n h i : 0 <= share n h i <= cap h.
Proof. unfold share, clamp. pose proof (cap_pos h). lia. Qed.

Lemma ceil_div_spec n c : 0 < c -> 0 <= n ->
  0 <= ceil_div n c /\ (ceil_div n c - 1) * c < n <= ceil_div n c * c \/ (n = 0 /\ ceil_div n c = 0).
Proof.
  intros Hc Hn. unfold ceil_div. destruct (decide (n = 0)) as [->|].
  - right. split; [done|]. apply Z.div_small. lia.
  - left. pose proof (Z.div_mod (n + c - 1) c). pose proof (Z.mod_pos_bound (n + c - 1) c).
    split; [apply Z.div_pos; lia|]. nia.
Qed.

(** The [i]-th child exists exactly when its share is not empty. *)
Lemma share_pos n h i : 0 <= n -> (Z.of_nat i < ceil_div n (cap h) <-> 0 < share n h i).
Proof.
  intros Hn. pose proof (cap_pos h) as Hc. unfold share, clamp.
  destruct (ceil_div_spec n (cap h) Hc Hn) as [[? ?]|[-> ->]]; [nia|].
  nia.
Qed.

Lemma ceil_div_le n m c : 0 < c -> n <= m -> ceil_div n c <= ceil_div m c.
Proof. intros. unfold ceil_div. apply Z.div_le_mono; lia. Qed.

Lemma share_mono n m h i : n <= m -> share n h i <= share m h i.
Proof. unfold share, clamp. lia. Qed.

(** ** Structure *)
Lemma trep_range σ h n t : trep σ h n t -> 0 <= n <= cap h.
Proof. destruct h; simpl; [rewrite cap_0; naive_solver|naive_solver]. Qed.

Lemma trep_frame σ σ' h n t :
  (forall b, b ∈ indexes h t -> σ' !! b = σ !! b) -> trep σ h n t -> trep σ' h n t.
Proof.
  revert n t. induction h as [|h IH]; intros n t Hag; [done|].
  intros (ents & Ht & Hn & Hlen & Hcs). exists ents. split_and!; [|lia..|done|].
  - unfold table in *. rewrite Hag; [done|]. simpl. by left.
  - intros i c Hi. destruct (Hcs i c Hi) as [He Hc]. split; [done|].
    apply IH; [|done]. intros b Hb. apply Hag. simpl. right.
    apply list_elem_of_In, in_concat. exists (indexes h c).
    rewrite <- !list_elem_of_In. split; [|done].
    apply list_elem_of_fmap. exists c. split; [done|]. by eapply list_elem_of_lookup_2.
Qed.

(** The first [k] children hold [min (k * cap h) n] leaves. *)
Lemma prefix_leaves h n cs (P : Z -> tree -> Prop) :
  0 <= n -> zlen cs = ceil_div n (cap h) ->
  (forall i c, cs !! i = Some c -> P (share n h i) c) ->
  (forall m c, P m c -> 0 < m <= cap h -> zlen (leaves h c) = m) ->
  forall k, (k <= length cs)%nat ->
  zlen (concat (leaves h <$> take k cs)) = Z.min (Z.of_nat k * cap h) n.
Proof.
  intros Hn Hlen Hcs HP. pose proof (cap_pos h) as Hc. unfold zlen in Hlen.
  induction k as [|k IHk]; intros Hk; [unfold zlen; simpl; lia|].
  destruct (lookup_lt_is_Some_2 cs k) as [c Hck]; [lia|].
  rewrite (take_S_r _ _ _ Hck), fmap_app, concat_app. unfold zlen in *.
  rewrite length_app, Nat2Z.inj_add, IHk by lia. simpl. rewrite app_nil_r.
  assert (Hs : 0 < share n h k) by (apply share_pos; lia).
  pose proof (share_range n h k). rewrite (HP (share n h k)) by (eauto || lia).
  unfold share, clamp in *. nia.
Qed.

Lemma leaves_length σ h n t :
  trep σ h n t -> (0 < h)%nat \/ n = 1 -> zlen (leaves h t) = n.
Proof.
  revert n t. induction h as [|h IH]; intros n t Ht Hh.
  { destruct Hh as [?| ->]; [lia|done]. }
  destruct Ht as (ents & _ & Hn & Hlen & Hcs). destruct t as [r cs]. simpl in *.
  pose proof (cap_pos h) as Hc.
  pose proof (prefix_leaves h n cs (trep σ h) ltac:(lia) Hlen) as Hpre.
  specialize (Hpre (fun i c Hi => proj2 (Hcs i c Hi))).
  rewrite <- (firstn_all cs). rewrite Hpre; [|intros m c Hm ?; apply IH; [done|]|lia].
  - unfold zlen in Hlen. rewrite Hlen.
    destruct (ceil_div_spec n (cap h) Hc ltac:(lia)) as [[? ?]|[-> ->]]; lia.
  - destruct h; [right; rewrite cap_0 in *; lia|left; lia].
Qed.

Lemma preorder_perm h t : preorder h t ≡ₚ leaves h t ++ indexes h t.
Proof.
  revert t. induction h as [|h IH]; intros [r cs]; simpl; [done|].
  rewrite <- Permutation_middle. apply Permutation_cons; [done|].
  induction cs as [|c cs IHcs]; [done|]. csimpl. rewrite IHcs, IH.
  rewrite <- !app_assoc. apply Permutation_app; [done|].
  rewrite !app_assoc. apply Permutation_app; [|done]. apply Permutation_app_comm.
Qed.

(** ** Counting blocks *)
Fixpoint sum_from (f : nat -> Z) (a k : nat) : Z :=
  match k with O => 0 | S k => f a + sum_from f (S a) k end.

(** Blocks of a tree of height [h] with [n] leaves; a child without leaves does
    not exist. *)
Fixpoint weight (h : nat) (n : Z) : Z :=
  match h with
  | O => 1
  | S h => 1 + sum_from (fun i => let m := share n h i in if 0 <? m then weight h m else 0) 0 128
  end.

Definition child_weight (h : nat) (n : Z) (i : nat) : Z :=
  if 0 <? share n h i then weight h (share n h i) else 0.

Lemma weight_S h n : weight (S h) n = 1 + sum_from (child_weight h n) 0 128.
Proof. done. Qed.

Lemma sum_from_ext f g a k :
  (forall i, (a <= i < a + k)%nat -> f i = g i) -> sum_from f a k = sum_from g a k.
Proof.
  revert a. induction k as [|k IH]; intros a Hfg; simpl; [done|].
  rewrite Hfg by lia. f_equal. apply IH. intros. apply Hfg. lia.
Qed.

Lemma sum_from_nonneg f a k :
  (forall i, (a <= i < a + k)%nat -> 0 <= f i) -> 0 <= sum_from f a k.
Proof.
  revert a. induction k as [|k IH]; intros a Hf; simpl; [lia|].
  assert (0 <= sum_from f (S a) k) by (apply IH; intros; apply Hf; lia).
  pose proof (Hf a ltac:(lia)). lia.
Qed.

Lemma sum_from_sub f g a k :
  sum_from (fun i => f i - g i) a k = sum_from f a k - sum_from g a k.
Proof. revert a. induction k as [|k IH]; intros a; simpl; [lia|]. rewrite IH. lia. Qed.

Lemma sum_from_split f a k1 k2 :
  sum_from f a (k1 + k2) = sum_from f a k1 + sum_from f (a + k1)%nat k2.
Proof.
  revert a. induction k1 as [|k1 IH]; intros a; simpl.
  - by rewrite Nat.add_0_r.
  - rewrite IH. replace (a + S k1)%nat with (S a + k1)%nat by lia. lia.
Qed.

Lemma sum_from_zero f a k : (forall i, (a <= i < a + k)%nat -> f i = 0) -> sum_from f a k = 0.
Proof.
  revert a. induction k as [|k IH]; intros a Hf; simpl; [done|].
  rewrite Hf by lia. rewrite IH; [lia|]. intros. apply Hf. lia.
Qed.

Lemma sum_from_mono f g a k : (forall i, f i <= g i) -> sum_from f a k <= sum_from g a k.
Proof.
  intros Hfg. revert a. induction k as [|k IH]; intros a; simpl; [lia|].
  pose proof (Hfg a). pose proof (IH (S a)). lia.
Qed.

Lemma sum_from_S f a k : sum_from f a (S k) = f a + sum_from f (S a) k.
Proof. done. Qed.

#[global] Arguments weight : simpl never.
#[global] Arguments sum_from : simpl never.

Lemma weight_pos h n : 0 < weight h n.
Proof.
  revert n. induction h as [|h IH]; intros n; [done|]. rewrite weight_S.
  assert (0 <= sum_from (child_weight h n) 0 128); [|lia].
  apply sum_from_nonneg. intros i _. unfold child_weight. pose proof (IH (share n h i)).
  destruct (0 <? share n h i); lia.
Qed.

Lemma child_weight_mono h n m i :
  (forall a b, a <= b -> weight h a <= weight h b) -> n <= m ->
  child_weight h n i <= child_weight h m i.
Proof.
  intros Hw Hnm. pose proof (share_mono n m h i Hnm). unfold child_weight.
  pose proof (weight_pos h (share m h i)).
  destruct (Z.ltb_spec 0 (share n h i)), (Z.ltb_spec 0 (share m h i)); try lia.
  by apply Hw.
Qed.

Lemma weight_mono h n m : n <= m -> weight h n <= weight h m.
Proof.
  revert n m. induction h as [|h IH]; intros n m Hnm; [done|].
  rewrite !weight_S. apply Z.add_le_mono_l, sum_from_mono.
  intros i. by apply child_weight_mono.
Qed.

(** The number of blocks of a represented tree. *)
Lemma preorder_length σ h n t : trep σ h n t -> zlen (preorder h t) = weight h n.
Proof.
  revert n t. induction h as [|h IH]; intros n t Ht; [done|].
  destruct Ht as (ents & _ & Hn & Hlen & Hcs). destruct t as [r cs]. rewrite weight_S.
  simpl in *. pose proof (cap_pos h) as Hc.
  assert (Hle : (length cs <= 128)%nat).
  { rewrite cap_S in Hn. unfold zlen in Hlen.
    destruct (ceil_div_spec n (cap h) Hc ltac:(lia)) as [[? ?]|[-> ?]]; nia. }
  assert (Hpre : forall k, (k <= length cs)%nat ->
    zlen (concat (preorder h <$> take k cs)) = sum_from (child_weight h n) 0 k).
  { induction k as [|k IHk]; intros Hk; [done|].
    destruct (lookup_lt_is_Some_2 cs k) as [c Hck]; [lia|].
    rewrite (take_S_r _ _ _ Hck), fmap_app, concat_app.
    unfold zlen in *. rewrite length_app, Nat2Z.inj_add, IHk by lia. simpl. rewrite app_nil_r.
    replace (S k) with (k + 1)%nat by lia. rewrite sum_from_split, (sum_from_S _ _ 0).
    change (sum_from _ _ 0) with 0. cbn [Nat.add].
    destruct (Hcs k c Hck) as [_ Hc']. rewrite (IH (share n h k)) by done.
    assert (0 < share n h k) by (apply share_pos; lia).
    assert (child_weight h n k = weight h (share n h k)); [|lia].
    unfold child_weight. destruct (Z.ltb_spec 0 (share n h k)); lia. }
  specialize (Hpre (length cs) ltac:(lia)). rewrite firstn_all in Hpre.
  unfold zlen in *. cbn [length]. rewrite Nat2Z.inj_succ, Hpre.
  replace 128%nat with (length cs + (128 - length cs))%nat by lia.
  rewrite sum_from_split, (sum_from_zero _ (0 + length cs)); [lia|].
  intros i Hi. unfold child_weight. destruct (Z.ltb_spec 0 (share n h i)) as [Hp|]; [|done].
  apply share_pos in Hp; lia.
Qed.

(** ** Closed forms: one term per level of the tree *)
Fixpoint level_sum (h : nat) (n : Z) : Z :=
  match h with O => n | S h' => ceil_div n (cap h) + level_sum h' n end.

Lemma ceil_div_0 c : 0 < c -> ceil_div 0 c = 0.
Proof. intros. apply Z.div_small. lia. Qed.

Lemma ceil_div_1 n : ceil_div n 1 = n.
Proof. unfold ceil_div. rewrite Z.div_1_r. lia. Qed.

Lemma ceil_div_small n c : 0 < n <= c -> ceil_div n c = 1.
Proof.
  intros. unfold ceil_div. replace (n + c - 1) with (n - 1 + 1 * c) by lia.
  rewrite Z.div_add, Z.div_small; lia.
Qed.

Lemma ceil_div_add a n c : 0 < c -> ceil_div (a * c + n) c = a + ceil_div n c.
Proof.
  intros. unfold ceil_div. replace (a * c + n + c - 1) with (n + c - 1 + a * c) by lia.
  rewrite Z.div_add; lia.
Qed.

Lemma cap_multiple j h : (j <= h)%nat -> exists q, cap h = q * cap j.
Proof.
  induction 1 as [|h _ [q IH]]; [exists 1; lia|]. exists (128 * q). rewrite cap_S, IH. lia.
Qed.

(** The shares of the children, cut in pieces of a size that divides theirs. *)
Lemma sum_ceil_shares j h n : (j <= h)%nat -> 0 <= n -> forall k,
  sum_from (fun i => ceil_div (share n h i) (cap j)) 0 k
    = ceil_div (Z.min n (Z.of_nat k * cap h)) (cap j).
Proof.
  intros Hj Hn. destruct (cap_multiple j h Hj) as [q Hq].
  pose proof (cap_pos j). pose proof (cap_pos h).
  induction k as [|k IH].
  { rewrite Z.min_r by lia. by rewrite ceil_div_0. }
  replace (S k) with (k + 1)%nat at 1 by lia.
  rewrite sum_from_split, IH, sum_from_S. change (sum_from _ _ 0) with 0. simpl Nat.add.
  unfold share, clamp. destruct (Z.le_gt_cases n (Z.of_nat k * cap h)).
  - rewrite (Z.max_l 0) by lia. rewrite ceil_div_0 by done. rewrite !Z.min_l by nia. lia.
  - rewrite (Z.min_r n) by lia. rewrite Z.max_r by lia.
    replace (Z.min n (Z.of_nat (S k) * cap h))
      with (Z.of_nat k * q * cap j + Z.min (n - Z.of_nat k * cap h) (cap h)) by nia.
    rewrite ceil_div_add by done. rewrite Hq at 1.
    replace (Z.of_nat k * (q * cap j)) with (Z.of_nat k * q * cap j + 0) by lia.
    rewrite ceil_div_add, ceil_div_0 by done. lia.
Qed.

Lemma sum_from_plus f g a k :
  sum_from (fun i => f i + g i) a k = sum_from f a k + sum_from g a k.
Proof.
  revert a. induction k as [|k IH]; intros a; [done|]. rewrite !sum_from_S, IH. lia.
Qed.

Lemma sum_level_shares j h n : (j <= h)%nat -> 0 <= n <= cap (S h) ->
  sum_from (fun i => level_sum j (share n h i)) 0 128 = level_sum j n.
Proof.
  intros Hj Hn. rewrite cap_S in Hn. induction j as [|j IH].
  - pose proof (sum_ceil_shares 0 h n ltac:(lia) ltac:(lia) 128) as E.
    rewrite cap_0, ceil_div_1, Z.min_l in E by lia. etrans; [|exact E].
    apply sum_from_ext. intros. by rewrite ?cap_0, ceil_div_1.
  - cbn [level_sum]. rewrite sum_from_plus, IH by lia.
    rewrite (sum_ceil_shares (S j)) by lia. by rewrite Z.min_l by lia.
Qed.

Lemma weight_closed h n : 0 <= n <= cap (S h) -> weight (S h) n = 1 + level_sum h n.
Proof.
  revert n. induction h as [|h IH]; intros n Hn; rewrite weight_S.
  - rewrite <- (sum_level_shares 0 0 n) by (done || lia). f_equal. apply sum_from_ext.
    intros i _. unfold child_weight. pose proof (share_range n 0 i). rewrite cap_0 in *.
    simpl level_sum. change (weight 0 _) with 1. destruct (Z.ltb_spec 0 (share n 0 i)); lia.
  - rewrite <- (sum_level_shares (S h) (S h) n) by (done || lia). f_equal. apply sum_from_ext.
    intros i _. unfold child_weight. pose proof (share_range n (S h) i) as Hs.
    destruct (Z.ltb_spec 0 (share n (S h) i)) as [Hpos|].
    + rewrite IH by done. cbn [level_sum]. by rewrite ceil_div_small by lia.
    + replace (share n (S h) i) with 0 by lia. clear. symmetry.
      induction (S h) as [|k IHk]; [done|]. cbn [level_sum].
      rewrite IHk, ceil_div_0; [done|apply cap_pos].
Qed.

(** ** Looking a leaf up *)
Lemma concat_lookup {A B} (f : A -> list B) cs q c k :
  cs !! q = Some c -> (k < length (f c))%nat ->
  concat (f <$> cs) !! (length (concat (f <$> take q cs)) + k)%nat = f c !! k.
Proof.
  intros Hq Hk.
  assert (E : f <$> cs = (f <$> take q cs) ++ f c :: (f <$> drop (S q) cs)).
  { rewrite <- (take_drop_middle cs q c Hq) at 1. by rewrite fmap_app. }
  rewrite E, concat_app, lookup_app_r by lia. csimpl.
  rewrite lookup_app_l by lia. f_equal. lia.
Qed.

Lemma in_preorder_child h t c : c ∈ children t -> root c ∈ preorder (S h) t.
Proof.
  intros Hc. simpl. right. apply list_elem_of_In, in_concat. exists (preorder h c).
  rewrite <- !list_elem_of_In. split.
  - apply list_elem_of_fmap. by exists c.
  - destruct h; simpl; by left.
Qed.

Lemma leaves_child σ h n t k :
  trep σ (S h) n t -> 0 <= k < n ->
  exists ents c, table σ (root t) = Some ents /\ ents !! Z.to_nat (k / cap h) = Some (root c)
    /\ trep σ h (share n h (Z.to_nat (k / cap h))) c
    /\ 0 <= k mod cap h < share n h (Z.to_nat (k / cap h))
    /\ leaves (S h) t !! Z.to_nat k = leaves h c !! Z.to_nat (k mod cap h)
    /\ c ∈ children t.
Proof.
  intros (ents & Hents & Hn & Hlen & Hcs) Hk. destruct t as [r cs]. simpl in *.
  pose proof (cap_pos h) as Hc.
  set (q := Z.to_nat (k / cap h)).
  assert (Hq : Z.of_nat q = k / cap h) by (unfold q; rewrite Z2Nat.id; [done|]; apply Z.div_pos; lia).
  pose proof (Z.div_mod k (cap h) ltac:(lia)) as Hdm.
  pose proof (Z.mod_pos_bound k (cap h) Hc) as Hmod.
  assert (Hsh : k mod cap h < share n h q) by (unfold share, clamp; nia).
  assert (Hlt : Z.of_nat q < ceil_div n (cap h)) by (apply share_pos; lia).
  destruct (lookup_lt_is_Some_2 cs q) as [c Hcq]; [unfold zlen in *; lia|].
  destruct (Hcs q c Hcq) as [He Hrep].
  exists ents, c. split_and!; [done|done|done|lia|done| |by eapply list_elem_of_lookup_2].
  assert (Hlv : forall m c, trep σ h m c -> 0 < m <= cap h -> zlen (leaves h c) = m).
  { intros m c' Hm ?. apply (leaves_length σ); [done|].
    destruct h; [right; rewrite cap_0 in *; lia|left; lia]. }
  pose proof (prefix_leaves h n cs (trep σ h) ltac:(lia) Hlen
    (fun i c Hi => proj2 (Hcs i c Hi)) Hlv q) as Hpre.
  specialize (Hpre ltac:(apply lookup_lt_Some in Hcq; lia)).
  rewrite <- (concat_lookup (leaves h) cs q c) by
    (done || (pose proof (share_range n h q); pose proof (Hlv _ _ Hrep); unfold zlen in *; lia)).
  f_equal. unfold zlen in Hpre. nia.
Qed.

(** ** Reading and writing indirect blocks *)
Definition entries_ok (l : list Z) : Prop :=
  length l = 128%nat /\ Forall (fun z => 0 <= z < 2 ^ 32) l.

Lemma table_ok σ id ents : blocks_ok σ -> table σ id = Some ents -> entries_ok ents.
Proof.
  intros Hok Ht. unfold table in Ht. destruct (σ !! id) as [b|] eqn:Hb; [|done].
  simpl in Ht. injection Ht as <-. specialize (Hok _ _ Hb). split; [apply dec_words_length|].
  by apply (dec_words_range 4 128).
Qed.

Lemma table_Some σ id : is_Some (σ !! id) -> exists ents, table σ id = Some ents.
Proof. intros [b Hb]. unfold table. rewrite Hb. by eexists. Qed.

Lemma entries_ok_insert l i x : entries_ok l -> 0 <= x < 2 ^ 32 -> entries_ok (<[i := x]> l).
Proof. intros [??] ?. split; [by rewrite length_insert|by apply Forall_insert]. Qed.

Definition set_table (σ : gmap Z (list byte)) (id : Z) (l : list Z) : gmap Z (list byte) :=
  <[id := enc_words 4 l]> σ.

Lemma table_set_eq σ id l : entries_ok l -> table (set_table σ id l) id = Some l.
Proof.
  intros [Hlen Hf]. unfold table, set_table. rewrite lookup_insert_eq. simpl.
  rewrite <- Hlen. by rewrite dec_enc_words.
Qed.

Lemma set_table_ne σ id l b : b <> id -> set_table σ id l !! b = σ !! b.
Proof. intros. unfold set_table. by rewrite lookup_insert_ne. Qed.

Lemma set_table_is_Some σ id l b : is_Some (σ !! b) -> is_Some (set_table σ id l !! b).
Proof. unfold set_table. intros. rewrite lookup_insert. case_decide; eauto. Qed.

Lemma blocks_ok_set σ id l : entries_ok l -> blocks_ok σ -> blocks_ok (set_table σ id l).
Proof.
  intros [Hlen _] Hok i b Hb. unfold set_table in Hb. rewrite lookup_insert in Hb.
  case_decide; [|by eapply Hok]. injection Hb as <-. by rewrite enc_words_length, Hlen.
Qed.

(** Writing a table back unchanged changes nothing. *)
Lemma set_table_id σ id ents :
  blocks_ok σ -> table σ id = Some ents -> set_table σ id ents = σ.
Proof.
  intros Hok Ht. unfold table in Ht. destruct (σ !! id) as [b|] eqn:Hb; [|done].
  simpl in Ht. injection Ht as <-. unfold set_table.
  rewrite (enc_dec_words 4 128) by (by apply (Hok id)). by apply insert_id.
Qed.

Section Access.
Context {St : Type} `{BlockStoreSpec St}.

Lemma runs_table {V} L σ id ents (f : list Z -> cmd St V) v σ' :
  blocks_ok σ -> lockable L id -> table σ id = Some ents ->
  runs ({[id]} ∪ L) σ (f ents) v σ' ->
  runs L σ (read indirect_view id 0 f) v σ'.
Proof.
  intros Hok HL Ht Hf. unfold table in Ht. destruct (σ !! id) as [b|] eqn:Hb; [|done].
  simpl in Ht. injection Ht as <-.
  eapply runs_read_block; [done|done|done|by eapply Hok|done|done].
Qed.

Lemma runs_modify_table {V} L σ id ents ents' (f : list Z -> cmd St (V * list Z)) v σ' :
  blocks_ok σ -> lockable L id -> table σ id = Some ents -> entries_ok ents' ->
  runs ({[id]} ∪ L) σ (f ents) (v, ents') σ' ->
  runs L σ (modify indirect_view id 0 f) v (set_table σ' id ents').
Proof.
  intros Hok HL Ht [Hlen _] Hf. unfold table in Ht. destruct (σ !! id) as [b|] eqn:Hb; [|done].
  simpl in Ht. injection Ht as <-.
  eapply (runs_modify_block _ _ _ indirect_view); [done|done|done|by eapply Hok|done| |done].
  simpl. by rewrite enc_words_length, Hlen.
Qed.

Lemma runs_read_entry L σ id ents i x :
  blocks_ok σ -> lockable L id -> table σ id = Some ents ->
  0 <= i -> ents !! Z.to_nat i = Some x ->
  runs L σ (read_entry id i) x σ.
Proof. intros. eapply runs_table; [done..|]. by apply runs_lift, index_Ok. Qed.

End Access.
