(* ===== verification/BuildTree.v ===== *)
(** * Growing a tree of indirect blocks ([build_tree] of layout.rs)

    [build_tree] walks the whole tree, allocates the entries whose first leaf is
    new and recurses.  Its theorem: the tree has the leaves it had, followed by
    new ones; exactly the missing blocks are taken from the iterator; nothing
    but indirect blocks of the tree is written. *)

From S2P Require Import Prelude BlockDev BlockStore Layout Tree.

(** Blocks that exist, are pairwise distinct and not locked. *)
Definition avail (σ : gmap Z (list byte)) (L : gset Z) (bs : list Z) : Prop :=
  NoDup bs /\ forall b, b ∈ bs -> is_Some (σ !! b) /\ (b ∉ L) /\ 0 <= b < 2 ^ 32.

(** [t1] is [t0] grown by the blocks [used]. *)
Record grown (σ σ' : gmap Z (list byte)) (h : nat) (t0 t1 : tree) (used : list Z) : Prop := {
  grown_root : root t1 = root t0;
  grown_leaves : leaves h t0 `prefix_of` leaves h t1;
  grown_blocks : preorder h t1 ≡ₚ preorder h t0 ++ used;
  grown_frame b : b ∉ indexes h t1 -> σ' !! b = σ !! b;
  grown_dom b : is_Some (σ !! b) -> is_Some (σ' !! b);
  grown_ok : blocks_ok σ';
  grown_fresh b : b ∈ leaves h t1 -> b ∈ leaves h t0 ++ used;
}.

Lemma avail_perm σ L bs bs' : bs ≡ₚ bs' -> avail σ L bs -> avail σ L bs'.
Proof. intros E [Hnd Hb]. split; [by rewrite <- E|]. intros b Hin. apply Hb. by rewrite E. Qed.

Lemma avail_app_l σ L bs bs' : avail σ L (bs ++ bs') -> avail σ L bs.
Proof. intros [Hnd Hb]. apply NoDup_app in Hnd as (? & _). split; [done|]. set_solver. Qed.

Lemma avail_app_r σ L bs bs' : avail σ L (bs ++ bs') -> avail σ L bs'.
Proof. intros [Hnd Hb]. apply NoDup_app in Hnd as (_ & _ & ?). split; [done|]. set_solver. Qed.

Lemma avail_dom σ σ' L bs :
  (forall b, is_Some (σ !! b) -> is_Some (σ' !! b)) -> avail σ L bs -> avail σ' L bs.
Proof. intros Hd [Hnd Hb]. split; [done|]. naive_solver. Qed.

Lemma avail_disjoint σ L bs bs' b : avail σ L (bs ++ bs') -> b ∈ bs -> b ∉ bs'.
Proof. intros [Hnd _]. apply NoDup_app in Hnd as (_ & ? & _). auto. Qed.

Lemma avail_lock σ L bs b : b ∉ bs -> avail σ L bs -> avail σ ({[b]} ∪ L) bs.
Proof. intros Hn [Hnd Hb]. split; [done|]. intros x Hx. specialize (Hb x Hx). set_solver. Qed.

Lemma indexes_preorder h t b : b ∈ indexes h t -> b ∈ preorder h t.
Proof. intros. rewrite preorder_perm. set_solver. Qed.

Lemma leaves_preorder h t b : b ∈ leaves h t -> b ∈ preorder h t.
Proof. intros. rewrite preorder_perm. set_solver. Qed.

Lemma root_preorder h t : root t ∈ preorder h t.
Proof. destruct h; simpl; by left. Qed.

(** ** Arithmetic of the recursion *)
Lemma clamp_child z h i :
  (i < 128)%nat ->
  clamp (z - Z.of_nat i * cap h) 0 (cap h) = share (clamp z 0 (cap (S h))) h i.
Proof.
  intros Hi. unfold share, clamp. rewrite cap_S. pose proof (cap_pos h).
  assert (Z.of_nat i * cap h + cap h <= 128 * cap h) by nia. lia.
Qed.

Lemma fresh_trep σ h r : is_Some (σ !! r) -> trep σ h 0 (Node r []).
Proof.
  intros Hr. destruct h as [|h]; simpl; [split; [lia|done]|].
  destruct (table_Some _ _ Hr) as [ents Hents]. exists ents. pose proof (cap_pos (S h)).
  split_and!; [done|lia|lia| |done].
  unfold ceil_div, zlen. simpl. symmetry. apply Z.div_small. pose proof (cap_pos h). lia.
Qed.

Lemma fresh_leaves h r b : b ∈ leaves h (Node r []) -> b = r.
Proof. destruct h; simpl; set_solver. Qed.

Lemma fresh_preorder h r : preorder h (Node r []) = [r].
Proof. by destruct h. Qed.

Section Build.
Context {St : Type} `{BlockStoreSpec St}.

(** The statement proved by induction on the height. *)
Definition build_spec (h : nat) : Prop :=
  forall L σ t0 cur src dst bl d D,
  let n0 := clamp (src - cur) 0 (cap h) in
  let n1 := clamp (dst - cur) 0 (cap h) in
  d + Z.of_nat h = D -> 0 <= cur < dst -> src <= dst ->
  blocks_ok σ -> trep σ h n0 t0 -> avail σ L (preorder h t0 ++ bl) ->
  Z.of_nat (base.size L) + Z.of_nat h <= BLOCK_CACHE_SIZE ->
  weight h n1 - weight h n0 <= zlen bl ->
  exists t1 used rest σ',
    bl = used ++ rest /\
    runs (St := St) L σ (build_tree h bl (root t0) cur src dst d D) (cur + n1, rest) σ' /\
    trep σ' h n1 t1 /\ grown σ σ' h t0 t1 used.

(** The loop over the entries of a node: the first [length done] children have
    been processed, [todo] are the existing ones still to come. *)
Record loop_inv (σ : gmap Z (list byte)) (h : nat) (n0 n1 : Z) (done todo : list tree)
    (ents : list Z) : Prop := {
  li_done j c : done !! j = Some c ->
    ents !! j = Some (root c) /\ trep σ h (share n1 h j) c;
  li_todo j c : todo !! j = Some c ->
    ents !! (length done + j)%nat = Some (root c) /\ trep σ h (share n0 h (length done + j)) c;
  li_len : zlen todo = Z.max 0 (ceil_div n0 (cap h) - zlen done);
  li_fit : zlen done <= ceil_div n1 (cap h);
  li_ents : entries_ok ents;
}.

Definition blocks_of (h : nat) (ts : list tree) : list Z := concat (preorder h <$> ts).
Definition leaves_of (h : nat) (ts : list tree) : list Z := concat (leaves h <$> ts).
Definition indexes_of (h : nat) (ts : list tree) : list Z := concat (indexes h <$> ts).

Lemma blocks_of_app h ts ts' : blocks_of h (ts ++ ts') = blocks_of h ts ++ blocks_of h ts'.
Proof. unfold blocks_of. by rewrite fmap_app, concat_app. Qed.
Lemma leaves_of_app h ts ts' : leaves_of h (ts ++ ts') = leaves_of h ts ++ leaves_of h ts'.
Proof. unfold leaves_of. by rewrite fmap_app, concat_app. Qed.
Lemma indexes_of_app h ts ts' : indexes_of h (ts ++ ts') = indexes_of h ts ++ indexes_of h ts'.
Proof. unfold indexes_of. by rewrite fmap_app, concat_app. Qed.
Lemma blocks_of_nil h : blocks_of h [] = [].
Proof. done. Qed.
Lemma leaves_of_nil h : leaves_of h [] = [].
Proof. done. Qed.
Lemma blocks_of_one h t : blocks_of h [t] = preorder h t.
Proof. unfold blocks_of. simpl. apply app_nil_r. Qed.
Lemma leaves_of_one h t : leaves_of h [t] = leaves h t.
Proof. unfold leaves_of. simpl. apply app_nil_r. Qed.
Lemma indexes_of_one h t : indexes_of h [t] = indexes h t.
Proof. unfold indexes_of. simpl. apply app_nil_r. Qed.

(** Representations of trees that share no block with what was written. *)
Lemma trep_other σ σ' h n c (ws : list Z) :
  (forall b, b ∉ ws -> σ' !! b = σ !! b) -> (forall b, b ∈ preorder h c -> b ∉ ws) ->
  trep σ h n c -> trep σ' h n c.
Proof. intros Hfr Hdis. apply trep_frame. intros b Hb. apply Hfr, Hdis. by apply indexes_preorder. Qed.

Lemma leaves_length_pos σ h n t : trep σ h n t -> 0 < n -> zlen (leaves h t) = n.
Proof.
  intros Ht Hn. apply (leaves_length σ); [done|]. destruct h; [|left; lia].
  right. destruct Ht. lia.
Qed.

(** A full child is not changed by growth; the last one may be. *)
Lemma grown_leaves_child σ σ' h n0 n1 c c' used (rest : list Z) :
  trep σ h n0 c -> trep σ' h n1 c' -> 0 < n0 -> 0 < n1 -> grown σ σ' h c c' used ->
  n0 = cap h \/ rest = [] ->
  leaves h c ++ rest `prefix_of` leaves h c' ++ rest.
Proof.
  intros Hc Hc' Hn Hn1 Hg [Hfull| ->]; [|rewrite !app_nil_r; apply Hg].
  pose proof (grown_leaves _ _ _ _ _ _ Hg) as Hpre.
  assert (E : leaves h c = leaves h c'); [|by rewrite E].
  apply prefix_length_eq; [done|]. pose proof (prefix_length _ _ Hpre).
  pose proof (leaves_length_pos _ _ _ _ Hc Hn). pose proof (trep_range _ _ _ _ Hc').
  pose proof (leaves_length_pos σ' h n1 c' Hc').
  unfold zlen in *. lia.
Qed.

Lemma prefix_app_both {A} (l m : list A) k : m `prefix_of` k -> l ++ m `prefix_of` l ++ k.
Proof. intros [x ->]. exists x. by rewrite app_assoc. Qed.

Section Child.
Variables (h : nat) (L : gset Z) (cur src dst d D : Z).
Let n0 := clamp (src - cur) 0 (cap (S h)).
Let n1 := clamp (dst - cur) 0 (cap (S h)).
Hypothesis IH : build_spec h.
Hypothesis Hdepth : d + 1 + Z.of_nat h = D.
Hypothesis Hcur : 0 <= cur < dst.
Hypothesis Hsrc : src <= dst.
Hypothesis HL : Z.of_nat (base.size L) + Z.of_nat h <= BLOCK_CACHE_SIZE.

Let rec (blocks : list Z) (child cur_leaf : Z) : cmd St (Z * list Z) :=
  build_tree h blocks child cur_leaf src dst (d + 1) D.

Definition cur_at (i : nat) : Z := cur + Z.min (Z.of_nat i * cap h) n1.
Definition budget (i : nat) : Z :=
  sum_from (child_weight h n1) i (128 - i) - sum_from (child_weight h n0) i (128 - i).

(** What one round, or several, did to the children. *)
Record advanced (σ σ' : gmap Z (list byte)) (done todo done' todo' : list tree)
    (used : list Z) : Prop := {
  adv_leaves : leaves_of h done ++ leaves_of h todo `prefix_of` leaves_of h done' ++ leaves_of h todo';
  adv_blocks : blocks_of h done' ++ blocks_of h todo' ≡ₚ (blocks_of h done ++ blocks_of h todo) ++ used;
  adv_frame b : b ∉ indexes_of h done' -> σ' !! b = σ !! b;
  adv_dom b : is_Some (σ !! b) -> is_Some (σ' !! b);
  adv_ok : blocks_ok σ';
  adv_fresh b : b ∈ leaves_of h done' ++ leaves_of h todo' -> b ∈ (leaves_of h done ++ leaves_of h todo) ++ used;
}.

Lemma n1_pos : 0 < n1.
Proof. unfold n1, clamp. pose proof (cap_pos (S h)). lia. Qed.

Lemma n0_le_n1 : 0 <= n0 <= n1.
Proof. unfold n0, n1, clamp. pose proof (cap_pos (S h)). lia. Qed.

Lemma cur_at_lt i : Z.of_nat i * cap h < n1 -> cur_at i = cur + Z.of_nat i * cap h /\ (i < 128)%nat.
Proof.
  clear IH rec Hdepth HL Hsrc Hcur.
  intros Hi. unfold cur_at. split; [lia|].
  assert (n1 <= 128 * cap h) by (unfold n1, clamp; rewrite cap_S; pose proof (cap_pos h); lia).
  pose proof (cap_pos h). nia.
Qed.

Lemma child_shares i : Z.of_nat i * cap h < n1 ->
  clamp (src - cur_at i) 0 (cap h) = share n0 h i /\
  clamp (dst - cur_at i) 0 (cap h) = share n1 h i /\
  cur_at i + share n1 h i = cur_at (S i) /\ 0 < share n1 h i /\ 0 <= cur_at i < dst.
Proof.
  clear IH rec Hdepth HL Hsrc.
  intros Hi. destruct (cur_at_lt i Hi) as [-> Hlt]. unfold n0, n1.
  rewrite <- !clamp_child by done. pose proof (cap_pos h). pose proof (cap_S h).
  rewrite !Z.sub_add_distr. assert (Z.of_nat i * cap h + cap h <= 128 * cap h) by nia.
  unfold cur_at, n1, clamp in *. split_and!; [done|done|nia..].
Qed.

Lemma li_fresh_share σ done todo ents :
  loop_inv σ h n0 n1 done todo ents ->
  (todo = [] <-> share n0 h (length done) = 0).
Proof.
  intros Hinv. pose proof (li_len _ _ _ _ _ _ _ Hinv) as Hlen. unfold zlen in Hlen.
  pose proof (share_pos n0 h (length done) ltac:(pose proof n0_le_n1; lia)) as Hp.
  pose proof (share_range n0 h (length done)).
  split; [intros ->; simpl in *; lia|]. destruct todo; simpl in *; [done|lia].
Qed.

(** The recursive call on a child leaves its siblings alone. *)
Lemma visit_child σ c (others : list tree) i bl :
  Z.of_nat i * cap h < n1 -> blocks_ok σ -> trep σ h (share n0 h i) c ->
  avail σ L (preorder h c ++ bl ++ blocks_of h others) ->
  weight h (share n1 h i) - weight h (share n0 h i) <= zlen bl ->
  exists c' used rest σ', bl = used ++ rest /\
    runs L σ (rec bl (root c) (cur_at i)) (cur_at (S i), rest) σ' /\
    trep σ' h (share n1 h i) c' /\ grown σ σ' h c c' used /\
    (forall x n, x ∈ others -> trep σ h n x -> trep σ' h n x) /\
    zlen used = weight h (share n1 h i) - weight h (share n0 h i).
Proof.
  intros Hi Hok Hc Hav Hbl. destruct (child_shares i Hi) as (E0 & E1 & Ecur & Hpos & Hlt).
  destruct (IH L σ c (cur_at i) src dst bl (d + 1) D) as (c' & used & rest & σ' & -> & Hrun & Hc' & Hg);
    [lia|done|done|done|by rewrite E0| |done|by rewrite E0, E1|].
  { rewrite app_assoc in Hav. by apply avail_app_l in Hav. }
  rewrite E1 in *. rewrite Ecur in Hrun.
  exists c', used, rest, σ'. split_and!; [done..| |].
  - intros x n Hx. apply (trep_other _ _ _ _ _ (indexes h c')); [apply Hg|].
    intros b Hb Hin%indexes_preorder. rewrite (grown_blocks _ _ _ _ _ _ Hg) in Hin.
    rewrite app_assoc in Hav.
    apply (avail_disjoint _ _ _ _ b Hav); [set_solver|].
    apply elem_of_concat_fmap. eauto.
  - pose proof (Permutation_length (grown_blocks _ _ _ _ _ _ Hg)) as Hlen.
    apply preorder_length in Hc, Hc'. rewrite length_app in Hlen. unfold zlen in *. lia.
Qed.

Lemma loop_inv_next σ σ' done todo ents c c' todo' ents' :
  loop_inv σ h n0 n1 done todo ents ->
  Z.of_nat (length done) * cap h < n1 ->
  trep σ' h (share n1 h (length done)) c' ->
  (forall x n, x ∈ done ++ todo' -> trep σ h n x -> trep σ' h n x) ->
  todo = c :: todo' /\ ents' = ents \/ todo = [] /\ todo' = [] /\ ents' = <[length done := root c]> ents ->
  root c' = root c -> entries_ok ents' ->
  loop_inv σ' h n0 n1 (done ++ [c']) todo' ents'.
Proof.
  intros [Hdone Htodo Hlen Hfit Hents] Hi Hc' Hoth Hcase Hroot Hents'.
  destruct (cur_at_lt _ Hi) as [_ H128].
  assert (Hlow : forall j, (j < length done)%nat -> ents' !! j = ents !! j).
  { intros j Hj. destruct Hcase as [[_ ->]|(_ & _ & ->)]; [done|].
    by rewrite list_lookup_insert_ne by lia. }
  split.
  - intros j x Hx. apply lookup_app_Some in Hx as [Hx|[Hge Hx]].
    + destruct (Hdone j x Hx). rewrite Hlow by (by apply lookup_lt_Some in Hx).
      split; [done|]. apply Hoth; [|done]. apply list_elem_of_lookup_2 in Hx. set_solver.
    + apply list_lookup_singleton_Some in Hx as [Hj <-].
      assert (j = length done) as -> by lia. split; [|done]. rewrite Hroot.
      destruct Hcase as [[-> ->]|(_ & _ & ->)].
      * destruct (Htodo 0%nat c) as [He _]; [done|]. by rewrite Nat.add_0_r in He.
      * rewrite list_lookup_insert_eq; [done|]. destruct Hents. lia.
  - intros j x Hx. destruct Hcase as [[-> ->]|(_ & -> & _)]; [|done].
    rewrite length_app. replace (length done + length [c'] + j)%nat with (length done + S j)%nat by (simpl; lia).
    destruct (Htodo (S j) x) as [? Ht]; [done|]. split; [done|]. apply Hoth; [|done].
    apply list_elem_of_lookup_2 in Hx. set_solver.
  - unfold zlen in *. rewrite length_app. simpl.
    destruct Hcase as [[-> _]|(-> & -> & _)]; simpl in *; lia.
  - unfold zlen. rewrite length_app. simpl.
    assert (0 < share n1 h (length done)) as Hs%share_pos by apply (child_shares _ Hi); [lia|].
    pose proof n1_pos. lia.
  - done.
Qed.

Lemma budget_step i : (i < 128)%nat ->
  budget i = child_weight h n1 i - child_weight h n0 i + budget (S i).
Proof.
  clear IH rec Hdepth HL Hsrc Hcur.
  intros Hi. unfold budget. replace (128 - i)%nat with (S (128 - S i)) by lia.
  rewrite !sum_from_S. lia.
Qed.

Lemma budget_nonneg i : 0 <= budget i.
Proof.
  unfold budget. rewrite <- sum_from_sub. apply sum_from_nonneg. intros j _.
  pose proof (child_weight_mono h n0 n1 j (weight_mono h) ltac:(apply n0_le_n1)). lia.
Qed.

(** An entry that exists already. *)
Lemma step_existing σ done c todo' ents bl :
  let i := length done in
  Z.of_nat i * cap h < n1 -> blocks_ok σ ->
  loop_inv σ h n0 n1 done (c :: todo') ents ->
  avail σ L (blocks_of h done ++ blocks_of h (c :: todo') ++ bl) -> budget i <= zlen bl ->
  exists c' used rest σ', bl = used ++ rest /\
    runs L σ (build_step rec src (Z.of_nat i, cur_at i, bl, ents))
      (Z.of_nat (S i), cur_at (S i), rest, ents) σ' /\
    loop_inv σ' h n0 n1 (done ++ [c']) todo' ents /\
    advanced σ σ' done (c :: todo') (done ++ [c']) todo' used /\
    budget (S i) <= zlen rest.
Proof.
  intros i Hi Hok Hinv Hav Hbud. destruct (cur_at_lt i Hi) as [_ Hi128].
  destruct (child_shares i Hi) as (E0 & E1 & Ecur & Hpos & Hlt).
  destruct (li_todo _ _ _ _ _ _ _ Hinv 0%nat c) as [He Hc]; [done|].
  rewrite Nat.add_0_r in He, Hc. fold i in He, Hc.
  assert (Hs0 : 0 < share n0 h i).
  { pose proof (share_range n0 h i). destruct (li_fresh_share _ _ _ _ Hinv) as [_ Hz].
    fold i in Hz. destruct (decide (share n0 h i = 0)) as [Hzero|]; [|lia]. by specialize (Hz Hzero). }
  assert (Hcw : budget i = weight h (share n1 h i) - weight h (share n0 h i) + budget (S i)).
  { rewrite budget_step by done. unfold child_weight.
    destruct (Z.ltb_spec 0 (share n1 h i)), (Z.ltb_spec 0 (share n0 h i)); lia. }
  pose proof (budget_nonneg (S i)).
  destruct (visit_child σ c (done ++ todo') i bl) as (c' & used & rest & σ' & -> & Hrun & Hc' & Hg & Hoth & Hused);
    [done|done|done| |lia|].
  { eapply avail_perm; [|exact Hav]. change (c :: todo') with ([c] ++ todo').
    rewrite !blocks_of_app, blocks_of_one. solve_Permutation. }
  exists c', used, rest, σ'. split_and!; [done| | | |].
  - unfold build_step. destruct (Z.geb_spec (cur_at i) src) as [Hge|_].
    { unfold clamp in E0. pose proof (cap_pos h). lia. }
    apply runs_bind_ret. eapply runs_bind_lift; [by apply index_Ok; [lia|rewrite Nat2Z.id]|].
    eapply runs_bind; [exact Hrun|]. replace (Z.of_nat i + 1) with (Z.of_nat (S i)) by lia. apply runs_ret.
  - eapply loop_inv_next; [done|done|done|done|by left|by apply Hg|apply Hinv].
  - split; try apply Hg.
    + rewrite leaves_of_app, leaves_of_one, <- app_assoc. apply prefix_app_both.
      change (leaves_of h (c :: todo')) with (leaves h c ++ leaves_of h todo').
      eapply grown_leaves_child; [done..|].
      destruct todo' as [|c2 todo']; [by right|left].
      pose proof (li_len _ _ _ _ _ _ _ Hinv) as Hlen. unfold zlen in Hlen. simpl in Hlen.
      assert (0 < share n0 h (S i)) as Hs by (apply share_pos; [apply n0_le_n1|lia]).
      revert Hs. unfold share, clamp. lia.
    + change (c :: todo') with ([c] ++ todo'). rewrite !blocks_of_app, !blocks_of_one.
      rewrite (grown_blocks _ _ _ _ _ _ Hg). solve_Permutation.
    + intros b Hb. apply Hg. rewrite indexes_of_app, indexes_of_one in Hb. set_solver.
    + intros b. pose proof (grown_fresh _ _ _ _ _ _ Hg b) as Hf. change (c :: todo') with ([c] ++ todo').
      rewrite !leaves_of_app, !leaves_of_one. set_solver.
  - unfold zlen in *. rewrite length_app in Hbud. lia.
Qed.

(** An entry whose first leaf is new takes a block. *)
Lemma step_fresh σ done ents bl :
  let i := length done in
  Z.of_nat i * cap h < n1 -> blocks_ok σ ->
  loop_inv σ h n0 n1 done [] ents ->
  avail σ L (blocks_of h done ++ bl) -> budget i <= zlen bl ->
  exists c' used rest ents' σ', bl = used ++ rest /\
    runs L σ (build_step rec src (Z.of_nat i, cur_at i, bl, ents))
      (Z.of_nat (S i), cur_at (S i), rest, ents') σ' /\
    loop_inv σ' h n0 n1 (done ++ [c']) [] ents' /\
    advanced σ σ' done [] (done ++ [c']) [] used /\
    budget (S i) <= zlen rest.
Proof.
  intros i Hi Hok Hinv Hav Hbud. destruct (cur_at_lt i Hi) as [_ Hi128].
  destruct (child_shares i Hi) as (E0 & E1 & Ecur & Hpos & Hlt).
  assert (Hs0 : share n0 h i = 0) by (by apply (li_fresh_share _ _ _ _ Hinv)).
  assert (Hcw : budget i = weight h (share n1 h i) + budget (S i)).
  { rewrite budget_step by done. unfold child_weight. rewrite Hs0.
    destruct (Z.ltb_spec 0 (share n1 h i)); [simpl; lia|lia]. }
  pose proof (budget_nonneg (S i)). pose proof (weight_pos h (share n1 h i)).
  destruct bl as [|r bl]; [unfold zlen in Hbud; simpl in Hbud; lia|].
  assert (Hr : is_Some (σ !! r) /\ 0 <= r < 2 ^ 32) by (split; apply Hav; set_solver).
  assert (Hw0 : weight h 0 = 1).
  { erewrite <- (preorder_length σ h 0 (Node r [])) by (apply fresh_trep, Hr). by rewrite fresh_preorder. }
  destruct (visit_child σ (Node r []) done i bl) as (c' & used & rest & σ' & -> & Hrun & Hc' & Hg & Hoth & Hused);
    [done|done|rewrite Hs0; apply fresh_trep, Hr| | |].
  { eapply avail_perm; [|exact Hav]. rewrite fresh_preorder. solve_Permutation. }
  { rewrite Hs0, Hw0. unfold zlen in *. simpl in Hbud. lia. }
  assert (Hents' : entries_ok (<[i := r]> ents)) by (apply entries_ok_insert; [apply Hinv|apply Hr]).
  exists c', (r :: used), rest, (<[i := r]> ents), σ'. split_and!; [done| | | |].
  - unfold build_step. destruct (Z.geb_spec (cur_at i) src) as [_|Hlt'].
    2: { unfold clamp in E0. pose proof (cap_pos h). lia. }
    destruct (li_ents _ _ _ _ _ _ _ Hinv) as [Hl128 _].
    eapply runs_bind.
    { eapply runs_bind_lift; [done|]. simpl.
      eapply runs_bind_lift; [apply index_set_Ok; unfold zlen; lia|]. apply runs_ret. }
    rewrite Nat2Z.id. simpl. eapply runs_bind_lift.
    { apply index_Ok; [lia|]. rewrite Nat2Z.id. apply list_lookup_insert_eq. lia. }
    eapply runs_bind; [exact Hrun|]. replace (Z.of_nat i + 1) with (Z.of_nat (S i)) by lia. apply runs_ret.
  - eapply (loop_inv_next _ _ _ _ _ (Node r [])); [done|done|done| |by right|by apply Hg|done].
    intros x n. rewrite app_nil_r. apply Hoth.
  - split; try apply Hg.
    + rewrite leaves_of_app, leaves_of_one, <- app_assoc. apply prefix_app_both. apply prefix_nil.
    + rewrite !blocks_of_app, !blocks_of_one, (grown_blocks _ _ _ _ _ _ Hg), fresh_preorder.
      unfold blocks_of. simpl. solve_Permutation.
    + intros b Hb. apply Hg. rewrite indexes_of_app, indexes_of_one in Hb. set_solver.
    + intros b. pose proof (grown_fresh _ _ _ _ _ _ Hg b) as Hf. pose proof (fresh_leaves h r b).
      rewrite leaves_of_app, leaves_of_one, leaves_of_nil. set_solver.
  - rewrite Hs0, Hw0 in Hused. unfold zlen in *. simpl in Hbud. rewrite length_app in Hbud. lia.
Qed.

Lemma advanced_trans σ σ1 σ2 dn td dn1 td1 dn2 td2 used1 used2 :
  advanced σ σ1 dn td dn1 td1 used1 -> advanced σ1 σ2 dn1 td1 dn2 td2 used2 ->
  (exists ts, dn2 = dn1 ++ ts) ->
  advanced σ σ2 dn td dn2 td2 (used1 ++ used2).
Proof.
  intros H1 H2 [ts ->]. split.
  - etrans; [apply H1|apply H2].
  - rewrite (adv_blocks _ _ _ _ _ _ _ H2), (adv_blocks _ _ _ _ _ _ _ H1). by rewrite <- !app_assoc.
  - intros b Hb. rewrite (adv_frame _ _ _ _ _ _ _ H2) by done.
    apply H1. rewrite indexes_of_app in Hb. set_solver.
  - intros b Hb. by apply H2, H1.
  - apply H2.
  - intros b Hb%(adv_fresh _ _ _ _ _ _ _ H2). pose proof (adv_fresh _ _ _ _ _ _ _ H1 b). set_solver.
Qed.

Lemma build_step_ok σ done todo ents bl :
  let i := length done in
  Z.of_nat i * cap h < n1 -> blocks_ok σ ->
  loop_inv σ h n0 n1 done todo ents ->
  avail σ L (blocks_of h done ++ blocks_of h todo ++ bl) -> budget i <= zlen bl ->
  exists c' todo' used rest ents' σ', bl = used ++ rest /\
    runs L σ (build_step rec src (Z.of_nat i, cur_at i, bl, ents))
      (Z.of_nat (S i), cur_at (S i), rest, ents') σ' /\
    loop_inv σ' h n0 n1 (done ++ [c']) todo' ents' /\
    advanced σ σ' done todo (done ++ [c']) todo' used /\
    budget (S i) <= zlen rest.
Proof.
  intros i Hi Hok Hinv Hav Hbud. destruct todo as [|c todo'].
  - destruct (step_fresh σ done ents bl) as (c' & used & rest & ents' & σ' & ?); [done..|].
    by exists c', [], used, rest, ents', σ'.
  - destruct (step_existing σ done c todo' ents bl) as (c' & used & rest & σ' & ?); [done..|].
    by exists c', todo', used, rest, ents, σ'.
Qed.

(** The condition of the loop. *)
Lemma exit_cond i : n1 <= Z.of_nat i * cap h ->
  cur_at i = cur + n1 /\ (Z.of_nat i <? INODE_INDIRECT1_COUNT) && (cur_at i <? dst) = false.
Proof.
  clear IH rec Hdepth HL Hsrc.
  intros Hge. split; [unfold cur_at; lia|]. apply andb_false_iff.
  destruct (Z.ltb_spec (Z.of_nat i) INODE_INDIRECT1_COUNT) as [Hx|]; [|by left].
  right. apply Z.ltb_ge. change INODE_INDIRECT1_COUNT with 128 in Hx.
  pose proof (cap_pos h).
  assert (128 * cap h <= Z.of_nat i * cap h \/ n1 = dst - cur).
  { unfold n1, clamp in *. rewrite cap_S in *. lia. }
  unfold cur_at. nia.
Qed.

Lemma enter_cond i : Z.of_nat i * cap h < n1 ->
  (Z.of_nat i <? INODE_INDIRECT1_COUNT) && (cur_at i <? dst) = true.
Proof.
  clear IH rec Hdepth HL Hsrc.
  intros Hlt. destruct (cur_at_lt i Hlt) as [_ Hi128].
  destruct (child_shares i Hlt) as (_ & _ & _ & _ & ?). apply andb_true_iff.
  split; apply Z.ltb_lt; [change INODE_INDIRECT1_COUNT with 128|]; lia.
Qed.

(** When the loop stops, every leaf has its entry. *)
Lemma loop_exit σ done todo ents :
  let i := length done in
  n1 <= Z.of_nat i * cap h -> loop_inv σ h n0 n1 done todo ents ->
  todo = [] /\ zlen done = ceil_div n1 (cap h).
Proof.
  intros i Hge Hinv. pose proof n1_pos. pose proof n0_le_n1. pose proof (cap_pos h).
  split.
  - apply (li_fresh_share _ _ _ _ Hinv). fold i. unfold share, clamp. lia.
  - pose proof (li_fit _ _ _ _ _ _ _ Hinv) as Hfit. unfold zlen in *. fold i in Hfit |- *.
    pose proof (share_pos n1 h i ltac:(lia)) as Hsh.
    assert (share n1 h i <= 0) by (unfold share, clamp; lia). lia.
Qed.

(** The whole loop, from its [i]-th round. *)
Lemma build_loop_ok k : forall σ done todo ents bl,
  let i := length done in
  (128 - i < k)%nat -> blocks_ok σ -> (i <= 128)%nat ->
  loop_inv σ h n0 n1 done todo ents ->
  avail σ L (blocks_of h done ++ blocks_of h todo ++ bl) -> budget i <= zlen bl ->
  exists ts used rest ents' σ' j, bl = used ++ rest /\
    runs L σ (while k (fun '(i, cur_leaf, _, _) => (i <? INODE_INDIRECT1_COUNT) && (cur_leaf <? dst))
        (build_step rec src) (Z.of_nat i, cur_at i, bl, ents))
      (j, cur + n1, rest, ents') σ' /\
    loop_inv σ' h n0 n1 (done ++ ts) [] ents' /\
    zlen (done ++ ts) = ceil_div n1 (cap h) /\
    advanced σ σ' done todo (done ++ ts) [] used.
Proof.
  induction k as [|k IHk]; intros σ done todo ents bl i Hk Hok Hi Hinv Hav Hbud; [lia|].
  destruct (decide (Z.of_nat i * cap h < n1)) as [Hlt|Hge].
  - destruct (cur_at_lt i Hlt) as [_ Hi128].
    destruct (build_step_ok σ done todo ents bl) as
      (c' & todo' & used & rest & ents' & σ' & -> & Hrun & Hinv' & Hadv & Hbud'); [done..|].
    destruct (IHk σ' (done ++ [c']) todo' ents' rest) as (ts & used2 & rest2 & ents2 & σ2 & j & -> & Hw & Hi2 & Hl2 & Ha2);
      rewrite ?length_app, ?Nat.add_1_r; [simpl; lia|apply Hadv|simpl; lia|done| |done|].
    { eapply avail_dom; [apply Hadv|]. rewrite app_assoc. eapply avail_perm; [|exact Hav].
      rewrite (adv_blocks _ _ _ _ _ _ _ Hadv). by rewrite !app_assoc. }
    rewrite length_app, Nat.add_1_r in Hw.
    exists (c' :: ts), (used ++ used2), rest2, ents2, σ2, j.
    change (c' :: ts) with ([c'] ++ ts). rewrite !(app_assoc done).
    split_and!; [by rewrite app_assoc| |done|done|].
    + eapply runs_while_step; [by apply enter_cond|exact Hrun|exact Hw].
    + eapply advanced_trans; [done|done|]. by exists ts.
  - destruct (loop_exit σ done todo ents ltac:(fold i; lia) Hinv) as (-> & Hc).
    destruct (exit_cond i ltac:(lia)) as [<- Hcond].
    exists [], [], bl, ents, σ, (Z.of_nat i). rewrite app_nil_r.
    split_and!; [done|by apply runs_while_done|done|done|].
    split; [done|by rewrite (app_nil_r (_ ++ _))|done|done|done|]. intros b. by rewrite (app_nil_r (_ ++ _)).
Qed.

End Child.

Lemma loop_inv_start σ h n0 n1 t ents :
  blocks_ok σ -> trep σ (S h) n0 t -> 0 < n1 -> table σ (root t) = Some ents ->
  loop_inv σ h n0 n1 [] (children t) ents.
Proof.
  intros Hok (ents' & He & Hn & Hlen & Hcs) Hn1 Ht. rewrite Ht in He. injection He as <-.
  split; [done|done| | |by eapply table_ok].
  - rewrite Hlen. change (zlen []) with 0. rewrite Z.sub_0_r.
    destruct (ceil_div_spec n0 (cap h) (cap_pos h) ltac:(lia)); lia.
  - change (zlen []) with 0.
    destruct (ceil_div_spec n1 (cap h) (cap_pos h) ltac:(lia)) as [?|[??]]; lia.
Qed.

(** The node written back over its grown children. *)
Lemma trep_node σ' h n0 n1 r ts ents' :
  loop_inv σ' h n0 n1 ts [] ents' -> zlen ts = ceil_div n1 (cap h) ->
  0 <= n1 <= cap (S h) -> r ∉ blocks_of h ts ->
  trep (set_table σ' r ents') (S h) n1 (Node r ts).
Proof.
  intros Hinv Hlen Hn Hr. exists ents'. simpl.
  split_and!; [apply table_set_eq, Hinv|lia|lia|done|].
  intros i c Hi. destruct (li_done _ _ _ _ _ _ _ Hinv i c Hi) as [He Hc]. split; [done|].
  apply (trep_other σ' _ _ _ _ [r]); [intros b Hb; apply set_table_ne; set_solver| |done].
  intros b Hb [->|?%not_elem_of_nil]%elem_of_cons; [|done].
  apply Hr, elem_of_concat_fmap. exists c. split; [by eapply list_elem_of_lookup_2|done].
Qed.

Lemma build_tree_ok h : build_spec h.
Proof.
  induction h as [|h IH]; intros L σ t0 cur src dst bl d D n0 n1 Hd Hcur Hsrc Hok Ht Hav HL Hbl.
  { exists t0, [], bl, σ. assert (n1 = 1) as -> by (unfold n1, clamp; rewrite cap_0; lia).
    split_and!; [done| |split; [lia|apply Ht]|split; try done; by intros; rewrite app_nil_r].
    simpl. destruct (Z.eqb_spec d D); [apply runs_ret|lia]. }
  assert (Hn1 : 0 < n1 <= cap (S h)) by (unfold n1, clamp; pose proof (cap_pos (S h)); lia).
  destruct t0 as [r cs]. simpl in Hav. fold (blocks_of h cs) in Hav. cbn [app] in Hav.
  assert (Hr : is_Some (σ !! r) /\ (r ∉ L) /\ r ∉ blocks_of h cs ++ bl).
  { split_and!; [apply Hav; by left|apply Hav; by left|]. destruct Hav as [Hnd _].
    by apply NoDup_cons in Hnd as [? _]. }
  destruct (table_Some σ r) as [ents Hents]; [apply Hr|].
  pose proof (size_held_union L r ltac:(apply Hr)) as Hsize.
  assert (HL2 : Z.of_nat (base.size ({[r]} ∪ L)) + Z.of_nat h <= BLOCK_CACHE_SIZE). { rewrite Hsize. lia. }
  destruct (build_loop_ok h ({[r]} ∪ L) cur src dst d D IH ltac:(lia) Hcur Hsrc HL2
    (S (Z.to_nat INODE_INDIRECT1_COUNT)) σ [] cs ents bl)
    as (ts & used & rest & ents' & σ' & j & -> & Hrun & Hinv & Hlen & Hadv);
    [by apply Nat.ltb_lt|done|simpl; lia|apply (loop_inv_start σ h n0 n1 (Node r cs)); [done|done|lia|done] | | |].
  { apply avail_lock; [apply Hr|]. by apply (avail_app_r _ _ [r]) in Hav. }
  { rewrite !weight_S in Hbl. unfold budget. simpl length. rewrite Nat.sub_0_r. fold n0 n1. lia. }
  fold n0 n1 in Hrun, Hinv, Hlen. pose proof (adv_blocks _ _ _ _ _ _ _ _ Hadv) as Hperm.
  rewrite blocks_of_nil, app_nil_r in Hperm. simpl in Hperm, Hinv, Hlen.
  assert (Hrts : r ∉ blocks_of h ts) by (rewrite Hperm; set_solver).
  exists (Node r ts), used, rest, (set_table σ' r ents').
  split_and!; [done| |eapply trep_node; [done|done|lia|done]|].
  - simpl. destruct (Z.eqb_spec d D); [lia|].
    eapply runs_modify_table; [done|split; [apply Hr|lia]|done|apply Hinv|].
    replace (cur_at h cur dst (length [])) with cur in Hrun by (unfold cur_at; simpl; lia).
    eapply runs_bind; [exact Hrun|]. apply runs_ret.
  - split; simpl; [done| | | | | |].
    + pose proof (adv_leaves _ _ _ _ _ _ _ _ Hadv) as Hp.
      by rewrite leaves_of_nil, app_nil_r in Hp.
    + constructor. exact Hperm.
    + intros b Hb. rewrite set_table_ne by set_solver. apply Hadv. set_solver.
    + intros b Hb. apply set_table_is_Some. by apply Hadv.
    + apply blocks_ok_set; [apply Hinv|apply Hadv].
    + intros b Hb. pose proof (adv_fresh _ _ _ _ _ _ _ _ Hadv b) as Hf.
      rewrite !leaves_of_nil, app_nil_r in Hf. by apply Hf.
Qed.

End Build.
