(* ===== verification/TreeOps.v ===== *)
(** * The indirect blocks of an inode (the stretches of [increase_size] and
    [clear_size] of layout.rs that work on indirect1, indirect2 and indirect3)

    Each stretch that fills grows a tree in the sense of [grown]; each one that
    clears collects the blocks of a tree in preorder. *)

From S2P Require Import Prelude BlockDev BlockStore Layout Tree BuildTree.

(** The children [cs] of a node with [n] leaves and entries [ents]. *)
Definition nrep (σ : gmap Z (list byte)) (h : nat) (n : Z) (cs : list tree) (ents : list Z) : Prop :=
  zlen cs = ceil_div n (cap h) /\
  forall i c, cs !! i = Some c -> ents !! i = Some (root c) /\ trep σ h (share n h i) c.

Lemma trep_nrep σ h n t :
  trep σ (S h) n t <->
  exists ents, table σ (root t) = Some ents /\ 0 <= n <= cap (S h) /\ nrep σ h n (children t) ents.
Proof. simpl. unfold nrep. naive_solver. Qed.

Section Fill1.
Context {St : Type} `{BlockStoreSpec St}.

(** Appending leaves to a node over data blocks. *)
Definition add_leaves (t : tree) (bs : list Z) : tree :=
  Node (root t) (children t ++ ((fun b => Node b []) <$> bs)).

Lemma add_leaves_leaves t bs : leaves 1 (add_leaves t bs) = leaves 1 t ++ bs.
Proof.
  unfold add_leaves. simpl. rewrite fmap_app, concat_app. f_equal.
  induction bs as [|b bs IH]; [done|]. csimpl. by rewrite IH.
Qed.

Lemma add_leaves_preorder t bs : preorder 1 (add_leaves t bs) = preorder 1 t ++ bs.
Proof.
  unfold add_leaves. simpl. rewrite fmap_app, concat_app. do 2 f_equal.
  induction bs as [|b bs IH]; [done|]. csimpl. by rewrite IH.
Qed.

Lemma indexes_0_concat cs : concat (indexes 0 <$> cs) = [].
Proof. by induction cs. Qed.

Lemma indexes_1 t : indexes 1 t = [root t].
Proof. simpl. by rewrite indexes_0_concat. Qed.

Lemma ceil_div_cap0 n : ceil_div n (cap 0) = n.
Proof. rewrite cap_0. apply ceil_div_1. Qed.

Lemma trep_add_leaves σ n t ents bs :
  trep σ 1 n t -> table σ (root t) = Some ents -> entries_ok ents ->
  Forall (fun z => 0 <= z < 2 ^ 32) bs -> n + zlen bs <= 128 ->
  let ents' := splice ents (Z.to_nat n) bs in
  entries_ok ents' /\
  trep (set_table σ (root t) ents') 1 (n + zlen bs) (add_leaves t bs).
Proof.
  intros (ents0 & He & Hn & Hlen & Hcs) Hents [H128 Hf] Hbs Hfit ents'.
  rewrite Hents in He. injection He as <-. rewrite ceil_div_cap0 in Hlen.
  assert (Hok : entries_ok ents').
  { split; [unfold ents'; rewrite splice_length; unfold zlen in *; lia|].
    unfold ents', splice. repeat apply Forall_app_2; [by apply Forall_take|done|by apply Forall_drop]. }
  split; [done|]. exists ents'. simpl.
  split_and!; [by apply table_set_eq|unfold zlen in *; lia|rewrite cap_S, cap_0; lia| |].
  - rewrite ceil_div_cap0. unfold zlen in *. rewrite length_app, length_fmap. lia.
  - assert (Hsh : forall i, Z.of_nat i < n + zlen bs -> share (n + zlen bs) 0 i = 1)
      by (intros; unfold share, clamp; rewrite cap_0; lia).
    intros i c Hi. apply lookup_app_Some in Hi as [Hi|[Hge Hi]].
    + pose proof (lookup_lt_Some _ _ _ Hi). destruct (Hcs i c Hi) as [He [_ Hc]].
      unfold zlen in *. rewrite Hsh by lia.
      unfold ents'. rewrite lookup_splice_out by lia. split; [done|]. split; [lia|done].
    + apply list_lookup_fmap_Some in Hi as (b & -> & Hb). pose proof (lookup_lt_Some _ _ _ Hb).
      unfold zlen in *. rewrite Hsh by lia. split; [|split; [lia|done]].
      unfold ents'. rewrite lookup_splice_in by lia. simpl.
      rewrite <- Hb. f_equal. lia.
Qed.

(** Writing one more entry past those written. *)
Lemma splice_snoc {A} (l : list A) k (xs : list A) x :
  (k + S (length xs) <= length l)%nat ->
  splice (<[k := x]> l) (S k) xs = splice l k (x :: xs).
Proof.
  intros Hk. apply list_eq. intros i. destruct (decide (k <= i < k + S (length xs))%nat) as [Hin|Hout].
  - rewrite (lookup_splice_in _ k) by (simpl; lia || done). destruct (decide (i = k)) as [->|].
    + rewrite lookup_splice_out, list_lookup_insert_eq by (rewrite ?length_insert; lia).
      by rewrite Nat.sub_diag.
    + rewrite lookup_splice_in by (rewrite ?length_insert; lia).
      replace (i - k)%nat with (S (i - S k)) by lia. done.
  - rewrite (lookup_splice_out _ k) by (simpl; lia).
    rewrite lookup_splice_out by (rewrite ?length_insert; lia).
    by rewrite list_lookup_insert_ne by lia.
Qed.

(** The loop of "fill indirect1" takes one block per entry. *)
Lemma fill1_loop_ok L σ m total : forall fuel (ents : list Z) k (bl : list Z),
  0 <= k <= m -> m = Z.min total 128 -> m - k <= zlen bl -> length ents = 128%nat ->
  (Z.to_nat (m - k) < fuel)%nat ->
  exists used rest, bl = used ++ rest /\ zlen used = m - k /\
    runs (St := St) L σ (while fuel
        (fun '(_, current_blocks, _) => current_blocks <? Z.min total INODE_INDIRECT1_COUNT)
        (fun '(indirect1, current_blocks, new_blocks) =>
           let* (b, new_blocks) := lift (next_unwrap new_blocks) in
           let* indirect1 := lift (index_set indirect1 current_blocks b) in
           ret (indirect1, w32 (current_blocks + 1), new_blocks))
        (ents, k, bl))
      (splice ents (Z.to_nat k) used, m, rest) σ.
Proof.
  intros fuel. induction fuel as [|fuel IH]; intros ents k bl Hk Hm Hbl Hlen Hf; [lia|].
  destruct (decide (k = m)) as [->|].
  { exists [], bl. split_and!; [done|unfold zlen; simpl; lia|]. rewrite splice_nil.
    apply runs_while_done. apply Z.ltb_ge. change INODE_INDIRECT1_COUNT with 128. lia. }
  destruct bl as [|b bl]; [unfold zlen in Hbl; simpl in Hbl; lia|].
  destruct (IH (<[Z.to_nat k := b]> ents) (k + 1) bl) as (used & rest & -> & Hu & Hrun);
    [lia|done|unfold zlen in *; simpl in Hbl; lia|by rewrite length_insert|lia|].
  exists (b :: used), rest. split_and!; [done|unfold zlen in *; simpl; lia|].
  eapply runs_while_step; [apply Z.ltb_lt; change INODE_INDIRECT1_COUNT with 128; lia| |].
  - eapply runs_bind_lift; [done|]. simpl.
    eapply runs_bind_lift; [apply index_set_Ok; unfold zlen; lia|]. apply runs_ret.
  - rewrite w32_small by lia. rewrite Z2Nat.inj_add, Nat.add_1_r in Hrun by lia.
    rewrite splice_snoc in Hrun; [done|]. unfold zlen in Hu. lia.
Qed.

(** What a stretch that fills a tree of height [h] does. *)
Definition fills (h : nat) (L : gset Z) (σ : gmap Z (list byte)) (t0 : tree) (cur total : Z)
    (bl : list Z) (m : cmd St (Z * list Z)) : Prop :=
  exists t1 used rest σ', bl = used ++ rest /\
    runs L σ m (Z.max cur (Z.min total (cap h)), rest) σ' /\
    trep σ' h (Z.min total (cap h)) t1 /\ grown σ σ' h t0 t1 used.

Lemma avail_words σ L bs : avail σ L bs -> Forall (fun z => 0 <= z < 2 ^ 32) bs.
Proof. intros [_ Hb]. apply Forall_forall. intros b Hin. by apply Hb. Qed.

Lemma fill_indirect1_ok L σ t0 cur total bl :
  0 <= cur <= total -> blocks_ok σ -> trep σ 1 (Z.min cur 128) t0 ->
  avail σ L (preorder 1 t0 ++ bl) -> Z.of_nat (base.size L) < BLOCK_CACHE_SIZE ->
  Z.min total 128 - Z.min cur 128 <= zlen bl ->
  fills 1 L σ t0 cur total bl (fill_indirect1 (root t0) cur total bl).
Proof.
  intros Hcur Hok Ht Hav HL Hbl. pose proof Ht as (ents & Hents & _).
  pose proof (table_ok _ _ _ Hok Hents) as Heok.
  assert (Hlk : lockable L (root t0)).
  { split; [|done]. apply Hav. pose proof (root_preorder 1 t0). set_solver. }
  set (m := Z.min total 128). set (k := Z.min cur 128).
  destruct (fill1_loop_ok ({[root t0]} ∪ L) σ m total (S (Z.to_nat INODE_INDIRECT1_COUNT)) ents k bl)
    as (used & rest & -> & Hu & Hrun); [lia|done|done|apply Heok| |].
  { change INODE_INDIRECT1_COUNT with 128. lia. }
  assert (Hus : Forall (fun z => 0 <= z < 2 ^ 32) used).
  { apply avail_words in Hav. rewrite !Forall_app in Hav. apply Hav. }
  destruct (trep_add_leaves σ k t0 ents used) as [Heok' Ht']; [done..|lia|].
  replace (k + zlen used) with m in Ht' by lia.
  exists (add_leaves t0 used), used, rest, (set_table σ (root t0) (splice ents (Z.to_nat k) used)).
  change (cap 1) with 128. split_and!; [done| |done|split].
  - eapply runs_modify_table; [done|done|done|done|].
    destruct (decide (cur <= 128)) as [Hle|Hgt].
    + replace k with cur in Hrun by lia. eapply runs_bind; [exact Hrun|]. simpl.
      replace (Z.max cur (Z.min total 128)) with m by lia.
      replace cur with k by lia. apply runs_ret.
    + assert (used = []) as -> by (apply length_zero_iff_nil; unfold zlen in Hu; lia).
      eapply runs_bind; [apply runs_while_done, Z.ltb_ge; change INODE_INDIRECT1_COUNT with 128; lia|].
      simpl. rewrite splice_nil. replace (Z.max cur (Z.min total 128)) with cur by lia. apply runs_ret.
  - done.
  - rewrite add_leaves_leaves. by eexists.
  - by rewrite add_leaves_preorder.
  - intros b Hb. rewrite indexes_1 in Hb. apply set_table_ne. set_solver.
  - intros b. apply set_table_is_Some.
  - by apply blocks_ok_set.
  - intros b. by rewrite add_leaves_leaves.
Qed.

End Fill1.

(** ** indirect2 *)
Section Fill2.
Context {St : Type} `{BlockStoreSpec St}.

(** What rounds of "alloc low-level indirect1" do to the indirect1 blocks. *)
Record grown2 (σ σ' : gmap Z (list byte)) (cs cs' : list tree) (used : list Z) : Prop := {
  g2_leaves : leaves_of 1 cs `prefix_of` leaves_of 1 cs';
  g2_blocks : blocks_of 1 cs' ≡ₚ blocks_of 1 cs ++ used;
  g2_frame b : b ∉ indexes_of 1 cs' -> σ' !! b = σ !! b;
  g2_indexes b : b ∈ indexes_of 1 cs -> b ∈ indexes_of 1 cs';
  g2_dom b : is_Some (σ !! b) -> is_Some (σ' !! b);
  g2_ok : blocks_ok σ';
  g2_fresh b : b ∈ leaves_of 1 cs' -> b ∈ leaves_of 1 cs ++ used;
}.

Lemma grown2_trans σ σ1 σ2 cs cs1 cs2 used1 used2 :
  grown2 σ σ1 cs cs1 used1 -> grown2 σ1 σ2 cs1 cs2 used2 -> grown2 σ σ2 cs cs2 (used1 ++ used2).
Proof.
  intros G1 G2. split.
  - etrans; [apply G1|apply G2].
  - rewrite (g2_blocks _ _ _ _ _ G2), (g2_blocks _ _ _ _ _ G1). by rewrite app_assoc.
  - intros b Hb. rewrite (g2_frame _ _ _ _ _ G2) by done. apply G1.
    contradict Hb. by apply G2.
  - intros b Hb. by apply G2, G1.
  - intros b Hb. by apply G2, G1.
  - apply G2.
  - intros b Hb%(g2_fresh _ _ _ _ _ G2). pose proof (g2_fresh _ _ _ _ _ G1 b). set_solver.
Qed.

Lemma share_before k i : Z.of_nat i < k / 128 -> share k 1 i = 128 /\ share (k + 1) 1 i = 128.
Proof. intros. change (share k 1 i) with (clamp (k - Z.of_nat i * 128) 0 128).
  change (share (k + 1) 1 i) with (clamp (k + 1 - Z.of_nat i * 128) 0 128).
  unfold clamp. dlia.
Qed.

Lemma share_at k : 0 <= k ->
  share k 1 (Z.to_nat (k / 128)) = k mod 128 /\ share (k + 1) 1 (Z.to_nat (k / 128)) = k mod 128 + 1.
Proof.
  intros Hk. unfold share, clamp. change (cap 1) with 128.
  rewrite Z2Nat.id by (apply Z.div_pos; lia). dlia.
Qed.

(** The children after the leaf [b] was added below the node [c] at [k / 128]. *)
Lemma nrep_add_leaf σ k cs c ents b tbl :
  0 <= k -> (k / 128 < zlen ents) -> 
  (forall i x, cs !! i = Some x -> ents !! i = Some (root x) /\ trep σ 1 (share k 1 i) x) ->
  zlen cs = k / 128 -> ents !! Z.to_nat (k / 128) = Some (root c) ->
  trep σ 1 (k mod 128) c -> table σ (root c) = Some tbl -> entries_ok tbl -> 0 <= b < 2 ^ 32 ->
  (forall x, x ∈ cs -> root c ∉ preorder 1 x) ->
  let σ' := set_table σ (root c) (<[Z.to_nat (k mod 128) := b]> tbl) in
  nrep σ' 1 (k + 1) (cs ++ [add_leaves c [b]]) ents.
Proof.
  intros Hk Hke Hcs Hlen Hec Hc Htbl Htok Hb Hdis σ'.
  pose proof (Z.mod_pos_bound k 128 ltac:(lia)).
  destruct (trep_add_leaves σ (k mod 128) c tbl [b]) as [_ Hc'];
    [done|done|done|by constructor|unfold zlen; simpl; lia|].
  split.
  - unfold zlen in *. rewrite length_app. simpl. unfold ceil_div. change (cap 1) with 128. dlia.
  - intros i x Hi. apply lookup_app_Some in Hi as [Hi|[Hge Hi]].
    + destruct (Hcs i x Hi) as [He Hx]. split; [done|].
      pose proof (lookup_lt_Some _ _ _ Hi).
      destruct (share_before k i) as [E1 E2]; [unfold zlen in *; lia|]. rewrite E1 in Hx. rewrite E2.
      apply (trep_other σ _ _ _ _ [root c]); [intros; apply set_table_ne; set_solver| |done].
      intros y Hy [->|?%not_elem_of_nil]%elem_of_cons; [|done].
      apply (Hdis x); [by eapply list_elem_of_lookup_2|done].
    + apply list_lookup_singleton_Some in Hi as [Hi <-].
      assert (i = Z.to_nat (k / 128)) as -> by (unfold zlen in *; lia).
      split; [done|]. destruct (share_at k Hk) as [_ ->].
      change (zlen [b]) with 1 in Hc'. 
      replace (splice tbl (Z.to_nat (k mod 128)) [b]) with (<[Z.to_nat (k mod 128) := b]> tbl) in Hc'; [done|].
      destruct Htok. rewrite <- (splice_nil (<[_ := b]> tbl) (S (Z.to_nat (k mod 128)))).
      apply splice_snoc. simpl. lia.
Qed.

(** A round, once the child [c] the leaf goes to is known. *)
Lemma fill2_leaf_ok L σ k cs c ents b rest cur :
  0 <= k < 16384 -> 0 <= cur < 2 ^ 32 - 1 -> blocks_ok σ -> entries_ok ents ->
  (forall i x, cs !! i = Some x -> ents !! i = Some (root x) /\ trep σ 1 (share k 1 i) x) ->
  zlen cs = k / 128 -> ents !! Z.to_nat (k / 128) = Some (root c) -> trep σ 1 (k mod 128) c ->
  avail σ L (blocks_of 1 cs ++ preorder 1 c ++ [b]) -> Z.of_nat (base.size L) < BLOCK_CACHE_SIZE ->
  exists σ', let cs' := cs ++ [add_leaves c [b]] in
    runs L σ (let* child := lift (index ents (k / 128)) in
              let* new_blocks := modify indirect_view child 0 (fun indirect1 =>
                let* (b, new_blocks) := lift (next_unwrap (b :: rest)) in
                let* indirect1 := lift (index_set indirect1 (k mod 128) b) in
                ret (new_blocks, indirect1)) in
              if k mod 128 + 1 =? INODE_INDIRECT1_COUNT
              then ret (ents, k / 128 + 1, 0, w32 (cur + 1), new_blocks)
              else ret (ents, k / 128, k mod 128 + 1, w32 (cur + 1), new_blocks))
      (ents, (k + 1) / 128, (k + 1) mod 128, cur + 1, rest) σ' /\
    nrep σ' 1 (k + 1) cs' ents /\ grown2 σ σ' (cs ++ [c]) cs' [b].
Proof.
  intros Hk Hcur Hok [Hel Hef] Hcs Hlen He Hc Hav HL.
  pose proof Hc as (tbl & Htbl & _). pose proof (table_ok _ _ _ Hok Htbl) as Htok.
  pose proof (Z.mod_pos_bound k 128 ltac:(lia)) as Hmod.
  pose proof (Z.div_pos k 128 ltac:(lia) ltac:(lia)).
  pose proof (Z.div_lt_upper_bound k 128 128 ltac:(lia) ltac:(lia)).
  assert (Hb : 0 <= b < 2 ^ 32) by (apply Hav; set_solver).
  assert (Hrc : root c ∉ L) by (apply Hav; pose proof (root_preorder 1 c); set_solver).
  exists (set_table σ (root c) (<[Z.to_nat (k mod 128) := b]> tbl)). split_and!.
  - eapply runs_bind_lift; [by apply index_Ok|]. eapply runs_bind.
    { eapply runs_modify_table; [done|by split|done|by apply entries_ok_insert|].
      simpl. eapply runs_bind_lift; [apply index_set_Ok|apply runs_ret].
      destruct Htok. unfold zlen. lia. }
    rewrite w32_small by lia. change INODE_INDIRECT1_COUNT with 128.
    destruct (Z.eqb_spec (k mod 128 + 1) 128).
    + replace ((k + 1) / 128) with (k / 128 + 1) by dlia.
      replace ((k + 1) mod 128) with 0 by dlia. apply runs_ret.
    + replace ((k + 1) / 128) with (k / 128) by dlia.
      replace ((k + 1) mod 128) with (k mod 128 + 1) by dlia. apply runs_ret.
  - apply nrep_add_leaf; [lia|unfold zlen; lia|done..|].
    intros x Hx Hin. rewrite app_assoc in Hav. apply avail_app_l in Hav.
    eapply (avail_disjoint _ _ _ _ (root c) Hav); [|apply root_preorder].
    apply elem_of_concat_fmap. eauto.
  - split.
    + rewrite !leaves_of_app, !leaves_of_one, add_leaves_leaves, app_assoc. by eexists.
    + rewrite !blocks_of_app, !blocks_of_one, add_leaves_preorder. by rewrite app_assoc.
    + intros x Hx. rewrite indexes_of_app, indexes_of_one, indexes_1 in Hx. apply set_table_ne. set_solver.
    + intros x. rewrite !indexes_of_app, !indexes_of_one, !indexes_1. done.
    + intros x. apply set_table_is_Some.
    + apply blocks_ok_set; [by apply entries_ok_insert|done].
    + intros x. rewrite !leaves_of_app, !leaves_of_one, add_leaves_leaves. by rewrite app_assoc.
Qed.

Lemma fill2_step_ok L σ k cs ents bl cur :
  0 <= k < 16384 -> 0 <= cur < 2 ^ 32 - 1 -> blocks_ok σ -> entries_ok ents ->
  nrep σ 1 k cs ents -> avail σ L (blocks_of 1 cs ++ bl) ->
  Z.of_nat (base.size L) < BLOCK_CACHE_SIZE -> 
  (1 + if k mod 128 =? 0 then 1 else 0) <= zlen bl ->
  exists cs' ents' used rest σ', bl = used ++ rest /\ entries_ok ents' /\
    runs L σ (fill2_step (ents, k / 128, k mod 128, cur, bl))
      (ents', (k + 1) / 128, (k + 1) mod 128, cur + 1, rest) σ' /\
    nrep σ' 1 (k + 1) cs' ents' /\ grown2 σ σ' cs cs' used /\
    zlen used = (1 + if k mod 128 =? 0 then 1 else 0).
Proof.
  intros Hk Hcur Hok Heok [Hlen Hcs] Hav HL Hbl. unfold fill2_step.
  unfold ceil_div in Hlen. change (cap 1) with 128 in Hlen.
  destruct (Z.eqb_spec (k mod 128) 0) as [Hz|Hnz].
  - destruct bl as [|r [|b rest]]; [unfold zlen in Hbl; simpl in Hbl; lia..|].
    assert (Hr : is_Some (σ !! r) /\ 0 <= r < 2 ^ 32) by (split; apply Hav; set_solver).
    assert (Hdiv : 0 <= k / 128 < 128) by dlia. pose proof Heok as [Hel Hef].
    destruct Hr as [Hr1 Hr2].
    destruct (fill2_leaf_ok L σ k cs (Node r []) (<[Z.to_nat (k / 128) := r]> ents) b rest cur)
      as (σ' & Hrun & Hnrep & Hg); [done|done|done|by apply entries_ok_insert|..].
    { intros i x Hi. destruct (Hcs i x Hi). split; [|done].
      apply lookup_lt_Some in Hi. rewrite list_lookup_insert_ne; [done|]. unfold zlen in Hlen. dlia. }
    { dlia. }
    { rewrite list_lookup_insert_eq; [done|]. lia. }
    { rewrite Hz. by apply fresh_trep. }
    { simpl. eapply (avail_app_l _ _ _ rest), avail_perm; [|exact Hav]. solve_Permutation. }
    { done. }
    exists (cs ++ [add_leaves (Node r []) [b]]), (<[Z.to_nat (k / 128) := r]> ents), [r; b], rest, σ'.
    split_and!; [done|by apply entries_ok_insert| |done| |done].
    + eapply runs_bind; [|].
      { eapply runs_bind_lift; [done|]. simpl.
        eapply runs_bind_lift; [apply index_set_Ok; unfold zlen; lia|]. apply runs_ret. }
      exact Hrun.
    + destruct Hg as [G1 G2 G3 G4 G5 G6 G7]. split; [| |done| |done|done|].
      * etrans; [|exact G1]. rewrite leaves_of_app. by eexists.
      * rewrite G2, blocks_of_app, blocks_of_one. simpl. by rewrite <- app_assoc.
      * intros x Hx. apply G4. rewrite indexes_of_app. set_solver.
      * intros x Hx%G7. rewrite leaves_of_app, leaves_of_one in Hx. simpl in Hx. set_solver.
  - destruct bl as [|b rest]; [unfold zlen in Hbl; simpl in Hbl; lia|].
    destruct (exists_last (l := cs)) as (cs0 & c & ->); [intros ->; unfold zlen in Hlen; simpl in Hlen; dlia|].
    assert (Hl0 : zlen cs0 = k / 128) by (unfold zlen in *; rewrite length_app in Hlen; simpl in Hlen; dlia).
    destruct (Hcs (length cs0) c) as [He Hc]; [by apply list_lookup_middle|].
    replace (length cs0) with (Z.to_nat (k / 128)) in He, Hc by (unfold zlen in Hl0; lia).
    rewrite (proj1 (share_at k ltac:(lia))) in Hc.
    destruct (fill2_leaf_ok L σ k cs0 c ents b rest cur) as (σ' & Hrun & Hnrep & Hg);
      [done|done|done|done| |done|done|done| |done|].
    { intros i x Hi. apply Hcs. by apply lookup_app_l_Some. }
    { rewrite blocks_of_app, blocks_of_one in Hav. eapply (avail_app_l _ _ _ rest), avail_perm; [|exact Hav].
      solve_Permutation. }
    exists (cs0 ++ [add_leaves c [b]]), ents, [b], rest, σ'.
    split_and!; [done|done| |done|done|done].
    apply runs_bind_ret. exact Hrun.
Qed.

Lemma weight2_step k : 0 <= k < 16384 ->
  weight 2 (k + 1) = weight 2 k + (1 + if k mod 128 =? 0 then 1 else 0).
Proof.
  intros Hk. rewrite !weight_closed by (change (cap 2) with 16384; lia).
  simpl level_sum. change (cap 1) with 128. unfold ceil_div.
  destruct (Z.eqb_spec (k mod 128) 0); dlia.
Qed.

Lemma position_lt k m :
  (k / 128 <? m / 128) || ((k / 128 =? m / 128) && (k mod 128 <? m mod 128)) = (k <? m).
Proof.
  destruct (Z.ltb_spec k m), (Z.ltb_spec (k / 128) (m / 128)), (Z.eqb_spec (k / 128) (m / 128)),
    (Z.ltb_spec (k mod 128) (m mod 128)); simpl; dlia.
Qed.

Lemma fill2_loop_ok L m : 0 <= m <= 16384 -> Z.of_nat (base.size L) < BLOCK_CACHE_SIZE ->
  forall fuel σ cs ents k bl,
  0 <= k <= m -> (Z.to_nat (m - k) < fuel)%nat -> blocks_ok σ -> entries_ok ents ->
  nrep σ 1 k cs ents -> avail σ L (blocks_of 1 cs ++ bl) -> weight 2 m - weight 2 k <= zlen bl ->
  exists cs' ents' used rest σ', bl = used ++ rest /\ entries_ok ents' /\
    runs (St := St) L σ (while fuel
        (fun '(_, a0, b0, _, _) => (a0 <? m / 128) || ((a0 =? m / 128) && (b0 <? m mod 128)))
        fill2_step (ents, k / 128, k mod 128, k, bl))
      (ents', m / 128, m mod 128, m, rest) σ' /\
    nrep σ' 1 m cs' ents' /\ grown2 σ σ' cs cs' used.
Proof.
  intros Hm HL. induction fuel as [|fuel IH]; intros σ cs ents k bl Hk Hf Hok Heok Hn Hav Hbl; [lia|].
  destruct (decide (k = m)) as [->|Hne].
  { exists cs, ents, [], bl, σ. split_and!; [done|done| |done|].
    - apply runs_while_done. rewrite position_lt. apply Z.ltb_irrefl.
    - split; try done; by intros; rewrite app_nil_r. }
  pose proof (weight2_step k ltac:(lia)) as Hw. pose proof (weight_mono 2 (k + 1) m ltac:(lia)).
  destruct (fill2_step_ok L σ k cs ents bl k) as
    (cs1 & ents1 & used1 & rest1 & σ1 & -> & Heok1 & Hrun1 & Hn1 & Hg1 & Hu1); [lia|lia|done..|lia|].
  destruct (IH σ1 cs1 ents1 (k + 1) rest1) as
    (cs2 & ents2 & used2 & rest2 & σ2 & -> & Heok2 & Hrun2 & Hn2 & Hg2);
    [lia|lia|apply Hg1|done|done| | |].
  { eapply avail_dom; [apply Hg1|]. eapply avail_perm; [|exact Hav].
    rewrite (g2_blocks _ _ _ _ _ Hg1). by rewrite app_assoc. }
  { unfold zlen in *. rewrite length_app in Hbl. lia. }
  exists cs2, ents2, (used1 ++ used2), rest2, σ2. split_and!; [by rewrite app_assoc|done| |done|].
  - eapply runs_while_step; [|exact Hrun1|exact Hrun2]. rewrite position_lt. apply Z.ltb_lt. lia.
  - by eapply grown2_trans.
Qed.

Lemma cap_2 : cap 2 = 16384.
Proof. done. Qed.

Lemma trep_write_back σ σ' h n r cs ents :
  entries_ok ents -> 0 <= n <= cap (S h) -> nrep σ' h n cs ents -> r ∉ blocks_of h cs ->
  σ = set_table σ' r ents -> trep σ (S h) n (Node r cs).
Proof.
  intros Heok Hn [Hlen Hcs] Hr ->. apply trep_nrep. exists ents.
  split_and!; [by apply table_set_eq|lia|lia|]. split; [done|].
  intros i c Hi. destruct (Hcs i c Hi) as [He Hc]. split; [done|].
  apply (trep_other σ' _ _ _ _ [r]); [intros; apply set_table_ne; set_solver| |done].
  intros y Hy [->|?%not_elem_of_nil]%elem_of_cons; [|done].
  apply Hr, elem_of_concat_fmap. exists c. split; [by eapply list_elem_of_lookup_2|done].
Qed.

(** The tree is full already. *)
Lemma fill_indirect2_skip L σ t0 cur total bl :
  16384 < cur <= total -> blocks_ok σ -> trep σ 2 16384 t0 -> lockable L (root t0) ->
  fills 2 L σ t0 cur total bl (fill_indirect2 (root t0) cur total bl).
Proof.
  intros Hcur Hok Ht HL. pose proof Ht as (ents & Hents & _).
  exists t0, [], bl, σ. rewrite cap_2.
  split_and!; [done| |by rewrite Z.min_r by lia|split; try done; by intros; rewrite app_nil_r].
  unfold fill_indirect2, decompose2. rewrite <- (set_table_id σ (root t0) ents) at 2 by done.
  eapply runs_modify_table; [done|done|done|by eapply table_ok|].
  eapply runs_bind.
  { apply runs_while_done. change INODE_INDIRECT1_COUNT with 128. rewrite position_lt.
    apply Z.ltb_ge. change INODE_INDIRECT2_COUNT with 16384. lia. }
  simpl. replace (Z.max cur (Z.min total 16384)) with cur by lia. apply runs_ret.
Qed.

Lemma fill_indirect2_ok L σ t0 cur total bl :
  0 <= cur <= total -> blocks_ok σ -> trep σ 2 (Z.min cur 16384) t0 ->
  avail σ L (preorder 2 t0 ++ bl) -> Z.of_nat (base.size L) + 1 < BLOCK_CACHE_SIZE ->
  weight 2 (Z.min total 16384) - weight 2 (Z.min cur 16384) <= zlen bl ->
  fills 2 L σ t0 cur total bl (fill_indirect2 (root t0) cur total bl).
Proof.
  intros Hcur Hok Ht Hav HL Hbl. destruct (decide (cur <= 16384)) as [Hle|].
  2: { rewrite Z.min_r in Ht by lia. apply fill_indirect2_skip; [lia|done|done|]. split; [|lia].
       apply Hav. pose proof (root_preorder 2 t0). set_solver. }
  rewrite (Z.min_l cur) in Ht, Hbl by lia. destruct t0 as [r cs]. simpl in Hav.
  apply trep_nrep in Ht as (ents & Hents & Hrange & Hn). simpl in Hents, Hn.
  pose proof (table_ok _ _ _ Hok Hents) as Heok. cbn [root].
  assert (Hr : (r ∉ L) /\ r ∉ blocks_of 1 cs ++ bl).
  { split; [apply Hav; by left|]. destruct Hav as [Hnd _]. by apply NoDup_cons in Hnd as [? _]. }
  assert (Hav' : avail σ ({[r]} ∪ L) (blocks_of 1 cs ++ bl)).
  { apply avail_lock; [apply Hr|]. by apply (avail_app_r _ _ [r]) in Hav. }
  set (m := Z.min total 16384) in *.
  assert (exists fuel, fuel = S (Z.to_nat INODE_INDIRECT2_COUNT) /\ (Z.to_nat (m - cur) < fuel)%nat)
    as (fuel & Hfuel & Hlt) by (eexists; split; [done|]; change INODE_INDIRECT2_COUNT with 16384; lia).
  destruct (fill2_loop_ok ({[r]} ∪ L) m ltac:(lia) ltac:(rewrite size_held_union by apply Hr; lia)
    fuel σ cs ents cur bl)
    as (cs' & ents' & used & rest & σ' & -> & Heok' & Hrun & Hn' & Hg); [lia|done..|].
  assert (Hperm := g2_blocks _ _ _ _ _ Hg).
  assert (Hrcs' : r ∉ blocks_of 1 cs') by (rewrite Hperm; clear Hfuel; set_solver).
  exists (Node r cs'), used, rest, (set_table σ' r ents'). rewrite cap_2. fold m.
  split_and!; [done| |by eapply trep_write_back; [|rewrite cap_2; lia|..]|].
  - unfold fill_indirect2, decompose2. rewrite <- Hfuel. change INODE_INDIRECT1_COUNT with 128.
    change (Z.min total INODE_INDIRECT2_COUNT) with m.
    eapply runs_modify_table; [done|split; [apply Hr|lia]|done|done|].
    eapply runs_bind; [exact Hrun|]. cbv beta iota.
    replace (Z.max cur m) with m by lia. apply runs_ret.
  - clear Hfuel. split; [done|apply Hg| | | | |exact (g2_fresh _ _ _ _ _ Hg)].
    + simpl. constructor. exact Hperm.
    + intros b Hb. simpl in Hb. rewrite set_table_ne by set_solver. apply Hg. set_solver.
    + intros b Hb. apply set_table_is_Some. by apply Hg.
    + apply blocks_ok_set; [done|apply Hg].
Qed.

End Fill2.
