(* ===== verification/ClearTree.v ===== *)
(** * Collecting the blocks of a tree of indirect blocks ([collect_tree_blocks]
    and the stretches of [clear_size] of layout.rs)

    Each stretch pushes the blocks below the root, every node before those
    below it, and writes nothing. *)

From S2P Require Import Prelude BlockDev BlockStore Layout Tree BuildTree TreeOps.

Section Collect.
Context {St : Type} `{BlockStoreSpec St}.

Definition collects (h : nat) (L : gset Z) (σ : gmap Z (list byte)) (t : tree)
    (v : list Z) (m : cmd St (list Z)) : Prop :=
  runs L σ m (v ++ tail (preorder h t)) σ.

Lemma cons_tail_preorder h t : [root t] ++ tail (preorder h t) = preorder h t.
Proof. by destruct h, t. Qed.

(** The loop of [collect_tree_blocks] from its [i]-th entry, [done] the children
    already visited. *)
Lemma collect_loop_ok h L σ ents cur maxl d D n
  (IH : forall L t cur v,
     0 <= cur < maxl -> trep σ h (clamp (maxl - cur) 0 (cap h)) t -> avail σ L (preorder h t) ->
     Z.of_nat (base.size L) + Z.of_nat h <= BLOCK_CACHE_SIZE ->
     runs (St := St) L σ (collect_tree_blocks h v (root t) cur maxl (d + 1) D)
       (cur + clamp (maxl - cur) 0 (cap h), v ++ tail (preorder h t)) σ) :
  n = clamp (maxl - cur) 0 (cap (S h)) -> 0 <= cur < maxl ->
  Z.of_nat (base.size L) + Z.of_nat h <= BLOCK_CACHE_SIZE ->
  forall fuel done todo v,
  let i := length done in
  nrep σ h n (done ++ todo) ents -> avail σ L (blocks_of h todo) ->
  (length todo < fuel)%nat ->
  exists j, runs L σ (while fuel
        (fun '(i, cur_leaf, _) => (i <? INODE_INDIRECT1_COUNT) && (cur_leaf <? maxl))
        (collect_step (fun collected child cur_leaf =>
           collect_tree_blocks h collected child cur_leaf maxl (d + 1) D) ents)
        (Z.of_nat i, cur_at h cur maxl i, v))
      (j, cur + n, v ++ blocks_of h todo) σ.
Proof.
  intros Hn Hcur HL. induction fuel as [|fuel IHf]; intros done todo v i [Hlen Hcs] Hav Hf; [lia|].
  pose proof (share_pos n h i ltac:(subst n; unfold clamp; lia)) as Hsp.
  assert (Hsn : 0 < share n h i <-> Z.of_nat i * cap h < n)
    by (unfold share, clamp; pose proof (cap_pos h); lia).
  assert (Hmi : zlen (done ++ todo) = Z.of_nat i + zlen todo) by (unfold zlen; rewrite length_app; lia).
  destruct todo as [|c todo].
  { change (zlen []) with 0 in Hmi. destruct (exit_cond h cur maxl maxl Hcur i) as [Hc Hcond]; [subst n; lia|].
    exists (Z.of_nat i). rewrite Hn, <- Hc. unfold blocks_of. rewrite app_nil_r.
    by apply runs_while_done. }
  assert (Hi : Z.of_nat i * cap h < n) by (unfold zlen in *; simpl in Hmi; lia).
  destruct (Hcs i c) as [He Hc]; [by apply list_lookup_middle|].
  rewrite Hn in Hi. destruct (child_shares h cur maxl maxl Hcur i Hi) as (E0 & _ & Ecur & _ & Hlt).
  rewrite <- Hn in E0, Ecur.
  change (c :: todo) with ([c] ++ todo) in *. rewrite blocks_of_app, blocks_of_one in *.
  destruct (IHf (done ++ [c]) todo (v ++ preorder h c)) as [j Hrun].
  { by rewrite <- app_assoc. }
  { by eapply avail_app_r. }
  { simpl in Hf. lia. }
  exists j. rewrite length_app, Nat.add_1_r in Hrun. rewrite <- app_assoc in Hrun.
  eapply runs_while_step; [by apply (enter_cond h cur maxl)| |exact Hrun].
  eapply runs_bind_lift; [apply index_Ok; [lia|by rewrite Nat2Z.id]|].
  eapply runs_bind; [apply IH; [done|by rewrite E0|by eapply avail_app_l|done]|].
  rewrite E0, Ecur. simpl. replace (Z.of_nat i + 1) with (Z.of_nat (S i)) by lia.
  rewrite <- app_assoc, (cons_tail_preorder h c). apply runs_ret.
Qed.

Lemma collect_tree_ok h σ maxl D : forall L t cur v d,
  d + Z.of_nat h = D -> 0 <= cur < maxl -> blocks_ok σ ->
  trep σ h (clamp (maxl - cur) 0 (cap h)) t -> avail σ L (preorder h t) ->
  Z.of_nat (base.size L) + Z.of_nat h <= BLOCK_CACHE_SIZE ->
  runs (St := St) L σ (collect_tree_blocks h v (root t) cur maxl d D)
    (cur + clamp (maxl - cur) 0 (cap h), v ++ tail (preorder h t)) σ.
Proof.
  induction h as [|h IH]; intros L t cur v d Hd Hcur Hok Ht Hav HL.
  { simpl. destruct (Z.eqb_spec d D); [|lia]. rewrite app_nil_r, cap_0.
    replace (clamp (maxl - cur) 0 1) with 1 by (unfold clamp; lia). apply runs_ret. }
  destruct t as [r cs]. simpl in Hav. fold (blocks_of h cs) in Hav.
  apply trep_nrep in Ht as (ents & Hents & Hrange & Hn). simpl in Hents, Hn.
  assert (Hr : (r ∉ L) /\ r ∉ blocks_of h cs).
  { split; [apply Hav; by left|]. destruct Hav as [Hnd _]. by apply NoDup_cons in Hnd as [? _]. }
  assert (Hlen : (length cs <= 128)%nat).
  { destruct Hn as [Hl _]. unfold zlen in Hl. rewrite cap_S in Hrange. pose proof (cap_pos h).
    destruct (ceil_div_spec (clamp (maxl - cur) 0 (cap (S h))) (cap h)) as [[??]|[??]]; rewrite ?cap_S in *; nia. }
  destruct (collect_loop_ok h ({[r]} ∪ L) σ ents cur maxl d D (clamp (maxl - cur) 0 (cap (S h))))
    with (fuel := S (Z.to_nat INODE_INDIRECT1_COUNT)) (done := @nil tree) (todo := cs) (v := v)
    as [j Hrun]; [|done|done| |done| | |].
  { intros. apply IH; [lia|done..]. }
  { rewrite size_held_union by apply Hr. lia. }
  { apply avail_lock; [apply Hr|]. by apply (avail_app_r _ _ [r]) in Hav. }
  { change INODE_INDIRECT1_COUNT with 128. lia. }
  cbn [collect_tree_blocks]. destruct (Z.eqb_spec d D); [lia|].
  eapply runs_table; [done|split; [apply Hr|lia]|done|].
  replace (cur_at h cur maxl (length (@nil tree))) with cur in Hrun
    by (unfold cur_at; simpl; unfold clamp; pose proof (cap_pos (S h)); lia).
  eapply runs_bind; [exact Hrun|]. apply runs_ret.
Qed.

(** ** indirect1 and indirect2 *)
Lemma leaves_entries σ n t ents :
  trep σ 1 n t -> table σ (root t) = Some ents -> leaves 1 t = take (Z.to_nat n) ents.
Proof.
  intros (ents0 & He & Hn & Hlen & Hcs) Ht. rewrite Ht in He. injection He as <-.
  rewrite ceil_div_cap0 in Hlen. destruct t as [r cs]. simpl in *.
  replace (Z.to_nat n) with (length cs) by (unfold zlen in Hlen; lia). clear Hlen Hn Ht.
  assert (Hent : forall i c, cs !! i = Some c -> ents !! i = Some (root c)) by (intros; by apply Hcs).
  clear Hcs. revert ents Hent. induction cs as [|c cs IH]; intros ents Hent; [done|].
  pose proof (Hent 0%nat c eq_refl) as E0. destruct ents as [|e ents]; [done|].
  simpl in E0. injection E0 as ->. csimpl. f_equal. apply IH.
  intros i x Hx. by apply (Hent (S i)).
Qed.

Lemma tail_preorder_1 t : tail (preorder 1 t) = leaves 1 t.
Proof. done. Qed.

Lemma clear1_loop_ok L σ (ents : list Z) total : length ents = 128%nat ->
  forall fuel k (v : list Z), (k <= 128)%nat -> (128 - k < fuel)%nat -> Z.of_nat k <= Z.min total 128 ->
  exists j, runs (St := St) L σ (while fuel
      (fun '(current_blocks, _) => current_blocks <? Z.min total INODE_INDIRECT1_COUNT)
      (fun '(current_blocks, v) =>
         let* b := lift (index ents current_blocks) in
         ret (current_blocks + 1, v ++ [b]))
      (Z.of_nat k, v))
    (j, v ++ drop k (take (Z.to_nat (Z.min total 128)) ents)) σ.
Proof.
  intros Hlen. induction fuel as [|fuel IH]; intros k v Hk Hf Hle; [lia|].
  destruct (decide (Z.of_nat k = Z.min total 128)) as [Heq|Hne].
  { exists (Z.of_nat k). rewrite drop_ge by (rewrite length_take; lia). rewrite app_nil_r.
    apply runs_while_done, Z.ltb_ge. change INODE_INDIRECT1_COUNT with 128. lia. }
  destruct (lookup_lt_is_Some_2 ents k) as [b Hb]; [lia|].
  destruct (IH (S k) (v ++ [b])) as [j Hrun]; [lia..|].
  exists j. rewrite (drop_S _ b) by (by rewrite lookup_take_lt by lia).
  rewrite <- app_assoc in Hrun.
  eapply runs_while_step; [apply Z.ltb_lt; change INODE_INDIRECT1_COUNT with 128; lia| |exact Hrun].
  eapply runs_bind_lift; [apply index_Ok; [lia|by rewrite Nat2Z.id]|].
  replace (Z.of_nat k + 1) with (Z.of_nat (S k)) by lia. apply runs_ret.
Qed.

Lemma clear_indirect1_ok L σ t n v :
  0 <= n -> blocks_ok σ -> trep σ 1 (Z.min n 128) t -> lockable L (root t) ->
  collects 1 L σ t v (clear_indirect1 (root t) n v).
Proof.
  intros Hn Hok Ht HL. pose proof Ht as (ents & Hents & _). unfold collects.
  rewrite tail_preorder_1, (leaves_entries _ _ _ _ Ht Hents).
  destruct (table_ok _ _ _ Hok Hents) as [Hlen _].
  destruct (clear1_loop_ok ({[root t]} ∪ L) σ ents n Hlen (S (Z.to_nat INODE_INDIRECT1_COUNT)) 0 v)
    as [j Hrun]; [lia|change INODE_INDIRECT1_COUNT with 128; lia|lia|].
  rewrite <- (set_table_id σ (root t) ents) at 2 by done.
  eapply runs_modify_table; [done..|by eapply table_ok|].
  eapply runs_bind; [exact Hrun|]. apply runs_ret.
Qed.

(** One indirect1 block of which the first [n] entries are in use. *)
Lemma collect1_ok L σ c n (f : list Z -> list Z) v :
  blocks_ok σ -> trep σ 1 n c -> lockable L (root c) ->
  (forall ents, length ents = 128%nat -> f ents = take (Z.to_nat n) ents) ->
  runs (St := St) L σ (modify indirect_view (root c) 0 (fun indirect1 =>
      ret ((v ++ [root c]) ++ f indirect1, indirect1)))
    (v ++ preorder 1 c) σ.
Proof.
  intros Hok Ht HL Hf. pose proof Ht as (ents & Hents & _).
  rewrite <- (cons_tail_preorder 1 c), tail_preorder_1, (leaves_entries _ _ _ _ Ht Hents).
  rewrite <- Hf by (by eapply table_ok). rewrite app_assoc.
  rewrite <- (set_table_id σ (root c) ents) at 2 by done.
  eapply runs_modify_table; [done..|by eapply table_ok|]. apply runs_ret.
Qed.

Lemma clear2_for_ok L σ : forall cs (v : list Z),
  blocks_ok σ -> (forall c, c ∈ cs -> trep σ 1 128 c /\ lockable L (root c)) ->
  runs (St := St) L σ (for_each (root <$> cs) (fun entry v =>
      modify indirect_view entry 0 (fun indirect1 =>
        ret ((v ++ [entry]) ++ indirect1, indirect1))) v)
    (v ++ blocks_of 1 cs) σ.
Proof.
  intros cs. induction cs as [|c cs IH]; intros v Hok Hcs.
  { simpl. unfold blocks_of. rewrite app_nil_r. apply runs_ret. }
  destruct (Hcs c) as [Hc HL]; [by left|].
  csimpl. eapply runs_bind.
  { apply (collect1_ok L σ c 128 (fun ents => ents)); [done|done|done|].
    intros ents Hl. symmetry. apply take_ge. lia. }
  change (c :: cs) with ([c] ++ cs). rewrite blocks_of_app, blocks_of_one, app_assoc.
  apply IH; [done|]. intros x Hx. apply Hcs. by right.
Qed.

Lemma nrep_take_entries σ h n cs ents k :
  nrep σ h n cs ents -> (k <= length cs)%nat -> take k ents = root <$> take k cs.
Proof.
  intros [_ Hcs] Hk. apply list_eq_same_length with k.
  - rewrite length_fmap, length_take. lia.
  - rewrite length_take.
    assert (k <= length ents)%nat; [|lia]. destruct k as [|k]; [lia|].
    destruct (lookup_lt_is_Some_2 cs k) as [c Hc]; [lia|].
    destruct (Hcs k c Hc) as [He _]. by apply lookup_lt_Some in He.
  - intros i x y Hi Hx Hy. rewrite lookup_take_lt in Hx by done.
    apply list_lookup_fmap_Some in Hy as (c & -> & Hc). rewrite lookup_take_lt in Hc by done.
    destruct (Hcs i c Hc). congruence.
Qed.

(** The children of an indirect2 block: full ones, and a last one. *)
Lemma nrep_split2 σ m cs ents :
  0 <= m <= 16384 -> nrep σ 1 m cs ents ->
  let a := Z.to_nat (m / 128) in
  (a <= length cs)%nat /\ (forall c, c ∈ take a cs -> trep σ 1 128 c) /\
  (m mod 128 = 0 /\ cs = take a cs \/
   0 < m mod 128 /\ exists c, cs = take a cs ++ [c] /\ cs !! a = Some c /\
     ents !! a = Some (root c) /\ trep σ 1 (m mod 128) c).
Proof.
  intros Hm [Hlen Hcs] a. unfold ceil_div in Hlen. change (cap 1) with 128 in Hlen.
  pose proof (Z.mod_pos_bound m 128 ltac:(lia)).
  assert (Ha : (a <= length cs)%nat) by (unfold a, zlen in *; dlia).
  split_and!; [done| |].
  - intros c Hc. apply list_elem_of_lookup in Hc as [i Hi]. apply lookup_take_Some in Hi as [Hi Hlt].
    destruct (Hcs i c Hi) as [_ Ht]. destruct (share_before m i) as [E _]; [unfold a in Hlt; lia|].
    by rewrite E in Ht.
  - destruct (decide (m mod 128 = 0)) as [Hz|Hnz]; [left|right].
    + split; [done|]. rewrite take_ge; [done|]. unfold a, zlen in *. dlia.
    + split; [lia|]. destruct (lookup_lt_is_Some_2 cs a) as [c Hc]; [unfold a, zlen in *; dlia|].
      destruct (Hcs a c Hc) as [He Ht]. exists c. unfold a in Ht. rewrite (proj1 (share_at m ltac:(lia))) in Ht.
      split_and!; [|done..]. rewrite <- (take_S_r _ _ _ Hc).
      symmetry. apply take_ge. unfold a, zlen in *. dlia.
Qed.

Lemma clear_indirect2_ok L σ t n v :
  0 <= n -> blocks_ok σ -> trep σ 2 (Z.min n 16384) t -> avail σ L (preorder 2 t) ->
  Z.of_nat (base.size L) + 1 < BLOCK_CACHE_SIZE ->
  collects 2 L σ t v (clear_indirect2 (root t) n v).
Proof.
  intros Hn Hok Ht Hav HL. unfold collects. destruct t as [r cs]. cbn [root].
  change (tail (preorder 2 (Node r cs))) with (blocks_of 1 cs).
  change (preorder 2 (Node r cs)) with ([r] ++ blocks_of 1 cs) in Hav.
  apply trep_nrep in Ht as (ents & Hents & _ & Hnr). simpl in Hents, Hnr.
  set (m := Z.min n 16384) in *.
  assert (Hr : (r ∉ L) /\ r ∉ blocks_of 1 cs).
  { split; [apply Hav; set_solver|]. apply (avail_disjoint _ _ _ _ r Hav). set_solver. }
  assert (Hlk : forall c, c ∈ cs -> lockable ({[r]} ∪ L) (root c)).
  { intros c Hc. split; [|rewrite size_held_union by apply Hr; lia].
    assert (root c ∈ blocks_of 1 cs) as Hin
      by (apply elem_of_concat_fmap; exists c; split; [done|apply root_preorder]).
    assert (root c ∉ L) by (apply Hav; set_solver). set_solver. }
  destruct (nrep_split2 σ m cs ents ltac:(lia) Hnr) as (Ha & Hfull & Hlast).
  set (a := Z.to_nat (m / 128)) in *.
  unfold clear_indirect2, decompose2. change INODE_INDIRECT1_COUNT with 128.
  change (Z.min n INODE_INDIRECT2_COUNT) with m.
  rewrite <- (set_table_id σ r ents) at 2 by done.
  eapply runs_modify_table; [done|split; [apply Hr|lia]|done|by eapply table_ok|].
  fold a. rewrite (nrep_take_entries _ _ _ _ _ _ Hnr Ha).
  eapply runs_bind.
  { apply clear2_for_ok; [done|]. intros c Hc. split; [by apply Hfull|].
    apply Hlk. apply elem_of_take in Hc as (? & ? & _). by eapply list_elem_of_lookup_2. }
  destruct Hlast as [[Hz Hcs]|(Hpos & c & Hcs & Hc & He & Hct)].
  - rewrite Hz. simpl. apply runs_bind_ret. rewrite <- Hcs. apply runs_ret.
  - rewrite (proj2 (Z.gtb_lt (m mod 128) 0)) by done. eapply runs_bind.
    { eapply runs_bind_lift; [apply index_Ok; [apply Z.div_pos; lia|exact He]|].
      apply (collect1_ok _ σ c (m mod 128)); [done|done| |done].
      apply Hlk. by eapply list_elem_of_lookup_2. }
    rewrite Hcs at 2. rewrite blocks_of_app, blocks_of_one, app_assoc. apply runs_ret.
Qed.

End Collect.
