(* ===== verification/Inode.v ===== *)
(** * The blocks of a file ([DiskInode] of layout.rs)

    The representation of an inode: its direct blocks, then the leaves of the
    trees under indirect1, indirect2 and indirect3.  [get_block_id] looks a data
    block up, [increase_size] appends data blocks, [clear_size] returns every
    block of the file, and the two functions that count blocks count those of
    the representation. *)

From S2P Require Import Prelude BlockDev BlockStore Layout Tree BuildTree TreeOps ClearTree.

(** ** A level: the tree of height [h] that holds the data blocks from [lo] on *)
Definition level_leaves (h : nat) (lo n : Z) (t : tree) : list Z :=
  if lo <? n then leaves h t else [].
Definition level_blocks (h : nat) (lo n : Z) (t : tree) : list Z :=
  if lo <? n then preorder h t else [].
Definition level_indexes (h : nat) (lo n : Z) (t : tree) : list Z :=
  if lo <? n then indexes h t else [].

(** The number of its leaves, and of its blocks, in a file of [n] data blocks. *)
Definition level_count (h : nat) (lo n : Z) : Z := clamp (n - lo) 0 (cap h).
Definition level_weight (h : nat) (lo n : Z) : Z :=
  if lo <? n then weight h (level_count h lo n) else 0.

Definition level_rep (σ : gmap Z (list byte)) (h : nat) (lo n ptr : Z) (t : tree) : Prop :=
  lo < n -> root t = ptr /\ trep σ h (level_count h lo n) t.

(** Growth of a part of a file: its leaves, its blocks and its indirect blocks
    before and after, and the blocks it took. *)
Record grows (σ σ' : gmap Z (list byte)) (lv lv' bk bk' ix' used : list Z) : Prop := {
  grows_leaves : lv `prefix_of` lv';
  grows_blocks : bk' ≡ₚ bk ++ used;
  grows_indexes b : b ∈ ix' -> b ∈ bk';
  grows_frame b : b ∉ ix' -> σ' !! b = σ !! b;
  grows_dom b : is_Some (σ !! b) -> is_Some (σ' !! b);
  grows_ok : blocks_ok σ';
  grows_fresh b : b ∈ lv' -> b ∈ lv ++ used;
}.

Lemma grows_refl σ lv bk : blocks_ok σ -> grows σ σ lv lv bk bk [] [].
Proof. intros Hok. split; try done; [by rewrite app_nil_r| |]; intros b Hb; [by apply not_elem_of_nil in Hb|by rewrite app_nil_r]. Qed.

Lemma grows_app σ σ1 σ2 lvA lvA' bkA bkA' ixA usedA lvB lvB' bkB bkB' ixB usedB :
  grows σ σ1 lvA lvA' bkA bkA' ixA usedA -> grows σ1 σ2 lvB lvB' bkB bkB' ixB usedB ->
  lvA = lvA' \/ lvB = [] ->
  grows σ σ2 (lvA ++ lvB) (lvA' ++ lvB') (bkA ++ bkB) (bkA' ++ bkB') (ixA ++ ixB) (usedA ++ usedB).
Proof.
  intros GA GB Hlv. split.
  - destruct Hlv as [<-| ->]; [by apply prefix_app_both, GB|].
    rewrite app_nil_r. apply prefix_app_r, GA.
  - rewrite (grows_blocks _ _ _ _ _ _ _ _ GA), (grows_blocks _ _ _ _ _ _ _ _ GB). solve_Permutation.
  - intros b [Hb|Hb]%elem_of_app; apply elem_of_app; [left; by apply GA|right; by apply GB].
  - intros b Hb. rewrite (grows_frame _ _ _ _ _ _ _ _ GB) by set_solver. apply GA. set_solver.
  - intros b Hb. by apply GB, GA.
  - apply GB.
  - intros b. pose proof (grows_fresh _ _ _ _ _ _ _ _ GA b). pose proof (grows_fresh _ _ _ _ _ _ _ _ GB b). set_solver.
Qed.

(** Parts of a file that do not overlap stay apart. *)
Lemma grows_disjoint σ σ1 L lvA lvA' bkA bkA' ixA usedA bkB rest :
  avail σ L ((bkA ++ bkB) ++ usedA ++ rest) -> grows σ σ1 lvA lvA' bkA bkA' ixA usedA ->
  avail σ1 L (bkB ++ rest) /\ avail σ1 L (bkA' ++ bkB ++ rest) /\ forall b, b ∈ bkB -> b ∉ ixA.
Proof.
  intros Hav G. assert (Hav1 : avail σ1 L (bkA' ++ bkB ++ rest)).
  { eapply avail_dom; [apply G|]. eapply avail_perm; [|exact Hav].
    rewrite (grows_blocks _ _ _ _ _ _ _ _ G). solve_Permutation. }
  split_and!; [by eapply avail_app_r|done|]. intros b Hb Hin. apply (grows_indexes _ _ _ _ _ _ _ _ G) in Hin.
  eapply (avail_disjoint _ _ _ _ b Hav1); [done|]. set_solver.
Qed.

Lemma grows_disjoint' σ1 σ2 L lvB lvB' bkB bkB' ixB usedB bkA rest :
  avail σ1 L (bkA ++ bkB ++ usedB ++ rest) -> grows σ1 σ2 lvB lvB' bkB bkB' ixB usedB ->
  forall b, b ∈ bkA -> b ∉ ixB.
Proof.
  intros Hav G. rewrite !app_assoc in Hav. apply avail_app_l in Hav.
  rewrite <- app_assoc in Hav. intros b Hb Hin.
  apply (grows_indexes _ _ _ _ _ _ _ _ G) in Hin. rewrite (grows_blocks _ _ _ _ _ _ _ _ G) in Hin.
  by eapply (avail_disjoint _ _ _ _ b Hav).
Qed.

(** A level is left alone by growth elsewhere. *)
Lemma level_rep_frame σ σ' h lo n ptr t (ws : list Z) :
  (forall b, b ∉ ws -> σ' !! b = σ !! b) ->
  (forall b, b ∈ level_blocks h lo n t -> b ∉ ws) ->
  level_rep σ h lo n ptr t -> level_rep σ' h lo n ptr t.
Proof.
  intros Hfr Hdis Hrep Hlo. destruct (Hrep Hlo) as [Hr Ht]. split; [done|].
  eapply trep_other; [exact Hfr| |exact Ht]. intros b Hb. apply Hdis.
  unfold level_blocks. by rewrite (proj2 (Z.ltb_lt lo n) Hlo).
Qed.

Lemma level_weight_mono h lo n m : n <= m -> level_weight h lo n <= level_weight h lo m.
Proof.
  intros Hnm. unfold level_weight. pose proof (weight_pos h (level_count h lo m)).
  destruct (Z.ltb_spec lo n), (Z.ltb_spec lo m); [|lia..].
  apply weight_mono. unfold level_count, clamp. lia.
Qed.

Lemma level_blocks_length σ h lo n ptr t :
  level_rep σ h lo n ptr t -> zlen (level_blocks h lo n t) = level_weight h lo n.
Proof.
  intros Hrep. unfold level_blocks, level_weight. destruct (Z.ltb_spec lo n) as [Hlo|]; [|done].
  eapply preorder_length. by apply Hrep.
Qed.

(** Growth takes as many blocks as the counts say. *)
Lemma grows_level_weight σ σ' h lo n0 n1 ptr ptr' t t' lv lv' used :
  level_rep σ h lo n0 ptr t -> level_rep σ' h lo n1 ptr' t' ->
  forall ix, grows σ σ' lv lv' (level_blocks h lo n0 t) (level_blocks h lo n1 t') ix used ->
  zlen used = level_weight h lo n1 - level_weight h lo n0.
Proof.
  intros H0 H1 ix G. apply level_blocks_length in H0, H1.
  pose proof (Permutation_length (grows_blocks _ _ _ _ _ _ _ _ G)) as Hl.
  rewrite length_app in Hl. unfold zlen in *. lia.
Qed.

(** A full level does not change. *)
Lemma level_leaves_full σ σ' h lo n0 n1 ptr ptr' t t' :
  (0 < h)%nat -> level_rep σ h lo n0 ptr t -> level_rep σ' h lo n1 ptr' t' ->
  level_leaves h lo n0 t `prefix_of` level_leaves h lo n1 t' ->
  lo + cap h <= n0 <= n1 -> level_leaves h lo n0 t = level_leaves h lo n1 t'.
Proof.
  intros Hh H0 H1 Hpre Hn. pose proof (cap_pos h).
  destruct H0 as [_ H0]; [lia|]. destruct H1 as [_ H1]; [lia|].
  apply prefix_length_eq; [done|]. unfold level_leaves in *.
  destruct (Z.ltb_spec lo n0), (Z.ltb_spec lo n1); [|lia..].
  apply leaves_length in H0, H1; [|by left..]. unfold level_count, clamp, zlen in *. lia.
Qed.

Section Level.
Context {St : Type} `{BlockStoreSpec St}.

(** A stretch of [increase_size]: the root is taken from the iterator when the
    level is new, then [m] fills the tree. *)
Lemma level_grow h lo n0 n1 ptr t L σ bl z (m : Z -> list Z -> cmd St (Z * list Z)) :
  0 <= n0 <= n1 -> lo < n1 -> blocks_ok σ -> level_rep σ h lo n0 ptr t ->
  avail σ L (level_blocks h lo n0 t ++ bl) ->
  level_weight h lo n1 - level_weight h lo n0 <= zlen bl ->
  (forall t0 bl, trep σ h (level_count h lo n0) t0 -> avail σ L (preorder h t0 ++ bl) ->
     weight h (level_count h lo n1) - weight h (level_count h lo n0) <= zlen bl ->
     exists t1 used rest σ', bl = used ++ rest /\
       runs L σ (m (root t0) bl) (z, rest) σ' /\
       trep σ' h (level_count h lo n1) t1 /\ grown σ σ' h t0 t1 used) ->
  exists p bl' t' used rest σ',
    (n0 <= lo /\ bl = p :: bl' \/ lo < n0 /\ p = ptr /\ bl = bl') /\
    bl = used ++ rest /\ runs L σ (m p bl') (z, rest) σ' /\
    level_rep σ' h lo n1 p t' /\
    grows σ σ' (level_leaves h lo n0 t) (level_leaves h lo n1 t')
      (level_blocks h lo n0 t) (level_blocks h lo n1 t') (level_indexes h lo n1 t') used.
Proof.
  intros Hn Hlo Hok Hrep Hav Hbud Hm. unfold level_blocks, level_leaves, level_indexes, level_weight in *.
  rewrite (proj2 (Z.ltb_lt lo n1) Hlo) in *. destruct (Z.ltb_spec lo n0) as [Hold|Hnew].
  - destruct (Hrep Hold) as [Hr Ht]. destruct (Hm t bl) as (t1 & used & rest & σ' & -> & Hrun & Ht1 & Hg);
      [done|done|done|].
    exists ptr, (used ++ rest), t1, used, rest, σ'. rewrite <- Hr.
    split_and!; [right; done|done|done|intros _; split; [apply Hg|done]|].
    destruct Hg. split; [done|done|by apply indexes_preorder|done..].
  - pose proof (weight_pos h (level_count h lo n1)).
    destruct bl as [|p bl]; [unfold zlen in Hbud; simpl in Hbud; lia|].
    assert (Hp : is_Some (σ !! p)) by (apply Hav; simpl; by left).
    assert (Hc0 : level_count h lo n0 = 0) by (unfold level_count, clamp; pose proof (cap_pos h); lia).
    assert (Hw0 : weight h 0 = 1).
    { erewrite <- (preorder_length σ h 0 (Node p [])) by (by apply fresh_trep). by rewrite fresh_preorder. }
    rewrite Hc0 in Hm.
    destruct (Hm (Node p []) bl) as (t1 & used & rest & σ' & -> & Hrun & Ht1 & Hg);
      [by apply fresh_trep|by rewrite fresh_preorder| |].
    { rewrite Hw0. unfold zlen in *. simpl in Hbud. lia. }
    exists p, (used ++ rest), t1, (p :: used), rest, σ'.
    split_and!; [by left|done|done|intros _; split; [apply Hg|done]|].
    destruct Hg as [G1 G2 G3 G4 G5 G6 G7].
    split; [apply prefix_nil|by rewrite G3, fresh_preorder|by apply indexes_preorder|done..|].
    intros b Hb%G7. pose proof (fresh_leaves h p b). set_solver.
Qed.

(** ** The levels of an inode, from the last one *)
Lemma build3_fills L σ n0 n1 t0 bl :
  0 <= n0 <= n1 -> 16539 < n1 -> blocks_ok σ -> trep σ 3 (level_count 3 16539 n0) t0 ->
  avail σ L (preorder 3 t0 ++ bl) -> Z.of_nat (base.size L) + 3 <= BLOCK_CACHE_SIZE ->
  weight 3 (level_count 3 16539 n1) - weight 3 (level_count 3 16539 n0) <= zlen bl ->
  exists t1 used rest σ', bl = used ++ rest /\
    runs (St := St) L σ (build_tree 3 bl (root t0) 0 (Z.max n0 16539 - 16539) (n1 - 16539) 0 3)
      (level_count 3 16539 n1, rest) σ' /\
    trep σ' 3 (level_count 3 16539 n1) t1 /\ grown σ σ' 3 t0 t1 used.
Proof.
  intros Hn Hlo Hok Ht Hav HL Hw.
  assert (E0 : clamp (Z.max n0 16539 - 16539 - 0) 0 (cap 3) = level_count 3 16539 n0)
    by (unfold level_count, clamp; pose proof (cap_pos 3); lia).
  assert (E1 : clamp (n1 - 16539 - 0) 0 (cap 3) = level_count 3 16539 n1)
    by (unfold level_count, clamp; lia).
  pose proof (build_tree_ok 3 L σ t0 0 (Z.max n0 16539 - 16539) (n1 - 16539) bl 0 3) as B.
  cbv zeta in B. rewrite E0, E1, Z.add_0_l in B. apply B; [done|lia|lia|done..].
Qed.

Lemma fill2_fills L σ n0 n1 t0 bl :
  0 <= n0 <= n1 -> 155 < n1 -> blocks_ok σ -> trep σ 2 (level_count 2 155 n0) t0 ->
  avail σ L (preorder 2 t0 ++ bl) -> Z.of_nat (base.size L) + 3 <= BLOCK_CACHE_SIZE ->
  weight 2 (level_count 2 155 n1) - weight 2 (level_count 2 155 n0) <= zlen bl ->
  exists t1 used rest σ', bl = used ++ rest /\
    runs (St := St) L σ (fill_indirect2 (root t0) (Z.max n0 155 - 155) (n1 - 155) bl)
      (Z.max (Z.max n0 155) (Z.min n1 16539) - 155, rest) σ' /\
    trep σ' 2 (level_count 2 155 n1) t1 /\ grown σ σ' 2 t0 t1 used.
Proof.
  intros Hn Hlo Hok Ht Hav HL Hw.
  assert (E0 : Z.min (Z.max n0 155 - 155) 16384 = level_count 2 155 n0)
    by (unfold level_count, clamp; rewrite cap_2; lia).
  assert (E1 : Z.min (n1 - 155) 16384 = level_count 2 155 n1)
    by (unfold level_count, clamp; rewrite cap_2; lia).
  destruct (fill_indirect2_ok L σ t0 (Z.max n0 155 - 155) (n1 - 155) bl) as (t1 & used & rest & σ' & F);
    [lia|done|by rewrite E0|done|lia|by rewrite E0, E1|].
  rewrite cap_2, E1 in F. exists t1, used, rest, σ'.
  replace (Z.max (Z.max n0 155) (Z.min n1 16539) - 155)
    with (Z.max (Z.max n0 155 - 155) (level_count 2 155 n1)) by lia. done.
Qed.

Lemma fill1_fills L σ n0 n1 t0 bl :
  0 <= n0 <= n1 -> 27 < n1 -> blocks_ok σ -> trep σ 1 (level_count 1 27 n0) t0 ->
  avail σ L (preorder 1 t0 ++ bl) -> Z.of_nat (base.size L) + 3 <= BLOCK_CACHE_SIZE ->
  weight 1 (level_count 1 27 n1) - weight 1 (level_count 1 27 n0) <= zlen bl ->
  exists t1 used rest σ', bl = used ++ rest /\
    runs (St := St) L σ (fill_indirect1 (root t0) (Z.max n0 27 - 27) (n1 - 27) bl)
      (Z.max (Z.max n0 27) (Z.min n1 155) - 27, rest) σ' /\
    trep σ' 1 (level_count 1 27 n1) t1 /\ grown σ σ' 1 t0 t1 used.
Proof.
  intros Hn Hlo Hok Ht Hav HL Hw. assert (Ecap : cap 1 = 128) by done.
  assert (E0 : Z.min (Z.max n0 27 - 27) 128 = level_count 1 27 n0)
    by (unfold level_count, clamp; rewrite Ecap; lia).
  assert (E1 : Z.min (n1 - 27) 128 = level_count 1 27 n1)
    by (unfold level_count, clamp; rewrite Ecap; lia).
  assert (Hc : 0 <= level_count 1 27 n0 <= 128 /\ 0 <= level_count 1 27 n1 <= 128) by lia.
  rewrite !weight_closed in Hw by (rewrite Ecap; lia). simpl in Hw.
  destruct (fill_indirect1_ok L σ t0 (Z.max n0 27 - 27) (n1 - 27) bl) as (t1 & used & rest & σ' & F);
    [lia|done|by rewrite E0|done|lia|rewrite E0, E1; lia|].
  rewrite Ecap, E1 in F. exists t1, used, rest, σ'.
  replace (Z.max (Z.max n0 27) (Z.min n1 155) - 27)
    with (Z.max (Z.max n0 27 - 27) (level_count 1 27 n1)) by lia. done.
Qed.

(** The code of [increase_size] from each "alloc indirect" on. *)
Definition grow3 (self : DiskInode) (current_blocks total_blocks : Z) (new_blocks : list Z)
    : cmd St DiskInode :=
  if negb (total_blocks >? INODE_INDIRECT2_COUNT) then ret self else
  let* (self, new_blocks) :=
    if current_blocks =? INODE_INDIRECT2_COUNT then
      let* (b, new_blocks) := lift (next_unwrap new_blocks) in
      ret (set_indirect3 self b, new_blocks)
    else ret (self, new_blocks) in
  let current_blocks := w32 (current_blocks - INODE_INDIRECT2_COUNT) in
  let total_blocks := w32 (total_blocks - INODE_INDIRECT2_COUNT) in
  let* _ := build_tree 3 new_blocks (indirect3 self) 0 current_blocks total_blocks 0 3 in
  ret self.

Definition grow2 (self : DiskInode) (current_blocks total_blocks : Z) (new_blocks : list Z)
    : cmd St DiskInode :=
  if negb (total_blocks >? INODE_INDIRECT1_COUNT) then ret self else
  let* (self, new_blocks) :=
    if current_blocks =? INODE_INDIRECT1_COUNT then
      let* (b, new_blocks) := lift (next_unwrap new_blocks) in
      ret (set_indirect2 self b, new_blocks)
    else ret (self, new_blocks) in
  let current_blocks := w32 (current_blocks - INODE_INDIRECT1_COUNT) in
  let total_blocks := w32 (total_blocks - INODE_INDIRECT1_COUNT) in
  let* (current_blocks, new_blocks) :=
    fill_indirect2 (indirect2 self) current_blocks total_blocks new_blocks in
  grow3 self current_blocks total_blocks new_blocks.

Definition grow1 (self : DiskInode) (current_blocks total_blocks : Z) (new_blocks : list Z)
    : cmd St DiskInode :=
  if negb (total_blocks >? INODE_DIRECT_COUNT) then ret self else
  let* (self, new_blocks) :=
    if current_blocks =? INODE_DIRECT_COUNT then
      let* (b, new_blocks) := lift (next_unwrap new_blocks) in
      ret (set_indirect1 self b, new_blocks)
    else ret (self, new_blocks) in
  let current_blocks := w32 (current_blocks - INODE_DIRECT_COUNT) in
  let total_blocks := w32 (total_blocks - INODE_DIRECT_COUNT) in
  let* (current_blocks, new_blocks) :=
    fill_indirect1 (indirect1 self) current_blocks total_blocks new_blocks in
  grow2 self current_blocks total_blocks new_blocks.

Lemma increase_size_stages self new_size new_blocks :
  increase_size self new_size new_blocks =
  let self' := set_size self new_size in
  let* (self, current_blocks, new_blocks) :=
    fill_direct self' (data_blocks self) (data_blocks self') new_blocks in
  grow1 self current_blocks (data_blocks self') new_blocks.
Proof. reflexivity. Qed.

Lemma set_indirect1_id di : set_indirect1 di (indirect1 di) = di. Proof. by destruct di. Qed.
Lemma set_indirect2_id di : set_indirect2 di (indirect2 di) = di. Proof. by destruct di. Qed.
Lemma set_indirect3_id di : set_indirect3 di (indirect3 di) = di. Proof. by destruct di. Qed.

(** A level that is not reached. *)
Lemma level_absent σ h lo n0 n1 ptr t :
  n0 <= n1 <= lo -> blocks_ok σ ->
  level_rep σ h lo n1 ptr t /\
  grows σ σ (level_leaves h lo n0 t) (level_leaves h lo n1 t)
    (level_blocks h lo n0 t) (level_blocks h lo n1 t) (level_indexes h lo n1 t) [].
Proof.
  intros Hn Hok. split; [intros ?; lia|].
  unfold level_leaves, level_blocks, level_indexes.
  rewrite (proj2 (Z.ltb_ge lo n0)), (proj2 (Z.ltb_ge lo n1)) by lia. by apply grows_refl.
Qed.

(** The root of a level: what [if current_blocks == COUNT] does. *)
Lemma runs_level_root {A} L σ σ' (self : DiskInode) (set : DiskInode -> Z -> DiskInode)
    (get : DiskInode -> Z) (cond : bool) p bl bl' (k : DiskInode -> list Z -> cmd St A) a :
  set self (get self) = self ->
  (cond = true /\ bl = p :: bl' \/ cond = false /\ p = get self /\ bl = bl') ->
  runs L σ (k (set self p) bl') a σ' ->
  runs L σ (let* (self, new_blocks) :=
      if cond then
        let* (b, new_blocks) := lift (next_unwrap bl) in ret (set self b, new_blocks)
      else ret (self, bl) in k self new_blocks) a σ'.
Proof.
  intros Hid [[-> ->]|(-> & -> & <-)] Hk.
  - eapply runs_bind; [eapply runs_bind_lift; [done|apply runs_ret]|]. exact Hk.
  - rewrite Hid in Hk. by apply runs_bind_ret.
Qed.

Definition MAX_BLOCKS : Z := INDIRECT2_BOUND + INODE_INDIRECT3_COUNT.

Lemma grow3_ok L σ self n0 n1 t3 bl cur :
  0 <= n0 <= n1 -> n1 <= MAX_BLOCKS -> 155 < n1 -> 
  (16539 < n1 -> cur = Z.max n0 16539 - 155) -> blocks_ok σ ->
  level_rep σ 3 16539 n0 (indirect3 self) t3 -> avail σ L (level_blocks 3 16539 n0 t3 ++ bl) ->
  Z.of_nat (base.size L) + 3 <= BLOCK_CACHE_SIZE ->
  level_weight 3 16539 n1 - level_weight 3 16539 n0 <= zlen bl ->
  exists p t3' used rest σ', bl = used ++ rest /\
    runs L σ (grow3 self cur (n1 - 155) bl) (set_indirect3 self p) σ' /\
    level_rep σ' 3 16539 n1 p t3' /\ (n1 <= 16539 -> p = indirect3 self) /\
    grows σ σ' (level_leaves 3 16539 n0 t3) (level_leaves 3 16539 n1 t3')
      (level_blocks 3 16539 n0 t3) (level_blocks 3 16539 n1 t3') (level_indexes 3 16539 n1 t3') used.
Proof.
  intros Hn Hmax Hlo2 Hcur Hok Hrep Hav HL Hw. change MAX_BLOCKS with 2113691 in Hmax. unfold grow3.
  change INODE_INDIRECT2_COUNT with 16384. destruct (Z.gtb_spec (n1 - 155) 16384) as [Hgt|Hle].
  2: { destruct (level_absent σ 3 16539 n0 n1 (indirect3 self) t3) as [Hr Hg]; [lia|done|].
       exists (indirect3 self), t3, [], bl, σ. rewrite set_indirect3_id.
       split_and!; [done|apply runs_ret|done|done|done]. }
  destruct (level_grow 3 16539 n0 n1 (indirect3 self) t3 L σ bl (level_count 3 16539 n1)
    (fun p bl => build_tree 3 bl p 0 (Z.max n0 16539 - 16539) (n1 - 16539) 0 3))
    as (p & bl' & t' & used & rest & σ' & Hcase & -> & Hrun & Hrep' & Hg); [lia|lia|done..| |].
  { intros. apply build3_fills; [lia|lia|done..]. }
  exists p, t', used, rest, σ'. split_and!; [done| |done|lia|done]. simpl negb. cbv iota.
  specialize (Hcur ltac:(lia)).
  apply (runs_level_root L σ σ' self set_indirect3 indirect3 _ p _ bl'
    (fun self new_blocks => let* _ := build_tree 3 new_blocks (indirect3 self) 0
        (w32 (cur - 16384)) (w32 (n1 - 155 - 16384)) 0 3 in ret self)).
  - apply set_indirect3_id.
  - destruct Hcase as [[? ->]|(? & -> & ->)]; [left|right]; (split; [|done]).
    + apply Z.eqb_eq. lia.
    + apply Z.eqb_neq. lia.
  - rewrite !w32_small by lia. cbn [indirect3 set_indirect3].
    eapply runs_bind; [|apply runs_ret].
    replace (cur - 16384) with (Z.max n0 16539 - 16539) by lia.
    replace (n1 - 155 - 16384) with (n1 - 16539) by lia. exact Hrun.
Qed.

Lemma no_leaves h lo n t : n <= lo -> level_leaves h lo n t = [].
Proof. intros. unfold level_leaves. by rewrite (proj2 (Z.ltb_ge lo n)) by lia. Qed.

(** Below its lowest block a level neither changes nor grows. *)
Lemma levels_absent σ n0 n1 p2 p3 t2 t3 : n0 <= n1 <= 155 -> blocks_ok σ ->
  level_rep σ 2 155 n1 p2 t2 /\ level_rep σ 3 16539 n1 p3 t3 /\
  grows σ σ (level_leaves 2 155 n0 t2 ++ level_leaves 3 16539 n0 t3) (level_leaves 2 155 n1 t2 ++ level_leaves 3 16539 n1 t3)
    (level_blocks 2 155 n0 t2 ++ level_blocks 3 16539 n0 t3) (level_blocks 2 155 n1 t2 ++ level_blocks 3 16539 n1 t3)
    (level_indexes 2 155 n1 t2 ++ level_indexes 3 16539 n1 t3) [].
Proof.
  intros Hn Hok.
  destruct (level_absent σ 2 155 n0 n1 p2 t2) as [Hr2 Hg2]; [lia|done|].
  destruct (level_absent σ 3 16539 n0 n1 p3 t3) as [Hr3 Hg3]; [lia|done|]. split_and!; [done..|].
  eapply (grows_app _ _ _ _ _ _ _ _ [] _ _ _ _ _ []); [done..|]. right. apply no_leaves. lia.
Qed.

Lemma grow2_ok L σ self n0 n1 t2 t3 bl cur :
  let bk n t2 t3 := level_blocks 2 155 n t2 ++ level_blocks 3 16539 n t3 in
  let lv n t2 t3 := level_leaves 2 155 n t2 ++ level_leaves 3 16539 n t3 in
  let ix n t2 t3 := level_indexes 2 155 n t2 ++ level_indexes 3 16539 n t3 in
  let wt n := level_weight 2 155 n + level_weight 3 16539 n in
  0 <= n0 <= n1 -> n1 <= MAX_BLOCKS -> 27 < n1 -> (155 < n1 -> cur = Z.max n0 155 - 27) -> blocks_ok σ ->
  level_rep σ 2 155 n0 (indirect2 self) t2 -> level_rep σ 3 16539 n0 (indirect3 self) t3 ->
  avail σ L (bk n0 t2 t3 ++ bl) ->
  Z.of_nat (base.size L) + 3 <= BLOCK_CACHE_SIZE -> wt n1 - wt n0 <= zlen bl ->
  exists p2 p3 t2' t3' used rest σ', bl = used ++ rest /\
    runs L σ (grow2 self cur (n1 - 27) bl) (set_indirect3 (set_indirect2 self p2) p3) σ' /\
    level_rep σ' 2 155 n1 p2 t2' /\ level_rep σ' 3 16539 n1 p3 t3' /\
    (n1 <= 155 -> p2 = indirect2 self) /\ (n1 <= 16539 -> p3 = indirect3 self) /\
    grows σ σ' (lv n0 t2 t3) (lv n1 t2' t3') (bk n0 t2 t3) (bk n1 t2' t3') (ix n1 t2' t3') used.
Proof.
  intros bk lv ix wt Hn Hmax Hlo1 Hcur Hok Hrep2 Hrep3 Hav HL Hw. unfold grow2.
  change INODE_INDIRECT1_COUNT with 128. destruct (Z.gtb_spec (n1 - 27) 128) as [Hgt|Hle].
  2: { destruct (levels_absent σ n0 n1 (indirect2 self) (indirect3 self) t2 t3) as (Hr2 & Hr3 & Hg); [lia|done|].
       exists (indirect2 self), (indirect3 self), t2, t3, [], bl, σ.
       rewrite set_indirect2_id, set_indirect3_id. split_and!; [done|apply runs_ret|done..]. }
  specialize (Hcur ltac:(lia)). change MAX_BLOCKS with 2113691 in Hmax.
  assert (Hw3 : level_weight 3 16539 n0 <= level_weight 3 16539 n1) by (apply level_weight_mono; lia).
  destruct (level_grow 2 155 n0 n1 (indirect2 self) t2 L σ bl
    (Z.max (Z.max n0 155) (Z.min n1 16539) - 155)
    (fun p bl => fill_indirect2 p (Z.max n0 155 - 155) (n1 - 155) bl))
    as (p & bl' & t2' & used & rest & σ1 & Hcase & -> & Hrun & Hrep2' & Hg); [lia|lia|done|done| |unfold wt in Hw; lia| |].
  { eapply (avail_app_l _ _ _ (level_blocks 3 16539 n0 t3)), avail_perm; [|exact Hav]. unfold bk. solve_Permutation. }
  { intros. apply fill2_fills; [lia|lia|done..]. }
  destruct (grows_disjoint _ _ _ _ _ _ _ _ _ _ _ Hav Hg) as (Hav3 & Hav23 & Hdis).
  pose proof (grows_level_weight _ _ _ _ _ _ _ _ _ _ _ _ _ Hrep2 Hrep2' _ Hg) as Hu.
  destruct (grow3_ok L σ1 (set_indirect2 self p) n0 n1 t3 rest (Z.max (Z.max n0 155) (Z.min n1 16539) - 155))
    as (p3 & t3' & used3 & rest3 & σ2 & -> & Hrun3 & Hrep3' & Hp3 & Hg3);
    [lia|done|lia|lia|apply Hg|by eapply level_rep_frame; [apply Hg|done|]|done|done| |].
  { unfold wt, zlen in *. rewrite length_app in Hw. lia. }
  exists p, p3, t2', t3', (used ++ used3), rest3, σ2.
  split_and!; [by rewrite app_assoc| | |done|lia|done|eapply grows_app; [done|done|]].
  - simpl negb. cbv iota.
    apply (runs_level_root L σ σ2 self set_indirect2 indirect2 _ p _ bl'
      (fun self new_blocks => let* (current_blocks, new_blocks) := fill_indirect2 (indirect2 self)
          (w32 (cur - 128)) (w32 (n1 - 27 - 128)) new_blocks in
        grow3 self current_blocks (w32 (n1 - 27 - 128)) new_blocks)).
    + apply set_indirect2_id.
    + destruct Hcase as [[? ->]|(? & -> & ->)]; [left|right]; (split; [|done]).
      * apply Z.eqb_eq. lia.
      * apply Z.eqb_neq. lia.
    + rewrite !w32_small by lia. cbn [indirect2 set_indirect2].
      replace (cur - 128) with (Z.max n0 155 - 155) by lia.
      replace (n1 - 27 - 128) with (n1 - 155) by lia.
      eapply runs_bind; [exact Hrun|exact Hrun3].
  - eapply level_rep_frame; [apply Hg3| |done]. eapply grows_disjoint'; [|exact Hg3]. done.
  - destruct (decide (16539 <= n0)).
    + left. eapply (level_leaves_full σ σ1); [lia|done|done|apply Hg|rewrite cap_2; lia].
    + right. apply no_leaves. lia.
Qed.

(** The blocks, the leaves and the indirect blocks of the three trees. *)
Record Trees := mkTrees { tree1 : tree; tree2 : tree; tree3 : tree }.

Definition tree_blocks (n : Z) (T : Trees) : list Z :=
  level_blocks 1 27 n (tree1 T) ++ level_blocks 2 155 n (tree2 T) ++ level_blocks 3 16539 n (tree3 T).
Definition tree_leaves (n : Z) (T : Trees) : list Z :=
  level_leaves 1 27 n (tree1 T) ++ level_leaves 2 155 n (tree2 T) ++ level_leaves 3 16539 n (tree3 T).
Definition tree_indexes (n : Z) (T : Trees) : list Z :=
  level_indexes 1 27 n (tree1 T) ++ level_indexes 2 155 n (tree2 T) ++ level_indexes 3 16539 n (tree3 T).
Definition tree_weight (n : Z) : Z :=
  level_weight 1 27 n + (level_weight 2 155 n + level_weight 3 16539 n).

Definition trees_rep (σ : gmap Z (list byte)) (n : Z) (di : DiskInode) (T : Trees) : Prop :=
  level_rep σ 1 27 n (indirect1 di) (tree1 T) /\ level_rep σ 2 155 n (indirect2 di) (tree2 T) /\
  level_rep σ 3 16539 n (indirect3 di) (tree3 T).

Definition set_roots (di : DiskInode) (p1 p2 p3 : Z) : DiskInode :=
  set_indirect3 (set_indirect2 (set_indirect1 di p1) p2) p3.

Lemma grow1_ok L σ self n0 n1 T bl cur :
  0 <= n0 <= n1 -> n1 <= MAX_BLOCKS -> (27 < n1 -> cur = Z.max n0 27) -> blocks_ok σ ->
  trees_rep σ n0 self T -> avail σ L (tree_blocks n0 T ++ bl) ->
  Z.of_nat (base.size L) + 3 <= BLOCK_CACHE_SIZE -> tree_weight n1 - tree_weight n0 <= zlen bl ->
  exists p1 p2 p3 T' used rest σ', bl = used ++ rest /\
    runs L σ (grow1 self cur n1 bl) (set_roots self p1 p2 p3) σ' /\
    trees_rep σ' n1 (set_roots self p1 p2 p3) T' /\
    (n1 <= 27 -> p1 = indirect1 self) /\ (n1 <= 155 -> p2 = indirect2 self) /\
    (n1 <= 16539 -> p3 = indirect3 self) /\
    grows σ σ' (tree_leaves n0 T) (tree_leaves n1 T') (tree_blocks n0 T) (tree_blocks n1 T')
      (tree_indexes n1 T') used.
Proof.
  intros Hn Hmax Hcur Hok (Hrep1 & Hrep2 & Hrep3) Hav HL Hw. unfold grow1.
  change INODE_DIRECT_COUNT with 27. destruct T as [t1 t2 t3]. simpl in Hrep1, Hrep2, Hrep3.
  destruct (Z.gtb_spec n1 27) as [Hgt|Hle].
  2: { destruct (level_absent σ 1 27 n0 n1 (indirect1 self) t1) as [Hr1 Hg1]; [lia|done|].
       destruct (levels_absent σ n0 n1 (indirect2 self) (indirect3 self) t2 t3) as (Hr2 & Hr3 & Hg); [lia|done|].
       exists (indirect1 self), (indirect2 self), (indirect3 self), (mkTrees t1 t2 t3), [], bl, σ.
       unfold set_roots. rewrite set_indirect1_id, set_indirect2_id, set_indirect3_id. split_and!; [done|apply runs_ret|done..|].
       eapply (grows_app _ _ _ _ _ _ _ _ [] _ _ _ _ _ []); [done..|]. right. by rewrite !no_leaves by lia. }
  specialize (Hcur ltac:(lia)). change MAX_BLOCKS with 2113691 in Hmax.
  pose proof (level_weight_mono 2 155 n0 n1 ltac:(lia)). pose proof (level_weight_mono 3 16539 n0 n1 ltac:(lia)).
  destruct (level_grow 1 27 n0 n1 (indirect1 self) t1 L σ bl (Z.max (Z.max n0 27) (Z.min n1 155) - 27)
    (fun p bl => fill_indirect1 p (Z.max n0 27 - 27) (n1 - 27) bl))
    as (p & bl' & t1' & used & rest & σ1 & Hcase & -> & Hrun & Hrep1' & Hg); [lia|lia|done|done| |unfold tree_weight in Hw; lia| |].
  { eapply (avail_app_l _ _ _ (level_blocks 2 155 n0 t2 ++ level_blocks 3 16539 n0 t3)), avail_perm; [|exact Hav].
    unfold tree_blocks. cbn [tree1 tree2 tree3]. solve_Permutation. }
  { intros. apply fill1_fills; [lia|lia|done..]. }
  destruct (grows_disjoint _ _ _ _ _ _ _ _ _ _ _ Hav Hg) as (Hav3 & Hav23 & Hdis).
  cbn [tree1 tree2 tree3] in *.
  pose proof (grows_level_weight _ _ _ _ _ _ _ _ _ _ _ _ _ Hrep1 Hrep1' _ Hg) as Hu.
  destruct (grow2_ok L σ1 (set_indirect1 self p) n0 n1 t2 t3 rest (Z.max (Z.max n0 27) (Z.min n1 155) - 27))
    as (p2 & p3 & t2' & t3' & used2 & rest2 & σ2 & -> & Hrun2 & Hrep2' & Hrep3' & Hp2 & Hp3 & Hg2);
    [lia|done|lia|lia|apply Hg| | |done|done| |].
  { eapply level_rep_frame; [apply Hg| |done]. intros. apply Hdis. set_solver. }
  { eapply level_rep_frame; [apply Hg| |done]. intros. apply Hdis. set_solver. }
  { unfold tree_weight, zlen in *. rewrite length_app in Hw. lia. }
  exists p, p2, p3, (mkTrees t1' t2' t3'), (used ++ used2), rest2, σ2.
  split_and!; [by rewrite app_assoc| |split_and!; [|done|done]|lia|done|done|eapply grows_app; [done|done|]].
  - simpl negb. cbv iota.
    apply (runs_level_root L σ σ2 self set_indirect1 indirect1 _ p _ bl'
      (fun self new_blocks => let* (current_blocks, new_blocks) := fill_indirect1 (indirect1 self)
          (w32 (cur - 27)) (w32 (n1 - 27)) new_blocks in
        grow2 self current_blocks (w32 (n1 - 27)) new_blocks)).
    + apply set_indirect1_id.
    + destruct Hcase as [[? ->]|(? & -> & ->)]; [left|right]; (split; [|done]).
      * apply Z.eqb_eq. lia.
      * apply Z.eqb_neq. lia.
    + rewrite !w32_small by lia. cbn [indirect1 set_indirect1]. rewrite Hcur.
      eapply runs_bind; [exact Hrun|exact Hrun2].
  - eapply level_rep_frame; [apply Hg2| |done]. eapply grows_disjoint'; [|exact Hg2]. done.
  - destruct (decide (155 <= n0)).
    + left. eapply (level_leaves_full σ σ1); [lia|done|done|apply Hg|change (cap 1) with 128; lia].
    + right. by rewrite !no_leaves by lia.
Qed.

(** ** The direct blocks *)
Lemma take_min_length n (d : list Z) :
  length d = 27%nat -> take (Z.to_nat n) d = take (Z.to_nat (Z.min n 27)) d.
Proof.
  intros Hd. destruct (decide (n <= 27)); [by rewrite Z.min_l by lia|].
  rewrite !take_ge by lia. done.
Qed.

Lemma fill_direct_loop L σ total m : forall fuel self k bl,
  0 <= k <= m -> m = Z.min total 27 -> m - k <= zlen bl -> length (direct self) = 27%nat ->
  (Z.to_nat (m - k) < fuel)%nat ->
  exists used rest, bl = used ++ rest /\ zlen used = m - k /\
    runs (St := St) L σ (while fuel
        (fun '(self, current_blocks, _) => current_blocks <? Z.min total INODE_DIRECT_COUNT)
        (fun '(self, current_blocks, new_blocks) =>
           let* (b, new_blocks) := lift (next_unwrap new_blocks) in
           let* d := lift (index_set (direct self) current_blocks b) in
           ret (set_direct self d, w32 (current_blocks + 1), new_blocks))
        (self, k, bl))
      (set_direct self (splice (direct self) (Z.to_nat k) used), m, rest) σ.
Proof.
  change INODE_DIRECT_COUNT with 27.
  induction fuel as [|fuel IH]; intros self k bl Hk Hm Hbl Hlen Hf; [lia|].
  destruct (decide (k = m)) as [->|].
  { exists [], bl. split_and!; [done|unfold zlen; simpl; lia|]. rewrite splice_nil.
    replace (set_direct self (direct self)) with self by (by destruct self).
    apply runs_while_done. apply Z.ltb_ge. lia. }
  destruct bl as [|b bl]; [unfold zlen in Hbl; simpl in Hbl; lia|].
  destruct (IH (set_direct self (<[Z.to_nat k := b]> (direct self))) (k + 1) bl) as (used & rest & -> & Hu & Hrun);
    [lia|done|unfold zlen in *; simpl in Hbl; lia|by simpl; rewrite length_insert|lia|].
  exists (b :: used), rest. split_and!; [done|unfold zlen in *; simpl; lia|].
  eapply runs_while_step; [apply Z.ltb_lt; lia| |].
  - eapply runs_bind_lift; [done|]. simpl.
    eapply runs_bind_lift; [apply index_set_Ok; unfold zlen; lia|]. apply runs_ret.
  - rewrite w32_small by lia. rewrite Z2Nat.inj_add, Nat.add_1_r in Hrun by lia. cbn [direct set_direct] in Hrun.
    rewrite splice_snoc in Hrun; [exact Hrun|]. unfold zlen in Hu. lia.
Qed.

Lemma fill_direct_ok L σ self n0 n1 bl :
  0 <= n0 <= n1 -> Z.min n1 27 - Z.min n0 27 <= zlen bl -> length (direct self) = 27%nat ->
  exists d used rest, bl = used ++ rest /\ length d = 27%nat /\
    zlen used = Z.min n1 27 - Z.min n0 27 /\
    take (Z.to_nat n1) d = take (Z.to_nat n0) (direct self) ++ used /\
    (forall P, Forall P (direct self) -> Forall P used -> Forall P d) /\
    runs (St := St) L σ (fill_direct self n0 n1 bl) (set_direct self d, Z.max n0 (Z.min n1 27), rest) σ.
Proof.
  intros Hn Hbl Hlen. set (k := Z.min n0 27) in *. set (m := Z.min n1 27) in *.
  destruct (fill_direct_loop L σ n1 m (S (Z.to_nat INODE_DIRECT_COUNT)) self k bl)
    as (used & rest & -> & Hu & Hrun); [lia|done|done|done|change INODE_DIRECT_COUNT with 27; lia|].
  exists (splice (direct self) (Z.to_nat k) used), used, rest.
  assert (Hsp : (Z.to_nat k + length used <= length (direct self))%nat) by (unfold zlen in Hu; lia).
  split_and!; [done|by rewrite splice_length|done| | |].
  - rewrite (take_min_length n1), (take_min_length n0) by (done || by rewrite splice_length). fold k m.
    unfold splice. replace (Z.to_nat m) with (length (take (Z.to_nat k) (direct self)) + length used)%nat
      by (unfold zlen in Hu; rewrite length_take; lia).
    rewrite take_app_add, take_app_le, firstn_all by lia. done.
  - intros P HP HPu. unfold splice. repeat apply Forall_app_2; [by apply Forall_take|done|by apply Forall_drop].
  - unfold fill_direct. destruct (decide (n0 <= 27)) as [Hle|].
    + replace k with n0 in * by lia. replace (Z.max n0 m) with m by lia. exact Hrun.
    + assert (used = []) as -> by (apply length_zero_iff_nil; unfold zlen in Hu; lia).
      rewrite splice_nil. replace (Z.max n0 m) with n0 by lia.
      replace (set_direct self (direct self)) with self by (by destruct self).
      apply runs_while_done, Z.ltb_ge. change INODE_DIRECT_COUNT with 27. lia.
Qed.

End Level.
