(* ===== verification/InodeOps.v ===== *)
(** * Operations on the blocks of a file ([get_block_id], [increase_size],
    [clear_size], [total_blocks] and [blocks_num_needed] of layout.rs) *)

From S2P Require Import Prelude BlockDev BlockStore Layout Tree BuildTree TreeOps ClearTree Inode.

(** The data blocks of a file, in order, and all the blocks it owns. *)
Definition data_ids (n : Z) (di : DiskInode) (T : Trees) : list Z :=
  take (Z.to_nat n) (direct di) ++ tree_leaves n T.
Definition owned (n : Z) (di : DiskInode) (T : Trees) : list Z :=
  take (Z.to_nat n) (direct di) ++ tree_blocks n T.

(** The inode [di] stands for a file of [n] data blocks. *)
Record inode_rep (σ : gmap Z (list byte)) (di : DiskInode) (n : Z) (T : Trees) : Prop := {
  rep_direct : length (direct di) = 27%nat;
  rep_words : Forall (fun z => 0 <= z < 2 ^ 32) (direct di);
  rep_count : 0 <= n <= MAX_BLOCKS;
  rep_trees : trees_rep σ n di T;
}.

Definition MAX_SIZE : Z := MAX_BLOCKS * BLOCK_SZ.

(** The number of blocks of a file of [n] data blocks. *)
Definition file_weight (n : Z) : Z := Z.min n 27 + tree_weight n.

Lemma data_blocks_ceil size : 0 <= size <= MAX_SIZE -> _data_blocks size = ceil_div size 512.
Proof.
  change MAX_SIZE with 1082209792. intros. unfold _data_blocks, ceil_div. change BLOCK_SZ with 512.
  rewrite (w32_small (size + 512)) by lia. rewrite w32_small by lia. done.
Qed.

Lemma data_blocks_range size : 0 <= size <= MAX_SIZE -> 0 <= _data_blocks size <= MAX_BLOCKS.
Proof.
  intros Hs. rewrite data_blocks_ceil by done. change MAX_SIZE with (2113691 * 512) in Hs.
  change MAX_BLOCKS with 2113691. unfold ceil_div. dlia.
Qed.

Lemma level_weight_1 n : level_weight 1 27 n = if 27 <? n then 1 + Z.min (n - 27) 128 else 0.
Proof.
  unfold level_weight, level_count, clamp. destruct (Z.ltb_spec 27 n); [|done].
  change (cap 1) with 128. rewrite weight_closed by (change (cap 1) with 128; lia). simpl. lia.
Qed.

Lemma level_weight_2 n : level_weight 2 155 n =
  if 155 <? n then 1 + (ceil_div (Z.min (n - 155) 16384) 128 + Z.min (n - 155) 16384) else 0.
Proof.
  unfold level_weight, level_count, clamp. destruct (Z.ltb_spec 155 n); [|done]. rewrite cap_2.
  rewrite Z.max_r by lia. rewrite weight_closed by (rewrite cap_2; lia). done.
Qed.

Lemma level_weight_3 n : n <= MAX_BLOCKS -> level_weight 3 16539 n =
  if 16539 <? n
  then 1 + (ceil_div (n - 16539) 16384 + (ceil_div (n - 16539) 128 + (n - 16539))) else 0.
Proof.
  change MAX_BLOCKS with (16539 + 2097152). intros Hmax. assert (Ec : cap 3 = 2097152) by done.
  unfold level_weight, level_count, clamp. destruct (Z.ltb_spec 16539 n); [|done].
  rewrite Ec, Z.min_l, Z.max_r by lia. rewrite weight_closed by (rewrite Ec; lia). done.
Qed.

Lemma total_blocks_weight size : 0 <= size <= MAX_SIZE ->
  total_blocks size = file_weight (_data_blocks size).
Proof.
  intros Hs. pose proof (data_blocks_range size Hs) as Hn. unfold total_blocks, file_weight, tree_weight.
  set (n := _data_blocks size) in *. clearbody n. rewrite level_weight_1, level_weight_2, level_weight_3 by lia.
  change MAX_BLOCKS with 2113691 in Hn. change INODE_DIRECT_COUNT with 27.
  change INDIRECT1_BOUND with 155. change INDIRECT2_BOUND with 16539.
  change INODE_INDIRECT1_COUNT with 128. change INODE_INDIRECT2_COUNT with 16384. unfold ceil_div.
  rewrite !Z.gtb_ltb.
  destruct (Z.ltb_spec 27 n), (Z.ltb_spec 155 n), (Z.ltb_spec 16539 n); try lia;
    rewrite w32_small; dlia.
Qed.

Lemma tree_weight_mono n m : n <= m -> tree_weight n <= tree_weight m.
Proof.
  intros. unfold tree_weight. pose proof (level_weight_mono 1 27 n m). pose proof (level_weight_mono 2 155 n m).
  pose proof (level_weight_mono 3 16539 n m). lia.
Qed.

Lemma data_blocks_mono a b : 0 <= a <= b -> b <= MAX_SIZE -> _data_blocks a <= _data_blocks b.
Proof. intros. rewrite !data_blocks_ceil by lia. apply ceil_div_le; lia. Qed.

Lemma owned_length σ di n T : inode_rep σ di n T -> zlen (owned n di T) = file_weight n.
Proof.
  intros [Hd _ Hn (H1 & H2 & H3)]. apply level_blocks_length in H1, H2, H3.
  unfold owned, file_weight, tree_weight, tree_blocks, zlen in *. rewrite !length_app, length_take. lia.
Qed.

Lemma file_weight_range n : 0 <= n <= MAX_BLOCKS -> 0 <= file_weight n < 2 ^ 32.
Proof.
  intros Hn. unfold file_weight, tree_weight. rewrite level_weight_1, level_weight_2, level_weight_3 by lia.
  change MAX_BLOCKS with 2113691 in Hn. unfold ceil_div.
  destruct (Z.ltb_spec 27 n), (Z.ltb_spec 155 n), (Z.ltb_spec 16539 n); dlia.
Qed.

(** The subtraction of [blocks_num_needed] does not wrap. *)
Lemma blocks_num_needed_weight di new_size :
  0 <= size di <= new_size -> new_size <= MAX_SIZE ->
  blocks_num_needed di new_size = Ok (file_weight (_data_blocks new_size) - file_weight (data_blocks di)).
Proof.
  intros Hs Hmax. unfold blocks_num_needed, data_blocks. rewrite Z.geb_leb, (proj2 (Z.leb_le _ _)) by lia.
  rewrite !total_blocks_weight by lia. rewrite w32_small; [done|].
  pose proof (data_blocks_range new_size ltac:(lia)) as Hr1.
  pose proof (data_blocks_range (size di) ltac:(lia)) as Hr0.
  pose proof (data_blocks_mono (size di) new_size ltac:(lia) ltac:(lia)) as Hle.
  pose proof (file_weight_range _ Hr1). pose proof (file_weight_range _ Hr0).
  pose proof (tree_weight_mono _ _ Hle). unfold file_weight in *. lia.
Qed.

(** The pointers to trees that are not reached keep their values. *)
Definition kept_roots (n : Z) (di di' : DiskInode) : Prop :=
  (n <= 27 -> indirect1 di' = indirect1 di) /\ (n <= 155 -> indirect2 di' = indirect2 di) /\
  (n <= 16539 -> indirect3 di' = indirect3 di).

Definition roots_u32 (di : DiskInode) : Prop :=
  Forall (fun z => 0 <= z < 2 ^ 32) [indirect1 di; indirect2 di; indirect3 di].

Lemma roots_u32_spec di : roots_u32 di <->
  0 <= indirect1 di < 2 ^ 32 /\ 0 <= indirect2 di < 2 ^ 32 /\ 0 <= indirect3 di < 2 ^ 32.
Proof. unfold roots_u32. rewrite !Forall_cons. naive_solver. Qed.

Section Ops.
Context {St : Type} `{BlockStoreSpec St}.

(** ** Growing *)
Lemma increase_size_grows L σ di T new_size bl :
  let n0 := data_blocks di in let n1 := _data_blocks new_size in
  inode_rep σ di n0 T -> 0 <= size di <= new_size -> new_size <= MAX_SIZE -> blocks_ok σ ->
  avail σ L (owned n0 di T ++ bl) -> Z.of_nat (base.size L) + 3 <= BLOCK_CACHE_SIZE ->
  file_weight n1 - file_weight n0 <= zlen bl ->
  exists di' T' used rest σ', bl = used ++ rest /\
    runs (St := St) L σ (increase_size di new_size bl) di' σ' /\
    size di' = new_size /\ type_ di' = type_ di /\ inode_rep σ' di' n1 T' /\
    kept_roots n1 di di' /\
    grows σ σ' (data_ids n0 di T) (data_ids n1 di' T') (owned n0 di T) (owned n1 di' T')
      (tree_indexes n1 T') used.
Proof.
  intros n0 n1 [Hd Hwd Hcnt Htr] Hsz Hmax Hok Hav HL Hw.
  pose proof (data_blocks_mono (size di) new_size Hsz Hmax) as Hn.
  pose proof (data_blocks_range new_size ltac:(lia)) as Hr. fold n1 in Hn, Hr.
  change (_data_blocks (size di)) with n0 in Hn. pose proof (tree_weight_mono n0 n1 Hn) as Hwt.
  unfold file_weight in Hw.
  destruct (fill_direct_ok L σ (set_size di new_size) n0 n1 bl) as (d & usedD & rest & -> & Hdl & Hu & Hdt & HdP & Hrun);
    [lia|lia|done|]. cbn [direct set_size] in *.
  assert (HuP : Forall (fun z => 0 <= z < 2 ^ 32) usedD).
  { apply avail_words in Hav. rewrite !Forall_app in Hav. apply Hav. }
  assert (GD : grows σ σ (take (Z.to_nat n0) (direct di)) (take (Z.to_nat n1) d)
      (take (Z.to_nat n0) (direct di)) (take (Z.to_nat n1) d) [] usedD).
  { rewrite Hdt. split; try done; [by eexists|]. intros b Hb. by apply not_elem_of_nil in Hb. }
  destruct (grows_disjoint _ _ _ _ _ _ _ _ _ _ _ Hav GD) as (HavT & _ & _).
  destruct (grow1_ok L σ (set_direct (set_size di new_size) d) n0 n1 T rest (Z.max n0 (Z.min n1 27)))
    as (p1 & p2 & p3 & T' & used & rest' & σ' & -> & Hrun1 & Htr' & Hp1 & Hp2 & Hp3 & Hg); [lia|lia|lia|done|done|done|done| |].
  { unfold zlen in *. rewrite length_app in Hw. lia. }
  exists (set_roots (set_direct (set_size di new_size) d) p1 p2 p3), T', (usedD ++ used), rest', σ'.
  split_and!; [by rewrite app_assoc| |done|done|split; [done|by apply HdP|lia|done]|done|].
  - rewrite increase_size_stages. eapply runs_bind; [exact Hrun|exact Hrun1].
  - apply (grows_app _ _ _ _ _ _ _ [] _ _ _ _ _ _ _ GD Hg). destruct (decide (27 <= n0)).
    + left. rewrite Hdt. assert (usedD = []) as -> by (apply length_zero_iff_nil; unfold zlen in Hu; lia).
      by rewrite app_nil_r.
    + right. unfold tree_leaves. by rewrite !no_leaves by lia.
Qed.

(** ** Looking a data block up *)
Lemma avail_lockable σ L bs b :
  avail σ L bs -> b ∈ bs -> Z.of_nat (base.size L) < BLOCK_CACHE_SIZE -> lockable L b.
Proof. intros Hav Hb HL. split; [by apply Hav|done]. Qed.

(** One step down a tree. *)
Lemma runs_down {A} L σ h n t k (f : Z -> cmd St A) a :
  blocks_ok σ -> Z.of_nat (base.size L) < BLOCK_CACHE_SIZE -> trep σ (S h) n t ->
  avail σ L (preorder (S h) t) -> 0 <= k < n ->
  (forall c, trep σ h (share n h (Z.to_nat (k / cap h))) c -> avail σ L (preorder h c) ->
     0 <= k mod cap h < share n h (Z.to_nat (k / cap h)) ->
     leaves (S h) t !! Z.to_nat k = leaves h c !! Z.to_nat (k mod cap h) -> runs L σ (f (root c)) a σ) ->
  runs L σ (let* x := read_entry (root t) (k / cap h) in f x) a σ.
Proof.
  intros Hok HL Ht Hav Hk Hf.
  destruct (leaves_child σ h n t k Ht Hk) as (ents & c & Hents & He & Hc & Hm & Hlv & Hin).
  eapply runs_bind.
  - eapply runs_read_entry; [done| |done| |done].
    + eapply avail_lockable; [done|apply root_preorder|done].
    + apply Z.div_pos; [lia|apply cap_pos].
  - apply Hf; [done| |done|done].
    change (preorder (S h) t) with ([root t] ++ blocks_of h (children t)) in Hav.
    apply list_elem_of_split in Hin as (l1 & l2 & El). rewrite El in Hav.
    change (c :: l2) with ([c] ++ l2) in Hav. apply avail_app_r in Hav.
    rewrite !blocks_of_app, blocks_of_one in Hav. by apply avail_app_r, avail_app_l in Hav.
Qed.

(** The last step, to the data block. *)
Lemma runs_leaf L σ n t k x :
  blocks_ok σ -> Z.of_nat (base.size L) < BLOCK_CACHE_SIZE -> trep σ 1 n t ->
  avail σ L (preorder 1 t) -> 0 <= k < n -> leaves 1 t !! Z.to_nat k = Some x ->
  runs (St := St) L σ (read_entry (root t) k) x σ.
Proof.
  intros Hok HL Ht Hav Hk Hx. pose proof Ht as (ents & Hents & _).
  rewrite (leaves_entries _ _ _ _ Ht Hents), lookup_take_lt in Hx by lia.
  eapply runs_read_entry; [done| |done|lia|done].
  eapply avail_lockable; [done|apply root_preorder|done].
Qed.

Lemma level_leaves_length σ h lo n ptr t :
  (0 < h)%nat -> level_rep σ h lo n ptr t -> zlen (level_leaves h lo n t) = level_count h lo n.
Proof.
  intros Hh Hrep. unfold level_leaves. destruct (Z.ltb_spec lo n) as [Hlo|].
  - destruct (Hrep Hlo) as [_ Ht]. eapply leaves_length; [done|by left].
  - unfold level_count, clamp. pose proof (cap_pos h). change (zlen []) with 0. lia.
Qed.

Lemma level_leaves_eq h lo n t : lo < n -> level_leaves h lo n t = leaves h t.
Proof. intros. unfold level_leaves. by rewrite (proj2 (Z.ltb_lt lo n)). Qed.

Lemma lookup_zlen {A} (l : list A) k : 0 <= k < zlen l -> exists x, l !! Z.to_nat k = Some x.
Proof. intros. apply lookup_lt_is_Some_2. unfold zlen in *. lia. Qed.

(** A data block of a level, by its position. *)
Lemma data_ids_lookup σ di n T k :
  inode_rep σ di n T -> 0 <= k < n ->
  data_ids n di T !! Z.to_nat k =
    if k <? 27 then direct di !! Z.to_nat k
    else if k <? 155 then leaves 1 (tree1 T) !! Z.to_nat (k - 27)
    else if k <? 16539 then leaves 2 (tree2 T) !! Z.to_nat (k - 155)
    else leaves 3 (tree3 T) !! Z.to_nat (k - 16539).
Proof.
  intros [Hd _ Hn (H1 & H2 & H3)] Hk. unfold data_ids, tree_leaves.
  pose proof (level_leaves_length σ 1 _ n _ _ ltac:(lia) H1) as L1.
  pose proof (level_leaves_length σ 2 _ n _ _ ltac:(lia) H2) as L2.
  unfold level_count, clamp in L1, L2. rewrite cap_2 in L2. change (cap 1) with 128 in L1. unfold zlen in *.
  destruct (Z.ltb_spec k 27).
  { rewrite lookup_app_l by (rewrite length_take; lia). by rewrite lookup_take_lt by lia. }
  rewrite lookup_app_r by (rewrite length_take; lia). rewrite length_take.
  destruct (Z.ltb_spec k 155).
  { rewrite lookup_app_l by lia. rewrite level_leaves_eq by lia. f_equal. lia. }
  rewrite lookup_app_r by lia. destruct (Z.ltb_spec k 16539).
  { rewrite lookup_app_l by lia. rewrite (level_leaves_eq 2) by lia. f_equal. lia. }
  rewrite lookup_app_r by lia. rewrite (level_leaves_eq 3) by lia. f_equal. lia.
Qed.

Lemma owned_level σ L di n T :
  avail σ L (owned n di T) ->
  (27 < n -> avail σ L (preorder 1 (tree1 T))) /\ (155 < n -> avail σ L (preorder 2 (tree2 T))) /\
  (16539 < n -> avail σ L (preorder 3 (tree3 T))).
Proof.
  unfold owned, tree_blocks, level_blocks. intros Hav. apply avail_app_r in Hav.
  split_and!; intros Hn; rewrite (proj2 (Z.ltb_lt _ n) Hn) in Hav.
  - by apply avail_app_l in Hav.
  - by apply avail_app_r, avail_app_l in Hav.
  - by apply avail_app_r, avail_app_r in Hav.
Qed.

Lemma data_ids_length σ di n T : inode_rep σ di n T -> zlen (data_ids n di T) = n.
Proof.
  intros [Hd _ Hn (H1 & H2 & H3)]. unfold data_ids, tree_leaves.
  pose proof (level_leaves_length σ 1 _ n _ _ ltac:(lia) H1) as L1.
  pose proof (level_leaves_length σ 2 _ n _ _ ltac:(lia) H2) as L2.
  pose proof (level_leaves_length σ 3 _ n _ _ ltac:(lia) H3) as L3.
  change MAX_BLOCKS with (16539 + 2097152) in Hn. assert (cap 3 = 2097152) by done.
  unfold level_count, clamp in L1, L2, L3. rewrite cap_2 in L2. change (cap 1) with 128 in L1. unfold zlen in *.
  rewrite !length_app, length_take. lia.
Qed.

Lemma get_block_id_runs L σ di n T k :
  inode_rep σ di n T -> blocks_ok σ -> avail σ L (owned n di T) ->
  Z.of_nat (base.size L) < BLOCK_CACHE_SIZE -> 0 <= k < n ->
  exists id, data_ids n di T !! Z.to_nat k = Some id /\
    runs (St := St) L σ (get_block_id di k) id σ.
Proof.
  intros Hrep Hok Hav HL Hk. pose proof (data_ids_length _ _ _ _ Hrep) as Hlen.
  destruct (lookup_zlen (data_ids n di T) k ltac:(lia)) as [id Hid]. exists id. split; [done|].
  rewrite (data_ids_lookup _ _ _ _ _ Hrep Hk) in Hid.
  destruct (owned_level _ _ _ _ _ Hav) as (A1 & A2 & A3).
  destruct Hrep as [Hd _ Hn (H1 & H2 & H3)]. unfold get_block_id.
  change INODE_DIRECT_COUNT with 27. change INDIRECT1_BOUND with 155. change INDIRECT2_BOUND with 16539.
  change MAX_BLOCKS with (16539 + 2097152) in Hn.
  revert Hid. destruct (Z.ltb_spec k 27); [intros Hid; apply runs_lift, index_Ok; [lia|done]|].
  destruct (Z.ltb_spec k 155).
  { intros Hid. destruct H1 as [<- Ht]; [lia|]. eapply runs_leaf; [done|done|done|apply A1; lia| |done].
    unfold level_count, clamp. change (cap 1) with 128. lia. }
  change INODE_INDIRECT1_COUNT with (cap 1). destruct (Z.ltb_spec k 16539).
  { intros Hid. destruct H2 as [<- Ht]; [lia|]. eapply runs_down; [done|done|done|apply A2; lia| |].
    { unfold level_count, clamp. rewrite cap_2. lia. }
    intros c Hc Hac Hm Hlv. rewrite Hid in Hlv. by eapply runs_leaf. }
  change INODE_INDIRECT2_COUNT with (cap 2). intros Hid. destruct H3 as [<- Ht]; [lia|].
  eapply runs_down; [done|done|done|apply A3; lia| |].
  { unfold level_count, clamp. assert (Ec : cap 3 = 2097152) by done. rewrite Ec. lia. }
  intros c Hc Hac Hm Hlv. rewrite Hid in Hlv.
  eapply runs_down; [done|done|done|done|done|].
  intros c2 Hc2 Hac2 Hm2 Hlv2. rewrite <- Hlv in Hlv2. by eapply runs_leaf.
Qed.

(** ** Clearing *)
Lemma clear_direct_loop L σ total m : m = Z.min total 27 -> forall fuel self k v,
  Z.of_nat k <= m -> length (direct self) = 27%nat -> (Z.to_nat m - k < fuel)%nat ->
  exists d j, length d = 27%nat /\
    (forall P, Forall P (direct self) -> P 0 -> Forall P d) /\
    runs (St := St) L σ (while fuel
        (fun '(_, current_blocks, _) => current_blocks <? Z.min total INODE_DIRECT_COUNT)
        (fun '(self, current_blocks, v) =>
           let* b := lift (index (direct self) current_blocks) in
           let* d := lift (index_set (direct self) current_blocks 0) in
           ret (set_direct self d, current_blocks + 1, v ++ [b]))
        (self, Z.of_nat k, v))
      (set_direct self d, j, v ++ drop k (take (Z.to_nat m) (direct self))) σ.
Proof.
  change INODE_DIRECT_COUNT with 27. intros Hm.
  induction fuel as [|fuel IH]; intros self k v Hk Hlen Hf; [lia|].
  destruct (decide (Z.of_nat k = m)) as [Heq|Hne].
  { exists (direct self), (Z.of_nat k). split_and!; [done|done|].
    rewrite drop_ge by (rewrite length_take; lia). rewrite app_nil_r.
    replace (set_direct self (direct self)) with self by (by destruct self).
    apply runs_while_done, Z.ltb_ge. lia. }
  destruct (lookup_lt_is_Some_2 (direct self) k) as [b Hb]; [lia|].
  destruct (IH (set_direct self (<[k := 0]> (direct self))) (S k) (v ++ [b])) as (d & j & Hd & HP & Hrun);
    [lia|by simpl; rewrite length_insert|lia|].
  exists d, j. split_and!; [done| |].
  - intros P Hall H0'. apply HP; [|done]. by apply Forall_insert.
  - rewrite (drop_S _ b) by (by rewrite lookup_take_lt by lia).
    cbn [direct set_direct] in Hrun. rewrite take_insert_lt, drop_insert_lt, <- app_assoc in Hrun by lia.
    eapply runs_while_step; [apply Z.ltb_lt; lia| |exact Hrun].
    eapply runs_bind_lift; [apply index_Ok; [lia|by rewrite Nat2Z.id]|].
    eapply runs_bind_lift; [apply index_set_Ok; unfold zlen; lia|].
    rewrite Nat2Z.id. replace (Z.of_nat k + 1) with (Z.of_nat (S k)) by lia. apply runs_ret.
Qed.

Lemma clear_direct_ok L σ self n :
  0 <= n -> length (direct self) = 27%nat ->
  exists d, length d = 27%nat /\ (forall P, Forall P (direct self) -> P 0 -> Forall P d) /\
    runs (St := St) L σ (clear_direct self n) (set_direct self d, take (Z.to_nat n) (direct self)) σ.
Proof.
  intros Hn Hlen. destruct (clear_direct_loop L σ n (Z.min n 27) eq_refl
    (S (Z.to_nat INODE_DIRECT_COUNT)) self 0 []) as (d & j & Hd & HP & Hrun);
    [lia|done|change INODE_DIRECT_COUNT with 27; lia|].
  exists d. split_and!; [done|done|]. rewrite (take_min_length n) by done.
  eapply runs_bind; [exact Hrun|apply runs_ret].
Qed.

(** An inode emptied by [clear_size]: no size, and no pointer of its own. *)
Definition cleared (di di' : DiskInode) : Prop :=
  size di' = 0 /\ type_ di' = type_ di /\ length (direct di') = 27%nat /\
  Forall (fun z => 0 <= z < 2 ^ 32) (direct di') /\ (roots_u32 di -> roots_u32 di').

Lemma cleared_zero di d p1 p2 p3 :
  length d = 27%nat -> Forall (fun z => 0 <= z < 2 ^ 32) d ->
  p1 = 0 \/ p1 = indirect1 di -> p2 = 0 \/ p2 = indirect2 di -> p3 = 0 \/ p3 = indirect3 di ->
  cleared di (mkInode 0 d p1 p2 p3 (type_ di)).
Proof.
  intros Hd Hw H1 H2 H3. split_and!; [done..|]. rewrite !roots_u32_spec. simpl. intros (? & ? & ?).
  destruct H1 as [->| ->], H2 as [->| ->], H3 as [->| ->]; lia.
Qed.

(** The file is not too long for the assertion of [clear_size]. *)
Definition clearable (n : Z) : Prop := n <= INDIRECT1_BOUND + INODE_INDIRECT3_COUNT.

Lemma runs_push_level h L σ lo n ptr t v (m : Z -> list Z -> cmd St (list Z)) :
  lo < n -> level_rep σ h lo n ptr t ->
  (root t = ptr -> trep σ h (level_count h lo n) t -> collects h L σ t (v ++ [root t]) (m (root t) (v ++ [root t]))) ->
  runs L σ (m ptr (v ++ [ptr])) (v ++ level_blocks h lo n t) σ.
Proof.
  intros Hlo Hrep Hm. destruct (Hrep Hlo) as [Hr Ht]. specialize (Hm Hr Ht).
  unfold collects in Hm. rewrite <- app_assoc, cons_tail_preorder, Hr in Hm.
  unfold level_blocks. by rewrite (proj2 (Z.ltb_lt lo n)).
Qed.

Lemma no_blocks h lo n t : n <= lo -> level_blocks h lo n t = [].
Proof. intros. unfold level_blocks. by rewrite (proj2 (Z.ltb_ge lo n)) by lia. Qed.

Section ClearLevels.
Variables (L : gset Z) (σ : gmap Z (list byte)) (n ptr : Z) (t : tree) (v : list Z).
Hypothesis Hok : blocks_ok σ.
Hypothesis HL : Z.of_nat (base.size L) + 3 <= BLOCK_CACHE_SIZE.

Lemma clear_level1 : 27 < n -> level_rep σ 1 27 n ptr t -> avail σ L (preorder 1 t) ->
  runs (St := St) L σ (clear_indirect1 ptr (n - 27) (v ++ [ptr])) (v ++ level_blocks 1 27 n t) σ.
Proof.
  intros Hn Hrep Hav. apply (runs_push_level 1 L σ 27 n ptr t v (fun p v => clear_indirect1 p (n - 27) v)); [done..|].
  intros _ Ht. apply clear_indirect1_ok; [lia|done| |].
  - replace (Z.min (n - 27) 128) with (level_count 1 27 n); [done|].
    unfold level_count, clamp. change (cap 1) with 128. lia.
  - eapply avail_lockable; [done|apply root_preorder|lia].
Qed.

Lemma clear_level2 : 155 < n -> level_rep σ 2 155 n ptr t -> avail σ L (preorder 2 t) ->
  runs (St := St) L σ (clear_indirect2 ptr (n - 155) (v ++ [ptr])) (v ++ level_blocks 2 155 n t) σ.
Proof.
  intros Hn Hrep Hav. apply (runs_push_level 2 L σ 155 n ptr t v (fun p v => clear_indirect2 p (n - 155) v)); [done..|].
  intros _ Ht. apply clear_indirect2_ok; [lia|done| |done|lia].
  replace (Z.min (n - 155) 16384) with (level_count 2 155 n); [done|].
  unfold level_count, clamp. rewrite cap_2. lia.
Qed.

Lemma clear_level3 : 16539 < n <= MAX_BLOCKS -> level_rep σ 3 16539 n ptr t -> avail σ L (preorder 3 t) ->
  runs (St := St) L σ (let* (_, v) := collect_tree_blocks 3 (v ++ [ptr]) ptr 0 (n - 16539) 0 3 in ret v)
    (v ++ level_blocks 3 16539 n t) σ.
Proof.
  intros Hn Hrep Hav. apply (runs_push_level 3 L σ 16539 n ptr t v
    (fun p v => let* (_, v) := collect_tree_blocks 3 v p 0 (n - 16539) 0 3 in ret v)); [lia|done|].
  intros _ Ht. eapply runs_bind; [eapply (collect_tree_ok 3); [done|lia|done| |done|done]|apply runs_ret].
  by rewrite Z.sub_0_r.
Qed.
End ClearLevels.

Lemma runs_bind_fst {A B C} L σ σ' (m : cmd St (A * B)) (k : B -> cmd St C) b c :
  runs L σ (let* (_, y) := m in ret y) b σ -> runs L σ (k b) c σ' ->
  runs L σ (let* (_, y) := m in k y) c σ'.
Proof.
  intros Hm Hk s Hwf Hc Hh. destruct (Hm s Hwf Hc Hh) as (s' & E & ? & ? & ?).
  destruct (Hk s') as (s2 & E2 & ?); [done..|]. exists s2. split; [|done].
  unfold bind in *. destruct (m s) as [[[a b'] s1]|] eqn:Em; [|done].
  cbv [ret] in E. injection E as <- <-. exact E2.
Qed.

(** [m] empties [di] and returns the blocks [o]. *)
Definition clears (L : gset Z) (σ : gmap Z (list byte)) (di : DiskInode) (o : list Z)
    (m : cmd St (list Z * DiskInode)) : Prop :=
  exists di', cleared di di' /\ runs L σ m (o, di') σ.

Lemma clears_bind {A} L σ di o (m : cmd St A) a k :
  runs L σ m a σ -> clears L σ di o (k a) -> clears L σ di o (bind m k).
Proof. intros Hm (di' & Hc & Hk). exists di'. split; [done|]. by eapply runs_bind. Qed.

Lemma clears_ret L σ di o di' : cleared di di' -> clears L σ di o (ret (o, di')).
Proof. intros. exists di'. split; [done|apply runs_ret]. Qed.

Lemma clear_size_runs L σ di T :
  let n := data_blocks di in
  inode_rep σ di n T -> blocks_ok σ -> avail σ L (owned n di T) ->
  Z.of_nat (base.size L) + 3 <= BLOCK_CACHE_SIZE -> clearable n ->
  clears L σ di (owned n di T) (clear_size di).
Proof.
  intros n [Hd Hwd Hn (H1 & H2 & H3)] Hok Hav HL Hcl.
  destruct (owned_level _ _ _ _ _ Hav) as (A1 & A2 & A3). change (n <= 155 + 2097152) in Hcl.
  destruct (clear_direct_ok L σ (set_size di 0) n) as (d & Hdl & HdP & Hrun); [lia|done|].
  cbn [direct set_size] in HdP, Hrun. assert (HP : Forall (fun z => 0 <= z < 2 ^ 32) d) by (by apply HdP).
  unfold clear_size, owned, tree_blocks. fold n.
  change INODE_DIRECT_COUNT with 27. change INODE_INDIRECT1_COUNT with 128.
  change INODE_INDIRECT2_COUNT with 16384. change INODE_INDIRECT3_COUNT with 2097152.
  eapply clears_bind; [exact Hrun|]. cbv beta iota.
  destruct (Z.gtb_spec n 27); cbn [negb]; cbv iota.
  2: { rewrite !no_blocks, !app_nil_r by lia. by apply clears_ret, (cleared_zero di d (indirect1 di) (indirect2 di) (indirect3 di)); auto. }
  cbn [indirect1 set_direct set_size].
  eapply clears_bind; [apply clear_level1; [done|done|lia|done|apply A1; lia]|].
  destruct (Z.gtb_spec (n - 27) 128); cbn [negb]; cbv iota.
  2: { rewrite (no_blocks 2), (no_blocks 3), !app_nil_r by lia. by apply clears_ret, (cleared_zero di d 0 (indirect2 di) (indirect3 di)); auto. }
  cbn [indirect2 set_indirect1 set_direct set_size].
  replace (n - 27 - 128) with (n - 155) by lia.
  eapply clears_bind; [apply clear_level2; [done|done|lia|done|apply A2; lia]|].
  eapply clears_bind; [apply runs_assert, Z.leb_le; lia|].
  destruct (Z.gtb_spec (n - 155) 16384); cbn [negb]; cbv iota.
  2: { rewrite (no_blocks 3), !app_nil_r, <- app_assoc by lia. by apply clears_ret, (cleared_zero di d 0 0 (indirect3 di)); auto. }
  cbn [indirect3 set_indirect2 set_indirect1 set_direct set_size].
  replace (n - 155 - 16384) with (n - 16539) by lia. rewrite !app_assoc.
  eexists. split; [|eapply runs_bind_fst; [apply clear_level3; [done|done|lia|done|apply A3; lia]|apply runs_ret]].
  by apply (cleared_zero di d 0 0 0); auto.
Qed.

End Ops.
