(* ===== verification/FileData.v ===== *)
(** * The bytes of a file ([DiskInode::read_at] and [write_at] of layout.rs)

    A file is the concatenation of its data blocks.  Reading copies a range of
    it, whatever the block boundaries; writing overwrites a range and nothing
    else. *)

From S2P Require Import Prelude BlockDev BlockStore Layout Tree BuildTree TreeOps ClearTree Inode InodeOps.

(** The bytes of the blocks [ids], in order. *)
Definition bytes_of (σ : gmap Z (list byte)) (ids : list Z) : list byte :=
  concat ((fun b => default [] (σ !! b)) <$> ids).

Definition present (σ : gmap Z (list byte)) (ids : list Z) : Prop :=
  forall b, b ∈ ids -> is_Some (σ !! b).

Lemma bytes_of_length σ ids :
  blocks_ok σ -> present σ ids -> length (bytes_of σ ids) = (512 * length ids)%nat.
Proof.
  intros Hok. induction ids as [|i ids IH]; intros Hp; [done|].
  unfold bytes_of in *. csimpl. rewrite length_app, IH by (intros b Hb; apply Hp; by right).
  destruct (Hp i) as [b Hb]; [by left|]. rewrite Hb. simpl. rewrite (Hok _ _ Hb).
  change block_len with 512%nat. lia.
Qed.

Lemma bytes_of_app σ ids ids' : bytes_of σ (ids ++ ids') = bytes_of σ ids ++ bytes_of σ ids'.
Proof. unfold bytes_of. by rewrite fmap_app, concat_app. Qed.

Lemma bytes_of_ext σ σ' ids :
  (forall b, b ∈ ids -> σ' !! b = σ !! b) -> bytes_of σ' ids = bytes_of σ ids.
Proof.
  intros Hag. induction ids as [|i ids IH]; [done|]. unfold bytes_of in *. csimpl.
  rewrite Hag by (by left). f_equal. apply IH. intros. apply Hag. by right.
Qed.

Lemma bytes_of_split σ ids k id :
  ids !! k = Some id ->
  bytes_of σ ids = bytes_of σ (take k ids) ++ default [] (σ !! id) ++ bytes_of σ (drop (S k) ids).
Proof.
  intros Hk. rewrite <- (take_drop_middle ids k id Hk) at 1. by rewrite bytes_of_app.
Qed.

Section Segment.
Variables (σ : gmap Z (list byte)) (ids : list Z) (k : nat) (id : Z) (b : list byte).
Hypothesis Hok : blocks_ok σ.
Hypothesis Hp : present σ ids.
Hypothesis Hk : ids !! k = Some id.
Hypothesis Hb : σ !! id = Some b.

Lemma before_length : length (bytes_of σ (take k ids)) = (512 * k)%nat.
Proof.
  rewrite bytes_of_length; [|done|].
  - rewrite length_take. apply lookup_lt_Some in Hk. lia.
  - intros x Hx. apply Hp. apply elem_of_take in Hx as (? & ? & _). by eapply list_elem_of_lookup_2.
Qed.

(** A range inside one block. *)
Lemma bytes_of_segment o m : (o + m <= 512)%nat ->
  take m (drop (512 * k + o) (bytes_of σ ids)) = take m (drop o b).
Proof.
  intros Ho. rewrite (bytes_of_split σ ids k id Hk), Hb. change (default [] (Some b)) with b.
  rewrite <- before_length, drop_app_add.
  assert (length b = 512%nat) by (by apply (Hok id)).
  rewrite drop_app_le by lia. rewrite take_app_le; [done|]. rewrite length_drop. lia.
Qed.

(** Overwriting a range inside one block. *)
Lemma bytes_of_update o x : NoDup ids -> (o + length x <= 512)%nat ->
  bytes_of (<[id := splice b o x]> σ) ids = splice (bytes_of σ ids) (512 * k + o) x.
Proof.
  intros Hnd Ho. assert (Hlb : length b = 512%nat) by (by apply (Hok id)).
  rewrite (bytes_of_split _ ids k id Hk), (bytes_of_split σ ids k id Hk), lookup_insert_eq, Hb.
  change (default [] (Some b)) with b. change (default [] (Some ?x)) with x.
  pose proof before_length as Hpre.
  rewrite <- (take_drop_middle ids k id Hk) in Hnd. apply NoDup_app in Hnd as (_ & Hd & Hnd).
  apply NoDup_cons in Hnd as [Hni _].
  rewrite (bytes_of_ext σ (<[id := splice b o x]> σ) (take k ids))
    by (intros y Hy; apply lookup_insert_ne; intros <-; apply (Hd id Hy); by left).
  rewrite (bytes_of_ext σ (<[id := splice b o x]> σ) (drop (S k) ids))
    by (intros y Hy; apply lookup_insert_ne; by intros <-).
  unfold splice. rewrite <- Hpre, <- !app_assoc, take_app_add. 
  rewrite take_app_le by lia. rewrite <- Nat.add_assoc, drop_app_add.
  rewrite drop_app_le by lia. by rewrite <- !app_assoc.
Qed.

End Segment.

Lemma splice_splice {A} (l x y : list A) a :
  (a + length x + length y <= length l)%nat ->
  splice (splice l a x) (a + length x) y = splice l a (x ++ y).
Proof.
  intros Hl. unfold splice.
  rewrite take_app_add', take_app_length by (rewrite ?length_take; lia).
  rewrite !length_app. rewrite drop_app_ge by (rewrite length_take; lia).
  rewrite drop_app_ge by (rewrite length_take; lia). rewrite drop_drop, <- !app_assoc.
  do 3 f_equal. rewrite ?length_take. f_equal. lia.
Qed.

(** ** A file and its bytes *)
Definition file_bytes (σ : gmap Z (list byte)) (di : DiskInode) (T : Trees) : list byte :=
  bytes_of σ (data_ids (data_blocks di) di T).

Definition file_contents (σ : gmap Z (list byte)) (di : DiskInode) (T : Trees) : list byte :=
  take (Z.to_nat (size di)) (file_bytes σ di T).

(** An inode with its blocks, ready to be read and written under the locks [L]. *)
Record file_ok (L : gset Z) (σ : gmap Z (list byte)) (di : DiskInode) (T : Trees) : Prop := {
  fok_rep : inode_rep σ di (data_blocks di) T;
  fok_size : 0 <= size di <= MAX_SIZE;
  fok_blocks : blocks_ok σ;
  fok_avail : avail σ L (owned (data_blocks di) di T);
}.

Lemma level_perm h lo n t : level_blocks h lo n t ≡ₚ level_leaves h lo n t ++ level_indexes h lo n t.
Proof.
  unfold level_blocks, level_leaves, level_indexes. destruct (lo <? n); [apply preorder_perm|done].
Qed.

Lemma owned_perm n di T : owned n di T ≡ₚ data_ids n di T ++ tree_indexes n T.
Proof.
  unfold owned, data_ids, tree_blocks, tree_leaves, tree_indexes. rewrite !level_perm. solve_Permutation.
Qed.

Lemma trees_rep_frame σ σ' n di T (ws : list Z) :
  (forall b, b ∉ ws -> σ' !! b = σ !! b) -> (forall b, b ∈ tree_indexes n T -> b ∉ ws) ->
  trees_rep σ n di T -> trees_rep σ' n di T.
Proof.
  intros Hfr Hdis (H1 & H2 & H3). unfold tree_indexes, level_indexes in Hdis.
  split_and!; intros Hlo; [destruct (H1 Hlo) as [? Ht]|destruct (H2 Hlo) as [? Ht]|destruct (H3 Hlo) as [? Ht]];
    (split; [done|]); (eapply trep_frame; [|exact Ht]); intros b Hb; apply Hfr, Hdis;
    rewrite (proj2 (Z.ltb_lt _ n) Hlo); set_solver.
Qed.

Lemma inode_rep_frame σ σ' di n T (ws : list Z) :
  (forall b, b ∉ ws -> σ' !! b = σ !! b) -> (forall b, b ∈ tree_indexes n T -> b ∉ ws) ->
  inode_rep σ di n T -> inode_rep σ' di n T.
Proof. intros Hfr Hdis []. split; [done..|]. by eapply trees_rep_frame. Qed.

Section FileOk.
Context (L : gset Z) (σ : gmap Z (list byte)) (di : DiskInode) (T : Trees).
Hypothesis Hf : file_ok L σ di T.
Let n := data_blocks di.
Let ids := data_ids n di T.

Lemma ids_avail : avail σ L ids.
Proof. eapply avail_app_l, avail_perm; [apply owned_perm|apply Hf]. Qed.

Lemma ids_present : present σ ids.
Proof. intros b Hb. by apply ids_avail. Qed.

Lemma size_blocks : size di <= 512 * n < size di + 512.
Proof.
  unfold n, data_blocks. rewrite data_blocks_ceil by apply Hf. pose proof (fok_size _ _ _ _ Hf).
  unfold ceil_div. dlia.
Qed.

Lemma file_bytes_length : zlen (file_bytes σ di T) = 512 * n.
Proof.
  unfold zlen, file_bytes. rewrite bytes_of_length; [|apply Hf|apply ids_present].
  pose proof (data_ids_length _ _ _ _ (fok_rep _ _ _ _ Hf)) as Hl. fold n in Hl. unfold zlen in Hl. fold n. lia.
Qed.

(** Overwriting a data block keeps the file. *)
Lemma file_ok_data_write id b' :
  id ∈ ids -> length b' = block_len -> file_ok L (<[id := b']> σ) di T.
Proof.
  intros Hid Hb'. destruct Hf as [Hrep Hsz Hok Hav].
  assert (Hni : forall b, b ∈ tree_indexes n T -> b <> id).
  { intros b Hb ->. pose proof (avail_perm _ _ _ _ (owned_perm n di T) Hav) as Hav'.
    by eapply (avail_disjoint _ _ _ _ id Hav'). }
  split; [|done| |].
  - eapply (inode_rep_frame σ _ _ _ _ [id]); [| |done].
    + intros b Hb. apply lookup_insert_ne. set_solver.
    + intros b Hb. specialize (Hni b Hb). set_solver.
  - intros i b Hb. rewrite lookup_insert in Hb. case_decide; [by simplify_eq|by eapply Hok].
  - eapply avail_dom; [|done]. intros b Hb. rewrite lookup_insert. case_decide; eauto.
Qed.

End FileOk.

(** ** Growing a file *)
Lemma root_u32 σ L h lo n ptr ptr0 t :
  level_rep σ h lo n ptr t -> (lo < n -> avail σ L (preorder h t)) -> (n <= lo -> ptr = ptr0) ->
  0 <= ptr0 < 2 ^ 32 -> 0 <= ptr < 2 ^ 32.
Proof.
  intros Hrep Hav Hkept H0. destruct (decide (n <= lo)) as [Hle|]; [by rewrite (Hkept Hle)|].
  destruct Hrep as [<- _]; [lia|]. apply Hav; [lia|apply root_preorder].
Qed.

Lemma roots_u32_grown σ L n di di' T' :
  inode_rep σ di' n T' -> avail σ L (owned n di' T') -> kept_roots n di di' ->
  roots_u32 di -> roots_u32 di'.
Proof.
  intros [_ _ _ (H1 & H2 & H3)] Hav (K1 & K2 & K3). rewrite !roots_u32_spec. intros (R1 & R2 & R3).
  destruct (owned_level _ _ _ _ _ Hav) as (A1 & A2 & A3).
  pose proof (root_u32 _ _ _ _ _ _ _ _ H1 A1 K1 R1). pose proof (root_u32 _ _ _ _ _ _ _ _ H2 A2 K2 R2).
  pose proof (root_u32 _ _ _ _ _ _ _ _ H3 A3 K3 R3). done.
Qed.

Section Grow.
Context {St : Type} `{BlockStoreSpec St}.

Lemma increase_size_file L σ di T new_size bl :
  let n0 := data_blocks di in let n1 := _data_blocks new_size in
  file_ok L σ di T -> size di <= new_size <= MAX_SIZE ->
  Z.of_nat (base.size L) + 3 <= BLOCK_CACHE_SIZE ->
  avail σ L (owned n0 di T ++ bl) -> zlen bl = file_weight n1 - file_weight n0 ->
  exists di' T' σ', runs (St := St) L σ (increase_size di new_size bl) di' σ' /\
    size di' = new_size /\ type_ di' = type_ di /\ file_ok L σ' di' T' /\
    owned (data_blocks di') di' T' ≡ₚ owned n0 di T ++ bl /\
    (exists ext, (forall b, b ∈ ext -> b ∈ bl) /\ file_bytes σ' di' T' = file_bytes σ di T ++ bytes_of σ ext) /\
    (forall b, b ∉ tree_indexes (data_blocks di') T' -> σ' !! b = σ !! b) /\
    (forall b, is_Some (σ !! b) -> is_Some (σ' !! b)) /\ (roots_u32 di -> roots_u32 di').
Proof.
  intros n0 n1 Hf Hsz HL Hav Hbl. pose proof (fok_size _ _ _ _ Hf) as Hs0.
  destruct (increase_size_grows L σ di T new_size bl)
    as (di' & T' & used & rest & σ' & -> & Hrun & Hsz' & Hty & Hrep & Hkept & Hg);
    [apply Hf|lia|lia|apply Hf|done|done|fold n0 n1; lia|].
  assert (Hn' : data_blocks di' = n1) by (unfold data_blocks; by rewrite Hsz').
  fold n0 n1 in Hg, Hrep. destruct Hg as [G1 G2 _ G4 G5 G6 G7].
  assert (rest = []) as ->.
  { pose proof (owned_length _ _ _ _ Hrep) as Hl1. pose proof (owned_length _ _ _ _ (fok_rep _ _ _ _ Hf)) as Hl0.
    apply Permutation_length in G2. apply length_zero_iff_nil.
    unfold zlen in *. fold n0 in Hl0. rewrite length_app in *. lia. }
  rewrite app_nil_r in *.
  assert (Hav' : avail σ' L (owned n1 di' T')) by (apply (avail_dom σ); [done|]; apply (avail_perm _ _ (owned n0 di T ++ used)); done).
  exists di', T', σ'. rewrite Hn'. split_and!; [done|done|done| |done| |done|done|].
  - split; [by rewrite Hn'|lia|done|by rewrite Hn'].
  - unfold file_bytes. rewrite Hn'. fold n0. destruct G1 as [ext Hext]. exists ext.
    pose proof (avail_perm _ _ _ _ (owned_perm n1 di' T') Hav') as Hav2. split.
    + intros b Hb. assert (Hb' : b ∈ data_ids n1 di' T') by (rewrite Hext; set_solver).
      destruct (proj1 (elem_of_app _ _ _) (G7 b Hb')) as [Hold|]; [|done]. exfalso.
      destruct (avail_app_l _ _ _ _ Hav2) as [Hnd _]. rewrite Hext in Hnd.
      apply NoDup_app in Hnd as (_ & Hnd & _). by eapply Hnd.
    + rewrite <- bytes_of_app, <- Hext. apply bytes_of_ext. intros b Hb. apply G4. intros Hin.
      by apply (avail_disjoint _ _ _ _ b Hav2).
  - by eapply roots_u32_grown.
Qed.

End Grow.

(** ** Reading and writing *)
Section ReadWrite.
Context {St : Type} `{BlockStoreSpec St}.

(** The range of the file that lies in the block of [start]. *)
Lemma chunk_bounds start end_ : 0 <= start < end_ ->
  let e := Z.min ((start / BLOCK_SZ + 1) * BLOCK_SZ) end_ in
  start < e <= end_ /\ start mod 512 + (e - start) <= 512 /\ 0 <= start mod 512 /\
  start = 512 * (start / 512) + start mod 512 /\ (e <> end_ -> start / 512 + 1 = e / 512).
Proof. change BLOCK_SZ with 512. intros Hs e. unfold e. dlia. Qed.

(** The data block that holds [start]. *)
Lemma find_block L σ di T start :
  file_ok L σ di T -> Z.of_nat (base.size L) < BLOCK_CACHE_SIZE -> 0 <= start < size di ->
  exists id b, data_ids (data_blocks di) di T !! Z.to_nat (start / 512) = Some id /\ σ !! id = Some b /\
    length b = 512%nat /\ lockable L id /\
    runs (St := St) L σ (get_block_id di (w32 (start / BLOCK_SZ))) id σ.
Proof.
  intros Hf HL Hs. pose proof (size_blocks _ _ _ _ Hf) as Hn.
  destruct (fok_rep _ _ _ _ Hf) as [_ _ Hmax _]. change MAX_BLOCKS with 2113691 in Hmax.
  assert (Hk : 0 <= start / 512 < data_blocks di) by dlia.
  destruct (get_block_id_runs L σ di (data_blocks di) T (start / 512)) as (id & Hid & Hrun);
    [apply Hf|apply Hf|apply Hf|done|done|].
  pose proof (ids_avail _ _ _ _ Hf) as Hav.
  assert (Hin : id ∈ data_ids (data_blocks di) di T) by (by eapply list_elem_of_lookup_2).
  destruct (ids_present _ _ _ _ Hf id Hin) as [b Hb]. exists id, b.
  split_and!; [done|done|by eapply (fok_blocks _ _ _ _ Hf)|by eapply avail_lockable|].
  change BLOCK_SZ with 512. by rewrite w32_small by lia.
Qed.

Lemma read_loop_ok L σ di T end_ :
  file_ok L σ di T -> Z.of_nat (base.size L) < BLOCK_CACHE_SIZE -> end_ <= size di ->
  forall fuel start read_size buf,
  0 <= start < end_ -> 0 <= read_size -> read_size + (end_ - start) <= zlen buf ->
  end_ - start < Z.of_nat fuel ->
  runs (St := St) L σ (read_loop fuel di start end_ (start / BLOCK_SZ) read_size buf)
    (read_size + (end_ - start),
     splice buf (Z.to_nat read_size) (take (Z.to_nat (end_ - start)) (drop (Z.to_nat start) (file_bytes σ di T)))) σ.
Proof.
  intros Hf HL Hend. induction fuel as [|fuel IH]; intros start rs buf Hs Hrs Hfit Hfuel; [lia|].
  destruct (find_block L σ di T start Hf HL ltac:(lia)) as (id & b & Hid & Hb & Hlb & Hlk & Hget).
  destruct (chunk_bounds start end_ Hs) as (He & Hm & Hm0 & Hst & Hnext).
  cbn [read_loop]. set (e := Z.min ((start / BLOCK_SZ + 1) * BLOCK_SZ) end_) in *.
  change (start mod BLOCK_SZ) with (start mod 512).
  pose proof (file_bytes_length _ _ _ _ Hf) as Hlen. pose proof (size_blocks _ _ _ _ Hf).
  set (C := file_bytes σ di T) in *.
  assert (Hseg : take (Z.to_nat (e - start)) (drop (Z.to_nat start) C)
                 = take (Z.to_nat (e - start)) (drop (Z.to_nat (start mod 512)) b)).
  { rewrite <- (bytes_of_segment σ _ (Z.to_nat (start / 512)) id b (fok_blocks _ _ _ _ Hf)
      (ids_present _ _ _ _ Hf) Hid Hb) by lia. do 2 f_equal. dlia. }
  set (x := take (Z.to_nat (e - start)) (drop (Z.to_nat (start mod 512)) b)) in *.
  assert (Hx : length x = Z.to_nat (e - start)) by (unfold x; rewrite length_take, length_drop; lia).
  eapply runs_bind; [exact Hget|]. eapply runs_bind.
  { eapply runs_read_block; [done|done|done|done|done|].
    eapply runs_bind_lift; [apply slice_Ok; unfold zlen; lia|].
    replace (start mod 512 + (e - start) - start mod 512) with (e - start) by lia. fold x.
    apply runs_lift, copy_from_slice_Ok; unfold zlen in *; lia. }
  destruct (Z.eqb_spec e end_) as [Heq|Hne].
  - rewrite <- Heq at 1 2. rewrite Hseg. apply runs_ret.
  - change (start / BLOCK_SZ) with (start / 512). rewrite (Hnext Hne). change 512 with BLOCK_SZ at 1.
    assert (Hsl : zlen (splice buf (Z.to_nat rs) x) = zlen buf)
      by (unfold zlen in *; rewrite splice_length; lia).
    specialize (IH e (rs + (e - start)) (splice buf (Z.to_nat rs) x) ltac:(lia) ltac:(lia)
      ltac:(rewrite Hsl; lia) ltac:(lia)).
    replace (Z.to_nat (rs + (e - start))) with (Z.to_nat rs + length x)%nat in IH by lia.
    rewrite splice_splice in IH by (rewrite length_take, length_drop; unfold zlen in *; lia).
    replace (take (Z.to_nat (end_ - start)) (drop (Z.to_nat start) C))
      with (x ++ take (Z.to_nat (end_ - e)) (drop (Z.to_nat e) C)).
    + replace (rs + (end_ - start)) with (rs + (e - start) + (end_ - e)) by lia. exact IH.
    + rewrite <- Hseg. replace (drop (Z.to_nat e) C) with (drop (Z.to_nat (e - start)) (drop (Z.to_nat start) C))
        by (rewrite drop_drop; f_equal; lia).
      rewrite take_take_drop. f_equal. lia.
Qed.

Lemma write_loop_ok L di T end_ :
  Z.of_nat (base.size L) < BLOCK_CACHE_SIZE -> end_ <= size di ->
  forall fuel σ start ws buf,
  file_ok L σ di T ->
  0 <= start < end_ -> 0 <= ws -> ws + (end_ - start) <= zlen buf ->
  end_ - start < Z.of_nat fuel ->
  exists σ', runs (St := St) L σ (write_loop fuel di start end_ (start / BLOCK_SZ) ws buf)
      (ws + (end_ - start)) σ' /\
    file_ok L σ' di T /\
    file_bytes σ' di T = splice (file_bytes σ di T) (Z.to_nat start)
      (take (Z.to_nat (end_ - start)) (drop (Z.to_nat ws) buf)) /\
    (forall b, b ∉ data_ids (data_blocks di) di T -> σ' !! b = σ !! b).
Proof.
  intros HL Hend. induction fuel as [|fuel IH]; intros σ start ws buf Hf Hs Hws Hfit Hfuel; [lia|].
  destruct (find_block L σ di T start Hf HL ltac:(lia)) as (id & b & Hid & Hb & Hlb & Hlk & Hget).
  destruct (chunk_bounds start end_ Hs) as (He & Hm & Hm0 & Hst & Hnext).
  cbn [write_loop]. set (e := Z.min ((start / BLOCK_SZ + 1) * BLOCK_SZ) end_) in *.
  change (start mod BLOCK_SZ) with (start mod 512).
  pose proof (file_bytes_length _ _ _ _ Hf) as Hlen. pose proof (size_blocks _ _ _ _ Hf).
  set (x := take (Z.to_nat (e - start)) (drop (Z.to_nat ws) buf)).
  assert (Hx : length x = Z.to_nat (e - start))
    by (unfold x, zlen in *; rewrite length_take, length_drop; lia).
  set (b' := splice b (Z.to_nat (start mod 512)) x).
  assert (Hb' : length b' = block_len) by (unfold b'; rewrite splice_length; [done|lia]).
  assert (Hin : id ∈ data_ids (data_blocks di) di T) by (by eapply list_elem_of_lookup_2).
  pose proof (file_ok_data_write _ _ _ _ Hf id b' Hin Hb') as Hf1.
  assert (Hfb : file_bytes (<[id := b']> σ) di T = splice (file_bytes σ di T) (Z.to_nat start) x).
  { unfold file_bytes, b'. rewrite (bytes_of_update σ _ (Z.to_nat (start / 512)) id b
      (fok_blocks _ _ _ _ Hf) (ids_present _ _ _ _ Hf) Hid Hb); [f_equal; dlia| |lia].
    apply (ids_avail _ _ _ _ Hf). }
  assert (Hstep : runs (St := St) L σ (modify data_view id 0 (fun data_block =>
        let* src := lift (slice buf ws (ws + (e - start))) in
        let* data_block := lift (copy_from_slice data_block (start mod 512)
                                   (start mod 512 + (e - start)) src) in
        ret (tt, data_block))) tt (<[id := b']> σ)).
  { eapply (runs_modify_block _ _ _ data_view); [done|done|done|done|done|done|].
    eapply runs_bind_lift; [apply slice_Ok; lia|].
    replace (ws + (e - start) - ws) with (e - start) by lia. fold x.
    eapply runs_bind_lift; [apply copy_from_slice_Ok; unfold zlen; lia|apply runs_ret]. }
  assert (Hfr1 : forall y, y ∉ data_ids (data_blocks di) di T -> <[id := b']> σ !! y = σ !! y)
    by (intros y Hy; apply lookup_insert_ne; congruence).
  destruct (Z.eqb_spec e end_) as [Heq|Hne].
  - exists (<[id := b']> σ). split_and!; [|done| |done].
    + eapply runs_bind; [exact Hget|]. eapply runs_bind; [exact Hstep|]. rewrite <- Heq at 1. apply runs_ret.
    + rewrite <- Heq. exact Hfb.
  - destruct (IH (<[id := b']> σ) e (ws + (e - start)) buf) as (σ2 & Hrun2 & Hf2 & Hfb2 & Hfr2); [done|lia..|].
    exists σ2. split_and!; [|done| |].
    + eapply runs_bind; [exact Hget|]. eapply runs_bind; [exact Hstep|].
      change (start / BLOCK_SZ) with (start / 512). rewrite (Hnext Hne). change 512 with BLOCK_SZ at 1.
      replace (ws + (end_ - start)) with (ws + (e - start) + (end_ - e)) by lia. exact Hrun2.
    + rewrite Hfb2, Hfb. replace (Z.to_nat e) with (Z.to_nat start + length x)%nat by lia.
      rewrite splice_splice by (rewrite length_take, length_drop; unfold zlen in *; lia). f_equal.
      unfold x. replace (drop (Z.to_nat (ws + (e - start))) buf)
        with (drop (Z.to_nat (e - start)) (drop (Z.to_nat ws) buf)) by (rewrite drop_drop; f_equal; lia).
      rewrite take_take_drop. f_equal. lia.
    + intros y Hy. rewrite Hfr2, Hfr1; done.
Qed.

(** ** The whole operations *)
Lemma contents_length L σ di T : file_ok L σ di T -> zlen (file_contents σ di T) = size di.
Proof.
  intros Hf. pose proof (file_bytes_length _ _ _ _ Hf) as Hl. pose proof (size_blocks _ _ _ _ Hf).
  pose proof (fok_size _ _ _ _ Hf). unfold file_contents, zlen in *. rewrite length_take. lia.
Qed.

Lemma read_at_runs L σ di T offset buf :
  file_ok L σ di T -> Z.of_nat (base.size L) < BLOCK_CACHE_SIZE ->
  0 <= offset -> offset + zlen buf < 2 ^ 64 ->
  let out := take (length buf) (drop (Z.to_nat offset) (file_contents σ di T)) in
  runs (St := St) L σ (read_at di offset buf) (zlen out, out ++ drop (length out) buf) σ.
Proof.
  intros Hf HL Hoff H64 out. pose proof (contents_length _ _ _ _ Hf) as Hlen.
  pose proof (fok_size _ _ _ _ Hf) as Hsz. unfold read_at. rewrite w64_small by (unfold zlen in *; lia).
  set (e := Z.min (offset + zlen buf) (size di)).
  assert (Hout : length out = Z.to_nat (e - offset)).
  { unfold out, e, zlen in *. rewrite length_take, length_drop. lia. }
  rewrite Z.geb_leb. destruct (Z.leb_spec e offset) as [Hle|Hgt].
  - assert (out = []) as -> by (apply length_zero_iff_nil; lia). apply runs_ret.
  - pose proof (read_loop_ok L σ di T e Hf HL ltac:(lia) (S (length buf)) offset 0 buf) as R.
    unfold splice in R. cbn [take Z.to_nat Nat.add app] in R. change (Z.to_nat 0) with 0%nat in R.
    replace (take (Z.to_nat (e - offset)) (drop (Z.to_nat offset) (file_bytes σ di T))) with out in R.
    + rewrite Z.add_0_l in R. unfold zlen at 1. rewrite Hout, Z2Nat.id by lia. rewrite Hout in R.
      apply R; [lia|lia|unfold e; lia|unfold e, zlen; lia].
    + unfold out, file_contents, e, zlen in *. rewrite skipn_firstn_comm, take_take. f_equal. lia.
Qed.

Lemma take_splice {A} (l x : list A) a n :
  (a + length x <= n)%nat -> (n <= length l)%nat -> take n (splice l a x) = splice (take n l) a x.
Proof.
  intros Hax Hn. unfold splice. rewrite take_take, Nat.min_l by lia.
  rewrite take_app_ge by (rewrite length_take; lia). rewrite length_take, Nat.min_l by lia.
  rewrite take_app_ge by lia. rewrite skipn_firstn_comm. do 3 f_equal. lia.
Qed.

Lemma write_at_runs L σ di T offset buf :
  file_ok L σ di T -> Z.of_nat (base.size L) < BLOCK_CACHE_SIZE ->
  0 <= offset < size di -> 0 < zlen buf -> offset + zlen buf < 2 ^ 64 ->
  let w := take (Z.to_nat (size di - offset)) buf in
  exists σ', runs (St := St) L σ (write_at di offset buf) (zlen w) σ' /\ file_ok L σ' di T /\
    file_bytes σ' di T = splice (file_bytes σ di T) (Z.to_nat offset) w /\
    file_contents σ' di T = splice (file_contents σ di T) (Z.to_nat offset) w /\
    (forall b, b ∉ data_ids (data_blocks di) di T -> σ' !! b = σ !! b).
Proof.
  intros Hf HL Hoff Hbuf H64 w. pose proof (file_bytes_length _ _ _ _ Hf) as Hlen.
  pose proof (size_blocks _ _ _ _ Hf). unfold write_at. rewrite w64_small by lia.
  set (e := Z.min (offset + zlen buf) (size di)).
  assert (Hw : length w = Z.to_nat (e - offset)) by (unfold w, e, zlen in *; rewrite length_take; lia).
  destruct (write_loop_ok L di T e HL ltac:(lia) (S (length buf)) σ offset 0 buf)
    as (σ' & Hrun & Hf' & Hfb & Hfr); [done|lia|lia|unfold e; lia|unfold e, zlen in *; lia|].
  replace (take (Z.to_nat (e - offset)) (drop (Z.to_nat 0) buf)) with w in Hfb.
  2: { rewrite drop_0. unfold w, e, zlen in *.
       destruct (decide (offset + Z.of_nat (length buf) <= size di)); [by rewrite !take_ge by lia|f_equal; lia]. }
  exists σ'. split_and!; [|done|done| |done].
  - eapply runs_bind_assert; [apply Z.leb_le; lia|].
    replace (zlen w) with (0 + (e - offset)) by (unfold zlen; lia). exact Hrun.
  - unfold file_contents. rewrite Hfb. apply take_splice; unfold zlen in *; lia.
Qed.

End ReadWrite.
