(* ===== verification/Efs.v ===== *)
(** * The file system on a block device (easy-fs/src/efs.rs): definitions

    The regions of the disk, in order: super block, inode bitmap, inode area,
    data bitmap, data area.  The mutex around [EasyFileSystem] is taken once by
    every public operation for its whole duration and the structure never
    changes after [create] or [open], so it is a plain argument here. *)

From S2P Require Import Prelude BlockDev BlockStore Bitmap Layout.

Record EasyFileSystem := mkEfs {
  inode_bitmap : Bitmap;
  data_bitmap : Bitmap;
  inode_area_start_block : Z;
  data_area_start_block : Z;
}.

(** The sizes of the regions, as [create] computes them. *)
Record Areas := mkAreas {
  area_inode_blocks : Z;
  area_data_bitmap_blocks : Z;
  area_data_blocks : Z;
}.

Definition plan_areas (total_blocks inode_bitmap_blocks : Z) : Areas :=
  let inode_bitmap := mkBitmap 1 inode_bitmap_blocks in
  let inode_num := maximum inode_bitmap in
  let inode_area_blocks :=
    w32 (w64 (w64 (w64 (inode_num * DISK_INODE_SZ) + BLOCK_SZ) - 1) / BLOCK_SZ) in
  let inode_total_blocks := w32 (inode_bitmap_blocks + inode_area_blocks) in
  let data_total_blocks := w32 (w32 (total_blocks - 1) - inode_total_blocks) in
  let data_bitmap_blocks := w32 (data_total_blocks + 4096) / 4097 in
  let data_area_blocks := w32 (data_total_blocks - data_bitmap_blocks) in
  mkAreas inode_area_blocks data_bitmap_blocks data_area_blocks.

Definition zero_block : list byte := replicate block_len Byte.x00.

(** [get_disk_inode_pos]: block and offset of an inode. *)
Definition get_disk_inode_pos (self : EasyFileSystem) (inode_id : Z) : Z * Z :=
  let inodes_per_block := BLOCK_SZ / DISK_INODE_SZ in
  (w32 (inode_area_start_block self + inode_id / inodes_per_block),
   (inode_id mod inodes_per_block) * DISK_INODE_SZ).

Definition get_data_block_id (self : EasyFileSystem) (data_block_id : Z) : Z :=
  w32 (data_area_start_block self + data_block_id).

Section Ops.
Context {St : Type} `{BlockStore St}.

Definition alloc_inode (self : EasyFileSystem) : cmd St Z :=
  let* r := alloc (inode_bitmap self) in
  let* bit := lift (unwrap r) in
  ret (w32 bit).

Definition alloc_data (self : EasyFileSystem) : cmd St Z :=
  let* r := alloc (data_bitmap self) in
  let* bit := lift (unwrap r) in
  ret (w32 (w32 bit + data_area_start_block self)).

(** [for p in data_block.iter_mut() { *p = 0 }] on one block. *)
Definition clear_block (block_id : Z) : cmd St unit :=
  modify data_view block_id 0 (fun data_block => ret (tt, (fun _ => Byte.x00) <$> data_block)).

Definition dealloc_data (self : EasyFileSystem) (block_id : Z) : cmd St unit :=
  clear_block block_id;;
  dealloc (data_bitmap self) (w32 (block_id - data_area_start_block self)).

(** [create]: plans the regions, clears every block, writes the super block and
    makes inode 0 a directory. *)
Definition efs_create (total_blocks inode_bitmap_blocks : Z) : cmd St EasyFileSystem :=
  let a := plan_areas total_blocks inode_bitmap_blocks in
  let inode_total_blocks := w32 (inode_bitmap_blocks + area_inode_blocks a) in
  let efs :=
    mkEfs (mkBitmap 1 inode_bitmap_blocks)
          (mkBitmap (w32 (w32 (1 + inode_bitmap_blocks) + area_inode_blocks a)) (area_data_bitmap_blocks a))
          (w32 (1 + inode_bitmap_blocks))
          (w32 (w32 (1 + inode_total_blocks) + area_data_bitmap_blocks a)) in
  (* clear all blocks *)
  let* _ := for_each (seqZ 0 total_blocks) (fun i _ => clear_block i) tt in
  (* initialize SuperBlock *)
  let* _ := modify super_view 0 0 (fun _ =>
    ret (tt, super_initialize total_blocks inode_bitmap_blocks (area_inode_blocks a)
               (area_data_bitmap_blocks a) (area_data_blocks a))) in
  (* create a inode for root node *)
  let* r := alloc_inode efs in
  assert (r =? 0);;
  let '(root_inode_block_id, root_inode_offset) := get_disk_inode_pos efs 0 in
  let* _ := modify inode_view root_inode_block_id root_inode_offset
    (fun disk_inode => ret (tt, initialize disk_inode Directory)) in
  sync_all;;
  ret efs.

(** [open]: reads the super block. *)
Definition efs_open : cmd St EasyFileSystem :=
  read super_view 0 0 (fun super_block =>
    assert (super_is_valid super_block);;
    let inode_total_blocks :=
      w32 (inode_bitmap_blocks super_block + inode_area_blocks super_block) in
    ret (mkEfs (mkBitmap 1 (inode_bitmap_blocks super_block))
               (mkBitmap (w32 (1 + inode_total_blocks)) (data_bitmap_blocks super_block))
               (w32 (1 + inode_bitmap_blocks super_block))
               (w32 (w32 (1 + inode_total_blocks) + data_bitmap_blocks super_block)))).

End Ops.
