(* ===== verification/Vfs.v ===== *)
(** * Files and directories (easy-fs/src/vfs.rs): definitions

    An [Inode] is the position of a disk inode.  Every public method holds the
    lock of the file system while it runs; methods that write end by writing
    the cache back. *)

From S2P Require Import Prelude BlockDev BlockStore Bitmap Layout Efs.

Record Inode := mkVInode {
  block_id : Z;
  block_offset : Z;
}.

(** [root_inode] of efs.rs. *)
Definition root_inode (efs : EasyFileSystem) : Inode :=
  let '(block_id, block_offset) := get_disk_inode_pos efs 0 in mkVInode block_id block_offset.

Section Ops.
Context {St : Type} `{BlockStore St}.

Definition read_disk_inode {V} (self : Inode) (f : DiskInode -> cmd St V) : cmd St V :=
  read inode_view (block_id self) (block_offset self) f.

Definition modify_disk_inode {V} (self : Inode) (f : DiskInode -> cmd St (V * DiskInode)) : cmd St V :=
  modify inode_view (block_id self) (block_offset self) f.

(** Entry [i] of a directory, read into the bytes of [dirent]. *)
Definition read_dirent (disk_inode : DiskInode) (dirent : DirEntry) (i : Z) : cmd St DirEntry :=
  let* (n, bytes) := read_at disk_inode (DIRENT_SZ * i) (dirent_as_bytes dirent) in
  assert (n =? DIRENT_SZ);;
  ret (dirent_of_bytes bytes).

(** The loop of [find_inode_id] over the entries [idx]. *)
Fixpoint find_loop (name : list byte) (disk_inode : DiskInode) (dirent : DirEntry) (idx : list Z)
    : cmd St (option Z) :=
  match idx with
  | [] => ret None
  | i :: idx =>
      let* dirent := read_dirent disk_inode dirent i in
      let* s := lift (dirent_name dirent) in
      if decide (s = name) then ret (Some (dirent_inode_number dirent))
      else find_loop name disk_inode dirent idx
  end.

Definition find_inode_id (name : list byte) (disk_inode : DiskInode) : cmd St (option Z) :=
  assert (is_dir disk_inode);;
  let file_count := size disk_inode / DIRENT_SZ in
  find_loop name disk_inode dirent_empty (seqZ 0 file_count).

Definition find (fs : EasyFileSystem) (self : Inode) (name : list byte) : cmd St (option Inode) :=
  read_disk_inode self (fun disk_inode =>
    let* r := find_inode_id name disk_inode in
    ret (match r with
         | Some inode_id =>
             let '(block_id, block_offset) := get_disk_inode_pos fs inode_id in
             Some (mkVInode block_id block_offset)
         | None => None
         end)).

(** [for _ in 0..blocks_needed { v.push(fs.alloc_data()) }]. *)
Fixpoint alloc_blocks (fs : EasyFileSystem) (n : nat) (v : list Z) : cmd St (list Z) :=
  match n with
  | O => ret v
  | S n => let* b := alloc_data fs in alloc_blocks fs n (v ++ [b])
  end.

Definition vfs_increase_size (fs : EasyFileSystem) (new_size : Z) (disk_inode : DiskInode)
    : cmd St DiskInode :=
  if new_size <? size disk_inode then ret disk_inode else
  let* blocks_needed := lift (blocks_num_needed disk_inode new_size) in
  let* v := alloc_blocks fs (Z.to_nat blocks_needed) [] in
  increase_size disk_inode new_size v.

Definition create (fs : EasyFileSystem) (self : Inode) (name : list byte) : cmd St (option Inode) :=
  let* found := read_disk_inode self (fun root_inode =>
    assert (is_dir root_inode);; find_inode_id name root_inode) in
  if bool_decide (is_Some found) then ret None else
  (* create a new file *)
  let* new_inode_id := alloc_inode fs in
  (* initialize inode *)
  let '(new_inode_block_id, new_inode_block_offset) := get_disk_inode_pos fs new_inode_id in
  let* _ := modify inode_view new_inode_block_id new_inode_block_offset
    (fun new_inode => ret (tt, initialize new_inode File)) in
  let* _ := modify_disk_inode self (fun root_inode =>
    (* append file in the dirent *)
    let file_count := size root_inode / DIRENT_SZ in
    let new_size := w64 (w64 (file_count + 1) * DIRENT_SZ) in
    (* increase size *)
    let* root_inode := vfs_increase_size fs (w32 new_size) root_inode in
    (* write dirent *)
    let* dirent := lift (dirent_new name new_inode_id) in
    let* _ := write_at root_inode (file_count * DIRENT_SZ) (dirent_as_bytes dirent) in
    ret (tt, root_inode)) in
  sync_all;;
  let '(block_id, block_offset) := get_disk_inode_pos fs new_inode_id in
  ret (Some (mkVInode block_id block_offset)).

(** The loop of [ls]. *)
Fixpoint ls_loop (disk_inode : DiskInode) (idx : list Z) (v : list (list byte))
    : cmd St (list (list byte)) :=
  match idx with
  | [] => ret v
  | i :: idx =>
      let* dirent := read_dirent disk_inode dirent_empty i in
      let* s := lift (dirent_name dirent) in
      ls_loop disk_inode idx (v ++ [s])
  end.

Definition ls (self : Inode) : cmd St (list (list byte)) :=
  read_disk_inode self (fun disk_inode =>
    let file_count := size disk_inode / DIRENT_SZ in
    ls_loop disk_inode (seqZ 0 file_count) []).

Definition vfs_read_at (self : Inode) (offset : Z) (buf : list byte) : cmd St (Z * list byte) :=
  read_disk_inode self (fun disk_inode => read_at disk_inode offset buf).

Definition vfs_write_at (fs : EasyFileSystem) (self : Inode) (offset : Z) (buf : list byte) : cmd St Z :=
  let* size := modify_disk_inode self (fun disk_inode =>
    let* disk_inode := vfs_increase_size fs (w32 (w64 (offset + zlen buf))) disk_inode in
    let* n := write_at disk_inode offset buf in
    ret (n, disk_inode)) in
  sync_all;;
  ret size.

Definition clear (fs : EasyFileSystem) (self : Inode) : cmd St unit :=
  let* _ := modify_disk_inode self (fun disk_inode =>
    let size := size disk_inode in
    let* (data_blocks_dealloc, disk_inode) := clear_size disk_inode in
    assert (zlen data_blocks_dealloc =? total_blocks size);;
    let* _ := for_each data_blocks_dealloc (fun data_block _ => dealloc_data fs data_block) tt in
    ret (tt, disk_inode)) in
  sync_all.

End Ops.
