(* ===== verification/FsInv.v ===== *)
(** * The invariant of the file system (efs.rs, vfs.rs)

    Every allocated inode represents a file, no block belongs to two files, and
    the two bitmaps say which inodes and which data blocks are in use. *)

From S2P Require Import Prelude BlockDev BlockStore Bitmap Layout DiskCodec Tree BuildTree TreeOps ClearTree Inode InodeOps FileData Efs Vfs.

(** The regions follow one another on a disk of [N] blocks. *)
Record geometry (fs : EasyFileSystem) (N : Z) : Prop := {
  geo_ib : start_block_id (inode_bitmap fs) = 1;
  geo_iblocks : 0 < blocks (inode_bitmap fs) <= 2 ^ 20;
  geo_ia : inode_area_start_block fs = 1 + blocks (inode_bitmap fs);
  geo_db : start_block_id (data_bitmap fs) = inode_area_start_block fs + 1024 * blocks (inode_bitmap fs);
  geo_dblocks : 0 <= blocks (data_bitmap fs);
  geo_da : data_area_start_block fs = start_block_id (data_bitmap fs) + blocks (data_bitmap fs);
  geo_fit : data_area_start_block fs <= N < 2 ^ 32;
  geo_cover : N - data_area_start_block fs <= capacity (data_bitmap fs);
}.

Definition inodes (fs : EasyFileSystem) : Z := capacity (inode_bitmap fs).

(** The disk inode at an inode number. *)
Definition inode_slot (σ : gmap Z (list byte)) (fs : EasyFileSystem) (i : Z) : option DiskInode :=
  b ← σ !! (inode_area_start_block fs + i / 4);
  match decode inode_view (field b (i mod 4 * 128) 128) with Ok di => Some di | Fail _ => None end.

(** Inodes with the trees of their files. *)
Abbreviation table_of := (gmap Z (DiskInode * Trees)).

Definition owns (I : table_of) (i b : Z) : Prop :=
  exists di T, I !! i = Some (di, T) /\ b ∈ owned (data_blocks di) di T.

(** Past its size a file holds zeros up to the end of its last block. *)
Definition zero_tail (σ : gmap Z (list byte)) (di : DiskInode) (T : Trees) : Prop :=
  exists k, drop (Z.to_nat (size di)) (file_bytes σ di T) = replicate k Byte.x00.

Record node_ok (σ : gmap Z (list byte)) (di : DiskInode) (T : Trees) : Prop := {
  node_words : inode_words_ok di;
  node_size : size di <= MAX_SIZE;
  node_rep : inode_rep σ di (data_blocks di) T;
  node_nodup : NoDup (owned (data_blocks di) di T);
  node_tail : zero_tail σ di T;
}.

(** The file system a super block describes. *)
Definition super_fs (sb : SuperBlock) : EasyFileSystem :=
  let inode_total := w32 (inode_bitmap_blocks sb + inode_area_blocks sb) in
  mkEfs (mkBitmap 1 (inode_bitmap_blocks sb))
        (mkBitmap (w32 (1 + inode_total)) (data_bitmap_blocks sb))
        (w32 (1 + inode_bitmap_blocks sb))
        (w32 (w32 (1 + inode_total) + data_bitmap_blocks sb)).

Definition super_ok (σ : gmap Z (list byte)) (fs : EasyFileSystem) : Prop :=
  exists b sb, σ !! 0 = Some b /\ decode super_view (field b 0 24) = Ok sb /\
    super_is_valid sb = true /\ super_fs sb = fs.

Record fs_inv (σ : gmap Z (list byte)) (fs : EasyFileSystem) (N : Z) (I : table_of) (X : gset Z) : Prop := {
  inv_geo : geometry fs N;
  inv_dom b : is_Some (σ !! b) <-> 0 <= b < N;
  inv_blocks : blocks_ok σ;
  inv_slots i : 0 <= i < inodes fs -> exists di, inode_slot σ fs i = Some di /\ length (direct di) = 27%nat;
  inv_ibits i : 0 <= i < inodes fs ->
    bitmap_bit σ (inode_bitmap fs) i = Some (bool_decide (is_Some (I !! i)));
  inv_dbits k : 0 <= k < capacity (data_bitmap fs) ->
    bitmap_bit σ (data_bitmap fs) k = Some (bool_decide (data_area_start_block fs + k ∈ X));
  inv_nodes i di T : I !! i = Some (di, T) ->
    0 <= i < inodes fs /\ inode_slot σ fs i = Some di /\ node_ok σ di T;
  inv_sep i j b : owns I i b -> owns I j b -> i = j;
  inv_used b : b ∈ X <-> exists i, owns I i b;
  inv_area b : b ∈ X -> data_area_start_block fs <= b < N;
  inv_super : super_ok σ fs;
  inv_free b : data_area_start_block fs <= b < N -> b ∉ X -> σ !! b = Some zero_block;
}.

(** The bytes of every file. *)
Definition contents_of (σ : gmap Z (list byte)) (I : table_of) : gmap Z (list byte) :=
  (fun '(di, T) => file_contents σ di T) <$> I.

(** ** Regions *)
Lemma geometry_order fs N : geometry fs N ->
  1 < inode_area_start_block fs /\ inode_area_start_block fs < start_block_id (data_bitmap fs) /\
  start_block_id (data_bitmap fs) <= data_area_start_block fs /\ inodes fs = 4096 * blocks (inode_bitmap fs).
Proof.
  intros [H1 H2 H3 H4 H5 H6 H7 H8]. unfold inodes, capacity. change BLOCK_BITS with 4096. lia.
Qed.

Lemma inode_pos fs N i : geometry fs N -> 0 <= i < inodes fs ->
  get_disk_inode_pos fs i = (inode_area_start_block fs + i / 4, i mod 4 * 128) /\
  inode_area_start_block fs <= inode_area_start_block fs + i / 4 < start_block_id (data_bitmap fs).
Proof.
  intros Hg Hi. pose proof (geometry_order _ _ Hg) as (G1 & G2 & G3 & G4). destruct Hg as [H1 H2 H3 H4 H5 H6 H7 H8].
  unfold get_disk_inode_pos. change (BLOCK_SZ / DISK_INODE_SZ) with 4. change DISK_INODE_SZ with 128.
  assert (0 <= i / 4 < 1024 * blocks (inode_bitmap fs)) by dlia.
  rewrite w32_small by lia. split; [done|lia].
Qed.

Lemma slot_frame σ σ' fs i :
  σ' !! (inode_area_start_block fs + i / 4) = σ !! (inode_area_start_block fs + i / 4) ->
  inode_slot σ' fs i = inode_slot σ fs i.
Proof. intros E. unfold inode_slot. by rewrite E. Qed.

Lemma bitmap_bit_frame σ σ' bm k :
  0 <= k < capacity bm ->
  (forall b, start_block_id bm <= b < start_block_id bm + blocks bm -> σ' !! b = σ !! b) ->
  bitmap_bit σ' bm k = bitmap_bit σ bm k.
Proof.
  intros Hk Hag. unfold bitmap_bit. rewrite Hag; [done|].
  unfold capacity in Hk. change BLOCK_BITS with 4096 in *. dlia.
Qed.

Lemma ibitmap_ok σ fs N : geometry fs N -> blocks_ok σ -> (forall b, is_Some (σ !! b) <-> 0 <= b < N) ->
  bitmap_ok σ (inode_bitmap fs).
Proof.
  intros Hg Hok Hd. pose proof (geometry_order _ _ Hg) as (G1 & G2 & G3 & G4). destruct Hg as [H1 H2 H3 H4 H5 H6 H7 H8].
  split; [lia|lia|lia|]. intros i Hi. destruct (proj2 (Hd (start_block_id (inode_bitmap fs) + i))) as [b Hb]; [lia|].
  exists b. split; [done|by eapply Hok].
Qed.

Lemma dbitmap_ok σ fs N : geometry fs N -> blocks_ok σ -> (forall b, is_Some (σ !! b) <-> 0 <= b < N) ->
  bitmap_ok σ (data_bitmap fs).
Proof.
  intros Hg Hok Hd. pose proof (geometry_order _ _ Hg) as (G1 & G2 & G3 & G4). destruct Hg as [H1 H2 H3 H4 H5 H6 H7 H8].
  split; [lia|lia|lia|]. intros i Hi. destruct (proj2 (Hd (start_block_id (data_bitmap fs) + i))) as [b Hb]; [lia|].
  exists b. split; [done|by eapply Hok].
Qed.

(** ** Files of the table *)
Lemma file_bytes_frame σ σ' di T :
  (forall b, b ∈ owned (data_blocks di) di T -> σ' !! b = σ !! b) -> file_bytes σ' di T = file_bytes σ di T.
Proof. intros Hag. apply bytes_of_ext. intros b Hb. apply Hag. rewrite owned_perm. set_solver. Qed.

Lemma node_ok_frame σ σ' di T :
  (forall b, b ∈ owned (data_blocks di) di T -> σ' !! b = σ !! b) -> node_ok σ di T -> node_ok σ' di T.
Proof.
  intros Hag [Hw Hs Hr Hnd Htl]. split; [done|done| |done|].
  2: { destruct Htl as [k Hk]. exists k. by rewrite (file_bytes_frame σ). }
  destruct Hr as [? ? ? Htr]. split; [done..|].
  destruct Htr as (H1 & H2 & H3).
  assert (Hix : forall b, b ∈ tree_indexes (data_blocks di) T -> σ' !! b = σ !! b)
    by (intros b Hb; apply Hag; rewrite owned_perm; set_solver).
  unfold tree_indexes, level_indexes in Hix.
  split_and!; intros Hlo; [destruct (H1 Hlo) as [? Ht]|destruct (H2 Hlo) as [? Ht]|destruct (H3 Hlo) as [? Ht]];
    (split; [done|]); (eapply trep_frame; [|exact Ht]); intros b Hb; apply Hix;
    rewrite (proj2 (Z.ltb_lt _ _) Hlo); set_solver.
Qed.

Lemma contents_frame σ σ' di T :
  (forall b, b ∈ owned (data_blocks di) di T -> σ' !! b = σ !! b) ->
  file_contents σ' di T = file_contents σ di T.
Proof.
  intros Hag. unfold file_contents. by rewrite (file_bytes_frame σ).
Qed.

(** A file of the table under a set of locked blocks outside the data area. *)
Lemma inv_file_ok σ fs N I X L i di T :
  fs_inv σ fs N I X -> I !! i = Some (di, T) -> (forall b, b ∈ L -> b < data_area_start_block fs) ->
  file_ok L σ di T.
Proof.
  intros Hinv Hi HL. destruct (inv_nodes _ _ _ _ _ Hinv i di T Hi) as (_ & _ & [Hw Hs Hr Hnd _]).
  split; [done| |apply Hinv|].
  - split; [apply Hw|done].
  - split; [done|]. intros b Hb.
    assert (HX : b ∈ X) by (apply (inv_used _ _ _ _ _ Hinv); exists i, di, T; done).
    pose proof (inv_area _ _ _ _ _ Hinv b HX) as Hrange. pose proof (geo_fit _ _ (inv_geo _ _ _ _ _ Hinv)).
    destruct (geometry_order _ _ (inv_geo _ _ _ _ _ Hinv)) as (G1 & G2 & G3 & _).
    split_and!; [apply (inv_dom _ _ _ _ _ Hinv); lia|intros ?%HL; lia|lia|lia].
Qed.
