(* ===== verification/FsAlloc.v ===== *)
(** * Allocation of inodes and data blocks (efs.rs, [alloc_inode], [alloc_data],
    [dealloc_data], and the loop of [Inode::increase_size]) *)

From S2P Require Import Prelude BlockDev BlockStore Bitmap Layout DiskCodec Tree BuildTree TreeOps ClearTree Inode InodeOps FileData Efs Vfs FsInv.

(** The part of the invariant that does not depend on the files. *)
Record disk_ok (σ : gmap Z (list byte)) (fs : EasyFileSystem) (N : Z) : Prop := {
  dk_geo : geometry fs N;
  dk_dom b : is_Some (σ !! b) <-> 0 <= b < N;
  dk_blocks : blocks_ok σ;
}.

(** The data bitmap says that the blocks of [X] are in use. *)
Definition dbits (σ : gmap Z (list byte)) (fs : EasyFileSystem) (X : gset Z) : Prop :=
  forall k, 0 <= k < capacity (data_bitmap fs) ->
  bitmap_bit σ (data_bitmap fs) k = Some (bool_decide (data_area_start_block fs + k ∈ X)).

Definition ibits (σ : gmap Z (list byte)) (fs : EasyFileSystem) (Y : gset Z) : Prop :=
  forall i, 0 <= i < inodes fs -> bitmap_bit σ (inode_bitmap fs) i = Some (bool_decide (i ∈ Y)).

Definition in_area (fs : EasyFileSystem) (N : Z) (X : gset Z) : Prop :=
  forall b, b ∈ X -> data_area_start_block fs <= b < N.

(** Locked blocks are blocks of inodes. *)
Definition inode_locks (fs : EasyFileSystem) (L : gset Z) : Prop :=
  forall b, b ∈ L -> inode_area_start_block fs <= b < start_block_id (data_bitmap fs).

Lemma disk_ok_bitmap_write σ σ' fs N bm k :
  disk_ok σ fs N -> (forall id, id <> start_block_id bm + k / BLOCK_BITS -> σ' !! id = σ !! id) ->
  bitmap_ok σ' bm -> 0 <= k < capacity bm -> 0 <= start_block_id bm -> start_block_id bm + blocks bm <= N ->
  disk_ok σ' fs N.
Proof.
  intros [Hg Hd Hok] Hfr Hbok Hk Hs HN. unfold capacity in Hk. change BLOCK_BITS with 4096 in *.
  destruct (bitmap_mapped _ _ Hbok (k / 4096)) as (b & Hb & Hlen); [dlia|].
  split; [done| |].
  - intros x. destruct (decide (x = start_block_id bm + k / 4096)) as [->|Hne].
    + rewrite Hb. split; [|eauto]. intros _. dlia.
    + rewrite Hfr by done. apply Hd.
  - intros x b' Hb'. destruct (decide (x = start_block_id bm + k / 4096)) as [->|Hne]; [congruence|].
    rewrite Hfr in Hb' by done. by eapply Hok.
Qed.

(** Counting: with fewer blocks in use than there are, one is free. *)
Lemma free_id (lo hi : Z) (Y : gset Z) : Z.of_nat (base.size Y) < hi - lo -> exists j, lo <= j < hi /\ (j ∉ Y).
Proof.
  intros Hsz. set (A := list_to_set (seqZ lo (hi - lo)) : gset Z).
  assert (HA : base.size A = Z.to_nat (hi - lo)).
  { unfold A. rewrite size_list_to_set by apply NoDup_seqZ. apply length_seqZ. }
  destruct (set_choose_or_empty (A ∖ Y)) as [[b [Hb Hnb]%elem_of_difference]|He].
  - exists b. split; [|done]. unfold A in Hb. apply elem_of_list_to_set, elem_of_seqZ in Hb. lia.
  - assert (Hsub : A ⊆ Y) by (intros b Hb; destruct (decide (b ∈ Y)); [done|set_solver]).
    apply subseteq_size in Hsub. lia.
Qed.

Lemma free_block fs N (X : gset Z) :
  Z.of_nat (base.size X) < N - data_area_start_block fs ->
  exists k, 0 <= k < N - data_area_start_block fs /\ data_area_start_block fs + k ∉ X.
Proof.
  intros Hsz. destruct (free_id (data_area_start_block fs) N X Hsz) as (b & Hb & Hnb).
  exists (b - data_area_start_block fs). split; [lia|].
  by replace (data_area_start_block fs + (b - data_area_start_block fs)) with b by lia.
Qed.

Section Alloc.
Context {St : Type} `{BlockStoreSpec St}.

Lemma inode_locks_bitmap fs N L :
  geometry fs N -> inode_locks fs L -> Z.of_nat (base.size L) < BLOCK_CACHE_SIZE ->
  bitmap_free L (data_bitmap fs).
Proof.
  intros Hg HL Hsz. split; [done|]. intros i Hi Hin. specialize (HL _ Hin). lia.
Qed.

Lemma alloc_data_runs L σ fs N X :
  disk_ok σ fs N -> dbits σ fs X -> in_area fs N X -> inode_locks fs L ->
  Z.of_nat (base.size L) < BLOCK_CACHE_SIZE -> Z.of_nat (base.size X) < N - data_area_start_block fs ->
  exists b σ', runs (St := St) L σ (alloc_data fs) b σ' /\ (b ∉ X) /\
    data_area_start_block fs <= b < N /\ disk_ok σ' fs N /\ dbits σ' fs ({[b]} ∪ X) /\
    (forall x, ~ start_block_id (data_bitmap fs) <= x < data_area_start_block fs -> σ' !! x = σ !! x).
Proof.
  intros Hdk Hbits HX HL Hsz Hfree. pose proof Hdk as [Hg Hd Hok].
  destruct (free_block fs N X Hfree) as (k0 & Hk0 & Hnk0).
  pose proof (geo_fit _ _ Hg) as Hfit. pose proof (geo_cover _ _ Hg) as Hcov. pose proof (geo_da _ _ Hg) as Hda.
  pose proof (geometry_order _ _ Hg) as (G1 & G2 & G3 & _).
  destruct (alloc_ok (St := St) L σ (data_bitmap fs)) as (r & σ' & Hrun & Hp);
    [by eapply dbitmap_ok|by eapply inode_locks_bitmap|].
  assert (Hbit0 : bitmap_bit σ (data_bitmap fs) k0 = Some false)
    by (rewrite Hbits by lia; by rewrite bool_decide_false).
  destruct r as [k|].
  2: { destruct Hp as [_ Hall]. rewrite Hall in Hbit0 by lia. done. }
  destruct Hp as (Hk & Hkf & Hbelow & Hnew & Hfr & Hbok).
  assert (Hle : k <= k0).
  { destruct (Z.le_gt_cases k k0); [done|]. rewrite Hbelow in Hbit0 by lia. done. }
  exists (data_area_start_block fs + k), σ'. split_and!; [| |lia|lia| | |].
  - eapply runs_bind; [exact Hrun|]. eapply runs_bind_lift; [done|].
    rewrite (w32_small k) by lia. rewrite w32_small by lia. rewrite (Z.add_comm k). apply runs_ret.
  - rewrite Hbits in Hkf by lia. injection Hkf as Hkf. by apply bool_decide_eq_false in Hkf.
  - eapply disk_ok_bitmap_write; [done|exact Hfr|done|done|lia|lia].
  - intros j Hj. rewrite Hnew by done. case_decide as E.
    + subst j. rewrite bool_decide_true; [done|set_solver].
    + rewrite Hbits by done. do 2 f_equal. apply bool_decide_ext.
      rewrite elem_of_union, elem_of_singleton. split; [by right|]. intros [?|?]; [lia|done].
  - intros x Hx. apply Hfr. intros ->. apply Hx. unfold capacity in Hk. change BLOCK_BITS with 4096 in *. dlia.
Qed.

Lemma alloc_inode_runs σ fs N Y :
  disk_ok σ fs N -> ibits σ fs Y -> (exists j, 0 <= j < inodes fs /\ (j ∉ Y)) ->
  exists i σ', runs (St := St) ∅ σ (alloc_inode fs) i σ' /\ (i ∉ Y) /\ 0 <= i < inodes fs /\
    (forall j, 0 <= j < i -> j ∈ Y) /\ disk_ok σ' fs N /\ ibits σ' fs ({[i]} ∪ Y) /\
    (forall x, ~ 1 <= x < inode_area_start_block fs -> σ' !! x = σ !! x).
Proof.
  intros Hdk Hbits (j0 & Hj0 & Hnj0). pose proof Hdk as [Hg Hd Hok].
  pose proof (geo_fit _ _ Hg) as Hfit. pose proof (geo_ib _ _ Hg) as Hib. pose proof (geo_ia _ _ Hg) as Hia.
  pose proof (geometry_order _ _ Hg) as (G1 & G2 & G3 & G4). pose proof (geo_iblocks _ _ Hg) as Hpos.
  pose proof (geo_db _ _ Hg) as Hdb.
  destruct (alloc_ok (St := St) ∅ σ (inode_bitmap fs)) as (r & σ' & Hrun & Hp);
    [by eapply ibitmap_ok|split; [by rewrite size_empty|set_solver]|].
  assert (Hbit0 : bitmap_bit σ (inode_bitmap fs) j0 = Some false)
    by (rewrite Hbits by lia; by rewrite bool_decide_false).
  destruct r as [k|].
  2: { destruct Hp as [_ Hall]. rewrite Hall in Hbit0 by done. done. }
  destruct Hp as (Hk & Hkf & Hbelow & Hnew & Hfr & Hbok). fold (inodes fs) in Hk, Hnew.
  exists k, σ'. split_and!; [| |lia|lia| | | |].
  - eapply runs_bind; [exact Hrun|]. eapply runs_bind_lift; [done|].
    rewrite (w32_small k) by lia. apply runs_ret.
  - rewrite Hbits in Hkf by lia. injection Hkf as Hkf. by apply bool_decide_eq_false in Hkf.
  - intros j Hj. specialize (Hbelow j Hj). rewrite Hbits in Hbelow by lia. injection Hbelow as Hbelow.
    by apply bool_decide_eq_true in Hbelow.
  - eapply disk_ok_bitmap_write; [done|exact Hfr|done|done|lia|lia].
  - intros j Hj. rewrite Hnew by done. case_decide as E.
    + subst j. rewrite bool_decide_true; [done|set_solver].
    + rewrite Hbits by done. f_equal. apply bool_decide_ext. set_solver.
  - intros x Hx. apply Hfr. intros ->. apply Hx. unfold inodes, capacity in Hk. change BLOCK_BITS with 4096 in *. dlia.
Qed.

(** The loop of [Inode::increase_size]. *)
Lemma alloc_blocks_runs L fs N n : forall σ X v,
  disk_ok σ fs N -> dbits σ fs X -> in_area fs N X -> inode_locks fs L ->
  Z.of_nat (base.size L) < BLOCK_CACHE_SIZE ->
  Z.of_nat (base.size X) + Z.of_nat n <= N - data_area_start_block fs ->
  exists vs σ', runs (St := St) L σ (alloc_blocks fs n v) (v ++ vs) σ' /\ length vs = n /\ NoDup vs /\
    (forall b, b ∈ vs -> (b ∉ X) /\ data_area_start_block fs <= b < N) /\
    disk_ok σ' fs N /\ dbits σ' fs (list_to_set vs ∪ X) /\
    (forall x, ~ start_block_id (data_bitmap fs) <= x < data_area_start_block fs -> σ' !! x = σ !! x).
Proof.
  induction n as [|n IH]; intros σ X v Hdk Hbits HX HL Hsz Hfree.
  { exists [], σ. rewrite app_nil_r. split_and!; [apply runs_ret|done|constructor|set_solver|done| |done].
    by replace (list_to_set [] ∪ X) with X by set_solver. }
  destruct (alloc_data_runs L σ fs N X) as (b & σ1 & Hrun & Hb & Hbr & Hdk1 & Hbits1 & Hfr1); [done..|lia|].
  destruct (IH σ1 ({[b]} ∪ X) (v ++ [b])) as (vs & σ2 & Hrun2 & Hlen & Hnd & Hvs & Hdk2 & Hbits2 & Hfr2);
    [done|done| |done|done| |].
  { intros x [->%elem_of_singleton|?]%elem_of_union; [done|by apply HX]. }
  { rewrite size_held_union by done. lia. }
  exists (b :: vs), σ2. split_and!.
  - eapply runs_bind; [exact Hrun|]. by rewrite <- app_assoc in Hrun2.
  - simpl. by rewrite Hlen.
  - constructor; [|done]. intros Hin. destruct (Hvs b Hin). set_solver.
  - intros x [->|Hx]%elem_of_cons; [done|]. destruct (Hvs x Hx). split; [set_solver|done].
  - done.
  - replace (list_to_set (b :: vs) ∪ X) with (list_to_set vs ∪ ({[b]} ∪ X)) by set_solver. done.
  - intros x Hx. rewrite Hfr2, Hfr1 by done. done.
Qed.

(** ** Freeing *)
Lemma zero_fmap (b : list byte) : length b = block_len -> (fun _ => Byte.x00) <$> b = zero_block.
Proof.
  intros Hb. unfold zero_block. rewrite <- Hb. clear Hb. induction b as [|x b IH]; [done|].
  csimpl. by rewrite IH.
Qed.

Lemma clear_block_runs L σ b :
  is_Some (σ !! b) -> blocks_ok σ -> lockable L b ->
  runs (St := St) L σ (clear_block b) tt (<[b := zero_block]> σ).
Proof.
  intros [bs Hb] Hok HL. pose proof (Hok _ _ Hb) as Hlen. unfold clear_block.
  change zero_block with (encode data_view bs zero_block).
  eapply runs_modify_block; [done|done|done|done|done|done|]. rewrite zero_fmap by done. apply runs_ret.
Qed.

Lemma disk_ok_insert σ fs N b x :
  disk_ok σ fs N -> is_Some (σ !! b) -> length x = block_len -> disk_ok (<[b := x]> σ) fs N.
Proof.
  intros [Hg Hd Hok] Hb Hx. split; [done| |].
  - intros y. rewrite lookup_insert. case_decide as E; [|apply Hd]. subst y. rewrite <- Hd. naive_solver.
  - intros y z Hz. rewrite lookup_insert in Hz. case_decide; [by simplify_eq|by eapply Hok].
Qed.

Lemma dealloc_data_runs L σ fs N X b :
  disk_ok σ fs N -> dbits σ fs X -> in_area fs N X -> inode_locks fs L ->
  Z.of_nat (base.size L) < BLOCK_CACHE_SIZE -> b ∈ X ->
  exists σ', runs (St := St) L σ (dealloc_data fs b) tt σ' /\
    disk_ok σ' fs N /\ dbits σ' fs (X ∖ {[b]}) /\
    (forall x, ~ start_block_id (data_bitmap fs) <= x < data_area_start_block fs ->
       σ' !! x = <[b := zero_block]> σ !! x).
Proof.
  intros Hdk Hbits HX HL Hsz Hb. pose proof Hdk as [Hg Hd Hok]. pose proof (HX b Hb) as Hbr.
  pose proof (geo_fit _ _ Hg) as Hfit. pose proof (geo_cover _ _ Hg) as Hcov. pose proof (geo_da _ _ Hg) as Hda.
  pose proof (geometry_order _ _ Hg) as (G1 & G2 & G3 & _).
  assert (Hsome : is_Some (σ !! b)) by (apply Hd; lia).
  assert (Hlk : lockable L b) by (split; [intros Hin; specialize (HL b Hin); lia|done]).
  pose proof (clear_block_runs L σ b Hsome Hok Hlk) as Hclear.
  assert (Hdk1 : disk_ok (<[b := zero_block]> σ) fs N) by (by apply disk_ok_insert).
  set (k := b - data_area_start_block fs). assert (Hk : 0 <= k < capacity (data_bitmap fs)) by lia.
  assert (Hag : forall j, 0 <= j < capacity (data_bitmap fs) ->
    bitmap_bit (<[b := zero_block]> σ) (data_bitmap fs) j = bitmap_bit σ (data_bitmap fs) j).
  { intros j Hj. apply bitmap_bit_frame; [done|]. intros x Hx. apply lookup_insert_ne. lia. }
  destruct (dealloc_ok (St := St) L (<[b := zero_block]> σ) (data_bitmap fs) k) as (σ' & Hrun & Hnew & Hfr & Hbok).
  { eapply dbitmap_ok; [done|apply Hdk1|apply Hdk1]. }
  { by eapply inode_locks_bitmap. }
  { done. }
  { rewrite Hag, Hbits by done. f_equal. apply bool_decide_eq_true. unfold k.
    by replace (data_area_start_block fs + (b - data_area_start_block fs)) with b by lia. }
  exists σ'. split_and!.
  - eapply runs_bind; [exact Hclear|]. rewrite w32_small by lia. exact Hrun.
  - eapply disk_ok_bitmap_write; [done|exact Hfr|done|done|lia|lia].
  - intros j Hj. rewrite Hnew by done. case_decide as E.
    + subst j. symmetry. f_equal. apply bool_decide_eq_false. unfold k.
      replace (data_area_start_block fs + (b - data_area_start_block fs)) with b by lia. set_solver.
    + rewrite Hag, Hbits by done. do 2 f_equal. apply bool_decide_ext.
      rewrite elem_of_difference, elem_of_singleton. split; [|naive_solver]. intros ?. split; [done|]. unfold k in E. lia.
  - intros x Hx. apply Hfr. intros ->. apply Hx.
    unfold capacity in Hk. change BLOCK_BITS with 4096 in *. dlia.
Qed.

End Alloc.
