(* ===== verification/FsUpdate.v ===== *)
(** * Reading and updating one inode of the file system (vfs.rs,
    [read_disk_inode] and [modify_disk_inode])

    The lemmas that every operation of vfs.rs needs: what a closure that runs
    under the lock of an inode may do to the rest of the disk, and how the
    invariant is established again once the inode has been written back. *)

From S2P Require Import Prelude BlockDev BlockStore Bitmap Layout DiskCodec Tree BuildTree TreeOps ClearTree Inode InodeOps FileData Efs Vfs FsInv FsAlloc.

Definition slot_block (fs : EasyFileSystem) (i : Z) : Z := inode_area_start_block fs + i / 4.
Definition slot_offset (i : Z) : Z := i mod 4 * 128.

(** The block of an inode after the inode was stored into it. *)
Definition write_slot (σ : gmap Z (list byte)) (fs : EasyFileSystem) (i : Z) (di : DiskInode)
    : gmap Z (list byte) :=
  match σ !! slot_block fs i with
  | Some b => <[slot_block fs i := splice b (Z.to_nat (slot_offset i))
                  (encode inode_view (field b (slot_offset i) 128) di)]> σ
  | None => σ
  end.

Lemma slot_offset_range i : 0 <= i -> 0 <= slot_offset i /\ slot_offset i + 128 <= 512.
Proof. intros. unfold slot_offset. dlia. Qed.

Section Slot.
Variables (σ : gmap Z (list byte)) (fs : EasyFileSystem) (N i : Z) (di : DiskInode).
Hypothesis Hdk : disk_ok σ fs N.
Hypothesis Hi : 0 <= i < inodes fs.
Hypothesis Hd : length (direct di) = 27%nat.

Lemma slot_block_exists : exists b, σ !! slot_block fs i = Some b /\ length b = 512%nat.
Proof.
  clear Hd. destruct Hdk as [Hg Hdom Hok]. destruct (inode_pos fs N i Hg Hi) as [_ Hr].
  pose proof (geo_fit _ _ Hg). pose proof (geo_da _ _ Hg). pose proof (geo_dblocks _ _ Hg).
  pose proof (geometry_order _ _ Hg) as (G1 & _).
  destruct (proj2 (Hdom (slot_block fs i))) as [b Hb]; [unfold slot_block; lia|].
  exists b. split; [done|by eapply Hok].
Qed.

Lemma slot_written_length b : length b = 512%nat ->
  length (encode inode_view (field b (slot_offset i) 128) di) = 128%nat.
Proof.
  intros Hb. pose proof (slot_offset_range i ltac:(lia)).
  apply inode_encode_length; [|done]. rewrite field_length; [done|done|lia|lia|unfold BLOCK_SZ; lia].
Qed.

Lemma write_slot_disk_ok : disk_ok (write_slot σ fs i di) fs N.
Proof.
  destruct slot_block_exists as (b & Hb & Hlen). unfold write_slot. rewrite Hb.
  pose proof (slot_offset_range i ltac:(lia)). pose proof (slot_written_length b Hlen).
  apply disk_ok_insert; [done|eauto|]. rewrite splice_length; [done|lia].
Qed.

Lemma write_slot_other x : x <> slot_block fs i -> write_slot σ fs i di !! x = σ !! x.
Proof. intros Hx. unfold write_slot. destruct (σ !! slot_block fs i); [|done]. by apply lookup_insert_ne. Qed.

Lemma write_slot_same : inode_words_ok di -> inode_slot (write_slot σ fs i di) fs i = Some di.
Proof.
  intros Hw. destruct slot_block_exists as (b & Hb & Hlen). unfold write_slot, inode_slot.
  rewrite Hb. fold (slot_block fs i). rewrite lookup_insert_eq. cbn [mbind option_bind]. fold (slot_offset i).
  pose proof (slot_offset_range i ltac:(lia)). pose proof (slot_written_length b Hlen) as He.
  replace (field (splice b (Z.to_nat (slot_offset i)) (encode inode_view (field b (slot_offset i) 128) di)) (slot_offset i) 128)
    with (encode inode_view (field b (slot_offset i) 128) di).
  - rewrite inode_decode_encode; [done| |done]. rewrite field_length; [done|done|lia|lia|unfold BLOCK_SZ; lia].
  - unfold field at 2. change (Z.to_nat 128) with 128%nat. rewrite <- He at 1.
    rewrite take_drop_splice; [done|lia].
Qed.

Lemma write_slot_ne j : j <> i -> 0 <= j -> inode_slot (write_slot σ fs i di) fs j = inode_slot σ fs j.
Proof.
  intros Hne Hj. destruct slot_block_exists as (b & Hb & Hlen). pose proof (slot_written_length b Hlen) as He.
  unfold write_slot, inode_slot. rewrite Hb. fold (slot_block fs j). rewrite lookup_insert.
  case_decide as E; [|done]. rewrite <- E, Hb. cbn [mbind option_bind].
  assert (Hoff : slot_offset i + 128 <= slot_offset j \/ slot_offset j + 128 <= slot_offset i)
    by (unfold slot_block, slot_offset in *; dlia).
  pose proof (slot_offset_range i ltac:(lia)). pose proof (slot_offset_range j ltac:(lia)).
  fold (slot_offset j). set (x := encode inode_view (field b (slot_offset i) 128) di) in *. clearbody x.
  do 2 f_equal. unfold field. destruct Hoff.
  - rewrite take_drop_splice_after; [done|lia|lia].
  - rewrite take_drop_splice_before; [done|lia|lia].
Qed.

End Slot.

(** The [Inode] of an inode number. *)
Definition vinode (fs : EasyFileSystem) (i : Z) : Vfs.Inode := mkVInode (slot_block fs i) (slot_offset i).

Section Access.
Context {St : Type} `{BlockStoreSpec St}.

Lemma slot_decode σ fs i di b :
  inode_slot σ fs i = Some di -> σ !! slot_block fs i = Some b ->
  decode inode_view (field b (slot_offset i) 128) = Ok di.
Proof.
  unfold inode_slot. fold (slot_block fs i). intros Hs Hb. rewrite Hb in Hs. cbn [mbind option_bind] in Hs.
  fold (slot_offset i) in Hs. destruct (decode inode_view _); [by injection Hs as ->|done].
Qed.

Lemma slot_access_ok L fs i : 0 <= i -> lockable L (slot_block fs i) ->
  access_ok L (slot_block fs i) (slot_offset i) (size_of inode_view).
Proof.
  intros Hi [Hl Hsz]. pose proof (slot_offset_range i Hi). change (size_of inode_view) with 128.
  split; [done|]. split; [done|]. unfold BLOCK_SZ. lia.
Qed.

Lemma runs_read_inode {V} L σ fs N i di (f : DiskInode -> cmd St V) v σ' :
  disk_ok σ fs N -> 0 <= i < inodes fs -> inode_slot σ fs i = Some di -> lockable L (slot_block fs i) ->
  runs ({[slot_block fs i]} ∪ L) σ (f di) v σ' ->
  runs L σ (read_disk_inode (vinode fs i) f) v σ'.
Proof.
  intros Hdk Hi Hs HL Hf. destruct (slot_block_exists σ fs N i Hdk Hi) as (b & Hb & Hlen).
  eapply runs_read; [apply slot_access_ok; [lia|done]|done| |done]. by eapply slot_decode.
Qed.

Lemma runs_modify_inode {V} L σ fs N i di di' (f : DiskInode -> cmd St (V * DiskInode)) v σ' :
  disk_ok σ fs N -> 0 <= i < inodes fs -> inode_slot σ fs i = Some di -> lockable L (slot_block fs i) ->
  length (direct di') = 27%nat -> σ' !! slot_block fs i = σ !! slot_block fs i ->
  runs ({[slot_block fs i]} ∪ L) σ (f di) (v, di') σ' ->
  runs L σ (modify_disk_inode (vinode fs i) f) v (write_slot σ' fs i di').
Proof.
  intros Hdk Hi Hs HL Hd' Hsame Hf. destruct (slot_block_exists σ fs N i Hdk Hi) as (b & Hb & Hlen).
  unfold write_slot. rewrite Hsame, Hb.
  eapply (runs_modify (St := St) L σ σ' inode_view); [apply slot_access_ok; [lia|done]|done|done|by eapply slot_decode| |done].
  by eapply (slot_written_length fs).
Qed.

End Access.

(** ** Establishing the invariant again *)
Lemma inv_disk_ok σ fs N I X : fs_inv σ fs N I X -> disk_ok σ fs N.
Proof. intros Hinv. split; apply Hinv. Qed.

Lemma inv_in_area σ fs N I X : fs_inv σ fs N I X -> in_area fs N X.
Proof. intros Hinv b. apply Hinv. Qed.

(** One inode changes or is added: the blocks it now owns, those of the others
    and the bitmaps agree again. *)
Lemma fs_insert σ σ' fs N I X X' i di' T' :
  fs_inv σ fs N I X -> disk_ok σ' fs N -> 0 <= i < inodes fs ->
  inode_slot σ' fs i = Some di' ->
  (forall j, 0 <= j < inodes fs -> j <> i -> inode_slot σ' fs j = inode_slot σ fs j) ->
  σ' !! 0 = σ !! 0 -> ibits σ' fs ({[i]} ∪ dom I) ->
  dbits σ' fs X' -> in_area fs N X' ->
  (forall b, data_area_start_block fs <= b < N -> b ∉ X' -> σ' !! b = Some zero_block) -> node_ok σ' di' T' ->
  (forall b, b ∈ X' <-> b ∈ owned (data_blocks di') di' T' \/ exists j, j <> i /\ owns I j b) ->
  (forall b j, b ∈ owned (data_blocks di') di' T' -> j <> i -> ~ owns I j b) ->
  (forall b j, j <> i -> owns I j b -> σ' !! b = σ !! b) ->
  fs_inv σ' fs N (<[i := (di', T')]> I) X'.
Proof.
  intros Hinv [Hg Hd Hok] Hi Hslot Hslots H0 Hib Hdb Harea Hfree Hnode HX Hsep Hother.
  assert (Howns : forall j b, owns (<[i := (di', T')]> I) j b <->
    (j = i /\ b ∈ owned (data_blocks di') di' T') \/ (j <> i /\ owns I j b)).
  { intros j b. unfold owns. setoid_rewrite lookup_insert. destruct (decide (i = j)) as [<-|Hne].
    - split; [intros (? & ? & [= <- <-] & ?); by left|]. intros [[_ ?]|[? _]]; [|done]. eauto.
    - split; [by right|]. intros [[? _]|[_ ?]]; [congruence|done]. }
  split; [done|done|done| | |done| | | |done| |done].
  - intros j Hj. destruct (decide (j = i)) as [->|Hne].
    + exists di'. split; [done|apply Hnode].
    + rewrite Hslots by done. by apply (inv_slots _ _ _ _ _ Hinv).
  - intros j Hj. rewrite Hib by done. f_equal. apply bool_decide_ext.
    rewrite <- elem_of_dom, dom_insert_L. done.
  - intros j di T. rewrite lookup_insert. case_decide as E.
    + intros [= <- <-]. subst j. done.
    + intros Hj. destruct (inv_nodes _ _ _ _ _ Hinv j di T Hj) as (Hj1 & Hj2 & Hj3).
      split_and!; [lia|lia|rewrite Hslots; [done|done|congruence]|].
      eapply node_ok_frame; [|done]. intros b Hb. apply (Hother b j); [congruence|]. by exists di, T.
  - intros j k b Hj Hk. rewrite Howns in Hj, Hk.
    destruct Hj as [[-> Hj]|[Hnj Hj]], Hk as [[-> Hk]|[Hnk Hk]]; [done| | |].
    + exfalso. by eapply Hsep.
    + exfalso. by eapply Hsep.
    + by eapply (inv_sep _ _ _ _ _ Hinv).
  - intros b. rewrite HX. setoid_rewrite Howns. split.
    + intros [Hb|(j & Hne & Hj)]; [exists i; by left|exists j; by right].
    + intros (j & [[-> Hb]|[Hne Hj]]); [by left|right; eauto].
  - unfold super_ok. rewrite H0. apply Hinv.
Qed.

Lemma inv_ibits_dom σ fs N I X : fs_inv σ fs N I X -> ibits σ fs (dom I).
Proof.
  intros Hinv j Hj. rewrite (inv_ibits _ _ _ _ _ Hinv) by done. f_equal. apply bool_decide_ext.
  by rewrite elem_of_dom.
Qed.

Lemma ibits_frame σ σ' fs N Y : geometry fs N ->
  (forall b, 1 <= b < inode_area_start_block fs -> σ' !! b = σ !! b) -> ibits σ fs Y -> ibits σ' fs Y.
Proof.
  intros Hg Hib HY j Hj. rewrite (bitmap_bit_frame σ); [by apply HY|done|].
  intros b Hb. apply Hib. destruct Hg as [H1 H2 H3 _ _ _ _ _]. lia.
Qed.

(** The other files are unchanged. *)
Lemma contents_update σ σ' fs N I X i di' T' :
  fs_inv σ fs N I X -> (forall b j, j <> i -> owns I j b -> σ' !! b = σ !! b) ->
  contents_of σ' (<[i := (di', T')]> I) = <[i := file_contents σ' di' T']> (contents_of σ I).
Proof.
  intros Hinv Hother. unfold contents_of. rewrite fmap_insert. apply map_eq. intros j.
  rewrite !lookup_insert. case_decide as E; [done|]. rewrite !lookup_fmap.
  destruct (I !! j) as [[di T]|] eqn:Hj; [|done]. simpl. f_equal. apply contents_frame.
  intros b Hb. apply (Hother b j); [congruence|]. by exists di, T.
Qed.
