(* ===== verification/FsOps.v ===== *)
(** * Operations on files (vfs.rs, [increase_size], [read_at], [write_at], [clear])

    Each operation on an inode changes the contents of its file as specified,
    leaves every other file alone and preserves the invariant. *)

From S2P Require Import Prelude BlockDev BlockStore Bitmap Layout DiskCodec Tree BuildTree TreeOps ClearTree Inode InodeOps FileData Efs Vfs FsInv FsAlloc FsUpdate.

(** The disk around inode [i], which owns the blocks [ow], while a closure runs
    under the lock of the inode. *)
Record around (σ σ' : gmap Z (list byte)) (fs : EasyFileSystem) (N : Z) (I : table_of) (i : Z)
    (ow : list Z) (X' : gset Z) : Prop := {
  ar_disk : disk_ok σ' fs N;
  ar_bits : dbits σ' fs X';
  ar_range : in_area fs N X';
  ar_used b : b ∈ X' <-> b ∈ ow \/ exists j, j <> i /\ owns I j b;
  ar_sep b j : b ∈ ow -> j <> i -> ~ owns I j b;
  ar_low b : b < start_block_id (data_bitmap fs) -> σ' !! b = σ !! b;
  ar_other b j : j <> i -> owns I j b -> σ' !! b = σ !! b;
  ar_free b : data_area_start_block fs <= b < N -> b ∉ X' -> σ' !! b = Some zero_block;
}.

(** The closure holds the inode [di'] of a file. *)
Record inner (σ σ' : gmap Z (list byte)) (fs : EasyFileSystem) (N : Z) (I : table_of) (i : Z)
    (L : gset Z) (di' : DiskInode) (T' : Trees) (X' : gset Z) : Prop := {
  in_around : around σ σ' fs N I i (owned (data_blocks di') di' T') X';
  in_file : file_ok L σ' di' T';
  in_words : inode_words_ok di';
  in_tail : zero_tail σ' di' T';
}.

Lemma owns_area σ fs N I X j b :
  fs_inv σ fs N I X -> owns I j b -> data_area_start_block fs <= b < N.
Proof. intros Hinv Hj. apply (inv_area _ _ _ _ _ Hinv), (inv_used _ _ _ _ _ Hinv). eauto. Qed.

Lemma slot_block_range fs N i : geometry fs N -> 0 <= i < inodes fs ->
  inode_area_start_block fs <= slot_block fs i < start_block_id (data_bitmap fs).
Proof. intros Hg Hi. by apply (inode_pos fs N i). Qed.

(** The closure has returned and the inode is written back. *)
Lemma inner_update σ σ' fs N I X i L di T di' T' X' :
  fs_inv σ fs N I X -> I !! i = Some (di, T) -> inner σ σ' fs N I i L di' T' X' ->
  fs_inv (write_slot σ' fs i di') fs N (<[i := (di', T')]> I) X' /\
  contents_of (write_slot σ' fs i di') (<[i := (di', T')]> I) =
    <[i := file_contents σ' di' T']> (contents_of σ I).
Proof.
  intros Hinv Hi [[Hdk Hbits Harea Hused Hsep Hlow Hother Hfree] Hf Hw Htl].
  destruct (inv_nodes _ _ _ _ _ Hinv i di T Hi) as (Hir & _ & _). pose proof Hdk as [Hg _ _].
  pose proof (slot_block_range fs N i Hg Hir) as Hblk. pose proof (geometry_order _ _ Hg) as (G1 & G2 & G3 & _).
  assert (Hd : length (direct di') = 27%nat) by apply Hw.
  assert (Hkeep : forall b, data_area_start_block fs <= b -> write_slot σ' fs i di' !! b = σ' !! b)
    by (intros b Hb; apply write_slot_other; lia).
  assert (Howned : forall b, b ∈ owned (data_blocks di') di' T' -> data_area_start_block fs <= b < N)
    by (intros b Hb; apply Harea, Hused; by left).
  assert (Hother' : forall b j, j <> i -> owns I j b -> write_slot σ' fs i di' !! b = σ !! b).
  { intros b j Hj Hb. rewrite Hkeep; [by eapply Hother|]. eapply owns_area in Hb; [|done]. lia. }
  assert (Hnode : node_ok (write_slot σ' fs i di') di' T').
  { apply (node_ok_frame σ'); [intros b Hb; apply Hkeep; by apply Howned|].
    split; [done|apply Hf|apply Hf|apply Hf|done]. }
  split.
  - eapply fs_insert; [done|by apply write_slot_disk_ok|done| | | | | |done| |done|done|done|done].
    + by eapply write_slot_same.
    + intros j Hj Hne. erewrite write_slot_ne by (done || lia). apply slot_frame.
      apply Hlow. by apply (inode_pos fs N j).
    + rewrite write_slot_other by lia. apply Hlow. lia.
    + replace ({[i]} ∪ dom I) with (dom I).
      * apply (ibits_frame σ _ _ N); [done| |by eapply inv_ibits_dom].
        intros b Hb. rewrite write_slot_other by lia. apply Hlow. lia.
      * assert (i ∈ dom I) by (apply elem_of_dom; eauto). set_solver.
    + intros k Hk. rewrite <- Hbits by done. apply bitmap_bit_frame; [done|].
      intros b Hb. apply write_slot_other. lia.
    + intros b Hb Hnb. rewrite Hkeep by lia. by apply Hfree.
  - rewrite (contents_update σ _ fs N I X) by done. f_equal. apply contents_frame.
    intros b Hb. apply Hkeep. by apply Howned.
Qed.

Section Ops.
Context {St : Type} `{BlockStoreSpec St}.

(** The locks held inside the closure. *)
Lemma inode_locks_one fs N i : geometry fs N -> 0 <= i < inodes fs -> inode_locks fs {[slot_block fs i]}.
Proof. intros Hg Hi b ->%elem_of_singleton. by eapply slot_block_range. Qed.

Lemma inner_start σ fs N I X i L di T :
  fs_inv σ fs N I X -> I !! i = Some (di, T) -> inode_locks fs L -> inner σ σ fs N I i L di T X.
Proof.
  intros Hinv Hi HL. pose proof (inv_geo _ _ _ _ _ Hinv) as Hg.
  pose proof (geometry_order _ _ Hg) as (G1 & G2 & G3 & _).
  destruct (inv_nodes _ _ _ _ _ Hinv i di T Hi) as (_ & _ & Hnode).
  split; [|eapply inv_file_ok; [done|done|]; intros b Hb; specialize (HL b Hb); lia|apply Hnode|apply Hnode].
  split; [by eapply inv_disk_ok|intros k; apply Hinv|by eapply inv_in_area| | |done|done|apply Hinv].
  - intros b. rewrite (inv_used _ _ _ _ _ Hinv). split.
    + intros (j & Hj). destruct (decide (j = i)) as [->|]; [left|right; eauto].
      destruct Hj as (di2 & T2 & Hi2 & Hb). by rewrite Hi in Hi2; injection Hi2 as <- <-.
    + intros [Hb|(j & _ & Hj)]; [exists i, di, T; done|eauto].
  - intros b j Hb Hne Hj. apply Hne. symmetry. eapply (inv_sep _ _ _ _ _ Hinv); [|done]. by exists di, T.
Qed.

(** Blocks a file gains when it grows. *)
Definition needed (di : DiskInode) (new_size : Z) : Z :=
  file_weight (_data_blocks new_size) - file_weight (data_blocks di).

Lemma needed_nonneg di new_size : 0 <= size di <= new_size -> new_size <= MAX_SIZE -> 0 <= needed di new_size.
Proof.
  intros Hs Hmax. unfold needed, data_blocks. pose proof (data_blocks_mono _ _ Hs Hmax) as Hle.
  pose proof (tree_weight_mono _ _ Hle). unfold file_weight. lia.
Qed.

(** Allocated blocks extend a file of the table. *)
Lemma allocated_ok σ σ1 fs N I X i L di T vs :
  fs_inv σ fs N I X -> I !! i = Some (di, T) -> inode_locks fs L -> disk_ok σ1 fs N ->
  (forall b, data_area_start_block fs <= b -> σ1 !! b = σ !! b) ->
  NoDup vs -> (forall b, b ∈ vs -> (b ∉ X) /\ data_area_start_block fs <= b < N) ->
  file_ok L σ1 di T /\ avail σ1 L (owned (data_blocks di) di T ++ vs).
Proof.
  intros Hinv Hi HL Hdk1 Hkeep Hnd Hvs. pose proof (dk_geo _ _ _ Hdk1) as Hg.
  destruct (inner_start σ fs N I X i L di T Hinv Hi HL) as [[_ _ Harea Hused _ _ _ _] Hf _ _].
  pose proof (geometry_order _ _ Hg) as (G1 & G2 & G3 & _). pose proof (geo_fit _ _ Hg) as Hfit.
  assert (Howned : forall b, b ∈ owned (data_blocks di) di T -> b ∈ X /\ data_area_start_block fs <= b < N).
  { intros b Hb. assert (b ∈ X) by (apply Hused; by left). split; [done|by apply Harea]. }
  assert (Hf1 : file_ok L σ1 di T).
  { assert (Hn1 : node_ok σ1 di T) by (eapply node_ok_frame; [|by eapply (inv_nodes _ _ _ _ _ Hinv)];
      intros b Hb; apply Hkeep; by apply Howned).
    split; [apply Hn1|apply Hf|apply Hdk1|]. destruct Hf as [_ _ _ [? Hav]]. split; [done|].
    intros b Hb. destruct (Hav b Hb) as (? & ? & ?). rewrite Hkeep by (by apply Howned). done. }
  split; [done|]. split.
  - apply NoDup_app. split; [apply Hf|]. split; [|done].
    intros b Hb Hb'. destruct (Hvs b Hb'). by destruct (Howned b Hb).
  - intros b [Hb|Hb]%elem_of_app; [by apply Hf1|]. destruct (Hvs b Hb) as [_ Hr].
    split; [apply Hdk1; lia|]. split; [|lia]. intros HbL. specialize (HL b HbL). lia.
Qed.

Lemma grown_words L σ di T : file_ok L σ di T -> roots_u32 di -> inode_words_ok di.
Proof.
  intros [[Hd Hdw _ _] Hsz _ _] Hr. split; [|done|done|exact Hr]. change MAX_SIZE with 1082209792 in *. lia.
Qed.

(** Writing blocks the file owns. *)
Lemma around_write σ σ1 σ2 fs N I X i ow X1 :
  fs_inv σ fs N I X -> around σ σ1 fs N I i ow X1 -> blocks_ok σ2 ->
  (forall b, b ∉ ow -> σ2 !! b = σ1 !! b) -> (forall b, is_Some (σ1 !! b) -> is_Some (σ2 !! b)) ->
  around σ σ2 fs N I i ow X1.
Proof.
  intros Hinv [Hdk Hbits Harea Hused Hsep Hlow Hother Hfree] Hok Hfr Hdom.
  pose proof Hdk as [Hg Hd _]. pose proof (geometry_order _ _ Hg) as (G1 & G2 & G3 & _).
  pose proof (geo_da _ _ Hg) as Hda.
  assert (How : forall b, b ∈ ow -> data_area_start_block fs <= b < N) by (intros b Hb; apply Harea, Hused; by left).
  assert (Hlo : forall b, b < data_area_start_block fs -> σ2 !! b = σ1 !! b)
    by (intros b Hb; apply Hfr; intros Hin%How; lia).
  split; [|intros k Hk|done|done|done| | |].
  - split; [done| |done]. intros b. rewrite <- Hd. split; [|apply Hdom].
    destruct (decide (b ∈ ow)) as [Hb|Hb]; [|by rewrite Hfr]. intros _. apply Hd. specialize (How b Hb). lia.
  - rewrite <- Hbits by done. apply bitmap_bit_frame; [done|]. intros b Hb. apply Hlo. lia.
  - intros b Hb. rewrite Hlo by lia. by apply Hlow.
  - intros b j Hj Hb. rewrite Hfr; [by eapply Hother|]. intros Hin. by eapply Hsep.
  - intros b Hb Hnb. rewrite Hfr; [by apply Hfree|]. contradict Hnb. apply Hused. by left.
Qed.

(** Allocated blocks join the blocks of the file. *)
Lemma around_alloc σ σ1 fs N I X i ow vs :
  fs_inv σ fs N I X -> around σ σ fs N I i ow X -> disk_ok σ1 fs N -> dbits σ1 fs (list_to_set vs ∪ X) ->
  (forall b, b ∈ vs -> (b ∉ X) /\ data_area_start_block fs <= b < N) ->
  (forall b, ~ start_block_id (data_bitmap fs) <= b < data_area_start_block fs -> σ1 !! b = σ !! b) ->
  around σ σ1 fs N I i (ow ++ vs) (list_to_set vs ∪ X).
Proof.
  intros Hinv [Hdk _ Harea Hused Hsep _ _ Hfree] Hdk1 Hbits1 Hvs Hfr.
  split; [done|done| | | | | |].
  - intros b [Hb%elem_of_list_to_set|Hb]%elem_of_union; [by apply Hvs|by apply Harea].
  - intros b. rewrite elem_of_union, elem_of_list_to_set, Hused, elem_of_app. tauto.
  - intros b j [Hb|Hb]%elem_of_app Hj Ho; [by eapply Hsep|].
    destruct (Hvs b Hb) as [Hn _]. apply Hn, Hused. right. eauto.
  - intros b Hb. apply Hfr. lia.
  - intros b j _ Hb. apply Hfr. eapply owns_area in Hb; [|done]. lia.
  - intros b Hb Hnb. rewrite Hfr by lia. apply Hfree; [done|set_solver].
Qed.

Lemma around_perm σ σ' fs N I i ow ow' X : (forall b, b ∈ ow <-> b ∈ ow') ->
  around σ σ' fs N I i ow X -> around σ σ' fs N I i ow' X.
Proof.
  intros He [? ? ? Hu Hs ? ? ?]. split; [done|done|done| | |done|done|done].
  - intros b. by rewrite <- He.
  - intros b j Hb. apply He in Hb. by apply Hs.
Qed.

Lemma zero_blocks σ ids : (forall b, b ∈ ids -> σ !! b = Some zero_block) ->
  exists k, bytes_of σ ids = replicate k Byte.x00.
Proof.
  induction ids as [|b ids IH]; intros Hz; [by exists 0%nat|].
  destruct IH as [k Hk]; [intros; apply Hz; by right|]. exists (block_len + k)%nat.
  change (b :: ids) with ([b] ++ ids). rewrite bytes_of_app, Hk, replicate_add. f_equal.
  unfold bytes_of. rewrite list_fmap_singleton, Hz by (by left). apply app_nil_r.
Qed.

(** A file whose blocks are followed by blocks of zeros. *)
Lemma grow_zeros L L' σ σ' di T di' T' k :
  file_ok L σ di T -> zero_tail σ di T -> file_ok L' σ' di' T' -> size di <= size di' ->
  file_bytes σ' di' T' = file_bytes σ di T ++ replicate k Byte.x00 ->
  zero_tail σ' di' T' /\
  file_contents σ' di' T' = resize (Z.to_nat (size di')) Byte.x00 (file_contents σ di T).
Proof.
  intros Hf [j Hj] Hf' Hsz E. pose proof (file_bytes_length _ _ _ _ Hf') as Hl'.
  pose proof (contents_length _ _ _ _ Hf) as Hlc. pose proof (size_blocks _ _ _ _ Hf') as Hb'.
  pose proof (fok_size _ _ _ _ Hf). unfold zero_tail, file_contents in *.
  set (c := take (Z.to_nat (size di)) (file_bytes σ di T)) in *.
  assert (E2 : file_bytes σ' di' T' = c ++ replicate (j + k) Byte.x00).
  { rewrite E, <- (take_drop (Z.to_nat (size di)) (file_bytes σ di T)), Hj. fold c.
    by rewrite <- app_assoc, replicate_add. }
  rewrite E2 in *. clearbody c. unfold zlen in *. rewrite length_app, length_replicate in Hl'. split.
  - rewrite drop_app_ge by lia. rewrite drop_replicate. eauto.
  - rewrite take_app_ge by lia. rewrite resize_ge by lia. f_equal.
    rewrite take_replicate. f_equal. lia.
Qed.

Lemma vfs_increase_size_runs σ fs N I X i L di T new_size :
  fs_inv σ fs N I X -> I !! i = Some (di, T) -> inode_locks fs L ->
  Z.of_nat (base.size L) + 3 <= BLOCK_CACHE_SIZE -> 0 <= new_size <= MAX_SIZE ->
  Z.of_nat (base.size X) + Z.max 0 (needed di new_size) <= N - data_area_start_block fs ->
  exists di' T' X' σ', runs (St := St) L σ (vfs_increase_size fs new_size di) di' σ' /\
    inner σ σ' fs N I i L di' T' X' /\
    size di' = Z.max (size di) new_size /\ type_ di' = type_ di /\
    file_contents σ' di' T' = resize (Z.to_nat (size di')) Byte.x00 (file_contents σ di T).
Proof.
  intros Hinv Hi HL Hsz Hns Hroom. pose proof (inner_start σ fs N I X i L di T Hinv Hi HL) as Hin.
  pose proof Hin as [[Hdk Hbits Harea Hused Hsep _ _ Hfree] Hf Hw Htl]. pose proof (contents_length _ _ _ _ Hf) as Hlen0.
  unfold vfs_increase_size. destruct (Z.ltb_spec new_size (size di)) as [Hlt|Hge].
  { exists di, T, X, σ. rewrite Z.max_l by lia. split_and!; [apply runs_ret|done|done|done|].
    symmetry. apply resize_all_alt. unfold zlen in Hlen0. lia. }
  pose proof Hdk as [Hg _ _]. pose proof (geometry_order _ _ Hg) as (G1 & G2 & G3 & _).
  pose proof (iw_size _ Hw) as Hs0.
  pose proof (needed_nonneg di new_size ltac:(lia) ltac:(lia)) as Hneed. rewrite Z.max_r in Hroom by lia.
  destruct (alloc_blocks_runs (St := St) L fs N (Z.to_nat (needed di new_size)) σ X [])
    as (vs & σ1 & Hrun1 & Hlen & Hnd & Hvs & Hdk1 & Hbits1 & Hfr1); [done..|lia|lia|].
  destruct (allocated_ok σ σ1 fs N I X i L di T vs) as [Hf1 Hav]; [done..|intros; apply Hfr1; lia|done|done|].
  destruct (increase_size_file (St := St) L σ1 di T new_size vs) as
    (di' & T' & σ2 & Hrun2 & Hsz' & Hty & Hf2 & Howned2 & (ext & Hext & Hbytes) & Hfr2 & Hdom2 & Hroots);
    [done|lia|done|done|unfold zlen; rewrite Hlen; unfold needed in *; lia|].
  rewrite (file_bytes_frame σ σ1) in Hbytes.
  2: { intros b Hb. apply Hfr1. pose proof (Harea b ltac:(apply Hused; by left)). lia. }
  destruct (zero_blocks σ1 ext) as [k Hk].
  { intros b Hb%Hext. destruct (Hvs b Hb). rewrite Hfr1 by lia. by apply Hfree. }
  rewrite Hk in Hbytes. destruct (grow_zeros L L σ σ2 di T di' T' k) as [Htl' Hcont]; [done|done|done|lia|done|].
  exists di', T', (list_to_set vs ∪ X), σ2. rewrite Z.max_r by lia.
  split_and!; [|split; [|done|by eapply grown_words, Hroots, Hw|done]|done|done|done].
  - eapply runs_bind_lift; [apply blocks_num_needed_weight; lia|]. eapply runs_bind; [done|done].
  - eapply around_write; [done| |apply Hf2| |done].
    + eapply around_perm; [intros b; symmetry; by apply (elem_of_Permutation_proper b)|].
      by eapply around_alloc; [done|apply Hin|..].
    + intros b Hb. apply Hfr2. intros Ht. apply Hb. rewrite owned_perm. set_solver.
Qed.

(** Growing a file and writing into it, under the lock of its inode. *)
Definition written (c : list byte) (offset : Z) (buf : list byte) : list byte :=
  splice (resize (Z.to_nat (Z.max (zlen c) (offset + zlen buf))) Byte.x00 c) (Z.to_nat offset) buf.

Lemma tail_splice σ σ' di T offset w :
  zero_tail σ di T -> file_bytes σ' di T = splice (file_bytes σ di T) (Z.to_nat offset) w ->
  (Z.to_nat offset + length w <= Z.to_nat (size di))%nat -> (Z.to_nat (size di) <= length (file_bytes σ di T))%nat ->
  zero_tail σ' di T.
Proof.
  intros [k Hk] E Hlen Hsz. exists k. rewrite <- Hk, E. unfold splice.
  rewrite app_assoc, drop_app_ge by (rewrite length_app, length_take; lia).
  rewrite drop_drop, length_app, length_take. f_equal. lia.
Qed.

Lemma grow_write_runs σ fs N I X i L di T offset buf :
  fs_inv σ fs N I X -> I !! i = Some (di, T) -> inode_locks fs L ->
  Z.of_nat (base.size L) + 3 <= BLOCK_CACHE_SIZE ->
  0 <= offset -> 0 < zlen buf -> offset + zlen buf <= MAX_SIZE ->
  Z.of_nat (base.size X) + Z.max 0 (needed di (offset + zlen buf)) <= N - data_area_start_block fs ->
  exists di1 T' X' σ1 σ', runs (St := St) L σ (vfs_increase_size fs (offset + zlen buf) di) di1 σ1 /\
    runs (St := St) L σ1 (write_at di1 offset buf) (zlen buf) σ' /\
    inner σ σ' fs N I i L di1 T' X' /\ type_ di1 = type_ di /\
    size di1 = Z.max (size di) (offset + zlen buf) /\
    file_contents σ' di1 T' = written (file_contents σ di T) offset buf.
Proof.
  intros Hinv Hi HL Hsz Hoff Hbuf Hmax Hroom.
  destruct (vfs_increase_size_runs σ fs N I X i L di T (offset + zlen buf))
    as (di1 & T' & X' & σ1 & Hrun1 & Hin & Hs1 & Hty & Hc1); [done..|lia|done|].
  destruct Hin as [Har Hf1 Hw1 Htl1]. change MAX_SIZE with 1082209792 in *.
  destruct (write_at_runs (St := St) L σ1 di1 T' offset buf) as (σ2 & Hrun2 & Hf2 & Hfb & Hc2 & Hfr);
    [done|lia|lia|done|lia|].
  rewrite take_ge in Hrun2, Hfb, Hc2 by (unfold zlen in *; lia).
  pose proof (file_bytes_length _ _ _ _ Hf1) as Hl1. pose proof (size_blocks _ _ _ _ Hf1).
  exists di1, T', X', σ1, σ2. split_and!; [done|done| |done|done|].
  - split; [|done|done|].
    + eapply around_write; [done|done|apply Hf2| |].
      * intros b Hb. apply Hfr. contradict Hb. rewrite owned_perm. set_solver.
      * intros b Hb. destruct (decide (b ∈ owned (data_blocks di1) di1 T')) as [Ho|Ho]; [by apply Hf2|].
        rewrite Hfr; [done|]. contradict Ho. rewrite owned_perm. set_solver.
    + eapply tail_splice; [exact Htl1|done|unfold zlen in *; lia|unfold zlen in *; lia].
  - rewrite Hc2, Hc1. unfold written. pose proof (inv_file_ok _ _ _ _ _ ∅ _ _ _ Hinv Hi ltac:(set_solver)) as Hf0.
    rewrite (contents_length _ _ _ _ Hf0), Hs1. done.
Qed.

(** An operation that ends with the cache written back. *)
Definition commits {A} (σ : gmap Z (list byte)) (m : cmd St A) (a : A) (σ' : gmap Z (list byte)) : Prop :=
  forall s, wf s -> content s = σ -> held s = ∅ ->
  exists s', m s = Ok (a, s') /\ wf s' /\ content s' = σ' /\ held s' = ∅ /\ stable s' = σ'.

Lemma commits_bind {A B} σ σ1 σ2 (m : cmd St A) (k : A -> cmd St B) a b :
  runs ∅ σ m a σ1 -> commits σ1 (k a) b σ2 -> commits σ (bind m k) b σ2.
Proof.
  intros Hm Hk s Hs Hc Hh. destruct (Hm s Hs Hc Hh) as (s1 & E & Hs1 & Hc1 & Hh1).
  rewrite (bind_Ok _ _ _ _ _ E). by apply Hk.
Qed.

Lemma commits_sync σ : commits σ sync_all tt σ.
Proof.
  intros s Hs Hc Hh. destruct (sync_all_ok s Hs Hh) as (s2 & E2 & Hs2 & Hc2 & Hh2 & Hst).
  exists s2. split_and!; [done..|congruence|done|congruence].
Qed.

Lemma commits_sync_ret {A} σ (a : A) : commits σ (sync_all;; ret a) a σ.
Proof.
  intros s Hs Hc Hh. destruct (commits_sync σ s Hs Hc Hh) as (s2 & E2 & R).
  rewrite (bind_Ok _ _ _ _ _ E2). by exists s2.
Qed.

Lemma commits_runs {A} σ (m : cmd St A) a σ' : commits σ m a σ' -> runs ∅ σ m a σ'.
Proof. intros Hm s Hs Hc Hh. destruct (Hm s Hs Hc Hh) as (s' & ? & ? & ? & ? & _). by exists s'. Qed.

Lemma lockable_slot fs i : lockable ∅ (slot_block fs i).
Proof. split; [set_solver|]. rewrite size_empty. done. Qed.

Lemma one_lock_room fs i : Z.of_nat (base.size ({[slot_block fs i]} ∪ ∅ : gset Z)) + 3 <= BLOCK_CACHE_SIZE.
Proof. rewrite union_empty_r_L, size_singleton. done. Qed.

Lemma one_lock fs N i : geometry fs N -> 0 <= i < inodes fs -> inode_locks fs ({[slot_block fs i]} ∪ ∅).
Proof. intros. rewrite union_empty_r_L. by eapply inode_locks_one. Qed.

(** [modify_disk_inode] with a closure that ends in [inner]. *)
Lemma modify_inner {V} σ σ' fs N I X i di T di' T' X' (f : DiskInode -> cmd St (V * DiskInode)) v :
  let L := {[slot_block fs i]} ∪ ∅ in
  fs_inv σ fs N I X -> I !! i = Some (di, T) ->
  runs (St := St) L σ (f di) (v, di') σ' -> inner σ σ' fs N I i L di' T' X' ->
  exists σ2, runs (St := St) ∅ σ (modify_disk_inode (vinode fs i) f) v σ2 /\
    fs_inv σ2 fs N (<[i := (di', T')]> I) X' /\
    contents_of σ2 (<[i := (di', T')]> I) = <[i := file_contents σ' di' T']> (contents_of σ I) /\
    (forall b, b < inode_area_start_block fs -> σ2 !! b = σ !! b).
Proof.
  intros L Hinv Hi Hrun Hin. destruct (inv_nodes _ _ _ _ _ Hinv i di T Hi) as (Hir & Hslot & _).
  pose proof (inv_geo _ _ _ _ _ Hinv) as Hg. pose proof (slot_block_range fs N i Hg Hir) as Hb.
  pose proof (geometry_order _ _ Hg) as (G1 & G2 & _).
  destruct (inner_update _ _ _ _ _ _ _ _ _ _ _ _ _ Hinv Hi Hin) as [Hinv' Hc'].
  pose proof Hin as [Har _ Hw _].
  exists (write_slot σ' fs i di'). split_and!; [|done|done|].
  - eapply runs_modify_inode; [by eapply inv_disk_ok|done|done|apply lockable_slot|apply Hw| |done].
    apply Har. lia.
  - intros b Hlt. rewrite write_slot_other by lia. apply Har. lia.
Qed.

Lemma vfs_write_at_runs σ fs N I X i di T offset buf :
  fs_inv σ fs N I X -> I !! i = Some (di, T) ->
  0 <= offset -> 0 < zlen buf -> offset + zlen buf <= MAX_SIZE ->
  Z.of_nat (base.size X) + Z.max 0 (needed di (offset + zlen buf)) <= N - data_area_start_block fs ->
  exists σ' di' T' X', commits σ (vfs_write_at fs (vinode fs i) offset buf) (zlen buf) σ' /\
    fs_inv σ' fs N (<[i := (di', T')]> I) X' /\ type_ di' = type_ di /\
    contents_of σ' (<[i := (di', T')]> I) =
      <[i := written (file_contents σ di T) offset buf]> (contents_of σ I).
Proof.
  intros Hinv Hi Hoff Hbuf Hmax Hroom. destruct (inv_nodes _ _ _ _ _ Hinv i di T Hi) as (Hir & _ & _).
  destruct (grow_write_runs σ fs N I X i ({[slot_block fs i]} ∪ ∅) di T offset buf)
    as (di1 & T' & X' & σ1 & σ' & Hrun1 & Hrun2 & Hin & Hty & _ & Hc);
    [done|done|eapply one_lock; [apply Hinv|done]|apply one_lock_room|done..|].
  destruct (modify_inner σ σ' fs N I X i di T di1 T' X'
    (fun disk_inode => let* disk_inode := vfs_increase_size fs (w32 (w64 (offset + zlen buf))) disk_inode in
      let* n := write_at disk_inode offset buf in ret (n, disk_inode)) (zlen buf))
    as (σ2 & Hrun & Hinv' & Hc' & _); [done|done| |done|].
  { change MAX_SIZE with 1082209792 in *. rewrite w64_small, w32_small by lia.
    eapply runs_bind; [exact Hrun1|]. eapply runs_bind; [exact Hrun2|]. apply runs_ret. }
  exists σ2, di1, T', X'. split_and!; [|done|done|by rewrite <- Hc].
  eapply commits_bind; [exact Hrun|]. apply commits_sync_ret.
Qed.

Lemma vfs_read_at_runs σ fs N I X i di T offset buf :
  fs_inv σ fs N I X -> I !! i = Some (di, T) -> 0 <= offset -> offset + zlen buf < 2 ^ 64 ->
  let out := take (length buf) (drop (Z.to_nat offset) (file_contents σ di T)) in
  runs (St := St) ∅ σ (vfs_read_at (vinode fs i) offset buf) (zlen out, out ++ drop (length out) buf) σ.
Proof.
  intros Hinv Hi Hoff H64 out. destruct (inv_nodes _ _ _ _ _ Hinv i di T Hi) as (Hir & Hslot & _).
  pose proof (inv_geo _ _ _ _ _ Hinv) as Hg. pose proof (geometry_order _ _ Hg) as (G1 & G2 & G3 & _).
  eapply runs_read_inode; [by eapply inv_disk_ok|done|done|apply lockable_slot|].
  pose proof (one_lock_room fs i). apply read_at_runs; [|lia|done|done].
  eapply inv_file_ok; [done|done|]. intros b Hb%(one_lock fs N i Hg Hir). lia.
Qed.

(** ** Clearing a file *)
Lemma dealloc_loop L fs N bs : forall σ X,
  disk_ok σ fs N -> dbits σ fs X -> in_area fs N X -> inode_locks fs L ->
  Z.of_nat (base.size L) < BLOCK_CACHE_SIZE -> NoDup bs -> (forall b, b ∈ bs -> b ∈ X) ->
  exists σ', runs (St := St) L σ (for_each bs (fun data_block _ => dealloc_data fs data_block) tt) tt σ' /\
    disk_ok σ' fs N /\ dbits σ' fs (X ∖ list_to_set bs) /\
    (forall x, ~ start_block_id (data_bitmap fs) <= x < data_area_start_block fs ->
       σ' !! x = if decide (x ∈ bs) then Some zero_block else σ !! x).
Proof.
  induction bs as [|b bs IH]; intros σ X Hdk Hbits HX HL Hsz Hnd Hin.
  { exists σ. split_and!; [apply runs_ret|done| |done]. change (list_to_set []) with (∅ : gset Z). by rewrite difference_empty_L. }
  apply NoDup_cons in Hnd as [Hb Hnd].
  destruct (dealloc_data_runs (St := St) L σ fs N X b) as (σ1 & Hrun1 & Hdk1 & Hbits1 & Hfr1); [done..|set_solver|].
  destruct (IH σ1 (X ∖ {[b]})) as (σ2 & Hrun2 & Hdk2 & Hbits2 & Hfr2); [done|done| |done|done|done|set_solver|].
  { intros x Hx. apply HX. set_solver. }
  exists σ2. split_and!; [by eapply runs_bind|done| |].
  - replace (X ∖ list_to_set (b :: bs)) with (X ∖ {[b]} ∖ list_to_set bs) by set_solver. done.
  - intros x Hx. rewrite Hfr2 by done. case_decide as E1; case_decide as E2; [done|set_solver| |].
    + assert (x = b) as -> by set_solver. rewrite Hfr1 by done. by apply lookup_insert_eq.
    + rewrite Hfr1 by done. apply lookup_insert_ne. set_solver.
Qed.

(** A file of size zero owns nothing. *)
Lemma empty_owned σ di T : size di = 0 -> owned (data_blocks di) di T = [] /\ file_bytes σ di T = [].
Proof.
  intros Hz. unfold file_bytes, data_blocks. rewrite Hz. change (_data_blocks 0) with 0. done.
Qed.

Lemma empty_file_ok L σ di T : size di = 0 -> length (direct di) = 27%nat -> u32_all (direct di) ->
  blocks_ok σ -> file_ok L σ di T /\ zero_tail σ di T /\ file_contents σ di T = [].
Proof.
  intros Hz Hd Hw Hok. destruct (empty_owned σ di T Hz) as [Ho Hb].
  assert (Hn : data_blocks di = 0) by (unfold data_blocks; by rewrite Hz).
  split_and!.
  - split; [|change MAX_SIZE with 1082209792; lia|done|rewrite Ho; split; [constructor|set_solver]]. rewrite Hn.
    split; [done|done|by split|]. split_and!; intros ?; lia.
  - exists 0%nat. by rewrite Hb, drop_nil.
  - unfold file_contents. by rewrite Hb, take_nil.
Qed.

Lemma around_clear σ σ1 fs N I X i ow :
  fs_inv σ fs N I X -> around σ σ fs N I i ow X -> disk_ok σ1 fs N -> dbits σ1 fs (X ∖ list_to_set ow) ->
  (forall x, ~ start_block_id (data_bitmap fs) <= x < data_area_start_block fs ->
     σ1 !! x = if decide (x ∈ ow) then Some zero_block else σ !! x) ->
  around σ σ1 fs N I i [] (X ∖ list_to_set ow).
Proof.
  intros Hinv [Hdk _ Harea Hused Hsep _ _ Hfree] Hdk1 Hbits1 Hfr.
  pose proof (dk_geo _ _ _ Hdk) as Hg. pose proof (geometry_order _ _ Hg) as (G1 & G2 & G3 & _).
  assert (Hin : forall b, b ∈ ow -> data_area_start_block fs <= b < N) by (intros b Hb; apply Harea, Hused; by left).
  split; [done|done|intros b Hb; apply Harea; set_solver| |set_solver| | |].
  - intros b. rewrite elem_of_difference, elem_of_list_to_set, Hused. split; [intros [[?|?] ?]; by auto|].
    intros [?%not_elem_of_nil|(j & Hj & Ho)]; [done|]. split; [by eauto|]. intros Hb. by eapply Hsep.
  - intros b Hb. rewrite Hfr by lia. rewrite decide_False; [done|]. intros ?%Hin. lia.
  - intros b j Hj Ho. pose proof (owns_area _ _ _ _ _ _ _ Hinv Ho). rewrite Hfr by lia.
    rewrite decide_False; [done|]. intros Hb. by eapply Hsep.
  - intros b Hb Hnb. rewrite Hfr by lia. case_decide; [done|]. apply Hfree; [done|set_solver].
Qed.

Lemma clear_runs σ fs N I X i di T :
  fs_inv σ fs N I X -> I !! i = Some (di, T) -> clearable (data_blocks di) ->
  exists σ' di' X', commits σ (clear fs (vinode fs i)) tt σ' /\
    fs_inv σ' fs N (<[i := (di', T)]> I) X' /\ size di' = 0 /\ type_ di' = type_ di /\
    contents_of σ' (<[i := (di', T)]> I) = <[i := []]> (contents_of σ I) /\
    X' = X ∖ list_to_set (owned (data_blocks di) di T).
Proof.
  intros Hinv Hi Hcl. destruct (inv_nodes _ _ _ _ _ Hinv i di T Hi) as (Hir & _ & Hnode).
  set (L := {[slot_block fs i]} ∪ ∅ : gset Z). pose proof (one_lock_room fs i) as Hroom. fold L in Hroom.
  pose proof (one_lock fs N i ltac:(apply Hinv) Hir) as HL. fold L in HL.
  destruct (inner_start σ fs N I X i L di T Hinv Hi HL) as [Har Hf Hw _].
  destruct (clear_size_runs (St := St) L σ di T) as (di' & (Hs' & Hty' & Hd' & Hdw' & Hr') & Hrun1);
    [apply Hf|apply Hf|apply Hf|done|done|].
  set (ow := owned (data_blocks di) di T) in *.
  destruct (dealloc_loop L fs N ow σ X) as (σ1 & Hrun2 & Hdk1 & Hbits1 & Hfr1);
    [apply Har|apply Har|apply Har|done|lia|apply Hf|intros b Hb; apply Har; by left|].
  destruct (empty_file_ok L σ1 di' T Hs' Hd' Hdw' ltac:(apply Hdk1)) as (Hf' & Htl' & Hc').
  assert (Hin : inner σ σ1 fs N I i L di' T (X ∖ list_to_set ow)).
  { split; [|done|eapply grown_words; [done|apply Hr', Hw]|done].
    rewrite (proj1 (empty_owned σ di' T Hs')). by eapply around_clear. }
  destruct (modify_inner σ σ1 fs N I X i di T di' T (X ∖ list_to_set ow)
    (fun disk_inode => let size := size disk_inode in
      let* (data_blocks_dealloc, disk_inode) := clear_size disk_inode in
      assert (zlen data_blocks_dealloc =? total_blocks size);;
      let* _ := for_each data_blocks_dealloc (fun data_block _ => dealloc_data fs data_block) tt in
      ret (tt, disk_inode)) tt) as (σ2 & Hrun & Hinv' & Hcont & _); [done|done| |exact Hin|].
  { eapply runs_bind; [exact Hrun1|]. eapply runs_bind_assert.
    - apply Z.eqb_eq. rewrite total_blocks_weight by apply Hf. eapply owned_length, Hf.
    - eapply runs_bind; [exact Hrun2|]. apply runs_ret. }
  exists σ2, di', (X ∖ list_to_set ow). split_and!; [|done|done|done|by rewrite Hcont, Hc'|done].
  eapply commits_bind; [exact Hrun|]. apply commits_sync.
Qed.

End Ops.
