(* ===== verification/FsDir.v ===== *)
(** * The directory (vfs.rs, [find], [ls], [create])

    The contents of the root inode are a list of entries; [find] and [ls] read
    it, [create] extends it and adds an empty file to the table. *)

From S2P Require Import Prelude BlockDev BlockStore Bitmap Layout DiskCodec Tree BuildTree TreeOps ClearTree Inode InodeOps FileData Efs Vfs FsInv FsAlloc FsUpdate FsOps.

(** A directory: names and inode numbers, in the order of their creation. *)
Abbreviation directory := (list (list byte * Z)).

Definition entry_of (e : list byte * Z) : DirEntry :=
  mkDirEntry (e.1 ++ replicate (28 - length e.1) Byte.x00) e.2.
Definition entry_ok (e : list byte * Z) : Prop := name_ok e.1 /\ 0 <= e.2 < 2 ^ 32.
Definition dir_bytes (l : directory) : list byte := concat ((fun e => dirent_as_bytes (entry_of e)) <$> l).

Record dir_rep (σ : gmap Z (list byte)) (di : DiskInode) (T : Trees) (l : directory) : Prop := {
  dir_type : type_ di = Directory;
  dir_entries : Forall entry_ok l;
  dir_contents : file_contents σ di T = dir_bytes l;
}.

(** The first entry of a name. *)
Fixpoint assoc (name : list byte) (l : directory) : option Z :=
  match l with
  | [] => None
  | (n, i) :: l => if decide (n = name) then Some i else assoc name l
  end.

Lemma entry_new e : entry_ok e -> dirent_new e.1 e.2 = Ok (entry_of e).
Proof. intros [(Hl & _ & _) _]. apply dirent_new_ok. lia. Qed.

Lemma entry_name_length e : entry_ok e -> length (ent_name (entry_of e)) = 28%nat.
Proof.
  intros [(Hl & _ & _) _]. unfold entry_of, NAME_LENGTH_LIMIT, zlen in *. simpl.
  rewrite length_app, length_replicate. lia.
Qed.

Lemma entry_bytes_length e : entry_ok e -> length (dirent_as_bytes (entry_of e)) = 32%nat.
Proof. intros He. by apply dirent_as_bytes_length, entry_name_length. Qed.

Lemma chunk_lookup {A} (f : A -> list byte) (n : nat) (l : list A) : forall k x,
  Forall (fun x => length (f x) = n) l -> l !! k = Some x ->
  take n (drop (n * k) (concat (f <$> l))) = f x.
Proof.
  induction l as [|y l IH]; intros k x Hall Hk; [done|]. apply Forall_cons in Hall as [Hy Hall]. csimpl.
  destruct k as [|k].
  - simpl in Hk. injection Hk as ->. rewrite Nat.mul_0_r, drop_0. by rewrite take_app_length'.
  - rewrite drop_app_ge by lia. replace (n * S k - length (f y))%nat with (n * k)%nat by lia. by apply IH.
Qed.

Lemma chunks_length {A} (f : A -> list byte) (n : nat) (l : list A) :
  Forall (fun x => length (f x) = n) l -> length (concat (f <$> l)) = (n * length l)%nat.
Proof. induction 1 as [|x l Hx _ IH]; [simpl; lia|]. csimpl. rewrite length_app, Hx, IH. lia. Qed.

Lemma dir_chunks l : Forall entry_ok l -> Forall (fun e => length (dirent_as_bytes (entry_of e)) = 32%nat) l.
Proof. intros Hl. eapply Forall_impl; [exact Hl|apply entry_bytes_length]. Qed.

Lemma dir_bytes_snoc l e : dir_bytes (l ++ [e]) = dir_bytes l ++ dirent_as_bytes (entry_of e).
Proof. unfold dir_bytes. rewrite fmap_app, concat_app. simpl. by rewrite app_nil_r. Qed.

Lemma assoc_snoc name l e : assoc name (l ++ [e]) =
  match assoc name l with Some i => Some i | None => if decide (e.1 = name) then Some e.2 else None end.
Proof.
  destruct e as [m j]. induction l as [|[n i] l IH]; [done|]. cbn [assoc app].
  destruct (decide (n = name)); [done|apply IH].
Qed.

Lemma assoc_None name l : assoc name l = None <-> name ∉ l.*1.
Proof.
  induction l as [|[n i] l IH]; simpl; [split; [intros _; apply not_elem_of_nil|done]|].
  case_decide; [subst; split; [done|set_solver]|]. rewrite IH, not_elem_of_cons. naive_solver.
Qed.

Lemma assoc_Some name l i : NoDup l.*1 -> assoc name l = Some i <-> (name, i) ∈ l.
Proof.
  induction l as [|[n j] l IH]; simpl; intros Hnd; [split; [done|intros ?%not_elem_of_nil; done]|].
  apply NoDup_cons in Hnd as [Hn Hnd]. rewrite elem_of_cons. case_decide as E; [subst n|].
  - split; [intros [= ->]; by left|]. intros [[= ->]|Hin]; [done|].
    exfalso. apply Hn. apply list_elem_of_fmap. by exists (name, i).
  - rewrite (IH Hnd). split; [by right|]. intros [[= ? ?]|?]; [congruence|done].
Qed.

Section Dir.
Context {St : Type} `{BlockStoreSpec St}.

Section Read.
Variables (L : gset Z) (σ : gmap Z (list byte)) (di : DiskInode) (T : Trees) (l : directory).
Hypothesis Hf : file_ok L σ di T.
Hypothesis HL : Z.of_nat (base.size L) < BLOCK_CACHE_SIZE.
Hypothesis Hdir : dir_rep σ di T l.

Lemma dir_size : size di = 32 * zlen l.
Proof.
  clear HL. rewrite <- (contents_length _ _ _ _ Hf), (dir_contents _ _ _ _ Hdir). unfold zlen, dir_bytes.
  rewrite (chunks_length _ 32) by apply dir_chunks, Hdir. lia.
Qed.

Lemma read_dirent_runs dirent k e :
  length (ent_name dirent) = 28%nat -> l !! k = Some e ->
  runs (St := St) L σ (read_dirent di dirent (Z.of_nat k)) (entry_of e) σ.
Proof.
  intros Hd Hk. pose proof dir_size as Hs. pose proof (fok_size _ _ _ _ Hf) as Hmax.
  pose proof (lookup_lt_Some _ _ _ Hk) as Hlt. change MAX_SIZE with 1082209792 in Hmax.
  pose proof (dirent_as_bytes_length dirent Hd) as Hlen.
  pose proof (read_at_runs L σ di T (DIRENT_SZ * Z.of_nat k) (dirent_as_bytes dirent) Hf HL) as R.
  unfold DIRENT_SZ in *. unfold zlen in *. rewrite Hlen in R.
  replace (Z.to_nat (32 * Z.of_nat k)) with (32 * k)%nat in R by lia.
  rewrite (dir_contents _ _ _ _ Hdir) in R. unfold dir_bytes in R.
  rewrite (chunk_lookup _ 32 l k e) in R; [|apply dir_chunks, Hdir|done].
  destruct (Forall_lookup_1 _ _ _ _ (dir_entries _ _ _ _ Hdir) Hk) as [Hn Hi].
  rewrite entry_bytes_length in R by done. eapply runs_bind; [apply R; lia|]. cbv beta iota.
  eapply runs_bind_assert; [done|].
  rewrite drop_ge, app_nil_r by lia. rewrite dirent_bytes_roundtrip; [apply runs_ret|by apply entry_name_length|done].
Qed.

Lemma entry_name_runs {V} k e (f : list byte -> cmd St V) v σ' :
  l !! k = Some e -> runs L σ (f e.1) v σ' -> runs L σ (let* s := lift (dirent_name (entry_of e)) in f s) v σ'.
Proof.
  intros Hk Hr. pose proof (Forall_lookup_1 _ _ _ _ (dir_entries _ _ _ _ Hdir) Hk) as He.
  eapply runs_bind_lift; [|exact Hr]. by eapply dirent_name_new; [apply He|apply entry_new].
Qed.

Lemma find_loop_runs name n : forall k dirent, (k + n = length l)%nat -> length (ent_name dirent) = 28%nat ->
  runs L σ (find_loop name di dirent (seqZ (Z.of_nat k) (Z.of_nat n))) (assoc name (drop k l)) σ.
Proof.
  induction n as [|n IH]; intros k dirent Hk Hd.
  { rewrite drop_ge by lia. apply runs_ret. }
  rewrite seqZ_cons by lia. replace (Z.pred (Z.of_nat (S n))) with (Z.of_nat n) by lia.
  replace (Z.succ (Z.of_nat k)) with (Z.of_nat (S k)) by lia.
  destruct (lookup_lt_is_Some_2 l k) as [[n0 i0] He]; [lia|]. rewrite (drop_S _ _ _ He). simpl.
  eapply runs_bind; [by eapply read_dirent_runs|]. eapply entry_name_runs; [done|]. simpl.
  case_decide; [apply runs_ret|]. apply IH; [lia|].
  apply entry_name_length. by eapply (Forall_lookup_1 _ _ _ _ (dir_entries _ _ _ _ Hdir)).
Qed.

Lemma find_inode_id_runs name : runs L σ (find_inode_id name di) (assoc name l) σ.
Proof.
  unfold find_inode_id. eapply runs_bind_assert; [by apply bool_decide_eq_true, Hdir|].
  rewrite dir_size. unfold DIRENT_SZ. rewrite (Z.mul_comm 32), Z.div_mul by done.
  apply (find_loop_runs name (length l) 0 dirent_empty); [lia|done].
Qed.

Lemma ls_loop_runs n : forall k v, (k + n = length l)%nat ->
  runs L σ (ls_loop di (seqZ (Z.of_nat k) (Z.of_nat n)) v) (v ++ (drop k l).*1) σ.
Proof.
  induction n as [|n IH]; intros k v Hk.
  { rewrite drop_ge by lia. simpl. rewrite app_nil_r. apply runs_ret. }
  rewrite seqZ_cons by lia. replace (Z.pred (Z.of_nat (S n))) with (Z.of_nat n) by lia.
  replace (Z.succ (Z.of_nat k)) with (Z.of_nat (S k)) by lia.
  destruct (lookup_lt_is_Some_2 l k) as [[n0 i0] He]; [lia|]. rewrite (drop_S _ _ _ He).
  eapply runs_bind; [by eapply read_dirent_runs|]. eapply entry_name_runs; [done|].
  specialize (IH (S k) (v ++ [n0]) ltac:(lia)). rewrite <- app_assoc in IH. exact IH.
Qed.

End Read.

(** ** The invariant with the directory *)
Record fs_dir (σ : gmap Z (list byte)) (fs : EasyFileSystem) (N : Z) (I : table_of) (X : gset Z)
    (l : directory) : Prop := {
  fd_inv : fs_inv σ fs N I X;
  fd_root : exists di T, I !! 0 = Some (di, T) /\ dir_rep σ di T l;
  fd_names : NoDup l.*1;
  fd_ids : NoDup (0 :: l.*2);
  fd_dom i : is_Some (I !! i) <-> i ∈ 0 :: l.*2;
  fd_type i di T : i ∈ l.*2 -> I !! i = Some (di, T) -> type_ di = File;
}.

(** What a program sees: the contents of the file of a name. *)
Definition files (σ : gmap Z (list byte)) (I : table_of) (l : directory) (name : list byte)
    : option (list byte) :=
  i ← assoc name l; contents_of σ I !! i.

Lemma files_Some σ fs N I X l name i : fs_dir σ fs N I X l -> assoc name l = Some i ->
  exists di T, I !! i = Some (di, T) /\ files σ I l name = Some (file_contents σ di T) /\ i ∈ l.*2 /\ i <> 0.
Proof.
  intros Hfd Ha. assert (Hin : i ∈ l.*2).
  { apply assoc_Some in Ha; [|apply Hfd]. apply list_elem_of_fmap. by exists (name, i). }
  destruct (proj2 (fd_dom _ _ _ _ _ _ Hfd i)) as [[di T] Hi]; [by right|]. exists di, T.
  split_and!; [done| |done|].
  - unfold files, contents_of. rewrite Ha. simpl. by rewrite lookup_fmap, Hi.
  - intros ->. pose proof (fd_ids _ _ _ _ _ _ Hfd) as Hnd. apply NoDup_cons in Hnd as [? _]. done.
Qed.

Lemma dir_rep_contents σ σ' di T l : file_contents σ' di T = file_contents σ di T ->
  dir_rep σ di T l -> dir_rep σ' di T l.
Proof. intros E [? ? Hc]. split; [done|done|by rewrite E]. Qed.

Lemma contents_lookup σ I i di T : I !! i = Some (di, T) -> contents_of σ I !! i = Some (file_contents σ di T).
Proof. intros Hi. unfold contents_of. by rewrite lookup_fmap, Hi. Qed.

(** A file of the directory changes. *)
Lemma fs_dir_update σ σ' fs N I X X' l i di T di' T' c :
  fs_dir σ fs N I X l -> i ∈ l.*2 -> I !! i = Some (di, T) -> type_ di' = type_ di ->
  fs_inv σ' fs N (<[i := (di', T')]> I) X' ->
  contents_of σ' (<[i := (di', T')]> I) = <[i := c]> (contents_of σ I) ->
  fs_dir σ' fs N (<[i := (di', T')]> I) X' l /\
  forall name, files σ' (<[i := (di', T')]> I) l name =
    if decide (assoc name l = Some i) then Some c else files σ I l name.
Proof.
  intros Hfd Hin Hi Hty Hinv' Hc.
  assert (Hne : i <> 0) by (intros ->; pose proof (fd_ids _ _ _ _ _ _ Hfd) as Hnd; by apply NoDup_cons in Hnd as [? _]).
  destruct (fd_root _ _ _ _ _ _ Hfd) as (dr & Tr & Hr & Hdir).
  assert (Hr' : <[i := (di', T')]> I !! 0 = Some (dr, Tr)) by (by rewrite lookup_insert_ne).
  split; [split; [done| |apply Hfd|apply Hfd| |]|].
  - exists dr, Tr. split; [done|]. eapply dir_rep_contents; [|done].
    apply (contents_lookup σ') in Hr'. rewrite Hc, lookup_insert_ne in Hr' by done.
    rewrite (contents_lookup _ _ _ _ _ Hr) in Hr'. by injection Hr'.
  - intros j. rewrite <- (fd_dom _ _ _ _ _ _ Hfd), lookup_insert. case_decide; [|done]. subst. split; eauto.
  - intros j dj Tj Hj. rewrite lookup_insert. case_decide as E.
    + intros [= <- <-]. rewrite Hty. exact (fd_type _ _ _ _ _ _ Hfd i di T Hin Hi).
    + by apply (fd_type _ _ _ _ _ _ Hfd).
  - intros name. unfold files. rewrite Hc. destruct (assoc name l) as [j|] eqn:Ha; simpl; [|done].
    rewrite lookup_insert. destruct (decide (i = j)), (decide (Some j = Some i)); congruence.
Qed.

(** [root_inode] of efs.rs. *)
Lemma root_inode_vinode fs N : geometry fs N -> root_inode fs = vinode fs 0.
Proof.
  intros Hg. pose proof (geometry_order _ _ Hg) as (_ & _ & _ & G4). pose proof (geo_iblocks _ _ Hg).
  unfold root_inode. rewrite (proj1 (inode_pos fs N 0 Hg ltac:(lia))). done.
Qed.

Section Root.
Variables (σ : gmap Z (list byte)) (fs : EasyFileSystem) (N : Z) (I : table_of) (X : gset Z) (l : directory).
Hypothesis Hfd : fs_dir σ fs N I X l.

Lemma read_root {V} (f : DiskInode -> cmd St V) v :
  (forall L di T, file_ok L σ di T -> Z.of_nat (base.size L) < BLOCK_CACHE_SIZE -> dir_rep σ di T l ->
     runs L σ (f di) v σ) ->
  runs ∅ σ (read_disk_inode (root_inode fs) f) v σ.
Proof.
  intros Hrun. pose proof (fd_inv _ _ _ _ _ _ Hfd) as Hinv. pose proof (inv_geo _ _ _ _ _ Hinv) as Hg.
  destruct (fd_root _ _ _ _ _ _ Hfd) as (di & T & Hi & Hdir).
  destruct (inv_nodes _ _ _ _ _ Hinv 0 di T Hi) as (Hir & Hslot & _). rewrite (root_inode_vinode fs N Hg).
  eapply runs_read_inode; [by eapply inv_disk_ok|done|done|apply lockable_slot|].
  pose proof (one_lock_room fs 0). eapply Hrun; [|lia|done].
  pose proof (geometry_order _ _ Hg) as (G1 & G2 & G3 & _).
  eapply inv_file_ok; [done|done|]. intros b Hb%(one_lock fs N 0 Hg Hir). lia.
Qed.

Lemma find_runs name :
  runs ∅ σ (find fs (root_inode fs) name) (vinode fs <$> assoc name l) σ.
Proof.
  apply read_root. intros L di T Hf HL Hdir. eapply runs_bind; [by eapply find_inode_id_runs|].
  destruct (assoc name l) as [i|] eqn:Ha; [|apply runs_ret].
  destruct (files_Some _ _ _ _ _ _ _ _ Hfd Ha) as (di' & T' & Hi & _).
  pose proof (fd_inv _ _ _ _ _ _ Hfd) as Hinv.
  destruct (inv_nodes _ _ _ _ _ Hinv i di' T' Hi) as (Hir & _).
  rewrite (proj1 (inode_pos fs N i (inv_geo _ _ _ _ _ Hinv) Hir)). apply runs_ret.
Qed.

Lemma ls_runs : runs ∅ σ (ls (root_inode fs)) l.*1 σ.
Proof.
  apply read_root. intros L di T Hf HL Hdir. rewrite (dir_size _ _ _ _ _ Hf Hdir). unfold DIRENT_SZ.
  rewrite (Z.mul_comm 32), Z.div_mul by done. by apply (ls_loop_runs L σ di T l Hf HL Hdir (length l) 0 []).
Qed.

Lemma create_exists name i : assoc name l = Some i ->
  runs ∅ σ (create fs (root_inode fs) name) None σ.
Proof.
  intros Ha. eapply runs_bind.
  - eapply (read_root _ (Some i)). intros L di T Hf HL Hdir.
    eapply runs_bind_assert; [by apply bool_decide_eq_true, Hdir|]. rewrite <- Ha. by eapply find_inode_id_runs.
  - apply runs_ret.
Qed.

End Root.

End Dir.
