(* ===== verification/FsCreate.v ===== *)
(** * Creating files and file systems (vfs.rs, [create]; efs.rs, [create] and [open]) *)

From S2P Require Import Prelude BlockDev BlockStore Bitmap Layout DiskCodec Tree BuildTree TreeOps ClearTree Inode InodeOps FileData Efs Vfs FsInv FsAlloc FsUpdate FsOps FsDir.

(** The trees of an inode that has none. *)
Definition no_trees : Trees := mkTrees (Node 0 []) (Node 0 []) (Node 0 []).

Lemma initialize_direct di ty : length (direct (initialize di ty)) = length (direct di).
Proof. apply length_fmap. Qed.

(** Writing at the end of a file appends. *)
Lemma written_end c buf : written c (zlen c) buf = c ++ buf.
Proof.
  unfold written, splice, zlen. rewrite Nat2Z.id, resize_ge by lia.
  rewrite take_app_length, drop_ge by (rewrite length_app, length_replicate; lia). by rewrite app_nil_r.
Qed.

Lemma initialize_words di ty : length (direct di) = 27%nat -> inode_words_ok (initialize di ty).
Proof.
  intros Hd. split; [done|by rewrite initialize_direct| |by repeat constructor].
  apply Forall_forall. intros x (y & -> & _)%list_elem_of_fmap. lia.
Qed.

(** Enough free data blocks for a file to grow from one size to another. *)
Definition room (fs : EasyFileSystem) (N : Z) (X : gset Z) (from to : Z) : Prop :=
  Z.of_nat (base.size X) + Z.max 0 (file_weight (_data_blocks to) - file_weight (_data_blocks from))
    <= N - data_area_start_block fs.

(** The directory with the file that was added to the table. *)
Lemma fs_dir_snoc σ σ' fs N I X X' l name i di T dr' Tr' :
  fs_dir σ fs N I X l -> assoc name l = None -> I !! i = None -> 0 <= i < 2 ^ 32 -> name_ok name ->
  type_ di = File -> type_ dr' = Directory ->
  fs_inv σ' fs N (<[0 := (dr', Tr')]> (<[i := (di, T)]> I)) X' ->
  file_contents σ' dr' Tr' = dir_bytes (l ++ [(name, i)]) ->
  fs_dir σ' fs N (<[0 := (dr', Tr')]> (<[i := (di, T)]> I)) X' (l ++ [(name, i)]).
Proof.
  intros Hfd Hnew Hni Hi Hname Hty Htyr Hinv' Hc.
  destruct (fd_root _ _ _ _ _ _ Hfd) as (dr & Tr & Hr & Hdir). assert (Hne : i <> 0) by congruence.
  assert (Hnl : i ∉ 0 :: l.*2) by (intros Hin%(fd_dom _ _ _ _ _ _ Hfd); destruct Hin; congruence).
  split; [done| | | | |].
  - exists dr', Tr'. split; [by rewrite lookup_insert_eq|]. split; [done| |done].
    apply Forall_app. split; [apply Hdir|]. repeat constructor; [apply Hname..|simpl; lia|simpl; lia].
  - rewrite fmap_app. apply NoDup_app. split_and!; [apply Hfd| |apply NoDup_singleton].
    intros n Hn ->%list_elem_of_singleton. apply assoc_None in Hnew. done.
  - rewrite fmap_app, app_comm_cons. apply NoDup_app. split_and!; [apply Hfd| |apply NoDup_singleton].
    intros n Hn ->%list_elem_of_singleton. done.
  - intros j. rewrite fmap_app, app_comm_cons, elem_of_app, <- (fd_dom _ _ _ _ _ _ Hfd), !lookup_insert.
    change ([(name, i)].*2) with [i]. rewrite list_elem_of_singleton.
    destruct (decide (0 = j)), (decide (i = j)); subst; try done.
    + split; [|eauto]. rewrite Hr. eauto.
    + split; [by right|eauto].
    + split; [by left|]. intros [?|?]; [done|congruence].
  - intros j dj Tj Hj. rewrite fmap_app, elem_of_app in Hj. rewrite !lookup_insert.
    assert (j <> 0). { pose proof (fd_ids _ _ _ _ _ _ Hfd) as [? _]%NoDup_cons.
      destruct Hj as [Hj|Hj%list_elem_of_singleton]; [set_solver|simpl in Hj; congruence]. }
    destruct (decide (0 = j)); [congruence|]. destruct (decide (i = j)); [by intros [= <- <-]|].
    destruct Hj as [Hj|Hj%list_elem_of_singleton]; [|simpl in Hj; congruence].
    by apply (fd_type _ _ _ _ _ _ Hfd).
Qed.

Section Create.
Context {St : Type} `{BlockStoreSpec St}.

(** Storing a fresh inode into its slot. *)
Lemma initialize_runs σ fs N i di ty :
  disk_ok σ fs N -> 0 <= i < inodes fs -> inode_slot σ fs i = Some di -> length (direct di) = 27%nat ->
  runs (St := St) ∅ σ (modify inode_view (slot_block fs i) (slot_offset i)
    (fun new_inode => ret (tt, initialize new_inode ty))) tt (write_slot σ fs i (initialize di ty)).
Proof.
  intros Hdk Hi Hs Hd. apply (runs_modify_inode (St := St) ∅ σ fs N i di);
    [done|done|done|apply lockable_slot|by rewrite initialize_direct|done|apply runs_ret].
Qed.

Lemma empty_node σ di ty : blocks_ok σ -> length (direct di) = 27%nat ->
  node_ok σ (initialize di ty) no_trees /\ file_contents σ (initialize di ty) no_trees = [].
Proof.
  intros Hok Hd. pose proof (initialize_words di ty Hd) as Hw.
  destruct (empty_file_ok ∅ σ (initialize di ty) no_trees) as ([Hr _ _ [Hnd _]] & Ht & Hc);
    [done|apply Hw|apply Hw|done|]. split; [|done]. split; [done|done|done|done|done].
Qed.

Lemma new_inode_runs σ fs N I X ty :
  fs_inv σ fs N I X -> (exists j, 0 <= j < inodes fs /\ I !! j = None) ->
  exists i σ1 σ2 di, runs (St := St) ∅ σ (alloc_inode fs) i σ1 /\
    runs (St := St) ∅ σ1 (modify inode_view (slot_block fs i) (slot_offset i)
      (fun new_inode => ret (tt, initialize new_inode ty))) tt σ2 /\
    I !! i = None /\ 0 <= i < inodes fs /\ (forall j, 0 <= j < i -> is_Some (I !! j)) /\ type_ di = ty /\
    fs_inv σ2 fs N (<[i := (di, no_trees)]> I) X /\
    contents_of σ2 (<[i := (di, no_trees)]> I) = <[i := []]> (contents_of σ I).
Proof.
  intros Hinv (j & Hj & Hnj). pose proof (inv_geo _ _ _ _ _ Hinv) as Hg.
  pose proof (geometry_order _ _ Hg) as (G1 & G2 & G3 & _).
  destruct (alloc_inode_runs (St := St) σ fs N (dom I)) as (i & σ1 & Hrun1 & Hni & Hi & Hfirst & Hdk1 & Hib1 & Hfr1);
    [by eapply inv_disk_ok|by eapply inv_ibits_dom|exists j; split; [done|by apply not_elem_of_dom]|].
  apply not_elem_of_dom in Hni. pose proof (slot_block_range fs N i Hg Hi) as Hblk.
  destruct (inv_slots _ _ _ _ _ Hinv i Hi) as (d0 & Hs0 & Hd0).
  rewrite <- (slot_frame σ σ1) in Hs0 by (apply Hfr1; unfold slot_block in Hblk; lia).
  set (di := initialize d0 ty). set (σ2 := write_slot σ1 fs i di).
  assert (Hdi : length (direct di) = 27%nat) by (unfold di; by rewrite initialize_direct).
  assert (Hfr : forall b, start_block_id (data_bitmap fs) <= b -> σ2 !! b = σ !! b).
  { intros b Hb. unfold σ2. rewrite write_slot_other by lia. apply Hfr1. lia. }
  assert (Hdk2 : disk_ok σ2 fs N) by (by apply write_slot_disk_ok).
  assert (Hother : forall b j, owns I j b -> σ2 !! b = σ !! b).
  { intros b k Hb. apply Hfr. apply (owns_area _ _ _ _ _ _ _ Hinv) in Hb. lia. }
  destruct (empty_node σ2 d0 ty ltac:(apply Hdk2) Hd0) as [Hnode Hc]. fold di in Hnode, Hc.
  destruct (empty_owned σ2 di no_trees eq_refl) as [Ho _].
  exists i, σ1, σ2, di. split_and!; [done|by eapply initialize_runs|done|lia|lia| |done| |].
  - intros k Hk. by apply elem_of_dom, Hfirst.
  - eapply fs_insert; [done|done|done| | | | | |by eapply inv_in_area| |done|rewrite Ho|rewrite Ho; set_solver|eauto].
    + eapply write_slot_same; [done..|]. by apply initialize_words.
    + intros k Hk Hne. unfold σ2. erewrite write_slot_ne by (done || lia). apply slot_frame.
      apply Hfr1. pose proof (slot_block_range fs N k Hg Hk) as Hr. unfold slot_block in Hr. lia.
    + unfold σ2. rewrite write_slot_other by lia. apply Hfr1. lia.
    + eapply ibits_frame; [done| |exact Hib1]. intros b Hb. apply write_slot_other. lia.
    + intros k Hk. rewrite <- (inv_dbits _ _ _ _ _ Hinv) by done. apply bitmap_bit_frame; [done|].
      intros b Hb. apply Hfr. lia.
    + intros b Hb Hnb. rewrite Hfr by lia. by apply (inv_free _ _ _ _ _ Hinv).
    + intros b. rewrite (inv_used _ _ _ _ _ Hinv). split.
      * intros (k & Hk). right. exists k. split; [|done]. intros ->. destruct Hk as (? & ? & Hk & _). congruence.
      * intros [?%not_elem_of_nil|(k & _ & Hk)]; [done|eauto].
  - rewrite (contents_update σ σ2 fs N I X) by eauto. by rewrite Hc.
Qed.

(** The entry appended by [create]. *)
Lemma append_entry σ fs N I X l di T e :
  fs_inv σ fs N I X -> I !! 0 = Some (di, T) -> dir_rep σ di T l -> entry_ok e ->
  32 * (zlen l + 1) <= MAX_SIZE ->
  Z.of_nat (base.size X) + Z.max 0 (needed di (32 * (zlen l + 1))) <= N - data_area_start_block fs ->
  exists σ' di' T' X',
    runs (St := St) ∅ σ (modify_disk_inode (root_inode fs) (fun root_inode =>
      let file_count := size root_inode / DIRENT_SZ in
      let new_size := w64 (w64 (file_count + 1) * DIRENT_SZ) in
      let* root_inode := vfs_increase_size fs (w32 new_size) root_inode in
      let* dirent := lift (dirent_new e.1 e.2) in
      let* _ := write_at root_inode (file_count * DIRENT_SZ) (dirent_as_bytes dirent) in
      ret (tt, root_inode))) tt σ' /\
    fs_inv σ' fs N (<[0 := (di', T')]> I) X' /\ type_ di' = Directory /\
    contents_of σ' (<[0 := (di', T')]> I) = <[0 := dir_bytes (l ++ [e])]> (contents_of σ I).
Proof.
  intros Hinv Hi Hdir He Hmax Hroom. destruct (inv_nodes _ _ _ _ _ Hinv 0 di T Hi) as (Hir & _ & _).
  pose proof (inv_geo _ _ _ _ _ Hinv) as Hg. change MAX_SIZE with 1082209792 in *.
  pose proof (inv_file_ok _ _ _ _ _ ∅ _ _ _ Hinv Hi ltac:(set_solver)) as Hf0.
  pose proof (dir_size _ _ _ _ _ Hf0 Hdir) as Hsz. pose proof (contents_length _ _ _ _ Hf0) as Hlc.
  pose proof (entry_bytes_length e He) as Hlb. assert (0 <= zlen l) by (unfold zlen; lia).
  set (buf := dirent_as_bytes (entry_of e)) in *. assert (Hzb : zlen buf = 32) by (unfold zlen; lia).
  destruct (grow_write_runs (St := St) σ fs N I X 0 ({[slot_block fs 0]} ∪ ∅) di T (zlen l * 32) buf)
    as (di1 & T' & X' & σ1 & σ' & Hrun1 & Hrun2 & Hin & Hty & _ & Hc); rewrite ?Hzb;
    [done|done|by eapply one_lock|apply one_lock_room|lia|lia|change MAX_SIZE with 1082209792; lia| |].
  { by replace (zlen l * 32 + 32) with (32 * (zlen l + 1)) by lia. }
  rewrite (root_inode_vinode fs N Hg).
  edestruct (modify_inner (V := unit) σ σ' fs N I X 0 di T di1 T' X') as (σ2 & Hrun & Hinv' & Hc' & _);
    [done|done| |exact Hin|].
  2: { exists σ2, di1, T', X'. split_and!; [exact Hrun|done|rewrite Hty; apply Hdir|].
       rewrite Hc', Hc, dir_bytes_snoc, <- (dir_contents _ _ _ _ Hdir). fold buf.
       replace (zlen l * 32) with (zlen (file_contents σ di T)) by lia. by rewrite written_end. }
  cbv beta zeta. rewrite Hsz. unfold DIRENT_SZ. rewrite (Z.mul_comm 32), Z.div_mul by done.
  rewrite (w64_small (zlen l + 1)), w64_small, w32_small by lia.
  replace ((zlen l + 1) * 32) with (zlen l * 32 + zlen buf) by lia.
  eapply runs_bind; [exact Hrun1|]. eapply runs_bind_lift; [by apply entry_new|]. fold buf.
  eapply runs_bind; [exact Hrun2|]. apply runs_ret.
Qed.

(** [create] of a name that is not in the directory. *)
Lemma create_new σ fs N I X l name :
  fs_dir σ fs N I X l -> assoc name l = None -> name_ok name ->
  (exists j, 0 <= j < inodes fs /\ I !! j = None) -> 32 * (zlen l + 1) <= MAX_SIZE ->
  room fs N X (32 * zlen l) (32 * (zlen l + 1)) ->
  exists i σ' I' X', commits σ (create fs (root_inode fs) name) (Some (vinode fs i)) σ' /\
    fs_dir σ' fs N I' X' (l ++ [(name, i)]) /\
    contents_of σ' I' = <[0 := dir_bytes (l ++ [(name, i)])]> (<[i := []]> (contents_of σ I)) /\
    I !! i = None.
Proof.
  intros Hfd Hnew Hname Hfree Hmax Hroom. pose proof (fd_inv _ _ _ _ _ _ Hfd) as Hinv.
  pose proof (inv_geo _ _ _ _ _ Hinv) as Hg.
  destruct (new_inode_runs σ fs N I X File Hinv Hfree)
    as (i & σ1 & σ2 & di & Hrun1 & Hrun2 & Hni & Hi & _ & Hty & Hinv2 & Hc2).
  destruct (fd_root _ _ _ _ _ _ Hfd) as (dr & Tr & Hr & Hdir).
  assert (Hne : i <> 0) by congruence. pose proof (geometry_order _ _ Hg) as (_ & _ & _ & G4).
  pose proof (geo_iblocks _ _ Hg).
  assert (Hr2 : <[i := (di, no_trees)]> I !! 0 = Some (dr, Tr)) by (by rewrite lookup_insert_ne).
  assert (Hdir2 : dir_rep σ2 dr Tr l).
  { eapply dir_rep_contents; [|done]. apply (contents_lookup σ2) in Hr2. rewrite Hc2, lookup_insert_ne in Hr2 by done.
    rewrite (contents_lookup _ _ _ _ _ Hr) in Hr2. by injection Hr2. }
  pose proof (inv_file_ok _ _ _ _ _ ∅ _ _ _ Hinv Hr ltac:(set_solver)) as Hfr.
  destruct (append_entry σ2 fs N (<[i := (di, no_trees)]> I) X l dr Tr (name, i))
    as (σ3 & dr' & Tr' & X' & Hrun3 & Hinv3 & Hty3 & Hc3); [done|done|done|split; [done|simpl; lia]|done| |].
  { unfold needed, data_blocks. rewrite (dir_size _ _ _ _ _ Hfr Hdir). exact Hroom. }
  exists i, σ3, (<[0 := (dr', Tr')]> (<[i := (di, no_trees)]> I)), X'. split_and!; [| |by rewrite Hc3, Hc2|done].
  - eapply commits_bind.
    { eapply (read_root _ _ _ _ _ _ Hfd _ None). intros L d T Hf HL Hd.
      eapply runs_bind_assert; [by apply bool_decide_eq_true, Hd|]. rewrite <- Hnew. by eapply find_inode_id_runs. }
    eapply commits_bind; [exact Hrun1|]. rewrite (proj1 (inode_pos fs N i Hg Hi)).
    eapply commits_bind; [exact Hrun2|]. eapply commits_bind; [exact Hrun3|]. apply commits_sync_ret.
  - eapply fs_dir_snoc; [done..|lia|done|done|done|done|].
    assert (Hl3 := contents_lookup σ3 (<[0 := (dr', Tr')]> (<[i := (di, no_trees)]> I)) 0 dr' Tr' ltac:(by rewrite lookup_insert_eq)).
    rewrite Hc3, lookup_insert_eq in Hl3. by injection Hl3.
Qed.

End Create.

(** ** Formatting and opening a disk (efs.rs, [create] and [open])

    [create] plans the regions and leaves a file system with an empty root
    directory; [open] finds the same regions again in the super block. *)

(** The disks [create] can format. *)
Record plan_ok (N ib : Z) : Prop := {
  plan_inodes : 0 < ib <= 2 ^ 20;
  plan_fit : 1 + 1025 * ib <= N < 2 ^ 32 - 4096;
}.

(** The file system [create] makes. *)
Definition planned (N ib : Z) : EasyFileSystem :=
  let db := ceil_div (N - 1 - 1025 * ib) 4097 in
  mkEfs (mkBitmap 1 ib) (mkBitmap (1 + 1025 * ib) db) (1 + ib) (1 + 1025 * ib + db).

Section Plan.
Variables N ib : Z.
Hypothesis Hp : plan_ok N ib.

Lemma plan_areas_eq : let db := ceil_div (N - 1 - 1025 * ib) 4097 in
  plan_areas N ib = mkAreas (1024 * ib) db (N - 1 - 1025 * ib - db) /\ 0 <= db <= N - 1 - 1025 * ib.
Proof.
  destruct Hp as [Hi Hf]. intros db. unfold plan_areas, maximum. cbn [blocks].
  change BLOCK_BITS with 4096. change DISK_INODE_SZ with 128. change BLOCK_SZ with 512.
  rewrite (w64_small (ib * 4096)), (w64_small (ib * 4096 * 128)), (w64_small (_ + 512)), (w64_small (_ - 1)) by lia.
  replace ((ib * 4096 * 128 + 512 - 1) / 512) with (1024 * ib) by dlia.
  rewrite (w32_small (1024 * ib)), (w32_small (ib + _)), (w32_small (N - 1)), (w32_small (N - 1 - _)) by lia.
  replace (N - 1 - (ib + 1024 * ib)) with (N - 1 - 1025 * ib) by lia.
  rewrite (w32_small (_ + 4096)) by lia.
  assert (E : (N - 1 - 1025 * ib + 4096) / 4097 = db) by (unfold db, ceil_div; f_equal; lia). rewrite E.
  assert (0 <= db <= N - 1 - 1025 * ib) by (rewrite <- E; dlia). rewrite w32_small by lia. done.
Qed.

Lemma planned_geometry : geometry (planned N ib) N.
Proof.
  destruct plan_areas_eq as [_ Hdb]. destruct Hp as [Hi Hf].
  split; unfold planned, capacity; cbn [inode_bitmap data_bitmap inode_area_start_block data_area_start_block start_block_id blocks];
    change BLOCK_BITS with 4096; try lia.
  pose proof (ceil_div_spec (N - 1 - 1025 * ib) 4097 ltac:(lia) ltac:(lia)). lia.
Qed.

Definition planned_super : SuperBlock :=
  let db := ceil_div (N - 1 - 1025 * ib) 4097 in
  super_initialize N ib (1024 * ib) db (N - 1 - 1025 * ib - db).

Lemma planned_super_words : u32_all (super_words planned_super).
Proof.
  destruct plan_areas_eq as [_ Hdb]. destruct Hp as [Hi Hf].
  unfold u32_all, super_words, planned_super, super_initialize.
  cbn [magic sb_total_blocks inode_bitmap_blocks inode_area_blocks data_bitmap_blocks data_area_blocks].
  unfold EFS_MAGIC. rewrite !Forall_cons. split_and!; [lia..|by constructor].
Qed.

Lemma planned_super_fs : super_fs planned_super = planned N ib.
Proof.
  destruct plan_areas_eq as [_ Hdb]. destruct Hp as [Hi Hf]. unfold super_fs, planned_super, planned.
  cbn [inode_bitmap_blocks inode_area_blocks data_bitmap_blocks super_initialize].
  rewrite (w32_small (ib + 1024 * ib)) by lia. rewrite (w32_small (1 + (ib + 1024 * ib))) by lia.
  rewrite (w32_small (1 + ib)) by lia. rewrite w32_small by lia. repeat f_equal; lia.
Qed.

End Plan.

(** ** A disk of zeros *)
Lemma zero_field off n : 0 <= off -> 0 <= n -> off + n <= 512 -> field zero_block off n = replicate (Z.to_nat n) Byte.x00.
Proof.
  intros. unfold field, zero_block. rewrite drop_replicate, take_replicate. f_equal. change block_len with 512%nat. lia.
Qed.

Definition zero_inode : DiskInode := mkInode 0 (replicate 27 0) 0 0 0 File.

Lemma zero_slot σ fs i : 0 <= i -> σ !! (inode_area_start_block fs + i / 4) = Some zero_block ->
  inode_slot σ fs i = Some zero_inode.
Proof.
  intros Hi Hb. unfold inode_slot. rewrite Hb. cbn [mbind option_bind].
  rewrite zero_field by dlia. change (Z.to_nat 128) with 128%nat.
  assert (E : decode inode_view (replicate 128 Byte.x00) = Ok zero_inode) by (vm_compute; reflexivity). by rewrite E.
Qed.

Lemma zero_bit σ bm k : 0 <= k -> σ !! (start_block_id bm + k / BLOCK_BITS) = Some zero_block ->
  bitmap_bit σ bm k = Some false.
Proof.
  intros Hk Hb. unfold bitmap_bit. rewrite Hb. cbn [mbind option_bind].
  assert (E : dec_words 8 64 zero_block = replicate 64 0) by (vm_compute; reflexivity). rewrite E.
  unfold block_bit. change BLOCK_BITS with 4096.
  rewrite lookup_replicate_2 by dlia. cbn [mbind option_bind]. by rewrite Z.testbit_0_l.
Qed.

Section Format.
Context {St : Type} `{BlockStoreSpec St}.

Lemma clear_all_runs bs : forall σ, blocks_ok σ -> (forall b, b ∈ bs -> is_Some (σ !! b)) ->
  exists σ', runs (St := St) ∅ σ (for_each bs (fun i _ => clear_block i) tt) tt σ' /\
    forall b, σ' !! b = if decide (b ∈ bs) then Some zero_block else σ !! b.
Proof.
  induction bs as [|b bs IH]; intros σ Hok Hbs; [exists σ; split; [apply runs_ret|done]|].
  destruct (IH (<[b := zero_block]> σ)) as (σ' & Hrun & Hσ').
  - intros x y Hx. rewrite lookup_insert in Hx. case_decide; [by simplify_eq|by eapply Hok].
  - intros x Hx. rewrite lookup_insert. case_decide; [done|]. apply Hbs. by right.
  - exists σ'. split.
    + eapply runs_bind; [|exact Hrun]. apply clear_block_runs; [apply Hbs; by left|done|].
      split; [set_solver|by rewrite size_empty].
    + intros x. rewrite Hσ', lookup_insert. destruct (decide (x ∈ bs)); [by rewrite decide_True by (by right)|].
      destruct (decide (b = x)); [by rewrite decide_True by (subst; by left)|]. rewrite decide_False by set_solver. done.
Qed.

(** The super block on a disk of zeros. *)
Definition formatted (σ : gmap Z (list byte)) (N ib : Z) : gmap Z (list byte) :=
  <[0 := splice zero_block 0 (encode super_view (field zero_block 0 24) (planned_super N ib))]> σ.

Lemma formatted_inv σ N ib : plan_ok N ib ->
  (forall b, σ !! b = if decide (0 <= b < N) then Some zero_block else None) ->
  fs_inv (formatted σ N ib) (planned N ib) N ∅ ∅.
Proof.
  intros Hp Hσ. pose proof (planned_geometry N ib Hp) as Hg.
  pose proof (geometry_order _ _ Hg) as (G1 & G2 & G3 & G4). destruct Hg as [E1 E2 E3 E4 E5 E6 E7 E8] eqn:Eg.
  assert (Hlen : length (splice zero_block 0 (encode super_view (field zero_block 0 24) (planned_super N ib))) = 512%nat).
  { rewrite splice_length; [done|]. cbn [encode super_view]. rewrite enc_words_length. simpl. lia. }
  assert (Hz : forall b, 1 <= b < N -> formatted σ N ib !! b = Some zero_block).
  { intros b Hb. unfold formatted. rewrite lookup_insert_ne by lia. rewrite Hσ, decide_True by lia. done. }
  assert (Hno : forall i b, ~ owns ∅ i b) by (intros i b (? & ? & Hi & _); done).
  split; [done| | | | | |done| | |set_solver| |].
  - intros b. unfold formatted. rewrite lookup_insert, Hσ.
    destruct (decide (0 = b)); [split; [lia|eauto]|]. destruct (decide (0 <= b < N)); [split; eauto|].
    split; [by intros []|lia].
  - intros b x. unfold formatted. rewrite lookup_insert, Hσ.
    destruct (decide (0 = b)); [by intros [= <-]|]. destruct (decide (0 <= b < N)); [by intros [= <-]|done].
  - intros i Hi. exists zero_inode. split; [|done]. apply zero_slot; [lia|]. apply Hz.
    pose proof (slot_block_range _ N i Hg Hi) as Hr. unfold slot_block in Hr. lia.
  - intros i Hi. rewrite zero_bit; [by rewrite bool_decide_false by (rewrite lookup_empty; by intros [])|lia|].
    apply Hz. rewrite E1. change BLOCK_BITS with 4096. dlia.
  - intros k Hk. rewrite zero_bit; [by rewrite bool_decide_false by set_solver|lia|].
    apply Hz. unfold capacity in Hk. change BLOCK_BITS with 4096 in *. dlia.
  - intros i j b Hi. by apply Hno in Hi.
  - intros b. split; [set_solver|]. intros [i Hi]. by apply Hno in Hi.
  - exists (splice zero_block 0 (encode super_view (field zero_block 0 24) (planned_super N ib))), (planned_super N ib).
    split_and!; [apply lookup_insert_eq| |done|by apply planned_super_fs].
    unfold field at 1. set (x := encode super_view (field zero_block 0 24) (planned_super N ib)) in *.
    replace (Z.to_nat 24) with (length x) by done.
    rewrite take_drop_splice by (change (length x) with 24%nat; change (length zero_block) with 512%nat; lia).
    by apply super_decode_encode, planned_super_words.
  - intros b Hb _. apply Hz. lia.
Qed.

Lemma write_super_runs σ N ib : plan_ok N ib -> σ !! 0 = Some zero_block ->
  runs (St := St) ∅ σ (modify super_view 0 0 (fun _ => ret (tt, planned_super N ib))) tt (formatted σ N ib).
Proof.
  intros Hp Hz. assert (exists t, decode super_view (field zero_block 0 24) = Ok t) as [t Ht].
  { eexists. vm_compute. reflexivity. }
  unfold formatted. change 0%nat with (Z.to_nat 0).
  eapply (runs_modify ∅ σ σ super_view 0 0 zero_block t); [|done|done|exact Ht|done|apply runs_ret].
  split; [set_solver|]. rewrite size_empty. done.
Qed.

(** The root directory on the formatted disk. *)
Lemma root_dir_runs σ fs N : fs_inv σ fs N ∅ ∅ ->
  exists σ1 σ2 di, runs (St := St) ∅ σ (alloc_inode fs) 0 σ1 /\
    runs (St := St) ∅ σ1 (modify inode_view (slot_block fs 0) (slot_offset 0)
      (fun disk_inode => ret (tt, initialize disk_inode Directory))) tt σ2 /\
    fs_dir σ2 fs N {[0 := (di, no_trees)]} ∅ [].
Proof.
  intros Hinv. pose proof (inv_geo _ _ _ _ _ Hinv) as Hg. pose proof (geometry_order _ _ Hg) as (_ & _ & _ & G4).
  pose proof (geo_iblocks _ _ Hg).
  destruct (new_inode_runs (St := St) σ fs N ∅ ∅ Directory Hinv)
    as (i & σ1 & σ2 & di & Hrun1 & Hrun2 & _ & Hi & Hfirst & Hty & Hinv2 & Hc2); [exists 0; split; [lia|done]|].
  assert (i = 0) as ->.
  { destruct (decide (i = 0)); [done|]. destruct (Hfirst 0) as [? ?]; [lia|done]. }
  exists σ1, σ2, di. split_and!; [done|done|]. rewrite insert_empty in Hinv2, Hc2.
  split; [done| |constructor|apply NoDup_singleton| |set_solver].
  - exists di, no_trees. split; [apply lookup_singleton_eq|]. split; [done|constructor|].
    assert (Hl := contents_lookup σ2 {[0 := (di, no_trees)]} 0 di no_trees (lookup_singleton_eq _ _)).
    rewrite Hc2, lookup_insert_eq in Hl. by injection Hl.
  - intros j. rewrite lookup_singleton. change ([].*2) with (@nil Z). rewrite list_elem_of_singleton.
    destruct (decide (0 = j)); split; [done|eauto|by intros []|congruence].
Qed.

Lemma efs_create_runs σ N ib : plan_ok N ib -> blocks_ok σ -> (forall b, is_Some (σ !! b) <-> 0 <= b < N) ->
  exists σ' di, commits (St := St) σ (efs_create N ib) (planned N ib) σ' /\
    fs_dir σ' (planned N ib) N {[0 := (di, no_trees)]} ∅ [].
Proof.
  intros Hp Hok Hdom. destruct (plan_areas_eq N ib Hp) as [Ha Hdb]. pose proof Hp as [Hi Hf].
  destruct (clear_all_runs (seqZ 0 N) σ Hok) as (σ1 & Hrun1 & Hσ1).
  { intros b Hb%elem_of_seqZ. apply Hdom. lia. }
  assert (Hσ1' : forall b, σ1 !! b = if decide (0 <= b < N) then Some zero_block else None).
  { intros b. rewrite Hσ1. destruct (decide (b ∈ seqZ 0 N)) as [Hb%elem_of_seqZ|Hb].
    - by rewrite decide_True by lia.
    - rewrite elem_of_seqZ in Hb. rewrite decide_False by lia. apply eq_None_not_Some. rewrite Hdom. lia. }
  pose proof (formatted_inv σ1 N ib Hp Hσ1') as Hinv.
  destruct (root_dir_runs _ _ _ Hinv) as (σ3 & σ4 & di & Hrun3 & Hrun4 & Hdir).
  pose proof (planned_geometry N ib Hp) as Hg. pose proof (geometry_order _ _ Hg) as (_ & _ & _ & G4).
  pose proof (geo_iblocks _ _ Hg).
  exists σ4, di. split; [|done]. unfold efs_create. rewrite Ha.
  cbn [area_inode_blocks area_data_bitmap_blocks area_data_blocks].
  rewrite (w32_small (ib + 1024 * ib)), (w32_small (1 + ib)), (w32_small (1 + ib + 1024 * ib)) by lia.
  rewrite (w32_small (1 + (ib + 1024 * ib))) by lia. rewrite (w32_small (1 + (ib + 1024 * ib) + _)) by lia.
  replace (1 + ib + 1024 * ib) with (1 + 1025 * ib) by lia. replace (1 + (ib + 1024 * ib)) with (1 + 1025 * ib) by lia.
  change (mkEfs _ _ _ _) with (planned N ib).
  eapply commits_bind; [exact Hrun1|].
  eapply commits_bind; [apply (write_super_runs σ1 N ib Hp); by rewrite Hσ1', decide_True by lia|].
  eapply commits_bind; [exact Hrun3|]. eapply commits_bind; [by apply runs_assert|].
  rewrite (proj1 (inode_pos _ N 0 Hg ltac:(lia))).
  eapply commits_bind; [exact Hrun4|]. apply commits_sync_ret.
Qed.

Lemma efs_open_runs σ fs N I X : fs_inv σ fs N I X -> runs (St := St) ∅ σ efs_open fs σ.
Proof.
  intros Hinv. destruct (inv_super _ _ _ _ _ Hinv) as (b & sb & Hb & Hd & Hv & <-).
  eapply runs_read; [|done|exact Hd|].
  - split; [set_solver|]. rewrite size_empty. done.
  - eapply runs_bind_assert; [done|]. apply runs_ret.
Qed.

End Format.
