(* ===== verification/FsSpec.v ===== *)
(** * The file system as a list of named files

    The abstract file system is the list of the files, with their names and
    contents, in the order of their creation.  [fs_rep] relates it to a disk,
    and each operation of vfs.rs, called the way its clients call it, is shown to
    do on the disk what [spec_fsop] does on the list. *)

From S2P Require Import Prelude BlockDev BlockStore Bitmap Layout DiskCodec Tree BuildTree TreeOps ClearTree Inode InodeOps FileData Efs Vfs FsInv FsAlloc FsUpdate FsOps FsDir FsCreate.

Abbreviation named_files := (list (list byte * list byte)).

Inductive fsop :=
  | FsCreate (name : list byte)
  | FsWrite (name : list byte) (offset : Z) (buf : list byte)
  | FsRead (name : list byte) (offset len : Z)
  | FsClear (name : list byte)
  | FsLs.

Inductive answer :=
  | Created (new : bool)
  | Bytes (b : list byte)
  | Count (n : Z)
  | Names (ns : list (list byte))
  | Done
  | NoSuchFile.

(** ** The specification *)
Fixpoint lookup_name (name : list byte) (a : named_files) : option (list byte) :=
  match a with
  | [] => None
  | (n, c) :: a => if decide (n = name) then Some c else lookup_name name a
  end.

Fixpoint update_name (name c : list byte) (a : named_files) : named_files :=
  match a with
  | [] => []
  | (n, c0) :: a => if decide (n = name) then (n, c) :: a else (n, c0) :: update_name name c a
  end.

Definition spec_fsop (o : fsop) (a : named_files) : answer * named_files :=
  match o with
  | FsCreate name =>
      match lookup_name name a with
      | Some _ => (Created false, a)
      | None => (Created true, a ++ [(name, [])])
      end
  | FsWrite name offset buf =>
      match lookup_name name a with
      | Some c => (Count (zlen buf), update_name name (written c offset buf) a)
      | None => (NoSuchFile, a)
      end
  | FsRead name offset len =>
      match lookup_name name a with
      | Some c => (Bytes (take (Z.to_nat len) (drop (Z.to_nat offset) c)), a)
      | None => (NoSuchFile, a)
      end
  | FsClear name =>
      match lookup_name name a with
      | Some _ => (Done, update_name name [] a)
      | None => (NoSuchFile, a)
      end
  | FsLs => (Names a.*1, a)
  end.

(** ** The implementation: how os/src/fs/inode.rs and easy-fs-fuse call vfs.rs *)
Section Impl.
Context {St : Type} `{BlockStore St}.

Definition with_file (fs : EasyFileSystem) (name : list byte) (f : Inode -> cmd St answer) : cmd St answer :=
  let* r := find fs (root_inode fs) name in
  match r with Some inode => f inode | None => ret NoSuchFile end.

Definition do_fsop (fs : EasyFileSystem) (o : fsop) : cmd St answer :=
  match o with
  | FsCreate name =>
      let* r := create fs (root_inode fs) name in ret (Created (bool_decide (is_Some r)))
  | FsWrite name offset buf =>
      with_file fs name (fun inode => let* n := vfs_write_at fs inode offset buf in ret (Count n))
  | FsRead name offset len =>
      with_file fs name (fun inode =>
        let* (n, buf) := vfs_read_at inode offset (replicate (Z.to_nat len) Byte.x00) in
        ret (Bytes (take (Z.to_nat n) buf)))
  | FsClear name => with_file fs name (fun inode => clear fs inode;; ret Done)
  | FsLs => let* ns := ls (root_inode fs) in ret (Names ns)
  end.

Fixpoint do_fsops (fs : EasyFileSystem) (os : list fsop) : cmd St (list answer) :=
  match os with
  | [] => ret []
  | o :: os => let* r := do_fsop fs o in let* rs := do_fsops fs os in ret (r :: rs)
  end.
End Impl.

Fixpoint spec_fsops (os : list fsop) (a : named_files) : list answer * named_files :=
  match os with
  | [] => ([], a)
  | o :: os => let '(r, a1) := spec_fsop o a in let '(rs, a2) := spec_fsops os a1 in (r :: rs, a2)
  end.

(** ** Resources *)

(** Blocks of a file of [n] bytes, and of the whole file system. *)
Definition bytes_weight (n : Z) : Z := file_weight (_data_blocks n).
Fixpoint files_weight (a : named_files) : Z :=
  match a with [] => 0 | (_, c) :: a => bytes_weight (zlen c) + files_weight a end.
Definition fs_weight (a : named_files) : Z := bytes_weight (32 * zlen a) + files_weight a.

Definition spec_after (o : fsop) (a : named_files) : named_files := (spec_fsop o a).2.

(** What an operation needs: valid names, files that are not too long, and a
    disk that holds the result. *)
Definition fsop_ok (fs : EasyFileSystem) (N : Z) (o : fsop) (a : named_files) : Prop :=
  fs_weight (spec_after o a) <= N - data_area_start_block fs /\
  zlen (spec_after o a) < inodes fs /\ 32 * zlen (spec_after o a) <= MAX_SIZE /\
  match o with
  | FsCreate name => name_ok name
  | FsWrite name offset buf => 0 <= offset /\ 0 < zlen buf /\ offset + zlen buf <= MAX_SIZE
  | FsRead _ offset len => 0 <= offset /\ 0 <= len /\ offset + len < 2 ^ 64
  | FsClear name => forall c, lookup_name name a = Some c -> clearable (_data_blocks (zlen c))
  | FsLs => True
  end.

Fixpoint fsops_ok (fs : EasyFileSystem) (N : Z) (os : list fsop) (a : named_files) : Prop :=
  match os with
  | [] => True
  | o :: os => fsop_ok fs N o a /\ fsops_ok fs N os (spec_after o a)
  end.

(** ** The relation to the disk *)
Definition view_files (σ : gmap Z (list byte)) (I : table_of) (l : directory) : named_files :=
  (fun '(n, i) => (n, default [] (contents_of σ I !! i))) <$> l.

(** The disk holds the files [a], whose names and inodes are [l]. *)
Definition fs_view (σ : gmap Z (list byte)) (fs : EasyFileSystem) (N : Z) (l : directory) (a : named_files) : Prop :=
  exists I X, fs_dir σ fs N I X l /\ a = view_files σ I l.

Definition fs_rep (σ : gmap Z (list byte)) (fs : EasyFileSystem) (N : Z) (a : named_files) : Prop :=
  exists l, fs_view σ fs N l a.

Lemma view_cons σ I n i l :
  view_files σ I ((n, i) :: l) = (n, default [] (contents_of σ I !! i)) :: view_files σ I l.
Proof. done. Qed.

Lemma assoc_in name l i : assoc name l = Some i -> i ∈ l.*2.
Proof.
  induction l as [|[n k] l IH]; [done|]. simpl. destruct (decide (n = name)); [intros [= ->]; by left|right; auto].
Qed.

Lemma view_names σ I l : (view_files σ I l).*1 = l.*1.
Proof. induction l as [|[n i] l IH]; [done|]. unfold view_files in *. csimpl. by rewrite IH. Qed.

Lemma view_length σ I l : zlen (view_files σ I l) = zlen l.
Proof. unfold zlen, view_files. by rewrite length_fmap. Qed.

Lemma lookup_view σ fs N I X l name : fs_dir σ fs N I X l ->
  lookup_name name (view_files σ I l) = files σ I l name.
Proof.
  intros Hfd. assert (Hall : Forall (fun e => is_Some (I !! e.2)) l).
  { apply Forall_forall. intros [n i] Hin. apply (fd_dom _ _ _ _ _ _ Hfd). right. apply list_elem_of_fmap. eauto. }
  clear Hfd. induction Hall as [|[n i] l [[di T] Hi] _ IH]; [done|].
  unfold files, view_files in *. csimpl. destruct (decide (n = name)); [|exact IH]. simpl.
  unfold contents_of. simpl in Hi. by rewrite lookup_fmap, Hi.
Qed.

Lemma update_notin name c a : name ∉ a.*1 -> update_name name c a = a.
Proof.
  induction a as [|[n c0] a IH]; [done|]. intros Hn. simpl in *. apply not_elem_of_cons in Hn as [? ?].
  rewrite decide_False by done. by rewrite IH.
Qed.

Lemma view_other σ σ' I I' l i c : contents_of σ' I' = <[i := c]> (contents_of σ I) -> i ∉ l.*2 ->
  view_files σ' I' l = view_files σ I l.
Proof.
  intros Hc Hi. apply list_fmap_ext. intros k [n j] Hk. rewrite Hc, lookup_insert_ne; [done|].
  intros <-. apply Hi, list_elem_of_fmap. exists (n, i). split; [done|]. by eapply list_elem_of_lookup_2.
Qed.

Lemma view_update σ σ' I I' l name i c :
  NoDup l.*2 -> assoc name l = Some i -> contents_of σ' I' = <[i := c]> (contents_of σ I) ->
  view_files σ' I' l = update_name name c (view_files σ I l).
Proof.
  intros Hnd Ha Hc. induction l as [|[n j] l IH]; [done|]. simpl in Ha, Hnd. apply NoDup_cons in Hnd as [Hj Hnd].
  rewrite !view_cons. cbn [update_name]. destruct (decide (n = name)) as [->|Hne].
  - injection Ha as ->. rewrite (view_other σ σ' I I' l i c) by done. by rewrite Hc, lookup_insert_eq.
  - rewrite (IH Hnd Ha), Hc, lookup_insert_ne; [done|]. intros <-. by apply Hj, (assoc_in name).
Qed.

(** ** The blocks in use *)
Definition owned_by (I : table_of) (i : Z) : list Z :=
  match I !! i with Some (di, T) => owned (data_blocks di) di T | None => [] end.

Lemma owns_owned_by I i b : owns I i b <-> b ∈ owned_by I i.
Proof.
  unfold owns, owned_by. destruct (I !! i) as [[di T]|] eqn:Hi.
  - split; [by intros (? & ? & [= <- <-] & ?)|eauto].
  - split; [by intros (? & ? & ? & _)|by intros ?%not_elem_of_nil].
Qed.

Lemma NoDup_concat_fmap {A B} (f : A -> list B) ids :
  NoDup ids -> (forall i, i ∈ ids -> NoDup (f i)) -> (forall i j b, b ∈ f i -> b ∈ f j -> i = j) ->
  NoDup (concat (f <$> ids)).
Proof.
  intros Hnd Hf Hsep. induction Hnd as [|i ids Hi Hnd IH]; [constructor|]. csimpl. apply NoDup_app.
  split_and!; [apply Hf; by left| |apply IH; intros; apply Hf; by right].
  intros b Hb (j & Hj & Hbj)%elem_of_concat_fmap. by rewrite (Hsep i j b Hb Hbj) in Hi.
Qed.

Lemma owned_by_weight σ fs N I X i di T : fs_inv σ fs N I X -> I !! i = Some (di, T) ->
  Z.of_nat (length (owned_by I i)) = bytes_weight (size di) /\ zlen (file_contents σ di T) = size di.
Proof.
  intros Hinv Hi. pose proof (inv_file_ok _ _ _ _ _ ∅ _ _ _ Hinv Hi ltac:(set_solver)) as Hf.
  split; [|by eapply contents_length]. unfold owned_by. rewrite Hi. eapply owned_length, Hf.
Qed.

Lemma files_weight_length σ fs N I X l :
  fs_inv σ fs N I X -> Forall (fun e => is_Some (I !! e.2)) l ->
  Z.of_nat (length (concat (owned_by I <$> l.*2))) = files_weight (view_files σ I l).
Proof.
  intros Hinv Hall. induction Hall as [|[n i] l [[di T] Hi] _ IH]; [done|].
  simpl in Hi. destruct (owned_by_weight _ _ _ _ _ _ _ _ Hinv Hi) as [Hw Hc]. csimpl.
  rewrite length_app, Nat2Z.inj_add, IH, Hw, (contents_lookup _ _ _ _ _ Hi). simpl. by rewrite Hc.
Qed.

Lemma used_weight σ fs N I X l : fs_dir σ fs N I X l -> Z.of_nat (base.size X) = fs_weight (view_files σ I l).
Proof.
  intros Hfd. pose proof (fd_inv _ _ _ _ _ _ Hfd) as Hinv. set (ids := 0 :: l.*2).
  assert (HX : X = list_to_set (concat (owned_by I <$> ids))).
  { apply set_eq. intros b. rewrite elem_of_list_to_set, elem_of_concat_fmap, (inv_used _ _ _ _ _ Hinv).
    setoid_rewrite owns_owned_by. split; [intros [i Hi]; exists i; split; [|done]|naive_solver].
    apply (fd_dom _ _ _ _ _ _ Hfd). apply owns_owned_by in Hi as (? & ? & ? & _). eauto. }
  assert (Hnd : NoDup (concat (owned_by I <$> ids))).
  { apply NoDup_concat_fmap; [apply Hfd| |].
    - intros i Hi%(fd_dom _ _ _ _ _ _ Hfd). destruct Hi as [[di T] Hi]. unfold owned_by. rewrite Hi.
      by apply (inv_nodes _ _ _ _ _ Hinv i di T Hi).
    - intros i j b Hi Hj. rewrite <- owns_owned_by in Hi, Hj. by eapply (inv_sep _ _ _ _ _ Hinv). }
  rewrite HX, size_list_to_set by done. unfold ids. csimpl. rewrite length_app, Nat2Z.inj_add.
  destruct (fd_root _ _ _ _ _ _ Hfd) as (dr & Tr & Hr & Hdir).
  destruct (owned_by_weight _ _ _ _ _ _ _ _ Hinv Hr) as [Hw Hc]. rewrite Hw, (files_weight_length _ _ _ _ _ _ Hinv).
  - unfold fs_weight. rewrite view_length. do 2 f_equal.
    eapply dir_size; [|exact Hdir]. eapply (inv_file_ok _ _ _ _ _ ∅); [done|done|set_solver].
  - apply Forall_forall. intros [n i] Hin. apply (fd_dom _ _ _ _ _ _ Hfd). right. apply list_elem_of_fmap. eauto.
Qed.
