(* ===== verification/FsRefine.v ===== *)
(** * The operations of vfs.rs implement the list of named files *)

From S2P Require Import Prelude BlockDev BlockStore Bitmap Layout DiskCodec Tree BuildTree TreeOps ClearTree Inode InodeOps FileData Efs Vfs FsInv FsAlloc FsUpdate FsOps FsDir FsCreate FsSpec.

(** ** Weights *)
Lemma bytes_weight_mono n m : 0 <= n <= m -> m <= MAX_SIZE -> bytes_weight n <= bytes_weight m.
Proof.
  intros Hn Hm. pose proof (data_blocks_mono n m Hn Hm) as Hle. pose proof (tree_weight_mono _ _ Hle).
  unfold bytes_weight, file_weight. lia.
Qed.

Lemma update_length name c a : zlen (update_name name c a) = zlen a.
Proof.
  unfold zlen. f_equal. induction a as [|[n c0] a IH]; [done|]. simpl. case_decide; simpl; [done|by rewrite IH].
Qed.

Lemma fs_weight_update name c c' a : lookup_name name a = Some c ->
  fs_weight (update_name name c' a) = fs_weight a - bytes_weight (zlen c) + bytes_weight (zlen c').
Proof.
  intros Hl. unfold fs_weight. rewrite update_length.
  assert (files_weight (update_name name c' a) = files_weight a - bytes_weight (zlen c) + bytes_weight (zlen c')); [|lia].
  induction a as [|[n c0] a IH]; [done|]. simpl in *. case_decide; simpl; [injection Hl as ->; lia|].
  rewrite IH by done. lia.
Qed.

Lemma fs_weight_snoc name a :
  fs_weight (a ++ [(name, [])]) = fs_weight a - bytes_weight (32 * zlen a) + bytes_weight (32 * (zlen a + 1)).
Proof.
  assert (Hf : files_weight (a ++ [(name, [])]) = files_weight a).
  2: { unfold fs_weight. rewrite Hf. unfold zlen. rewrite length_app. simpl length. rewrite Nat2Z.inj_add.
       change (Z.of_nat 1) with 1. lia. }
  induction a as [|[n c] a IH]; [done|]. simpl. by rewrite IH.
Qed.

Lemma written_length c offset buf : 0 <= offset -> zlen (written c offset buf) = Z.max (zlen c) (offset + zlen buf).
Proof.
  intros Hoff. unfold written, zlen. rewrite splice_length; rewrite length_resize; lia.
Qed.

(** The table has room for one more inode. *)
Lemma free_inode σ fs N I X l : fs_dir σ fs N I X l -> zlen l + 1 < inodes fs ->
  exists j, 0 <= j < inodes fs /\ I !! j = None.
Proof.
  intros Hfd Hlt. destruct (free_id 0 (inodes fs) (dom I)) as (j & Hj & Hnj).
  - assert (E : dom I = list_to_set (0 :: l.*2)).
    { apply set_eq. intros i. rewrite elem_of_dom, elem_of_list_to_set. apply Hfd. }
    rewrite E, size_list_to_set by apply Hfd. simpl. rewrite length_fmap. unfold zlen in Hlt. lia.
  - exists j. split; [done|by apply not_elem_of_dom].
Qed.

(** ** Operations on a file by its inode, as a client that keeps the [Inode] calls them *)
Section Views.
Context {St : Type} `{BlockStoreSpec St}.
Variables (σ : gmap Z (list byte)) (fs : EasyFileSystem) (N : Z) (l : directory) (a : named_files).
Hypothesis Hview : fs_view σ fs N l a.

(** A file of the list is a file of the directory. *)
Lemma view_lookup name c : lookup_name name a = Some c ->
  exists I X i di T, fs_dir σ fs N I X l /\ a = view_files σ I l /\ assoc name l = Some i /\
    I !! i = Some (di, T) /\ c = file_contents σ di T /\ i ∈ l.*2 /\ size di = zlen c /\ size di <= MAX_SIZE.
Proof.
  destruct Hview as (I & X & Hfd & ->). rewrite (lookup_view _ _ _ _ _ _ _ Hfd). intros Hl.
  destruct (assoc name l) as [i|] eqn:Ha; [|unfold files in Hl; by rewrite Ha in Hl].
  destruct (files_Some _ _ _ _ _ _ _ _ Hfd Ha) as (di & T & Hi & Hfi & Hin & _).
  rewrite Hl in Hfi. injection Hfi as ->. pose proof (fd_inv _ _ _ _ _ _ Hfd) as Hinv.
  exists I, X, i, di, T. split_and!; [done..| |].
  - symmetry. by eapply owned_by_weight.
  - by eapply (inv_nodes _ _ _ _ _ Hinv i).
Qed.

Lemma view_assoc name : is_Some (assoc name l) <-> is_Some (lookup_name name a).
Proof.
  destruct Hview as (I & X & Hfd & ->). rewrite (lookup_view _ _ _ _ _ _ _ Hfd). unfold files. split.
  - intros [i Ha]. destruct (files_Some _ _ _ _ _ _ _ _ Hfd Ha) as (di & T & _ & Hfi & _). unfold files in Hfi. eauto.
  - intros [c Hc]. destruct (assoc name l); [eauto|done].
Qed.

Lemma view_find name : runs (St := St) ∅ σ (find fs (root_inode fs) name) (vinode fs <$> assoc name l) σ.
Proof.
  destruct Hview as (I & X & Hfd & _). pose proof (find_runs (St := St) _ _ _ _ _ _ Hfd name) as Hrun.
  by destruct (assoc name l).
Qed.

Lemma view_ls : runs (St := St) ∅ σ (ls (root_inode fs)) a.*1 σ.
Proof. destruct Hview as (I & X & Hfd & ->). rewrite view_names. by eapply ls_runs. Qed.

(** The file of the directory after an operation on it. *)
Lemma view_set name I X X' i di T di' T' σ' c' :
  fs_dir σ fs N I X l -> a = view_files σ I l -> assoc name l = Some i -> I !! i = Some (di, T) ->
  fs_inv σ' fs N (<[i := (di', T')]> I) X' -> type_ di' = type_ di ->
  contents_of σ' (<[i := (di', T')]> I) = <[i := c']> (contents_of σ I) ->
  fs_view σ' fs N l (update_name name c' a).
Proof.
  intros Hfd -> Ha Hi Hinv' Hty Hc. exists (<[i := (di', T')]> I), X'.
  split; [eapply fs_dir_update; [done|by eapply assoc_in|done..]|]. symmetry. eapply view_update; [|done|done].
  pose proof (fd_ids _ _ _ _ _ _ Hfd) as Hnd. by apply NoDup_cons in Hnd as [_ ?].
Qed.

Lemma view_write name i c offset buf : assoc name l = Some i ->
  lookup_name name a = Some c -> 0 <= offset -> 0 < zlen buf -> offset + zlen buf <= MAX_SIZE ->
  fs_weight (update_name name (written c offset buf) a) <= N - data_area_start_block fs ->
  exists σ', commits (St := St) σ (vfs_write_at fs (vinode fs i) offset buf) (zlen buf) σ' /\
    fs_view σ' fs N l (update_name name (written c offset buf) a).
Proof.
  intros Hai Hl Hoff Hbuf Hmax Hw. pose proof (fs_weight_update name c (written c offset buf) a Hl) as Hw2.
  destruct (view_lookup name c Hl) as (I & X & i' & di & T & Hfd & Ha & Has & Hi & -> & Hin & Hsz & Hszm).
  assert (i' = i) as -> by congruence.
  pose proof (used_weight _ _ _ _ _ _ Hfd) as Hu. rewrite <- Ha in Hu.
  rewrite written_length in Hw2 by done.
  pose proof (bytes_weight_mono (size di) (Z.max (size di) (offset + zlen buf)) ltac:(unfold zlen in *; lia) ltac:(lia)).
  destruct (vfs_write_at_runs (St := St) σ fs N I X i di T offset buf)
    as (σ' & di' & T' & X' & Hrun & Hinv' & Hty & Hc); [apply Hfd|done|done|done|done| |].
  { unfold needed, data_blocks. fold (bytes_weight (offset + zlen buf)). fold (bytes_weight (size di)).
    rewrite <- Hsz in *.
    destruct (Z.max_spec (size di) (offset + zlen buf)) as [[? E]|[? E]]; rewrite E in *; [lia|].
    pose proof (bytes_weight_mono (offset + zlen buf) (size di) ltac:(lia) ltac:(lia)). lia. }
  exists σ'. split; [done|by eapply view_set].
Qed.

Lemma view_read name i c offset buf : assoc name l = Some i ->
  lookup_name name a = Some c -> 0 <= offset -> offset + zlen buf < 2 ^ 64 ->
  let out := take (length buf) (drop (Z.to_nat offset) c) in
  runs (St := St) ∅ σ (vfs_read_at (vinode fs i) offset buf) (zlen out, out ++ drop (length out) buf) σ.
Proof.
  intros Hai Hl Hoff H64 out.
  destruct (view_lookup name c Hl) as (I & X & i' & di & T & Hfd & Ha & Has & Hi & -> & Hin & Hsz & Hszm).
  assert (i' = i) as -> by congruence. eapply vfs_read_at_runs; [apply Hfd|done..].
Qed.

Lemma view_clear name i c : assoc name l = Some i ->
  lookup_name name a = Some c -> clearable (_data_blocks (zlen c)) ->
  exists σ', commits (St := St) σ (clear fs (vinode fs i)) tt σ' /\ fs_view σ' fs N l (update_name name [] a).
Proof.
  intros Hai Hl Hcl.
  destruct (view_lookup name c Hl) as (I & X & i' & di & T & Hfd & Ha & Has & Hi & -> & Hin & Hsz & Hszm).
  assert (i' = i) as -> by congruence.
  destruct (clear_runs (St := St) σ fs N I X i di T) as (σ' & di' & X' & Hrun & Hinv' & _ & Hty & Hc & _);
    [apply Hfd|done|unfold data_blocks; by rewrite Hsz|].
  exists σ'. split; [done|by eapply view_set].
Qed.

Lemma view_create_exists name c : lookup_name name a = Some c ->
  runs (St := St) ∅ σ (create fs (root_inode fs) name) None σ.
Proof.
  intros Hl. destruct (view_lookup name c Hl) as (I & X & i & di & T & Hfd & _ & Has & _). by eapply create_exists.
Qed.

Lemma view_create name :
  lookup_name name a = None -> name_ok name -> zlen a + 1 < inodes fs -> 32 * (zlen a + 1) <= MAX_SIZE ->
  fs_weight (a ++ [(name, [])]) <= N - data_area_start_block fs ->
  exists i σ', commits (St := St) σ (create fs (root_inode fs) name) (Some (vinode fs i)) σ' /\
    fs_view σ' fs N (l ++ [(name, i)]) (a ++ [(name, [])]).
Proof.
  intros Hl Hname Hino Hmax Hw. rewrite fs_weight_snoc in Hw. pose proof Hview as (I & X & Hfd & Ea).
  pose proof (used_weight _ _ _ _ _ _ Hfd) as Hu. rewrite <- Ea in Hu.
  assert (Hzl : zlen a = zlen l) by (rewrite Ea; apply view_length). rewrite Hzl in *.
  assert (Hn : assoc name l = None) by (apply eq_None_not_Some; rewrite view_assoc, Hl; by intros [??]).
  destruct (create_new (St := St) σ fs N I X l name) as (i & σ' & I' & X' & Hrun & Hfd' & Hc & Hni);
    [done|done|done|by eapply free_inode|done| |].
  { unfold room. fold (bytes_weight (32 * (zlen l + 1))). fold (bytes_weight (32 * zlen l)).
    pose proof (bytes_weight_mono (32 * zlen l) (32 * (zlen l + 1)) ltac:(unfold zlen in *; lia) ltac:(lia)). lia. }
  exists i, σ'. split; [done|]. exists I', X'. split; [done|].
  pose proof (fd_ids _ _ _ _ _ _ Hfd) as Hnd.
  assert (Hz0 : 0 ∉ l.*2) by (by apply NoDup_cons in Hnd as [? _]).
  destruct (fd_root _ _ _ _ _ _ Hfd) as (dr & Tr & Hr & _). assert (Hne : i <> 0) by congruence.
  unfold view_files. rewrite fmap_app, Ea. f_equal.
  - symmetry. apply list_fmap_ext. intros k [n j] Hk. apply list_elem_of_lookup_2 in Hk.
    assert (Hj : j ∈ l.*2) by (apply list_elem_of_fmap; by exists (n, j)).
    rewrite Hc, !lookup_insert_ne; [done| |]; intros E; subst j; [|done].
    pose proof (proj2 (fd_dom _ _ _ _ _ _ Hfd i) ltac:(by right)) as [? ?]. congruence.
  - simpl. rewrite Hc, lookup_insert_ne, lookup_insert_eq by done. done.
Qed.

End Views.

(** ** The same by name *)
Section Refine.
Context {St : Type} `{BlockStoreSpec St}.
Variables (σ : gmap Z (list byte)) (fs : EasyFileSystem) (N : Z) (a : named_files).
Hypothesis Hrep : fs_rep σ fs N a.

Lemma rep_find name : exists l, fs_view σ fs N l a /\
  runs (St := St) ∅ σ (find fs (root_inode fs) name) (vinode fs <$> assoc name l) σ /\
  match lookup_name name a with Some _ => exists i, assoc name l = Some i | None => assoc name l = None end.
Proof.
  destruct Hrep as [l Hv]. exists l. split_and!; [done|by eapply view_find|].
  pose proof (view_assoc _ _ _ _ _ Hv name) as Has. destruct (lookup_name name a); [by apply Has|].
  apply eq_None_not_Some. rewrite Has. by intros [??].
Qed.

Lemma rep_find_none name : lookup_name name a = None ->
  runs (St := St) ∅ σ (find fs (root_inode fs) name) None σ.
Proof. intros Hl. destruct (rep_find name) as (l & _ & Hrun & Hn). rewrite Hl in Hn. by rewrite Hn in Hrun. Qed.

Lemma rep_ls : runs (St := St) ∅ σ (ls (root_inode fs)) a.*1 σ.
Proof. destruct Hrep as [l Hv]. by eapply view_ls. Qed.

Lemma rep_write name c offset buf :
  lookup_name name a = Some c -> 0 <= offset -> 0 < zlen buf -> offset + zlen buf <= MAX_SIZE ->
  fs_weight (update_name name (written c offset buf) a) <= N - data_area_start_block fs ->
  exists i σ', runs (St := St) ∅ σ (find fs (root_inode fs) name) (Some (vinode fs i)) σ /\
    commits (St := St) σ (vfs_write_at fs (vinode fs i) offset buf) (zlen buf) σ' /\
    fs_rep σ' fs N (update_name name (written c offset buf) a).
Proof.
  intros Hl ????. destruct (rep_find name) as (l & Hv & Hrun & Hn). rewrite Hl in Hn. destruct Hn as [i Hi]. rewrite Hi in Hrun.
  destruct (view_write (St := St) σ fs N l a Hv name i c offset buf) as (σ' & Hw & Hv'); [done..|].
  exists i, σ'. split_and!; [done|done|by exists l].
Qed.

Lemma rep_read name c offset buf :
  lookup_name name a = Some c -> 0 <= offset -> offset + zlen buf < 2 ^ 64 ->
  let out := take (length buf) (drop (Z.to_nat offset) c) in
  exists i, runs (St := St) ∅ σ (find fs (root_inode fs) name) (Some (vinode fs i)) σ /\
    runs (St := St) ∅ σ (vfs_read_at (vinode fs i) offset buf) (zlen out, out ++ drop (length out) buf) σ.
Proof.
  intros Hl ??. destruct (rep_find name) as (l & Hv & Hrun & Hn). rewrite Hl in Hn. destruct Hn as [i Hi]. rewrite Hi in Hrun.
  exists i. split; [done|by eapply view_read].
Qed.

Lemma rep_clear name c :
  lookup_name name a = Some c -> clearable (_data_blocks (zlen c)) ->
  exists i σ', runs (St := St) ∅ σ (find fs (root_inode fs) name) (Some (vinode fs i)) σ /\
    commits (St := St) σ (clear fs (vinode fs i)) tt σ' /\ fs_rep σ' fs N (update_name name [] a).
Proof.
  intros Hl ?. destruct (rep_find name) as (l & Hv & Hrun & Hn). rewrite Hl in Hn. destruct Hn as [i Hi]. rewrite Hi in Hrun.
  destruct (view_clear (St := St) σ fs N l a Hv name i c) as (σ' & Hw & Hv'); [done..|].
  exists i, σ'. split_and!; [done|done|by exists l].
Qed.

Lemma rep_create_exists name c : lookup_name name a = Some c ->
  runs (St := St) ∅ σ (create fs (root_inode fs) name) None σ.
Proof. intros Hl. destruct Hrep as [l Hv]. by eapply view_create_exists. Qed.

Lemma rep_create name :
  lookup_name name a = None -> name_ok name -> zlen a + 1 < inodes fs -> 32 * (zlen a + 1) <= MAX_SIZE ->
  fs_weight (a ++ [(name, [])]) <= N - data_area_start_block fs ->
  exists i σ', commits (St := St) σ (create fs (root_inode fs) name) (Some (vinode fs i)) σ' /\
    fs_rep σ' fs N (a ++ [(name, [])]).
Proof.
  intros Hl ????. destruct Hrep as [l Hv]. destruct (view_create (St := St) σ fs N l a Hv name) as (i & σ' & Hc & Hv'); [done..|].
  exists i, σ'. split; [done|by eexists].
Qed.

End Refine.
