(* ===== verification/FsTheorems.v ===== *)
(** * Theorems on the file system

    The operations of efs.rs and vfs.rs on a disk implement the list of named
    files of FsSpec, for every sequence of operations that fits on the disk. *)

From S2P Require Import Prelude BlockDev BlockStore BlockCache Bitmap Layout DiskCodec Tree BuildTree TreeOps ClearTree Inode InodeOps FileData Efs Vfs FsInv FsAlloc FsUpdate FsOps FsDir FsCreate FsSpec FsRefine.

Section Theorems.
Context {St : Type} `{BlockStoreSpec St}.

(** One operation. *)
Lemma do_fsop_ok σ fs N a o : fs_rep σ fs N a -> fsop_ok fs N o a ->
  exists σ', runs (St := St) ∅ σ (do_fsop fs o) (spec_fsop o a).1 σ' /\ fs_rep σ' fs N (spec_fsop o a).2.
Proof.
  intros Hrep (Hw & Hi & Hm & Hop). unfold spec_after in *.
  destruct o as [name|name offset buf|name offset len|name|]; simpl in *.
  - destruct (lookup_name name a) as [c|] eqn:Hl.
    + exists σ. split; [|done]. eapply runs_bind; [by eapply rep_create_exists|]. apply runs_ret.
    + cbn [snd] in *. unfold zlen in Hi, Hm. rewrite length_app, Nat2Z.inj_add in Hi, Hm. fold (zlen a) in Hi, Hm.
      destruct (rep_create (St := St) σ fs N a Hrep name Hl Hop Hi Hm Hw) as (i & σ' & Hrun & Hrep').
      exists σ'. split; [|done]. eapply runs_bind; [by apply commits_runs|]. apply runs_ret.
  - destruct (lookup_name name a) as [c|] eqn:Hl.
    + destruct Hop as (? & ? & ?).
      destruct (rep_write (St := St) σ fs N a Hrep name c offset buf) as (i & σ' & Hf & Hrun & Hrep'); [done..|].
      exists σ'. split; [|done]. eapply runs_bind; [exact Hf|]. eapply runs_bind; [by apply commits_runs|]. apply runs_ret.
    + exists σ. split; [|done]. eapply runs_bind; [by eapply rep_find_none|]. apply runs_ret.
  - destruct (lookup_name name a) as [c|] eqn:Hl.
    + destruct Hop as (? & ? & ?). exists σ. split; [|done].
      destruct (rep_read (St := St) σ fs N a Hrep name c offset (replicate (Z.to_nat len) Byte.x00)) as (i & Hf & Hrun);
        [done|done|unfold zlen; rewrite length_replicate; lia|]. rewrite length_replicate in Hrun.
      eapply runs_bind; [exact Hf|]. eapply runs_bind; [exact Hrun|]. cbv beta iota. unfold zlen.
      rewrite Nat2Z.id, take_app_length. apply runs_ret.
    + exists σ. split; [|done]. eapply runs_bind; [by eapply rep_find_none|]. apply runs_ret.
  - destruct (lookup_name name a) as [c|] eqn:Hl.
    + destruct (rep_clear (St := St) σ fs N a Hrep name c Hl (Hop c eq_refl)) as (i & σ' & Hf & Hrun & Hrep').
      exists σ'. split; [|done]. eapply runs_bind; [exact Hf|]. eapply runs_bind; [by apply commits_runs|]. apply runs_ret.
    + exists σ. split; [|done]. eapply runs_bind; [by eapply rep_find_none|]. apply runs_ret.
  - exists σ. split; [|done]. eapply runs_bind; [by eapply rep_ls|]. apply runs_ret.
Qed.

(** C7: the file system refines the list of named files.  Whatever sequence of
    creations, reads, writes, truncations and listings is run, on any store that
    keeps the contract of the cache, every answer is the one the list gives and
    the disk represents the list at the end: no operation panics, deadlocks,
    loses a block or disturbs another file, as long as the files fit. *)
Theorem fs_refinement os : forall σ fs N a,
  fs_rep σ fs N a -> fsops_ok fs N os a ->
  exists σ', runs (St := St) ∅ σ (do_fsops fs os) (spec_fsops os a).1 σ' /\
    fs_rep σ' fs N (spec_fsops os a).2.
Proof.
  induction os as [|o os IH]; intros σ fs N a Hrep Hok; [exists σ; split; [apply runs_ret|done]|].
  destruct Hok as [Ho Hos]. destruct (do_fsop_ok σ fs N a o Hrep Ho) as (σ1 & Hrun1 & Hrep1).
  unfold spec_after in Hos. cbn [spec_fsops]. destruct (spec_fsop o a) as [r a1].
  destruct (IH σ1 fs N a1 Hrep1 Hos) as (σ2 & Hrun2 & Hrep2). destruct (spec_fsops os a1) as [rs a2].
  exists σ2. split; [|done]. eapply runs_bind; [exact Hrun1|]. eapply runs_bind; [exact Hrun2|]. apply runs_ret.
Qed.

(** [EasyFileSystem::create] formats a disk.  On every disk of the planned
    number of blocks, whatever it held, it ends with an empty root directory and
    everything on the device, and [open] finds the same file system again. *)
Theorem fs_format_open σ N ib :
  plan_ok N ib -> blocks_ok σ -> (forall b, is_Some (σ !! b) <-> 0 <= b < N) ->
  exists σ', commits (St := St) σ (efs_create N ib) (planned N ib) σ' /\
    fs_rep σ' (planned N ib) N [] /\ runs (St := St) ∅ σ' efs_open (planned N ib) σ'.
Proof.
  intros Hp Hok Hd. destruct (efs_create_runs (St := St) σ N ib Hp Hok Hd) as (σ' & di & Hrun & Hfd).
  exists σ'. split_and!; [done|by eexists _, _, _|eapply efs_open_runs; apply Hfd].
Qed.

(** What was written survives.  A write to an existing file is on the
    device when [write_at] returns; opening the disk again gives the same file
    system, in which reading the range returns the bytes written. *)
Theorem fs_write_reopen_read σ fs N a name c offset buf :
  fs_rep σ fs N a -> lookup_name name a = Some c ->
  fsop_ok fs N (FsWrite name offset buf) a ->
  exists i σ', runs (St := St) ∅ σ (find fs (root_inode fs) name) (Some (vinode fs i)) σ /\
    commits (St := St) σ (vfs_write_at fs (vinode fs i) offset buf) (zlen buf) σ' /\
    runs (St := St) ∅ σ' (let* fs' := efs_open in
       with_file fs' name (fun inode =>
         let* (n, b) := vfs_read_at inode offset (replicate (length buf) Byte.x00) in ret (Bytes b)))
      (Bytes buf) σ'.
Proof.
  intros Hrep Hl (Hw & _ & _ & Hoff & Hbuf & Hmax). unfold spec_after in Hw. simpl in Hw. rewrite Hl in Hw.
  destruct (rep_write (St := St) σ fs N a Hrep name c offset buf) as (i & σ' & Hf & Hrun & Hrep'); [done..|].
  exists i, σ'. split_and!; [done|done|].
  assert (Hl' : lookup_name name (update_name name (written c offset buf) a) = Some (written c offset buf)).
  { clear -Hl. induction a as [|[n c0] a IH]; [done|]. simpl in *. case_decide as E; simpl; [by rewrite decide_True|].
    rewrite decide_False by done. by apply IH. }
  destruct (rep_read (St := St) σ' fs N _ Hrep' name _ offset (replicate (length buf) Byte.x00) Hl') as (j & Hfj & Hrd);
    [done|change MAX_SIZE with 1082209792 in *; unfold zlen in *; rewrite length_replicate; lia|].
  assert (Hout : take (length buf) (drop (Z.to_nat offset) (written c offset buf)) = buf).
  { unfold written. apply take_drop_splice. rewrite length_resize. unfold zlen. lia. }
  rewrite length_replicate, Hout in Hrd.
  eapply runs_bind; [destruct Hrep' as (? & ? & ? & Hfd & _); eapply efs_open_runs; apply Hfd|].
  eapply runs_bind; [exact Hfj|]. eapply runs_bind; [exact Hrd|]. cbv beta iota.
  rewrite drop_ge, app_nil_r by (rewrite length_replicate; done). apply runs_ret.
Qed.

(** [create] of a new name adds an empty file, on the device when it
    returns; of a name that exists it returns [None] and changes nothing. *)
Theorem fs_create_correct σ fs N a name :
  fs_rep σ fs N a -> fsop_ok fs N (FsCreate name) a ->
  match lookup_name name a with
  | Some _ => runs (St := St) ∅ σ (create fs (root_inode fs) name) None σ
  | None => exists i σ', commits (St := St) σ (create fs (root_inode fs) name) (Some (vinode fs i)) σ' /\
      fs_rep σ' fs N (a ++ [(name, [])])
  end.
Proof.
  intros Hrep (Hw & Hi & Hm & Hname). unfold spec_after in *. simpl in *.
  destruct (lookup_name name a) as [c|] eqn:Hl; [by eapply rep_create_exists|].
  cbn [snd] in *. unfold zlen in Hi, Hm. rewrite length_app, Nat2Z.inj_add in Hi, Hm. fold (zlen a) in Hi, Hm.
  by apply rep_create.
Qed.

(** C33: [clear] empties a file and frees its blocks: the number of data blocks
    marked in use decreases by the blocks of the file, each of which is zero
    again, and the change is on the device. *)
Theorem fs_clear_frees σ fs N I X i di T :
  fs_inv σ fs N I X -> I !! i = Some (di, T) -> clearable (data_blocks di) ->
  exists σ' di' X', commits (St := St) σ (clear fs (vinode fs i)) tt σ' /\
    fs_inv σ' fs N (<[i := (di', T)]> I) X' /\ size di' = 0 /\
    contents_of σ' (<[i := (di', T)]> I) = <[i := []]> (contents_of σ I) /\
    Z.of_nat (base.size X') = Z.of_nat (base.size X) - total_blocks (size di) /\
    (forall b, b ∈ owned (data_blocks di) di T -> σ' !! b = Some zero_block).
Proof.
  intros Hinv Hi Hcl. destruct (clear_runs (St := St) σ fs N I X i di T Hinv Hi Hcl)
    as (σ' & di' & X' & Hrun & Hinv' & Hs & _ & Hc & ->).
  pose proof (inv_file_ok _ _ _ _ _ ∅ _ _ _ Hinv Hi ltac:(set_solver)) as Hf.
  assert (Hsub : forall b, b ∈ owned (data_blocks di) di T -> b ∈ X).
  { intros b Hb. apply (inv_used _ _ _ _ _ Hinv). by exists i, di, T. }
  eexists σ', di', _. split_and!; [done|done|done|done| |].
  - rewrite size_difference by (intros b Hb%elem_of_list_to_set; by apply Hsub).
    rewrite size_list_to_set by apply Hf. rewrite total_blocks_weight by apply Hf.
    pose proof (owned_length _ _ _ _ (fok_rep _ _ _ _ Hf)) as Ho. unfold zlen in Ho. unfold data_blocks in *.
    assert (Hle : (length (owned (_data_blocks (size di)) di T) <= base.size X)%nat).
    { rewrite <- (size_list_to_set (C := gset Z)) by apply Hf. apply subseteq_size.
      intros b Hb%elem_of_list_to_set. by apply Hsub. }
    lia.
  - intros b Hb. apply (inv_free _ _ _ _ _ Hinv').
    + apply (inv_area _ _ _ _ _ Hinv), Hsub, Hb.
    + rewrite elem_of_difference, elem_of_list_to_set. by intros [_ ?].
Qed.

End Theorems.

(** ** Instances *)
#[local] Existing Instance BlockFile.file_device.
#[local] Existing Instance BlockFile.file_device_spec.
#[local] Abbreviation Store := (CacheState BlockFile.File).

(** A disk of 1100 blocks that holds arbitrary bytes. *)
Definition small_disk : gmap Z (list byte) :=
  list_to_map ((fun i => (i, replicate 512 Byte.x41)) <$> seqZ 0 1100).

Lemma small_disk_blocks : blocks_ok small_disk.
Proof.
  intros id b Hb. apply elem_of_list_to_map_2, list_elem_of_fmap in Hb as (i & Heq & _). by injection Heq as -> ->.
Qed.

Lemma small_disk_dom b : is_Some (small_disk !! b) <-> 0 <= b < 1100.
Proof.
  unfold small_disk. rewrite <- elem_of_dom, dom_list_to_map_L, elem_of_list_to_set, <- list_fmap_compose.
  rewrite list_elem_of_fmap. setoid_rewrite elem_of_seqZ. simpl. split; [intros (? & -> & ?); lia|].
  intros. exists b. split; [done|lia].
Qed.

Lemma small_plan : plan_ok 1100 1.
Proof. split; lia. Qed.

Lemma fs_format_open_witness : exists σ',
  commits (St := Store) small_disk (efs_create 1100 1) (planned 1100 1) σ' /\
  runs (St := Store) ∅ σ' efs_open (planned 1100 1) σ'.
Proof.
  destruct (fs_format_open (St := Store) small_disk 1100 1 small_plan small_disk_blocks small_disk_dom)
    as (σ' & Hc & _ & Ho). by exists σ'.
Defined.

Lemma small_rep : exists σ, fs_rep σ (planned 1100 1) 1100 [].
Proof.
  destruct (efs_create_runs (St := Store) small_disk 1100 1 small_plan small_disk_blocks small_disk_dom)
    as (σ & di & _ & Hfd). exists σ. by eexists _, _, _.
Qed.

Definition name_a : list byte := [Byte.x61].
Lemma name_a_ok : name_ok name_a.
Proof. split_and!; [by vm_compute|done|]. apply not_elem_of_cons. split; [done|apply not_elem_of_nil]. Qed.

(** A session: a file is created, written past its end, read, cleared. *)
Definition session : list fsop :=
  [FsCreate name_a; FsCreate name_a; FsWrite name_a 2 [Byte.x68; Byte.x69]; FsRead name_a 0 10;
   FsClear name_a; FsRead name_a 0 10; FsLs].

(** Executable form of the resource conditions. *)
Definition fits (fs : EasyFileSystem) (N : Z) (o : fsop) (a : named_files) : bool :=
  (fs_weight (spec_after o a) <=? N - data_area_start_block fs) &&
  (zlen (spec_after o a) <? inodes fs) && (32 * zlen (spec_after o a) <=? MAX_SIZE).

Lemma fits_ok fs N o a : fits fs N o a = true ->
  match o with
  | FsCreate name => name_ok name
  | FsWrite name offset buf => 0 <= offset /\ 0 < zlen buf /\ offset + zlen buf <= MAX_SIZE
  | FsRead _ offset len => 0 <= offset /\ 0 <= len /\ offset + len < 2 ^ 64
  | FsClear name => forall c, lookup_name name a = Some c -> clearable (_data_blocks (zlen c))
  | FsLs => True
  end -> fsop_ok fs N o a.
Proof.
  unfold fits. rewrite !andb_true_iff, !Z.leb_le, Z.ltb_lt. intros [[? ?] ?] Ho. split_and!; [done..|exact Ho].
Qed.

Ltac fits_step := split; [apply fits_ok; [vm_compute; reflexivity|]|].

Lemma session_ok : fsops_ok (planned 1100 1) 1100 session [].
Proof.
  fits_step; [apply name_a_ok|]. fits_step; [apply name_a_ok|].
  fits_step; [split_and!; [lia|by vm_compute|by vm_compute]|]. fits_step; [lia|]. fits_step.
  { intros c Hc. assert (E : c = [Byte.x00; Byte.x00; Byte.x68; Byte.x69]) by (vm_compute in Hc; congruence).
    subst c. apply Z.leb_le. vm_compute. reflexivity. }
  fits_step; [lia|]. fits_step; done.
Qed.

Lemma fs_refinement_witness : exists σ σ', runs (St := Store) ∅ σ (do_fsops (planned 1100 1) session)
  [Created true; Created false; Count 2; Bytes [Byte.x00; Byte.x00; Byte.x68; Byte.x69]; Done; Bytes []; Names [name_a]] σ'.
Proof.
  destruct small_rep as [σ Hrep].
  destruct (fs_refinement (St := Store) session σ _ _ _ Hrep session_ok) as (σ' & Hrun & _). by exists σ, σ'.
Defined.

Lemma small_file_rep : exists σ, fs_rep σ (planned 1100 1) 1100 [(name_a, [])].
Proof.
  destruct small_rep as [σ Hrep].
  destruct (rep_create (St := Store) σ _ _ _ Hrep name_a) as (i & σ' & _ & Hrep'); [done|apply name_a_ok|by vm_compute|by vm_compute| |].
  { apply Z.leb_le. vm_compute. reflexivity. }
  by exists σ'.
Qed.

Lemma fs_write_reopen_read_witness : exists i σ σ',
  commits (St := Store) σ (vfs_write_at (planned 1100 1) (vinode (planned 1100 1) i) 600 [Byte.x68; Byte.x69]) 2 σ'.
Proof.
  destruct small_file_rep as [σ Hrep].
  destruct (fs_write_reopen_read (St := Store) σ _ _ _ name_a [] 600 [Byte.x68; Byte.x69] Hrep)
    as (i & σ' & _ & Hc & _); [done| |by exists i, σ, σ'].
  apply fits_ok; [vm_compute; reflexivity|split_and!; [lia|by vm_compute|by vm_compute]].
Defined.

Lemma fs_create_correct_witness : exists i σ σ',
  commits (St := Store) σ (create (planned 1100 1) (root_inode (planned 1100 1)) name_a)
    (Some (vinode (planned 1100 1) i)) σ'.
Proof.
  destruct small_rep as [σ Hrep].
  destruct (fs_create_correct (St := Store) σ _ _ _ name_a Hrep) as (i & σ' & Hc & _); [|by exists i, σ, σ'].
  apply fits_ok; [vm_compute; reflexivity|apply name_a_ok].
Defined.

(** A file of 602 bytes in two blocks. *)
Lemma small_written : exists σ I X i di T, fs_inv σ (planned 1100 1) 1100 I X /\ I !! i = Some (di, T) /\ size di = 602.
Proof.
  destruct small_file_rep as [σ0 Hrep]. destruct (rep_write (St := Store) σ0 _ _ _ Hrep name_a [] 600 [Byte.x68; Byte.x69]) as (_ & σ & _ & _ & l & I & X & Hfd & Hview); [done|lia|by vm_compute|by vm_compute|apply Z.leb_le; vm_compute; reflexivity|].
  destruct l as [|[n i] l]; [done|]. rewrite view_cons in Hview. injection Hview as _ Hc _.
  assert (Hi : is_Some (I !! i)) by (apply (fd_dom _ _ _ _ _ _ Hfd); right; left). destruct Hi as [[di T] Hi]. rewrite (contents_lookup σ I i di T Hi) in Hc. change (default [] (Some (file_contents σ di T))) with (file_contents σ di T) in Hc.
  exists σ, I, X, i, di, T. split_and!; [apply Hfd|done|]. rewrite <- (contents_length ∅ σ di T), <- Hc by (by eapply inv_file_ok; [apply Hfd|exact Hi|set_solver]). by vm_compute.
Qed.

Lemma fs_clear_frees_witness : exists σ σ' i (X X' : gset Z), commits (St := Store) σ (clear (planned 1100 1) (vinode (planned 1100 1) i)) tt σ' /\
  Z.of_nat (base.size X') = Z.of_nat (base.size X) - 2.
Proof.
  destruct small_written as (σ & I & X & i & di & T & Hinv & Hi & Hs).
  destruct (fs_clear_frees (St := Store) σ _ _ I X i di T Hinv Hi) as (σ' & di' & X' & Hc & _ & _ & _ & Hx & _).
  - unfold data_blocks. rewrite Hs. by vm_compute.
  - rewrite Hs in Hx. exists σ, σ', i, X, X'. split; [exact Hc|exact Hx].
Defined.
