(* ===== verification/Pack.v ===== *)
(** * The packer (easy-fs-fuse/src/main.rs)

    [easy_fs_pack] formats an image and copies the programs of a host directory
    into it.  The directory entries and the host files are parameters. *)

From S2P Require Import Prelude BlockDev BlockStore Bitmap Layout DiskCodec Tree BuildTree TreeOps ClearTree InodeOps FileData Efs Vfs FsInv FsAlloc FsUpdate FsOps FsDir FsCreate FsSpec FsRefine.

(** [name_with_ext.drain(name_with_ext.find('.').unwrap()..)] *)
Definition strip_ext (name_with_ext : list byte) : result (list byte) :=
  match list_find (fun b => b = Byte.x2e) name_with_ext with
  | Some (i, _) => Ok (take i name_with_ext)
  | None => Fail Panic
  end.

Fixpoint app_names (entries : list (list byte)) : result (list (list byte)) :=
  match entries with
  | [] => Ok []
  | e :: entries =>
      match strip_ext e with
      | Ok n => match app_names entries with Ok ns => Ok (n :: ns) | Fail f => Fail f end
      | Fail f => Fail f
      end
  end.

Section Pack.
Context {St : Type} `{BlockStore St}.
Variable host_file : list byte -> option (list byte).

(** One round of the loop over the programs. *)
Definition pack_app (efs : EasyFileSystem) (app : list byte) : cmd St unit :=
  (* load app data from host file system *)
  let* all_data := lift (unwrap (host_file app)) in
  (* create a file in easy-fs *)
  let* r := create efs (root_inode efs) app in
  let* inode := lift (unwrap r) in
  (* write data to easy-fs *)
  let* _ := vfs_write_at efs inode 0 all_data in
  ret tt.

Definition easy_fs_pack (entries : list (list byte)) : cmd St unit :=
  (* 16MiB, at most 4095 files *)
  let* efs := efs_create (16 * 2048) 1 in
  let* apps := lift (app_names entries) in
  for_each apps (fun app _ => pack_app efs app) tt.

End Pack.

(** ** Weights of a part of the files *)
Lemma files_weight_app a b : files_weight (a ++ b) = files_weight a + files_weight b.
Proof. induction a as [|[n c] a IH]; [done|]. cbn [app files_weight]. rewrite IH. lia. Qed.

Definition sizes_ok (a : named_files) : Prop := Forall (fun e => zlen e.2 <= MAX_SIZE) a.

Lemma bytes_weight_nonneg n : 0 <= n <= MAX_SIZE -> 0 <= bytes_weight n.
Proof. intros Hn. transitivity (bytes_weight 0); [by vm_compute|]. apply bytes_weight_mono; lia. Qed.

Lemma files_weight_nonneg a : sizes_ok a -> 0 <= files_weight a.
Proof.
  induction 1 as [|[n c] a Hc _ IH]; [done|]. cbn [files_weight]. pose proof (bytes_weight_nonneg (zlen c)). pose proof (zlen_nonneg c). cbn in Hc. lia.
Qed.

Lemma fs_weight_prefix a b : sizes_ok b -> 32 * zlen (a ++ b) <= MAX_SIZE -> fs_weight a <= fs_weight (a ++ b).
Proof.
  intros Hb Hm. unfold fs_weight. rewrite files_weight_app. pose proof (files_weight_nonneg b Hb). pose proof (zlen_nonneg a).
  assert (Hz : zlen (a ++ b) = zlen a + zlen b) by (unfold zlen; rewrite length_app; lia). pose proof (zlen_nonneg b).
  pose proof (bytes_weight_mono (32 * zlen a) (32 * zlen (a ++ b)) ltac:(lia) Hm). lia.
Qed.

Lemma update_last name c c' a : name ∉ a.*1 -> update_name name c' (a ++ [(name, c)]) = a ++ [(name, c')].
Proof.
  induction a as [|[n d] a IH]; cbn; [by rewrite decide_True|]. intros [Hne Hn]%not_elem_of_cons. rewrite decide_False by done. by rewrite IH.
Qed.

Lemma lookup_last name c a : name ∉ a.*1 -> lookup_name name (a ++ [(name, c)]) = Some c.
Proof. induction a as [|[n d] a IH]; cbn; [by rewrite decide_True|]. intros [Hne Hn]%not_elem_of_cons. rewrite decide_False by done. by apply IH. Qed.

Lemma lookup_notin name a : name ∉ a.*1 -> lookup_name name a = None.
Proof. induction a as [|[n d] a IH]; [done|]. cbn. intros [Hne Hn]%not_elem_of_cons. rewrite decide_False by done. by apply IH. Qed.

Lemma lookup_None_notin name a : lookup_name name a = None -> name ∉ a.*1.
Proof.
  induction a as [|[n d] a IH]; [intros _; apply not_elem_of_nil|]. cbn. case_decide as E; [done|]. intros Hl. apply not_elem_of_cons. split; [congruence|auto].
Qed.

Lemma written_empty d : written [] 0 d = d.
Proof. unfold written. apply splice_all. rewrite length_resize. change (zlen []) with 0. unfold zlen. lia. Qed.

(** ** The programs in the image *)
Section PackOk.
Context {St : Type} `{BlockStoreSpec St}.
Variable host_file : list byte -> option (list byte).

(** What a set of programs must satisfy to be packed. *)
Record packable (apps : named_files) : Prop := {
  pk_names : NoDup apps.*1;
  pk_ok : Forall (fun e => name_ok e.1 /\ host_file e.1 = Some e.2 /\ 0 < zlen e.2 <= MAX_SIZE) apps;
  pk_count : zlen apps < 4096;
  pk_room : fs_weight apps <= 16 * 2048 - data_area_start_block (planned (16 * 2048) 1);
}.

Lemma packable_sizes apps : packable apps -> sizes_ok apps.
Proof. intros [_ Hok _ _]. eapply Forall_impl; [exact Hok|]. by intros e (_ & _ & _ & ?). Qed.

Lemma pack_app_ok σ done todo n d : packable (done ++ (n, d) :: todo) -> fs_rep σ (planned (16 * 2048) 1) (16 * 2048) done ->
  exists σ', commits (St := St) σ (pack_app host_file (planned (16 * 2048) 1) n) tt σ' /\ fs_rep σ' (planned (16 * 2048) 1) (16 * 2048) (done ++ [(n, d)]).
Proof.
  intros Hp Hrep. pose proof (packable_sizes _ Hp) as Hsz. destruct Hp as [Hnd Hok Hct Hroom]. set (fs := planned (16 * 2048) 1) in *.
  assert (Hm : 32 * zlen (done ++ (n, d) :: todo) <= MAX_SIZE) by (change MAX_SIZE with 1082209792; lia).
  assert (Hz : zlen (done ++ (n, d) :: todo) = zlen done + 1 + zlen todo) by (unfold zlen; rewrite length_app; cbn; lia). pose proof (zlen_nonneg todo).
  apply Forall_app in Hok as [_ [(Hname & Hhost & Hd1 & Hd2) _]%Forall_cons]. cbn [fst snd] in *.
  rewrite fmap_app in Hnd. apply NoDup_app in Hnd as (_ & Hdis & _). assert (Hn : n ∉ done.*1) by (intros Hin; apply (Hdis n Hin); by left).
  apply Forall_app in Hsz as [_ [_ Hst]%Forall_cons].
  assert (Hw2 : fs_weight (done ++ [(n, d)]) <= 16 * 2048 - data_area_start_block fs).
  { etransitivity; [apply (fs_weight_prefix _ todo Hst)|]; rewrite <- app_assoc; done. }
  assert (Hl : zlen (done ++ [(n, [])]) = zlen done + 1) by (unfold zlen; rewrite length_app; cbn; lia).
  assert (Hw1 : fs_weight (done ++ [(n, [])]) <= fs_weight (done ++ [(n, d)])).
  { unfold fs_weight. rewrite !files_weight_app. cbn [files_weight]. assert (E : zlen (done ++ [(n, d)]) = zlen (done ++ [(n, [])])) by (unfold zlen; rewrite !length_app; done).
    rewrite E. pose proof (bytes_weight_mono 0 (zlen d) ltac:(lia) Hd2). change (zlen []) with 0. lia. }
  destruct Hrep as [l Hv]. destruct (view_create (St := St) σ fs _ l done Hv n (lookup_notin _ _ Hn) Hname) as (j & σ2 & Hc2 & Hv2); [change (inodes fs) with 4096; lia|lia|lia|].
  assert (Ha : assoc n (l ++ [(n, j)]) = Some j).
  { rewrite assoc_snoc. destruct (assoc n l) as [i|] eqn:E; [|by rewrite decide_True].
    destruct (proj1 (view_assoc σ fs _ l done Hv n) ltac:(eauto)) as [c Hc]. by rewrite (lookup_notin _ _ Hn) in Hc. }
  destruct (view_write (St := St) σ2 fs _ _ _ Hv2 n j [] 0 d Ha (lookup_last _ _ _ Hn)) as (σ3 & Hc3 & Hv3); [lia..| |].
  { by rewrite update_last, written_empty by done. }
  rewrite update_last, written_empty in Hv3 by done. exists σ3. split; [|by eexists].
  unfold pack_app. rewrite Hhost.
  intros s Hs Hc Hh. destruct (Hc2 s Hs Hc Hh) as (s2 & E2 & Hs2 & Hct2 & Hh2 & _). destruct (Hc3 s2 Hs2 Hct2 Hh2) as (s3 & E3 & Hs3).
  exists s3. split; [|done]. change (bind (create fs (root_inode fs) n) (fun r => let* inode := lift (unwrap r) in let* _ := vfs_write_at fs inode 0 d in ret tt) s = Ok (tt, s3)).
  rewrite (bind_Ok _ _ _ _ _ E2). change (bind (vfs_write_at fs (vinode fs j) 0 d) (fun _ => ret tt) s2 = Ok (tt, s3)). by rewrite (bind_Ok _ _ _ _ _ E3).
Qed.

(** A store that is between two calls and has nothing to write back. *)
Definition synced (s : St) (σ : gmap Z (list byte)) : Prop := wf s /\ content s = σ /\ held s = ∅ /\ stable s = σ.

Lemma pack_apps_ok todo : forall σ done, packable (done ++ todo) -> fs_rep σ (planned (16 * 2048) 1) (16 * 2048) done ->
  exists σ', fs_rep σ' (planned (16 * 2048) 1) (16 * 2048) (done ++ todo) /\
    forall s, synced s σ -> exists s', for_each todo.*1 (fun app _ => pack_app host_file (planned (16 * 2048) 1) app) tt s = Ok (tt, s') /\ synced s' σ'.
Proof.
  induction todo as [|[n d] todo IH]; intros σ done Hp Hrep.
  { exists σ. rewrite app_nil_r. split; [done|]. intros s Hs. by exists s. }
  destruct (pack_app_ok σ done todo n d Hp Hrep) as (σ1 & Hc & Hrep1).
  destruct (IH σ1 (done ++ [(n, d)])) as (σ' & Hrep' & Hloop); [by rewrite <- app_assoc|done|].
  exists σ'. rewrite <- app_assoc in Hrep'. split; [done|]. intros s (Hw & Hct & Hh & Hst).
  destruct (Hc s Hw Hct Hh) as (s1 & E1 & Hs1). destruct (Hloop s1) as (s' & E & Hs'); [by destruct Hs1 as (? & ? & ? & ?)|].
  exists s'. split; [|done]. cbn. by rewrite (bind_Ok _ _ _ _ _ E1).
Qed.

Lemma strip_ext_ok n ext : Byte.x2e ∉ n -> strip_ext (n ++ Byte.x2e :: ext) = Ok n.
Proof.
  intros Hn. unfold strip_ext. assert (E : list_find (fun b => b = Byte.x2e) (n ++ Byte.x2e :: ext) = Some (length n, Byte.x2e)).
  { apply list_find_Some. split_and!; [by rewrite list_lookup_middle|done|]. intros j y Hj Hlt ->. apply Hn. rewrite lookup_app_l in Hj by done. by eapply list_elem_of_lookup_2. }
  by rewrite E, take_app_length.
Qed.

Lemma app_names_ok ns exts : length exts = length ns -> Forall (fun n => Byte.x2e ∉ n) ns ->
  app_names (zip_with (fun n e => n ++ Byte.x2e :: e) ns exts) = Ok ns.
Proof.
  intros Hl Hns. revert exts Hl. induction Hns as [|n ns Hn _ IH]; intros [|e exts] [=]; [done|]. cbn. by rewrite strip_ext_ok, IH.
Qed.

Lemma easy_fs_pack_ok σ apps exts : packable apps -> length exts = length apps -> Forall (fun n => Byte.x2e ∉ n) apps.*1 ->
  blocks_ok σ -> (forall b, is_Some (σ !! b) <-> 0 <= b < 16 * 2048) ->
  exists σ', commits (St := St) σ (easy_fs_pack host_file (zip_with (fun n e => n ++ Byte.x2e :: e) apps.*1 exts)) tt σ' /\
    fs_rep σ' (planned (16 * 2048) 1) (16 * 2048) apps.
Proof.
  intros Hp Hl Hdot Hok Hd. destruct (efs_create_runs (St := St) σ (16 * 2048) 1 ltac:(by vm_compute) Hok Hd) as (σ1 & di & Hc & Hfd).
  destruct (pack_apps_ok apps σ1 [] Hp) as (σ' & Hrep & Hloop); [by eexists _, _, _|]. exists σ'. split; [|done].
  intros s Hw Hct Hh. destruct (Hc s Hw Hct Hh) as (s1 & E1 & Hs1). unfold easy_fs_pack. rewrite (bind_Ok _ _ _ _ _ E1).
  rewrite app_names_ok by (by rewrite ?length_fmap). destruct (Hloop s1) as (s2 & E2 & Hs2); [by destruct Hs1 as (? & ? & ? & ?)|].
  exists s2. split; [exact E2|]. by destruct Hs2 as (? & ? & ? & ?).
Qed.

(** ** What the packer does not survive *)
Lemma app_names_panic entries e : e ∈ entries -> Byte.x2e ∉ e -> app_names entries = Fail Panic.
Proof.
  intros Hin He. assert (Hs : forall x, strip_ext x = Fail Panic \/ exists n, strip_ext x = Ok n) by (intros x; unfold strip_ext; destruct (list_find _ x) as [[??]|]; eauto).
  induction entries as [|x entries IH]; [by apply not_elem_of_nil in Hin|]. cbn. apply elem_of_cons in Hin as [<-|Hin].
  - unfold strip_ext. destruct (list_find (fun b => b = Byte.x2e) e) as [[i b]|] eqn:E; [|done].
    apply list_find_Some in E as (Hi & -> & _). exfalso. apply He. by eapply list_elem_of_lookup_2.
  - rewrite (IH Hin). by destruct (Hs x) as [->|[n ->]].
Qed.

Lemma pack_app_again σ apps n : n ∈ apps.*1 -> is_Some (host_file n) -> fs_rep σ (planned (16 * 2048) 1) (16 * 2048) apps ->
  forall s, synced s σ -> pack_app host_file (planned (16 * 2048) 1) n s = Fail Panic.
Proof.
  intros Hn [d Hd] Hrep s (Hw & Hc & Hh & _). destruct (lookup_name n apps) as [c|] eqn:El.
  - destruct (rep_create_exists (St := St) σ _ _ apps Hrep n c El s Hw Hc Hh) as (s' & E & _). unfold pack_app. rewrite Hd.
    change (bind (create (planned (16 * 2048) 1) (root_inode (planned (16 * 2048) 1)) n) (fun r => let* inode := lift (unwrap r) in let* _ := vfs_write_at (planned (16 * 2048) 1) inode 0 d in ret tt) s = Fail Panic).
    by rewrite (bind_Ok _ _ _ _ _ E).
  - by destruct (lookup_None_notin n apps El).
Qed.

End PackOk.
