(* ===== verification/EfsTest.v ===== *)
(** * The test of the file system (easy-fs-fuse/src/main.rs)

    [efs_test] formats an image of 65536 blocks, opens it and writes and reads back
    strings of random digits, up to 40000 blocks long.  The random numbers are a
    parameter. *)

From Stdlib Require Import String.
From S2P Require Import Prelude BlockDev BlockStore Bitmap Layout DiskCodec Tree BuildTree TreeOps ClearTree InodeOps FileData Efs Vfs FsInv FsAlloc FsUpdate FsOps FsDir FsCreate FsSpec FsRefine Pack.

(** [core::str::from_utf8(b).unwrap()] *)
Definition from_utf8_unwrap (b : list byte) : result (list byte) := if utf8_valid b then Ok b else Fail Panic.

Section Test.
Context {St : Type} `{BlockStore St}.
Variable random : nat -> Z.   (* the bytes [rand::random] returns *)

(** A string of [len] random digits, the first of them made of [random from]. *)
Definition random_digits (from len : nat) : list byte := (fun i => byte.of_Z (w8 (48 + random (from + i)%nat mod 10))) <$> seq 0 len.

(** The loop that reads the file in pieces of the buffer. *)
Fixpoint read_back (fuel : nat) (filea : Inode) (offset : Z) (read_buffer read_str : list byte) : cmd St (list byte) :=
  match fuel with
  | O => fail OutOfFuel
  | S fuel =>
      let* (len, read_buffer) := vfs_read_at filea offset read_buffer in
      if len =? 0 then ret read_str else
      let offset := w64 (offset + len) in
      let* s := lift (from_utf8_unwrap (take (Z.to_nat len) read_buffer)) in
      read_back fuel filea offset read_buffer (read_str ++ s)
  end.

(** The closure [random_str_test], with what it captures: the buffer, and the
    number of random bytes already drawn. *)
Definition random_str_test (efs : EasyFileSystem) (filea : Inode) (len : Z) (st : list byte * nat) : cmd St (list byte * nat) :=
  let '(buffer, drawn) := st in
  clear efs filea;;
  let* (n, buffer) := vfs_read_at filea 0 buffer in
  assert (n =? 0);;
  let str := random_digits drawn (Z.to_nat len) in
  vfs_write_at efs filea 0 str;;
  let* read_str := read_back (S (Z.to_nat len)) filea 0 (replicate 127 Byte.x00) [] in
  assert (bool_decide (str = read_str));;
  ret (buffer, (drawn + Z.to_nat len)%nat).

Definition test_lengths : list Z :=
  [4 * BLOCK_SZ; 8 * BLOCK_SZ + BLOCK_SZ / 2; 100 * BLOCK_SZ; 70 * BLOCK_SZ + BLOCK_SZ / 7; (12 + 128) * BLOCK_SZ; 400 * BLOCK_SZ; 1000 * BLOCK_SZ; 2000 * BLOCK_SZ;
   17000 * BLOCK_SZ; 25000 * BLOCK_SZ + BLOCK_SZ / 9; 40000 * BLOCK_SZ].

Definition filea_name : list byte := list_byte_of_string "filea".
Definition fileb_name : list byte := list_byte_of_string "fileb".
Definition greet_str : list byte := list_byte_of_string "Hello, world!".

Definition efs_test : cmd St unit :=
  efs_create 65536 1;;
  let* efs := efs_open in
  let root_inode := root_inode efs in
  create efs root_inode filea_name;;
  create efs root_inode fileb_name;;
  ls root_inode;;
  let* r := find efs root_inode filea_name in
  let* filea := lift (unwrap r) in
  vfs_write_at efs filea 0 greet_str;;
  let* (len, buffer) := vfs_read_at filea 0 (replicate 233 Byte.x00) in
  let* s := lift (from_utf8_unwrap (take (Z.to_nat len) buffer)) in
  assert (bool_decide (greet_str = s));;
  for_each test_lengths (random_str_test efs filea) (buffer, O);;
  ret tt.

End Test.

(** ** The digits *)
Definition digits (b : list byte) : Prop := Forall (fun x => 48 <= byte.unsigned x < 58) b.

Lemma digits_utf8 b : digits b -> utf8_valid b = true.
Proof.
  induction 1 as [|x b Hx Hb IH]; [done|]. cbn [utf8_valid]. assert (in_range x 0 0x7f = true) as -> by (unfold in_range; apply andb_true_intro; split; apply Z.leb_le; lia). done.
Qed.

Lemma random_digits_ok random from len : digits (random_digits random from len) /\ length (random_digits random from len) = len.
Proof.
  split; [|unfold random_digits; by rewrite length_fmap, length_seq]. apply Forall_fmap, Forall_forall. intros i _. cbn. pose proof (Z.mod_pos_bound (random (from + i)%nat) 10 ltac:(lia)).
  unfold w8. rewrite Z.mod_small by lia. rewrite byte.unsigned_of_Z. unfold byte.wrap. rewrite Z.mod_small by lia. lia.
Qed.

Section TestOk.
Context {St : Type} `{BlockStoreSpec St}.
Variable random : nat -> Z.
Abbreviation fs := (planned 65536 1).
Abbreviation N := 65536.
Abbreviation LONGEST := (40000 * 512).

(** The files in the course of the test. *)
Definition files_with (c : list byte) : named_files := [(filea_name, c); (fileb_name, [])].

Lemma files_fit c : zlen c <= LONGEST -> fs_weight (files_with c) <= N - data_area_start_block fs.
Proof.
  intros Hc. unfold fs_weight, files_with. cbn [files_weight]. change (zlen [(filea_name, c); (fileb_name, [])]) with 2. change (zlen []) with 0.
  pose proof (bytes_weight_mono (zlen c) LONGEST ltac:(unfold zlen in *; lia) ltac:(by vm_compute)) as Hm.
  assert (bytes_weight (32 * 2) + (bytes_weight LONGEST + (bytes_weight 0 + 0)) <= 65536 - data_area_start_block fs) by (vm_compute; discriminate). lia.
Qed.

Lemma files_clearable (c : list byte) : zlen c <= LONGEST -> clearable (_data_blocks (zlen c)).
Proof.
  intros Hc. unfold clearable. change (INDIRECT1_BOUND + INODE_INDIRECT3_COUNT) with 2097307. pose proof (zlen_nonneg c). unfold _data_blocks.
  change BLOCK_SZ with 512. rewrite !w32_small by (rewrite ?w32_small; lia). apply Z.div_le_upper_bound; lia.
Qed.

(** Reading back what the file holds from [offset] on. *)
Lemma read_back_ok σ l i c : assoc filea_name l = Some i -> fs_view σ fs N l (files_with c) -> digits c -> zlen c <= LONGEST ->
  forall fuel offset buf acc, 0 <= offset <= zlen c -> zlen c - offset < Z.of_nat fuel -> length buf = 127%nat ->
  runs (St := St) ∅ σ (read_back fuel (vinode fs i) offset buf acc) (acc ++ drop (Z.to_nat offset) c) σ.
Proof.
  intros Hi Hv Hd Hc. induction fuel as [|fuel IH]; intros offset buf acc Ho Hf Hb; [lia|]. cbn [read_back].
  pose proof (view_read (St := St) σ fs N l _ Hv filea_name i c offset buf Hi eq_refl ltac:(lia) ltac:(unfold zlen in *; lia)) as Hr. cbv zeta in Hr.
  set (out := take (length buf) (drop (Z.to_nat offset) c)) in Hr. eapply runs_bind; [exact Hr|]. cbv beta iota. assert (Hol : length out = Nat.min 127 (length c - Z.to_nat offset)) by (unfold out; rewrite length_take, length_drop; lia).
  destruct (Z.eqb_spec (zlen out) 0) as [E|E].
  - assert (Ho' : offset = zlen c) by (unfold zlen in *; lia). rewrite drop_ge by (unfold zlen in *; lia). rewrite app_nil_r. apply runs_ret.
  - replace (Z.to_nat (zlen out)) with (length out) by (unfold zlen; lia). rewrite take_app_length. eapply runs_bind_lift.
    { unfold from_utf8_unwrap. rewrite digits_utf8; [done|]. apply Forall_take, Forall_drop, Hd. }
    rewrite w64_small by (unfold zlen in *; lia). replace (drop (Z.to_nat offset) c) with (out ++ drop (Z.to_nat (offset + zlen out)) c).
    + rewrite app_assoc. apply IH; [unfold zlen in *; lia|unfold zlen in *; lia|]. rewrite length_app, length_drop. lia.
    + rewrite <- (take_drop (length out) (drop (Z.to_nat offset) c)) at 1. rewrite drop_drop. f_equal; [|f_equal; unfold zlen; lia].
      unfold out. by rewrite length_take, <- take_take, firstn_all.
Qed.

(** One round of the test. *)
Lemma random_str_test_ok σ l i c buffer drawn len : assoc filea_name l = Some i -> fs_view σ fs N l (files_with c) -> zlen c <= LONGEST -> 0 < len <= LONGEST -> zlen buffer < 2 ^ 63 ->
  exists σ', runs (St := St) ∅ σ (random_str_test random fs (vinode fs i) len (buffer, drawn)) (buffer, (drawn + Z.to_nat len)%nat) σ' /\
    fs_view σ' fs N l (files_with (random_digits random drawn (Z.to_nat len))).
Proof.
  intros Hi Hv Hc Hl Hb. destruct (random_digits_ok random drawn (Z.to_nat len)) as [Hd Hlen]. set (str := random_digits random drawn (Z.to_nat len)) in *. assert (Hz : zlen str = len) by (unfold zlen; lia).
  destruct (view_clear (St := St) σ fs N l _ Hv filea_name i c Hi eq_refl (files_clearable c Hc)) as (σ1 & Hr1 & Hv1). change (update_name _ _ _) with (files_with []) in Hv1.
  pose proof (view_read (St := St) σ1 fs N l _ Hv1 filea_name i [] 0 buffer Hi eq_refl ltac:(lia) ltac:(lia)) as Hr2. cbv zeta in Hr2. change (drop (Z.to_nat 0) []) with (@nil byte) in Hr2. rewrite take_nil in Hr2.
  destruct (view_write (St := St) σ1 fs N l _ Hv1 filea_name i [] 0 str Hi eq_refl) as (σ2 & Hr3 & Hv2); [lia|lia|change MAX_SIZE with 1082209792; lia|..].
  { rewrite written_empty. change (update_name _ _ _) with (files_with str). apply files_fit. lia. }
  rewrite written_empty in Hv2. change (update_name _ _ _) with (files_with str) in Hv2. exists σ2. split; [|done]. unfold random_str_test. fold str.
  eapply runs_bind; [by apply commits_runs|]. eapply runs_bind; [exact Hr2|]. cbv beta iota. eapply runs_bind_assert; [done|]. eapply runs_bind; [by apply commits_runs|].
  eapply runs_bind; [apply (read_back_ok σ2 l i str Hi Hv2 Hd); [lia|unfold zlen in *; lia|lia|done]|]. cbn [app]. change (drop (Z.to_nat 0) str) with str. eapply runs_bind_assert; [by rewrite bool_decide_eq_true|]. cbn [app drop length]. apply runs_ret.
Qed.
Lemma random_str_tests_ok lens : forall σ l i c buffer drawn, Forall (fun len => 0 < len <= LONGEST) lens -> lens <> [] -> assoc filea_name l = Some i ->
  fs_view σ fs N l (files_with c) -> zlen c <= LONGEST -> zlen buffer < 2 ^ 63 ->
  exists σ' st from len, last lens = Some len /\ runs (St := St) ∅ σ (for_each lens (random_str_test random fs (vinode fs i)) (buffer, drawn)) st σ' /\
    fs_view σ' fs N l (files_with (random_digits random from (Z.to_nat len))).
Proof.
  induction lens as [|len lens IH]; intros σ l i c buffer drawn Hl Hne Hi Hv Hc Hb; [done|]. apply Forall_cons in Hl as [H1 Hl]. cbn [for_each].
  destruct (random_str_test_ok σ l i c buffer drawn len Hi Hv Hc H1 Hb) as (σ1 & Hr & Hv1). destruct lens as [|len' lens].
  - eexists σ1, _, drawn, len. split; [done|]. split; [|done]. eapply runs_bind; [exact Hr|]. apply runs_ret.
  - destruct (IH σ1 l i _ buffer (drawn + Z.to_nat len)%nat Hl ltac:(done) Hi Hv1) as (σ' & st & from & last & Hla & Hr' & Hv'); [|done|].
    + destruct (random_digits_ok random drawn (Z.to_nat len)) as [_ E]. unfold zlen. lia.
    + exists σ', st, from, last. split; [done|]. split; [|done]. eapply runs_bind; [exact Hr|]. exact Hr'.
Qed.

Lemma test_names_ok name : name = filea_name \/ name = fileb_name -> name_ok name.
Proof. intros [->| ->]; (split_and!; [by vm_compute|by vm_compute|]); apply (bool_decide_unpack _); by vm_compute. Qed.

Lemma efs_test_ok σ : blocks_ok σ -> (forall b, is_Some (σ !! b) <-> 0 <= b < N) ->
  exists σ' from, runs (St := St) ∅ σ (efs_test random) tt σ' /\ fs_rep σ' fs N (files_with (random_digits random from (Z.to_nat LONGEST))).
Proof.
  intros Hok Hd. destruct (efs_create_runs (St := St) σ N 1 ltac:(by vm_compute) Hok Hd) as (σ1 & di & Hc1 & Hfd). assert (Hv1 : fs_view σ1 fs N [] []) by (by eexists _, _).
  pose proof (efs_open_runs (St := St) σ1 fs N _ _ (fd_inv _ _ _ _ _ _ Hfd)) as Hr2.
  destruct (view_create (St := St) σ1 fs N [] [] Hv1 filea_name eq_refl) as (i & σ2 & Hc2 & Hv2); [apply test_names_ok; by left|by vm_compute|by vm_compute|by vm_compute|].
  destruct (view_create (St := St) σ2 fs N _ _ Hv2 fileb_name eq_refl) as (j & σ3 & Hc3 & Hv3); [apply test_names_ok; by right|by vm_compute|by vm_compute|by vm_compute|].
  change (([] ++ [(filea_name, [])]) ++ [(fileb_name, [])]) with (files_with []) in Hv3. set (l := ([] ++ [(filea_name, i)]) ++ [(fileb_name, j)]) in Hv3. assert (Hi : assoc filea_name l = Some i) by done.
  destruct (view_write (St := St) σ3 fs N l _ Hv3 filea_name i [] 0 greet_str Hi eq_refl) as (σ4 & Hc4 & Hv4); [lia|done|by vm_compute|by vm_compute|]. change (update_name _ _ _) with (files_with greet_str) in Hv4.
  pose proof (view_read (St := St) σ4 fs N l _ Hv4 filea_name i greet_str 0 (replicate 233 Byte.x00) Hi eq_refl ltac:(lia) ltac:(by vm_compute)) as Hr5. cbv zeta in Hr5.
  change (take (length (replicate 233 Byte.x00)) (drop (Z.to_nat 0) greet_str)) with greet_str in Hr5. set (buffer := greet_str ++ drop (length greet_str) (replicate 233 Byte.x00)) in Hr5.
  destruct (random_str_tests_ok test_lengths σ4 l i greet_str buffer O) as (σ' & st & from & len & Hlen & Hr6 & Hv6); [|done|done|done|by vm_compute|by vm_compute|].
  { repeat (apply Forall_cons_2; [by vm_compute|]). constructor. }
  assert (len = LONGEST) as -> by (by injection Hlen as <-). exists σ', from. split; [|by exists l]. unfold efs_test.
  eapply runs_bind; [by apply commits_runs|]. eapply runs_bind; [exact Hr2|]. cbv zeta. eapply runs_bind; [by apply commits_runs|]. eapply runs_bind; [by apply commits_runs|].
  eapply runs_bind; [by eapply view_ls|]. eapply runs_bind; [by eapply view_find|]. rewrite Hi. cbn [fmap option_fmap option_map unwrap]. eapply runs_bind_lift; [done|]. eapply runs_bind; [by apply commits_runs|].
  eapply runs_bind; [exact Hr5|]. cbv beta iota. eapply runs_bind_lift; [done|]. eapply runs_bind_assert; [done|]. eapply runs_bind; [exact Hr6|]. apply runs_ret.
Qed.

End TestOk.
