(* ===== verification/Address.v ===== *)
(** * Addresses and page numbers of SV39 (os/src/mm/address.rs, os/src/config.rs)

    [PhysAddr], [VirtAddr], [PhysPageNum] and [VirtPageNum] are newtypes of
    [usize]; here they are [Z]. *)

From S2P Require Import Prelude.

Definition PAGE_SIZE : Z := 0x1000.
Definition PAGE_SIZE_BITS : Z := 0xc.
Definition USER_STACK_SIZE : Z := 4096 * 2.
Definition KERNEL_STACK_SIZE : Z := 4096 * 2.
Definition TRAMPOLINE : Z := 2 ^ 64 - 1 - PAGE_SIZE + 1.
Definition TRAP_CONTEXT : Z := TRAMPOLINE - PAGE_SIZE.

Definition PA_WIDTH_SV39 : Z := 56.
Definition VA_WIDTH_SV39 : Z := 39.
Definition PPN_WIDTH_SV39 : Z := PA_WIDTH_SV39 - PAGE_SIZE_BITS.
Definition VPN_WIDTH_SV39 : Z := VA_WIDTH_SV39 - PAGE_SIZE_BITS.

Abbreviation PhysAddr := Z (only parsing).
Abbreviation VirtAddr := Z (only parsing).
Abbreviation PhysPageNum := Z (only parsing).
Abbreviation VirtPageNum := Z (only parsing).

(** [From<usize>]: the bits above the width are dropped. *)
Definition pa_from (v : Z) : PhysAddr := Z.land v (2 ^ PA_WIDTH_SV39 - 1).
Definition ppn_from (v : Z) : PhysPageNum := Z.land v (2 ^ PPN_WIDTH_SV39 - 1).
Definition va_from (v : Z) : VirtAddr := Z.land v (2 ^ VA_WIDTH_SV39 - 1).
Definition vpn_from (v : Z) : VirtPageNum := Z.land v (2 ^ VPN_WIDTH_SV39 - 1).

(** [!x] on [usize]. *)
Definition not64 (x : Z) : Z := 2 ^ 64 - 1 - x.

(** [usize::from(VirtAddr)]: the highest bit of the address is extended. *)
Definition usize_of_va (v : VirtAddr) : Z :=
  if 2 ^ (VA_WIDTH_SV39 - 1) <=? v then Z.lor v (not64 (2 ^ VA_WIDTH_SV39 - 1)) else v.

(** Shared by [VirtAddr] and [PhysAddr]. *)
Definition floor (a : Z) : Z := a / PAGE_SIZE.
Definition ceil (a : Z) : Z := w64 (w64 (a - 1) + PAGE_SIZE) / PAGE_SIZE.
Definition page_offset (a : Z) : Z := Z.land a (PAGE_SIZE - 1).
Definition aligned (a : Z) : bool := page_offset a =? 0.

(** [VirtPageNum::from(VirtAddr)] and [PhysPageNum::from(PhysAddr)]. *)
Definition page_of (a : Z) : result Z :=
  if page_offset a =? 0 then Ok (floor a) else Fail Panic.

(** [VirtAddr::from(VirtPageNum)] and [PhysAddr::from(PhysPageNum)]. *)
Definition addr_of (n : Z) : Z := w64 (Z.shiftl n PAGE_SIZE_BITS).

(** [VirtPageNum::indexes], the loop over [(0..3).rev()] unrolled. *)
Definition indexes (vpn : VirtPageNum) : list Z :=
  let idx2 := Z.land vpn 511 in
  let vpn := Z.shiftr vpn 9 in
  let idx1 := Z.land vpn 511 in
  let vpn := Z.shiftr vpn 9 in
  let idx0 := Z.land vpn 511 in
  [idx0; idx1; idx2].

(** [StepByOne::step]. *)
Definition step (n : Z) : Z := w64 (n + 1).

(** ** [SimpleRange] and its iterator *)
Record VPNRange := mkRange {
  get_start : VirtPageNum;
  get_end : VirtPageNum;
}.

Definition range_new (start end_ : VirtPageNum) : result VPNRange :=
  if start <=? end_ then Ok (mkRange start end_) else Fail Panic.

(** [SimpleRangeIterator::next]: the item and the next position. *)
Definition range_next (current end_ : Z) : option (Z * Z) :=
  if current =? end_ then None else Some (current, step current).

(** The items of [for vpn in range], at most [fuel] of them. *)
Fixpoint range_items (fuel : nat) (current end_ : Z) : option (list Z) :=
  match range_next current end_ with
  | None => Some []
  | Some (t, current') =>
      match fuel with
      | O => None
      | S fuel => l ← range_items fuel current' end_; Some (t :: l)
      end
  end.

(** The same list in closed form. *)
Definition vpns (r : VPNRange) : list Z := seqZ (get_start r) (get_end r - get_start r).

(** * Lemmas *)
Lemma pa_from_mod v : pa_from v = v mod 2 ^ 56.
Proof. unfold pa_from. change (2 ^ PA_WIDTH_SV39 - 1) with (Z.ones 56). by apply Z.land_ones. Qed.
Lemma ppn_from_mod v : ppn_from v = v mod 2 ^ 44.
Proof. unfold ppn_from. change (2 ^ PPN_WIDTH_SV39 - 1) with (Z.ones 44). by apply Z.land_ones. Qed.
Lemma va_from_mod v : va_from v = v mod 2 ^ 39.
Proof. unfold va_from. change (2 ^ VA_WIDTH_SV39 - 1) with (Z.ones 39). by apply Z.land_ones. Qed.
Lemma vpn_from_mod v : vpn_from v = v mod 2 ^ 27.
Proof. unfold vpn_from. change (2 ^ VPN_WIDTH_SV39 - 1) with (Z.ones 27). by apply Z.land_ones. Qed.
Lemma page_offset_mod a : page_offset a = a mod 4096.
Proof. unfold page_offset. change (PAGE_SIZE - 1) with (Z.ones 12). by apply Z.land_ones. Qed.

Lemma addr_of_mul n : addr_of n = w64 (n * 4096).
Proof. unfold addr_of. change PAGE_SIZE_BITS with 12. by rewrite Z.shiftl_mul_pow2. Qed.

Lemma addr_of_small n : 0 <= n < 2 ^ 52 -> addr_of n = n * 4096.
Proof. intros. rewrite addr_of_mul. apply w64_small. lia. Qed.

Lemma ceil_div_page a : 0 <= a <= 2 ^ 64 - PAGE_SIZE -> ceil a = ceil_div a 4096.
Proof.
  unfold ceil, ceil_div. change PAGE_SIZE with 4096. intros Ha. destruct (decide (a = 0)) as [->|]; [done|].
  rewrite (w64_small (a - 1)), w64_small by lia. f_equal. lia.
Qed.

(** Sign extension. *)
Lemma usize_of_va_spec v : 0 <= v < 2 ^ 39 ->
  usize_of_va v = if 2 ^ 38 <=? v then v + (2 ^ 64 - 2 ^ 39) else v.
Proof.
  intros Hv. unfold usize_of_va, VA_WIDTH_SV39. change (39 - 1) with 38.
  destruct (2 ^ 38 <=? v); [|done].
  change (not64 (2 ^ 39 - 1)) with (Z.shiftl (2 ^ 25 - 1) 39).
  rewrite Z.lor_comm, (Z.add_comm v). change (2 ^ 64 - 2 ^ 39) with (Z.shiftl (2 ^ 25 - 1) 39).
  assert (E : Z.land (Z.shiftl (2 ^ 25 - 1) 39) v = 0).
  { apply Z.bits_inj'. intros i Hi. rewrite Z.land_spec, Z.bits_0. destruct (Z.lt_ge_cases i 39).
    - by rewrite Z.shiftl_spec_low.
    - rewrite (Z.bits_above_log2 v), andb_false_r; [done|lia|].
      destruct (decide (v = 0)) as [->|]; [simpl; lia|]. apply Z.log2_lt_pow2; [lia|].
      eapply Z.lt_le_trans; [apply Hv|]. apply Z.pow_le_mono_r; lia. }
  rewrite <- Z.lxor_lor by done. rewrite Z.add_nocarry_lxor by done. done.
Qed.

Lemma indexes_spec vpn : 0 <= vpn < 2 ^ 27 ->
  indexes vpn = [vpn / 2 ^ 18; vpn / 2 ^ 9 mod 2 ^ 9; vpn mod 2 ^ 9].
Proof.
  intros Hv. unfold indexes. change 511 with (Z.ones 9). rewrite !Z.land_ones, !Z.shiftr_div_pow2 by lia.
  rewrite Z.div_div by lia. change (2 ^ 9 * 2 ^ 9) with (2 ^ 18). f_equal. apply Z.mod_small. dlia.
Qed.

Lemma range_items_spec n : forall l r, 0 <= l <= r -> r < 2 ^ 64 -> r - l <= Z.of_nat n ->
  range_items n l r = Some (seqZ l (r - l)).
Proof.
  induction n as [|n IH]; intros l r Hl Hr Hn; simpl; unfold range_next.
  - assert (l = r) as -> by lia. rewrite Z.eqb_refl, Z.sub_diag. done.
  - destruct (Z.eqb_spec l r) as [->|Hne]; [by rewrite Z.sub_diag|].
    unfold step. rewrite w64_small by lia. rewrite IH by lia. cbn [mbind option_bind].
    rewrite (seqZ_cons l) by lia. unfold Z.succ. do 3 f_equal. lia.
Qed.
