(* ===== verification/Frames.v ===== *)
(** * Physical frames (os/src/mm/frame_allocator.rs)

    [FrameAllocator] is the trait of the source, [FrameAllocatorSpec] what the
    page tables rely on, and [StackFrameAllocator] the implementation.  The
    kernel runs on an identity mapping, so a physical page is a page of [ram]. *)

From S2P Require Import Prelude Address.

Definition page_len : nat := 4096.
Definition zero_page : list byte := replicate page_len Byte.x00.

(** [Vec::pop]. *)
Definition vec_pop {A} (l : list A) : option (A * list A) :=
  x ← last l; Some (x, take (pred (length l)) l).

(** ** The trait *)
Class FrameAllocator (F : Type) := {
  fa_new : F;
  fa_alloc : F -> option PhysPageNum * F;
  fa_dealloc : PhysPageNum -> F -> result F;
}.

(** The frames of [[lo, hi)] are managed; those of [A] are in use. *)
Class FrameAllocatorSpec (F : Type) `{FrameAllocator F} := {
  fa_inv : F -> Z -> Z -> gset Z -> Prop;
  fa_range f lo hi A : fa_inv f lo hi A ->
    0 <= lo <= hi /\ hi <= 2 ^ 44 /\ forall p, p ∈ A -> lo <= p < hi;
  fa_alloc_some f lo hi A : fa_inv f lo hi A -> Z.of_nat (size A) < hi - lo ->
    exists p f', fa_alloc f = (Some p, f') /\ (p ∉ A) /\ lo <= p < hi /\ fa_inv f' lo hi ({[p]} ∪ A);
  fa_alloc_none f lo hi A : fa_inv f lo hi A -> Z.of_nat (size A) = hi - lo -> fa_alloc f = (None, f);
  fa_dealloc_ok f lo hi A p : fa_inv f lo hi A -> p ∈ A ->
    exists f', fa_dealloc p f = Ok f' /\ fa_inv f' lo hi (A ∖ {[p]});
  fa_dealloc_bad f lo hi A p : fa_inv f lo hi A -> lo <= p -> p ∉ A -> fa_dealloc p f = Fail Panic;
}.

(** ** The implementation *)
Record StackFrameAllocator := mkStack {
  current : Z;
  end_ : Z;
  recycled : list Z;
}.

Definition stack_new : StackFrameAllocator := mkStack 0 0 [].

Definition stack_init (l r : PhysPageNum) (self : StackFrameAllocator) : StackFrameAllocator :=
  mkStack l r (recycled self).

Definition stack_alloc (self : StackFrameAllocator) : option PhysPageNum * StackFrameAllocator :=
  match vec_pop (recycled self) with
  | Some (ppn, recycled') => (Some (ppn_from ppn), mkStack (current self) (end_ self) recycled')
  | None =>
      if current self =? end_ self then (None, self) else
      let self := mkStack (w64 (current self + 1)) (end_ self) (recycled self) in
      (Some (ppn_from (w64 (current self - 1))), self)
  end.

Definition stack_dealloc (ppn : PhysPageNum) (self : StackFrameAllocator) : result StackFrameAllocator :=
  (* validity check *)
  if (current self <=? ppn) || bool_decide (ppn ∈ recycled self) then Fail Panic else
  (* recycle *)
  Ok (mkStack (current self) (end_ self) (recycled self ++ [ppn])).

#[global] Instance stack_frames : FrameAllocator StackFrameAllocator := {
  fa_new := stack_new;
  fa_alloc := stack_alloc;
  fa_dealloc := stack_dealloc;
}.

(** [init_frame_allocator]: the frames between the end of the kernel and the end of memory. *)
Definition init_frame_allocator (ekernel MEMORY_END : Z) (f : StackFrameAllocator) : StackFrameAllocator :=
  stack_init (ceil (pa_from ekernel)) (floor (pa_from MEMORY_END)) f.

(** ** The machine: memory and the allocator behind [FRAME_ALLOCATOR]

    Every access to the cell is one statement that calls nothing else, so the
    cell is never borrowed twice. *)
Record Machine (F : Type) := mkMachine {
  ram : gmap Z (list byte);
  allocator : F;
}.
Arguments mkMachine {F}.
Arguments ram {F}.
Arguments allocator {F}.

Section Ops.
Context {F : Type} `{FrameAllocator F}.

(** [get_bytes_array], as a read and a write of the page. *)
Definition read_page (ppn : PhysPageNum) : cmd (Machine F) (list byte) :=
  fun m => match ram m !! ppn with Some b => Ok (b, m) | None => Fail Undefined end.

Definition write_page (ppn : PhysPageNum) (b : list byte) : cmd (Machine F) unit :=
  fun m => match ram m !! ppn with
           | Some _ => Ok (tt, mkMachine (<[ppn := b]> (ram m)) (allocator m))
           | None => Fail Undefined
           end.

(** [FrameTracker::new]: page cleaning. *)
Definition tracker_new (ppn : PhysPageNum) : cmd (Machine F) PhysPageNum :=
  let* bytes_array := read_page ppn in
  write_page ppn ((fun _ => Byte.x00) <$> bytes_array);;
  ret ppn.

(** [frame_alloc] *)
Definition frame_alloc : cmd (Machine F) (option PhysPageNum) :=
  fun m =>
    let '(r, f) := fa_alloc (allocator m) in
    let m := mkMachine (ram m) f in
    match r with
    | Some ppn => (let* ppn := tracker_new ppn in ret (Some ppn)) m
    | None => Ok (None, m)
    end.

(** [frame_dealloc], also the [drop] of a [FrameTracker]. *)
Definition frame_dealloc (ppn : PhysPageNum) : cmd (Machine F) unit :=
  fun m => match fa_dealloc ppn (allocator m) with
           | Ok f => Ok (tt, mkMachine (ram m) f)
           | Fail e => Fail e
           end.

(** A vector of trackers goes out of scope: its elements are dropped in order. *)
Definition drop_frames (ppns : list PhysPageNum) : cmd (Machine F) unit :=
  for_each ppns (fun ppn _ => frame_dealloc ppn) tt.

End Ops.

(** * Lemmas *)
Lemma vec_pop_snoc {A} (l : list A) x : vec_pop (l ++ [x]) = Some (x, l).
Proof.
  unfold vec_pop. rewrite last_snoc. cbn [mbind option_bind]. rewrite length_app. simpl length.
  rewrite Nat.add_1_r. simpl pred. by rewrite take_app_length.
Qed.

Lemma vec_pop_inv {A} (l : list A) : match vec_pop l with Some (x, l') => l = l' ++ [x] | None => l = [] end.
Proof.
  destruct l as [|x l] using rev_ind; [done|]. by rewrite vec_pop_snoc.
Qed.

(** ** The stack allocator keeps its contract *)
Record stack_inv (f : StackFrameAllocator) (lo hi : Z) (A : gset Z) : Prop := {
  st_end : end_ f = hi;
  st_bounds : 0 <= lo <= current f /\ current f <= hi;
  st_width : hi <= 2 ^ 44;
  st_nodup : NoDup (recycled f);
  st_recycled p : p ∈ recycled f -> lo <= p < current f;
  st_used p : p ∈ A <-> lo <= p < current f /\ p ∉ recycled f;
}.

Lemma stack_count f lo hi A : stack_inv f lo hi A ->
  Z.of_nat (size A) + zlen (recycled f) = current f - lo.
Proof.
  intros [_ Hb _ Hnd Hr Hu].
  assert (Hp : A ∪ list_to_set (recycled f) = list_to_set (seqZ lo (current f - lo))).
  { apply set_eq. intros p. rewrite elem_of_union, !elem_of_list_to_set, elem_of_seqZ, Hu.
    split; [intros [[? ?]|?%Hr]; lia|]. intros ?. destruct (decide (p ∈ recycled f)); [by right|left].
    split; [lia|done]. }
  apply (f_equal size) in Hp. rewrite size_union in Hp by (intros p; rewrite elem_of_list_to_set, Hu; naive_solver).
  rewrite !size_list_to_set in Hp by (done || apply NoDup_seqZ). rewrite length_seqZ in Hp. unfold zlen. lia.
Qed.

Lemma stack_alloc_fresh f lo hi A : stack_inv f lo hi A -> recycled f = [] -> current f <> hi ->
  stack_alloc f = (Some (current f), mkStack (current f + 1) hi []) /\
  stack_inv (mkStack (current f + 1) hi []) lo hi ({[current f]} ∪ A).
Proof.
  intros [He Hb Hw Hnd Hr Hu] Hn Hc. split.
  - unfold stack_alloc. rewrite Hn, He. simpl. rewrite (proj2 (Z.eqb_neq _ _) Hc). cbn [current].
    rewrite (w64_small (_ + 1)) by lia. rewrite w64_small by lia. rewrite ppn_from_mod, Z.mod_small by lia.
    do 2 f_equal. lia.
  - split; simpl; [done|lia|done|constructor|by intros p ?%not_elem_of_nil|]. intros p.
    rewrite elem_of_union, elem_of_singleton, Hu, Hn. split.
    + intros [->|[? ?]]; (split; [lia|apply not_elem_of_nil]).
    + intros [? ?]. destruct (decide (p = current f)); [by left|right]. split; [lia|apply not_elem_of_nil].
Qed.

Lemma stack_alloc_recycled f lo hi A p l : stack_inv f lo hi A -> recycled f = l ++ [p] ->
  stack_alloc f = (Some p, mkStack (current f) hi l) /\ (p ∉ A) /\ lo <= p < current f /\
  stack_inv (mkStack (current f) hi l) lo hi ({[p]} ∪ A).
Proof.
  intros [He Hb Hw Hnd Hr Hu] Hn. rewrite Hn in *.
  assert (Hp : lo <= p < current f) by (apply Hr; set_solver).
  apply NoDup_app in Hnd as (Hnd & Hdis & _).
  split_and!; [|rewrite Hu; set_solver|lia|lia|].
  - unfold stack_alloc. rewrite Hn, vec_pop_snoc, He, ppn_from_mod, Z.mod_small by lia. done.
  - split; simpl; [done|done|done|done|intros q Hq; apply Hr; set_solver|]. intros q.
    rewrite elem_of_union, elem_of_singleton, Hu, elem_of_app, list_elem_of_singleton. split.
    + intros [->|?]; [|naive_solver]. split; [done|]. intros Hin. apply (Hdis p Hin). set_solver.
    + destruct (decide (q = p)); naive_solver.
Qed.

Lemma stack_dealloc_spec f lo hi A p : stack_inv f lo hi A -> lo <= p ->
  stack_dealloc p f = if decide (p ∈ A) then Ok (mkStack (current f) hi (recycled f ++ [p])) else Fail Panic.
Proof.
  intros [He Hb Hw Hnd Hr Hu] Hp. unfold stack_dealloc. rewrite He.
  destruct (decide (p ∈ A)) as [Hin|Hin]; rewrite Hu in Hin.
  - destruct (Z.leb_spec (current f) p); [lia|]. rewrite bool_decide_false by naive_solver. done.
  - destruct (Z.leb_spec (current f) p); [done|]. rewrite bool_decide_true; [done|].
    destruct (decide (p ∈ recycled f)); [done|]. exfalso. apply Hin. by split.
Qed.

#[global, refine] Instance stack_frames_spec : FrameAllocatorSpec StackFrameAllocator := {
  fa_inv := stack_inv;
}.
Proof.
  - intros f lo hi A [? ? ? ? ? Hu]. split_and!; [lia..|]. intros p ?%Hu. lia.
  - intros f lo hi A Hinv Hsz. pose proof (stack_count _ _ _ _ Hinv) as Hc. pose proof Hinv as [_ Hb _ _ _ Hu].
    pose proof (vec_pop_inv (recycled f)) as Hr. destruct (vec_pop (recycled f)) as [[p l]|]; last first.
    + rewrite Hr in Hc. change (zlen []) with 0 in Hc.
      destruct (stack_alloc_fresh f lo hi A Hinv Hr) as [E Hinv']; [lia|]. eexists _, _.
      split_and!; [exact E|rewrite Hu; lia|lia|lia|done].
    + destruct (stack_alloc_recycled f lo hi A p l Hinv Hr) as (E & Hp & Hlt & Hinv').
      eexists _, _. split_and!; [exact E|done|lia|lia|done].
  - intros f lo hi A Hinv Hsz. pose proof (stack_count _ _ _ _ Hinv) as Hc. pose proof Hinv as [He Hb _ _ _ _].
    unfold zlen in Hc. assert (recycled f = []) as Hr by (apply length_zero_iff_nil; lia).
    cbn [fa_alloc stack_frames]. unfold stack_alloc. rewrite Hr, He. simpl. rewrite Hr in Hc. simpl in Hc.
    destruct (Z.eqb_spec (current f) hi); [done|lia].
  - intros f lo hi A p Hinv Hp. pose proof Hinv as [He Hb Hw Hnd Hr Hu]. apply Hu in Hp as Hp'.
    eexists. split; [cbn [fa_dealloc stack_frames]; rewrite (stack_dealloc_spec f lo hi A) by (done || lia);
      by rewrite decide_True|].
    split; simpl; [done|done|done| | |].
    + apply NoDup_app. split_and!; [done| |apply NoDup_singleton]. intros x Hx ->%list_elem_of_singleton. naive_solver.
    + intros x [?|Hx%list_elem_of_singleton]%elem_of_app; [by apply Hr|subst; lia].
    + intros x. rewrite elem_of_difference, elem_of_singleton, elem_of_app, list_elem_of_singleton, Hu. naive_solver.
  - intros f lo hi A p Hinv Hlo Hp. cbn [fa_dealloc stack_frames]. rewrite (stack_dealloc_spec f lo hi A) by done.
    by rewrite decide_False.
Defined.
