(* ===== verification/PageTable.v ===== *)
(** * Page tables (os/src/mm/page_table.rs): definitions

    A page of memory used as a table is an array of 512 entries of 8 bytes.  A
    reference to an entry is the pair of its page and its index. *)

From S2P Require Import Prelude Address Frames.

(** [PTEFlags] *)
Definition PTE_V : Z := Z.shiftl 1 0.
Definition PTE_R : Z := Z.shiftl 1 1.
Definition PTE_W : Z := Z.shiftl 1 2.
Definition PTE_X : Z := Z.shiftl 1 3.
Definition PTE_U : Z := Z.shiftl 1 4.

(** ** [PageTableEntry] *)
Abbreviation PageTableEntry := Z (only parsing).

Definition pte_new (ppn : PhysPageNum) (flags : Z) : PageTableEntry := Z.lor (w64 (Z.shiftl ppn 10)) flags.
Definition pte_empty : PageTableEntry := 0.
Definition pte_ppn (self : PageTableEntry) : PhysPageNum := ppn_from (Z.land (Z.shiftr self 10) (2 ^ 44 - 1)).

(** All eight bits name a flag, so [PTEFlags::from_bits] never fails. *)
Definition pte_flags (self : PageTableEntry) : Z := w8 self.
Definition is_valid (self : PageTableEntry) : bool := negb (Z.land (pte_flags self) PTE_V =? 0).
Definition readable (self : PageTableEntry) : bool := negb (Z.land (pte_flags self) PTE_R =? 0).
Definition writable (self : PageTableEntry) : bool := negb (Z.land (pte_flags self) PTE_W =? 0).
Definition executable (self : PageTableEntry) : bool := negb (Z.land (pte_flags self) PTE_X =? 0).

(** [frames] holds the trackers of the tables. *)
Record PageTable := mkPageTable {
  root_ppn : PhysPageNum;
  frames : list PhysPageNum;
}.

Section Ops.
Context {F : Type} `{FrameAllocator F}.
Abbreviation M := (cmd (Machine F)).

(** [get_pte_array()[idx]], as a read and a write. *)
Definition read_pte (ppn : PhysPageNum) (idx : Z) : M PageTableEntry :=
  let* b := read_page ppn in
  lift (index (dec_words 8 512 b) idx).

Definition write_pte (ppn : PhysPageNum) (idx : Z) (pte : PageTableEntry) : M unit :=
  let* b := read_page ppn in
  let* l := lift (index_set (dec_words 8 512 b) idx pte) in
  write_page ppn (enc_words 8 l).

(** [frame_alloc().unwrap()] *)
Definition frame_alloc_unwrap : M PhysPageNum :=
  let* r := frame_alloc in lift (unwrap r).

Definition pt_new : M PageTable :=
  let* frame := frame_alloc_unwrap in
  ret (mkPageTable frame [frame]).

Definition from_token (satp : Z) : PageTable :=
  mkPageTable (ppn_from (Z.land satp (2 ^ 44 - 1))) [].

(** The loop of [find_pte_create] over [idxs.iter().enumerate()], at position [i]. *)
Fixpoint walk_create (idxs : list Z) (i : Z) (ppn : PhysPageNum) (frames : list PhysPageNum)
    : M (option (PhysPageNum * Z) * list PhysPageNum) :=
  match idxs with
  | [] => ret (None, frames)
  | idx :: idxs =>
      if i =? 2 then let* _ := read_pte ppn idx in ret (Some (ppn, idx), frames) else
      let* pte := read_pte ppn idx in
      let* (pte, frames) :=
        if negb (is_valid pte) then
          let* frame := frame_alloc_unwrap in
          let pte := pte_new frame PTE_V in
          write_pte ppn idx pte;;
          ret (pte, frames ++ [frame])
        else ret (pte, frames) in
      walk_create idxs (i + 1) (pte_ppn pte) frames
  end.

Definition find_pte_create (self : PageTable) (vpn : VirtPageNum)
    : M (option (PhysPageNum * Z) * PageTable) :=
  let* (result, frames) := walk_create (indexes vpn) 0 (root_ppn self) (frames self) in
  ret (result, mkPageTable (root_ppn self) frames).

(** The loop of [find_pte]. *)
Fixpoint walk (idxs : list Z) (i : Z) (ppn : PhysPageNum) : M (option (PhysPageNum * Z)) :=
  match idxs with
  | [] => ret None
  | idx :: idxs =>
      let* pte := read_pte ppn idx in
      if i =? 2 then ret (Some (ppn, idx)) else
      if negb (is_valid pte) then ret None else
      walk idxs (i + 1) (pte_ppn pte)
  end.

Definition find_pte (self : PageTable) (vpn : VirtPageNum) : M (option (PhysPageNum * Z)) :=
  walk (indexes vpn) 0 (root_ppn self).

Definition map (self : PageTable) (vpn : VirtPageNum) (ppn : PhysPageNum) (flags : Z) : M PageTable :=
  let* (r, self) := find_pte_create self vpn in
  let* (p, idx) := lift (unwrap r) in
  let* pte := read_pte p idx in
  assert (negb (is_valid pte));;
  write_pte p idx (pte_new ppn (Z.lor flags PTE_V));;
  ret self.

Definition unmap (self : PageTable) (vpn : VirtPageNum) : M unit :=
  let* r := find_pte self vpn in
  let* (p, idx) := lift (unwrap r) in
  let* pte := read_pte p idx in
  assert (is_valid pte);;
  write_pte p idx pte_empty.

Definition translate (self : PageTable) (vpn : VirtPageNum) : M (option PageTableEntry) :=
  let* r := find_pte self vpn in
  match r with
  | Some (p, idx) => let* pte := read_pte p idx in ret (Some pte)
  | None => ret None
  end.

Definition translate_va (self : PageTable) (va : VirtAddr) : M (option PhysAddr) :=
  let* r := find_pte self (floor va) in
  match r with
  | Some (p, idx) =>
      let* pte := read_pte p idx in
      let aligned_pa := addr_of (pte_ppn pte) in
      let offset := page_offset va in
      ret (Some (pa_from (w64 (aligned_pa + offset))))
  | None => ret None
  end.

Definition token (self : PageTable) : Z := Z.lor (w64 (Z.shiftl 8 60)) (root_ppn self).

(** ** Access to user memory *)

(** A slice [&mut ppn.get_bytes_array()[from..to]]. *)
Record UserSlice := mkSlice {
  sl_page : PhysPageNum;
  sl_from : Z;
  sl_to : Z;
}.

(** [&mut bytes[from..to]] of a page: the bounds are checked. *)
Definition page_slice (ppn : PhysPageNum) (from to : Z) : M UserSlice :=
  let* b := read_page ppn in
  let* _ := lift (slice b from to) in
  ret (mkSlice ppn from to).

(** One round of the loop of [translated_byte_buffer]: the slice and the next [start]. *)
Definition buffer_step (page_table : PageTable) (start end_ : Z) : M (UserSlice * Z) :=
  let start_va := va_from start in
  let vpn := floor start_va in
  let* r := translate page_table vpn in
  let* pte := lift (unwrap r) in
  let ppn := pte_ppn pte in
  let vpn := step vpn in
  let end_va := addr_of vpn in
  let end_va := Z.min end_va (va_from end_) in
  let* s := if page_offset end_va =? 0 then page_slice ppn (page_offset start_va) PAGE_SIZE
            else page_slice ppn (page_offset start_va) (page_offset end_va) in
  ret (s, usize_of_va end_va).

Fixpoint buffer_loop (fuel : nat) (page_table : PageTable) (start end_ : Z) (v : list UserSlice)
    : M (list UserSlice) :=
  if start <? end_ then
    match fuel with
    | O => fail OutOfFuel
    | S fuel =>
        let* (s, start) := buffer_step page_table start end_ in
        buffer_loop fuel page_table start end_ (v ++ [s])
    end
  else ret v.

(** [translated_byte_buffer], with a bound on the number of rounds. *)
Definition translated_byte_buffer (fuel : nat) (tok ptr len : Z) : M (list UserSlice) :=
  let page_table := from_token tok in
  let start := ptr in
  let end_ := w64 (start + len) in
  buffer_loop fuel page_table start end_ [].

(** [get_ref] and [get_mut] of a physical address: the null pointer panics. *)
Definition check_null (pa : PhysAddr) : M PhysAddr :=
  assert (negb (pa =? 0));; ret pa.

(** [*pa.get_mut()] for a byte. *)
Definition read_byte (pa : PhysAddr) : M byte :=
  let* pa := check_null pa in
  let* b := read_page (floor pa) in
  lift (index b (page_offset pa)).

(** [string.push(ch as char)]: the character of code [ch], in UTF-8. *)
Definition push_char (string : list byte) (ch : byte) : list byte :=
  let c := byte.unsigned ch in
  if c <? 0x80 then string ++ [ch]
  else string ++ [byte.of_Z (Z.lor 0xc0 (Z.shiftr c 6)); byte.of_Z (Z.lor 0x80 (Z.land c 0x3f))].

Fixpoint str_loop (fuel : nat) (page_table : PageTable) (va : Z) (string : list byte) : M (list byte) :=
  match fuel with
  | O => fail OutOfFuel
  | S fuel =>
      let* r := translate_va page_table (va_from va) in
      let* pa := lift (unwrap r) in
      let* ch := read_byte pa in
      if decide (ch = Byte.x00) then ret string else
      str_loop fuel page_table (w64 (va + 1)) (push_char string ch)
  end.

(** [translated_str], with a bound on the number of characters: the bytes of the string. *)
Definition translated_str (fuel : nat) (tok ptr : Z) : M (list byte) :=
  str_loop fuel (from_token tok) ptr [].

(** [translated_ref] and [translated_refmut]: the physical address referred to. *)
Definition translated_ref (tok ptr : Z) : M PhysAddr :=
  let* r := translate_va (from_token tok) (va_from ptr) in
  let* pa := lift (unwrap r) in
  check_null pa.

End Ops.

(** ** [UserBuffer] *)
Definition slice_len (s : UserSlice) : Z := sl_to s - sl_from s.

Fixpoint buffer_len (total : Z) (buffers : list UserSlice) : Z :=
  match buffers with
  | [] => total
  | b :: buffers => buffer_len (w64 (total + slice_len b)) buffers
  end.

(** [UserBufferIterator::next]: the position of the byte and the next state. *)
Definition buffer_next (buffers : list UserSlice) (current_buffer current_idx : Z)
    : result (option ((PhysPageNum * Z) * (Z * Z))) :=
  if zlen buffers <=? current_buffer then Ok None else
  match index buffers current_buffer with
  | Fail f => Fail f
  | Ok b =>
      if (0 <=? current_idx) && (current_idx <? slice_len b) then
        let r := (sl_page b, sl_from b + current_idx) in
        if current_idx + 1 =? slice_len b then Ok (Some (r, (current_buffer + 1, 0)))
        else Ok (Some (r, (current_buffer, current_idx + 1)))
      else Fail Panic
  end.

(** The bytes [for p in user_buffer] visits. *)
Fixpoint buffer_bytes (fuel : nat) (buffers : list UserSlice) (current_buffer current_idx : Z)
    : result (list (PhysPageNum * Z)) :=
  match fuel with
  | O => Fail OutOfFuel
  | S fuel =>
      match buffer_next buffers current_buffer current_idx with
      | Fail f => Fail f
      | Ok None => Ok []
      | Ok (Some (r, (cb, ci))) =>
          match buffer_bytes fuel buffers cb ci with
          | Ok l => Ok (r :: l)
          | Fail f => Fail f
          end
      end
  end.
