(* ===== verification/PtInv.v ===== *)
(** * The three-level tree of a page table, and its invariant

    [T] names the page of every table by its level and by the bits of the page
    number that lead to it: the root is table [(0, 0)], entry [i] of table
    [(l, k)] leads to table [(l + 1, 512 k + i)], and the entries of the tables of
    level 2 are the mappings. *)

From S2P Require Import Prelude Address Frames PageTable.

(** ** Entries of a page *)
Definition pages_ok (r : gmap Z (list byte)) : Prop := forall p b, r !! p = Some b -> length b = page_len.

Definition pte_at (r : gmap Z (list byte)) (p i : Z) : option Z :=
  b ← r !! p; dec_words 8 512 b !! Z.to_nat i.

Definition set_pte (r : gmap Z (list byte)) (p i v : Z) : gmap Z (list byte) :=
  match r !! p with
  | Some b => <[p := enc_words 8 (<[Z.to_nat i := v]> (dec_words 8 512 b))]> r
  | None => r
  end.

Lemma page_words b : length b = page_len -> length (dec_words 8 512 b) = 512%nat /\
  Forall (fun z => 0 <= z < 2 ^ 64) (dec_words 8 512 b).
Proof. intros Hb. split; [apply dec_words_length|]. apply (dec_words_range 8). by rewrite Hb. Qed.

Section Entry.
Variables (r : gmap Z (list byte)) (p i v : Z).
Hypothesis Hok : pages_ok r.
Hypothesis Hp : is_Some (r !! p).
Hypothesis Hi : 0 <= i < 512.

Lemma pte_at_Some : exists w, pte_at r p i = Some w /\ 0 <= w < 2 ^ 64.
Proof.
  destruct Hp as [b Hb]. destruct (page_words b (Hok _ _ Hb)) as [Hl Hr]. unfold pte_at. rewrite Hb.
  cbn [mbind option_bind]. destruct (lookup_lt_is_Some_2 (dec_words 8 512 b) (Z.to_nat i)) as [w Hw]; [lia|].
  exists w. split; [done|]. by eapply (Forall_lookup_1 _ _ _ _ Hr).
Qed.

Hypothesis Hv : 0 <= v < 2 ^ 64.

Lemma set_pte_words b : r !! p = Some b ->
  dec_words 8 512 (enc_words 8 (<[Z.to_nat i := v]> (dec_words 8 512 b))) = <[Z.to_nat i := v]> (dec_words 8 512 b).
Proof.
  intros Hb. destruct (page_words b (Hok _ _ Hb)) as [Hl Hr].
  replace 512%nat with (length (<[Z.to_nat i := v]> (dec_words 8 512 b))) at 1 by (by rewrite length_insert).
  apply (dec_enc_words 8). by apply Forall_insert.
Qed.

Lemma pte_at_set p' i' : 0 <= i' ->
  pte_at (set_pte r p i v) p' i' = if decide (p' = p /\ i' = i) then Some v else pte_at r p' i'.
Proof.
  intros Hi'. destruct Hp as [b Hb]. unfold pte_at, set_pte. rewrite Hb, lookup_insert.
  destruct (decide (p = p')) as [<-|Hne].
  - rewrite Hb. cbn [mbind option_bind]. rewrite (set_pte_words b Hb), list_lookup_insert, dec_words_length.
    destruct (decide (p = p /\ i' = i)) as [[_ ->]|Hne]; [rewrite decide_True by lia; done|].
    rewrite decide_False; [done|]. intros [E _]. apply Hne. split; [done|lia].
  - rewrite decide_False by (intros [? _]; congruence). done.
Qed.

Lemma set_pte_other p' : p' <> p -> set_pte r p i v !! p' = r !! p'.
Proof. clear Hok Hp Hi Hv. intros Hne. unfold set_pte. destruct (r !! p); [|done]. by apply lookup_insert_ne. Qed.

Lemma set_pte_dom p' : is_Some (set_pte r p i v !! p') <-> is_Some (r !! p').
Proof.
  clear Hok Hp Hi Hv. unfold set_pte. destruct (r !! p) as [b|] eqn:Hb; [|done]. rewrite lookup_insert.
  destruct (decide (p = p')) as [<-|]; [|done]. rewrite Hb. split; eauto.
Qed.

Lemma set_pte_ok : pages_ok (set_pte r p i v).
Proof.
  clear Hi Hv. destruct Hp as [b Hb]. intros q c. unfold set_pte. rewrite Hb, lookup_insert.
  destruct (decide (p = q)); [|apply Hok]. intros [= <-].
  rewrite enc_words_length, length_insert, dec_words_length. done.
Qed.

End Entry.

Lemma pte_at_zero r p i : 0 <= i < 512 -> pte_at (<[p := zero_page]> r) p i = Some 0.
Proof.
  intros Hi. unfold pte_at. rewrite lookup_insert_eq. cbn [mbind option_bind].
  assert (E : dec_words 8 512 zero_page = replicate 512 0) by (vm_compute; reflexivity). rewrite E.
  rewrite lookup_replicate_2 by lia. done.
Qed.

Lemma pte_at_new_page r p q i b : q <> p -> pte_at (<[p := b]> r) q i = pte_at r q i.
Proof. intros Hne. unfold pte_at. by rewrite lookup_insert_ne by congruence. Qed.

Lemma zero_page_ok r p : pages_ok r -> pages_ok (<[p := zero_page]> r).
Proof. intros Hok q b. rewrite lookup_insert. case_decide; [intros [= <-]; apply length_replicate|apply Hok]. Qed.

(** ** Fields of an entry *)
Lemma pte_new_spec ppn flags : 0 <= ppn < 2 ^ 44 -> 0 <= flags < 2 ^ 8 ->
  pte_new ppn flags = ppn * 1024 + flags /\ 0 <= pte_new ppn flags < 2 ^ 64.
Proof.
  intros Hp Hf. assert (E : pte_new ppn flags = ppn * 1024 + flags); [|rewrite E; lia].
  unfold pte_new. rewrite w64_small; rewrite Z.shiftl_mul_pow2 by lia; change (2 ^ 10) with 1024; [|lia].
  assert (El : Z.land (ppn * 1024) flags = 0).
  { change 1024 with (2 ^ 10). rewrite <- Z.shiftl_mul_pow2 by lia. apply Z.bits_inj'. intros j Hj.
    rewrite Z.land_spec, Z.bits_0. destruct (Z.lt_ge_cases j 10); [by rewrite Z.shiftl_spec_low|].
    rewrite <- (Z.mod_small flags (2 ^ 10)) by lia. rewrite Z.mod_pow2_bits_high, andb_false_r by lia. done. }
  rewrite <- Z.lxor_lor by done. by rewrite Z.add_nocarry_lxor.
Qed.

Lemma pte_ppn_spec v : 0 <= v -> pte_ppn v = v / 1024 mod 2 ^ 44.
Proof.
  intros Hv. unfold pte_ppn. rewrite ppn_from_mod. change (2 ^ 44 - 1) with (Z.ones 44).
  rewrite Z.land_ones, Z.shiftr_div_pow2, Z.mod_mod by lia. done.
Qed.

Lemma pte_ppn_new ppn flags : 0 <= ppn < 2 ^ 44 -> 0 <= flags < 2 ^ 8 -> pte_ppn (pte_new ppn flags) = ppn.
Proof.
  intros Hp Hf. destruct (pte_new_spec ppn flags Hp Hf) as [E Hr]. rewrite pte_ppn_spec by lia. rewrite E.
  rewrite Z.div_add_l by lia. rewrite (Z.div_small flags), Z.add_0_r by lia. by apply Z.mod_small.
Qed.

Lemma pte_flags_new ppn flags : 0 <= ppn < 2 ^ 44 -> 0 <= flags < 2 ^ 8 -> pte_flags (pte_new ppn flags) = flags.
Proof.
  intros Hp Hf. destruct (pte_new_spec ppn flags Hp Hf) as [E _]. unfold pte_flags, w8. rewrite E.
  change (2 ^ 8) with 256 in *. replace (ppn * 1024 + flags) with (flags + ppn * 4 * 256) by lia.
  rewrite Z.mod_add by lia. by apply Z.mod_small.
Qed.

Lemma is_valid_odd v : is_valid v = Z.odd v.
Proof.
  unfold is_valid, pte_flags, w8. change PTE_V with (Z.ones 1). rewrite Z.land_ones by lia.
  change (2 ^ 8) with (2 * 128). change (2 ^ 1) with 2. rewrite Zmod_odd, Z.rem_mul_r by lia.
  rewrite Z.odd_add, Z.odd_mul, andb_false_l, xorb_false_r, Zmod_odd. by destruct (Z.odd v).
Qed.

Lemma flags_valid_range flags : 0 <= flags < 2 ^ 8 -> 0 <= Z.lor flags PTE_V < 2 ^ 8 /\ Z.odd (Z.lor flags PTE_V) = true.
Proof.
  intros Hf. split.
  - split; [apply Z.lor_nonneg; split; [lia|done]|].
    destruct (decide (Z.lor flags PTE_V = 0)) as [->|]; [done|]. apply Z.log2_lt_pow2.
    { assert (0 <= Z.lor flags PTE_V) by (apply Z.lor_nonneg; split; [lia|done]). lia. }
    rewrite Z.log2_lor by (lia || done). change (Z.log2 PTE_V) with 0.
    apply Z.max_lub_lt; [|lia]. destruct (decide (flags = 0)) as [->|]; [done|]. apply Z.log2_lt_pow2; lia.
  - rewrite <- Z.bit0_odd, Z.lor_spec. change (Z.testbit PTE_V 0) with true. apply orb_true_r.
Qed.

Lemma is_valid_new ppn flags : 0 <= ppn < 2 ^ 44 -> 0 <= flags < 2 ^ 8 ->
  is_valid (pte_new ppn (Z.lor flags PTE_V)) = true.
Proof.
  intros Hp Hf. destruct (flags_valid_range flags Hf) as [Hr Ho]. destruct (pte_new_spec ppn _ Hp Hr) as [E _].
  rewrite is_valid_odd, E, Z.odd_add, Ho, Z.odd_mul, andb_false_r. done.
Qed.

(** ** The tree *)
Abbreviation tables := (gmap (Z * Z) Z).

(** The entry of a table and the table it should lead to. *)
Definition entry_ok (v : Z) (o : option Z) : Prop :=
  match o with
  | Some q => is_valid v = true /\ pte_ppn v = q
  | None => is_valid v = false
  end.

Record pt_ok (r : gmap Z (list byte)) (root : Z) (T : tables) : Prop := {
  pt_pages : pages_ok r;
  pt_root : T !! (0, 0) = Some root;
  pt_inj x y p : T !! x = Some p -> T !! y = Some p -> x = y;
  pt_table l k p : T !! (l, k) = Some p -> 0 <= l <= 2 /\ 0 <= k < 512 ^ l /\ 0 <= p < 2 ^ 44 /\ is_Some (r !! p);
  pt_parent l k : 0 <= l -> is_Some (T !! (l + 1, k)) -> is_Some (T !! (l, k / 512));
  pt_entry l k p i : T !! (l, k) = Some p -> l < 2 -> 0 <= i < 512 ->
    exists v, pte_at r p i = Some v /\ entry_ok v (T !! (l + 1, k * 512 + i));
}.

(** The pages of the tables. *)
Definition table_pages (T : tables) : gset Z := map_to_set (fun _ p => p) T.

Lemma elem_of_table_pages T p : p ∈ table_pages T <-> exists x, T !! x = Some p.
Proof. unfold table_pages. rewrite elem_of_map_to_set. naive_solver. Qed.

(** The entry of a page, valid or not, if its table is there. *)
Definition slot (r : gmap Z (list byte)) (T : tables) (vpn : Z) : option Z := q ← T !! (2, vpn / 512); pte_at r q (vpn mod 512).

(** The mapping of a page. *)
Definition mapping (r : gmap Z (list byte)) (T : tables) (vpn : Z) : option Z :=
  q ← T !! (2, vpn / 512); v ← pte_at r q (vpn mod 512); if is_valid v then Some v else None.

(** Another page is written. *)
Lemma pte_at_ext r r' p i : r' !! p = r !! p -> pte_at r' p i = pte_at r p i.
Proof. intros E. unfold pte_at. by rewrite E. Qed.

Lemma pt_ok_frame r r' root T : (forall p, p ∈ table_pages T -> r' !! p = r !! p) -> pages_ok r' ->
  pt_ok r root T -> pt_ok r' root T.
Proof.
  intros Hag Hok' [Hok Hroot Hinj Htab Hpar Hent].
  assert (Hag' : forall x p, T !! x = Some p -> r' !! p = r !! p) by (intros x p Hx; apply Hag, elem_of_table_pages; eauto).
  split; [done|done|done| |done|].
  - intros l k p Hx. rewrite (Hag' _ _ Hx). by apply Htab.
  - intros l k p i Hx Hl Hi. rewrite (pte_at_ext r r') by (by eapply Hag'). by apply Hent.
Qed.

Lemma mapping_frame r r' T vpn : (forall p, p ∈ table_pages T -> r' !! p = r !! p) ->
  mapping r' T vpn = mapping r T vpn.
Proof.
  intros Hag. unfold mapping. destruct (T !! (2, vpn / 512)) as [q|] eqn:Hq; [|done].
  cbn [mbind option_bind]. rewrite (pte_at_ext r r'); [done|]. apply Hag, elem_of_table_pages. eauto.
Qed.

(** A new table [q] for entry [i] of the table [(l, k)]. *)
Section Add.
Variables (r : gmap Z (list byte)) (root : Z) (T : tables) (l k p i q : Z).
Hypothesis Hpt : pt_ok r root T.
Hypothesis Hp : T !! (l, k) = Some p.
Hypothesis Hl : l < 2.
Hypothesis Hi : 0 <= i < 512.
Hypothesis Hnone : T !! (l + 1, k * 512 + i) = None.
Hypothesis Hq : q ∉ table_pages T.
Hypothesis Hqr : 0 <= q < 2 ^ 44.

Let r' := set_pte (<[q := zero_page]> r) p i (pte_new q PTE_V).
Let T' : tables := <[(l + 1, k * 512 + i) := q]> T.

Lemma new_table_ne x y : T !! x = Some y -> y <> q.
Proof. intros Hx ->. apply Hq, elem_of_table_pages. eauto. Qed.

Lemma new_entry : is_valid (pte_new q PTE_V) = true /\ pte_ppn (pte_new q PTE_V) = q /\ 0 <= pte_new q PTE_V < 2 ^ 64.
Proof.
  split_and!; [apply (is_valid_new q 0); lia|by apply pte_ppn_new|by apply pte_new_spec..].
Qed.

Lemma pte_at_add p' i' : 0 <= i' < 512 -> p' <> q ->
  pte_at r' p' i' = if decide (p' = p /\ i' = i) then Some (pte_new q PTE_V) else pte_at r p' i'.
Proof.
  clear Hnone. intros Hi' Hne. unfold r'. destruct (pt_table _ _ _ Hpt l k p Hp) as (_ & _ & _ & Hsome).
  rewrite pte_at_set; [by rewrite pte_at_new_page|by apply zero_page_ok, Hpt| |done|apply new_entry|lia].
  rewrite lookup_insert. case_decide; [done|done].
Qed.

Lemma pte_at_add_new i' : 0 <= i' < 512 -> pte_at r' q i' = Some 0.
Proof.
  clear Hnone. intros Hi'. unfold r'. pose proof (new_table_ne _ _ Hp) as Hpq.
  destruct (pt_table _ _ _ Hpt l k p Hp) as (_ & _ & _ & Hsome).
  rewrite pte_at_set; [|by apply zero_page_ok, Hpt|rewrite lookup_insert; by case_decide|done|apply new_entry|lia].
  rewrite decide_False by naive_solver. by apply pte_at_zero.
Qed.

Lemma add_key l' k' i' : l' + 1 = l + 1 -> k' * 512 + i' = k * 512 + i -> 0 <= i' < 512 -> l' = l /\ k' = k /\ i' = i.
Proof. clear -Hi. lia. Qed.

Lemma pt_add : pt_ok r' root T'.
Proof.
  pose proof Hpt as [Hok Hroot Hinj Htab Hpar Hent]. destruct (Htab l k p Hp) as (Hlr & Hkr & Hpr & Hsome).
  assert (Hsome1 : is_Some (<[q := zero_page]> r !! p)) by (rewrite lookup_insert; by case_decide).
  assert (Hdom : forall y, is_Some (r' !! y) <-> y = q \/ is_Some (r !! y)).
  { intros y. unfold r'. rewrite set_pte_dom, lookup_insert. destruct (decide (q = y)); [naive_solver|].
    split; [by right|]. intros [?|?]; [congruence|done]. }
  split.
  - unfold r'. apply set_pte_ok; [by apply zero_page_ok|done].
  - unfold T'. rewrite lookup_insert_ne; [done|]. intros [= E _]. lia.
  - intros x y p'. unfold T'. rewrite !lookup_insert. repeat case_decide; subst; [done| | |by apply Hinj].
    + intros [= <-] Hy. by apply new_table_ne in Hy.
    + intros Hx [= <-]. by apply new_table_ne in Hx.
  - intros l' k' p'. unfold T'. rewrite lookup_insert, Hdom. case_decide as E.
    + intros [= <-]. injection E as <- <-. rewrite Z.pow_add_r by lia. split_and!; [lia..|by left].
    + intros Hx. destruct (Htab l' k' p' Hx) as (? & ? & ? & ?). split_and!; [lia..|by right].
  - intros l' k' Hl'. unfold T'. rewrite !lookup_insert. case_decide as E.
    + intros _. injection E as E1 E2. assert (l' = l) as -> by lia.
      replace (k' / 512) with k by (rewrite <- E2; dlia). case_decide; [eauto|]. rewrite Hp. eauto.
    + intros Hx. case_decide; [eauto|]. by apply Hpar.
  - intros l' k' p' i'. unfold T' at 1. rewrite lookup_insert. case_decide as E.
    + intros [= <-] Hl' Hi'. injection E as <- <-. exists 0. split; [by apply pte_at_add_new|].
      unfold T'. rewrite lookup_insert_ne by (intros [= E _]; lia).
      destruct (T !! (l + 1 + 1, (k * 512 + i) * 512 + i')) eqn:Ht; [|done].
      exfalso. destruct (Hpar (l + 1) ((k * 512 + i) * 512 + i')) as [? Hx]; [lia|eauto|].
      replace (((k * 512 + i) * 512 + i') / 512) with (k * 512 + i) in Hx by dlia. congruence.
    + intros Hx Hl' Hi'. rewrite pte_at_add by (done || by eapply new_table_ne). unfold T'. rewrite lookup_insert.
      destruct (decide (p' = p /\ i' = i)) as [[-> ->]|Hne].
      * pose proof (Hinj _ _ _ Hx Hp) as [= -> ->]. rewrite decide_True by done.
        eexists. split; [done|]. by destruct new_entry as (? & ? & _).
      * rewrite decide_False; [by apply Hent|]. intros [= E1 E2].
        destruct (add_key l' k' i') as (-> & -> & ->); [lia..|]. apply Hne. split; [congruence|done].
Qed.

Lemma mapping_add vpn : 0 <= vpn -> mapping r' T' vpn = mapping r T vpn.
Proof.
  intros Hv. unfold mapping, T'. rewrite lookup_insert. pose proof (Z.mod_pos_bound vpn 512 ltac:(lia)).
  case_decide as E.
  - injection E as E1 E2. rewrite <- E1, <- E2, Hnone. cbn [mbind option_bind].
    by rewrite pte_at_add_new.
  - destruct (T !! (2, vpn / 512)) as [y|] eqn:Hy; [|done]. cbn [mbind option_bind].
    rewrite pte_at_add by (lia || by eapply new_table_ne).
    rewrite decide_False; [done|]. intros [-> _]. pose proof (pt_inj _ _ _ Hpt _ _ _ Hp Hy) as [= ? _]. lia.
Qed.

Lemma slot_add vpn : 0 <= vpn -> slot r' T' vpn = if decide (l = 1 /\ vpn / 512 = k * 512 + i) then Some 0 else slot r T vpn.
Proof.
  intros Hv. unfold slot, T'. rewrite lookup_insert. pose proof (Z.mod_pos_bound vpn 512 ltac:(lia)).
  case_decide as E.
  - injection E as E1 E2. rewrite decide_True by (split; lia). cbn [mbind option_bind]. by rewrite pte_at_add_new.
  - rewrite decide_False by (intros [-> Ek]; apply E; by rewrite Ek). destruct (T !! (2, vpn / 512)) as [y|] eqn:Hy; [|done]. cbn [mbind option_bind].
    rewrite pte_at_add by (lia || by eapply new_table_ne).
    rewrite decide_False; [done|]. intros [-> _]. pose proof (pt_inj _ _ _ Hpt _ _ _ Hp Hy) as [= ? _]. lia.
Qed.

Lemma add_frame y : y ∉ {[q]} ∪ table_pages T -> r' !! y = r !! y.
Proof.
  intros Hy. unfold r'. rewrite set_pte_other; [apply lookup_insert_ne; set_solver|].
  intros ->. apply Hy. apply elem_of_union_r, elem_of_table_pages. eauto.
Qed.

Lemma add_pages : table_pages T' = {[q]} ∪ table_pages T.
Proof.
  apply set_eq. intros y. rewrite elem_of_union, elem_of_singleton, !elem_of_table_pages. unfold T'. split.
  - intros [x Hx]. rewrite lookup_insert in Hx. case_decide; [injection Hx as <-; by left|right; eauto].
  - intros [->|[x Hx]]; [eexists; apply lookup_insert_eq|]. exists x. rewrite lookup_insert_ne; [done|congruence].
Qed.

End Add.

(** Writing an entry of a table of level 2. *)
Lemma pt_set_leaf r root T k q i v : pt_ok r root T -> T !! (2, k) = Some q -> 0 <= i < 512 -> 0 <= v < 2 ^ 64 ->
  pt_ok (set_pte r q i v) root T /\
  forall vpn, 0 <= vpn -> mapping (set_pte r q i v) T vpn =
    if decide (vpn = k * 512 + i) then (if is_valid v then Some v else None) else mapping r T vpn.
Proof.
  intros Hpt Hq Hi Hv. pose proof Hpt as [Hok Hroot Hinj Htab Hpar Hent].
  destruct (Htab 2 k q Hq) as (_ & Hk & _ & Hsome). split.
  - split; [by apply set_pte_ok|done|done| |done|].
    + intros l k' p Hx. rewrite set_pte_dom. by apply Htab.
    + intros l k' p i' Hx Hl Hi'. rewrite pte_at_set by (done || lia). rewrite decide_False; [by apply Hent|].
      intros [-> _]. pose proof (Hinj _ _ _ Hx Hq) as [= -> _]. lia.
  - intros vpn Hvpn. unfold mapping. destruct (decide (vpn = k * 512 + i)) as [->|Hne].
    + replace ((k * 512 + i) / 512) with k by dlia. replace ((k * 512 + i) mod 512) with i by dlia.
      rewrite Hq. cbn [mbind option_bind]. rewrite pte_at_set by (done || lia). by rewrite decide_True.
    + destruct (T !! (2, vpn / 512)) as [y|] eqn:Hy; [|done]. cbn [mbind option_bind].
      rewrite pte_at_set by (done || dlia). rewrite decide_False; [done|]. intros [-> Ei].
      pose proof (Hinj _ _ _ Hy Hq) as [= Ek]. apply Hne. dlia.
Qed.

Lemma slot_set_leaf r root T k q i v vpn : pt_ok r root T -> T !! (2, k) = Some q -> 0 <= i < 512 -> 0 <= v < 2 ^ 64 -> 0 <= vpn ->
  slot (set_pte r q i v) T vpn = if decide (vpn = k * 512 + i) then Some v else slot r T vpn.
Proof.
  intros Hpt Hq Hi Hv Hvpn. pose proof Hpt as [Hok _ Hinj Htab _ _]. destruct (Htab 2 k q Hq) as (_ & Hk & _ & Hsome). unfold slot. case_decide as Hne.
  - subst vpn. replace ((k * 512 + i) / 512) with k by dlia. replace ((k * 512 + i) mod 512) with i by dlia.
    rewrite Hq. cbn [mbind option_bind]. rewrite pte_at_set by (done || lia). by rewrite decide_True.
  - destruct (T !! (2, vpn / 512)) as [y|] eqn:Hy; [|done]. cbn [mbind option_bind].
    rewrite pte_at_set by (done || dlia). rewrite decide_False; [done|]. intros [-> Ei].
    pose proof (Hinj _ _ _ Hy Hq) as [= Ek]. apply Hne. dlia.
Qed.
