(* ===== verification/PtOps.v ===== *)
(** * The operations of a page table implement a finite map

    Proved against the interface of the frame allocator. *)

From S2P Require Import Prelude Address Frames PageTable PtInv.

Section Machine.
Context {F : Type} `{FrameAllocatorSpec F}.
Implicit Types (m : Machine F) (A : gset Z) (T : tables).

(** All frames of [[lo, hi)] are memory; those of [A] are in use. *)
Record machine_ok (lo hi : Z) m A : Prop := {
  mok_alloc : fa_inv (allocator m) lo hi A;
  mok_ram p : lo <= p < hi -> is_Some (ram m !! p);
  mok_pages : pages_ok (ram m);
}.

Lemma machine_set lo hi m A r : machine_ok lo hi m A -> pages_ok r ->
  (forall p, is_Some (ram m !! p) -> is_Some (r !! p)) -> machine_ok lo hi (mkMachine r (allocator m)) A.
Proof. intros [? Hr ?] Hok Hd. split; [done| |done]. intros p Hp. by apply Hd, Hr. Qed.

Lemma frame_alloc_ok lo hi m A : machine_ok lo hi m A -> Z.of_nat (size A) < hi - lo ->
  exists p f', frame_alloc m = Ok (Some p, mkMachine (<[p := zero_page]> (ram m)) f') /\ (p ∉ A) /\
    lo <= p < hi /\ 0 <= p < 2 ^ 44 /\
    machine_ok lo hi (mkMachine (<[p := zero_page]> (ram m)) f') ({[p]} ∪ A).
Proof.
  intros [Ha Hr Hok] Hsz. destruct (fa_alloc_some _ _ _ _ Ha Hsz) as (p & f' & E & Hp & Hpr & Ha').
  destruct (fa_range _ _ _ _ Ha) as (? & ? & _).
  exists p, f'. split_and!; [|done|lia..|].
  - unfold frame_alloc. rewrite E. destruct (Hr p Hpr) as [b Hb]. unfold tracker_new, read_page, write_page, bind, ret.
    cbn [ram allocator]. rewrite Hb. cbn [ram allocator]. rewrite Hb. do 4 f_equal.
    unfold zero_page. rewrite <- (Hok _ _ Hb). clear. induction b as [|x b IH]; [done|]. csimpl. by rewrite IH.
  - split; [done| |by apply zero_page_ok]. intros q Hq. cbn [ram]. rewrite lookup_insert. case_decide; [eauto|by apply Hr].
Qed.

Lemma frame_alloc_unwrap_ok lo hi m A : machine_ok lo hi m A -> Z.of_nat (size A) < hi - lo ->
  exists p f', frame_alloc_unwrap m = Ok (p, mkMachine (<[p := zero_page]> (ram m)) f') /\ (p ∉ A) /\
    lo <= p < hi /\ 0 <= p < 2 ^ 44 /\
    machine_ok lo hi (mkMachine (<[p := zero_page]> (ram m)) f') ({[p]} ∪ A).
Proof.
  intros Hm Hsz. destruct (frame_alloc_ok _ _ _ _ Hm Hsz) as (p & f' & E & R).
  exists p, f'. split; [|done]. unfold frame_alloc_unwrap. by rewrite (bind_Ok _ _ _ _ _ E).
Qed.

(** Out of memory. *)
Lemma frame_alloc_unwrap_none lo hi m A : machine_ok lo hi m A -> Z.of_nat (size A) = hi - lo ->
  frame_alloc_unwrap m = Fail Panic.
Proof.
  intros [Ha _ _] Hsz. unfold frame_alloc_unwrap, bind, frame_alloc. by rewrite (fa_alloc_none _ _ _ _ Ha Hsz).
Qed.

Lemma frame_dealloc_ok lo hi m A p : machine_ok lo hi m A -> p ∈ A ->
  exists f', frame_dealloc p m = Ok (tt, mkMachine (ram m) f') /\
    machine_ok lo hi (mkMachine (ram m) f') (A ∖ {[p]}).
Proof.
  intros [Ha Hr Hok] Hp. destruct (fa_dealloc_ok _ _ _ _ _ Ha Hp) as (f' & E & Ha').
  exists f'. unfold frame_dealloc. rewrite E. by split.
Qed.

Lemma drop_frames_ok lo hi ps : forall m A, machine_ok lo hi m A -> NoDup ps -> (forall p, p ∈ ps -> p ∈ A) ->
  exists f', drop_frames ps m = Ok (tt, mkMachine (ram m) f') /\
    machine_ok lo hi (mkMachine (ram m) f') (A ∖ list_to_set ps).
Proof.
  induction ps as [|p ps IH]; intros m A Hm Hnd Hin.
  { exists (allocator m). destruct m. split; [done|]. change (list_to_set []) with (∅ : gset Z).
    by rewrite difference_empty_L. }
  apply NoDup_cons in Hnd as [Hp Hnd].
  destruct (frame_dealloc_ok lo hi m A p Hm) as (f1 & E1 & Hm1); [set_solver|].
  destruct (IH _ _ Hm1 Hnd) as (f2 & E2 & Hm2); [set_solver|]. exists f2. split.
  - unfold drop_frames. cbn [for_each]. by rewrite (bind_Ok _ _ _ _ _ E1).
  - by replace (A ∖ list_to_set (p :: ps)) with (A ∖ {[p]} ∖ list_to_set ps) by set_solver.
Qed.

(** ** Entries *)
Lemma read_pte_ok m p i v : 0 <= i -> pte_at (ram m) p i = Some v -> read_pte p i m = Ok (v, m).
Proof.
  intros Hi Hv. unfold pte_at in Hv. unfold read_pte, bind, read_page. destruct (ram m !! p); [|done].
  cbn [mbind option_bind] in Hv. by rewrite (index_Ok _ _ _ Hi Hv).
Qed.

Lemma bind_read {B} m p i v (k : Z -> cmd (Machine F) B) :
  0 <= i -> pte_at (ram m) p i = Some v -> bind (read_pte p i) k m = k v m.
Proof. intros Hi Hv. apply bind_Ok. by apply read_pte_ok. Qed.

Lemma write_pte_ok m p i v : is_Some (ram m !! p) -> 0 <= i < 512 ->
  write_pte p i v m = Ok (tt, mkMachine (set_pte (ram m) p i v) (allocator m)).
Proof.
  intros [b Hb] Hi. unfold write_pte, bind, read_page. rewrite Hb.
  rewrite index_set_Ok by (unfold zlen; rewrite dec_words_length; lia). cbn [lift ret].
  unfold write_page, set_pte. by rewrite Hb.
Qed.

(** ** Positions of a page number in the tree *)
Definition key (vpn l : Z) : Z := vpn / 512 ^ (3 - l).
Definition idx (vpn l : Z) : Z := vpn / 512 ^ (2 - l) mod 512.

Lemma key_succ vpn l : 0 <= vpn -> 0 <= l <= 2 -> key vpn (l + 1) = key vpn l * 512 + idx vpn l.
Proof.
  intros Hv Hl. unfold key, idx. replace (3 - (l + 1)) with (2 - l) by lia.
  replace (512 ^ (3 - l)) with (512 ^ (2 - l) * 512) by (rewrite <- (Z.pow_add_r 512 _ 1) by lia; f_equal; lia).
  rewrite <- Z.div_div by (try apply Z.pow_pos_nonneg; lia).
  pose proof (Z.div_mod (vpn / 512 ^ (2 - l)) 512). lia.
Qed.

Lemma idx_range vpn l : 0 <= idx vpn l < 512.
Proof. apply Z.mod_pos_bound. lia. Qed.

Lemma indexes_idx vpn : 0 <= vpn < 2 ^ 27 -> indexes vpn = [idx vpn 0; idx vpn 1; idx vpn 2].
Proof.
  intros Hv. rewrite indexes_spec by done. unfold idx. change (512 ^ (2 - 0)) with (2 ^ 18).
  change (512 ^ (2 - 1)) with (2 ^ 9). change (512 ^ (2 - 2)) with 1. change 512 with (2 ^ 9). rewrite Z.div_1_r.
  f_equal. symmetry. apply Z.mod_small. dlia.
Qed.

Lemma key_0 vpn : 0 <= vpn < 2 ^ 27 -> key vpn 0 = 0.
Proof. intros. unfold key. change (512 ^ (3 - 0)) with (2 ^ 27). by apply Z.div_small. Qed.
Lemma key_2 vpn : key vpn 2 = vpn / 512.
Proof. done. Qed.
Lemma key_1 vpn : 0 <= vpn -> vpn / 512 / 512 = key vpn 1.
Proof. intros. unfold key. change (512 ^ (3 - 1)) with (512 * 512). by rewrite Z.div_div by lia. Qed.
Lemma idx_2 vpn : idx vpn 2 = vpn mod 512.
Proof. unfold idx. change (512 ^ (2 - 2)) with 1. by rewrite Z.div_1_r. Qed.

(** ** Lookup *)
Section Lookup.
Variables (m : Machine F) (pt : PageTable) (T : tables).
Hypothesis Hpt : pt_ok (ram m) (root_ppn pt) T.

Lemma walk_step vpn l p idxs : 0 <= vpn -> 0 <= l < 2 -> T !! (l, key vpn l) = Some p ->
  walk (idx vpn l :: idxs) l p m =
    match T !! (l + 1, key vpn (l + 1)) with Some q => walk idxs (l + 1) q m | None => Ok (None, m) end.
Proof.
  intros Hv Hl Hp. pose proof (idx_range vpn l) as Hi. rewrite key_succ by lia.
  destruct (pt_entry _ _ _ Hpt l (key vpn l) p (idx vpn l) Hp) as (v & Hv' & He); [lia|done|].
  cbn [walk]. rewrite (bind_read m p (idx vpn l) v) by (done || lia).
  rewrite (proj2 (Z.eqb_neq l 2)) by lia. unfold entry_ok in He.
  destruct (T !! (l + 1, key vpn l * 512 + idx vpn l)) as [q|]; [destruct He as [-> ->]|rewrite He]; done.
Qed.

Lemma walk_last vpn q : T !! (2, key vpn 2) = Some q -> walk [idx vpn 2] 2 q m = Ok (Some (q, vpn mod 512), m).
Proof.
  intros Hq. destruct (pt_table _ _ _ Hpt _ _ _ Hq) as (_ & _ & _ & Hs). pose proof (idx_range vpn 2) as Hi.
  destruct (pte_at_Some (ram m) q (idx vpn 2) ltac:(apply Hpt) Hs Hi) as (v & Hv & _).
  cbn [walk]. rewrite (bind_read m q (idx vpn 2) v) by (done || lia). by rewrite idx_2.
Qed.

Lemma find_pte_ok vpn : 0 <= vpn < 2 ^ 27 ->
  find_pte pt vpn m = Ok ((fun q => (q, vpn mod 512)) <$> T !! (2, vpn / 512), m).
Proof.
  intros Hv. unfold find_pte. rewrite indexes_idx by done.
  assert (Hr0 : T !! (0, key vpn 0) = Some (root_ppn pt)) by (rewrite key_0 by done; apply Hpt).
  rewrite (walk_step vpn 0) by (done || lia). change (0 + 1) with 1. rewrite <- key_2.
  destruct (T !! (1, key vpn 1)) as [p1|] eqn:H1.
  - rewrite (walk_step vpn 1) by (done || lia). change (1 + 1) with 2.
    destruct (T !! (2, key vpn 2)) as [p2|] eqn:H2; [|done]. by rewrite walk_last.
  - destruct (T !! (2, key vpn 2)) eqn:H2; [|done]. exfalso.
    destruct (pt_parent _ _ _ Hpt 1 (key vpn 2)) as [y Hy]; [lia|eauto|].
    rewrite key_2, key_1 in Hy by lia. congruence.
Qed.

Lemma leaf_entry vpn q : T !! (2, vpn / 512) = Some q ->
  exists v, pte_at (ram m) q (vpn mod 512) = Some v /\ 0 <= v < 2 ^ 64 /\
    mapping (ram m) T vpn = if is_valid v then Some v else None.
Proof.
  intros Hq. destruct (pt_table _ _ _ Hpt _ _ _ Hq) as (_ & _ & _ & Hs).
  destruct (pte_at_Some (ram m) q (vpn mod 512) ltac:(apply Hpt) Hs ltac:(apply Z.mod_pos_bound; lia)) as (v & Hv & Hr).
  exists v. split_and!; [done|lia..|]. unfold mapping. rewrite Hq. cbn [mbind option_bind]. by rewrite Hv.
Qed.

(** [translate] returns the entry of the last table, valid or not. *)
Lemma translate_ok vpn : 0 <= vpn < 2 ^ 27 ->
  translate pt vpn m = Ok (slot (ram m) T vpn, m).
Proof.
  intros Hv. unfold translate, slot. rewrite (bind_Ok _ _ _ _ _ (find_pte_ok vpn Hv)).
  destruct (T !! (2, vpn / 512)) as [q|] eqn:Hq; [|done]. cbn [fmap option_fmap option_map mbind option_bind].
  destruct (leaf_entry vpn q Hq) as (v & E & _). rewrite E.
  pose proof (Z.mod_pos_bound vpn 512 ltac:(lia)). by rewrite (bind_read m q (vpn mod 512) v) by (done || lia).
Qed.

Lemma translate_mapped vpn v : 0 <= vpn < 2 ^ 27 -> mapping (ram m) T vpn = Some v ->
  translate pt vpn m = Ok (Some v, m).
Proof.
  intros Hv Hm. rewrite translate_ok by done. unfold mapping in Hm. unfold slot.
  destruct (T !! (2, vpn / 512)) as [q|]; [|done]. cbn [mbind option_bind] in *.
  destruct (pte_at (ram m) q (vpn mod 512)) as [w|]; [|done]. cbn [mbind option_bind] in *.
  destruct (is_valid w); [|done]. by injection Hm as ->.
Qed.

Lemma translate_va_mapped va v : 0 <= va < 2 ^ 39 -> mapping (ram m) T (floor va) = Some v ->
  translate_va pt va m = Ok (Some (pte_ppn v * 4096 + va mod 4096), m).
Proof.
  intros Hva Hm. assert (Hf : 0 <= floor va < 2 ^ 27) by (unfold floor; change PAGE_SIZE with 4096; dlia).
  unfold translate_va. rewrite (bind_Ok _ _ _ _ _ (find_pte_ok _ Hf)).
  destruct (T !! (2, floor va / 512)) as [q|] eqn:Hq; [|unfold mapping in Hm; by rewrite Hq in Hm].
  destruct (leaf_entry _ q Hq) as (w & E & Hw & Hmw). rewrite Hm in Hmw. destruct (is_valid w); [|done].
  injection Hmw as <-. cbn [fmap option_fmap option_map].
  pose proof (Z.mod_pos_bound (floor va) 512 ltac:(lia)). rewrite (bind_read m q (floor va mod 512) v) by (done || lia).
  pose proof (Z.mod_pos_bound (v / 1024) (2 ^ 44) ltac:(lia)). rewrite pte_ppn_spec by lia.
  rewrite addr_of_small, page_offset_mod by lia. pose proof (Z.mod_pos_bound va 4096 ltac:(lia)).
  rewrite w64_small, pa_from_mod, Z.mod_small by lia. done.
Qed.

End Lookup.

(** ** Growth of the tree *)
Record extends (lo hi root : Z) m A T m' A' T' (new : list Z) : Prop := {
  ex_pt : pt_ok (ram m') root T';
  ex_machine : machine_ok lo hi m' A';
  ex_used : A' = list_to_set new ∪ A;
  ex_pages : table_pages T' = list_to_set new ∪ table_pages T;
  ex_fresh : NoDup new /\ forall p, p ∈ new -> (p ∉ A) /\ lo <= p < hi;
  ex_mapping vpn : 0 <= vpn -> mapping (ram m') T' vpn = mapping (ram m) T vpn;
  ex_frame p : p ∉ table_pages T' -> ram m' !! p = ram m !! p;
  ex_dom p : is_Some (ram m !! p) -> is_Some (ram m' !! p);
  ex_tables x p : T !! x = Some p -> T' !! x = Some p;
}.

Lemma extends_refl lo hi root m A T : pt_ok (ram m) root T -> machine_ok lo hi m A ->
  extends lo hi root m A T m A T [].
Proof.
  intros Hpt Hm. split; try done; [by rewrite list_to_set_nil, union_empty_l_L|by rewrite list_to_set_nil, union_empty_l_L|]. split; [constructor|by intros p ?%not_elem_of_nil].
Qed.

Lemma list_union_app (new1 new2 : list Z) (X : gset Z) :
  list_to_set new2 ∪ (list_to_set new1 ∪ X) = list_to_set (new1 ++ new2) ∪ X.
Proof. set_solver. Qed.

Lemma extends_trans lo hi root m A T m1 A1 T1 m2 A2 T2 new1 new2 :
  extends lo hi root m A T m1 A1 T1 new1 -> extends lo hi root m1 A1 T1 m2 A2 T2 new2 ->
  extends lo hi root m A T m2 A2 T2 (new1 ++ new2).
Proof.
  intros [P1 M1 U1 G1 [N1 F1] Q1 R1 D1 S1] [P2 M2 U2 G2 [N2 F2] Q2 R2 D2 S2].
  split; [done|done|by rewrite U2, U1, list_union_app|by rewrite G2, G1, list_union_app| | | |by auto|by auto].
  - split; [apply NoDup_app; split_and!; [done| |done]|].
    + intros p Hp Hp'. destruct (F2 p Hp') as [Hn _]. apply Hn. rewrite U1. apply elem_of_union_l. by apply elem_of_list_to_set.
    + intros p [Hp|Hp]%elem_of_app; [by apply F1|]. destruct (F2 p Hp) as [Hn ?]. split; [|done].
      contradict Hn. rewrite U1. by apply elem_of_union_r.
  - intros vpn Hv. by rewrite Q2, Q1.
  - intros p Hp. rewrite R2, R1; [done| |done]. contradict Hp. rewrite G2. by apply elem_of_union_r.
Qed.

(** A table that is missing costs a frame. *)
Definition absent T (x : Z * Z) : Z := match T !! x with Some _ => 0 | None => 1 end.
Definition missing T (vpn : Z) : Z := absent T (1, key vpn 1) + absent T (2, key vpn 2).

Lemma walk_create_step lo hi root m A T vpn l p idxs fs :
  pt_ok (ram m) root T -> machine_ok lo hi m A -> table_pages T ⊆ A -> 0 <= vpn -> 0 <= l < 2 ->
  T !! (l, key vpn l) = Some p -> Z.of_nat (size A) + absent T (l + 1, key vpn (l + 1)) <= hi - lo ->
  exists q m' A' T' new,
    walk_create (idx vpn l :: idxs) l p fs m = walk_create idxs (l + 1) q (fs ++ new) m' /\
    T' !! (l + 1, key vpn (l + 1)) = Some q /\ extends lo hi root m A T m' A' T' new /\
    zlen new = absent T (l + 1, key vpn (l + 1)) /\
    (forall y, y <> (l + 1, key vpn (l + 1)) -> T' !! y = T !! y) /\
    (forall vp, 0 <= vp -> slot (ram m') T' vp = if decide (l = 1 /\ vp / 512 = key vpn 2 /\ T !! (2, key vpn 2) = None) then Some 0 else slot (ram m) T vp).
Proof.
  intros Hpt Hm Hsub Hv Hl Hp Hroom. pose proof (idx_range vpn l) as Hi. rewrite key_succ in * by lia.
  unfold absent in Hroom |- *. set (x := (l + 1, key vpn l * 512 + idx vpn l)) in *.
  destruct (pt_entry _ _ _ Hpt l (key vpn l) p (idx vpn l) Hp) as (v & Hv' & He); [lia|done|].
  fold x in He. cbn [walk_create]. rewrite (proj2 (Z.eqb_neq l 2)) by lia.
  rewrite (bind_read m p (idx vpn l) v) by (done || lia). unfold entry_ok in He.
  destruct (T !! x) as [q|] eqn:Hx.
  - destruct He as [-> <-]. exists (pte_ppn v), m, A, T, []. rewrite app_nil_r.
    split_and!; [done|done|by apply extends_refl|done|done|].
    intros vp Hvp. rewrite decide_False; [done|]. intros (-> & _ & Hn). unfold x in Hx. rewrite <- (key_succ vpn 1) in Hx by lia. change (1 + 1) with 2 in Hx. congruence.
  - rewrite He. cbn [negb]. cbv iota.
    destruct (frame_alloc_unwrap_ok lo hi m A Hm) as (q & f' & E & Hq & Hqr & Hqw & Hm1); [lia|].
    assert (Hqt : q ∉ table_pages T) by (intros ?%Hsub; done).
    destruct (pt_table _ _ _ Hpt _ _ _ Hp) as (_ & _ & _ & Hs).
    rewrite bind_assoc, (bind_Ok _ _ _ _ _ E), bind_assoc.
    assert (Hs1 : is_Some (<[q := zero_page]> (ram m) !! p)) by (rewrite lookup_insert; case_decide; eauto).
    rewrite (bind_Ok _ _ _ _ _ (write_pte_ok (mkMachine (<[q := zero_page]> (ram m)) f') p (idx vpn l) (pte_new q PTE_V) Hs1 Hi)).
    cbn [ram allocator]. set (m1 := mkMachine (set_pte (<[q := zero_page]> (ram m)) p (idx vpn l) (pte_new q PTE_V)) f').
    assert (Hpt1 : pt_ok (ram m1) root (<[x := q]> T)) by (apply (pt_add (ram m) root T l (key vpn l) p (idx vpn l) q); (done || lia)).
    exists q, m1, ({[q]} ∪ A), (<[x := q]> T), [q]. split_and!; [| |split|done| |].
    + by rewrite bind_ret, (pte_ppn_new q PTE_V).
    + apply lookup_insert_eq.
    + done.
    + apply (machine_set lo hi _ _ _ Hm1); [apply Hpt1|]. intros y Hy. by apply set_pte_dom.
    + by rewrite list_to_set_singleton_L.
    + unfold x. rewrite add_pages by (done || lia). by rewrite list_to_set_singleton_L.
    + split; [apply NoDup_singleton|]. intros y ->%list_elem_of_singleton. done.
    + intros vp Hvp. apply (mapping_add (ram m) root T l (key vpn l) p (idx vpn l) q); (done || lia).
    + intros y Hy. unfold x in Hy. rewrite add_pages in Hy by (done || lia). apply (add_frame (ram m) root T l (key vpn l) p (idx vpn l) q); (done || lia).
    + intros y Hy. apply set_pte_dom. rewrite lookup_insert. case_decide; [eauto|done].
    + intros y z Hy. rewrite lookup_insert_ne; [done|congruence].
    + intros y Hy. by apply lookup_insert_ne.
    + intros vp Hvp. etransitivity; [apply (slot_add (ram m) root T l (key vpn l) p (idx vpn l) q); (done || lia)|].
      destruct (decide (l = 1)) as [->|Hl1]; [|rewrite !decide_False by tauto; done]. unfold x in Hx. rewrite <- (key_succ vpn 1) in * by lia. change (1 + 1) with 2 in *.
      destruct (decide (vp / 512 = key vpn 2)); [by rewrite !decide_True|rewrite !decide_False by tauto; done].
Qed.

(** ** The page table of an address space *)
Record pt_rep (lo hi : Z) m A (pt : PageTable) T : Prop := {
  rep_machine : machine_ok lo hi m A;
  rep_pt : pt_ok (ram m) (root_ppn pt) T;
  rep_used : table_pages T ⊆ A;
  rep_nodup : NoDup (frames pt);
  rep_frames p : p ∈ frames pt <-> p ∈ table_pages T;
}.

(** An operation took the frames [new] for tables and wrote to tables only. *)
Record pt_post (lo hi : Z) m A (pt : PageTable) T m' A' (pt' : PageTable) T' (new : list Z) : Prop := {
  pp_rep : pt_rep lo hi m' A' pt' T';
  pp_root : root_ppn pt' = root_ppn pt;
  pp_used : A' = list_to_set new ∪ A;
  pp_pages : table_pages T' = list_to_set new ∪ table_pages T;
  pp_fresh : NoDup new /\ forall p, p ∈ new -> (p ∉ A) /\ lo <= p < hi;
  pp_frame p : p ∉ table_pages T' -> ram m' !! p = ram m !! p;
  pp_dom p : is_Some (ram m !! p) -> is_Some (ram m' !! p);
  pp_tables x p : T !! x = Some p -> T' !! x = Some p;
}.

Lemma find_pte_create_ok lo hi m A pt T vpn :
  pt_rep lo hi m A pt T -> 0 <= vpn < 2 ^ 27 -> Z.of_nat (size A) + missing T vpn <= hi - lo ->
  exists q m' A' T' new,
    find_pte_create pt vpn m = Ok (Some (q, vpn mod 512), mkPageTable (root_ppn pt) (frames pt ++ new), m') /\
    T' !! (2, vpn / 512) = Some q /\ extends lo hi (root_ppn pt) m A T m' A' T' new /\ zlen new = missing T vpn /\
    (forall vp, 0 <= vp -> slot (ram m') T' vp = if decide (vp / 512 = vpn / 512 /\ T !! (2, vpn / 512) = None) then Some 0 else slot (ram m) T vp).
Proof.
  intros [Hm Hpt Hsub _ _] Hv Hroom. unfold missing in *.
  assert (Hr0 : T !! (0, key vpn 0) = Some (root_ppn pt)) by (rewrite key_0 by done; apply Hpt).
  assert (Ha : forall x, 0 <= absent T x) by (intros x; unfold absent; destruct (T !! x); lia).
  pose proof (Ha (1, key vpn 1)). pose proof (Ha (2, key vpn 2)).
  unfold find_pte_create. rewrite indexes_idx by done.
  destruct (walk_create_step lo hi (root_ppn pt) m A T vpn 0 (root_ppn pt) [idx vpn 1; idx vpn 2] (frames pt))
    as (p1 & m1 & A1 & T1 & new1 & E1 & Hp1 & X1 & L1 & O1 & S1); [done|done|done|lia|lia|done|change (0 + 1) with 1; lia|].
  change (0 + 1) with 1 in *.
  assert (Hsub1 : table_pages T1 ⊆ A1).
  { rewrite (ex_pages _ _ _ _ _ _ _ _ _ _ X1), (ex_used _ _ _ _ _ _ _ _ _ _ X1). by apply union_mono_l. }
  assert (Hab : absent T1 (2, key vpn 2) = absent T (2, key vpn 2)) by (unfold absent; by rewrite O1).
  assert (Hsz : Z.of_nat (size A1) = Z.of_nat (size A) + zlen new1).
  { rewrite (ex_used _ _ _ _ _ _ _ _ _ _ X1). destruct (ex_fresh _ _ _ _ _ _ _ _ _ _ X1) as [Hnd Hf].
    rewrite size_union by (intros p Hp%elem_of_list_to_set; by apply Hf). rewrite size_list_to_set by done.
    unfold zlen. lia. }
  destruct (walk_create_step lo hi (root_ppn pt) m1 A1 T1 vpn 1 p1 [idx vpn 2] (frames pt ++ new1))
    as (p2 & m2 & A2 & T2 & new2 & E2 & Hp2 & X2 & L2 & _ & S2);
    [apply X1|apply X1|done|lia|lia|done|change (1 + 1) with 2; rewrite Hab; lia|].
  change (1 + 1) with 2 in *. rewrite Hab in L2.
  pose proof (extends_trans _ _ _ _ _ _ _ _ _ _ _ _ _ _ X1 X2) as X.
  exists p2, m2, A2, T2, (new1 ++ new2). split_and!; [|done|done|unfold zlen in *; rewrite length_app; lia|].
  2: { intros vp Hvp. rewrite S2, S1 by done. rewrite <- (key_2 vpn). rewrite (O1 (2, key vpn 2)) by congruence. rewrite (decide_False (P := 0 = 1 /\ _)) by (intros [? _]; lia).
    destruct (decide (vp / 512 = key vpn 2 /\ T !! (2, key vpn 2) = None)); [by rewrite decide_True|by rewrite decide_False by tauto]. }
  unfold bind at 1. rewrite E1, E2.
  destruct (pt_table _ _ _ (ex_pt _ _ _ _ _ _ _ _ _ _ X) _ _ _ Hp2) as (_ & _ & _ & Hs). pose proof (idx_range vpn 2) as Hi.
  destruct (pte_at_Some (ram m2) p2 (idx vpn 2) ltac:(apply X) Hs Hi) as (v & Hpv & _).
  cbn [walk_create]. change (2 =? 2) with true. cbv iota. rewrite (bind_read m2 p2 (idx vpn 2) v) by (done || lia).
  unfold ret. by rewrite idx_2, <- app_assoc.
Qed.

(** The tables after entry [vpn] was written. *)
Lemma set_leaf_post lo hi m A pt T m' A' T' new vpn q v :
  pt_rep lo hi m A pt T -> extends lo hi (root_ppn pt) m A T m' A' T' new ->
  0 <= vpn -> T' !! (2, vpn / 512) = Some q -> 0 <= v < 2 ^ 64 ->
  let m2 := mkMachine (set_pte (ram m') q (vpn mod 512) v) (allocator m') in
  let pt2 := mkPageTable (root_ppn pt) (frames pt ++ new) in
  pt_post lo hi m A pt T m2 A' pt2 T' new /\
  forall vp, 0 <= vp -> mapping (ram m2) T' vp =
    if decide (vp = vpn) then (if is_valid v then Some v else None) else mapping (ram m) T vp.
Proof.
  intros [Hm Hpt Hsub Hnd Hfr] [P1 M1 U1 G1 F1 Q1 R1 D1 S1] Hvpn Hq Hv m2 pt2.
  pose proof (Z.mod_pos_bound vpn 512 ltac:(lia)) as Hmod.
  destruct (pt_set_leaf _ _ _ _ q (vpn mod 512) v P1 Hq Hmod Hv) as [P2 Q2].
  split; [split|].
  - split; [|done| | |].
    + apply (machine_set lo hi m'); [done|apply P2|]. intros y. by rewrite set_pte_dom.
    + rewrite G1, U1. by apply union_mono_l.
    + cbn [frames pt2]. apply NoDup_app. split_and!; [done| |apply F1]. intros p Hp Hn.
      destruct F1 as [_ F1]. destruct (F1 p Hn) as [Hna _]. by apply Hna, Hsub, Hfr.
    + intros p. cbn [frames pt2]. rewrite elem_of_app, Hfr, G1, elem_of_union, elem_of_list_to_set. tauto.
  - done.
  - done.
  - done.
  - done.
  - intros p Hp. cbn [ram m2]. rewrite set_pte_other; [by apply R1|]. intros ->. apply Hp, elem_of_table_pages. eauto.
  - intros p Hp. cbn [ram m2]. apply set_pte_dom. by apply D1.
  - done.
  - intros vp Hvp. cbn [ram m2]. rewrite Q2 by done. replace (vpn / 512 * 512 + vpn mod 512) with vpn by dlia.
    case_decide; [done|]. by apply Q1.
Qed.

Lemma map_ok lo hi m A pt T vpn ppn flags :
  pt_rep lo hi m A pt T -> 0 <= vpn < 2 ^ 27 -> 0 <= ppn < 2 ^ 44 -> 0 <= flags < 2 ^ 8 ->
  mapping (ram m) T vpn = None -> Z.of_nat (size A) + missing T vpn <= hi - lo ->
  exists pt' m' A' T' new, map pt vpn ppn flags m = Ok (pt', m') /\
    pt_post lo hi m A pt T m' A' pt' T' new /\ zlen new = missing T vpn /\
    (forall vp, 0 <= vp -> mapping (ram m') T' vp =
      if decide (vp = vpn) then Some (pte_new ppn (Z.lor flags PTE_V)) else mapping (ram m) T vp) /\
    (forall vp, 0 <= vp -> slot (ram m') T' vp =
      if decide (vp = vpn) then Some (pte_new ppn (Z.lor flags PTE_V))
      else if decide (vp / 512 = vpn / 512 /\ T !! (2, vpn / 512) = None) then Some 0 else slot (ram m) T vp).
Proof.
  intros Hrep Hv Hp Hf Hnone Hroom.
  destruct (find_pte_create_ok _ _ _ _ _ _ _ Hrep Hv Hroom) as (q & m1 & A1 & T1 & new & E & Hq & X & Hlen & Hsl).
  pose proof (flags_valid_range flags Hf) as [Hfr _]. destruct (pte_new_spec ppn _ Hp Hfr) as [_ Hr].
  destruct (set_leaf_post lo hi m A pt T m1 A1 T1 new vpn q (pte_new ppn (Z.lor flags PTE_V))) as [Hpost Hmap];
    [done|done|lia|done|done|].
  eexists _, _, A1, T1, new. split_and!; [|exact Hpost|done| |].
  - unfold map. rewrite (bind_Ok _ _ _ _ _ E). cbn [unwrap lift]. rewrite bind_ret.
    assert (Hpt1 : pt_ok (ram m1) (root_ppn (mkPageTable (root_ppn pt) [])) T1) by apply X.
    destruct (leaf_entry m1 _ T1 Hpt1 vpn q Hq) as (w & Ew & _ & Hmw).
    rewrite (ex_mapping _ _ _ _ _ _ _ _ _ _ X), Hnone in Hmw by lia.
    pose proof (Z.mod_pos_bound vpn 512 ltac:(lia)) as Hmod.
    rewrite (bind_read m1 q (vpn mod 512) w) by (done || lia).
    destruct (is_valid w); [done|]. cbn [negb assert]. rewrite bind_ret.
    destruct (pt_table _ _ _ Hpt1 _ _ _ Hq) as (_ & _ & _ & Hs).
    by rewrite (bind_Ok _ _ _ _ _ (write_pte_ok m1 q (vpn mod 512) _ Hs Hmod)).
  - intros vp Hvp. rewrite Hmap by done. by rewrite is_valid_new.
  - intros vp Hvp. cbn [ram]. rewrite (slot_set_leaf _ (root_ppn pt) T1 (vpn / 512)) by (exact (ex_pt _ _ _ _ _ _ _ _ _ _ X) || done || lia || dlia).
    replace (vpn / 512 * 512 + vpn mod 512) with vpn by dlia. case_decide; [done|by apply Hsl].
Qed.

(** Mapping twice panics. *)
Lemma map_mapped lo hi m A pt T vpn ppn flags v :
  pt_rep lo hi m A pt T -> 0 <= vpn < 2 ^ 27 -> mapping (ram m) T vpn = Some v -> Z.of_nat (size A) <= hi - lo ->
  map pt vpn ppn flags m = Fail Panic.
Proof.
  intros Hrep Hv Hm Hroom. pose proof (rep_pt _ _ _ _ _ _ Hrep) as Hpt.
  assert (Hq : exists q, T !! (2, vpn / 512) = Some q).
  { unfold mapping in Hm. destruct (T !! (2, vpn / 512)); [eauto|done]. }
  destruct Hq as [q Hq]. assert (Hmiss : missing T vpn = 0).
  { destruct (pt_parent _ _ _ Hpt 1 (vpn / 512)) as [y Hy]; [lia|eauto|].
    unfold missing, absent. rewrite key_2, Hq. rewrite key_1 in Hy by lia. by rewrite Hy. }
  destruct (find_pte_create_ok lo hi m A pt T vpn Hrep Hv) as (q' & m1 & A1 & T1 & new & E & Hq' & X & _); [lia|].
  unfold map. rewrite (bind_Ok _ _ _ _ _ E). cbn [unwrap lift]. rewrite bind_ret.
  assert (Hpt1 : pt_ok (ram m1) (root_ppn (mkPageTable (root_ppn pt) [])) T1) by apply X.
  destruct (leaf_entry m1 _ T1 Hpt1 vpn q' Hq') as (w & Ew & _ & Hmw).
  rewrite (ex_mapping _ _ _ _ _ _ _ _ _ _ X), Hm in Hmw by lia.
  pose proof (Z.mod_pos_bound vpn 512 ltac:(lia)). rewrite (bind_read m1 q' (vpn mod 512) w) by (done || lia).
  by destruct (is_valid w).
Qed.

Lemma unmap_ok lo hi m A pt T vpn v :
  pt_rep lo hi m A pt T -> 0 <= vpn < 2 ^ 27 -> mapping (ram m) T vpn = Some v ->
  exists m', unmap pt vpn m = Ok (tt, m') /\ pt_post lo hi m A pt T m' A pt T [] /\
    (forall vp, 0 <= vp -> mapping (ram m') T vp = if decide (vp = vpn) then None else mapping (ram m) T vp) /\
    (forall vp, 0 <= vp -> slot (ram m') T vp = if decide (vp = vpn) then Some 0 else slot (ram m) T vp).
Proof.
  intros Hrep Hv Hm. pose proof Hrep as [Hmok Hpt _ _ _].
  assert (Hq : exists q, T !! (2, vpn / 512) = Some q).
  { unfold mapping in Hm. destruct (T !! (2, vpn / 512)); [eauto|done]. }
  destruct Hq as [q Hq]. pose proof (Z.mod_pos_bound vpn 512 ltac:(lia)) as Hmod.
  destruct (leaf_entry m pt T Hpt vpn q Hq) as (w & Ew & _ & Hmw). rewrite Hm in Hmw.
  destruct (pt_table _ _ _ Hpt _ _ _ Hq) as (_ & _ & _ & Hs).
  destruct (set_leaf_post lo hi m A pt T m A T [] vpn q pte_empty Hrep (extends_refl _ _ _ _ _ _ Hpt Hmok))
    as [Hpost Hmap]; [lia|done|done|].
  rewrite app_nil_r in Hpost. eexists. split_and!.
  - unfold unmap. rewrite (bind_Ok _ _ _ _ _ (find_pte_ok m pt T Hpt vpn Hv)). rewrite Hq.
    cbn [fmap option_fmap option_map unwrap lift]. rewrite bind_ret.
    rewrite (bind_read m q (vpn mod 512) w) by (done || lia). destruct (is_valid w); [|done]. cbn [assert].
    rewrite bind_ret. by apply write_pte_ok.
  - by destruct pt.
  - intros vp Hvp. rewrite Hmap by done. done.
  - intros vp Hvp. cbn [ram]. rewrite (slot_set_leaf _ (root_ppn pt) T (vpn / 512)) by (done || dlia).
    by replace (vpn / 512 * 512 + vpn mod 512) with vpn by dlia.
Qed.

Lemma unmap_unmapped m pt T vpn : pt_ok (ram m) (root_ppn pt) T -> 0 <= vpn < 2 ^ 27 ->
  mapping (ram m) T vpn = None -> unmap pt vpn m = Fail Panic.
Proof.
  intros Hpt Hv Hm. unfold unmap. rewrite (bind_Ok _ _ _ _ _ (find_pte_ok m pt T Hpt vpn Hv)).
  destruct (T !! (2, vpn / 512)) as [q|] eqn:Hq; [|done]. cbn [fmap option_fmap option_map unwrap lift]. rewrite bind_ret.
  destruct (leaf_entry m pt T Hpt vpn q Hq) as (w & Ew & _ & Hmw). rewrite Hm in Hmw.
  pose proof (Z.mod_pos_bound vpn 512 ltac:(lia)). rewrite (bind_read m q (vpn mod 512) w) by (done || lia).
  by destruct (is_valid w).
Qed.

Lemma pt_new_ok lo hi m A : machine_ok lo hi m A -> Z.of_nat (size A) < hi - lo ->
  exists p m', pt_new m = Ok (mkPageTable p [p], m') /\ (p ∉ A) /\ lo <= p < hi /\
    pt_rep lo hi m' ({[p]} ∪ A) (mkPageTable p [p]) {[(0, 0) := p]} /\
    (forall vpn, mapping (ram m') {[(0, 0) := p]} vpn = None) /\
    (forall q, q <> p -> ram m' !! q = ram m !! q) /\ (forall q, is_Some (ram m !! q) -> is_Some (ram m' !! q)).
Proof.
  intros Hm Hsz. destruct (frame_alloc_unwrap_ok lo hi m A Hm Hsz) as (p & f' & E & Hp & Hr & Hw & Hm').
  exists p, (mkMachine (<[p := zero_page]> (ram m)) f'). split_and!; [|done|lia|lia| | | |].
  - unfold pt_new. by rewrite (bind_Ok _ _ _ _ _ E).
  - assert (Hone : forall x y, ({[(0, 0) := p]} : tables) !! x = Some y -> x = (0, 0) /\ y = p).
    { intros x y. rewrite lookup_singleton. case_decide; [intros [= <-]; done|done]. }
    assert (Htp : forall q, q ∈ table_pages {[(0, 0) := p]} <-> q = p).
    { intros q. rewrite elem_of_table_pages. split; [intros [x [_ ->]%Hone]; done|intros ->].
      exists (0, 0). apply lookup_singleton_eq. }
    split; [done| |intros q ->%Htp; set_solver|apply NoDup_singleton|intros q; rewrite Htp; apply list_elem_of_singleton].
    split; cbn [ram root_ppn]; [by apply zero_page_ok, Hm|apply lookup_singleton_eq| | | |].
    + intros x y q [-> _]%Hone [-> _]%Hone. done.
    + intros l k q [[= -> ->] ->]%Hone. rewrite lookup_insert_eq. split_and!; [lia..|eauto].
    + intros l k Hl [y [[= ? ->] _]%Hone]. lia.
    + intros l k q i [[= -> ->] ->]%Hone _ Hi. exists 0. split; [by apply pte_at_zero|].
      rewrite lookup_singleton_ne by (intros [= ?]). done.
  - intros vpn. unfold mapping. rewrite lookup_singleton_ne; [done|]. intros [= ?].
  - intros q Hq. cbn [ram]. by apply lookup_insert_ne.
  - intros q Hq. cbn [ram]. rewrite lookup_insert. case_decide; [eauto|done].
Qed.

End Machine.
