(* ===== verification/Space.v ===== *)
(** * One address space among others

    An address space owns the frames of its tables and of its data pages; [R] is
    the set of the frames in use that others own.  Its operations keep [R] and
    the contents of its frames. *)

From S2P Require Import Prelude Address Frames PageTable PtInv PtOps.

Section Space.
Context {F : Type} `{FrameAllocatorSpec F}.
Implicit Types (m : Machine F) (R : gset Z) (pt : PageTable) (G D : gmap Z Z) (P : gmap Z (list byte)).

Definition owned pt D : gset Z := list_to_set (frames pt) ∪ map_img D.

(** [G] gives the entry, [D] the data frame and [P] the contents of a page. *)
Record space (lo hi : Z) m R pt G D P : Prop := {
  sp_machine : machine_ok lo hi m (owned pt D ∪ R);
  sp_disj : owned pt D ## R;
  sp_tables : exists T, pt_ok (ram m) (root_ppn pt) T /\ (forall p, p ∈ frames pt <-> p ∈ table_pages T) /\
    (forall v, 0 <= v -> mapping (ram m) T v = G !! v);
  sp_dom v : is_Some (G !! v) -> 0 <= v < 2 ^ 27;
  sp_nodup : NoDup (frames pt);
  sp_inj v w p : D !! v = Some p -> D !! w = Some p -> v = w;
  sp_sep v p : D !! v = Some p -> p ∉ frames pt;
  sp_pages v : (D !! v ≫= fun p => ram m !! p) = P !! v;
}.

Definition used pt D R : Z := Z.of_nat (size (owned pt D ∪ R)).

Definition same_on R m m' : Prop := forall p, p ∈ R -> ram m' !! p = ram m !! p.

Lemma elem_of_owned pt D p : p ∈ owned pt D <-> p ∈ frames pt \/ exists v, D !! v = Some p.
Proof. unfold owned. by rewrite elem_of_union, elem_of_list_to_set, elem_of_map_img. Qed.

Lemma same_on_refl R m : same_on R m m.
Proof. done. Qed.
Lemma same_on_trans R m1 m2 m3 : same_on R m1 m2 -> same_on R m2 m3 -> same_on R m1 m3.
Proof. intros H1 H2 p Hp. by rewrite H2, H1. Qed.
Lemma same_on_sub R R' m m' : R ⊆ R' -> same_on R' m m' -> same_on R m m'.
Proof. intros Hs E p Hp. by apply E, Hs. Qed.

(** The space depends on its own frames only. *)
Lemma space_frame lo hi m m' R R' pt G D P : space lo hi m R pt G D P ->
  same_on (owned pt D) m m' -> machine_ok lo hi m' (owned pt D ∪ R') -> owned pt D ## R' ->
  space lo hi m' R' pt G D P.
Proof.
  intros [Hm Hd (T & HT & Hf & HG) Hdom Hnd Hi Hs HP] Hsame Hm' Hd'.
  assert (Hag : forall p, p ∈ table_pages T -> ram m' !! p = ram m !! p).
  { intros p Hp. apply Hsame, elem_of_owned. left. by apply Hf. }
  split; [done|done| |done|done|done|done|].
  - exists T. split_and!; [|done|].
    + by eapply pt_ok_frame; [exact Hag|apply Hm'|].
    + intros v Hv. by rewrite (mapping_frame (ram m)), HG.
  - intros v. rewrite <- HP. destruct (D !! v) as [p|] eqn:Hv; [|done]. cbn [mbind option_bind].
    apply Hsame, elem_of_owned. eauto.
Qed.

(** Taking a frame that is in use as a data page, and giving one back. *)
Lemma owned_insert pt D v p : D !! v = None -> owned pt (<[v := p]> D) = {[p]} ∪ owned pt D.
Proof.
  intros Hv. apply set_eq. intros q. rewrite elem_of_union, elem_of_singleton, !elem_of_owned. split.
  - intros [?|[w Hw]]; [eauto|]. rewrite lookup_insert in Hw. destruct (decide (v = w)); [left; congruence|eauto].
  - intros [->|[?|[w Hw]]]; [right; exists v; by rewrite lookup_insert_eq|eauto|].
    right. exists w. rewrite lookup_insert_ne; [done|congruence].
Qed.

Lemma space_take lo hi m R pt G D P v p b : space lo hi m ({[p]} ∪ R) pt G D P -> p ∉ R -> D !! v = None ->
  ram m !! p = Some b -> space lo hi m R pt G (<[v := p]> D) (<[v := b]> P).
Proof.
  intros [Hm Hd HT Hdom Hnd Hi Hs HP] Hp Hv Hb.
  assert (Hpo : p ∉ owned pt D) by set_solver.
  rewrite elem_of_owned in Hpo. split; [| |done|done|done| | |].
  - rewrite owned_insert by done. by replace ({[p]} ∪ owned pt D ∪ R) with (owned pt D ∪ ({[p]} ∪ R)) by set_solver.
  - rewrite owned_insert by done. set_solver.
  - intros w w' q. rewrite !lookup_insert. destruct (decide (v = w)), (decide (v = w')); intros; simplify_eq; eauto;
      exfalso; apply Hpo; eauto.
  - intros w q. rewrite lookup_insert. destruct (decide (v = w)); [intros [= <-]; tauto|apply Hs].
  - intros w. rewrite !lookup_insert. destruct (decide (v = w)); [by cbn|apply HP].
Qed.

Lemma space_give lo hi m R pt G D P v p : space lo hi m R pt G D P -> D !! v = Some p ->
  space lo hi m ({[p]} ∪ R) pt G (delete v D) (delete v P) /\ p ∉ R.
Proof.
  intros [Hm Hd HT Hdom Hnd Hi Hs HP] Hv.
  assert (Hpo : p ∉ owned pt (delete v D)).
  { rewrite elem_of_owned. intros [Hp|[w Hw]]; [by apply (Hs v p)|]. apply lookup_delete_Some in Hw as [Hne Hw]. by apply Hne, (Hi v w p). }
  assert (Ho : owned pt D = {[p]} ∪ owned pt (delete v D)).
  { rewrite <- (insert_delete_id D v p Hv) at 1. apply owned_insert, lookup_delete_eq. }
  split; [|set_solver]. split; [| |done|done|done| | |].
  - by replace (owned pt (delete v D) ∪ ({[p]} ∪ R)) with (owned pt D ∪ R) by set_solver.
  - set_solver.
  - intros w w' q [_ Hw]%lookup_delete_Some [_ Hw']%lookup_delete_Some. eauto.
  - intros w q [_ Hw]%lookup_delete_Some. eauto.
  - intros w. rewrite !lookup_delete. case_decide; [done|apply HP].
Qed.

(** ** Frames *)
Lemma space_alloc lo hi m R pt G D P : space lo hi m R pt G D P -> used pt D R < hi - lo ->
  exists p m', frame_alloc_unwrap m = Ok (p, m') /\ (p ∉ owned pt D ∪ R) /\ lo <= p < hi /\ 0 <= p < 2 ^ 44 /\
    space lo hi m' ({[p]} ∪ R) pt G D P /\ ram m' !! p = Some zero_page /\ same_on R m m'.
Proof.
  intros Hsp Hu. destruct (frame_alloc_unwrap_ok lo hi m _ (sp_machine _ _ _ _ _ _ _ _ Hsp) Hu) as (p & f' & E & Hp & Hr & Hw & Hm).
  eexists p, _. split_and!; [exact E|done|lia..| |by apply lookup_insert_eq|].
  - eapply space_frame; [exact Hsp| | |].
    + intros q Hq. cbn [ram]. apply lookup_insert_ne. set_solver.
    + by replace (owned pt D ∪ ({[p]} ∪ R)) with ({[p]} ∪ (owned pt D ∪ R)) by set_solver.
    + pose proof (sp_disj _ _ _ _ _ _ _ _ Hsp). set_solver.
  - intros q Hq. cbn [ram]. apply lookup_insert_ne. set_solver.
Qed.

Lemma space_dealloc lo hi m R pt G D P p : space lo hi m ({[p]} ∪ R) pt G D P -> p ∉ R ->
  exists m', frame_dealloc p m = Ok (tt, m') /\ space lo hi m' R pt G D P /\ ram m' = ram m.
Proof.
  intros Hsp Hp. pose proof (sp_disj _ _ _ _ _ _ _ _ Hsp) as Hd.
  destruct (frame_dealloc_ok lo hi m _ p (sp_machine _ _ _ _ _ _ _ _ Hsp)) as (f' & E & Hm); [set_solver|].
  eexists. split_and!; [exact E| |done]. eapply space_frame; [exact Hsp|done| |set_solver].
  by replace (owned pt D ∪ R) with ((owned pt D ∪ ({[p]} ∪ R)) ∖ {[p]}) by set_solver.
Qed.

(** ** Entries *)
Lemma space_rep lo hi m R pt G D P : space lo hi m R pt G D P ->
  exists T, pt_rep lo hi m (owned pt D ∪ R) pt T /\ forall v, 0 <= v -> mapping (ram m) T v = G !! v.
Proof.
  intros [Hm Hd (T & HT & Hf & HG) Hdom Hnd Hi Hs HP]. exists T. split; [|done]. split; try done.
  intros p Hp. apply elem_of_union_l, elem_of_owned. left. by apply Hf.
Qed.

Lemma used_sub pt D R pt' D' R' : owned pt D ∪ R ⊆ owned pt' D' ∪ R' -> used pt D R <= used pt' D' R'.
Proof. intros Hs. unfold used. apply inj_le. by apply subseteq_size. Qed.

(** A page-table operation on [pt] keeps the data pages. *)
Lemma space_post lo hi m R pt G D P T m' pt' T' new A' G' :
  space lo hi m R pt G D P -> pt_post lo hi m (owned pt D ∪ R) pt T m' A' pt' T' new ->
  (forall p, p ∈ frames pt <-> p ∈ table_pages T) ->
  (forall v, 0 <= v -> mapping (ram m') T' v = G' !! v) -> (forall v, is_Some (G' !! v) -> 0 <= v < 2 ^ 27) ->
  space lo hi m' R pt' G' D P /\ same_on R m m' /\ root_ppn pt' = root_ppn pt /\ used pt' D R = used pt D R + zlen new.
Proof.
  intros [Hm Hd HT Hdom Hnd Hi Hs HP] [[Hm' Hpt' Hu' Hnd' Hf'] Hroot HA Hpg [Hnn Hfresh] Hfr Hdm _] Hf HG' Hdom'.
  assert (Ho : owned pt' D = list_to_set new ∪ owned pt D).
  { apply set_eq. intros p. rewrite elem_of_union, elem_of_list_to_set, !elem_of_owned, Hf', Hpg, elem_of_union, elem_of_list_to_set, Hf. tauto. }
  assert (HA' : A' = owned pt' D ∪ R) by (rewrite Ho, HA; set_solver).
  assert (Hout : forall p, p ∈ R \/ (exists v, D !! v = Some p) -> p ∉ table_pages T').
  { intros p Hp. rewrite Hpg, elem_of_union, elem_of_list_to_set, <- Hf. intros [Hin|Hin].
    - destruct (Hfresh p Hin) as [Hn _]. apply Hn. rewrite elem_of_union, elem_of_owned. tauto.
    - destruct Hp as [Hp|[v Hv]]; [|by apply (Hs v p)]. apply (Hd p); [|done]. apply elem_of_owned. by left. }
  split_and!; [split| |done|].
  - by rewrite <- HA'.
  - rewrite Ho. intros p [Hp|Hp]%elem_of_union Hr; [|by apply (Hd p)]. apply elem_of_list_to_set, Hfresh in Hp as [Hn _]. apply Hn. by apply elem_of_union_r.
  - exists T'. split_and!; [exact Hpt'|exact Hf'|exact HG'].

  - done.
  - done.
  - done.
  - intros v p Hv Hp. apply (Hout p); [eauto|]. by apply Hf'.
  - intros v. rewrite <- HP. destruct (D !! v) as [p|] eqn:Hv; [|done]. cbn [mbind option_bind]. apply Hfr, Hout. eauto.
  - intros p Hp. apply Hfr, Hout. by left.
  - unfold used. rewrite <- HA', HA, size_union; [|intros p Hp%elem_of_list_to_set; by apply Hfresh].
    rewrite size_list_to_set by done. unfold zlen. lia.
Qed.

Lemma missing_le T vpn : 0 <= missing T vpn <= 2.
Proof. unfold missing, absent. destruct (T !! (1, key vpn 1)), (T !! (2, key vpn 2)); lia. Qed.

(** [G] has an entry in the same leaf table. *)
Definition near G (vpn : Z) : Prop := exists w, is_Some (G !! w) /\ w / 512 = vpn / 512.

Lemma near_missing lo hi m R pt G D P T vpn : space lo hi m R pt G D P -> pt_ok (ram m) (root_ppn pt) T -> (forall v, 0 <= v -> mapping (ram m) T v = G !! v) ->
  0 <= vpn -> near G vpn -> missing T vpn = 0.
Proof.
  intros Hsp Hpt HT Hv (w & Hw & E). pose proof (sp_dom _ _ _ _ _ _ _ _ Hsp w Hw) as Hwr. rewrite <- HT in Hw by lia.
  assert (H2 : is_Some (T !! (2, vpn / 512))). { unfold mapping in Hw. rewrite E in Hw. destruct (T !! (2, vpn / 512)); [eauto|by destruct Hw]. }
  pose proof (pt_parent _ _ _ Hpt 1 (vpn / 512) ltac:(lia) H2) as [q Hq]. destruct H2 as [q2 H2].
  unfold missing, absent. rewrite key_2, H2. rewrite key_1 in Hq by lia. by rewrite Hq.
Qed.

(** A new entry; a leaf table that is there already costs nothing. *)
Lemma space_map_cost lo hi m R pt G D P vpn ppn flags c : space lo hi m R pt G D P ->
  0 <= vpn < 2 ^ 27 -> 0 <= ppn < 2 ^ 44 -> 0 <= flags < 2 ^ 8 -> G !! vpn = None -> (near G vpn /\ c = 0) \/ c = 2 -> used pt D R + c <= hi - lo ->
  exists pt' m', map pt vpn ppn flags m = Ok (pt', m') /\
    space lo hi m' R pt' (<[vpn := pte_new ppn (Z.lor flags PTE_V)]> G) D P /\ same_on R m m' /\
    root_ppn pt' = root_ppn pt /\ used pt' D R <= used pt D R + c.
Proof.
  intros Hsp Hv Hp Hf HG Hc Hroom. destruct (space_rep _ _ _ _ _ _ _ _ Hsp) as (T & Hrep & HT).
  assert (Hmc : missing T vpn <= c).
  { destruct Hc as [[Hn ->]| ->]; [|pose proof (missing_le T vpn); lia]. erewrite near_missing; [done|exact Hsp|apply Hrep|done|lia|done]. }
  destruct (map_ok lo hi m _ pt T vpn ppn flags Hrep Hv Hp Hf) as (pt' & m' & A' & T' & new & E & Hpost & Hlen & Hmap & _);
    [by rewrite HT by lia|unfold used in Hroom; lia|].
  exists pt', m'. split; [done|].
  destruct (space_post lo hi m R pt G D P T m' pt' T' new A' (<[vpn := pte_new ppn (Z.lor flags PTE_V)]> G) Hsp Hpost) as (S1 & S2 & S3 & S4).
  - apply Hrep.
  - intros v Hv'. rewrite Hmap by done. rewrite lookup_insert. destruct (decide (v = vpn)), (decide (vpn = v)); try congruence. by apply HT.
  - intros v. rewrite lookup_insert. destruct (decide (vpn = v)) as [<-|]; [done|]. apply Hsp.
  - split_and!; [done..|lia].
Qed.

Lemma space_map lo hi m R pt G D P vpn ppn flags : space lo hi m R pt G D P ->
  0 <= vpn < 2 ^ 27 -> 0 <= ppn < 2 ^ 44 -> 0 <= flags < 2 ^ 8 -> G !! vpn = None -> used pt D R + 2 <= hi - lo ->
  exists pt' m', map pt vpn ppn flags m = Ok (pt', m') /\
    space lo hi m' R pt' (<[vpn := pte_new ppn (Z.lor flags PTE_V)]> G) D P /\ same_on R m m' /\
    root_ppn pt' = root_ppn pt /\ used pt' D R <= used pt D R + 2.
Proof. intros. apply space_map_cost; try done. by right. Qed.

Lemma space_unmap lo hi m R pt G D P vpn : space lo hi m R pt G D P -> 0 <= vpn < 2 ^ 27 -> is_Some (G !! vpn) ->
  exists m', unmap pt vpn m = Ok (tt, m') /\ space lo hi m' R pt (delete vpn G) D P /\ same_on R m m'.
Proof.
  intros Hsp Hv [v HG]. destruct (space_rep _ _ _ _ _ _ _ _ Hsp) as (T & Hrep & HT).
  destruct (unmap_ok lo hi m _ pt T vpn v Hrep Hv) as (m' & E & Hpost & Hmap & _); [by rewrite HT by lia|].
  exists m'. split; [done|].
  destruct (space_post lo hi m R pt G D P T m' pt T [] _ (delete vpn G) Hsp Hpost) as (S1 & S2 & _).
  - apply Hrep.
  - intros w Hw. rewrite Hmap by done. rewrite lookup_delete. destruct (decide (w = vpn)), (decide (vpn = w)); try congruence. by apply HT.
  - intros w. rewrite lookup_delete. destruct (decide (vpn = w)) as [<-|]; [by intros [??]|apply Hsp].
  - done.
Qed.

Lemma space_translate lo hi m R pt G D P vpn v : space lo hi m R pt G D P -> G !! vpn = Some v ->
  translate pt vpn m = Ok (Some v, m).
Proof.
  intros Hsp HG. assert (Hv : 0 <= vpn < 2 ^ 27) by (apply (sp_dom _ _ _ _ _ _ _ _ Hsp); eauto).
  destruct (space_rep _ _ _ _ _ _ _ _ Hsp) as (T & Hrep & HT).
  apply (translate_mapped m pt T); [apply Hrep|done|]. by rewrite HT by lia.
Qed.

(** ** Contents *)
Lemma space_page lo hi m R pt G D P v p : space lo hi m R pt G D P -> D !! v = Some p ->
  exists b, P !! v = Some b /\ ram m !! p = Some b /\ length b = page_len.
Proof.
  intros Hsp Hv. pose proof (sp_machine _ _ _ _ _ _ _ _ Hsp) as [Ha Hr Hok].
  destruct (fa_range _ _ _ _ Ha) as (_ & _ & Hin). destruct (Hr p) as [b Hb].
  { apply Hin, elem_of_union_l, elem_of_owned. eauto. }
  exists b. split_and!; [|done|by eapply Hok]. rewrite <- (sp_pages _ _ _ _ _ _ _ _ Hsp), Hv. done.
Qed.

Lemma space_write lo hi m R pt G D P v p b : space lo hi m R pt G D P -> D !! v = Some p -> length b = page_len ->
  exists m', write_page p b m = Ok (tt, m') /\ space lo hi m' R pt G D (<[v := b]> P) /\ same_on R m m' /\
    (forall q, q <> p -> ram m' !! q = ram m !! q).
Proof.
  intros Hsp Hv Hb. destruct (space_page _ _ _ _ _ _ _ _ _ _ Hsp Hv) as (c & HPv & Hc & _).
  assert (Hpo : p ∈ owned pt D) by (apply elem_of_owned; eauto).
  destruct Hsp as [Hm Hd (T & HT & Hf & HG) Hdom Hnd Hi Hs HP].
  assert (Hoth : forall q, q <> p -> <[p := b]> (ram m) !! q = ram m !! q) by (intros q Hq; apply lookup_insert_ne; done).
  exists (mkMachine (<[p := b]> (ram m)) (allocator m)). split_and!; [by unfold write_page; rewrite Hc| | |done].
  - assert (Hm' : machine_ok lo hi (mkMachine (<[p := b]> (ram m)) (allocator m)) (owned pt D ∪ R)).
    { apply machine_set; [done| |].
      - intros q e. rewrite lookup_insert. destruct (decide (p = q)); [by intros [= <-]|apply Hm].
      - intros q Hq. rewrite lookup_insert. destruct (decide (p = q)); [eauto|done]. }
    assert (Hag : forall q, q ∈ table_pages T -> <[p := b]> (ram m) !! q = ram m !! q).
    { intros q Hq. apply Hoth. intros ->. apply (Hs v p Hv), Hf, Hq. }
    split; [done|done| |done|done|done|done|].
    + exists T. split_and!; [|done|].
      * by eapply pt_ok_frame; [exact Hag|apply Hm'|].
      * intros w Hw. cbn [ram]. by rewrite (mapping_frame (ram m)), HG.
    + intros w. cbn [ram]. rewrite lookup_insert. destruct (decide (v = w)) as [<-|Hne].
      * rewrite Hv. cbn [mbind option_bind]. apply lookup_insert_eq.
      * rewrite <- HP. destruct (D !! w) as [q|] eqn:Hw; [|done]. cbn [mbind option_bind]. apply Hoth.
        intros ->. by apply Hne, (Hi v w p).
  - intros q Hq. cbn [ram]. apply Hoth. intros ->. by apply (Hd p).
Qed.

Lemma space_new lo hi m R : machine_ok lo hi m R -> Z.of_nat (size R) < hi - lo ->
  exists p m', pt_new m = Ok (mkPageTable p [p], m') /\ space lo hi m' R (mkPageTable p [p]) ∅ ∅ ∅ /\ same_on R m m' /\
    used (mkPageTable p [p]) ∅ R = Z.of_nat (size R) + 1.
Proof.
  intros Hm Hsz. destruct (pt_new_ok lo hi m R Hm Hsz) as (p & m' & E & Hp & Hr & Hrep & Hmap & Hfr & _).
  assert (Ho : owned (mkPageTable p [p]) ∅ = {[p]}) by (apply set_eq; intros q; rewrite elem_of_owned, elem_of_singleton; cbn [frames]; rewrite list_elem_of_singleton; split; [intros [?|[? []%lookup_empty_Some]]; done|by left]).
  exists p, m'. split_and!; [done|split| |].
  - rewrite Ho. apply Hrep.
  - rewrite Ho. set_solver.
  - eexists. split_and!; [apply Hrep|apply Hrep|]. intros v _. by rewrite Hmap, lookup_empty.
  - intros v. rewrite lookup_empty. by intros [??].
  - apply NoDup_singleton.
  - by intros v w q ?%lookup_empty_Some.
  - by intros v q ?%lookup_empty_Some.
  - intros v. by rewrite !lookup_empty.
  - intros q Hq. apply Hfr. by intros ->.
  - unfold used. rewrite Ho, size_union by set_solver. rewrite size_singleton. lia.
Qed.

End Space.
