(* ===== verification/PtRefine.v ===== *)
(** * Page tables against a finite map

    The abstract page table is a map from page numbers to entries, and the set of
    the groups of 512 pages that have a table of the last level.  [do_ops] runs a
    sequence of calls of the [PageTable] interface, [spec_ops] the same calls on
    the abstract table; mapping a mapped page and unmapping an unmapped one panic.
    [translate] answers with the entry of a page whether it is valid or not: for a
    page that is not mapped but has a table, that is the entry 0. *)

From S2P Require Import Prelude Address Frames PageTable PtInv PtOps Space.

Inductive pt_op :=
| OpMap (vpn ppn flags : Z)
| OpUnmap (vpn : Z)
| OpTranslate (vpn : Z).

Definition op_ok (o : pt_op) : Prop :=
  match o with
  | OpMap vpn ppn flags => 0 <= vpn < 2 ^ 27 /\ 0 <= ppn < 2 ^ 44 /\ 0 <= flags < 2 ^ 8
  | OpUnmap vpn | OpTranslate vpn => 0 <= vpn < 2 ^ 27
  end.

Abbreviation abstract := (gmap Z Z * gset Z)%type.

Definition spec_translate (vpn : Z) (S : abstract) : option Z :=
  match S.1 !! vpn with
  | Some pte => Some pte
  | None => if decide (vpn / 512 ∈ S.2) then Some 0 else None
  end.

Definition spec_op (o : pt_op) (S : abstract) : option (option Z * abstract) :=
  match o with
  | OpMap vpn ppn flags =>
      match S.1 !! vpn with
      | None => Some (None, (<[vpn := pte_new ppn (Z.lor flags PTE_V)]> S.1, {[vpn / 512]} ∪ S.2))
      | Some _ => None
      end
  | OpUnmap vpn => match S.1 !! vpn with Some _ => Some (None, (delete vpn S.1, S.2)) | None => None end
  | OpTranslate vpn => Some (spec_translate vpn S, S)
  end.

Fixpoint spec_ops (os : list pt_op) (S : abstract) : option (list (option Z) * abstract) :=
  match os with
  | [] => Some ([], S)
  | o :: os => '(r, S) ← spec_op o S; '(rs, S) ← spec_ops os S; Some (r :: rs, S)
  end.

(** What a caller of [translate] that checks [is_valid] sees. *)
Definition valid_entry (r : option Z) : option Z := v ← r; if is_valid v then Some v else None.

Section Refine.
Context {F : Type} `{FrameAllocator F}.

Definition do_op (pt : PageTable) (o : pt_op) : cmd (Machine F) (option Z * PageTable) :=
  match o with
  | OpMap vpn ppn flags => let* pt := map pt vpn ppn flags in ret (None, pt)
  | OpUnmap vpn => unmap pt vpn;; ret (None, pt)
  | OpTranslate vpn => let* r := translate pt vpn in ret (r, pt)
  end.

Fixpoint do_ops (pt : PageTable) (os : list pt_op) : cmd (Machine F) (list (option Z) * PageTable) :=
  match os with
  | [] => ret ([], pt)
  | o :: os => let* (r, pt) := do_op pt o in let* (rs, pt) := do_ops pt os in ret (r :: rs, pt)
  end.

Context `{!FrameAllocatorSpec F}.

Lemma space_size lo hi (m : Machine F) R pt G D P : space lo hi m R pt G D P -> used pt D R <= hi - lo.
Proof.
  intros Hsp. destruct (fa_range _ _ _ _ (mok_alloc _ _ _ _ (sp_machine _ _ _ _ _ _ _ _ Hsp))) as (Hlo & _ & Hin).
  assert (Hs : owned pt D ∪ R ⊆ list_to_set (seqZ lo (hi - lo))) by (intros p Hp; apply elem_of_list_to_set, elem_of_seqZ; apply Hin in Hp; lia).
  apply subseteq_size in Hs. rewrite size_list_to_set in Hs by apply NoDup_seqZ. rewrite length_seqZ in Hs. unfold used. lia.
Qed.

Lemma translate_valid lo hi (m : Machine F) R pt G D P vpn : space lo hi m R pt G D P -> 0 <= vpn < 2 ^ 27 ->
  exists r, translate pt vpn m = Ok (r, m) /\ valid_entry r = G !! vpn.
Proof.
  intros Hsp Hv. destruct (space_rep _ _ _ _ _ _ _ _ Hsp) as (T & Hrep & HT). eexists.
  split; [apply (translate_ok m pt T); [apply Hrep|done]|]. rewrite <- HT by lia. unfold valid_entry, mapping, slot.
  by destruct (T !! (2, vpn / 512)).
Qed.

(** The table answers as the abstract one. *)
Definition answers (m : Machine F) (pt : PageTable) (S : abstract) : Prop :=
  forall vpn, 0 <= vpn < 2 ^ 27 -> translate pt vpn m = Ok (spec_translate vpn S, m).

Lemma answers_slot (m : Machine F) pt T S vpn : pt_ok (ram m) (root_ppn pt) T -> answers m pt S -> 0 <= vpn < 2 ^ 27 -> slot (ram m) T vpn = spec_translate vpn S.
Proof. intros Hpt Ha Hv. specialize (Ha vpn Hv). rewrite (translate_ok m pt T Hpt vpn Hv) in Ha. congruence. Qed.

(** The groups that have a table. *)
Lemma answers_table (m : Machine F) pt T S vpn : pt_ok (ram m) (root_ppn pt) T -> answers m pt S -> 0 <= vpn < 2 ^ 27 -> S.1 !! vpn = None ->
  T !! (2, vpn / 512) = None <-> vpn / 512 ∉ S.2.
Proof.
  intros Hpt Ha Hv Hn. pose proof (answers_slot m pt T S vpn Hpt Ha Hv) as E. unfold spec_translate in E. rewrite Hn in E. unfold slot in E.
  destruct (T !! (2, vpn / 512)) as [q|] eqn:Hq; cbn in E.
  - destruct (leaf_entry m pt T Hpt vpn q Hq) as (w & Ew & _). rewrite Ew in E. case_decide; [|done]. split; [done|tauto].
  - case_decide; [done|tauto].
Qed.

Lemma map_answers lo hi (m : Machine F) A pt T S vpn ppn flags pt' m' : pt_rep lo hi m A pt T -> answers m pt S -> 0 <= vpn < 2 ^ 27 -> 0 <= ppn < 2 ^ 44 -> 0 <= flags < 2 ^ 8 ->
  S.1 !! vpn = None -> mapping (ram m) T vpn = None -> Z.of_nat (size A) + 2 <= hi - lo -> map pt vpn ppn flags m = Ok (pt', m') ->
  answers m' pt' (<[vpn := pte_new ppn (Z.lor flags PTE_V)]> S.1, {[vpn / 512]} ∪ S.2).
Proof.
  intros Hrep Ha Hv Hp Hf Hn HG Hroom E. pose proof (missing_le T vpn). pose proof (rep_pt _ _ _ _ _ _ Hrep) as Hpt.
  destruct (map_ok lo hi m A pt T vpn ppn flags Hrep Hv Hp Hf HG ltac:(lia)) as (pt1 & m1 & A' & T' & new & E' & Hpost & _ & _ & Hsl).
  rewrite E in E'. injection E' as <- <-. pose proof (answers_table m pt T S vpn Hpt Ha Hv Hn) as Htab.
  intros w Hw. rewrite (translate_ok m' pt' T' (rep_pt _ _ _ _ _ _ (pp_rep _ _ _ _ _ _ _ _ _ _ _ Hpost)) w Hw), Hsl by lia. f_equal. f_equal.
  rewrite (answers_slot m pt T S w Hpt Ha Hw). unfold spec_translate. cbn [fst snd]. rewrite lookup_insert.
  destruct (decide (w = vpn)) as [->|Hne]; [by rewrite decide_True|]. rewrite (decide_False (P := vpn = w)) by congruence.
  destruct (decide (w / 512 = vpn / 512)) as [Ek|Hk].
  - rewrite Ek. rewrite (decide_True (P := vpn / 512 ∈ {[vpn / 512]} ∪ S.2)) by set_solver. destruct (decide (T !! (2, vpn / 512) = None)) as [Ht|Ht].
    + rewrite decide_True by done. apply Htab in Ht. pose proof (answers_slot m pt T S w Hpt Ha Hw) as Es. unfold slot in Es. rewrite Ek, (proj2 Htab Ht) in Es. cbn in Es.
      unfold spec_translate in Es. by destruct (S.1 !! w).
    + rewrite decide_False by tauto. destruct (S.1 !! w); [done|]. rewrite decide_True; [done|]. destruct (decide (vpn / 512 ∈ S.2)); [done|]. by destruct Ht; apply Htab.
  - rewrite decide_False by tauto. destruct (S.1 !! w); [done|]. destruct (decide (w / 512 ∈ S.2)); [rewrite decide_True by set_solver; done|rewrite decide_False by set_solver; done].
Qed.

Lemma unmap_answers lo hi (m : Machine F) A pt T S vpn v m' : pt_rep lo hi m A pt T -> answers m pt S -> 0 <= vpn < 2 ^ 27 -> mapping (ram m) T vpn = Some v -> (forall w, is_Some (S.1 !! w) -> w / 512 ∈ S.2) ->
  S.1 !! vpn = Some v -> unmap pt vpn m = Ok (tt, m') -> answers m' pt (delete vpn S.1, S.2).
Proof.
  intros Hrep Ha Hv HG Hin Hs E. pose proof (rep_pt _ _ _ _ _ _ Hrep) as Hpt. destruct (unmap_ok lo hi m A pt T vpn v Hrep Hv HG) as (m1 & E' & Hpost & _ & Hsl). rewrite E in E'. injection E' as <-.
  intros w Hw. rewrite (translate_ok m' pt T (rep_pt _ _ _ _ _ _ (pp_rep _ _ _ _ _ _ _ _ _ _ _ Hpost)) w Hw), Hsl by lia. f_equal. f_equal.
  rewrite (answers_slot m pt T S w Hpt Ha Hw). unfold spec_translate. cbn [fst snd]. rewrite lookup_delete.
  destruct (decide (w = vpn)) as [->|Hne]; [rewrite decide_True by done; rewrite decide_True; [done|eauto]|]. by rewrite (decide_False (P := vpn = w)) by congruence.
Qed.

(** ** The refinement relation *)

(** The table represents the abstract one. *)
Definition refines lo hi (m : Machine F) R pt (S : abstract) D P : Prop :=
  space lo hi m R pt S.1 D P /\ answers m pt S /\ forall w, is_Some (S.1 !! w) -> w / 512 ∈ S.2.

(** A new table is empty. *)
Lemma refines_new lo hi (m : Machine F) R : machine_ok lo hi m R -> Z.of_nat (size R) < hi - lo ->
  exists p m', pt_new m = Ok (mkPageTable p [p], m') /\ refines lo hi m' R (mkPageTable p [p]) (∅, ∅) ∅ ∅ /\ used (mkPageTable p [p]) ∅ R = Z.of_nat (size R) + 1.
Proof.
  intros Hm Hsz. destruct (space_new lo hi m R Hm Hsz) as (p & m' & E & Hsp & _ & Hu). destruct (pt_new_ok lo hi m R Hm Hsz) as (p1 & m1 & E' & _ & _ & Hrep & _). assert (p1 = p /\ m1 = m') as [-> ->] by (split; congruence).
  exists p, m'. split_and!; [done| |done]. split_and!; [done| |intros w [x Hx]; cbn in Hx; by rewrite lookup_empty in Hx].
  intros w Hw. rewrite (translate_ok m' _ _ (rep_pt _ _ _ _ _ _ Hrep) w Hw). unfold slot, spec_translate. cbn [fst snd]. rewrite lookup_empty, lookup_singleton_ne by (intros [= ?]). done.
Qed.

Lemma pt_op_ok lo hi (m : Machine F) R pt S D P o : refines lo hi m R pt S D P -> op_ok o -> used pt D R + 2 <= hi - lo ->
  match spec_op o S with
  | Some (r, S') => exists pt' m', do_op pt o m = Ok ((r, pt'), m') /\ refines lo hi m' R pt' S' D P /\ same_on R m m' /\
      used pt' D R <= used pt D R + 2
  | None => do_op pt o m = Fail Panic
  end.
Proof.
  intros (Hsp & Ha & Hin) Hok Hroom. destruct (space_rep _ _ _ _ _ _ _ _ Hsp) as (T & Hrep & HT). pose proof (space_size _ _ _ _ _ _ _ _ Hsp) as Hsz.
  destruct o as [vpn ppn flags|vpn|vpn]; cbn [spec_op do_op op_ok] in *.
  - destruct Hok as (Hv & Hp & Hf). destruct (S.1 !! vpn) as [v|] eqn:HG.
    + unfold bind. rewrite (map_mapped lo hi m _ pt T vpn ppn flags v Hrep Hv); [done|by rewrite HT by lia|exact Hsz].
    + destruct (space_map _ _ _ _ _ _ _ _ vpn ppn flags Hsp Hv Hp Hf HG Hroom) as (pt' & m' & E & Hsp' & Hs & _ & Hu).
      exists pt', m'. split_and!; [by rewrite (bind_Ok _ _ _ _ _ E)| |done|done]. split_and!; [done| |].
      * eapply (map_answers lo hi m _ pt T S vpn ppn flags); try done. by rewrite HT by lia.
      * cbn [fst snd]. intros w. rewrite lookup_insert. case_decide as Ew; [subst w; set_solver|]. intros Hw%Hin. set_solver.
  - destruct (S.1 !! vpn) as [v|] eqn:HG.
    + destruct (space_unmap _ _ _ _ _ _ _ _ vpn Hsp Hok) as (m' & E & Hsp' & Hs); [eauto|].
      exists pt, m'. split_and!; [by rewrite (bind_Ok _ _ _ _ _ E)| |done|lia]. split_and!; [done| |].
      * eapply (unmap_answers lo hi m _ pt T S vpn v); try done. by rewrite HT by lia.
      * cbn [fst snd]. intros w. rewrite lookup_delete. case_decide; [by intros [??]|apply Hin].
    + unfold bind. rewrite (unmap_unmapped m pt T vpn); [done|apply Hrep|done|by rewrite HT by lia].
  - exists pt, m. split_and!; [by rewrite (bind_Ok _ _ _ _ _ (Ha vpn Hok))|done|done|lia].
Qed.

Lemma pt_ops_ok lo hi os : forall (m : Machine F) R pt S D P, refines lo hi m R pt S D P -> Forall op_ok os ->
  used pt D R + 2 * zlen os <= hi - lo ->
  match spec_ops os S with
  | Some (rs, S') => exists pt' m', do_ops pt os m = Ok ((rs, pt'), m') /\ refines lo hi m' R pt' S' D P /\ same_on R m m'
  | None => do_ops pt os m = Fail Panic
  end.
Proof.
  induction os as [|o os IH]; intros m R pt S D P Hsp Hok Hroom; [by exists pt, m|].
  apply Forall_cons in Hok as [Ho Hok]. assert (Hz : zlen (o :: os) = zlen os + 1) by (unfold zlen; cbn [length]; lia).
  pose proof (zlen_nonneg os). rewrite Hz in Hroom. pose proof (pt_op_ok _ _ _ _ _ _ _ _ o Hsp Ho ltac:(lia)) as Hstep.
  cbn [spec_ops do_ops]. destruct (spec_op o S) as [[r S1]|]; cbn [mbind option_bind].
  - destruct Hstep as (pt1 & m1 & E1 & Hsp1 & Hs1 & Hu1). rewrite (bind_Ok _ _ _ _ _ E1).
    pose proof (IH m1 R pt1 S1 D P Hsp1 Hok ltac:(lia)) as Hrest. destruct (spec_ops os S1) as [[rs S2]|]; cbn [mbind option_bind].
    + destruct Hrest as (pt2 & m2 & E2 & Hsp2 & Hs2). exists pt2, m2.
      split_and!; [by rewrite (bind_Ok _ _ _ _ _ E2)|done|by eapply same_on_trans].
    + unfold bind. by rewrite Hrest.
  - unfold bind. by rewrite Hstep.
Qed.

End Refine.
