(* ===== verification/MemorySet.v ===== *)
(** * Address spaces (os/src/mm/memory_set.rs): definitions

    A [FrameTracker] is its frame; where the source drops one, the frame is
    deallocated.  The linker symbols and the parsed ELF file are arguments. *)

From stdpp Require Import sorting.
From S2P Require Import Prelude Address Frames PageTable.

Inductive MapType := Identical | Framed.
#[global] Instance map_type_eq_dec : EqDecision MapType.
Proof. solve_decision. Defined.

(** [MapPermission] *)
Definition MP_R : Z := Z.shiftl 1 1.
Definition MP_W : Z := Z.shiftl 1 2.
Definition MP_X : Z := Z.shiftl 1 3.
Definition MP_U : Z := Z.shiftl 1 4.

Record MapArea := mkArea {
  vpn_range : VPNRange;
  data_frames : gmap Z Z;
  map_type : MapType;
  map_perm : Z;
}.

Definition set_frames (self : MapArea) (d : gmap Z Z) : MapArea :=
  mkArea (vpn_range self) d (map_type self) (map_perm self).

Record MemorySet := mkMemorySet {
  page_table : PageTable;
  areas : list MapArea;
}.

(** [MapArea::new] and [MapArea::from_another]. *)
Definition area_new (start_va end_va : VirtAddr) (map_type : MapType) (map_perm : Z) : result MapArea :=
  let start_vpn := floor start_va in
  let end_vpn := ceil end_va in
  match range_new start_vpn end_vpn with
  | Ok r => Ok (mkArea r ∅ map_type map_perm)
  | Fail f => Fail f
  end.

Definition from_another (another : MapArea) : result MapArea :=
  match range_new (get_start (vpn_range another)) (get_end (vpn_range another)) with
  | Ok r => Ok (mkArea r ∅ (map_type another) (map_perm another))
  | Fail f => Fail f
  end.

(** What [from_elf] reads of an ELF file through [xmas_elf]. *)
Record ProgramHeader := mkHeader {
  ph_type : option bool;            (* [get_type()]: an error, [Load], or another type *)
  virtual_addr : Z;
  mem_size : Z;
  ph_offset : Z;
  file_size : Z;
  is_read : bool;
  is_write : bool;
  is_execute : bool;
}.

Record ElfFile := mkElf {
  magic : list Z;
  program_headers : list (option ProgramHeader);   (* [program_header(i)], [None] an error *)
  entry_point : Z;
}.

(** The symbols of the linker script. *)
Record KernelLayout := mkLayout {
  stext : Z; etext : Z; srodata : Z; erodata : Z; sdata : Z; edata : Z;
  sbss_with_stack : Z; ebss : Z; ekernel : Z; strampoline : Z;
}.

(** The order of the entries of a [BTreeMap]. *)
Definition key_le (x y : Z * Z) : Prop := x.1 <= y.1.
#[global] Instance key_le_dec x y : Decision (key_le x y).
Proof. unfold key_le. apply _. Defined.

Section Ops.
Context {F : Type} `{FrameAllocator F}.
Abbreviation M := (cmd (Machine F)).

(** The frame a map operation displaced, if any, is dropped. *)
Definition drop_frame (o : option PhysPageNum) : M unit :=
  match o with Some ppn => frame_dealloc ppn | None => ret tt end.

Definition map_one (self : MapArea) (page_table : PageTable) (vpn : VirtPageNum) : M (MapArea * PageTable) :=
  let* (ppn, self) :=
    match map_type self with
    | Identical => ret (vpn, self)
    | Framed =>
        let* frame := frame_alloc_unwrap in
        drop_frame (data_frames self !! vpn);;
        ret (frame, set_frames self (<[vpn := frame]> (data_frames self)))
    end in
  let pte_flags := map_perm self in
  let* page_table := map page_table vpn ppn pte_flags in
  ret (self, page_table).

Definition unmap_one (self : MapArea) (page_table : PageTable) (vpn : VirtPageNum) : M MapArea :=
  let* self :=
    if decide (map_type self = Framed) then
      drop_frame (data_frames self !! vpn);;
      ret (set_frames self (delete vpn (data_frames self)))
    else ret self in
  unmap page_table vpn;;
  ret self.

Definition area_map (self : MapArea) (page_table : PageTable) : M (MapArea * PageTable) :=
  for_each (vpns (vpn_range self)) (fun vpn '(self, page_table) => map_one self page_table vpn) (self, page_table).

Definition area_unmap (self : MapArea) (page_table : PageTable) : M MapArea :=
  for_each (vpns (vpn_range self)) (fun vpn self => unmap_one self page_table vpn) self.

(** [page_table.translate(vpn).unwrap().ppn()] *)
Definition translate_ppn (page_table : PageTable) (vpn : VirtPageNum) : M PhysPageNum :=
  let* r := translate page_table vpn in
  let* pte := lift (unwrap r) in
  ret (pte_ppn pte).

(** The loop of [copy_data]. *)
Fixpoint copy_loop (fuel : nat) (page_table : PageTable) (data : list byte) (start : Z) (current_vpn : VirtPageNum)
    : M unit :=
  match fuel with
  | O => fail OutOfFuel
  | S fuel =>
      let len := zlen data in
      let* src := lift (slice data start (Z.min len (w64 (start + PAGE_SIZE)))) in
      let* ppn := translate_ppn page_table current_vpn in
      let* page := read_page ppn in
      let* page := lift (copy_from_slice page 0 (zlen src) src) in
      write_page ppn page;;
      let start := w64 (start + PAGE_SIZE) in
      if len <=? start then ret tt else copy_loop fuel page_table data start (step current_vpn)
  end.

Definition copy_data (self : MapArea) (page_table : PageTable) (data : list byte) : M unit :=
  assert (bool_decide (map_type self = Framed));;
  copy_loop (S (length data)) page_table data 0 (get_start (vpn_range self)).

Definition new_bare : M MemorySet :=
  let* page_table := pt_new in
  ret (mkMemorySet page_table []).

Definition ms_token (self : MemorySet) : Z := token (page_table self).

Definition push (self : MemorySet) (map_area : MapArea) (data : option (list byte)) : M MemorySet :=
  let* (map_area, page_table) := area_map map_area (page_table self) in
  let* _ := match data with
            | Some data => copy_data map_area page_table data
            | None => ret tt
            end in
  ret (mkMemorySet page_table (areas self ++ [map_area])).

Definition insert_framed_area (self : MemorySet) (start_va end_va : VirtAddr) (permission : Z) : M MemorySet :=
  let* area := lift (area_new start_va end_va Framed permission) in
  push self area None.

(** The frames of an area, in the order of the [BTreeMap]'s keys. *)
Definition area_frames (self : MapArea) : list PhysPageNum :=
  (merge_sort key_le (map_to_list (data_frames self))).*2.

Definition remove_area_with_start_vpn (self : MemorySet) (start_vpn : VirtPageNum) : M MemorySet :=
  match list_find (fun area => get_start (vpn_range area) = start_vpn) (areas self) with
  | Some (i, area) =>
      let* area := area_unmap area (page_table self) in
      (* [self.areas.remove(idx)] drops the area *)
      drop_frames (area_frames area);;
      ret (mkMemorySet (page_table self) (delete i (areas self)))
  | None => ret self
  end.

(** [strampoline] is the address of the trampoline code. *)
Definition map_trampoline (strampoline : Z) (self : MemorySet) : M MemorySet :=
  let* vpn := lift (page_of (va_from TRAMPOLINE)) in
  let* ppn := lift (page_of (pa_from strampoline)) in
  let* page_table := map (page_table self) vpn ppn (Z.lor PTE_R PTE_X) in
  ret (mkMemorySet page_table (areas self)).

(** One of the [memory_set.push(MapArea::new(..), None)] of [new_kernel]. *)
Definition push_identical (start end_ : Z) (perm : Z) (self : MemorySet) : M MemorySet :=
  let* area := lift (area_new (va_from start) (va_from end_) Identical perm) in
  push self area None.

Definition new_kernel (k : KernelLayout) (MEMORY_END : Z) (MMIO : list (Z * Z)) : M MemorySet :=
  let* memory_set := new_bare in
  (* map trampoline *)
  let* memory_set := map_trampoline (strampoline k) memory_set in
  (* map kernel sections *)
  let* memory_set := push_identical (stext k) (etext k) (Z.lor MP_R MP_X) memory_set in
  let* memory_set := push_identical (srodata k) (erodata k) MP_R memory_set in
  let* memory_set := push_identical (sdata k) (edata k) (Z.lor MP_R MP_W) memory_set in
  let* memory_set := push_identical (sbss_with_stack k) (ebss k) (Z.lor MP_R MP_W) memory_set in
  let* memory_set := push_identical (ekernel k) MEMORY_END (Z.lor MP_R MP_W) memory_set in
  for_each MMIO (fun pair memory_set =>
    push_identical pair.1 (w64 (pair.1 + pair.2)) (Z.lor MP_R MP_W) memory_set) memory_set.

(** One program header of [from_elf]. *)
Definition load_header (elf_data : list byte) (ph : option ProgramHeader) (st : MemorySet * VirtPageNum)
    : M (MemorySet * VirtPageNum) :=
  let '(memory_set, max_end_vpn) := st in
  let* ph := lift (unwrap ph) in
  let* load := lift (unwrap (ph_type ph)) in
  if load then
    let start_va := va_from (virtual_addr ph) in
    let end_va := va_from (w64 (virtual_addr ph + mem_size ph)) in
    let map_perm := MP_U in
    let map_perm := if is_read ph then Z.lor map_perm MP_R else map_perm in
    let map_perm := if is_write ph then Z.lor map_perm MP_W else map_perm in
    let map_perm := if is_execute ph then Z.lor map_perm MP_X else map_perm in
    let* map_area := lift (area_new start_va end_va Framed map_perm) in
    let max_end_vpn := get_end (vpn_range map_area) in
    let* data := lift (slice elf_data (ph_offset ph) (w64 (ph_offset ph + file_size ph))) in
    let* memory_set := push memory_set map_area (Some data) in
    ret (memory_set, max_end_vpn)
  else ret (memory_set, max_end_vpn).

(** [from_elf]; [parse] is [xmas_elf::ElfFile::new]. *)
Definition from_elf (parse : list byte -> option ElfFile) (strampoline : Z) (elf_data : list byte)
    : M (MemorySet * Z * Z) :=
  let* memory_set := new_bare in
  (* map trampoline *)
  let* memory_set := map_trampoline strampoline memory_set in
  (* map program headers of elf, with U flag *)
  let* elf := lift (unwrap (parse elf_data)) in
  assert (bool_decide (magic elf = [0x7f; 0x45; 0x4c; 0x46]));;
  let* (memory_set, max_end_vpn) :=
    for_each (program_headers elf) (load_header elf_data) (memory_set, 0) in
  (* map user stack with U flags *)
  let max_end_va := addr_of max_end_vpn in
  let user_stack_bottom := usize_of_va max_end_va in
  (* guard page *)
  let user_stack_bottom := w64 (user_stack_bottom + PAGE_SIZE) in
  let user_stack_top := w64 (user_stack_bottom + USER_STACK_SIZE) in
  let* area := lift (area_new (va_from user_stack_bottom) (va_from user_stack_top) Framed
                      (Z.lor (Z.lor MP_R MP_W) MP_U)) in
  let* memory_set := push memory_set area None in
  (* map TrapContext *)
  let* area := lift (area_new (va_from TRAP_CONTEXT) (va_from TRAMPOLINE) Framed (Z.lor MP_R MP_W)) in
  let* memory_set := push memory_set area None in
  ret (memory_set, user_stack_top, entry_point elf).

(** The copy of one page in [from_existed_user]. *)
Definition copy_page (user_space memory_set : MemorySet) (vpn : VirtPageNum) : M unit :=
  let* src_ppn := translate_ppn (page_table user_space) vpn in
  let* dst_ppn := translate_ppn (page_table memory_set) vpn in
  let* src := read_page src_ppn in
  let* dst := read_page dst_ppn in
  let* dst := lift (copy_from_slice dst 0 (zlen dst) src) in
  write_page dst_ppn dst.

Definition copy_area (user_space : MemorySet) (area : MapArea) (memory_set : MemorySet) : M MemorySet :=
  let* new_area := lift (from_another area) in
  let* memory_set := push memory_set new_area None in
  (* copy data from another space *)
  let* _ := for_each (vpns (vpn_range area)) (fun vpn _ => copy_page user_space memory_set vpn) tt in
  ret memory_set.

Definition from_existed_user (strampoline : Z) (user_space : MemorySet) : M MemorySet :=
  let* memory_set := new_bare in
  (* map trampoline *)
  let* memory_set := map_trampoline strampoline memory_set in
  (* copy data sections/trap_context/user_stack *)
  for_each (areas user_space) (copy_area user_space) memory_set.

Definition ms_translate (self : MemorySet) (vpn : VirtPageNum) : M (option PageTableEntry) :=
  translate (page_table self) vpn.

(** [recycle_data_pages]: [areas.clear()] drops every area. *)
Definition recycle_data_pages (self : MemorySet) : M MemorySet :=
  let* _ := for_each (areas self) (fun area _ => drop_frames (area_frames area)) tt in
  ret (mkMemorySet (page_table self) []).

(** The [drop] of a [MemorySet]: its fields in the order of their declaration. *)
Definition drop_memory_set (self : MemorySet) : M unit :=
  let* _ := drop_frames (frames (page_table self)) in
  for_each (areas self) (fun area _ => drop_frames (area_frames area)) tt.

(** [remap_test]: [mid_text], [mid_rodata] and [mid_data] are not writable, not
    writable and not executable. *)
Definition check_page (self : MemorySet) (start end_ : Z) (f : PageTableEntry -> bool) : M unit :=
  let mid := va_from (w64 (start + end_) / 2) in
  let* r := translate (page_table self) (floor mid) in
  let* pte := lift (unwrap r) in
  assert (negb (f pte)).

Definition remap_test (k : KernelLayout) (kernel_space : MemorySet) : M unit :=
  check_page kernel_space (stext k) (etext k) writable;;
  check_page kernel_space (srodata k) (erodata k) writable;;
  check_page kernel_space (sdata k) (edata k) executable.

End Ops.
