(* ===== verification/AreaOps.v ===== *)
(** * The operations of a mapped area on its address space *)

From S2P Require Import Prelude Address Frames PageTable PtInv PtOps Space MemorySet.

(** [M] without the keys of [l]. *)
Definition without {A} (l : list Z) (M : gmap Z A) : gmap Z A := filter (fun kv => kv.1 ∉ l) M.

Lemma lookup_without {A} l (M : gmap Z A) v : without l M !! v = if decide (v ∈ l) then None else M !! v.
Proof.
  unfold without. case_decide as Hv.
  - apply map_lookup_filter_None. right. intros x _ Hn. by apply Hn.
  - destruct (M !! v) eqn:E; [by apply map_lookup_filter_Some|]. apply map_lookup_filter_None. by left.
Qed.

Lemma without_nil {A} (M : gmap Z A) : without [] M = M.
Proof. apply map_eq. intros v. rewrite lookup_without. by rewrite decide_False by (by intros ?%not_elem_of_nil). Qed.

Lemma without_cons {A} v l (M : gmap Z A) : without l (delete v M) = without (v :: l) M.
Proof.
  apply map_eq. intros w. rewrite !lookup_without, lookup_delete.
  destruct (decide (w ∈ l)) as [Hl|Hl]; [by rewrite decide_True by (by right)|].
  destruct (decide (v = w)) as [->|Hne]; [by rewrite decide_True by left|].
  rewrite decide_False; [done|]. intros [?|?]%elem_of_cons; congruence.
Qed.

(** The contents of page [i] of an area whose data is [data]. *)
Definition page_image (data : list byte) (i : Z) : list byte :=
  take page_len (drop (Z.to_nat (4096 * i)) data ++ zero_page).

Lemma page_image_length data i : length (page_image data i) = page_len.
Proof. unfold page_image, zero_page. rewrite length_take, length_app, length_replicate. lia. Qed.

Lemma page_image_beyond data i : zlen data <= 4096 * i -> page_image data i = zero_page.
Proof.
  intros Hl. unfold page_image, zlen in *. rewrite drop_ge by lia. cbn [app]. apply take_ge. unfold zero_page. by rewrite length_replicate.
Qed.

Section AreaOps.
Context {F : Type} `{FrameAllocatorSpec F}.
Implicit Types (m : Machine F) (R : gset Z) (pt : PageTable) (G D E : gmap Z Z) (P : gmap Z (list byte)) (a : MapArea).

(** The entry an area makes for frame [p]. *)
Definition area_pte a (p : Z) : Z := pte_new p (Z.lor (map_perm a) PTE_V).

Definition in_range a (v : Z) : Prop := get_start (vpn_range a) <= v < get_end (vpn_range a).
#[global] Instance in_range_dec a v : Decision (in_range a v).
Proof. unfold in_range. apply _. Defined.

Definition pages a : Z := get_end (vpn_range a) - get_start (vpn_range a).

Record range_ok a : Prop := {
  ro_range : 0 <= get_start (vpn_range a) <= get_end (vpn_range a) /\ get_end (vpn_range a) <= 2 ^ 27;
  ro_perm : 0 <= map_perm a < 2 ^ 8;
}.

Lemma elem_of_vpns a v : v ∈ vpns (vpn_range a) <-> in_range a v.
Proof. unfold vpns, in_range. rewrite elem_of_seqZ. lia. Qed.

Lemma vpns_length a : range_ok a -> zlen (vpns (vpn_range a)) = pages a.
Proof. intros [Hr _]. unfold zlen, vpns, pages. rewrite length_seqZ. lia. Qed.

(** ** Mapping *)
Lemma map_one_framed lo hi m R pt G D P a v : space lo hi m R pt G D P -> map_type a = Framed ->
  0 <= map_perm a < 2 ^ 8 -> 0 <= v < 2 ^ 27 -> G !! v = None -> D !! v = None -> data_frames a !! v = None ->
  used pt D R + 3 <= hi - lo ->
  exists p pt' m', map_one a pt v m = Ok ((set_frames a (<[v := p]> (data_frames a)), pt'), m') /\
    space lo hi m' R pt' (<[v := area_pte a p]> G) (<[v := p]> D) (<[v := zero_page]> P) /\
    same_on R m m' /\ root_ppn pt' = root_ppn pt /\ used pt' (<[v := p]> D) R <= used pt D R + 3.
Proof.
  intros Hsp Ht Hpm Hv HG HD Hdf Hroom.
  destruct (space_alloc _ _ _ _ _ _ _ _ Hsp) as (p & m1 & E1 & Hp & _ & Hpr & Hsp1 & Hz & Hs1); [lia|].
  assert (Hu1 : used pt D ({[p]} ∪ R) = used pt D R + 1).
  { unfold used. replace (owned pt D ∪ ({[p]} ∪ R)) with ({[p]} ∪ (owned pt D ∪ R)) by set_solver.
    rewrite size_union by set_solver. rewrite size_singleton. lia. }
  destruct (space_map _ _ _ _ _ _ _ _ v p (map_perm a) Hsp1 Hv Hpr Hpm HG) as (pt' & m2 & E2 & Hsp2 & Hs2 & Hroot & Hu2); [lia|].
  assert (Hpn : p ∉ R) by set_solver.
  exists p, pt', m2. split_and!; [| | |done|].
  - unfold map_one. rewrite Ht, bind_assoc, (bind_Ok _ _ _ _ _ E1), Hdf. cbn [drop_frame set_frames map_perm].
    rewrite bind_assoc, !bind_ret. cbn [set_frames map_perm]. by rewrite (bind_Ok _ _ _ _ _ E2).
  - apply (space_take _ _ _ _ _ _ _ _ _ _ zero_page Hsp2 Hpn HD). rewrite Hs2 by set_solver. done.
  - eapply same_on_trans; [exact Hs1|]. eapply same_on_sub; [|exact Hs2]. set_solver.
  - unfold used in *. rewrite owned_insert by done.
    replace ({[p]} ∪ owned pt' D ∪ R) with (owned pt' D ∪ ({[p]} ∪ R)) by set_solver. lia.
Qed.

Lemma map_one_identical lo hi m R pt G D P a v c : space lo hi m R pt G D P -> map_type a = Identical ->
  0 <= map_perm a < 2 ^ 8 -> 0 <= v < 2 ^ 27 -> G !! v = None -> (near G v /\ c = 0) \/ c = 2 -> used pt D R + c <= hi - lo ->
  exists pt' m', map_one a pt v m = Ok ((a, pt'), m') /\ space lo hi m' R pt' (<[v := area_pte a v]> G) D P /\
    same_on R m m' /\ root_ppn pt' = root_ppn pt /\ used pt' D R <= used pt D R + c.
Proof.
  intros Hsp Ht Hpm Hv HG Hc Hroom.
  destruct (space_map_cost _ _ _ _ _ _ _ _ v v (map_perm a) c Hsp Hv) as (pt' & m2 & E2 & Hsp2 & Hs2 & Hroot & Hu2); [lia|done..|].
  exists pt', m2. split_and!; [|done..]. unfold map_one. by rewrite Ht, bind_ret, (bind_Ok _ _ _ _ _ E2).
Qed.

Lemma dom_insert_list {A} (E : gmap Z A) v l x : dom E = list_to_set l -> dom (E ∪ {[v := x]}) = list_to_set (v :: l).
Proof. intros HE. rewrite dom_union_L, dom_singleton_L, HE. set_solver. Qed.

Lemma map_framed lo hi l : forall m R pt G D P a, space lo hi m R pt G D P -> map_type a = Framed ->
  0 <= map_perm a < 2 ^ 8 -> NoDup l ->
  (forall v, v ∈ l -> 0 <= v < 2 ^ 27 /\ G !! v = None /\ D !! v = None /\ data_frames a !! v = None) ->
  used pt D R + 3 * zlen l <= hi - lo ->
  exists E pt' m', for_each l (fun vpn '(self, page_table) => map_one self page_table vpn) (a, pt) m
      = Ok ((set_frames a (E ∪ data_frames a), pt'), m') /\ dom E = list_to_set l /\
    space lo hi m' R pt' ((area_pte a <$> E) ∪ G) (E ∪ D) (((fun _ => zero_page) <$> E) ∪ P) /\
    same_on R m m' /\ root_ppn pt' = root_ppn pt /\ used pt' (E ∪ D) R <= used pt D R + 3 * zlen l.
Proof.
  induction l as [|v l IH]; intros m R pt G D P a Hsp Ht Hpm Hnd Hl Hroom.
  { exists ∅, pt, m. rewrite !fmap_empty, !map_empty_union. destruct a. split_and!; try done. unfold zlen. cbn [length]. lia. }
  apply NoDup_cons in Hnd as [Hv Hnd]. destruct (Hl v) as (Hvr & HG & HD & Hdf); [by left|].
  assert (Hz : zlen (v :: l) = zlen l + 1) by (unfold zlen; cbn [length]; lia). rewrite Hz in *.
  pose proof (zlen_nonneg l).
  destruct (map_one_framed _ _ _ _ _ _ _ _ a v Hsp Ht Hpm Hvr HG HD Hdf) as (p & pt1 & m1 & E1 & Hsp1 & Hs1 & Hr1 & Hu1); [lia|].
  destruct (IH m1 R pt1 _ _ _ (set_frames a (<[v := p]> (data_frames a))) Hsp1 Ht Hpm Hnd) as (E & pt2 & m2 & E2 & HE & Hsp2 & Hs2 & Hr2 & Hu2).
  { intros w Hw. destruct (Hl w) as (? & ? & ? & ?); [by right|]. assert (v <> w) by congruence.
    cbn [data_frames set_frames]. by rewrite !lookup_insert_ne by done. }
  { lia. }
  exists (E ∪ {[v := p]}), pt2, m2. rewrite !map_fmap_union, !map_fmap_singleton, <- !map_union_assoc, <- !insert_union_singleton_l.
  split_and!; [|by apply dom_insert_list|done|by eapply same_on_trans|congruence|lia].
  cbn [for_each]. rewrite (bind_Ok _ _ _ _ _ E1). exact E2.
Qed.

(** The leaf tables of the pages from [s] on; [b]: that of [s] is there. *)
Definition leaf_tables (s n : Z) (b : bool) : Z := if n <=? 0 then 0 else (s + n - 1) / 512 - s / 512 + (if b then 0 else 1).

Lemma leaf_tables_step s n b : 0 < n -> 2 * leaf_tables s n b = (if b then 0 else 2) + 2 * leaf_tables (s + 1) (n - 1) (bool_decide ((s + 1) / 512 = s / 512)).
Proof.
  intros Hn. unfold leaf_tables. rewrite (proj2 (Z.leb_gt _ _)) by lia. destruct (Z.leb_spec (n - 1) 0).
  - replace n with 1 by lia. replace (s + 1 - 1) with s by lia. destruct b; lia.
  - replace (s + 1 + (n - 1) - 1) with (s + n - 1) by lia. case_bool_decide as E; destruct b; try lia; (assert ((s + 1) / 512 = s / 512 + 1) by dlia; lia).
Qed.

Lemma leaf_tables_nonneg s n b : 0 <= leaf_tables s n b.
Proof. unfold leaf_tables. destruct (Z.leb_spec n 0); [done|]. assert (s / 512 <= (s + n - 1) / 512) by (apply Z.div_le_mono; lia). destruct b; lia. Qed.

Lemma leaf_tables_le s n b : 0 <= n -> leaf_tables s n b <= n.
Proof.
  intros Hn. unfold leaf_tables. destruct (Z.leb_spec n 0); [lia|].
  assert (Hd : (s + n - 1) / 512 <= (s + (n - 1) * 512) / 512) by (apply Z.div_le_mono; lia). rewrite Z.div_add in Hd by lia. destruct b; lia.
Qed.

Lemma map_identical lo hi n : forall s b m R pt G D P a, space lo hi m R pt G D P -> map_type a = Identical ->
  0 <= map_perm a < 2 ^ 8 -> (b = true -> near G s) -> (forall v, v ∈ seqZ s (Z.of_nat n) -> 0 <= v < 2 ^ 27 /\ G !! v = None) ->
  used pt D R + 2 * leaf_tables s (Z.of_nat n) b <= hi - lo ->
  exists G' pt' m', for_each (seqZ s (Z.of_nat n)) (fun vpn '(self, page_table) => map_one self page_table vpn) (a, pt) m = Ok ((a, pt'), m') /\
    (forall v, G' !! v = if decide (v ∈ seqZ s (Z.of_nat n)) then Some (area_pte a v) else G !! v) /\
    space lo hi m' R pt' G' D P /\ same_on R m m' /\ root_ppn pt' = root_ppn pt /\ used pt' D R <= used pt D R + 2 * leaf_tables s (Z.of_nat n) b.
Proof.
  induction n as [|n IH]; intros s b m R pt G D P a Hsp Ht Hpm Hnear Hl Hroom.
  { exists G, pt, m. split_and!; [done| |done|done|done|change (leaf_tables s (Z.of_nat 0) b) with 0; lia]. intros v. by rewrite decide_False by (by intros ?%not_elem_of_nil). }
  rewrite (seqZ_cons s (Z.of_nat (S n))) in * by lia. replace (Z.pred (Z.of_nat (S n))) with (Z.of_nat n) in * by lia. change (Z.succ s) with (s + 1) in *.
  pose proof (leaf_tables_step s (Z.of_nat (S n)) b ltac:(lia)) as Hst. replace (Z.of_nat (S n) - 1) with (Z.of_nat n) in Hst by lia.
  set (b' := bool_decide ((s + 1) / 512 = s / 512)) in *. pose proof (leaf_tables_nonneg (s + 1) (Z.of_nat n) b'). destruct (Hl s) as (Hvr & HG); [by left|].
  destruct (map_one_identical _ _ _ _ _ _ _ _ a s (if b then 0 else 2) Hsp Ht Hpm Hvr HG) as (pt1 & m1 & E1 & Hsp1 & Hs1 & Hr1 & Hu1); [destruct b; auto|lia|].
  destruct (IH (s + 1) b' m1 R pt1 _ _ _ a Hsp1 Ht Hpm) as (G' & pt2 & m2 & E2 & HG' & Hsp2 & Hs2 & Hr2 & Hu2).
  { intros Hb%bool_decide_eq_true. exists s. rewrite lookup_insert_eq. eauto. }
  { intros w Hw. destruct (Hl w) as (? & ?); [by right|]. apply elem_of_seqZ in Hw. by rewrite lookup_insert_ne by lia. }
  { lia. }
  exists G', pt2, m2. split_and!; [|intros w|done|by eapply same_on_trans|congruence|lia].
  - cbn [for_each]. rewrite (bind_Ok _ _ _ _ _ E1). exact E2.
  - rewrite HG', lookup_insert. destruct (decide (w ∈ seqZ (s + 1) (Z.of_nat n))) as [Hw|Hw]; [by rewrite decide_True by (by right)|].
    destruct (decide (s = w)) as [->|Hne]; [by rewrite decide_True by left|].
    rewrite decide_False; [done|]. intros [?|?]%elem_of_cons; congruence.
Qed.

(** The leaf tables of an area. *)
Definition area_tables a : Z := leaf_tables (get_start (vpn_range a)) (pages a) false.

(** ** Unmapping *)
Lemma unmap_one_framed lo hi m R pt G D P a v p : space lo hi m R pt G D P -> map_type a = Framed ->
  is_Some (G !! v) -> D !! v = Some p -> data_frames a !! v = Some p ->
  exists m', unmap_one a pt v m = Ok (set_frames a (delete v (data_frames a)), m') /\
    space lo hi m' R pt (delete v G) (delete v D) (delete v P) /\ same_on R m m'.
Proof.
  intros Hsp Ht HG HD Hdf. pose proof (sp_dom _ _ _ _ _ _ _ _ Hsp v HG) as Hv.
  destruct (space_give _ _ _ _ _ _ _ _ _ _ Hsp HD) as [Hsp1 Hp].
  destruct (space_dealloc _ _ _ _ _ _ _ _ _ Hsp1 Hp) as (m1 & E1 & Hsp2 & Hr1).
  destruct (space_unmap _ _ _ _ _ _ _ _ v Hsp2 Hv HG) as (m2 & E2 & Hsp3 & Hs2).
  exists m2. split_and!; [|done|].
  - unfold unmap_one. rewrite decide_True by done. rewrite bind_assoc, Hdf. cbn [drop_frame].
    rewrite (bind_Ok _ _ _ _ _ E1), bind_ret. by rewrite (bind_Ok _ _ _ _ _ E2).
  - intros q Hq. by rewrite Hs2, Hr1.
Qed.

Lemma unmap_framed lo hi l : forall m R pt G D P a, space lo hi m R pt G D P -> map_type a = Framed -> NoDup l ->
  (forall v, v ∈ l -> is_Some (G !! v) /\ exists p, D !! v = Some p /\ data_frames a !! v = Some p) ->
  exists m', for_each l (fun vpn self => unmap_one self pt vpn) a m = Ok (set_frames a (without l (data_frames a)), m') /\
    space lo hi m' R pt (without l G) (without l D) (without l P) /\ same_on R m m'.
Proof.
  induction l as [|v l IH]; intros m R pt G D P a Hsp Ht Hnd Hl.
  { exists m. rewrite !without_nil. destruct a. split_and!; done. }
  apply NoDup_cons in Hnd as [Hv Hnd]. destruct (Hl v) as (HG & p & HD & Hdf); [by left|].
  destruct (unmap_one_framed _ _ _ _ _ _ _ _ a v p Hsp Ht HG HD Hdf) as (m1 & E1 & Hsp1 & Hs1).
  destruct (IH m1 R pt _ _ _ (set_frames a (delete v (data_frames a))) Hsp1 Ht Hnd) as (m2 & E2 & Hsp2 & Hs2).
  { intros w Hw. destruct (Hl w) as (? & q & ? & ?); [by right|]. assert (v <> w) by congruence.
    cbn [data_frames set_frames]. rewrite !lookup_delete_ne by done. eauto. }
  exists m2. split_and!; [|by rewrite <- !without_cons|by eapply same_on_trans].
  cbn [for_each]. rewrite (bind_Ok _ _ _ _ _ E1), E2. cbn [data_frames set_frames]. by rewrite without_cons.
Qed.

(** ** Copying data into an area *)
Lemma translate_ppn_ok lo hi m R pt G D P v p flags : space lo hi m R pt G D P ->
  G !! v = Some (pte_new p flags) -> 0 <= p < 2 ^ 44 -> 0 <= flags < 2 ^ 8 -> translate_ppn pt v m = Ok (p, m).
Proof.
  intros Hsp HG Hp Hf. unfold translate_ppn. rewrite (bind_Ok _ _ _ _ _ (space_translate _ _ _ _ _ _ _ _ _ _ Hsp HG)).
  cbn [unwrap lift]. rewrite bind_ret. by rewrite pte_ppn_new.
Qed.

Lemma space_frame_range lo hi m R pt G D P v p : space lo hi m R pt G D P -> D !! v = Some p -> 0 <= p < 2 ^ 44.
Proof.
  intros Hsp Hv. destruct (fa_range _ _ _ _ (mok_alloc _ _ _ _ (sp_machine _ _ _ _ _ _ _ _ Hsp))) as (? & ? & Hin).
  assert (Ho : p ∈ owned pt D ∪ R) by (apply elem_of_union_l, elem_of_owned; eauto). apply Hin in Ho. lia.
Qed.

Lemma copy_one (data : list byte) (i : Z) : 0 <= i -> 4096 * i <= zlen data -> zlen data < 2 ^ 63 ->
  exists src, slice data (4096 * i) (Z.min (zlen data) (w64 (4096 * i + PAGE_SIZE))) = Ok src /\
    copy_from_slice zero_page 0 (zlen src) src = Ok (page_image data i).
Proof.
  intros Hi Hl Hb. change PAGE_SIZE with 4096. rewrite w64_small by lia. rewrite slice_Ok by lia.
  eexists. split; [done|]. set (src := take _ _).
  assert (Hs : length src = Z.to_nat (Z.min (zlen data) (4096 * i + 4096) - 4096 * i)).
  { unfold src. rewrite length_take, length_drop. unfold zlen in *. lia. }
  assert (Hzl : length zero_page = 4096%nat) by (apply length_replicate).
  rewrite copy_from_slice_Ok by (unfold zlen in *; lia). f_equal. unfold splice, page_image. cbn [take app Z.to_nat].
  change (Z.to_nat 0) with 0%nat. rewrite take_0, take_app. cbn [app Nat.add]. f_equal.
  - unfold src. destruct (decide (zlen data <= 4096 * i + 4096)).
    + rewrite (take_ge _ page_len) by (rewrite length_drop; unfold page_len, zlen in *; lia). apply take_ge. rewrite length_drop. unfold zlen in *. lia.
    + f_equal. unfold page_len, zlen in *. lia.
  - rewrite length_drop. unfold zero_page. rewrite drop_replicate, take_replicate. f_equal. rewrite Hs. unfold page_len, zlen in *. lia.
Qed.

Lemma copy_loop_ok lo hi s n data fuel : forall i m R pt G D P,
  space lo hi m R pt G D P -> 0 <= i < n -> 0 <= s -> s + n <= 2 ^ 27 -> zlen data <= 4096 * n -> 4096 * i <= zlen data ->
  zlen data < 2 ^ 63 -> (length data < Z.to_nat (4096 * i) + fuel)%nat ->
  (forall v, s + i <= v < s + n -> exists p flags, D !! v = Some p /\ G !! v = Some (pte_new p flags) /\
     0 <= flags < 2 ^ 8 /\ P !! v = Some zero_page) ->
  exists P' m', copy_loop fuel pt data (4096 * i) (s + i) m = Ok (tt, m') /\ space lo hi m' R pt G D P' /\
    same_on R m m' /\ (forall v, P' !! v = if decide (s + i <= v < s + n) then Some (page_image data (v - s)) else P !! v).
Proof.
  induction fuel as [|fuel IH]; intros i m R pt G D P Hsp Hi Hs0 Hs Hd Hl Hb Hfu Hpg; [unfold zlen in *; lia|].
  destruct (Hpg (s + i) ltac:(lia)) as (p & flags & HD & HG & Hf & HP).
  pose proof (space_frame_range _ _ _ _ _ _ _ _ _ _ Hsp HD) as Hpr.
  destruct (space_page _ _ _ _ _ _ _ _ _ _ Hsp HD) as (b & HPb & Hram & _). rewrite HP in HPb. injection HPb as <-.
  destruct (copy_one data i) as (src & Es & Ec); [lia..|].
  destruct (space_write _ _ _ _ _ _ _ _ _ _ _ Hsp HD (page_image_length data i)) as (m1 & Ew & Hsp1 & Hs1 & _).
  cbn [copy_loop]. rewrite Es. cbn [lift]. rewrite bind_ret, (bind_Ok _ _ _ _ _ (translate_ppn_ok _ _ _ _ _ _ _ _ _ _ _ Hsp HG Hpr Hf)).
  assert (Er : read_page p m = Ok (zero_page, m)) by (unfold read_page; by rewrite Hram).
  rewrite (bind_Ok _ _ _ _ _ Er), Ec. cbn [lift]. rewrite bind_ret, (bind_Ok _ _ _ _ _ Ew).
  change PAGE_SIZE with 4096. rewrite (w64_small (4096 * i + 4096)) by lia. destruct (Z.leb_spec (zlen data) (4096 * i + 4096)) as [Hend|Hmore].
  - eexists _, m1. split_and!; [done|exact Hsp1|done|]. intros v. rewrite lookup_insert.
    destruct (decide (s + i = v)) as [<-|Hne]; [rewrite decide_True by lia; do 2 f_equal; lia|].
    destruct (decide (s + i <= v < s + n)); [|done]. destruct (Hpg v) as (_ & _ & _ & _ & _ & ->); [lia|].
    by rewrite page_image_beyond by lia.
  - unfold step. rewrite w64_small by lia. replace (4096 * i + 4096) with (4096 * (i + 1)) by lia.
    replace (s + i + 1) with (s + (i + 1)) by lia.
    destruct (IH (i + 1) m1 R pt G D _ Hsp1) as (P' & m2 & E2 & Hsp2 & Hs2 & HP'); [lia..| |].
    { intros v Hv. rewrite lookup_insert_ne by lia. apply Hpg. lia. }
    exists P', m2. split_and!; [done|done|by eapply same_on_trans|]. intros v. rewrite HP', lookup_insert.
    destruct (decide (s + (i + 1) <= v < s + n)); [by rewrite decide_True by lia|].
    destruct (decide (s + i = v)) as [<-|]; [rewrite decide_True by lia; do 2 f_equal; lia|].
    by rewrite decide_False by lia.
Qed.

End AreaOps.
