(* ===== verification/MsOps.v ===== *)
(** * The operations of an address space keep its invariant *)

From stdpp Require Import sorting.
From S2P Require Import Prelude Address Frames PageTable PtInv PtOps Space MemorySet AreaOps.

(** The page of the trampoline. *)
Definition trampoline_vpn : Z := 2 ^ 27 - 1.

Section MsOps.
Context {F : Type} `{FrameAllocatorSpec F}.
Implicit Types (m : Machine F) (R : gset Z) (pt : PageTable) (G D E : gmap Z Z) (P : gmap Z (list byte)) (a b : MapArea)
  (ms : MemorySet).

(** An area is mapped. *)
Record area_ok G D a : Prop := {
  ao_range : range_ok a;
  ao_framed v : map_type a = Framed -> in_range a v ->
    exists p, data_frames a !! v = Some p /\ D !! v = Some p /\ G !! v = Some (area_pte a p);
  ao_identical v : map_type a = Identical -> in_range a v -> D !! v = None /\ G !! v = Some (area_pte a v);
  ao_frames v : is_Some (data_frames a !! v) -> map_type a = Framed /\ in_range a v;
}.

Definition apart a b : Prop := forall v, in_range a v -> in_range b v -> False.

(** Pairwise disjoint areas. *)
Fixpoint separated (l : list MapArea) : Prop :=
  match l with
  | [] => True
  | a :: l => Forall (apart a) l /\ separated l
  end.

Definition covered (l : list MapArea) (v : Z) : Prop := exists a, a ∈ l /\ in_range a v.

Record ms_ok (lo hi : Z) m R ms G D P : Prop := {
  ms_space : space lo hi m R (page_table ms) G D P;
  ms_areas : Forall (area_ok G D) (areas ms);
  ms_sep : separated (areas ms);
  ms_data v : is_Some (D !! v) -> covered (areas ms) v;
  ms_entries v : is_Some (G !! v) -> v = trampoline_vpn \/ covered (areas ms) v;
  ms_tramp : is_Some (G !! trampoline_vpn) /\ ~ covered (areas ms) trampoline_vpn;
}.

Lemma covered_app l1 l2 v : covered (l1 ++ l2) v <-> covered l1 v \/ covered l2 v.
Proof.
  unfold covered. split.
  - intros (a & [Ha|Ha]%elem_of_app & Hv); [left|right]; eauto.
  - intros [(a & Ha & Hv)|(a & Ha & Hv)]; exists a; rewrite elem_of_app; eauto.
Qed.

Lemma covered_one a v : covered [a] v <-> in_range a v.
Proof. unfold covered. split; [intros (x & ->%list_elem_of_singleton & ?); done|]. exists a. split; [by left|done]. Qed.

Lemma separated_app l1 l2 : separated (l1 ++ l2) <->
  separated l1 /\ separated l2 /\ forall v, covered l1 v -> covered l2 v -> False.
Proof.
  induction l1 as [|a l1 IH]; cbn [app separated].
  { split; [|tauto]. intros Hs. split_and!; [done|done|]. by intros v (x & Hx%not_elem_of_nil & _). }
  rewrite IH, Forall_app, (Forall_forall (apart a) l2). split.
  - intros ([Ha1 Ha2] & H1 & H2 & H12). split_and!; [done|done|done|].
    intros v (x & [->|Hx]%elem_of_cons & Hv) Hc; [|apply (H12 v); [exists x; done|done]].
    destruct Hc as (y & Hy & Hvy). by apply (Ha2 y Hy v).
  - intros ((Ha1 & H1) & H2 & H12). split_and!; [done| |done|done|].
    + intros y Hy v Hv Hvy. apply (H12 v); [exists a; split; [by left|done]|exists y; done].
    + intros v (x & Hx & Hv). apply H12. exists x. split; [by right|done].
Qed.

(** A sufficient test. *)
Definition apartb a b : bool :=
  (get_end (vpn_range a) <=? get_start (vpn_range b)) || (get_end (vpn_range b) <=? get_start (vpn_range a)).
Fixpoint separatedb (l : list MapArea) : bool :=
  match l with
  | [] => true
  | a :: l => forallb (apartb a) l && separatedb l
  end.

Lemma separatedb_ok l : separatedb l = true -> separated l.
Proof.
  induction l as [|a l IH]; [done|]. cbn [separatedb separated]. intros [Ha Hl]%andb_prop. split; [|by apply IH].
  apply Forall_forall. intros b Hb v Hva Hvb. rewrite forallb_forall in Ha. apply list_elem_of_In, Ha in Hb.
  unfold apartb, in_range in *. apply orb_prop in Hb as [?%Z.leb_le|?%Z.leb_le]; lia.
Qed.

(** Areas whose pages keep their entries stay mapped. *)
Lemma area_ok_ext G D G' D' a : (forall v, in_range a v -> G' !! v = G !! v /\ D' !! v = D !! v) ->
  area_ok G D a -> area_ok G' D' a.
Proof.
  intros Hag [Hr Hf Hi Hd]. split; [done| | |done].
  - intros v Ht Hv. destruct (Hag v Hv) as [-> ->]. by apply Hf.
  - intros v Ht Hv. destruct (Hag v Hv) as [-> ->]. by apply Hi.
Qed.

Lemma areas_ok_ext G D G' D' l : (forall v, covered l v -> G' !! v = G !! v /\ D' !! v = D !! v) ->
  Forall (area_ok G D) l -> Forall (area_ok G' D') l.
Proof.
  intros Hag Hl. apply Forall_forall. intros a Ha. apply (area_ok_ext G D); [|by eapply Forall_forall].
  intros v Hv. apply Hag. by exists a.
Qed.

(** ** Adding an area *)
Definition fresh_area G a : Prop := range_ok a /\ data_frames a = ∅ /\ forall v, in_range a v -> G !! v = None.

Lemma covered_mapped lo hi m R ms G D P v : ms_ok lo hi m R ms G D P -> covered (areas ms) v -> is_Some (G !! v).
Proof.
  intros [_ Ha _ _ _ _] (a & Hin & Hv). apply (proj1 (Forall_forall _ _) Ha) in Hin as [_ Hf Hi _].
  destruct (map_type a) eqn:Ht; [destruct (Hi v eq_refl Hv); eauto|destruct (Hf v eq_refl Hv) as (p & _ & _ & ?); eauto].
Qed.

Lemma data_mapped lo hi m R ms G D P v : ms_ok lo hi m R ms G D P -> G !! v = None -> D !! v = None.
Proof.
  intros Hms HG. destruct (D !! v) eqn:HD; [|done]. exfalso.
  destruct (covered_mapped _ _ _ _ _ _ _ _ v Hms) as [x Hx]; [|congruence]. apply (ms_data _ _ _ _ _ _ _ _ Hms). eauto.
Qed.

(** What [push] leaves. *)
Record pushed (lo hi : Z) m R ms G D P a m' ms' G' D' P' : Prop := {
  pu_ok : ms_ok lo hi m' R ms' G' D' P';
  pu_areas : exists a', areas ms' = areas ms ++ [a'] /\ vpn_range a' = vpn_range a /\ map_perm a' = map_perm a /\
    map_type a' = map_type a;
  pu_same : same_on R m m';
  pu_token : root_ppn (page_table ms') = root_ppn (page_table ms);
  pu_other v : ~ in_range a v -> G' !! v = G !! v /\ D' !! v = D !! v /\ P' !! v = P !! v;
  pu_used : used (page_table ms') D' R <= used (page_table ms) D R + 3 * pages a;
}.

Lemma dom_lookup_in {A} (E : gmap Z A) l v : dom E = list_to_set l -> is_Some (E !! v) <-> v ∈ l.
Proof. intros HE. rewrite <- elem_of_dom, HE. apply elem_of_list_to_set. Qed.

Lemma push_ok (lo hi : Z) m R ms G D P a m' ms' G' D' P' a' :
  ms_ok lo hi m R ms G D P -> fresh_area G a ->
  space lo hi m' R (page_table ms') G' D' P' -> areas ms' = areas ms ++ [a'] -> area_ok G' D' a' ->
  vpn_range a' = vpn_range a -> (forall v, ~ in_range a v -> G' !! v = G !! v /\ D' !! v = D !! v) ->
  ms_ok lo hi m' R ms' G' D' P'.
Proof.
  intros Hms (Hr & _ & Hfree) Hsp Ha Ha' Hrg Hoth.
  assert (Hin : forall v, in_range a' v <-> in_range a v) by (intros v; unfold in_range; by rewrite Hrg).
  assert (Hno : forall v, covered (areas ms) v -> ~ in_range a v).
  { intros v Hc Hv. destruct (covered_mapped _ _ _ _ _ _ _ _ v Hms Hc) as [x Hx]. by rewrite (Hfree v Hv) in Hx. }
  destruct (ms_tramp _ _ _ _ _ _ _ _ Hms) as [[x Ht] Hnt].
  assert (Hta : ~ in_range a trampoline_vpn) by (intros Hv; by rewrite (Hfree _ Hv) in Ht).
  split; rewrite ?Ha; [done| | | | |].
  - apply Forall_app. split; [|by apply Forall_singleton]. eapply areas_ok_ext; [|apply (ms_areas _ _ _ _ _ _ _ _ Hms)].
    intros v Hc. by apply Hoth, Hno.
  - apply separated_app. split_and!; [apply (ms_sep _ _ _ _ _ _ _ _ Hms)|by split; [constructor|]|].
    intros v Hc Hv%covered_one. by apply (Hno v Hc), Hin.
  - intros v Hv. rewrite covered_app, covered_one, Hin. destruct (decide (in_range a v)) as [?|Hn]; [by right|].
    left. apply (ms_data _ _ _ _ _ _ _ _ Hms). by rewrite <- (proj2 (Hoth v Hn)).
  - intros v Hv. rewrite covered_app, covered_one, Hin. destruct (decide (in_range a v)) as [?|Hn]; [by right; right|].
    destruct (ms_entries _ _ _ _ _ _ _ _ Hms v); [by rewrite <- (proj1 (Hoth v Hn))|by left|by right; left].
  - rewrite covered_app, covered_one, Hin, (proj1 (Hoth _ Hta)). split; [eauto|tauto].
Qed.

Lemma area_map_framed lo hi m R ms G D P a : ms_ok lo hi m R ms G D P -> fresh_area G a -> map_type a = Framed ->
  used (page_table ms) D R + 3 * pages a <= hi - lo ->
  exists E pt' m', area_map a (page_table ms) m = Ok ((set_frames a E, pt'), m') /\
    (forall v, is_Some (E !! v) <-> in_range a v) /\
    pushed lo hi m R ms G D P a m' (mkMemorySet pt' (areas ms ++ [set_frames a E]))
      ((area_pte a <$> E) ∪ G) (E ∪ D) (((fun _ => zero_page) <$> E) ∪ P).
Proof.
  intros Hms Hfr Ht Hroom. pose proof Hfr as (Hr & Hdf & Hfree). pose proof Hr as [Hrg Hpm].
  destruct (map_framed lo hi (vpns (vpn_range a)) m R _ G D P a (ms_space _ _ _ _ _ _ _ _ Hms) Ht Hpm)
    as (E & pt' & m' & Ef & HE & Hsp & Hs & Hroot & Hu).
  { apply NoDup_seqZ. }
  { intros v Hv%elem_of_vpns. rewrite Hdf. pose proof (Hfree v Hv). unfold in_range in Hv.
    split_and!; [lia|lia|done|by eapply data_mapped|apply lookup_empty]. }
  { by rewrite vpns_length. }
  rewrite Hdf, map_union_empty in Ef. rewrite vpns_length in Hu by done.
  assert (HEv : forall v, is_Some (E !! v) <-> in_range a v) by (intros v; rewrite (dom_lookup_in E _ v HE); apply elem_of_vpns).
  assert (Hout : forall v, ~ in_range a v -> E !! v = None) by (intros v Hn; apply eq_None_not_Some; by rewrite HEv).
  assert (Hother : forall v, ~ in_range a v -> ((area_pte a <$> E) ∪ G) !! v = G !! v /\ (E ∪ D) !! v = D !! v /\
    (((fun _ => zero_page) <$> E) ∪ P) !! v = P !! v).
  { intros v Hn%Hout. by rewrite !lookup_union_r by (by rewrite ?lookup_fmap, Hn). }
  exists E, pt', m'. split_and!; [done|done|]. split; [|by eexists|done|done|done|done].
  eapply (push_ok _ _ _ _ _ _ _ _ a); [done|done|done|done| |done|intros v Hn; by destruct (Hother v Hn) as (? & ? & ?)].
  split; [done| | |].
  - intros v _ Hv. change (in_range a v) in Hv. apply HEv in Hv as [p Hp]. exists p. cbn [data_frames set_frames].
    split_and!; [done|by apply lookup_union_Some_l|]. apply lookup_union_Some_l. by rewrite lookup_fmap, Hp.
  - cbn [set_frames map_type]. congruence.
  - intros v Hv. cbn [data_frames set_frames] in Hv. split; [done|]. by apply HEv.
Qed.

Lemma push_framed lo hi m R ms G D P a : ms_ok lo hi m R ms G D P -> fresh_area G a -> map_type a = Framed ->
  used (page_table ms) D R + 3 * pages a <= hi - lo ->
  exists ms' m' G' D' P', push ms a None m = Ok (ms', m') /\ pushed lo hi m R ms G D P a m' ms' G' D' P' /\
    forall v, in_range a v -> P' !! v = Some zero_page.
Proof.
  intros Hms Hfr Ht Hroom. destruct (area_map_framed _ _ _ _ _ _ _ _ _ Hms Hfr Ht Hroom) as (E & pt' & m' & Ef & HE & Hpu).
  eexists _, m', _, _, _. split_and!; [|exact Hpu|].
  - unfold push. by rewrite (bind_Ok _ _ _ _ _ Ef).
  - intros v [p Hp]%HE. apply lookup_union_Some_l. by rewrite lookup_fmap, Hp.
Qed.

Lemma push_data lo hi m R ms G D P a data : ms_ok lo hi m R ms G D P -> fresh_area G a -> map_type a = Framed ->
  used (page_table ms) D R + 3 * pages a <= hi - lo -> 0 < pages a -> zlen data <= 4096 * pages a ->
  exists ms' m' G' D' P', push ms a (Some data) m = Ok (ms', m') /\ pushed lo hi m R ms G D P a m' ms' G' D' P' /\
    forall v, in_range a v -> P' !! v = Some (page_image data (v - get_start (vpn_range a))).
Proof.
  intros Hms Hfr Ht Hroom Hpos Hlen. pose proof Hfr as (Hr & _ & _). pose proof Hr as [Hrg Hpm].
  destruct (area_map_framed _ _ _ _ _ _ _ _ _ Hms Hfr Ht Hroom) as (E & pt' & m1 & Ef & HE & [Hok Har Hsm Htk Hoth Hus]).
  set (G' := (area_pte a <$> E) ∪ G) in *. set (D' := E ∪ D) in *. set (P1 := ((fun _ => zero_page) <$> E) ∪ P) in *.
  destruct (copy_loop_ok lo hi (get_start (vpn_range a)) (pages a) data (S (length data)) 0 m1 R pt' G' D' P1)
    as (P' & m2 & E2 & Hsp & Hs2 & HP'); [apply Hok|unfold pages, zlen in *; lia..| |].
  { intros v Hv. assert (Hin : in_range a v) by (unfold in_range, pages in *; lia).
    destruct (proj2 (HE v) Hin) as [p Hp]. exists p, (Z.lor (map_perm a) PTE_V). split_and!.
    - by apply lookup_union_Some_l.
    - apply lookup_union_Some_l. by rewrite lookup_fmap, Hp.
    - by apply flags_valid_range.
    - by apply flags_valid_range.
    - apply lookup_union_Some_l. by rewrite lookup_fmap, Hp. }
  rewrite Z.add_0_r in *. exists (mkMemorySet pt' (areas ms ++ [set_frames a E])), m2, G', D', P'. split_and!; [|split|].
  - unfold push. rewrite (bind_Ok _ _ _ _ _ Ef). unfold copy_data. cbn [map_type set_frames vpn_range]. rewrite Ht.
    rewrite bind_assoc. cbn [assert bool_decide]. change (4096 * 0) with 0 in E2.
    rewrite bool_decide_true by done. cbn [assert]. rewrite bind_ret. by rewrite (bind_Ok _ _ _ _ _ E2).
  - destruct Hok as [? ? ? ? ? ?]. split; done.
  - done.
  - by eapply same_on_trans.
  - done.
  - intros v Hn. destruct (Hoth v Hn) as (? & ? & ?). split_and!; [done|done|]. rewrite HP', decide_False; [done|].
    unfold in_range, pages in *. lia.
  - done.
  - intros v Hv. rewrite HP', decide_True; [done|]. unfold in_range, pages in *. lia.
Qed.

Lemma push_identical_ok lo hi m R ms G D P a : ms_ok lo hi m R ms G D P -> fresh_area G a -> map_type a = Identical ->
  used (page_table ms) D R + 2 * area_tables a <= hi - lo ->
  exists ms' m' G', push ms a None m = Ok (ms', m') /\ pushed lo hi m R ms G D P a m' ms' G' D P /\
    (forall v, in_range a v -> G' !! v = Some (area_pte a v)) /\ used (page_table ms') D R <= used (page_table ms) D R + 2 * area_tables a.
Proof.
  intros Hms Hfr Ht Hroom. pose proof Hfr as (Hr & Hdf & Hfree). pose proof Hr as [Hrg Hpm].
  assert (Hpn : 0 <= pages a) by (unfold pages; lia).
  assert (En : Z.of_nat (Z.to_nat (pages a)) = pages a) by lia. pose proof (leaf_tables_le (get_start (vpn_range a)) (pages a) false Hpn) as Hle. fold (area_tables a) in Hle.
  destruct (map_identical lo hi (Z.to_nat (pages a)) (get_start (vpn_range a)) false m R _ G D P a (ms_space _ _ _ _ _ _ _ _ Hms) Ht Hpm)
    as (G' & pt' & m' & Ef & HG & Hsp & Hs & Hroot & Hu); [done| | |]; rewrite En in *; change (seqZ (get_start (vpn_range a)) (pages a)) with (vpns (vpn_range a)) in *.
  { intros v Hv%elem_of_vpns. pose proof (Hfree v Hv). unfold in_range in Hv. split; [lia|done]. }
  { exact Hroom. }
  fold (area_tables a) in Hu.
  assert (HGin : forall v, in_range a v -> G' !! v = Some (area_pte a v)).
  { intros v Hv. rewrite HG, decide_True; [done|]. by apply elem_of_vpns. }
  assert (HGout : forall v, ~ in_range a v -> G' !! v = G !! v).
  { intros v Hv. rewrite HG, decide_False; [done|]. by rewrite elem_of_vpns. }
  exists (mkMemorySet pt' (areas ms ++ [a])), m', G'. split_and!; [|split|done|exact Hu].
  - unfold push, area_map. by rewrite (bind_Ok _ _ _ _ _ Ef).
  - eapply (push_ok _ _ _ _ _ _ _ _ a); [done|done|done|done| |done|by auto]. split; [done|congruence| |].
    + intros v _ Hv. split; [|by apply HGin]. eapply data_mapped; [done|]. by apply Hfree.
    + intros v. rewrite Hdf, lookup_empty. by intros [??].
  - eexists. split; [done|]. done.
  - done.
  - done.
  - by auto.
  - cbn [page_table]. lia.
Qed.

End MsOps.
