(* ===== verification/MsLife.v ===== *)
(** * Creation, copy and destruction of address spaces *)

From stdpp Require Import sorting.
From S2P Require Import Prelude Address Frames PageTable PtInv PtOps Space MemorySet AreaOps MsOps.

Section MsLife.
Context {F : Type} `{FrameAllocatorSpec F}.
Implicit Types (m : Machine F) (R : gset Z) (pt : PageTable) (G D E : gmap Z Z) (P : gmap Z (list byte)) (a b : MapArea)
  (ms : MemorySet).

(** ** An address space with the trampoline only *)
Definition trampoline_pte (s : Z) : Z := pte_new (s / 4096) (Z.lor (Z.lor PTE_R PTE_X) PTE_V).

Definition trampoline_ok (s : Z) : Prop := 0 <= s < 2 ^ 56 /\ s mod 4096 = 0.

Lemma base_ok lo hi m R s : machine_ok lo hi m R -> trampoline_ok s -> Z.of_nat (size R) + 3 <= hi - lo ->
  exists ms m', bind new_bare (map_trampoline s) m = Ok (ms, m') /\ areas ms = [] /\
    ms_ok lo hi m' R ms {[trampoline_vpn := trampoline_pte s]} ∅ ∅ /\ same_on R m m' /\
    used (page_table ms) ∅ R <= Z.of_nat (size R) + 3.
Proof.
  intros Hm [Hs Hal] Hroom. destruct (space_new lo hi m R Hm) as (p & m1 & E1 & Hsp1 & Hs1 & Hu1); [lia|].
  assert (Hpg : 0 <= s / 4096 < 2 ^ 44) by dlia.
  destruct (space_map _ _ _ _ _ _ _ _ trampoline_vpn (s / 4096) (Z.lor PTE_R PTE_X) Hsp1)
    as (pt' & m2 & E2 & Hsp2 & Hs2 & Hr2 & Hu2); [done|done|done|done|lia|].
  exists (mkMemorySet pt' []), m2. split_and!; [|done| |by eapply same_on_trans|cbn [page_table]; lia].
  - unfold new_bare. rewrite bind_assoc, (bind_Ok _ _ _ _ _ E1), bind_ret. unfold map_trampoline.
    change (page_of (va_from TRAMPOLINE)) with (Ok trampoline_vpn). cbn [lift]. rewrite bind_ret.
    unfold page_of. rewrite pa_from_mod, Z.mod_small, page_offset_mod, Hal by done. cbn [lift Z.eqb].
    rewrite bind_ret. unfold floor. change PAGE_SIZE with 4096. cbn [page_table]. by rewrite (bind_Ok _ _ _ _ _ E2).
  - split; [done|constructor|done|intros v; rewrite lookup_empty; by intros [??]| |].
    + intros v [x [<- _]%lookup_singleton_Some]. by left.
    + rewrite lookup_singleton_eq. split; [eauto|]. by intros (x & ?%not_elem_of_nil & _).
Qed.

(** ** [insert_framed_area] *)
Definition va_area (start_va end_va : Z) (t : MapType) (perm : Z) : MapArea :=
  mkArea (mkRange (start_va / 4096) (ceil_div end_va 4096)) ∅ t perm.

Lemma area_new_ok s e t perm : 0 <= s -> s / 4096 <= ceil_div e 4096 -> 0 <= e < 2 ^ 39 ->
  area_new s e t perm = Ok (va_area s e t perm).
Proof.
  intros Hs Hse He. unfold area_new. rewrite ceil_div_page by (change PAGE_SIZE with 4096; lia). unfold range_new, floor.
  change PAGE_SIZE with 4096. by rewrite (proj2 (Z.leb_le _ _) Hse).
Qed.

(** ** Removing an area *)
Lemma separated_delete l1 a l2 : separated (l1 ++ a :: l2) -> separated (l1 ++ l2) /\
  forall v, covered (l1 ++ l2) v -> ~ in_range a v.
Proof.
  rewrite !separated_app. cbn [separated]. rewrite Forall_forall. intros (H1 & (Ha & H2) & H12). split.
  - split_and!; [done|done|]. intros v Hv (x & Hx & Hvx). apply (H12 v Hv). exists x. split; [by right|done].
  - intros v [Hc|(x & Hx & Hvx)]%covered_app Hv; [|by apply (Ha x Hx v)].
    apply (H12 v Hc). exists a. split; [by left|done].
Qed.

Lemma without_own lo hi m R ms G D P a : ms_ok lo hi m R ms G D P -> a ∈ areas ms ->
  without (vpns (vpn_range a)) (data_frames a) = ∅.
Proof.
  intros Hms Ha. apply (proj1 (Forall_forall _ _) (ms_areas _ _ _ _ _ _ _ _ Hms)) in Ha as [_ _ _ Hd].
  apply map_eq. intros v. rewrite lookup_without, lookup_empty. destruct (decide (v ∈ vpns (vpn_range a))) as [|Hn]; [done|].
  destruct (data_frames a !! v) eqn:Hv; [|done]. exfalso. apply Hn, elem_of_vpns, Hd. eauto.
Qed.

Lemma remove_area_ok lo hi m R ms G D P l1 a l2 : ms_ok lo hi m R ms G D P -> areas ms = l1 ++ a :: l2 ->
  map_type a = Framed -> Forall (fun b => get_start (vpn_range b) <> get_start (vpn_range a)) l1 ->
  let l := vpns (vpn_range a) in
  exists m', remove_area_with_start_vpn ms (get_start (vpn_range a)) m = Ok (mkMemorySet (page_table ms) (l1 ++ l2), m') /\
    ms_ok lo hi m' R (mkMemorySet (page_table ms) (l1 ++ l2)) (without l G) (without l D) (without l P) /\ same_on R m m'.
Proof.
  intros Hms Har Ht Hfirst l. pose proof Hms as [Hsp Ha Hsep Hdat Hent [Ht1 Ht2]].
  assert (Hin : a ∈ areas ms) by (rewrite Har; apply elem_of_app; right; left).
  pose proof (proj1 (Forall_forall _ _) Ha a Hin) as [Hr Hf _ _]. rewrite Har in *.
  destruct (unmap_framed lo hi l m R (page_table ms) G D P a Hsp Ht) as (m' & E & Hsp' & Hs').
  { apply NoDup_seqZ. }
  { intros v Hv%elem_of_vpns. destruct (Hf v Ht Hv) as (p & ? & ? & ?). split; eauto. }
  destruct (separated_delete _ _ _ Hsep) as [Hsep' Hno].
  exists m'. split_and!; [| |done].
  - unfold remove_area_with_start_vpn. rewrite Har.
    assert (Hfind : list_find (fun area => get_start (vpn_range area) = get_start (vpn_range a)) (l1 ++ a :: l2) = Some (length l1, a)).
    { apply list_find_Some. split_and!; [by rewrite lookup_app_r, Nat.sub_diag by lia|done|].
      intros j y Hy Hj. rewrite lookup_app_l in Hy by done. by apply (Forall_lookup_1 _ _ _ _ Hfirst Hy). }
    rewrite Hfind. unfold area_unmap. rewrite (bind_Ok _ _ _ _ _ E). unfold l.
    rewrite (without_own _ _ _ _ _ _ _ _ a Hms) by (rewrite Har; done).
    rewrite delete_take_drop, take_app_length, drop_app_ge by lia.
    replace (S (length l1) - length l1)%nat with 1%nat by lia. done.
  - assert (Hkeep : forall A (M : gmap Z A) v, ~ in_range a v -> without l M !! v = M !! v).
    { intros A M v Hv. rewrite lookup_without, decide_False; [done|]. unfold l. by rewrite elem_of_vpns. }
    assert (Hgone : forall A (M : gmap Z A) v, is_Some (without l M !! v) -> ~ in_range a v /\ is_Some (M !! v)).
    { intros A M v. rewrite lookup_without. unfold l. destruct (decide _) as [|Hn]; [by intros [??]|].
      rewrite elem_of_vpns in Hn. done. }
    assert (Hcov : forall v, ~ in_range a v -> covered (l1 ++ a :: l2) v -> covered (l1 ++ l2) v).
    { intros v Hv (x & Hx & Hvx). exists x. split; [|done]. apply elem_of_app in Hx as [Hx|[->|Hx]%elem_of_cons];
        [|done|]; apply elem_of_app; auto. }
    assert (Hnt : ~ in_range a trampoline_vpn) by (intros Hv; apply Ht2; by exists a).
    split; cbn [areas page_table]; [done| |done| | |].
    + eapply areas_ok_ext; [|apply Forall_app in Ha as [? [_ ?]%Forall_cons]; by apply Forall_app].
      intros v Hv%Hno. split; by apply Hkeep.
    + intros v [Hn Hv]%Hgone. by apply Hcov, Hdat.
    + intros v [Hn Hv]%Hgone. destruct (Hent v Hv); [by left|right; by apply Hcov].
    + split; [by rewrite Hkeep|]. intros (x & Hx & Hvx). apply Ht2. exists x. split; [|done].
      apply elem_of_app in Hx as [?|?]; apply elem_of_app; [by left|right; by right].
Qed.

(** ** Dropping *)
Definition ms_frames ms : list Z := concat (area_frames <$> areas ms).

Lemma elem_of_area_frames a p : p ∈ area_frames a <-> exists v, data_frames a !! v = Some p.
Proof.
  unfold area_frames. rewrite (merge_sort_Permutation key_le (map_to_list (data_frames a))), list_elem_of_fmap. split.
  - intros ([v q] & -> & Hv%elem_of_map_to_list). eauto.
  - intros (v & Hv). exists (v, p). split; [done|]. by apply elem_of_map_to_list.
Qed.

Lemma area_frames_nodup a : (forall v w p, data_frames a !! v = Some p -> data_frames a !! w = Some p -> v = w) ->
  NoDup (area_frames a).
Proof.
  intros Hi. unfold area_frames. rewrite (merge_sort_Permutation key_le (map_to_list (data_frames a))).
  apply NoDup_fmap_2_strong; [|apply NoDup_map_to_list].
  intros [v p] [w q] Hv%elem_of_map_to_list Hw%elem_of_map_to_list E. cbn in E. subst q. f_equal. eauto.
Qed.

Lemma areas_frames_nodup l G D : Forall (area_ok G D) l -> separated l ->
  (forall v w p, D !! v = Some p -> D !! w = Some p -> v = w) -> NoDup (concat (area_frames <$> l)).
Proof.
  induction l as [|a l IH]; intros Hok Hsep Hi; [constructor|]. apply Forall_cons in Hok as [Ha Hl]. destruct Hsep as [Hap Hsep].
  assert (Hdat : forall b v p, area_ok G D b -> data_frames b !! v = Some p -> D !! v = Some p /\ in_range b v).
  { intros b v p [_ Hf _ Hd] Hv. destruct (Hd v) as [Ht Hin]; [eauto|]. destruct (Hf v Ht Hin) as (q & Hq & ? & _).
    split; [congruence|done]. }
  cbn [fmap list_fmap concat]. apply NoDup_app. split_and!; [|intros p Hp Hc|by apply IH].
  - apply area_frames_nodup. intros v w p Hv Hw. apply Hdat in Hv as [Hv _], Hw as [Hw _]; [|done..]. eauto.
  - apply elem_of_area_frames in Hp as [v Hv]. apply elem_of_concat_fmap in Hc as (b & Hb & Hpf).
    apply elem_of_area_frames in Hpf as [w Hw]. apply Hdat in Hv as [Hv Hvi]; [|done].
    apply Hdat in Hw as [Hw Hwi]; [|by eapply Forall_forall]. assert (v = w) as <- by eauto.
    by apply (proj1 (Forall_forall _ _) Hap b Hb v).
Qed.

(** The trackers of the areas are the data frames. *)
Definition tracks ms D : Prop := NoDup (ms_frames ms) /\ forall p, p ∈ ms_frames ms <-> exists v, D !! v = Some p.

Lemma ms_tracks lo hi m R ms G D P : ms_ok lo hi m R ms G D P -> tracks ms D.
Proof.
  intros [Hsp Ha Hsep Hdat _ _]. split; [by eapply areas_frames_nodup; [| |apply Hsp]|].
  intros p. unfold ms_frames. rewrite elem_of_concat_fmap. split.
  - intros (a & Hin & Hp). apply elem_of_area_frames in Hp as [v Hv].
    apply (proj1 (Forall_forall _ _) Ha) in Hin as [_ Hf _ Hd]. destruct (Hd v) as [Ht Hr]; [eauto|].
    destruct (Hf v Ht Hr) as (q & Hq & ? & _). exists v. congruence.
  - intros [v Hv]. destruct (Hdat v) as (a & Hin & Hr); [eauto|]. exists a. split; [done|]. apply elem_of_area_frames. exists v.
    apply (proj1 (Forall_forall _ _) Ha) in Hin as [_ Hf Hi _]. destruct (map_type a).
    + destruct (Hi v eq_refl Hr). congruence.
    + destruct (Hf v eq_refl Hr) as (q & ? & ? & _). congruence.
Qed.

Lemma drop_areas l m : for_each l (fun area _ => drop_frames (area_frames area)) tt m = drop_frames (concat (area_frames <$> l)) m.
Proof.
  revert m. induction l as [|a l IH]; intros m; [done|]. cbn [for_each fmap list_fmap concat].
  generalize (area_frames a). intros ps. revert m. induction ps as [|p ps IHp]; intros m; [apply IH|].
  unfold drop_frames in *. cbn [for_each app]. rewrite bind_assoc. unfold bind at 1 3. destruct (frame_dealloc p m) as [[[] m1]|]; [|done].
  apply IHp.
Qed.

Lemma owned_img pt D p : (exists v, D !! v = Some p) -> p ∈ owned pt D.
Proof. intros Hv. apply elem_of_owned. by right. Qed.

(** [recycle_data_pages] returns the data frames; the tables stay. *)
Lemma recycle_ok lo hi m R ms G D P : space lo hi m R (page_table ms) G D P -> tracks ms D ->
  exists m', recycle_data_pages ms m = Ok (mkMemorySet (page_table ms) [], m') /\
    space lo hi m' R (page_table ms) G ∅ ∅ /\ ram m' = ram m.
Proof.
  intros [Hm Hd HT Hdom Hnd Hi Hs HP] [Hndf Hfr].
  destruct (drop_frames_ok lo hi (ms_frames ms) m _ Hm Hndf) as (f' & E & Hm').
  { intros p Hp. apply elem_of_union_l. by apply owned_img, Hfr. }
  assert (Ho : forall p, p ∈ owned (page_table ms) ∅ <-> p ∈ frames (page_table ms)).
  { intros p. rewrite elem_of_owned. split; [intros [?|[v []%lookup_empty_Some]]; done|by left]. }
  assert (Hset : (owned (page_table ms) D ∪ R) ∖ list_to_set (ms_frames ms) = owned (page_table ms) ∅ ∪ R).
  { apply set_eq. intros p. rewrite elem_of_difference, !elem_of_union, elem_of_list_to_set, Ho, elem_of_owned, Hfr.
    split; [tauto|]. intros [Hp|Hp]; [split; [tauto|intros [v Hv]; by apply (Hs v p)]|].
    split; [tauto|]. intros Hv. apply (Hd p); [by apply owned_img|done]. }
  rewrite Hset in Hm'. eexists. split_and!; [unfold recycle_data_pages; rewrite (bind_Ok _ _ _ _ _ (eq_trans (drop_areas _ _) E)); done| |done].
  split; [done| |done|done|done|by intros v w q ?%lookup_empty_Some|by intros v q ?%lookup_empty_Some|intros v; by rewrite !lookup_empty].
  intros p Hp%Ho. apply (Hd p). apply elem_of_owned. by left.
Qed.

(** Dropping the address space returns everything it owns. *)
Lemma drop_ok lo hi m R ms G D P : space lo hi m R (page_table ms) G D P -> tracks ms D ->
  exists m', drop_memory_set ms m = Ok (tt, m') /\ machine_ok lo hi m' R /\ ram m' = ram m.
Proof.
  intros [Hm Hd HT Hdom Hnd Hi Hs HP] [Hndf Hfr].
  destruct (drop_frames_ok lo hi (frames (page_table ms)) m _ Hm Hnd) as (f1 & E1 & Hm1).
  { intros p Hp. apply elem_of_union_l, elem_of_owned. by left. }
  destruct (drop_frames_ok lo hi (ms_frames ms) _ _ Hm1 Hndf) as (f2 & E2 & Hm2).
  { intros p Hp. apply elem_of_difference. split; [apply elem_of_union_l; by apply owned_img, Hfr|].
    rewrite elem_of_list_to_set. apply Hfr in Hp as [v Hv]. by apply (Hs v p). }
  eexists. split_and!; [unfold drop_memory_set; rewrite (bind_Ok _ _ _ _ _ E1); rewrite drop_areas; exact E2| |done].
  replace R with ((owned (page_table ms) D ∪ R) ∖ list_to_set (frames (page_table ms)) ∖ list_to_set (ms_frames ms)); [done|].
  apply set_eq. intros p. rewrite !elem_of_difference, elem_of_union, !elem_of_list_to_set, elem_of_owned, Hfr.
  split; [tauto|]. intros Hp. assert (Hno : p ∉ owned (page_table ms) D) by (intros ?; by apply (Hd p)).
  rewrite elem_of_owned in Hno. tauto.
Qed.

(** ** [from_existed_user] *)
Lemma space_other lo hi m0 m R pt G D P pt' G' D' P' :
  space lo hi m0 R pt G D P -> space lo hi m (owned pt D ∪ R) pt' G' D' P' -> same_on (owned pt D ∪ R) m0 m ->
  space lo hi m (owned pt' D' ∪ R) pt G D P.
Proof.
  intros Hp Hc Hs. eapply space_frame; [exact Hp|eapply same_on_sub; [|exact Hs]; set_solver| |].
  - replace (owned pt D ∪ (owned pt' D' ∪ R)) with (owned pt' D' ∪ (owned pt D ∪ R)) by set_solver. apply Hc.
  - pose proof (sp_disj _ _ _ _ _ _ _ _ Hp). pose proof (sp_disj _ _ _ _ _ _ _ _ Hc). set_solver.
Qed.

(** Page [v] of a space is a data page. *)
Definition data_page G D (v : Z) : Prop := exists p flags, D !! v = Some p /\ G !! v = Some (pte_new p flags) /\ 0 <= flags < 2 ^ 8.

Lemma area_data_page G D a v : area_ok G D a -> map_type a = Framed -> in_range a v -> data_page G D v.
Proof.
  intros [[_ Hpm] Hf _ _] Ht Hv. destruct (Hf v Ht Hv) as (p & _ & HD & HG). exists p, (Z.lor (map_perm a) PTE_V).
  split_and!; [done|done|by apply flags_valid_range..].
Qed.

Section Copy.
Variables (lo hi : Z) (m0 : Machine F) (R : gset Z) (us : MemorySet) (G D : gmap Z Z) (P : gmap Z (list byte)).
Hypothesis Hus : space lo hi m0 R (page_table us) G D P.
Let Rc := owned (page_table us) D ∪ R.

Lemma copy_page_ok m ms G' D' P' v : space lo hi m Rc (page_table ms) G' D' P' -> same_on Rc m0 m ->
  data_page G D v -> data_page G' D' v ->
  exists x m', P !! v = Some x /\ copy_page us ms v m = Ok (tt, m') /\
    space lo hi m' Rc (page_table ms) G' D' (<[v := x]> P') /\ same_on Rc m m'.
Proof.
  intros Hc Hs (p & fl & HD & HG & Hf) (q & fl' & HD' & HG' & Hf').
  pose proof (space_other _ _ _ _ _ _ _ _ _ _ _ _ _ Hus Hc Hs) as Hp.
  destruct (space_page _ _ _ _ _ _ _ _ _ _ Hp HD) as (x & HPx & Hrx & Hlx).
  destruct (space_page _ _ _ _ _ _ _ _ _ _ Hc HD') as (y & HPy & Hry & Hly).
  destruct (space_write _ _ _ _ _ _ _ _ _ _ x Hc HD' Hlx) as (m' & Ew & Hc' & Hs' & _).
  exists x, m'. split_and!; [done| |done|done]. unfold copy_page.
  rewrite (bind_Ok _ _ _ _ _ (translate_ppn_ok _ _ _ _ _ _ _ _ _ _ _ Hp HG (space_frame_range _ _ _ _ _ _ _ _ _ _ Hp HD) Hf)).
  rewrite (bind_Ok _ _ _ _ _ (translate_ppn_ok _ _ _ _ _ _ _ _ _ _ _ Hc HG' (space_frame_range _ _ _ _ _ _ _ _ _ _ Hc HD') Hf')).
  assert (Ex : read_page p m = Ok (x, m)) by (unfold read_page; by rewrite Hrx).
  assert (Ey : read_page q m = Ok (y, m)) by (unfold read_page; by rewrite Hry).
  rewrite (bind_Ok _ _ _ _ _ Ex), (bind_Ok _ _ _ _ _ Ey). rewrite copy_from_slice_Ok by (unfold zlen; lia).
  cbn [lift Z.to_nat]. rewrite bind_ret. change (Z.to_nat 0) with 0%nat. rewrite splice_all by congruence. done.
Qed.

Lemma copy_pages_ok ms G' D' l : forall m P', space lo hi m Rc (page_table ms) G' D' P' -> same_on Rc m0 m ->
  (forall v, v ∈ l -> data_page G D v /\ data_page G' D' v) ->
  exists P'' m', for_each l (fun vpn _ => copy_page us ms vpn) tt m = Ok (tt, m') /\
    space lo hi m' Rc (page_table ms) G' D' P'' /\ same_on Rc m0 m' /\
    forall v, P'' !! v = if decide (v ∈ l) then P !! v else P' !! v.
Proof.
  induction l as [|v l IH]; intros m P' Hc Hs Hl.
  { exists P', m. split_and!; [done|done|done|]. intros v. by rewrite decide_False by (by intros ?%not_elem_of_nil). }
  destruct (Hl v ltac:(by left)) as [Hd Hd'].
  destruct (copy_page_ok m ms G' D' P' v Hc Hs Hd Hd') as (x & m1 & Hx & E1 & Hc1 & Hs1).
  destruct (IH m1 _ Hc1) as (P'' & m2 & E2 & Hc2 & Hs2 & HP2); [by eapply same_on_trans|intros w Hw; apply Hl; by right|].
  exists P'', m2. split_and!; [|done|done|].
  - cbn [for_each]. by rewrite (bind_Ok _ _ _ _ _ E1).
  - intros w. rewrite HP2, lookup_insert. destruct (decide (w ∈ l)) as [Hw|Hw]; [by rewrite decide_True by (by right)|].
    destruct (decide (v = w)) as [<-|Hne]; [by rewrite decide_True by left|].
    rewrite decide_False; [done|]. intros [?|?]%elem_of_cons; congruence.
Qed.

End Copy.
End MsLife.

(** ** The copy of an address space *)

Section Fork.
Context {F : Type} `{FrameAllocatorSpec F}.
Implicit Types (m : Machine F) (R : gset Z) (G D : gmap Z Z) (P : gmap Z (list byte)) (a : MapArea) (ms : MemorySet).

(** An area up to its frames. *)
Definition shape a : VPNRange * MapType * Z := (vpn_range a, map_type a, map_perm a).

Definition total_pages (l : list MapArea) : Z := foldr (fun a n => pages a + n) 0 l.

Lemma shape_range a b v : shape a = shape b -> in_range a v <-> in_range b v.
Proof. intros [= Hr _ _]. unfold in_range. by rewrite Hr. Qed.

Lemma shapes_elem (l l' : list MapArea) a : shape <$> l = shape <$> l' -> a ∈ l -> exists b, b ∈ l' /\ shape a = shape b.
Proof.
  intros E Ha. assert (Hs : shape a ∈ shape <$> l') by (rewrite <- E; apply list_elem_of_fmap; eauto).
  apply list_elem_of_fmap in Hs as (b & ? & ?). eauto.
Qed.

Lemma shapes_covered (l l' : list MapArea) v : shape <$> l = shape <$> l' -> covered l v -> covered l' v.
Proof. intros E (a & Ha & Hv). destruct (shapes_elem _ _ _ E Ha) as (b & Hb & Hs). exists b. split; [done|]. by apply (shape_range a b). Qed.

Section Copies.
Variables (lo hi s : Z) (m0 : Machine F) (R : gset Z) (us : MemorySet) (G D : gmap Z Z) (P : gmap Z (list byte)).
Hypothesis Hus : ms_ok lo hi m0 R us G D P.
Hypothesis Hframed : Forall (fun a => map_type a = Framed) (areas us).
Let Rc := owned (page_table us) D ∪ R.

(** The copy after the areas [l]. *)
Record copied (l : list MapArea) m ms G' D' P' : Prop := {
  co_ok : ms_ok lo hi m Rc ms G' D' P';
  co_same : same_on Rc m0 m;
  co_shape : shape <$> areas ms = shape <$> l;
  co_pages v : covered l v -> P' !! v = P !! v;
  co_tramp : G' !! trampoline_vpn = Some (trampoline_pte s);
  co_used : used (page_table ms) D' Rc <= Z.of_nat (size Rc) + 3 + 3 * total_pages l;
}.

Lemma total_app l a : total_pages (l ++ [a]) = total_pages l + pages a.
Proof. induction l as [|b l IH]; cbn [app total_pages foldr] in *; unfold total_pages in *; lia. Qed.

Lemma copy_area_ok l a l2 m ms G' D' P' : areas us = l ++ a :: l2 -> copied l m ms G' D' P' ->
  Z.of_nat (size Rc) + 3 + 3 * total_pages (l ++ [a]) <= hi - lo ->
  exists ms' m' G'' D'' P'', copy_area us a ms m = Ok (ms', m') /\ copied (l ++ [a]) m' ms' G'' D'' P''.
Proof.
  intros Har [Hok Hs Hsh Hpg Ht Hu] Hroom. rewrite total_app in *.
  assert (Hin : a ∈ areas us) by (rewrite Har; apply elem_of_app; right; left).
  pose proof (proj1 (Forall_forall _ _) (ms_areas _ _ _ _ _ _ _ _ Hus) a Hin) as Haok.
  pose proof (proj1 (Forall_forall _ _) Hframed a Hin) as Hft. pose proof Haok as [[Hrg Hpm] _ _ _].
  set (a' := mkArea (vpn_range a) ∅ (map_type a) (map_perm a)).
  assert (Ea : from_another a = Ok a').
  { unfold from_another, range_new. rewrite (proj2 (Z.leb_le _ _)) by lia. unfold a'. by destruct (vpn_range a). }
  assert (Hno : forall v, in_range a v -> ~ covered l v /\ v <> trampoline_vpn).
  { intros v Hv. split.
    - pose proof (ms_sep _ _ _ _ _ _ _ _ Hus) as Hsep. rewrite Har, separated_app in Hsep. destruct Hsep as (_ & _ & Hno).
      intros Hc. apply (Hno v Hc). exists a. split; [by left|done].
    - intros ->. apply (ms_tramp _ _ _ _ _ _ _ _ Hus). by exists a. }
  assert (Hfresh : fresh_area G' a').
  { split_and!; [by split|done|]. intros v Hv. change (in_range a v) in Hv. destruct (Hno v Hv) as [Hc Hvt].
    destruct (G' !! v) eqn:E; [|done]. exfalso. destruct (ms_entries _ _ _ _ _ _ _ _ Hok v); [eauto|done|].
    apply Hc. by apply (shapes_covered (areas ms)). }
  destruct (push_framed lo hi m Rc ms G' D' P' a' Hok Hfresh Hft) as (ms1 & m1 & G1 & D1 & P1 & E1 & [Hok1 (b & Hb & Hbr & Hbp & Hbt) Hs1 _ Hoth Hu1] & _).
  { change (pages a') with (pages a). lia. }
  assert (Hbok : area_ok G1 D1 b).
  { apply (proj1 (Forall_forall _ _) (ms_areas _ _ _ _ _ _ _ _ Hok1)). rewrite Hb. apply elem_of_app. right. by left. }
  destruct (copy_pages_ok lo hi m0 R us G D P (ms_space _ _ _ _ _ _ _ _ Hus) ms1 G1 D1 (vpns (vpn_range a)) m1 P1)
    as (P2 & m2 & E2 & Hsp2 & Hs2 & HP2); [apply Hok1|by eapply same_on_trans| |].
  { intros v Hv%elem_of_vpns. split; [by apply (area_data_page _ _ a)|]. apply (area_data_page _ _ b); [done|by rewrite Hbt|].
    unfold in_range. by rewrite Hbr. }
  exists ms1, m2, G1, D1, P2. split; [|split].
  - unfold copy_area. rewrite Ea. cbn [lift]. rewrite bind_ret, (bind_Ok _ _ _ _ _ E1). by rewrite (bind_Ok _ _ _ _ _ E2).
  - destruct Hok1. split; done.
  - done.
  - rewrite Hb, !fmap_app, Hsh. f_equal. cbn. unfold shape. by rewrite Hbr, Hbp, Hbt.
  - intros v. rewrite covered_app, covered_one, HP2. intros Hc. destruct (decide (v ∈ vpns (vpn_range a))) as [|Hv]; [done|].
    rewrite elem_of_vpns in Hv. destruct (Hoth v Hv) as (_ & _ & ->). apply Hpg. tauto.
  - destruct (Hoth trampoline_vpn) as (-> & _); [|done]. intros Hv. by destruct (Hno _ Hv).
  - change (pages a') with (pages a) in Hu1. rewrite total_app. lia.
Qed.

Lemma total_pages_nonneg l : Forall (area_ok G D) l -> 0 <= total_pages l.
Proof.
  induction 1 as [|a l [[Hr _] _ _ _] _ IH]; [done|]. assert (0 <= pages a) by (unfold pages; lia). unfold total_pages in *. cbn [foldr]. lia.
Qed.

Lemma total_pages_app l1 l2 : total_pages (l1 ++ l2) = total_pages l1 + total_pages l2.
Proof. induction l1 as [|b l IH]; unfold total_pages in *; cbn [app foldr] in *; lia. Qed.

Lemma copy_areas_ok l2 : forall l m ms G' D' P', areas us = l ++ l2 -> copied l m ms G' D' P' ->
  Z.of_nat (size Rc) + 3 + 3 * total_pages (areas us) <= hi - lo ->
  exists ms' m' G'' D'' P'', for_each l2 (copy_area us) ms m = Ok (ms', m') /\ copied (areas us) m' ms' G'' D'' P''.
Proof.
  induction l2 as [|a l2 IH]; intros l m ms G' D' P' Har Hco Hroom.
  { rewrite app_nil_r in Har. exists ms, m, G', D', P'. by rewrite Har. }
  assert (Hl2 : 0 <= total_pages l2).
  { apply total_pages_nonneg. pose proof (ms_areas _ _ _ _ _ _ _ _ Hus) as Ha. rewrite Har in Ha.
    by apply Forall_app in Ha as [_ [_ ?]%Forall_cons]. }
  destruct (copy_area_ok l a l2 m ms G' D' P' Har Hco) as (ms1 & m1 & G1 & D1 & P1 & E1 & Hco1).
  { rewrite Har, total_pages_app in Hroom. unfold total_pages at 2 in Hroom. cbn [foldr] in Hroom. fold (total_pages l2) in Hroom.
    rewrite total_app. lia. }
  destruct (IH (l ++ [a]) m1 ms1 G1 D1 P1) as (ms2 & m2 & G2 & D2 & P2 & E2 & Hco2); [by rewrite Har, <- app_assoc|done|done|].
  exists ms2, m2, G2, D2, P2. split; [|done]. cbn [for_each]. by rewrite (bind_Ok _ _ _ _ _ E1).
Qed.

Lemma copied_all m ms G' D' P' : copied (areas us) m ms G' D' P' -> G !! trampoline_vpn = Some (trampoline_pte s) ->
  P' = P /\ forall v, pte_flags <$> G' !! v = pte_flags <$> G !! v.
Proof.
  intros [Hok Hs Hsh Hpg Ht Hu] HGt. pose proof (ms_space _ _ _ _ _ _ _ _ Hok) as Hsp. pose proof (ms_space _ _ _ _ _ _ _ _ Hus) as Hsp0.
  assert (Hpage : forall v, covered (areas us) v -> exists p q fl, 0 <= fl < 2 ^ 8 /\ D !! v = Some p /\ D' !! v = Some q /\
    G !! v = Some (pte_new p fl) /\ G' !! v = Some (pte_new q fl)).
  { intros v (a & Ha & Hv). destruct (shapes_elem _ (areas ms) a (eq_sym Hsh) Ha) as (b & Hb & Hsab).
    pose proof (proj1 (Forall_forall _ _) Hframed a Ha) as Hft. pose proof Hsab as [= _ Hbt Hbp].
    apply (proj1 (Forall_forall _ _) (ms_areas _ _ _ _ _ _ _ _ Hus)) in Ha as [[_ Hpm] Hfa _ _].
    apply (proj1 (Forall_forall _ _) (ms_areas _ _ _ _ _ _ _ _ Hok)) in Hb as [_ Hfb _ _].
    destruct (Hfa v Hft Hv) as (p & _ & HDp & HGp). destruct (Hfb v) as (q & _ & HDq & HGq); [congruence|by apply (shape_range a b)|].
    exists p, q, (Z.lor (map_perm a) PTE_V). split_and!; [by apply flags_valid_range..|done|done|done|]. rewrite HGq. unfold area_pte. by rewrite Hbp. }
  assert (Hcov : forall v, covered (areas us) v \/ (D !! v = None /\ D' !! v = None /\ (v <> trampoline_vpn -> G !! v = None /\ G' !! v = None))).
  { intros v. destruct (G !! v) eqn:E.
    - destruct (ms_entries _ _ _ _ _ _ _ _ Hus v) as [->|?]; [eauto| |by left]. right.
      assert (Hn := proj2 (ms_tramp _ _ _ _ _ _ _ _ Hus)). split_and!; [| |done].
      + apply eq_None_not_Some. intros Hd. by apply Hn, (ms_data _ _ _ _ _ _ _ _ Hus).
      + apply eq_None_not_Some. intros Hd. apply Hn. apply (shapes_covered (areas ms)); [done|]. by apply (ms_data _ _ _ _ _ _ _ _ Hok).
    - right. assert (Hn : ~ covered (areas us) v) by (intros Hc; destruct (covered_mapped _ _ _ _ _ _ _ _ v Hus Hc); congruence).
      assert (Hn' : ~ covered (areas ms) v) by (intros Hc; by apply Hn, (shapes_covered (areas ms))).
      split_and!; [| |intros Hvt; split; [done|]]; apply eq_None_not_Some; intros Hd.
      + by apply Hn, (ms_data _ _ _ _ _ _ _ _ Hus).
      + by apply Hn', (ms_data _ _ _ _ _ _ _ _ Hok).
      + destruct (ms_entries _ _ _ _ _ _ _ _ Hok v Hd); done. }
  split.
  - apply map_eq. intros v. destruct (Hcov v) as [Hc|(HD & HD' & _)]; [by apply Hpg|].
    by rewrite <- (sp_pages _ _ _ _ _ _ _ _ Hsp), <- (sp_pages _ _ _ _ _ _ _ _ Hsp0), HD, HD'.
  - intros v. destruct (decide (v = trampoline_vpn)) as [->|Hvt]; [by rewrite Ht, HGt|].
    destruct (Hcov v) as [Hc|(_ & _ & HG)]; [|by destruct (HG Hvt) as [-> ->]].
    destruct (Hpage v Hc) as (p & q & fl & Hfl & HD & HD' & -> & ->). cbn [fmap option_fmap option_map]. f_equal.
    pose proof (space_frame_range _ _ _ _ _ _ _ _ _ _ Hsp0 HD). pose proof (space_frame_range _ _ _ _ _ _ _ _ _ _ Hsp HD').
    by rewrite !pte_flags_new by done.
Qed.

End Copies.

Lemma fork_ok lo hi s m R us G D P : ms_ok lo hi m R us G D P -> Forall (fun a => map_type a = Framed) (areas us) ->
  trampoline_ok s -> G !! trampoline_vpn = Some (trampoline_pte s) ->
  used (page_table us) D R + 3 + 3 * total_pages (areas us) <= hi - lo ->
  exists ms m' G' D', from_existed_user s us m = Ok (ms, m') /\
    ms_ok lo hi m' (owned (page_table us) D ∪ R) ms G' D' P /\
    ms_ok lo hi m' (owned (page_table ms) D' ∪ R) us G D P /\
    same_on (owned (page_table us) D ∪ R) m m' /\ shape <$> areas ms = shape <$> areas us /\
    (forall v, pte_flags <$> G' !! v = pte_flags <$> G !! v) /\ G' !! trampoline_vpn = Some (trampoline_pte s) /\
    used (page_table ms) D' (owned (page_table us) D ∪ R) <= used (page_table us) D R + 3 + 3 * total_pages (areas us).
Proof.
  intros Hus Hfr Hs HGt Hroom. pose proof (ms_space _ _ _ _ _ _ _ _ Hus) as Hsp.
  pose proof (total_pages_nonneg G D _ (ms_areas _ _ _ _ _ _ _ _ Hus)).
  destruct (base_ok lo hi m (owned (page_table us) D ∪ R) s (sp_machine _ _ _ _ _ _ _ _ Hsp) Hs) as (ms0 & m1 & E1 & Ha0 & Hok0 & Hs0 & Hu0).
  { unfold used in Hroom. lia. }
  destruct (copy_areas_ok lo hi s m R us G D P Hus Hfr (areas us) [] m1 ms0 {[trampoline_vpn := trampoline_pte s]} ∅ ∅ eq_refl) as (ms & m2 & G' & D' & P' & E2 & Hco).
  { split; [exact Hok0|done|by rewrite Ha0| |apply lookup_singleton_eq|cbn [total_pages foldr]; lia].
    by intros v (x & ?%not_elem_of_nil & _). }
  { unfold used in Hroom. lia. }
  destruct (copied_all lo hi s m R us G D P Hus Hfr m2 ms G' D' P' Hco HGt) as [-> Hfl]. destruct Hco as [Hok Hsm Hsh _ Htr Hus'].
  exists ms, m2, G', D'. split_and!; [|done| |done|done|done|done|exact Hus'].
  - unfold from_existed_user. unfold bind in E1 |- *. destruct (new_bare m) as [[ms1 m1']|]; [|done]. rewrite E1. exact E2.
  - pose proof (space_other _ _ _ _ _ _ _ _ _ _ _ _ _ Hsp (ms_space _ _ _ _ _ _ _ _ Hok) Hsm) as Hsp'.
    destruct Hus. split; done.
Qed.

End Fork.
