(* ===== verification/MsBuild.v ===== *)
(** * The kernel's address space and the one of an ELF file *)

From S2P Require Import Prelude Address Frames PageTable PtInv PtOps Space MemorySet AreaOps MsOps MsLife.

Lemma va_from_small v : 0 <= v < 2 ^ 39 -> va_from v = v.
Proof. intros. rewrite va_from_mod. by apply Z.mod_small. Qed.

Lemma ceil_div_bounds n : 0 <= n -> n <= 4096 * ceil_div n 4096 < n + 4096.
Proof. intros. unfold ceil_div. dlia. Qed.

(** The leaf tables of areas. *)
Definition total_tables (l : list MapArea) : Z := foldr (fun a n => area_tables a + n) 0 l.

Lemma total_tables_app l l' : total_tables (l ++ l') = total_tables l + total_tables l'.
Proof. unfold total_tables. induction l as [|a l IH]; cbn [app foldr]; [done|]. rewrite IH. lia. Qed.

Lemma total_tables_nonneg l : 0 <= total_tables l.
Proof. induction l as [|a l IH]; [done|]. change (total_tables (a :: l)) with (area_tables a + total_tables l). pose proof (leaf_tables_nonneg (get_start (vpn_range a)) (pages a) false : 0 <= area_tables a). lia. Qed.

(** ** The kernel *)
Record section := mkSection { sec_start : Z; sec_end : Z; sec_perm : Z }.

Definition sec_area (x : section) : MapArea := va_area (sec_start x) (sec_end x) Identical (sec_perm x).

Definition sec_ok (x : section) : Prop :=
  0 <= sec_start x <= sec_end x /\ sec_end x <= 2 ^ 39 - 4096 /\ 0 <= sec_perm x < 2 ^ 8.

(** The sections [new_kernel] maps, in order. *)
Definition kernel_sections (k : KernelLayout) (MEMORY_END : Z) (MMIO : list (Z * Z)) : list section :=
  [ mkSection (stext k) (etext k) (Z.lor MP_R MP_X); mkSection (srodata k) (erodata k) MP_R;
    mkSection (sdata k) (edata k) (Z.lor MP_R MP_W); mkSection (sbss_with_stack k) (ebss k) (Z.lor MP_R MP_W);
    mkSection (ekernel k) MEMORY_END (Z.lor MP_R MP_W) ] ++
  ((fun pair => mkSection pair.1 (pair.1 + pair.2) (Z.lor MP_R MP_W)) <$> MMIO).

Section Build.
Context {F : Type} `{FrameAllocatorSpec F}.
Implicit Types (m : Machine F) (R : gset Z) (G D : gmap Z Z) (P : gmap Z (list byte)) (a : MapArea) (ms : MemorySet).

Lemma sec_area_ok x : sec_ok x -> range_ok (sec_area x) /\ ~ in_range (sec_area x) trampoline_vpn /\
  area_new (va_from (sec_start x)) (va_from (sec_end x)) Identical (sec_perm x) = Ok (sec_area x).
Proof.
  intros (Hs & He & Hp). pose proof (ceil_div_bounds (sec_end x) ltac:(lia)) as Hc.
  assert (Hle : sec_start x / 4096 <= ceil_div (sec_end x) 4096) by (unfold ceil_div; dlia).
  assert (Hup : ceil_div (sec_end x) 4096 <= 2 ^ 27 - 1) by lia.
  split_and!.
  - split; [|done]. cbn. split_and!; [dlia|done|lia].
  - unfold in_range, trampoline_vpn. cbn. lia.
  - rewrite !va_from_small by lia. apply area_new_ok; lia.
Qed.

(** The kernel's space with the sections [l] mapped. *)
Record kern (lo hi s : Z) m0 R (l : list section) m ms G : Prop := {
  kn_ok : ms_ok lo hi m R ms G ∅ ∅;
  kn_same : same_on R m0 m;
  kn_shape : shape <$> areas ms = shape <$> (sec_area <$> l);
  kn_pages x v : x ∈ l -> in_range (sec_area x) v -> G !! v = Some (area_pte (sec_area x) v);
  kn_tramp : G !! trampoline_vpn = Some (trampoline_pte s);
  kn_used : used (page_table ms) ∅ R <= Z.of_nat (size R) + 3 + 2 * total_tables (sec_area <$> l);
}.

Lemma kern_push lo hi s m0 R l m ms G x : kern lo hi s m0 R l m ms G -> sec_ok x ->
  (forall v, covered (sec_area <$> l) v -> ~ in_range (sec_area x) v) ->
  Z.of_nat (size R) + 3 + 2 * total_tables (sec_area <$> (l ++ [x])) <= hi - lo ->
  exists ms' m' G', push_identical (sec_start x) (sec_end x) (sec_perm x) ms m = Ok (ms', m') /\
    kern lo hi s m0 R (l ++ [x]) m' ms' G'.
Proof.
  intros [Hok Hs Hsh Hpg Ht Hu] Hx Hno Hroom. destruct (sec_area_ok x Hx) as (Hr & Hnt & Ea).
  rewrite fmap_app in *. cbn [fmap list_fmap] in Hroom |- *. rewrite total_tables_app in Hroom. cbn [total_tables foldr] in Hroom.
  destruct (push_identical_ok lo hi m R ms G ∅ ∅ (sec_area x) Hok) as (ms' & m' & G' & E & [Hok' (b & Hb & Hbr & Hbp & Hbt) Hs' _ Hoth _] & HG' & Hu').
  { split_and!; [done|done|]. intros v Hv. apply eq_None_not_Some. intros [y Hy].
    destruct (ms_entries _ _ _ _ _ _ _ _ Hok v) as [->|Hc]; [eauto|done|]. by apply (Hno v); [apply (shapes_covered (areas ms))|]. }
  { done. }
  { lia. }
  exists ms', m', G'. split.
  - unfold push_identical. rewrite Ea. cbn [lift]. by rewrite bind_ret.
  - split; [done|by eapply same_on_trans| | |by rewrite (proj1 (Hoth _ Hnt))|rewrite fmap_app; cbn [fmap list_fmap]; rewrite total_tables_app; cbn [total_tables foldr]; lia].
    + rewrite Hb, !fmap_app, Hsh. f_equal. cbn [fmap list_fmap]. assert (Hsb : shape b = shape (sec_area x)) by (unfold shape; congruence). by rewrite Hsb.
    + intros y v [Hy|Hy]%elem_of_app Hv; [|apply list_elem_of_singleton in Hy as ->; by apply HG'].
      rewrite (proj1 (Hoth v ltac:(apply Hno; exists (sec_area y); split; [apply list_elem_of_fmap; eauto|done]))). by apply Hpg.
Qed.

Lemma sections_apart l x l2 : separated (sec_area <$> (l ++ x :: l2)) ->
  forall v, covered (sec_area <$> l) v -> ~ in_range (sec_area x) v.
Proof.
  rewrite fmap_app, separated_app. intros (_ & _ & Hno) v Hc Hv. apply (Hno v Hc). exists (sec_area x). split; [by left|done].
Qed.

(** The remaining sections [x :: l2] fit. *)
Definition fits lo hi R (l : list section) : Prop :=
  Forall sec_ok l /\ separated (sec_area <$> l) /\ Z.of_nat (size R) + 3 + 2 * total_tables (sec_area <$> l) <= hi - lo.

Lemma kern_next lo hi s m0 R l x l2 m ms G : fits lo hi R (l ++ x :: l2) -> kern lo hi s m0 R l m ms G ->
  exists ms' m' G', push_identical (sec_start x) (sec_end x) (sec_perm x) ms m = Ok (ms', m') /\
    kern lo hi s m0 R (l ++ [x]) m' ms' G'.
Proof.
  intros (Hok & Hsep & Hroom) Hk. apply Forall_app in Hok as [_ [Hx Hl2]%Forall_cons].
  apply (kern_push _ _ _ _ _ l m ms G x Hk Hx); [by eapply sections_apart|].
  pose proof (total_tables_nonneg (sec_area <$> l2)). change (x :: l2) with ([x] ++ l2) in Hroom. rewrite app_assoc, fmap_app, total_tables_app in Hroom. lia.
Qed.

Lemma kern_mmio lo hi s m0 R MMIO : forall l m ms G,
  (forall pair, pair ∈ MMIO -> pair.1 + pair.2 < 2 ^ 64) ->
  fits lo hi R (l ++ ((fun pair => mkSection pair.1 (pair.1 + pair.2) (Z.lor MP_R MP_W)) <$> MMIO)) ->
  kern lo hi s m0 R l m ms G ->
  exists ms' m' G', for_each MMIO (fun pair memory_set =>
      push_identical pair.1 (w64 (pair.1 + pair.2)) (Z.lor MP_R MP_W) memory_set) ms m = Ok (ms', m') /\
    kern lo hi s m0 R (l ++ ((fun pair => mkSection pair.1 (pair.1 + pair.2) (Z.lor MP_R MP_W)) <$> MMIO)) m' ms' G'.
Proof.
  induction MMIO as [|pair MMIO IH]; intros l m ms G Hw Hf Hk.
  { exists ms, m, G. by rewrite app_nil_r. }
  cbn [fmap list_fmap] in Hf. destruct (kern_next _ _ _ _ _ _ _ _ _ _ _ Hf Hk) as (ms1 & m1 & G1 & E1 & Hk1). cbn [sec_start sec_end sec_perm] in E1.
  destruct (IH (l ++ [mkSection pair.1 (pair.1 + pair.2) (Z.lor MP_R MP_W)]) m1 ms1 G1) as (ms2 & m2 & G2 & E2 & Hk2);
    [intros p Hp; apply Hw; by right|by rewrite <- app_assoc|done|].
  exists ms2, m2, G2. split; [|by rewrite <- app_assoc in Hk2].
  destruct Hf as (Hok & _). apply Forall_app in Hok as [_ [(Hs & _) _]%Forall_cons]. cbn [sec_start sec_end] in Hs.
  specialize (Hw pair ltac:(by left)). cbn [for_each]. rewrite w64_small by lia. by rewrite (bind_Ok _ _ _ _ _ E1).
Qed.

Lemma new_kernel_ok lo hi m R k MEMORY_END MMIO : machine_ok lo hi m R -> trampoline_ok (strampoline k) ->
  (forall pair, pair ∈ MMIO -> pair.1 + pair.2 < 2 ^ 64) -> fits lo hi R (kernel_sections k MEMORY_END MMIO) ->
  exists ms m' G, new_kernel k MEMORY_END MMIO m = Ok (ms, m') /\
    kern lo hi (strampoline k) m R (kernel_sections k MEMORY_END MMIO) m' ms G.
Proof.
  intros Hm Ht Hw Hf. destruct (base_ok lo hi m R (strampoline k) Hm Ht) as (ms0 & m0 & E0 & Ha0 & Hok0 & Hs0 & Hu0).
  { destruct Hf as (Hok & _ & Hroom). pose proof (total_tables_nonneg (sec_area <$> kernel_sections k MEMORY_END MMIO)). lia. }
  assert (Hk0 : kern lo hi (strampoline k) m R [] m0 ms0 {[trampoline_vpn := trampoline_pte (strampoline k)]}).
  { split; [done|done|by rewrite Ha0|by intros x v ?%not_elem_of_nil|apply lookup_singleton_eq|cbn; lia]. }
  unfold kernel_sections in Hf. cbn [app] in Hf.
  destruct (kern_next _ _ _ _ _ [] _ _ _ _ _ Hf Hk0) as (ms1 & m1 & G1 & E1 & Hk1). cbn [app] in Hk1.
  destruct (kern_next _ _ _ _ _ [_] _ _ _ _ _ Hf Hk1) as (ms2 & m2 & G2 & E2 & Hk2). cbn [app] in Hk2.
  destruct (kern_next _ _ _ _ _ [_; _] _ _ _ _ _ Hf Hk2) as (ms3 & m3 & G3 & E3 & Hk3). cbn [app] in Hk3.
  destruct (kern_next _ _ _ _ _ [_; _; _] _ _ _ _ _ Hf Hk3) as (ms4 & m4 & G4 & E4 & Hk4). cbn [app] in Hk4.
  destruct (kern_next _ _ _ _ _ [_; _; _; _] _ _ _ _ _ Hf Hk4) as (ms5 & m5 & G5 & E5 & Hk5). cbn [app] in Hk5.
  destruct (kern_mmio _ _ _ _ _ MMIO [_; _; _; _; _] m5 ms5 G5 Hw Hf Hk5) as (ms6 & m6 & G6 & E6 & Hk6). cbn [app] in Hk6.
  exists ms6, m6, G6. split; [|done]. unfold new_kernel. unfold bind in E0 |- *.
  destruct (new_bare m) as [[x y]|]; [|done]. rewrite E0.
  cbn [sec_start sec_end sec_perm] in *. by rewrite E1, E2, E3, E4, E5.
Qed.

(** ** Permissions of the kernel's pages *)
Lemma flags_new p flags bit : 0 <= p < 2 ^ 44 -> 0 <= flags < 2 ^ 8 ->
  negb (Z.land (pte_flags (pte_new p flags)) bit =? 0) = negb (Z.land flags bit =? 0).
Proof. intros Hp Hf. by rewrite pte_flags_new. Qed.

Definition text_section (k : KernelLayout) : section := mkSection (stext k) (etext k) (Z.lor MP_R MP_X).

Lemma kernel_sections_cases k MEMORY_END MMIO x : x ∈ kernel_sections k MEMORY_END MMIO ->
  x = text_section k \/ (x ∈ tail (kernel_sections k MEMORY_END MMIO) /\ (sec_perm x = MP_R \/ sec_perm x = Z.lor MP_R MP_W)).
Proof.
  unfold kernel_sections. cbn [app tail]. intros [->|Hx]%elem_of_cons; [by left|]. right. split; [done|].
  repeat (apply elem_of_cons in Hx as [->|Hx]; [cbn; tauto|]). apply list_elem_of_fmap in Hx as (y & -> & _). cbn. tauto.
Qed.

Lemma check_page_ok lo hi s m0 R l m ms G x f : kern lo hi s m0 R l m ms G -> x ∈ l -> sec_ok x -> sec_start x < sec_end x ->
  f (area_pte (sec_area x) ((sec_start x + sec_end x) / 2 / 4096)) = false ->
  check_page ms (sec_start x) (sec_end x) f m = Ok (tt, m).
Proof.
  intros Hk Hx (Hs & He & Hp) Hlt Hf. unfold check_page. rewrite w64_small by lia.
  rewrite va_from_small by dlia. unfold floor. change PAGE_SIZE with 4096. pose proof (ceil_div_bounds (sec_end x) ltac:(lia)).
  assert (HG : G !! ((sec_start x + sec_end x) / 2 / 4096) = Some (area_pte (sec_area x) ((sec_start x + sec_end x) / 2 / 4096))).
  { apply (kn_pages _ _ _ _ _ _ _ _ _ Hk x); [done|]. unfold in_range. cbn [sec_area va_area vpn_range get_start get_end]. dlia. }
  rewrite (bind_Ok _ _ _ _ _ (space_translate _ _ _ _ _ _ _ _ _ _ (ms_space _ _ _ _ _ _ _ _ (kn_ok _ _ _ _ _ _ _ _ _ Hk)) HG)).
  cbn [unwrap lift]. rewrite bind_ret, Hf. done.
Qed.

Lemma remap_test_ok lo hi m0 R k MEMORY_END MMIO m ms G :
  kern lo hi (strampoline k) m0 R (kernel_sections k MEMORY_END MMIO) m ms G -> Forall sec_ok (kernel_sections k MEMORY_END MMIO) ->
  stext k < etext k -> srodata k < erodata k -> sdata k < edata k -> remap_test k ms m = Ok (tt, m).
Proof.
  intros Hk Hok H1 H2 H3. rewrite Forall_forall in Hok. unfold remap_test.
  assert (Hin : forall i x, kernel_sections k MEMORY_END MMIO !! i = Some x -> x ∈ kernel_sections k MEMORY_END MMIO)
    by (intros i x; apply list_elem_of_lookup_2).
  pose proof (Hin 0%nat _ eq_refl) as I1. pose proof (Hin 1%nat _ eq_refl) as I2. pose proof (Hin 2%nat _ eq_refl) as I3.
  assert (Hmid : forall x, sec_ok x -> 0 <= (sec_start x + sec_end x) / 2 / 4096 < 2 ^ 44) by (intros x (? & ? & _); dlia).
  pose proof (check_page_ok _ _ _ _ _ _ _ _ _ _ writable Hk I1 (Hok _ I1) H1) as C1.
  pose proof (check_page_ok _ _ _ _ _ _ _ _ _ _ writable Hk I2 (Hok _ I2) H2) as C2.
  pose proof (check_page_ok _ _ _ _ _ _ _ _ _ _ executable Hk I3 (Hok _ I3) H3) as C3.
  cbn [sec_start sec_end] in *. rewrite (bind_Ok _ _ _ _ _ (C1 ltac:(apply flags_new; [apply (Hmid _ (Hok _ I1))|done]))).
  rewrite (bind_Ok _ _ _ _ _ (C2 ltac:(apply flags_new; [apply (Hmid _ (Hok _ I2))|done]))).
  apply C3. apply flags_new; [apply (Hmid _ (Hok _ I3))|done].
Qed.

(** An entry of the kernel's table. *)
Lemma kern_entry lo hi s m0 R l m ms G v y : kern lo hi s m0 R l m ms G -> Forall sec_ok l -> G !! v = Some y ->
  y = trampoline_pte s \/ exists x, x ∈ l /\ in_range (sec_area x) v /\ 0 <= v < 2 ^ 44 /\ y = area_pte (sec_area x) v.
Proof.
  intros [Hok _ Hsh Hpg Ht _] Hl HG. destruct (ms_entries _ _ _ _ _ _ _ _ Hok v) as [->|Hc]; [eauto|left; congruence|]. right.
  apply (shapes_covered _ _ _ Hsh) in Hc as (a & (x & -> & Hx)%list_elem_of_fmap & Hv). exists x.
  pose proof (sp_dom _ _ _ _ _ _ _ _ (ms_space _ _ _ _ _ _ _ _ Hok) v ltac:(eauto)). split_and!; [done|done|lia|lia|].
  rewrite (Hpg x v Hx Hv) in HG. congruence.
Qed.

(** No page of memory is writable through one mapping and executable through another. *)
Lemma kernel_wx lo hi m0 R k MEMORY_END MMIO m ms G v w x y :
  kern lo hi (strampoline k) m0 R (kernel_sections k MEMORY_END MMIO) m ms G ->
  fits lo hi R (kernel_sections k MEMORY_END MMIO) -> trampoline_ok (strampoline k) ->
  in_range (sec_area (text_section k)) (strampoline k / 4096) ->
  G !! v = Some x -> G !! w = Some y -> pte_ppn x = pte_ppn y -> writable x = true -> executable y = true -> False.
Proof.
  intros Hk (Hok & Hsep & _) Hts Htx Hx Hy Hppn Hw He. assert (Htp : 0 <= strampoline k / 4096 < 2 ^ 44) by (destruct Hts; dlia).
  assert (Hyt : in_range (sec_area (text_section k)) (pte_ppn y)).
  { destruct (kern_entry _ _ _ _ _ _ _ _ _ _ _ Hk Hok Hy) as [->|(z & Hz & Hzw & Hr & ->)].
    { unfold trampoline_pte. by rewrite pte_ppn_new. }
    destruct (kernel_sections_cases _ _ _ _ Hz) as [->|[_ Hp]]; [unfold area_pte; by rewrite pte_ppn_new|].
    exfalso. unfold executable, area_pte in He. cbn [sec_area va_area map_perm] in He.
    destruct Hp as [Hp|Hp]; rewrite Hp, flags_new in He by done; done. }
  destruct (kern_entry _ _ _ _ _ _ _ _ _ _ _ Hk Hok Hx) as [->|(z & Hz & Hzv & Hr & ->)].
  { unfold writable, trampoline_pte in Hw. by rewrite flags_new in Hw. }
  destruct (kernel_sections_cases _ _ _ _ Hz) as [->|[Hin Hp]].
  { unfold writable, area_pte in Hw. by rewrite flags_new in Hw. }
  assert (Hpz : pte_ppn (area_pte (sec_area z) v) = v).
  { unfold area_pte. cbn [sec_area va_area map_perm]. destruct Hp as [Hp|Hp]; rewrite Hp; by apply pte_ppn_new. }
  rewrite <- Hppn, Hpz in Hyt. unfold kernel_sections in Hsep, Hin. cbn [app tail] in Hsep, Hin. cbn [fmap list_fmap separated] in Hsep.
  destruct Hsep as [Hap _]. eapply (proj1 (Forall_forall _ _) Hap (sec_area z)); [|exact Hyt|exact Hzv].
  repeat (apply elem_of_cons in Hin as [->|Hin]; [repeat (first [by left|right])|]).
  repeat right. apply list_elem_of_fmap. eauto.
Qed.

End Build.

(** ** The address space of an ELF file *)

(** The permissions, the area and the bytes of a segment. *)
Definition seg_perm (ph : ProgramHeader) : Z :=
  let p := MP_U in
  let p := if is_read ph then Z.lor p MP_R else p in
  let p := if is_write ph then Z.lor p MP_W else p in
  if is_execute ph then Z.lor p MP_X else p.

Definition seg_area (ph : ProgramHeader) : MapArea :=
  va_area (virtual_addr ph) (virtual_addr ph + mem_size ph) Framed (seg_perm ph).

Definition seg_data (elf_data : list byte) (ph : ProgramHeader) : list byte :=
  take (Z.to_nat (file_size ph)) (drop (Z.to_nat (ph_offset ph)) elf_data).

(** A loadable segment that lies in the lower half of the address space and in the file. *)
Definition seg_ok (elf_data : list byte) (ph : ProgramHeader) : Prop :=
  0 <= virtual_addr ph /\ 0 < mem_size ph /\ virtual_addr ph + mem_size ph <= 2 ^ 38 - 4 * 4096 /\
  0 <= ph_offset ph /\ 0 <= file_size ph <= mem_size ph /\ ph_offset ph + file_size ph <= zlen elf_data.

Definition header_ok (elf_data : list byte) (o : option ProgramHeader) : Prop :=
  match o with
  | Some ph => ph_type ph = Some false \/ (ph_type ph = Some true /\ seg_ok elf_data ph)
  | None => False
  end.

(** The segments [from_elf] loads. *)
Definition segments (l : list (option ProgramHeader)) : list ProgramHeader :=
  omap (fun o => ph ← o; if decide (ph_type ph = Some true) then Some ph else None) l.

(** The segments are in the order of their addresses, from page [e] on. *)
Fixpoint ascending (e : Z) (l : list ProgramHeader) : Prop :=
  match l with
  | [] => True
  | ph :: l => e <= get_start (vpn_range (seg_area ph)) /\ ascending (get_end (vpn_range (seg_area ph))) l
  end.

(** The page after the last segment. *)
Fixpoint end_page (e : Z) (l : list ProgramHeader) : Z :=
  match l with
  | [] => e
  | ph :: l => end_page (get_end (vpn_range (seg_area ph))) l
  end.

Definition stack_area (e : Z) : MapArea :=
  mkArea (mkRange (e + 1) (e + 3)) ∅ Framed (Z.lor (Z.lor MP_R MP_W) MP_U).
Definition context_area : MapArea :=
  mkArea (mkRange (2 ^ 27 - 2) (2 ^ 27 - 1)) ∅ Framed (Z.lor MP_R MP_W).

Lemma seg_area_ok elf ph : seg_ok elf ph -> zlen elf < 2 ^ 63 ->
  range_ok (seg_area ph) /\ 0 < pages (seg_area ph) /\ get_end (vpn_range (seg_area ph)) <= 2 ^ 26 - 4 /\
  zlen (seg_data elf ph) = file_size ph /\ file_size ph <= 4096 * pages (seg_area ph) /\
  area_new (va_from (virtual_addr ph)) (va_from (w64 (virtual_addr ph + mem_size ph))) Framed (seg_perm ph) = Ok (seg_area ph) /\
  slice elf (ph_offset ph) (w64 (ph_offset ph + file_size ph)) = Ok (seg_data elf ph).
Proof.
  intros (H1 & H2 & H3 & H4 & H5 & H6) Hz. set (e := virtual_addr ph + mem_size ph) in *.
  pose proof (ceil_div_bounds e ltac:(lia)) as Hc.
  assert (Hpg : virtual_addr ph <= 4096 * (virtual_addr ph / 4096) + 4095 /\ 4096 * (virtual_addr ph / 4096) <= virtual_addr ph) by dlia.
  assert (Hperm : 0 <= seg_perm ph < 2 ^ 8) by (unfold seg_perm; destruct (is_read ph), (is_write ph), (is_execute ph); done).
  unfold pages. cbn [seg_area va_area vpn_range get_start get_end]. fold e. split_and!; try lia.
  - split; [|done]. cbn [seg_area va_area vpn_range get_start get_end]. fold e. split_and!; [lia..|]. lia.
  - unfold seg_data, zlen in *. rewrite length_take, length_drop. lia.
  - rewrite w64_small, !va_from_small by lia. apply area_new_ok; lia.
  - rewrite w64_small by lia. rewrite slice_Ok by lia. unfold seg_data. do 2 f_equal. lia.
Qed.

Lemma stack_va e : 0 <= e <= 2 ^ 26 - 4 ->
  let bottom := w64 (usize_of_va (addr_of e) + PAGE_SIZE) in
  let top := w64 (bottom + USER_STACK_SIZE) in
  top = 4096 * (e + 3) /\ area_new (va_from bottom) (va_from top) Framed (Z.lor (Z.lor MP_R MP_W) MP_U) = Ok (stack_area e).
Proof.
  intros He. cbv zeta. rewrite addr_of_small by lia. rewrite usize_of_va_spec by lia. rewrite (proj2 (Z.leb_gt _ _)) by lia.
  change PAGE_SIZE with 4096. change USER_STACK_SIZE with 8192. rewrite (w64_small (e * 4096 + 4096)) by lia. rewrite w64_small by lia.
  split; [lia|]. rewrite !va_from_small by lia. rewrite area_new_ok; [|lia| |lia].
  - unfold va_area, stack_area. do 3 f_equal; [dlia|unfold ceil_div; dlia].
  - unfold ceil_div. dlia.
Qed.

Section Elf.
Context {F : Type} `{FrameAllocatorSpec F}.
Implicit Types (m : Machine F) (R : gset Z) (G D : gmap Z Z) (P : gmap Z (list byte)) (a : MapArea) (ms : MemorySet).
Variables (lo hi s : Z) (m0 : Machine F) (R : gset Z) (elf_data : list byte).
Hypothesis Hlen : zlen elf_data < 2 ^ 63.

(** The space with the areas [l] mapped, of which [c] gives the contents. *)
Record built (l : list MapArea) (c : Z -> option (list byte)) m ms G D P : Prop := {
  bu_ok : ms_ok lo hi m R ms G D P;
  bu_same : same_on R m0 m;
  bu_shape : shape <$> areas ms = shape <$> l;
  bu_pages v b : c v = Some b -> covered l v /\ P !! v = Some b;
  bu_tramp : G !! trampoline_vpn = Some (trampoline_pte s);
  bu_used : used (page_table ms) D R <= Z.of_nat (size R) + 3 + 3 * total_pages l;
}.

Lemma built_fresh l c m ms G D P a : built l c m ms G D P -> range_ok a -> data_frames a = ∅ ->
  ~ in_range a trampoline_vpn -> (forall v, covered l v -> ~ in_range a v) -> fresh_area G a.
Proof.
  intros [Hok _ Hsh _ _ _] Hr Hd Hnt Hno. split_and!; [done|done|]. intros v Hv. apply eq_None_not_Some. intros Hs.
  destruct (ms_entries _ _ _ _ _ _ _ _ Hok v Hs) as [->|Hc]; [done|]. by apply (Hno v); [apply (shapes_covered (areas ms))|].
Qed.

Lemma built_pushed l c m ms G D P a m' ms' G' D' P' c' : built l c m ms G D P -> ~ in_range a trampoline_vpn ->
  pushed lo hi m R ms G D P a m' ms' G' D' P' -> (forall v, covered l v -> ~ in_range a v) ->
  (forall v b, c' v = Some b -> c v = Some b \/ (in_range a v /\ P' !! v = Some b)) ->
  built (l ++ [a]) c' m' ms' G' D' P'.
Proof.
  intros [Hok Hs Hsh Hpg Ht Hu] Hnt [Hok' (b & Hb & Hbr & Hbp & Hbt) Hs' _ Hoth Hu'] Hno Hc'.
  split; [done|by eapply same_on_trans| | |by rewrite (proj1 (Hoth _ Hnt))|rewrite total_app; lia].
  - rewrite Hb, !fmap_app, Hsh. f_equal. cbn [fmap list_fmap]. assert (Hsb : shape b = shape a) by (unfold shape; congruence). by rewrite Hsb.
  - intros v x Hv. rewrite covered_app, covered_one. destruct (Hc' v x Hv) as [Hcv|[Hin HP]]; [|tauto].
    destruct (Hpg v x Hcv) as [Hcov HP]. split; [by left|]. destruct (Hoth v (Hno v Hcov)) as (_ & _ & ->). done.
Qed.

(** The contents of the pages of the segments. *)
Fixpoint seg_contents (l : list ProgramHeader) (v : Z) : option (list byte) :=
  match l with
  | [] => None
  | ph :: l => if decide (in_range (seg_area ph) v)
               then Some (page_image (seg_data elf_data ph) (v - get_start (vpn_range (seg_area ph))))
               else seg_contents l v
  end.

Lemma seg_contents_snoc l ph v b : seg_contents (l ++ [ph]) v = Some b -> seg_contents l v = Some b \/
  (in_range (seg_area ph) v /\ b = page_image (seg_data elf_data ph) (v - get_start (vpn_range (seg_area ph)))).
Proof.
  induction l as [|x l IH]; cbn [app seg_contents].
  - destruct (decide (in_range (seg_area ph) v)); [|done]. intros [= <-]. by right.
  - destruct (decide (in_range (seg_area x) v)); [by left|apply IH].
Qed.

(** The state of the loop over the headers: [l] is loaded, [e] is [max_end_vpn]. *)
Definition loading (l : list ProgramHeader) (e : Z) m ms : Prop :=
  exists G D P, built (seg_area <$> l) (seg_contents l) m ms G D P /\ 0 <= e <= 2 ^ 26 - 4 /\
    forall v, covered (seg_area <$> l) v -> v < e.

Lemma load_segment l e m ms ph : loading l e m ms -> seg_ok elf_data ph -> ph_type ph = Some true ->
  e <= get_start (vpn_range (seg_area ph)) ->
  Z.of_nat (size R) + 3 + 3 * total_pages (seg_area <$> (l ++ [ph])) <= hi - lo ->
  exists ms' m', load_header elf_data (Some ph) (ms, e) m = Ok ((ms', get_end (vpn_range (seg_area ph))), m') /\
    loading (l ++ [ph]) (get_end (vpn_range (seg_area ph))) m' ms'.
Proof.
  intros (G & D & P & Hb & He & Hlt) Hok Ht Hstart Hroom.
  destruct (seg_area_ok elf_data ph Hok Hlen) as (Hr & Hpos & Hend & Hzl & Hfs & Ea & Es).
  rewrite fmap_app in *. cbn [fmap list_fmap] in *. rewrite total_app in Hroom.
  assert (Hno : forall v, covered (seg_area <$> l) v -> ~ in_range (seg_area ph) v) by (intros v ?%Hlt [??]; lia).
  assert (Hnt : ~ in_range (seg_area ph) trampoline_vpn) by (intros [_ ?]; unfold trampoline_vpn in *; lia).
  pose proof (built_fresh _ _ _ _ _ _ _ _ Hb Hr eq_refl Hnt Hno) as Hfresh.
  destruct (push_data lo hi m R ms G D P (seg_area ph) (seg_data elf_data ph) (bu_ok _ _ _ _ _ _ _ Hb) Hfresh eq_refl)
    as (ms' & m' & G' & D' & P' & E & Hpu & HP'); [pose proof (bu_used _ _ _ _ _ _ _ Hb); lia|done|lia|].
  exists ms', m'. split.
  - unfold load_header. cbn [unwrap lift]. rewrite bind_ret, Ht. cbn [unwrap lift]. rewrite bind_ret.
    fold (seg_perm ph). cbv zeta. rewrite Ea. cbn [lift]. rewrite bind_ret, Es. cbn [lift]. rewrite bind_ret. by rewrite (bind_Ok _ _ _ _ _ E).
  - pose proof Hr as [Hrg _]. exists G', D', P'. split_and!; [|lia|lia|].
    + rewrite fmap_app. eapply built_pushed; [done|done|done|done|]. intros v b [?|[Hv ->]]%seg_contents_snoc; [by left|right].
      split; [done|]. by apply HP'.
    + intros v. rewrite fmap_app, covered_app. intros [Hc%Hlt|Hc%covered_one]; [lia|]. by destruct Hc.
Qed.

Lemma segs_nonneg hs : Forall (header_ok elf_data) hs -> 0 <= total_pages (seg_area <$> segments hs).
Proof.
  induction 1 as [|o hs Ho _ IH]; [done|]. unfold segments in *. cbn [omap list_omap].
  destruct o as [ph|]; [|done]. cbn [mbind option_bind]. destruct (decide (ph_type ph = Some true)) as [Ht|]; [|done].
  destruct Ho as [?|[_ Hs]]; [congruence|]. destruct (seg_area_ok elf_data ph Hs Hlen) as (_ & Hp & _).
  unfold total_pages in *. cbn [fmap list_fmap foldr]. lia.
Qed.

Lemma load_headers hs : forall l e m ms, loading l e m ms -> Forall (header_ok elf_data) hs -> ascending e (segments hs) ->
  Z.of_nat (size R) + 3 + 3 * total_pages (seg_area <$> (l ++ segments hs)) <= hi - lo ->
  exists ms' m', for_each hs (load_header elf_data) (ms, e) m = Ok ((ms', end_page e (segments hs)), m') /\
    loading (l ++ segments hs) (end_page e (segments hs)) m' ms'.
Proof.
  induction hs as [|o hs IH]; intros l e m ms Hl Hok Has Hroom.
  { exists ms, m. unfold segments. cbn [omap list_omap]. by rewrite app_nil_r. }
  apply Forall_cons in Hok as [Ho Hok]. destruct o as [ph|]; [|done]. unfold segments in *. cbn [omap list_omap] in *. cbn [mbind option_bind] in *.
  destruct Ho as [Hf|[Hld Hseg]].
  - rewrite decide_False in * by congruence. cbn [omap] in *. destruct (IH l e m ms Hl Hok Has Hroom) as (ms' & m' & E & Hl').
    exists ms', m'. split; [|done]. cbn [for_each]. unfold load_header at 1. cbn [unwrap lift]. rewrite bind_assoc, bind_ret, Hf. done.
  - rewrite decide_True in * by done. cbn [ascending end_page] in *. destruct Has as [Hst Has].
    set (segs := omap _ hs) in *.
    pose proof (segs_nonneg hs Hok) as Hsegs. unfold segments in Hsegs. fold segs in Hsegs.
    destruct (load_segment l e m ms ph Hl Hseg Hld Hst) as (ms1 & m1 & E1 & Hl1).
    { change (ph :: segs) with ([ph] ++ segs) in Hroom. rewrite app_assoc, fmap_app, total_pages_app in Hroom. lia. }
    destruct (IH (l ++ [ph]) _ m1 ms1 Hl1 Hok Has) as (ms2 & m2 & E2 & Hl2); [by rewrite <- app_assoc|].
    rewrite <- app_assoc in Hl2. exists ms2, m2. split; [|done]. cbn [for_each]. by rewrite (bind_Ok _ _ _ _ _ E1).
Qed.

(** The areas of the space: the segments, the user stack above a guard page, and the trap context. *)
Definition elf_areas (elf : ElfFile) : list MapArea :=
  (seg_area <$> segments (program_headers elf)) ++ [stack_area (end_page 0 (segments (program_headers elf))); context_area].

Definition elf_contents (elf : ElfFile) (v : Z) : option (list byte) :=
  if decide (in_range (stack_area (end_page 0 (segments (program_headers elf)))) v \/ in_range context_area v) then Some zero_page
  else seg_contents (segments (program_headers elf)) v.

Lemma push_zero l c m ms G D P a c' : built l c m ms G D P -> range_ok a -> data_frames a = ∅ -> map_type a = Framed ->
  ~ in_range a trampoline_vpn -> (forall v, covered l v -> ~ in_range a v) ->
  Z.of_nat (size R) + 3 + 3 * total_pages (l ++ [a]) <= hi - lo ->
  (forall v b, c' v = Some b -> c v = Some b \/ (in_range a v /\ b = zero_page)) ->
  exists ms' m' G' D' P', push ms a None m = Ok (ms', m') /\ built (l ++ [a]) c' m' ms' G' D' P'.
Proof.
  intros Hb Hr Hd Hf Hnt Hno Hroom Hc'. rewrite total_app in Hroom.
  destruct (push_framed lo hi m R ms G D P a (bu_ok _ _ _ _ _ _ _ Hb) (built_fresh _ _ _ _ _ _ _ _ Hb Hr Hd Hnt Hno) Hf)
    as (ms' & m' & G' & D' & P' & E & Hpu & HP'); [pose proof (bu_used _ _ _ _ _ _ _ Hb); lia|].
  exists ms', m', G', D', P'. split; [done|]. eapply built_pushed; [done|done|done|done|].
  intros v b [?|[Hv ->]]%Hc'; [by left|right]. split; [done|]. by apply HP'.
Qed.

(** The two areas after the segments. *)
Lemma push_tail elf m ms e : let segs := segments (program_headers elf) in e = end_page 0 segs -> loading segs e m ms ->
  Z.of_nat (size R) + 3 + 3 * total_pages (elf_areas elf) <= hi - lo ->
  exists ms1 m1 ms' m' G D P, push ms (stack_area e) None m = Ok (ms1, m1) /\ push ms1 context_area None m1 = Ok (ms', m') /\
    built (elf_areas elf) (elf_contents elf) m' ms' G D P.
Proof.
  intros segs -> (G2 & D2 & P2 & Hb2 & He & Hlt) Hroom. set (e := end_page 0 segs) in *.
  unfold elf_areas in Hroom. fold segs e in Hroom. rewrite total_pages_app in Hroom.
  assert (E2 : total_pages [stack_area e; context_area] = 3) by (unfold total_pages, pages; cbn [foldr stack_area context_area vpn_range get_end get_start]; lia).
  destruct (push_zero _ _ _ _ _ _ _ (stack_area e) (fun v => if decide (in_range (stack_area e) v) then Some zero_page else seg_contents segs v) Hb2)
    as (ms3 & m3 & G3 & D3 & P3 & E4 & Hb3).
  { split; cbn [stack_area vpn_range get_start get_end map_perm]; [lia|done]. }
  { done. }
  { done. }
  { intros [_ Hv]. unfold trampoline_vpn in Hv. cbn [stack_area vpn_range get_end] in Hv. lia. }
  { intros v Hv%Hlt [Hv2 _]. cbn [stack_area vpn_range get_start] in Hv2. lia. }
  { rewrite total_app. unfold pages. cbn [stack_area vpn_range get_end get_start]. lia. }
  { intros v b. destruct (decide (in_range (stack_area e) v)); [intros [= <-]; by right|by left]. }
  destruct (push_zero _ _ _ _ _ _ _ context_area (elf_contents elf) Hb3) as (ms4 & m4 & G4 & D4 & P4 & E5 & Hb4).
  { split; cbn [context_area vpn_range get_start get_end map_perm]; [lia|done]. }
  { done. }
  { done. }
  { intros [_ Hv]. unfold trampoline_vpn in Hv. cbn [context_area vpn_range get_end] in Hv. lia. }
  { intros v. rewrite covered_app, covered_one. intros [Hv%Hlt|[_ Hv]] [Hv2 _]; cbn [context_area stack_area vpn_range get_start get_end] in *; lia. }
  { rewrite <- app_assoc. cbn [app]. rewrite total_pages_app. lia. }
  { intros v b. unfold elf_contents. fold segs e. destruct (decide (in_range context_area v)).
    - rewrite decide_True by (by right). intros [= <-]. by right.
    - destruct (decide (in_range (stack_area e) v)); [rewrite decide_True by (by left); by left|]. rewrite decide_False by tauto. by left. }
  rewrite <- app_assoc in Hb4. exists ms3, m3, ms4, m4, G4, D4, P4. split_and!; [done|done|exact Hb4].
Qed.

Lemma total_elf elf : total_pages (elf_areas elf) = total_pages (seg_area <$> segments (program_headers elf)) + 3.
Proof.
  unfold elf_areas. rewrite total_pages_app. f_equal. unfold total_pages, pages.
  cbn [foldr stack_area context_area vpn_range get_end get_start]. lia.
Qed.

Lemma from_elf_ok parse elf : machine_ok lo hi m0 R -> trampoline_ok s -> parse elf_data = Some elf ->
  magic elf = [0x7f; 0x45; 0x4c; 0x46] -> Forall (header_ok elf_data) (program_headers elf) ->
  ascending 0 (segments (program_headers elf)) ->
  Z.of_nat (size R) + 3 + 3 * total_pages (elf_areas elf) <= hi - lo ->
  exists ms m' G D P,
    from_elf parse s elf_data m0 = Ok ((ms, 4096 * (end_page 0 (segments (program_headers elf)) + 3), entry_point elf), m') /\
    built (elf_areas elf) (elf_contents elf) m' ms G D P.
Proof.
  intros Hm Hs Hparse Hmagic Hhs Hasc Hroom. pose proof Hroom as Hroom'. rewrite total_elf in Hroom'.
  pose proof (segs_nonneg _ Hhs) as Hnn. set (segs := segments (program_headers elf)) in *. set (e := end_page 0 segs) in *.
  destruct (base_ok lo hi m0 R s Hm Hs ltac:(lia)) as (ms1 & m1 & E1 & Ha1 & Hok1 & Hs1 & Hu1).
  assert (Hl1 : loading [] 0 m1 ms1).
  { exists {[trampoline_vpn := trampoline_pte s]}, ∅, ∅. split_and!; [|lia..|by intros v (x & ?%not_elem_of_nil & _)].
    split; [done|done|by rewrite Ha1|done|apply lookup_singleton_eq|cbn; lia]. }
  destruct (load_headers (program_headers elf) [] 0 m1 ms1 Hl1 Hhs Hasc) as (ms2 & m2 & E3 & Hl2); [cbn [app]; fold segs; lia|].
  fold segs e in E3, Hl2. cbn [app] in Hl2.
  destruct (push_tail elf m2 ms2 e eq_refl Hl2 Hroom) as (ms3 & m3 & ms4 & m4 & G4 & D4 & P4 & E4 & E5 & Hb4).
  destruct Hl2 as (_ & _ & _ & _ & He & _). destruct (stack_va e He) as [Etop Est]. cbv zeta in Etop, Est.
  exists ms4, m4, G4, D4, P4. split; [|exact Hb4].
  unfold from_elf. unfold bind in E1. unfold bind at 1 2. destruct (new_bare m0) as [[x y]|]; [|done]. rewrite E1, Hparse.
  cbn [unwrap lift]. rewrite bind_ret, Hmagic. rewrite bool_decide_true by done. cbn [assert]. rewrite bind_ret, (bind_Ok _ _ _ _ _ E3), Est, Etop.
  cbn [lift]. rewrite bind_ret, (bind_Ok _ _ _ _ _ E4).
  change (area_new (va_from TRAP_CONTEXT) (va_from TRAMPOLINE) Framed (Z.lor MP_R MP_W)) with (Ok context_area). cbn [lift].
  by rewrite bind_ret, (bind_Ok _ _ _ _ _ E5).
Qed.

(** The page after the last segment is in no area. *)
Lemma segs_below hs e : Forall (header_ok elf_data) hs -> ascending e (segments hs) -> 0 <= e <= 2 ^ 26 - 4 ->
  e <= end_page e (segments hs) <= 2 ^ 26 - 4 /\ forall v, covered (seg_area <$> segments hs) v -> v < end_page e (segments hs).
Proof.
  intros Hok. revert e. induction Hok as [|o hs Ho _ IH]; intros e Has He; [split; [cbn; lia|by intros v (x & ?%not_elem_of_nil & _)]|].
  unfold segments in *. cbn [omap list_omap] in *. destruct o as [ph|]; [|done]. cbn [mbind option_bind] in *.
  destruct (decide (ph_type ph = Some true)) as [Ht|]; [|by apply IH]. destruct Ho as [?|[_ Hs]]; [congruence|].
  destruct (seg_area_ok elf_data ph Hs Hlen) as ([Hr _] & Hpos & Hend & _). cbn [ascending end_page] in *. destruct Has as [Hst Has].
  destruct (IH _ Has) as [Hle Hlt]; [lia|]. unfold pages in Hpos. split; [lia|].
  intros v (x & [->|Hx]%elem_of_cons & Hv); [destruct Hv; lia|]. apply Hlt. by exists x.
Qed.

Lemma elf_last_free elf : Forall (header_ok elf_data) (program_headers elf) -> ascending 0 (segments (program_headers elf)) ->
  let last := end_page 0 (segments (program_headers elf)) in
  last <= 2 ^ 26 - 4 /\ ~ covered (elf_areas elf) last.
Proof.
  intros Hok Has last. destruct (segs_below _ 0 Hok Has) as [Hle Hlt]; [lia|]. fold last in Hle, Hlt. split; [lia|].
  unfold elf_areas. fold last. rewrite covered_app. intros [Hc%Hlt|(x & Hx & Hv)]; [lia|].
  apply elem_of_cons in Hx as [->|Hx%list_elem_of_singleton]; [|subst x]; destruct Hv as [Hv _]; cbn [stack_area context_area vpn_range get_start] in Hv; lia.
Qed.

End Elf.
