(* ===== verification/UserMem.v ===== *)
(** * Access to the memory of a user process (os/src/mm/page_table.rs) *)

From S2P Require Import Prelude Address Frames PageTable PtInv PtOps Space MemorySet AreaOps MsOps MsLife.

(** ** The token of an address space *)
Lemma token_root pt : 0 <= root_ppn pt < 2 ^ 44 -> from_token (token pt) = mkPageTable (root_ppn pt) [].
Proof.
  intros Hr. unfold from_token, token. f_equal. rewrite ppn_from_mod. change (2 ^ 44 - 1) with (Z.ones 44).
  rewrite Z.land_ones, Z.mod_mod by lia.
  assert (E : Z.lor (w64 (Z.shiftl 8 60)) (root_ppn pt) = root_ppn pt + 2 ^ 19 * 2 ^ 44).
  { change (w64 (Z.shiftl 8 60)) with (Z.shiftl (2 ^ 19) 44). rewrite Z.lor_comm, <- Z.shiftl_mul_pow2 by lia.
    assert (E : Z.land (root_ppn pt) (Z.shiftl (2 ^ 19) 44) = 0).
    { apply Z.bits_inj'. intros i Hi. rewrite Z.land_spec, Z.bits_0. destruct (Z.lt_ge_cases i 44).
      - by rewrite Z.shiftl_spec_low, andb_false_r.
      - rewrite (Z.bits_above_log2 (root_ppn pt)); [done|lia|]. destruct (decide (root_ppn pt = 0)) as [->|]; [simpl; lia|].
        apply Z.log2_lt_pow2; [lia|]. eapply Z.lt_le_trans; [apply Hr|]. apply Z.pow_le_mono_r; lia. }
    rewrite <- Z.lxor_lor by done. by rewrite Z.add_nocarry_lxor. }
  rewrite E, Z.mod_add by lia. by apply Z.mod_small.
Qed.

Lemma split_addr q r : 0 <= r < 4096 -> (q * 4096 + r) / 4096 = q /\ (q * 4096 + r) mod 4096 = r.
Proof. intros. dlia. Qed.

(** The bytes of the address space. *)
Definition user_byte (P : gmap Z (list byte)) (a : Z) : option byte := b ← P !! (a / 4096); b !! Z.to_nat (a mod 4096).

(** The bytes of a slice, by page and offset. *)
Definition slice_bytes (s : UserSlice) : list (Z * Z) := pair (sl_page s) <$> seqZ (sl_from s) (slice_len s).

(** ** The iterator of [UserBuffer] *)
Section Iterator.
Variable buffers : list UserSlice.
Hypothesis Hne : Forall (fun s => 0 < slice_len s) buffers.

Lemma buffer_bytes_from fuel : forall i j s, buffers !! Z.to_nat i = Some s -> 0 <= i -> 0 <= j < slice_len s ->
  (length (drop (Z.to_nat j) (slice_bytes s)) + length (concat (slice_bytes <$> drop (S (Z.to_nat i)) buffers)) < fuel)%nat ->
  buffer_bytes fuel buffers i j = Ok (drop (Z.to_nat j) (slice_bytes s) ++ concat (slice_bytes <$> drop (S (Z.to_nat i)) buffers)).
Proof.
  assert (Hlen : forall s, length (slice_bytes s) = Z.to_nat (slice_len s)) by (intros s; unfold slice_bytes; by rewrite length_fmap, length_seqZ).
  induction fuel as [|fuel IH]; intros i j s Hs Hi Hj Hfu; [lia|]. cbn [buffer_bytes]. unfold buffer_next.
  pose proof (lookup_lt_Some _ _ _ Hs) as Hlt. rewrite (proj2 (Z.leb_gt _ _)) by (unfold zlen; lia).
  rewrite (index_Ok _ _ _ Hi Hs). rewrite (proj2 (Z.leb_le _ _)), (proj2 (Z.ltb_lt _ _)) by lia. cbn [andb].
  assert (Hd : drop (Z.to_nat j) (slice_bytes s) = (sl_page s, sl_from s + j) :: drop (S (Z.to_nat j)) (slice_bytes s)).
  { apply drop_S. unfold slice_bytes. rewrite list_lookup_fmap, lookup_seqZ_lt by lia. cbn. do 3 f_equal. lia. }
  rewrite Hd in Hfu |- *. cbn [length app] in Hfu |- *. destruct (Z.eqb_spec (j + 1) (slice_len s)) as [He|He].
  - rewrite (drop_ge (slice_bytes s)) in * by (rewrite Hlen; lia). cbn [length app] in *.
    destruct (buffers !! S (Z.to_nat i)) as [s'|] eqn:Hs'.
    + assert (E : Z.to_nat (i + 1) = S (Z.to_nat i)) by lia. pose proof (Forall_lookup_1 _ _ _ _ Hne Hs') as Hpos. cbn in Hpos.
      rewrite (drop_S _ _ _ Hs') in Hfu |- *. cbn [fmap list_fmap concat] in Hfu |- *. rewrite length_app in Hfu.
      rewrite (IH (i + 1) 0 s'); rewrite ?E; [done|done|lia|lia|]. cbn [Z.to_nat]. rewrite drop_0. lia.
    + apply lookup_ge_None in Hs'. rewrite (drop_ge buffers) by lia. destruct fuel; [cbn in Hfu; lia|]. cbn [buffer_bytes]. unfold buffer_next.
      by rewrite (proj2 (Z.leb_le _ _)) by (unfold zlen; lia).
  - rewrite (IH i (j + 1) s) by (done || (rewrite ?Z2Nat.inj_add, ?Nat.add_1_r by lia; lia)).
    by replace (Z.to_nat (j + 1)) with (S (Z.to_nat j)) by lia.
Qed.

Lemma buffer_bytes_ok fuel : (length (concat (slice_bytes <$> buffers)) < fuel)%nat ->
  buffer_bytes fuel buffers 0 0 = Ok (concat (slice_bytes <$> buffers)).
Proof.
  intros Hfu. destruct (buffers !! 0%nat) as [s|] eqn:Hs.
  - assert (E : buffers = s :: drop 1 buffers) by (by rewrite <- (drop_S _ _ _ Hs), drop_0).
    assert (Ec : concat (slice_bytes <$> buffers) = slice_bytes s ++ concat (slice_bytes <$> drop 1 buffers)) by (by rewrite E at 1).
    rewrite Ec in Hfu |- *. rewrite length_app in Hfu. pose proof (Forall_lookup_1 _ _ _ _ Hne Hs) as Hpos. cbn in Hpos.
    rewrite (buffer_bytes_from fuel 0 0 s); [by rewrite drop_0|done|lia|lia|]. by rewrite drop_0.
  - apply lookup_ge_None in Hs. destruct buffers; [|cbn in Hs; lia]. by destruct fuel; [cbn in Hfu; lia|].
Qed.
End Iterator.

Section UserMem.
Context {F : Type} `{FrameAllocatorSpec F}.
Implicit Types (m : Machine F) (R : gset Z) (G D : gmap Z Z) (P : gmap Z (list byte)).
Variables (lo hi : Z) (m : Machine F) (R : gset Z) (pt : PageTable) (G D : gmap Z Z) (P : gmap Z (list byte)).
Hypothesis Hsp : space lo hi m R pt G D P.
Hypothesis Hlo : 0 < lo.
Let pt0 := mkPageTable (root_ppn pt) [].

Lemma space_root : 0 <= root_ppn pt < 2 ^ 44.
Proof.
  destruct (sp_tables _ _ _ _ _ _ _ _ Hsp) as (T & HT & _). by destruct (pt_table _ _ _ HT _ _ _ (pt_root _ _ _ HT)) as (_ & _ & ? & _).
Qed.

Lemma from_token_space : from_token (token pt) = pt0.
Proof. apply token_root, space_root. Qed.

(** The byte at address [a] lies in page [user_frame a]. *)
Definition user_frame (a : Z) : Z := default 0 (D !! (a / 4096)).
Definition user_place (a : Z) : Z * Z := (user_frame a, a mod 4096).

Lemma user_page a : data_page G D (a / 4096) -> exists flags b, G !! (a / 4096) = Some (pte_new (user_frame a) flags) /\
  0 <= flags < 2 ^ 8 /\ 0 <= user_frame a < 2 ^ 44 /\ P !! (a / 4096) = Some b /\ ram m !! user_frame a = Some b /\ length b = page_len.
Proof.
  intros (p & fl & HD & HG & Hf). destruct (space_page _ _ _ _ _ _ _ _ _ _ Hsp HD) as (b & HP & Hr & Hl).
  pose proof (space_frame_range _ _ _ _ _ _ _ _ _ _ Hsp HD). exists fl, b. unfold user_frame. rewrite HD. change (default 0 (Some p)) with p. split_and!; try done; lia.
Qed.

(** ** [translated_byte_buffer] *)
Lemma page_slice_ok p b from to : ram m !! p = Some b -> length b = page_len -> 0 <= from <= to -> to <= 4096 ->
  page_slice p from to m = Ok (mkSlice p from to, m).
Proof.
  intros Hb Hl Hf Ht. unfold page_slice, bind, read_page. rewrite Hb. rewrite slice_Ok by (unfold zlen; rewrite ?Hl; unfold page_len; lia). done.
Qed.

Lemma buffer_step_ok start end_ : 0 <= start < end_ -> end_ < 2 ^ 38 -> data_page G D (start / 4096) ->
  let next := Z.min (4096 * (start / 4096 + 1)) end_ in
  buffer_step pt0 start end_ m = Ok ((mkSlice (user_frame start) (start mod 4096) (start mod 4096 + (next - start)), next), m).
Proof.
  intros Hs He Hd next. destruct (user_page start Hd) as (fl & b & HG & Hf & Hp & _ & Hb & Hl).
  unfold buffer_step. rewrite va_from_mod, Z.mod_small by lia. unfold floor. change PAGE_SIZE with 4096.
  assert (Hn : 0 <= start / 4096 < 2 ^ 26) by dlia.
  rewrite (bind_Ok _ _ _ _ _ (space_translate _ _ _ _ _ _ _ _ _ _ Hsp HG)). cbn [unwrap lift]. rewrite bind_ret.
  rewrite pte_ppn_new by done. unfold step. rewrite w64_small by lia. rewrite addr_of_small by lia.
  rewrite va_from_mod, (Z.mod_small end_) by lia. rewrite !page_offset_mod.
  replace (Z.min ((start / 4096 + 1) * 4096) end_) with next by (unfold next; lia).
  assert (Hnext : start < next /\ next <= 4096 * (start / 4096 + 1) /\ next < 2 ^ 38) by (unfold next; dlia).
  assert (Eu : usize_of_va next = next) by (rewrite usize_of_va_spec by lia; by rewrite (proj2 (Z.leb_gt _ _)) by lia).
  assert (Hto : (if next mod 4096 =? 0 then page_slice (user_frame start) (start mod 4096) 4096
     else page_slice (user_frame start) (start mod 4096) (next mod 4096)) m
     = Ok (mkSlice (user_frame start) (start mod 4096) (start mod 4096 + (next - start)), m)).
  { destruct (Z.eqb_spec (next mod 4096) 0) as [E0|E0].
    - rewrite (page_slice_ok _ b) by (done || dlia). do 3 f_equal. dlia.
    - rewrite (page_slice_ok _ b) by (done || dlia). do 3 f_equal. dlia. }
  rewrite (bind_Ok _ _ _ _ _ Hto), Eu. done.
Qed.

Lemma slice_places start next : 0 <= start <= next -> next <= 4096 * (start / 4096 + 1) ->
  slice_bytes (mkSlice (user_frame start) (start mod 4096) (start mod 4096 + (next - start))) = user_place <$> seqZ start (next - start).
Proof.
  intros Hs Hn. unfold slice_bytes, slice_len. cbn [sl_page sl_from sl_to]. apply list_eq. intros i. rewrite !list_lookup_fmap.
  replace (start mod 4096 + (next - start) - start mod 4096) with (next - start) by lia.
  destruct (decide (Z.of_nat i < next - start)) as [Hi|Hi].
  - rewrite !lookup_seqZ_lt by lia. cbn [fmap option_fmap option_map]. unfold user_place, user_frame.
    assert (E1 : (start + Z.of_nat i) / 4096 = start / 4096) by dlia.
    assert (E2 : (start + Z.of_nat i) mod 4096 = start mod 4096 + Z.of_nat i) by dlia. by rewrite E1, E2.
  - by rewrite !lookup_seqZ_ge by lia.
Qed.

Lemma buffer_loop_ok fuel : forall start end_ v, 0 <= start <= end_ -> end_ < 2 ^ 38 ->
  (forall a, start <= a < end_ -> data_page G D (a / 4096)) -> (start < end_ -> (end_ + 4095) / 4096 - start / 4096 <= Z.of_nat fuel) ->
  exists v', buffer_loop fuel pt0 start end_ v m = Ok (v ++ v', m) /\ Forall (fun s => 0 < slice_len s) v' /\
    concat (slice_bytes <$> v') = user_place <$> seqZ start (end_ - start).
Proof.
  induction fuel as [|fuel IH]; intros start end_ v Hs He Hd Hfu.
  { assert (start = end_) as -> by (destruct (decide (start = end_)); [done|]; specialize (Hfu ltac:(lia)); dlia). exists []. cbn [buffer_loop]. rewrite Z.ltb_irrefl, app_nil_r, Z.sub_diag. split_and!; [done|constructor|done]. }
  cbn [buffer_loop]. destruct (Z.ltb_spec start end_) as [Hlt|Hge].
  2: { exists []. rewrite app_nil_r. split_and!; [done|constructor|]. replace (end_ - start) with 0 by lia. done. }
  set (next := Z.min (4096 * (start / 4096 + 1)) end_).
  rewrite (bind_Ok _ _ _ _ _ (buffer_step_ok start end_ ltac:(lia) He (Hd start ltac:(lia)))). fold next.
  assert (Hnext : start < next <= end_ /\ next <= 4096 * (start / 4096 + 1)) by (unfold next; dlia).
  set (s := mkSlice _ _ _).
  destruct (IH next end_ (v ++ [s])) as (v' & E & Hpos & Hc); [lia|lia|intros a Ha; apply Hd; lia| |].
  { intros Hlt'. specialize (Hfu Hlt). replace next with (4096 * (start / 4096 + 1)) by (unfold next in *; lia). dlia. }
  exists (s :: v'). split_and!; [by rewrite E, <- app_assoc|constructor; [unfold s, slice_len; cbn [sl_to sl_from]; lia|done]|].
  cbn [fmap list_fmap concat]. rewrite Hc. unfold s. rewrite slice_places by lia. rewrite <- fmap_app. f_equal.
  replace (end_ - start) with ((next - start) + (end_ - next)) by lia. rewrite seqZ_app by lia. do 2 f_equal. lia.
Qed.

Lemma translated_byte_buffer_ok fuel ptr len : 0 <= ptr -> 0 <= len -> ptr + len < 2 ^ 38 ->
  (forall a, ptr <= a < ptr + len -> data_page G D (a / 4096)) -> len / 4096 + 2 <= Z.of_nat fuel ->
  exists v, translated_byte_buffer fuel (token pt) ptr len m = Ok (v, m) /\ Forall (fun s => 0 < slice_len s) v /\
    concat (slice_bytes <$> v) = user_place <$> seqZ ptr len.
Proof.
  intros Hp Hl Hb Hd Hfu. unfold translated_byte_buffer. rewrite from_token_space, w64_small by lia.
  destruct (buffer_loop_ok fuel ptr (ptr + len) []) as (v & E & Hpos & Hc); [lia|lia|done| |].
  { intros _. clear -Hp Hl Hfu. revert Hfu. generalize (Z.of_nat fuel). intros n Hfu. dlia. }
  exists v. split_and!; [done|done|]. rewrite Hc. do 2 f_equal. lia.
Qed.

(** A buffer of [2 ^ 39] bytes: the end of the range is truncated to the start. *)
Lemma buffer_loop_stuck fuel ptr v : 0 <= ptr < 2 ^ 38 -> ptr mod 4096 = 0 -> data_page G D (ptr / 4096) ->
  buffer_loop fuel pt0 ptr (ptr + 2 ^ 39) v m = Fail OutOfFuel.
Proof.
  intros Hp Hz0 Hd. revert v. induction fuel as [|fuel IH]; intros v; cbn [buffer_loop]; rewrite (proj2 (Z.ltb_lt _ _)) by lia; [done|].
  destruct (user_page ptr Hd) as (fl & b & HG & Hf & Hpf & _ & Hb & Hlb).
  assert (E : buffer_step pt0 ptr (ptr + 2 ^ 39) m = Ok ((mkSlice (user_frame ptr) 0 4096, ptr), m)).
  { unfold buffer_step. rewrite !va_from_mod. assert (Em : (ptr + 2 ^ 39) mod 2 ^ 39 = ptr) by dlia.
    rewrite Em, Z.mod_small by lia.
    unfold floor. change PAGE_SIZE with 4096. rewrite (bind_Ok _ _ _ _ _ (space_translate _ _ _ _ _ _ _ _ _ _ Hsp HG)).
    cbn [unwrap lift]. rewrite bind_ret, pte_ppn_new by done. unfold step. rewrite w64_small by dlia. rewrite addr_of_small by dlia.
    replace (Z.min ((ptr / 4096 + 1) * 4096) ptr) with ptr by dlia. rewrite page_offset_mod, Hz0. cbn [Z.eqb].
    rewrite (bind_Ok _ _ _ _ _ (page_slice_ok _ b 0 4096 Hb Hlb ltac:(lia) ltac:(lia))), usize_of_va_spec by lia.
    by rewrite (proj2 (Z.leb_gt _ _)) by lia. }
  rewrite (bind_Ok _ _ _ _ _ E). apply IH.
Qed.

(** ** [translated_str] and [translated_ref] *)
Lemma translate_user a : 0 <= a < 2 ^ 39 -> data_page G D (a / 4096) ->
  translate_va pt0 (va_from a) m = Ok (Some (user_frame a * 4096 + a mod 4096), m).
Proof.
  intros Ha Hd. destruct (user_page a Hd) as (fl & b & HG & Hf & Hpf & _). destruct (space_rep _ _ _ _ _ _ _ _ Hsp) as (T & Hrep & HT).
  rewrite va_from_mod, Z.mod_small by lia. rewrite (translate_va_mapped m pt0 T) with (v := pte_new (user_frame a) fl).
  - by rewrite pte_ppn_new.
  - apply Hrep.
  - done.
  - unfold floor. change PAGE_SIZE with 4096. rewrite HT by dlia. done.
Qed.

Lemma check_user a : data_page G D (a / 4096) ->
  check_null (user_frame a * 4096 + a mod 4096) m = Ok (user_frame a * 4096 + a mod 4096, m).
Proof.
  intros (p & fl & HD & _). destruct (fa_range _ _ _ _ (mok_alloc _ _ _ _ (sp_machine _ _ _ _ _ _ _ _ Hsp))) as (_ & _ & Hin).
  assert (Hp : lo <= p < hi) by (apply Hin, elem_of_union_l, elem_of_owned; eauto).
  unfold check_null, user_frame. rewrite HD. change (default 0 (Some p)) with p. pose proof (Z.mod_pos_bound a 4096 ltac:(lia)).
  by rewrite (proj2 (Z.eqb_neq _ _)) by lia.
Qed.

Lemma read_user_byte a c : data_page G D (a / 4096) -> user_byte P a = Some c ->
  read_byte (user_frame a * 4096 + a mod 4096) m = Ok (c, m).
Proof.
  intros Hd Hc. destruct (user_page a Hd) as (fl & b & HG & Hf & Hpf & HP & Hb & Hl). unfold user_byte in Hc. rewrite HP in Hc. cbn [mbind option_bind] in Hc.
  unfold read_byte, floor. rewrite (bind_Ok _ _ _ _ _ (check_user a Hd)). change PAGE_SIZE with 4096. pose proof (Z.mod_pos_bound a 4096 ltac:(lia)).
  destruct (split_addr (user_frame a) (a mod 4096)) as [Ed Em]; [lia|]. rewrite Ed. unfold bind, read_page. rewrite Hb.
  rewrite page_offset_mod, Em.
  by rewrite (index_Ok b (a mod 4096) c ltac:(lia) Hc).
Qed.

(** The characters of the bytes [cs], in UTF-8. *)
Definition chars (cs : list byte) : list byte := foldl push_char [] cs.

Lemma str_loop_ok cs : forall fuel a string, (length cs < fuel)%nat -> 0 <= a -> a + zlen cs < 2 ^ 39 ->
  (forall x, a <= x <= a + zlen cs -> data_page G D (x / 4096)) ->
  (forall i c, cs !! i = Some c -> c <> Byte.x00 /\ user_byte P (a + Z.of_nat i) = Some c) -> user_byte P (a + zlen cs) = Some Byte.x00 ->
  str_loop fuel pt0 a string m = Ok (foldl push_char string cs, m).
Proof.
  induction cs as [|c cs IH]; intros fuel a string Hfu Ha Hb Hd Hcs Hend; (destruct fuel as [|fuel]; [lia|]); cbn [str_loop].
  - change (zlen []) with 0 in *. rewrite Z.add_0_r in *.
    rewrite (bind_Ok _ _ _ _ _ (translate_user a ltac:(lia) (Hd a ltac:(lia)))). cbn [unwrap lift]. rewrite bind_ret.
    by rewrite (bind_Ok _ _ _ _ _ (read_user_byte a _ (Hd a ltac:(lia)) Hend)).
  - assert (Hz : zlen (c :: cs) = zlen cs + 1) by (unfold zlen; cbn [length]; lia). pose proof (zlen_nonneg cs). rewrite Hz in *.
    destruct (Hcs 0%nat c eq_refl) as [Hc0 Hc]. rewrite Z.add_0_r in Hc.
    rewrite (bind_Ok _ _ _ _ _ (translate_user a ltac:(lia) (Hd a ltac:(lia)))). cbn [unwrap lift]. rewrite bind_ret.
    rewrite (bind_Ok _ _ _ _ _ (read_user_byte a _ (Hd a ltac:(lia)) Hc)). rewrite decide_False by done. rewrite w64_small by lia.
    cbn [foldl length] in *. apply IH; [lia|lia|lia|intros x Hx; apply Hd; lia| |by rewrite <- Z.add_assoc, (Z.add_comm 1)].
    intros i c' Hi. destruct (Hcs (S i) c' Hi) as [? Hu]. split; [done|]. rewrite <- Hu. f_equal. lia.
Qed.

Lemma translated_str_ok cs fuel ptr : (length cs < fuel)%nat -> 0 <= ptr -> ptr + zlen cs < 2 ^ 39 ->
  (forall x, ptr <= x <= ptr + zlen cs -> data_page G D (x / 4096)) ->
  (forall i c, cs !! i = Some c -> c <> Byte.x00 /\ user_byte P (ptr + Z.of_nat i) = Some c) -> user_byte P (ptr + zlen cs) = Some Byte.x00 ->
  translated_str fuel (token pt) ptr m = Ok (chars cs, m).
Proof. intros. unfold translated_str. rewrite from_token_space. by apply str_loop_ok. Qed.

Lemma translated_ref_ok a : 0 <= a < 2 ^ 39 -> data_page G D (a / 4096) ->
  translated_ref (token pt) a m = Ok (user_frame a * 4096 + a mod 4096, m).
Proof.
  intros Ha Hd. unfold translated_ref. rewrite from_token_space, (bind_Ok _ _ _ _ _ (translate_user a Ha Hd)). by apply check_user.
Qed.

End UserMem.

(** ASCII strings are read as they are. *)
Lemma chars_ascii cs : Forall (fun c => byte.unsigned c < 0x80) cs -> chars cs = cs.
Proof.
  intros Hcs. unfold chars. change cs with ([] ++ cs) at 2. generalize (@nil byte). induction Hcs as [|c cs Hc _ IH]; intros acc; cbn [foldl]; [by rewrite app_nil_r|].
  unfold push_char at 2. rewrite (proj2 (Z.ltb_lt _ _)) by done. by rewrite IH, <- app_assoc.
Qed.
