(* ===== verification/MmTheorems.v ===== *)
(** * Theorems on memory management

    Frames, addresses, page tables, address spaces and the kernel's access to
    user memory (os/src/mm). *)

From S2P Require Import Prelude Address Frames PageTable PtInv PtOps Space PtRefine MemorySet AreaOps MsOps MsLife MsBuild UserMem.

(** ** A small machine for the witnesses: 200 frames, all free *)
Definition small_machine : Machine StackFrameAllocator :=
  mkMachine (gset_to_gmap zero_page (list_to_set (seqZ 128 200))) (stack_init 128 328 stack_new).

Lemma small_machine_ok : machine_ok 128 328 small_machine ∅.
Proof.
  split.
  - split; cbn; [done|lia|lia|constructor|by intros p ?%not_elem_of_nil|]. intros p. rewrite elem_of_empty. split; [done|lia].
  - intros p Hp. exists zero_page. apply lookup_gset_to_gmap_Some. split; [|done]. apply elem_of_list_to_set, elem_of_seqZ. lia.
  - intros p b [_ <-]%lookup_gset_to_gmap_Some. apply length_replicate.
Qed.

(** ** Addresses *)

(** Addresses and page numbers.  A 39-bit virtual address survives the sign
    extension to [usize] and back, the three indexes of a page number are below
    512 and determine it, the page of a page's address is the page, and [floor]
    and [ceil] round to the pages around the address. *)
Theorem address_arithmetic v vpn n :
  0 <= v < 2 ^ 39 -> 0 <= vpn < 2 ^ 27 -> 0 <= n < 2 ^ 52 ->
  (va_from (usize_of_va v) = v /\ 0 <= usize_of_va v < 2 ^ 64) /\
  (exists i j k, indexes vpn = [i; j; k] /\ 0 <= i < 512 /\ 0 <= j < 512 /\ 0 <= k < 512 /\ vpn = (i * 512 + j) * 512 + k) /\
  page_of (addr_of n) = Ok n /\
  (addr_of (floor v) <= v < addr_of (floor v) + 4096) /\ (v <= addr_of (ceil v) < v + 4096).
Proof.
  intros Hv Hvpn Hn. split_and!.
  - rewrite usize_of_va_spec, va_from_mod by done. destruct (2 ^ 38 <=? v); dlia.
  - rewrite usize_of_va_spec by done. destruct (Z.leb_spec (2 ^ 38) v); lia.
  - rewrite usize_of_va_spec by done. destruct (Z.leb_spec (2 ^ 38) v); lia.
  - rewrite indexes_spec by done. eexists _, _, _. split; [done|]. dlia.
  - unfold page_of. rewrite addr_of_small, page_offset_mod by lia. rewrite Z.mod_mul by lia. cbn [Z.eqb]. unfold floor.
    change PAGE_SIZE with 4096. by rewrite Z.div_mul.
  - unfold floor. change PAGE_SIZE with 4096. rewrite addr_of_small by dlia. dlia.
  - unfold floor. change PAGE_SIZE with 4096. rewrite addr_of_small by dlia. dlia.
  - rewrite ceil_div_page by (change PAGE_SIZE with 4096; lia). unfold ceil_div. rewrite addr_of_small by dlia. dlia.
  - rewrite ceil_div_page by (change PAGE_SIZE with 4096; lia). unfold ceil_div. rewrite addr_of_small by dlia. dlia.
Qed.

Lemma address_arithmetic_witness :
  (va_from (usize_of_va (2 ^ 39 - 1)) = 2 ^ 39 - 1 /\ 0 <= usize_of_va (2 ^ 39 - 1) < 2 ^ 64) /\ page_of (addr_of 7) = Ok 7.
Proof.
  destruct (address_arithmetic (2 ^ 39 - 1) 5 7) as (H1 & _ & H2 & _); [lia|lia|lia|]. split; [exact H1|exact H2].
Defined.

(** [for vpn in range] terminates and visits the pages of the range in
    order, for every range of page numbers whose end is a [usize]. *)
Theorem range_terminates start end_ :
  0 <= start <= end_ -> end_ < 2 ^ 64 ->
  exists r fuel, range_new start end_ = Ok r /\ range_items fuel (get_start r) (get_end r) = Some (vpns r) /\
    (forall fuel', (fuel <= fuel')%nat -> range_items fuel' (get_start r) (get_end r) = Some (vpns r)) /\
    length (vpns r) = Z.to_nat (end_ - start).
Proof.
  intros Hs He. exists (mkRange start end_), (Z.to_nat (end_ - start)). unfold range_new, vpns. cbn [get_start get_end].
  rewrite (proj2 (Z.leb_le _ _)) by lia. split_and!; [done| | |apply length_seqZ].
  - apply range_items_spec; lia.
  - intros fuel' Hf. apply range_items_spec; lia.
Qed.

Lemma range_terminates_witness : exists r fuel, range_new 3 6 = Ok r /\ range_items fuel (get_start r) (get_end r) = Some [3; 4; 5].
Proof.
  destruct (range_terminates 3 6) as (r & fuel & E & Hr & _); [lia|lia|]. exists r, fuel. split; [exact E|].
  rewrite Hr. injection E as <-. reflexivity.
Defined.

(** ** Frames *)

(** The states of the frame allocator of [[lo, hi)] and the frames in use. *)
Inductive frames_reach (lo hi : Z) : StackFrameAllocator -> gset Z -> Prop :=
| reach_init : frames_reach lo hi (stack_init lo hi stack_new) ∅
| reach_alloc f A p f' : frames_reach lo hi f A -> stack_alloc f = (Some p, f') -> frames_reach lo hi f' ({[p]} ∪ A)
| reach_dealloc f A p f' : frames_reach lo hi f A -> p ∈ A -> stack_dealloc p f = Ok f' -> frames_reach lo hi f' (A ∖ {[p]}).

Lemma frames_reach_inv lo hi f A : 0 <= lo <= hi -> hi <= 2 ^ 44 -> frames_reach lo hi f A -> fa_inv f lo hi A.
Proof.
  intros Hlo Hhi Hr. induction Hr as [|f A p f' _ IH E|f A p f' _ IH Hp E].
  - split; cbn; [done|lia|lia|constructor|by intros p ?%not_elem_of_nil|]. intros p. rewrite elem_of_empty. split; [done|lia].
  - pose proof (stack_count _ _ _ _ IH) as Hc. destruct (decide (Z.of_nat (size A) = hi - lo)) as [Hfull|Hfull].
    + pose proof (fa_alloc_none f lo hi A IH Hfull) as E'. change (stack_alloc f = (None, f)) in E'. congruence.
    + destruct (fa_alloc_some f lo hi A IH) as (q & g & E' & _ & _ & Hg); [unfold zlen in Hc; pose proof (st_bounds _ _ _ _ IH); lia|].
      change (stack_alloc f = (Some q, g)) in E'. rewrite E in E'. by injection E' as -> ->.
  - destruct (fa_dealloc_ok f lo hi A p IH Hp) as (g & E' & Hg). change (stack_dealloc p f = Ok g) in E'.
    rewrite E in E'. by injection E' as ->.
Qed.

(** C31: the frame allocator is sound.  In every state that any sequence of
    allocations and of deallocations of frames in use reaches, a frame it hands
    out lies in the managed range and is not in use, it refuses only when all
    frames are in use, every frame in use can be returned, and returning a frame
    that is not in use panics. *)
Theorem frame_allocator_sound lo hi f A : 0 <= lo <= hi -> hi <= 2 ^ 44 -> frames_reach lo hi f A ->
  (forall p f', stack_alloc f = (Some p, f') -> (p ∉ A) /\ lo <= p < hi) /\
  ((stack_alloc f).1 = None <-> Z.of_nat (size A) = hi - lo) /\
  (forall p, p ∈ A -> exists f', stack_dealloc p f = Ok f') /\
  (forall p, lo <= p -> p ∉ A -> stack_dealloc p f = Fail Panic).
Proof.
  intros Hlo Hhi Hr. pose proof (frames_reach_inv _ _ _ _ Hlo Hhi Hr) as Hinv. pose proof (stack_count _ _ _ _ Hinv) as Hc.
  pose proof (st_bounds _ _ _ _ Hinv) as Hb. unfold zlen in Hc.
  destruct (decide (Z.of_nat (size A) = hi - lo)) as [Hfull|Hfull].
  - pose proof (fa_alloc_none f lo hi A Hinv Hfull) as E. change (stack_alloc f = (None, f)) in E. rewrite E.
    split_and!; [done|done| |intros p Hp Hn; exact (fa_dealloc_bad f lo hi A p Hinv Hp Hn)].
    intros p Hp. destruct (fa_dealloc_ok f lo hi A p Hinv Hp) as (g & Eg & _). eauto.
  - destruct (fa_alloc_some f lo hi A Hinv) as (q & g & E & Hq & Hqr & _); [lia|]. change (stack_alloc f = (Some q, g)) in E. rewrite E.
    split_and!; [intros p f' [= <- <-]; done|done| |intros p Hp Hn; exact (fa_dealloc_bad f lo hi A p Hinv Hp Hn)].
    intros p Hp. destruct (fa_dealloc_ok f lo hi A p Hinv Hp) as (g' & Eg & _). eauto.
Qed.

Lemma frame_allocator_sound_witness :
  frames_reach 4 6 (mkStack 5 6 []) {[4]} /\ (exists f', stack_dealloc 4 (mkStack 5 6 []) = Ok f') /\ stack_dealloc 5 (mkStack 5 6 []) = Fail Panic.
Proof.
  assert (Hr : frames_reach 4 6 (mkStack 5 6 []) {[4]}).
  { rewrite <- (union_empty_r_L {[4]}). eapply reach_alloc; [apply reach_init|reflexivity]. }
  split; [exact Hr|]. destruct (frame_allocator_sound 4 6 (mkStack 5 6 []) {[4]} ltac:(lia) ltac:(lia) Hr) as (_ & _ & H1 & H2).
  split; [apply H1; set_solver|apply H2; [lia|set_solver]].
Defined.

(** ** Page tables *)

(** C17: a page table refines a finite map.  Any sequence of [map], [unmap] and
    [translate] returns what the abstract table returns: [translate] the entry of
    a mapped page, nothing for a page without a table, and the entry 0, which
    is not valid, for any other page.  It panics exactly where the abstract table
    does (mapping a mapped page, unmapping an unmapped one), and keeps the data
    pages and the frames of everyone else, as long as two frames per call are left. *)
Theorem page_table_refines {F : Type} `{FrameAllocatorSpec F} lo hi os (m : Machine F) R pt S D P :
  refines lo hi m R pt S D P -> Forall op_ok os -> used pt D R + 2 * zlen os <= hi - lo ->
  match spec_ops os S with
  | Some (rs, S') => exists pt' m', do_ops pt os m = Ok ((rs, pt'), m') /\ refines lo hi m' R pt' S' D P /\ same_on R m m'
  | None => do_ops pt os m = Fail Panic
  end.
Proof. apply pt_ops_ok. Qed.

(** Page 600 never has a table; page 6 has one, and so has page 5 once it is unmapped. *)
Lemma page_table_refines_witness : exists pt m', pt_new small_machine = Ok (pt, m') /\
  exists pt' m'', do_ops pt [OpMap 5 200 14; OpTranslate 5; OpUnmap 5; OpTranslate 5; OpTranslate 6; OpTranslate 600] m' =
    Ok (([None; Some (200 * 1024 + 15); None; Some 0; Some 0; None], pt'), m'').
Proof.
  destruct (refines_new 128 328 small_machine ∅ small_machine_ok) as (p & m' & E & Hsp & Hu); [vm_compute; reflexivity|].
  exists (mkPageTable p [p]), m'. split; [exact E|].
  pose proof (page_table_refines 128 328 [OpMap 5 200 14; OpTranslate 5; OpUnmap 5; OpTranslate 5; OpTranslate 6; OpTranslate 600] m' ∅ (mkPageTable p [p]) (∅, ∅) ∅ ∅ Hsp) as Hr.
  destruct Hr as (pt' & m'' & E' & _).
  - repeat constructor; cbn; lia.
  - rewrite Hu. vm_compute. discriminate.
  - exists pt', m''. exact E'.
Defined.

(** ** Address spaces *)

(** A program of one segment of two pages at [0x10000], for the witnesses. *)
Definition demo_data : list byte := [Byte.x13; Byte.x05; Byte.x10; Byte.x00].
Definition demo_header : ProgramHeader := mkHeader (Some true) 0x10000 5000 0 4 true false true.
Definition demo_elf : ElfFile := mkElf [0x7f; 0x45; 0x4c; 0x46] [Some demo_header] 0x10000.
Definition demo_parse (d : list byte) : option ElfFile := if decide (d = demo_data) then Some demo_elf else None.

Section Theorems.
Context {F : Type} `{FrameAllocatorSpec F}.

(** C29: [from_elf] builds the address space of the file.  For an ELF file whose
    loadable segments lie in the lower half of the address space in ascending
    order, it returns the areas of the segments, the user stack above a guard
    page and the trap context, with the contents of the file at the start of
    every segment and zeroes elsewhere, the stack top and the entry point; the
    page below the stack is not mapped, and no other memory changes. *)
Theorem from_elf_correct lo hi s (m : Machine F) R parse elf_data elf :
  zlen elf_data < 2 ^ 63 -> machine_ok lo hi m R -> trampoline_ok s -> parse elf_data = Some elf ->
  magic elf = [0x7f; 0x45; 0x4c; 0x46] -> Forall (header_ok elf_data) (program_headers elf) ->
  ascending 0 (segments (program_headers elf)) ->
  Z.of_nat (size R) + 3 + 3 * total_pages (elf_areas elf) <= hi - lo ->
  let last := end_page 0 (segments (program_headers elf)) in
  exists ms m' G D P,
    from_elf parse s elf_data m = Ok ((ms, 4096 * (last + 3), entry_point elf), m') /\
    ms_ok lo hi m' R ms G D P /\ same_on R m m' /\ shape <$> areas ms = shape <$> elf_areas elf /\
    (forall v b, elf_contents elf_data elf v = Some b -> P !! v = Some b) /\
    G !! last = None /\ G !! trampoline_vpn = Some (trampoline_pte s).
Proof.
  intros Hlen Hm Hs Hp Hmg Hh Ha Hroom last.
  destruct (from_elf_ok lo hi s m R elf_data Hlen parse elf Hm Hs Hp Hmg Hh Ha Hroom) as (ms & m' & G & D & P & E & [Hok Hsm Hsh Hpg Ht Hu]).
  exists ms, m', G, D, P. split_and!; [done|done|done|done|intros v b Hv; by apply Hpg| |done].
  apply eq_None_not_Some. intros Hsome. destruct (elf_last_free elf_data Hlen elf Hh Ha) as [Hlt Hno].
  destruct (ms_entries _ _ _ _ _ _ _ _ Hok last Hsome) as [E0|Hc]; [fold last in Hlt; unfold trampoline_vpn in E0; lia|].
  apply Hno. by apply (shapes_covered (areas ms)).
Qed.

(** C21: [from_existed_user] copies an address space.  The copy has the same
    areas, permissions and contents in frames of its own, the original is
    unchanged, and neither the original nor any other memory shares a frame with
    it, so that no write to one side is seen by the other. *)
Theorem fork_isolated lo hi s (m : Machine F) R us G D P :
  ms_ok lo hi m R us G D P -> Forall (fun a => map_type a = Framed) (areas us) -> trampoline_ok s ->
  G !! trampoline_vpn = Some (trampoline_pte s) ->
  used (page_table us) D R + 3 + 3 * total_pages (areas us) <= hi - lo ->
  exists ms m' G' D', from_existed_user s us m = Ok (ms, m') /\
    shape <$> areas ms = shape <$> areas us /\ (forall v, pte_flags <$> G' !! v = pte_flags <$> G !! v) /\
    ms_ok lo hi m' (owned (page_table us) D ∪ R) ms G' D' P /\ ms_ok lo hi m' (owned (page_table ms) D' ∪ R) us G D P /\
    same_on (owned (page_table us) D ∪ R) m m' /\ owned (page_table ms) D' ## owned (page_table us) D ∪ R /\
    forall v p b, D' !! v = Some p -> length b = page_len -> exists m'', write_page p b m' = Ok (tt, m'') /\
      ms_ok lo hi m'' (owned (page_table us) D ∪ R) ms G' D' (<[v := b]> P) /\
      ms_ok lo hi m'' (owned (page_table ms) D' ∪ R) us G D P.
Proof.
  intros Hus Hf Hs HG Hroom. destruct (fork_ok lo hi s m R us G D P Hus Hf Hs HG Hroom) as (ms & m' & G' & D' & E & Hc & Hp & Hsm & Hsh & Hfl & _ & _).
  exists ms, m', G', D'. pose proof (ms_space _ _ _ _ _ _ _ _ Hc) as Hcs. split_and!; try done; [apply Hcs|].
  intros v p b Hv Hb. destruct (space_write _ _ _ _ _ _ _ _ _ _ _ Hcs Hv Hb) as (m'' & Ew & Hcs' & Hs' & _).
  exists m''. split_and!; [done|destruct Hc; by split|].
  assert (Hps : space lo hi m'' (owned (page_table ms) D' ∪ R) (page_table us) G D P)
    by (by eapply space_other; [apply (ms_space _ _ _ _ _ _ _ _ Hus)|exact Hcs'|eapply same_on_trans]).
  destruct Hp; by split.
Qed.

(** C32: no frame leaks.  Dropping an address space returns exactly the frames it
    owns, and so does the exit of a process, which first recycles the data pages
    and drops the rest later. *)
Theorem drop_returns_frames lo hi (m : Machine F) R ms G D P : ms_ok lo hi m R ms G D P ->
  (exists m', drop_memory_set ms m = Ok (tt, m') /\ machine_ok lo hi m' R /\ ram m' = ram m) /\
  (exists ms' m1 m2, recycle_data_pages ms m = Ok (ms', m1) /\ areas ms' = [] /\
     machine_ok lo hi m1 (list_to_set (frames (page_table ms)) ∪ R) /\
     drop_memory_set ms' m1 = Ok (tt, m2) /\ machine_ok lo hi m2 R /\ ram m2 = ram m).
Proof.
  intros Hms. pose proof (ms_space _ _ _ _ _ _ _ _ Hms) as Hsp. pose proof (ms_tracks _ _ _ _ _ _ _ _ Hms) as Ht.
  split; [by eapply drop_ok|]. destruct (recycle_ok _ _ _ _ _ _ _ _ Hsp Ht) as (m1 & E1 & Hsp1 & Hr1).
  assert (Ht1 : tracks (mkMemorySet (page_table ms) []) ∅).
  { split; [constructor|]. intros p. split; [by intros ?%not_elem_of_nil|by intros [v ?%lookup_empty_Some]]. }
  destruct (drop_ok _ _ _ _ (mkMemorySet (page_table ms) []) _ _ _ Hsp1 Ht1) as (m2 & E2 & Hm2 & Hr2).
  exists (mkMemorySet (page_table ms) []), m1, m2. split_and!; [done|done| |done|done|congruence].
  pose proof (sp_machine _ _ _ _ _ _ _ _ Hsp1) as Hm1. unfold owned in Hm1. rewrite map_img_empty_L, union_empty_r_L in Hm1. done.
Qed.

(** [insert_framed_area] and [remove_area_with_start_vpn] are inverse, as
    the kernel stack of a process uses them: the new pages are zero and mapped
    with the permission, and removing the area restores every mapping and
    returns its frames. *)
Theorem insert_remove_roundtrip lo hi (m : Machine F) R ms G D P start_va end_va perm :
  let a := va_area start_va end_va Framed perm in
  ms_ok lo hi m R ms G D P -> 0 <= start_va <= end_va -> end_va < 2 ^ 39 -> 0 <= perm < 2 ^ 8 ->
  (forall v, in_range a v -> G !! v = None) -> Forall (fun b => get_start (vpn_range b) <> start_va / 4096) (areas ms) ->
  used (page_table ms) D R + 3 * pages a <= hi - lo ->
  exists ms1 m1 G1 D1 P1 ms2 m2,
    insert_framed_area ms start_va end_va perm m = Ok (ms1, m1) /\ ms_ok lo hi m1 R ms1 G1 D1 P1 /\
    (forall v, in_range a v -> P1 !! v = Some zero_page /\ exists p, G1 !! v = Some (pte_new p (Z.lor perm PTE_V))) /\
    remove_area_with_start_vpn ms1 (start_va / 4096) m1 = Ok (ms2, m2) /\ areas ms2 = areas ms /\ ms_ok lo hi m2 R ms2 G D P.
Proof.
  intros a Hms Hs He Hpm Hfree Hnew Hroom.
  assert (Hle : start_va / 4096 <= ceil_div end_va 4096) by (unfold ceil_div; dlia).
  assert (Hup : ceil_div end_va 4096 <= 2 ^ 27) by (unfold ceil_div; dlia).
  assert (Hr : range_ok a) by (split; cbn [a va_area vpn_range get_start get_end map_perm]; [dlia|done]).
  assert (Hfr : fresh_area G a) by done.
  destruct (push_framed lo hi m R ms G D P a Hms Hfr eq_refl Hroom) as (ms1 & m1 & G1 & D1 & P1 & E1 & [Hok1 (b & Hb & Hbr & Hbp & Hbt) Hs1 Htk Hoth Hu1] & HP1).
  destruct (remove_area_ok lo hi m1 R ms1 G1 D1 P1 (areas ms) b [] Hok1 Hb Hbt) as (m2 & E2 & Hok2 & Hs2).
  { rewrite Hbr. exact Hnew. }
  rewrite Hbr in E2, Hok2. rewrite app_nil_r in E2, Hok2.
  assert (Hback : forall A (M M1 : gmap Z A), (forall v, ~ in_range a v -> M1 !! v = M !! v) -> (forall v, in_range a v -> M !! v = None) ->
    without (vpns (vpn_range a)) M1 = M).
  { intros A M M1 Ho Hn. apply map_eq. intros v. rewrite lookup_without. destruct (decide _) as [Hv|Hv]; rewrite elem_of_vpns in Hv; [by rewrite Hn|by apply Ho]. }
  assert (HD : forall v, in_range a v -> D !! v = None) by (intros v Hv; by eapply data_mapped, Hfree).
  rewrite (Hback _ G), (Hback _ D), (Hback _ P) in Hok2.
  - exists ms1, m1, G1, D1, P1, (mkMemorySet (page_table ms1) (areas ms)), m2.
    split_and!; [|done| |done|done|done].
    + unfold insert_framed_area. rewrite area_new_ok by lia. cbn [lift]. by rewrite bind_ret.
    + intros v Hv. split; [by apply HP1|]. pose proof (ms_areas _ _ _ _ _ _ _ _ Hok1) as Ha. rewrite Hb in Ha.
      apply Forall_app in Ha as [_ [_ Hf _ _]%Forall_singleton]. destruct (Hf v) as (p & _ & _ & HG); [by rewrite Hbt|unfold in_range; by rewrite Hbr|].
      exists p. rewrite HG. unfold area_pte. by rewrite Hbp.
  - intros v Hv. by destruct (Hoth v Hv) as (_ & _ & ?).
  - intros v Hv. pose proof (sp_pages _ _ _ _ _ _ _ _ (ms_space _ _ _ _ _ _ _ _ Hms) v) as HPv. rewrite HD in HPv by done. done.
  - intros v Hv. by destruct (Hoth v Hv) as (_ & ? & _).
  - done.
  - intros v Hv. by destruct (Hoth v Hv) as (? & _ & _).
  - done.
Qed.

(** C30: the kernel's address space protects its code.  [new_kernel] identity-maps
    every section with its permission, [remap_test] passes on the result, and no
    page of memory is writable through one mapping and executable through
    another, the trampoline included. *)
Theorem kernel_protection lo hi (m : Machine F) R k MEMORY_END MMIO :
  machine_ok lo hi m R -> trampoline_ok (strampoline k) -> (forall pair, pair ∈ MMIO -> pair.1 + pair.2 < 2 ^ 64) ->
  fits lo hi R (kernel_sections k MEMORY_END MMIO) ->
  stext k < etext k -> srodata k < erodata k -> sdata k < edata k ->
  in_range (sec_area (text_section k)) (strampoline k / 4096) ->
  exists ms m' G, new_kernel k MEMORY_END MMIO m = Ok (ms, m') /\ remap_test k ms m' = Ok (tt, m') /\
    (forall x v, x ∈ kernel_sections k MEMORY_END MMIO -> in_range (sec_area x) v ->
       translate (page_table ms) v m' = Ok (Some (pte_new v (Z.lor (sec_perm x) PTE_V)), m') /\ G !! v = Some (pte_new v (Z.lor (sec_perm x) PTE_V))) /\
    ms_ok lo hi m' R ms G ∅ ∅ /\
    (forall v w x y, G !! v = Some x -> G !! w = Some y -> pte_ppn x = pte_ppn y -> writable x && executable y = false).
Proof.
  intros Hm Ht Hw Hf H1 H2 H3 Htx. destruct (new_kernel_ok lo hi m R k MEMORY_END MMIO Hm Ht Hw Hf) as (ms & m' & G & E & Hk).
  exists ms, m', G. split_and!; [done|by eapply remap_test_ok; [exact Hk|apply Hf|..]| |apply Hk|].
  - intros x v Hx Hv. pose proof (kn_pages _ _ _ _ _ _ _ _ _ Hk x v Hx Hv) as HG. split; [|done].
    by eapply space_translate; [apply (ms_space _ _ _ _ _ _ _ _ (kn_ok _ _ _ _ _ _ _ _ _ Hk))|].
  - intros v w x y Hx Hy Hp. destruct (writable x) eqn:Hwx, (executable y) eqn:Hey; try done. exfalso.
    by eapply (kernel_wx lo hi m R k MEMORY_END MMIO m' ms G v w x y).
Qed.

(** ** User memory *)

(** C34: [translated_byte_buffer] returns the buffer.  For a range of user
    addresses below [2 ^ 38] whose pages are mapped it terminates, in at most a
    round per page, and iterating over the slices visits the physical bytes of
    the range, in order and each once, which hold the contents of the user's
    pages. *)
Theorem byte_buffer_correct lo hi (m : Machine F) R pt G D P fuel ptr len :
  space lo hi m R pt G D P -> 0 <= ptr -> 0 <= len -> ptr + len < 2 ^ 38 ->
  (forall a, ptr <= a < ptr + len -> data_page G D (a / 4096)) -> len / 4096 + 2 <= Z.of_nat fuel ->
  exists v, translated_byte_buffer fuel (token pt) ptr len m = Ok (v, m) /\
    buffer_bytes (S (Z.to_nat len)) v 0 0 = Ok (user_place D <$> seqZ ptr len) /\
    forall a, ptr <= a < ptr + len -> exists b c, ram m !! (user_place D a).1 = Some b /\
      b !! Z.to_nat (user_place D a).2 = Some c /\ user_byte P a = Some c.
Proof.
  intros Hsp Hp Hl Hb Hd Hfu. destruct (translated_byte_buffer_ok lo hi m R pt G D P Hsp fuel ptr len Hp Hl Hb Hd Hfu) as (v & E & Hpos & Hc).
  exists v. split_and!; [done| |].
  - rewrite <- Hc. apply buffer_bytes_ok; [done|]. rewrite Hc, length_fmap, length_seqZ. lia.
  - intros a Ha. destruct (user_page lo hi m R pt G D P Hsp a (Hd a Ha)) as (fl & b & _ & _ & _ & HP & Hram & Hlb).
    pose proof (Z.mod_pos_bound a 4096 ltac:(lia)). destruct (lookup_lt_is_Some_2 b (Z.to_nat (a mod 4096))) as [c Hc']; [rewrite Hlb; unfold page_len; lia|].
    exists b, c. split_and!; [done|done|]. unfold user_byte. by rewrite HP.
Qed.

(** C35: a length the kernel does not survive.  For a buffer of [2 ^ 39] bytes at
    the start of a mapped page the end of the range is truncated to its start,
    and the loop of [translated_byte_buffer] never ends. *)
Theorem byte_buffer_diverges lo hi (m : Machine F) R pt G D P ptr :
  space lo hi m R pt G D P -> 0 <= ptr < 2 ^ 38 -> ptr mod 4096 = 0 -> data_page G D (ptr / 4096) ->
  forall fuel, translated_byte_buffer fuel (token pt) ptr (2 ^ 39) m = Fail OutOfFuel.
Proof.
  intros Hsp Hp H4 Hd fuel. unfold translated_byte_buffer. rewrite (from_token_space lo hi m R pt G D P Hsp), w64_small by lia.
  by apply (buffer_loop_stuck lo hi m R pt G D P Hsp).
Qed.

(** [translated_str] reads the zero-terminated string at the address, one
    character per byte; the string is the bytes themselves when they are ASCII. *)
Theorem translated_str_correct lo hi (m : Machine F) R pt G D P cs fuel ptr :
  space lo hi m R pt G D P -> 0 < lo -> (length cs < fuel)%nat -> 0 <= ptr -> ptr + zlen cs < 2 ^ 39 ->
  (forall x, ptr <= x <= ptr + zlen cs -> data_page G D (x / 4096)) ->
  (forall i c, cs !! i = Some c -> c <> Byte.x00 /\ user_byte P (ptr + Z.of_nat i) = Some c) ->
  user_byte P (ptr + zlen cs) = Some Byte.x00 ->
  translated_str fuel (token pt) ptr m = Ok (chars cs, m) /\
  (Forall (fun c => byte.unsigned c < 0x80) cs -> chars cs = cs).
Proof. intros Hsp Hlo ? ? ? ? ? ?. split; [by apply (translated_str_ok lo hi m R pt G D P Hsp Hlo)|apply chars_ascii]. Qed.

End Theorems.

(** ** The hypotheses hold: a program loaded on the small machine *)
Lemma demo_headers : Forall (header_ok demo_data) (program_headers demo_elf) /\ ascending 0 (segments (program_headers demo_elf)).
Proof.
  split; [|vm_compute; by split]. apply Forall_singleton. right. split; [done|]. unfold seg_ok, zlen. cbn. lia.
Qed.

Lemma demo_room : Z.of_nat (size (∅ : gset Z)) + 3 + 3 * total_pages (elf_areas demo_elf) <= 328 - 128.
Proof. vm_compute. discriminate. Qed.

Lemma demo_space : exists ms (m : Machine StackFrameAllocator) G D P, ms_ok 128 328 m ∅ ms G D P /\
  G !! trampoline_vpn = Some (trampoline_pte 0x80000000) /\ shape <$> areas ms = shape <$> elf_areas demo_elf /\
  P !! 16 = Some (page_image demo_data 0) /\ data_page G D 16 /\ used (page_table ms) D ∅ <= 18.
Proof.
  destruct demo_headers as [Hh Ha].
  destruct (from_elf_ok 128 328 0x80000000 small_machine ∅ demo_data ltac:(vm_compute; done) demo_parse demo_elf
    small_machine_ok ltac:(split; [lia|done]) eq_refl eq_refl Hh Ha demo_room) as (ms & m & G & D & P & _ & [Hok _ Hsh Hpg Ht Hu]).
  exists ms, m, G, D, P. split_and!; [done|done|done| | |].
  - apply Hpg. reflexivity.
  - destruct (shapes_elem (elf_areas demo_elf) (areas ms) (seg_area demo_header)) as (b & Hb & Hs); [done|by left|].
    apply (area_data_page G D b 16); [by apply (proj1 (Forall_forall _ _) (ms_areas _ _ _ _ _ _ _ _ Hok))|by injection Hs|].
    apply (shape_range (seg_area demo_header) b); [done|]. vm_compute. split; [discriminate|reflexivity].
  - etrans; [exact Hu|]. vm_compute. discriminate.
Qed.

Lemma demo_areas ms : shape <$> areas ms = shape <$> elf_areas demo_elf ->
  Forall (fun a => map_type a = Framed) (areas ms) /\ total_pages (areas ms) = 5.
Proof.
  intros E. split.
  - apply Forall_forall. intros a Ha. destruct (shapes_elem _ _ a E Ha) as (b & Hb & Hs). injection Hs as _ Ht _. rewrite Ht.
    repeat (apply elem_of_cons in Hb as [->|Hb]; [reflexivity|]). by apply not_elem_of_nil in Hb.
  - assert (Hp : forall l, total_pages l = foldr (fun x n => get_end x.1.1 - get_start x.1.1 + n) 0 (shape <$> l))
      by (induction l as [|a l IH]; [done|]; cbn [fmap list_fmap foldr total_pages]; unfold total_pages in IH; rewrite IH; done).
    rewrite Hp, E. reflexivity.
Qed.

Lemma demo_bounds b : b ∈ elf_areas demo_elf -> get_end (vpn_range b) <= 512 \/ 2 ^ 27 - 2 <= get_start (vpn_range b).
Proof.
  intros Hb. repeat (apply elem_of_cons in Hb as [->|Hb]; [first [left; vm_compute; discriminate|right; vm_compute; discriminate]|]).
  by apply not_elem_of_nil in Hb.
Qed.

Lemma from_elf_correct_witness : exists ms m',
  from_elf demo_parse 0x80000000 demo_data small_machine = Ok ((ms, 4096 * 21, 0x10000), m').
Proof.
  destruct demo_headers as [Hh Ha].
  destruct (from_elf_correct 128 328 0x80000000 small_machine ∅ demo_parse demo_data demo_elf ltac:(vm_compute; done)
    small_machine_ok ltac:(split; [lia|done]) eq_refl eq_refl Hh Ha demo_room) as (ms & m' & G & D & P & E & _).
  exists ms, m'. exact E.
Defined.

Lemma fork_isolated_witness : exists us m ms m', @from_existed_user StackFrameAllocator _ 0x80000000 us m = Ok (ms, m') /\
  shape <$> areas ms = shape <$> elf_areas demo_elf.
Proof.
  destruct demo_space as (us & m & G & D & P & Hms & Ht & Hsh & _ & _ & Hu). destruct (demo_areas us Hsh) as [Hf Hp].
  destruct (fork_isolated 128 328 0x80000000 m ∅ us G D P Hms Hf ltac:(split; [lia|done]) Ht ltac:(rewrite Hp; lia)) as (ms & m' & G' & D' & E & Hs & _).
  exists us, m, ms, m'. split; [exact E|]. rewrite Hs. exact Hsh.
Defined.

Lemma drop_returns_frames_witness : exists ms m m', @drop_memory_set StackFrameAllocator _ ms m = Ok (tt, m') /\
  shape <$> areas ms = shape <$> elf_areas demo_elf /\ machine_ok 128 328 m' ∅.
Proof.
  destruct demo_space as (ms & m & G & D & P & Hms & _ & Hsh & _).
  destruct (drop_returns_frames 128 328 m ∅ ms G D P Hms) as ((m' & E & Hm & _) & _). exists ms, m, m'. split; [exact E|]. split; [exact Hsh|exact Hm].
Defined.

Lemma insert_remove_roundtrip_witness : exists ms m ms1 m1 ms2 m2,
  @insert_framed_area StackFrameAllocator _ ms 0x200000 0x202000 6 m = Ok (ms1, m1) /\
  remove_area_with_start_vpn ms1 512 m1 = Ok (ms2, m2) /\ areas ms2 = areas ms.
Proof.
  destruct demo_space as (ms & m & G & D & P & Hms & Ht & Hsh & _ & _ & Hu).
  assert (Hst : forall x, x ∈ areas ms -> exists b, b ∈ elf_areas demo_elf /\ shape x = shape b) by (intros x; by apply shapes_elem).
  destruct (insert_remove_roundtrip 128 328 m ∅ ms G D P 0x200000 0x202000 6 Hms) as (ms1 & m1 & G1 & D1 & P1 & ms2 & m2 & E1 & _ & _ & E2 & Ha & _).
  - lia.
  - lia.
  - lia.
  - intros v Hv. apply eq_None_not_Some. intros Hs. destruct (ms_entries _ _ _ _ _ _ _ _ Hms v Hs) as [->|(a & Hin & Hva)].
    + destruct Hv as [_ Hv]. vm_compute in Hv. discriminate.
    + destruct (Hst a Hin) as (b & Hb & E). apply (shape_range a b v E) in Hva. destruct Hv as [Hv1 Hv2].
      change (512 <= v) in Hv1. change (v < 514) in Hv2. destruct (demo_bounds b Hb), Hva; lia.
  - apply Forall_forall. intros a Hin. destruct (Hst a Hin) as (b & Hb & E). injection E as -> _ _.
    repeat (apply elem_of_cons in Hb as [->|Hb]; [vm_compute; discriminate|]). by apply not_elem_of_nil in Hb.
  - change (pages (va_area 0x200000 0x202000 Framed 6)) with 2. lia.
  - exists ms, m, ms1, m1, ms2, m2. split; [exact E1|]. split; [exact E2|exact Ha].
Defined.

(** A kernel of one page per section, with one device. *)
Definition demo_kernel : KernelLayout := mkLayout 0x80000 0x81000 0x81000 0x82000 0x82000 0x83000 0x83000 0x84000 0x84000 0x80000.

Lemma demo_fits : fits 128 328 ∅ (kernel_sections demo_kernel 0x86000 [(0x1000, 0x1000)]).
Proof.
  split_and!.
  - repeat (constructor; [unfold sec_ok; vm_compute; repeat split; discriminate|]). constructor.
  - apply separatedb_ok. vm_compute. reflexivity.
  - vm_compute. discriminate.
Qed.

Lemma kernel_protection_witness : exists ms m', new_kernel demo_kernel 0x86000 [(0x1000, 0x1000)] small_machine = Ok (ms, m') /\
  remap_test demo_kernel ms m' = Ok (tt, m').
Proof.
  destruct (kernel_protection 128 328 small_machine ∅ demo_kernel 0x86000 [(0x1000, 0x1000)] small_machine_ok) as (ms & m' & G & E & Er & _).
  - split; [vm_compute; split; [discriminate|reflexivity]|reflexivity].
  - intros pair ->%list_elem_of_singleton. vm_compute. reflexivity.
  - exact demo_fits.
  - vm_compute; reflexivity.
  - vm_compute; reflexivity.
  - vm_compute; reflexivity.
  - vm_compute; split; [discriminate|reflexivity].
  - exists ms, m'. split; [exact E|exact Er].
Defined.

Lemma byte_buffer_correct_witness : exists pt (m : Machine StackFrameAllocator) v, translated_byte_buffer 3 (token pt) 0x10000 4 m = Ok (v, m) /\
  exists l, buffer_bytes 5 v 0 0 = Ok l /\ length l = 4%nat.
Proof.
  destruct demo_space as (ms & m & G & D & P & Hms & _ & _ & _ & Hd & _).
  destruct (byte_buffer_correct 128 328 m ∅ (page_table ms) G D P 3 0x10000 4 (ms_space _ _ _ _ _ _ _ _ Hms)) as (v & E & Eb & _).
  - lia.
  - lia.
  - lia.
  - intros a Ha. replace (a / 4096) with 16 by dlia. exact Hd.
  - vm_compute. discriminate.
  - exists (page_table ms), m, v. split; [exact E|]. exists (user_place D <$> seqZ 0x10000 4). split; [exact Eb|reflexivity].
Defined.

Lemma byte_buffer_diverges_witness : exists pt (m : Machine StackFrameAllocator),
  forall fuel, translated_byte_buffer fuel (token pt) 0x10000 (2 ^ 39) m = Fail OutOfFuel.
Proof.
  destruct demo_space as (ms & m & G & D & P & Hms & _ & _ & _ & Hd & _). exists (page_table ms), m.
  apply (byte_buffer_diverges 128 328 m ∅ (page_table ms) G D P 0x10000 (ms_space _ _ _ _ _ _ _ _ Hms)); [lia|reflexivity|exact Hd].
Defined.

Lemma translated_str_correct_witness : exists pt (m : Machine StackFrameAllocator),
  translated_str 4 (token pt) 0x10000 m = Ok ([Byte.x13; Byte.x05; Byte.x10], m).
Proof.
  destruct demo_space as (ms & m & G & D & P & Hms & _ & _ & HP & Hd & _). exists (page_table ms), m.
  assert (Hb : forall i, 0 <= i < 4 -> user_byte P (0x10000 + i) = page_image demo_data 0 !! Z.to_nat i).
  { intros i Hi. unfold user_byte. replace ((0x10000 + i) / 4096) with 16 by dlia. rewrite HP. cbn [mbind option_bind]. do 2 f_equal. dlia. }
  destruct (translated_str_correct 128 328 m ∅ (page_table ms) G D P [Byte.x13; Byte.x05; Byte.x10] 4 0x10000 (ms_space _ _ _ _ _ _ _ _ Hms)) as [E _].
  - lia.
  - cbn [length]. lia.
  - lia.
  - unfold zlen. cbn [length]. lia.
  - intros x Hx. unfold zlen in Hx. cbn [length] in Hx. replace (x / 4096) with 16 by dlia. exact Hd.
  - intros [|[|[|i]]] c Hc; cbn in Hc; [injection Hc as <-..|discriminate Hc];
      (split; [discriminate|]; rewrite Hb by lia; reflexivity).
  - change (zlen [Byte.x13; Byte.x05; Byte.x10]) with 3. rewrite Hb by lia. reflexivity.
  - exact E.
Defined.
