(* ===== verification/Virtio.v ===== *)
(** * Memory for the block device (os/src/drivers/block/virtio_blk.rs)

    The functions [VirtioHal] gives to the driver of the crate virtio-drivers: the
    frames of its queues, and the physical address of a buffer. *)

From S2P Require Import Prelude Address Frames PageTable PtInv PtOps Space MemorySet UserMem MmTheorems.

Section Hal.
Context {F : Type} `{FrameAllocator F}.

(** The machine, and the trackers of [QUEUE_FRAMES]. *)
Record Hal := mkHal {
  hal_machine : Machine F;
  queue_frames : list PhysPageNum;
}.

Definition on_hal {A} (m : cmd (Machine F) A) : cmd Hal A :=
  fun h => match m (hal_machine h) with Ok (a, m') => Ok (a, mkHal m' (queue_frames h)) | Fail f => Fail f end.

Definition push_frame (frame : PhysPageNum) : cmd Hal unit :=
  fun h => Ok (tt, mkHal (hal_machine h) (queue_frames h ++ [frame])).

(** One round of [dma_alloc]. *)
Definition dma_frame (i : Z) (ppn_base : PhysPageNum) : cmd Hal PhysPageNum :=
  let* r := on_hal frame_alloc in
  let* frame := lift (unwrap r) in
  let ppn_base := if i =? 0 then frame else ppn_base in
  assert (frame =? w64 (ppn_base + i));;
  push_frame frame;;
  ret ppn_base.

Definition dma_alloc (pages : Z) : cmd Hal Z :=
  let* ppn_base := for_each (seqZ 0 pages) dma_frame 0 in
  ret (addr_of ppn_base).

Definition dma_dealloc (pa pages : Z) : cmd Hal Z :=
  let pa := pa_from pa in
  let* ppn_base := lift (page_of pa) in
  for_each (seqZ 0 pages) (fun _ ppn_base => on_hal (frame_dealloc ppn_base);; ret (step ppn_base)) ppn_base;;
  ret 0.

Definition phys_to_virt (addr : Z) : Z := addr.

Definition virt_to_phys (kernel_token vaddr : Z) : cmd (Machine F) Z :=
  let* r := translate_va (from_token kernel_token) (va_from vaddr) in
  lift (unwrap r).

End Hal.
Arguments Hal F : clear implicits.

(** ** The frames of a queue *)
Abbreviation QemuHal := (Hal StackFrameAllocator).

(** The frames of [ns] cleaned. *)
Definition cleaned (ns : list Z) (r : gmap Z (list byte)) : gmap Z (list byte) := foldl (fun r n => alter (fmap (fun _ => Byte.x00)) n r) r ns.

Lemma fresh_frame c e : 0 <= c < e -> e < 2 ^ 44 -> stack_alloc (mkStack c e []) = (Some c, mkStack (c + 1) e []).
Proof.
  intros Hc He. unfold stack_alloc. change (vec_pop (recycled (mkStack c e []))) with (@None (Z * list Z)). cbn [current end_ recycled]. rewrite (proj2 (Z.eqb_neq c e)) by lia.
  rewrite !w64_small by (rewrite ?w64_small; lia). replace (c + 1 - 1) with c by lia. rewrite ppn_from_mod, Z.mod_small by lia. done.
Qed.

Lemma frame_alloc_clean (m : Machine StackFrameAllocator) p f b : stack_alloc (allocator m) = (Some p, f) -> ram m !! p = Some b ->
  frame_alloc m = Ok (Some p, mkMachine (alter (fmap (fun _ => Byte.x00)) p (ram m)) f).
Proof.
  intros Ea Hb. unfold frame_alloc. cbn [fa_alloc stack_frames]. rewrite Ea. unfold tracker_new, read_page, write_page, bind, ret. cbn [ram]. rewrite Hb. cbn [ram allocator]. rewrite Hb. cbn [ram allocator].
  do 3 f_equal. apply map_eq. intros x. destruct (decide (x = p)) as [->|Hne]; [by rewrite lookup_insert_eq, lookup_alter_eq, Hb|by rewrite lookup_insert_ne, lookup_alter_ne].
Qed.

Lemma dma_frame_ok c e r q i base b : 0 <= c < e -> e < 2 ^ 44 -> r !! c = Some b -> 0 <= i <= c -> (i = 0 \/ base + i = c) ->
  dma_frame i base (mkHal (mkMachine r (mkStack c e [])) q) = Ok (c - i, mkHal (mkMachine (alter (fmap (fun _ => Byte.x00)) c r) (mkStack (c + 1) e [])) (q ++ [c])).
Proof.
  intros Hc He Hb Hi Hbase. unfold dma_frame. erewrite bind_Ok; [|unfold on_hal; cbn [hal_machine]; rewrite (frame_alloc_clean (mkMachine r (mkStack c e [])) c _ b (fresh_frame c e Hc He) Hb); reflexivity].
  cbn [unwrap lift]. rewrite bind_ret. assert ((if i =? 0 then c else base) = c - i) as -> by (destruct (Z.eqb_spec i 0); lia). rewrite w64_small by lia.
  replace (c - i + i) with c by lia. rewrite Z.eqb_refl. done.
Qed.

Lemma dma_frames_ok : forall n c e r q i base, 0 <= c -> c + Z.of_nat n <= e < 2 ^ 44 -> (forall x, c <= x < c + Z.of_nat n -> is_Some (r !! x)) -> 0 <= i <= c -> (i = 0 \/ base + i = c) ->
  for_each (seqZ i (Z.of_nat n)) dma_frame base (mkHal (mkMachine r (mkStack c e [])) q) =
  Ok (if n is O then base else c - i, mkHal (mkMachine (cleaned (seqZ c (Z.of_nat n)) r) (mkStack (c + Z.of_nat n) e [])) (q ++ seqZ c (Z.of_nat n))).
Proof.
  induction n as [|n IH]; intros c e r q i base Hc He Hr Hi Hb.
  - cbn. by rewrite Z.add_0_r, app_nil_r.
  - rewrite !(seqZ_cons _ (Z.of_nat (S n))) by lia. replace (Z.pred (Z.of_nat (S n))) with (Z.of_nat n) by lia. cbn [for_each]. destruct (Hr c ltac:(lia)) as [b Hbc].
    rewrite (bind_Ok _ _ _ _ _ (dma_frame_ok c e r q i base b ltac:(lia) ltac:(lia) Hbc Hi Hb)). rewrite IH; [|lia|lia| |lia|lia].
    + replace (Z.succ c) with (c + 1) by lia. do 2 f_equal; [destruct n; lia|]. f_equal; [|by rewrite <- app_assoc]. f_equal. f_equal. lia.
    + intros x Hx. apply lookup_alter_is_Some. apply Hr. lia.
Qed.

Lemma cleaned_lookup ns r x : NoDup ns -> cleaned ns r !! x = if decide (x ∈ ns) then fmap (fun _ => Byte.x00) <$> r !! x else r !! x.
Proof.
  unfold cleaned. revert r. induction ns as [|n ns IH]; intros r Hnd; cbn [foldl]; [by rewrite decide_False by apply not_elem_of_nil|]. apply NoDup_cons in Hnd as [Hn Hnd]. rewrite IH by done.
  destruct (decide (x = n)) as [->|Hne].
  - rewrite decide_False by done. rewrite decide_True by (by left). apply lookup_alter_eq.
  - rewrite lookup_alter_ne by done. destruct (decide (x ∈ ns)); [by rewrite decide_True by (by right)|]. by rewrite decide_False by (by apply not_elem_of_cons).
Qed.

(** Giving frames back, one after the other. *)
Lemma dma_free_ok : forall n c rec top e r q, 0 <= c -> c + Z.of_nat n <= top -> top < 2 ^ 44 -> (forall x, x ∈ rec -> x < c) ->
  for_each (seqZ 0 (Z.of_nat n)) (fun _ ppn_base => on_hal (frame_dealloc ppn_base);; ret (step ppn_base)) c (mkHal (mkMachine r (mkStack top e rec)) q) =
  Ok (c + Z.of_nat n, mkHal (mkMachine r (mkStack top e (rec ++ seqZ c (Z.of_nat n)))) q).
Proof.
  assert (H : forall n l c rec top e r q, length l = n -> 0 <= c -> c + Z.of_nat n <= top -> top < 2 ^ 44 -> (forall x, x ∈ rec -> x < c) ->
    for_each l (fun _ : Z => fun ppn_base => on_hal (frame_dealloc ppn_base);; ret (step ppn_base)) c (mkHal (mkMachine r (mkStack top e rec)) q) =
    Ok (c + Z.of_nat n, mkHal (mkMachine r (mkStack top e (rec ++ seqZ c (Z.of_nat n)))) q)).
  { induction n as [|n IH]; intros [|i l] c rec top e r q Hl Hc Ht He Hrec; try discriminate Hl; [cbn; by rewrite Z.add_0_r, app_nil_r|]. injection Hl as Hl. cbn [for_each].
    assert (E : (on_hal (frame_dealloc c);; ret (step c)) (mkHal (mkMachine r (mkStack top e rec)) q) = Ok (c + 1, mkHal (mkMachine r (mkStack top e (rec ++ [c]))) q)).
    { unfold on_hal, frame_dealloc, bind, ret. cbn [hal_machine allocator fa_dealloc stack_frames]. unfold stack_dealloc. cbn [current recycled end_]. rewrite (proj2 (Z.leb_gt top c)) by lia.
      rewrite bool_decide_false by (intros Hin; apply Hrec in Hin; lia). cbn. unfold step. by rewrite w64_small by lia. }
    rewrite (bind_Ok _ _ _ _ _ E). rewrite IH; [|done|lia|lia|lia|].
    - rewrite (seqZ_cons c (Z.of_nat (S n))) by lia. replace (Z.pred (Z.of_nat (S n))) with (Z.of_nat n) by lia. replace (Z.succ c) with (c + 1) by lia. rewrite <- app_assoc. do 2 f_equal. lia.
    - intros x [Hx|Hx%list_elem_of_singleton]%elem_of_app; [apply Hrec in Hx; lia|lia]. }
  intros n c rec top e r q Hc Ht He Hrec. apply H; [|done..]. rewrite length_seqZ. lia.
Qed.

(** Frames that come in descending order. *)
Lemma last_recycled_frame x t e rec : 0 <= x < 2 ^ 44 -> stack_alloc (mkStack t e (rec ++ [x])) = (Some x, mkStack t e rec).
Proof. intros Hx. unfold stack_alloc. cbn [recycled current end_]. rewrite vec_pop_snoc. by rewrite ppn_from_mod, Z.mod_small. Qed.

Lemma dma_descending_panics x t e rec r q b0 b1 n : 0 <= x -> x + 1 < 2 ^ 44 -> r !! x = Some b0 -> r !! (x + 1) = Some b1 -> 2 <= n ->
  dma_alloc n (mkHal (mkMachine r (mkStack t e (rec ++ [x; x + 1]))) q) = Fail Panic.
Proof.
  intros Hx He H0 H1 Hn. unfold dma_alloc. rewrite (seqZ_cons 0 n), (seqZ_cons (Z.succ 0)) by lia. cbn [for_each]. unfold bind at 1 2.
  set (m1 := mkMachine (alter (fmap (fun _ => Byte.x00)) (x + 1) r) (mkStack t e (rec ++ [x]))).
  assert (E1 : dma_frame 0 0 (mkHal (mkMachine r (mkStack t e (rec ++ [x; x + 1]))) q) = Ok (x + 1, mkHal m1 (q ++ [x + 1]))).
  { unfold dma_frame. change (rec ++ [x; x + 1]) with (rec ++ ([x] ++ [x + 1])). rewrite app_assoc.
    erewrite bind_Ok; [|unfold on_hal; cbn [hal_machine]; rewrite (frame_alloc_clean (mkMachine r _) (x + 1) _ b1 (last_recycled_frame (x + 1) t e (rec ++ [x]) ltac:(lia)) H1); reflexivity].
    cbn [unwrap lift]. rewrite bind_ret. cbn [Z.eqb]. rewrite w64_small by lia. rewrite Z.add_0_r, Z.eqb_refl. done. }
  rewrite E1. unfold bind at 1. assert (H0' : ram m1 !! x = Some b0) by (cbn; rewrite lookup_alter_ne by lia; done).
  assert (E2 : dma_frame (Z.succ 0) (x + 1) (mkHal m1 (q ++ [x + 1])) = Fail Panic); [|by rewrite E2].
  unfold dma_frame. erewrite bind_Ok; [|unfold on_hal; cbn [hal_machine]; rewrite (frame_alloc_clean m1 x _ b0 (last_recycled_frame x t e rec ltac:(lia)) H0'); reflexivity].
  cbn [unwrap lift]. rewrite bind_ret. change (Z.succ 0 =? 0) with false. cbv iota. change (Z.succ 0) with 1. rewrite w64_small by lia. by rewrite (proj2 (Z.eqb_neq x (x + 1 + 1))) by lia.
Qed.

Lemma seqZ_last2 c n : 2 <= n -> seqZ c n = seqZ c (n - 2) ++ [c + n - 2; c + n - 2 + 1].
Proof. intros Hn. replace n with (n - 2 + 2) at 1 by lia. rewrite seqZ_app by lia. change (seqZ (c + (n - 2)) 2) with [0 + (c + (n - 2)); 1 + (c + (n - 2))]. by replace (0 + (c + (n - 2))) with (c + n - 2) by lia; replace (1 + (c + (n - 2))) with (c + n - 2 + 1) by lia. Qed.

(** C36: the frames of a device queue.  On an allocator from which nothing has been
    returned, [dma_alloc] gives frames that follow one another, cleaned, and keeps
    their trackers; after [dma_dealloc] of two or more of them the allocator hands
    them out in the opposite order, and the next [dma_alloc] of two or more pages
    panics. *)
Theorem dma_frames_contiguous c e r q pages : 0 < c -> 0 < pages -> c + pages <= e < 2 ^ 44 -> (forall x, c <= x < c + pages -> is_Some (r !! x)) ->
  exists h, dma_alloc pages (mkHal (mkMachine r (mkStack c e [])) q) = Ok (c * 4096, h) /\
    queue_frames h = q ++ seqZ c pages /\ allocator (hal_machine h) = mkStack (c + pages) e [] /\
    (forall x, ram (hal_machine h) !! x = if decide (c <= x < c + pages) then fmap (fun _ => Byte.x00) <$> r !! x else r !! x) /\
    exists h', dma_dealloc (c * 4096) pages h = Ok (0, h') /\ queue_frames h' = queue_frames h /\ allocator (hal_machine h') = mkStack (c + pages) e (seqZ c pages) /\
      (2 <= pages -> forall n, 2 <= n -> dma_alloc n h' = Fail Panic).
Proof.
  intros Hc Hp He Hr. assert (En : Z.of_nat (Z.to_nat pages) = pages) by lia. pose proof (dma_frames_ok (Z.to_nat pages) c e r q 0 0) as Ea. rewrite En in Ea.
  specialize (Ea ltac:(lia) ltac:(lia) ltac:(done) ltac:(lia) ltac:(by left)). assert (E0 : (if Z.to_nat pages is O then 0 else c - 0) = c) by (destruct (Z.to_nat pages) eqn:E; lia). rewrite E0 in Ea.
  set (h := mkHal _ _) in Ea at 2. exists h. split; [|split; [done|split; [done|split]]].
  - unfold dma_alloc. rewrite (bind_Ok _ _ _ _ _ Ea). unfold ret. by rewrite addr_of_small by lia.
  - intros x. cbn [h hal_machine ram]. rewrite cleaned_lookup by apply NoDup_seqZ. destruct (decide (c <= x < c + pages)).
    + by rewrite decide_True by (apply elem_of_seqZ; lia).
    + by rewrite decide_False by (rewrite elem_of_seqZ; lia).
  - pose proof (dma_free_ok (Z.to_nat pages) c [] (c + pages) e (cleaned (seqZ c pages) r) (q ++ seqZ c pages)) as Ef. rewrite En in Ef.
    specialize (Ef ltac:(lia) ltac:(lia) ltac:(lia) ltac:(by intros x ?%not_elem_of_nil)). exists (mkHal (mkMachine (cleaned (seqZ c pages) r) (mkStack (c + pages) e (seqZ c pages))) (q ++ seqZ c pages)). split; [|split; [done|split; [done|]]].
    + unfold dma_dealloc. rewrite pa_from_mod, Z.mod_small by lia. unfold page_of, aligned. rewrite page_offset_mod, Z.mod_mul by lia. cbn [Z.eqb]. unfold floor. change PAGE_SIZE with 4096. rewrite Z.div_mul by lia.
      cbn [lift]. rewrite bind_ret. by rewrite (bind_Ok _ _ _ _ _ Ef).
    + intros H2 n Hn. rewrite (seqZ_last2 c pages H2) at 2. assert (Hs : forall x, c <= x < c + pages -> exists b, cleaned (seqZ c pages) r !! x = Some b).
      { intros x Hx. rewrite cleaned_lookup by apply NoDup_seqZ. destruct (Hr x Hx) as [b ->]. case_decide; eauto. }
      destruct (Hs (c + pages - 2) ltac:(lia)) as [b0 H0]. destruct (Hs (c + pages - 2 + 1) ltac:(lia)) as [b1 H1]. by apply (dma_descending_panics (c + pages - 2) _ _ _ _ _ b0 b1); [lia|lia|..].
Qed.

(** ** The address of a buffer *)

Section Buffers.
Context {F : Type} `{FrameAllocatorSpec F}.
Variables (lo hi : Z) (m : Machine F) (R : gset Z) (pt : PageTable) (G : gmap Z Z) (D : gmap Z Z) (P : gmap Z (list byte)).
Hypothesis Hsp : space lo hi m R pt G D P.

Lemma virt_to_phys_ok a pte : 0 <= a < 2 ^ 64 -> G !! (a mod 2 ^ 39 / 4096) = Some pte -> virt_to_phys (token pt) a m = Ok (pte_ppn pte * 4096 + a mod 4096, m).
Proof.
  intros Ha HG. destruct (space_rep _ _ _ _ _ _ _ _ Hsp) as (T & Hrep & HT). pose proof (Z.mod_pos_bound a (2 ^ 39) ltac:(lia)) as Hm.
  unfold virt_to_phys. rewrite (from_token_space lo hi m R pt G D P Hsp), va_from_mod. erewrite bind_Ok; [|apply (translate_va_mapped m _ T); [apply Hrep|exact Hm|unfold floor; change PAGE_SIZE with 4096; rewrite HT by dlia; exact HG]].
  cbn [unwrap lift]. unfold ret. do 3 f_equal. change (2 ^ 39) with (4096 * 2 ^ 27). rewrite Z.rem_mul_r by lia. rewrite Z.mul_comm, Z.mod_add by lia. apply Z.mod_mod. lia.
Qed.
(** Frames that follow one another from page [x] on. *)
Lemma frames_follow x n : (forall y, x <= y <= x + n -> is_Some (G !! y)) -> (forall y p q, x <= y < x + n -> G !! y = Some p -> G !! (y + 1) = Some q -> pte_ppn q = pte_ppn p + 1) ->
  forall p, G !! x = Some p -> forall j q, 0 <= j <= n -> G !! (x + j) = Some q -> pte_ppn q = pte_ppn p + j.
Proof.
  intros Hs Hf p Hp j q Hj Hq. rewrite <- (Z2Nat.id j) in * by lia. revert q Hj Hq. induction (Z.to_nat j) as [|k IH]; intros q Hj Hq.
  - rewrite Z.add_0_r in Hq. assert (q = p) as -> by congruence. lia.
  - destruct (Hs (x + Z.of_nat k) ltac:(lia)) as [w Hw]. rewrite (Hf (x + Z.of_nat k) w q), (IH w); [lia|lia|done|lia|done|]. by replace (x + Z.of_nat k + 1) with (x + Z.of_nat (S k)) by lia.
Qed.

(** C37: when the device finds a buffer whole.  The driver asks for the physical
    address of the first byte of a buffer ([virt_to_phys]) and hands it to the
    device with the length.  For a buffer in mapped pages of the kernel, the
    physical address of every byte is that of the first plus its index if and only
    if the frames of the pages follow one another: always within a page, but
    across two pages only by the luck of the allocator. *)
Theorem buffer_contiguous va len : 0 <= va -> 0 < len -> va + len <= 2 ^ 64 -> va mod 2 ^ 39 + len <= 2 ^ 39 ->
  let first := va mod 2 ^ 39 / 4096 in let last := (va mod 2 ^ 39 + len - 1) / 4096 in
  (forall x, first <= x <= last -> is_Some (G !! x)) ->
  (exists pa, forall i, 0 <= i < len -> virt_to_phys (token pt) (va + i) m = Ok (pa + i, m)) <->
  (forall x p q, first <= x < last -> G !! x = Some p -> G !! (x + 1) = Some q -> pte_ppn q = pte_ppn p + 1).
Proof.
  intros Hva Hlen Hw Hfit first last Hmap. set (a := va mod 2 ^ 39) in *. pose proof (Z.mod_pos_bound va (2 ^ 39) ltac:(lia)) as Ha. fold a in Ha.
  assert (Hoff : forall i, 0 <= i < len -> (va + i) mod 2 ^ 39 = a + i). { intros i Hi. rewrite <- Zplus_mod_idemp_l. fold a. apply Z.mod_small. lia. }
  assert (Hlow : forall i, 0 <= i < len -> (va + i) mod 4096 = (a + i) mod 4096).
  { intros i Hi. rewrite <- Hoff by done. change (2 ^ 39) with (4096 * 2 ^ 27). rewrite Z.rem_mul_r, Z.mul_comm, Z.mod_add, Z.mod_mod by lia. done. }
  assert (Hat : forall i p, 0 <= i < len -> G !! ((a + i) / 4096) = Some p -> virt_to_phys (token pt) (va + i) m = Ok (pte_ppn p * 4096 + (a + i) mod 4096, m)).
  { intros i p Hi Hp. rewrite <- Hlow by done. apply virt_to_phys_ok; [lia|]. by rewrite Hoff. }
  split.
  - intros [pa Hpa] x p q Hx Hp Hq. unfold first, last in Hx. set (i := 4096 * (x + 1) - a). assert (Hi : 0 < i < len) by dlia.
    pose proof (Hpa i ltac:(lia)) as E1. pose proof (Hpa (i - 1) ltac:(lia)) as E0. replace ((a + i) / 4096) with (x + 1) in * by dlia.
    rewrite (Hat i q) in E1 by (lia || by replace ((a + i) / 4096) with (x + 1) by dlia). rewrite (Hat (i - 1) p) in E0 by (lia || by replace ((a + (i - 1)) / 4096) with x by dlia).
    injection E1 as E1. injection E0 as E0. replace ((a + i) mod 4096) with 0 in E1 by dlia. replace ((a + (i - 1)) mod 4096) with 4095 in E0 by dlia. lia.
  - intros Hf. destruct (Hmap first ltac:(unfold first, last; dlia)) as [p Hp]. exists (pte_ppn p * 4096 + a mod 4096). intros i Hi.
    set (j := (a + i) / 4096 - first). assert (Hj : 0 <= j <= last - first) by (unfold j, first, last; dlia). destruct (Hmap (first + j) ltac:(lia)) as [q Hq].
    rewrite (Hat i q Hi) by (by replace ((a + i) / 4096) with (first + j) by (unfold j; lia)).
    rewrite (frames_follow first (last - first) ltac:(intros y Hy; apply Hmap; lia) ltac:(intros y p' q' Hy; apply Hf; lia) p Hp j q ltac:(lia) Hq). do 2 f_equal. unfold j, first. dlia.
Qed.
End Buffers.

Lemma dma_frames_contiguous_witness : exists h, dma_alloc 4 (mkHal small_machine []) = Ok (128 * 4096, h) /\ queue_frames h = [128; 129; 130; 131].
Proof.
  destruct (dma_frames_contiguous 128 328 (ram small_machine) [] 4) as (h & E & Hq & _); [lia|lia|lia| |].
  - intros x Hx. exists zero_page. apply lookup_gset_to_gmap_Some. split; [|reflexivity]. apply elem_of_list_to_set, elem_of_seqZ. lia.
  - exists h. split; [exact E|exact Hq].
Defined.

(** The frames of two pages in the opposite order: a buffer across them is not whole. *)
Lemma buffer_contiguous_witness : exists pt (m : Machine StackFrameAllocator), virt_to_phys (token pt) 0x5ff0 m = Ok (200 * 4096 + 0xff0, m) /\
  ~ exists pa, forall i, 0 <= i < 32 -> virt_to_phys (token pt) (0x5ff0 + i) m = Ok (pa + i, m).
Proof.
  destruct (space_new 128 328 small_machine ∅ small_machine_ok) as (p & m & _ & Hsp & _ & Hu); [vm_compute; reflexivity|]. rewrite size_empty in Hu.
  destruct (space_map _ _ _ _ _ _ _ _ 5 200 6 Hsp) as (pt1 & m1 & _ & Hsp1 & _ & _ & Hu1); [lia|lia|lia|apply lookup_empty|lia|].
  destruct (space_map _ _ _ _ _ _ _ _ 6 199 6 Hsp1) as (pt2 & m2 & _ & Hsp2 & _); [lia|lia|lia|by rewrite lookup_insert_ne, lookup_empty by done|lia|].
  set (G := <[6 := _]> _) in Hsp2. assert (H5 : G !! 5 = Some (pte_new 200 7)) by reflexivity. assert (H6 : G !! 6 = Some (pte_new 199 7)) by reflexivity.
  exists pt2, m2. split; [exact (virt_to_phys_ok 128 328 m2 ∅ pt2 G ∅ ∅ Hsp2 0x5ff0 _ ltac:(lia) H5)|].
  assert (Hmap : forall x, 5 <= x <= 6 -> is_Some (G !! x)) by (intros x Hx; assert (x = 5 \/ x = 6) as [->| ->] by lia; by eexists).
  intros Hc. pose proof (proj1 (buffer_contiguous 128 328 m2 ∅ pt2 G ∅ ∅ Hsp2 0x5ff0 32 ltac:(lia) ltac:(lia) ltac:(lia) ltac:(vm_compute; discriminate) Hmap) Hc 5 _ _ ltac:(split; vm_compute; done) H5 H6) as Hn.
  vm_compute in Hn. discriminate Hn.
Defined.
