(* ===== verification/World.v ===== *)
(** * All the address spaces of the machine

    Every address space owns its frames; the frames in use are those of the
    spaces.  An operation on one space, the creation of a space and the drop of
    a space keep the others. *)

From S2P Require Import Prelude Address Frames PageTable PtInv PtOps Space MemorySet AreaOps MsOps MsLife.

(** The abstract contents of an address space. *)
Record aspace := mkSpace {
  as_pt : PageTable;
  as_G : gmap Z Z;                 (* entries *)
  as_D : gmap Z Z;                 (* data frames *)
  as_P : gmap Z (list byte);       (* contents of the data pages *)
}.

Section World.
Context {F : Type} `{FrameAllocatorSpec F} {K : Type} `{Countable K}.
Implicit Types (m : Machine F) (W : gmap K aspace) (v : aspace).

Definition owns v : gset Z := owned (as_pt v) (as_D v).

Definition space_of (lo hi : Z) m (R : gset Z) v : Prop := space lo hi m R (as_pt v) (as_G v) (as_D v) (as_P v).

(** The frames of all spaces. *)
Definition total W : gset Z := map_fold (fun _ v A => owns v ∪ A) ∅ W.

Record world (lo hi : Z) m W : Prop := {
  w_machine : machine_ok lo hi m (total W);
  w_space i v : W !! i = Some v -> space_of lo hi m (total (delete i W)) v;
}.

Lemma elem_of_total W p : p ∈ total W <-> exists i v, W !! i = Some v /\ p ∈ owns v.
Proof.
  unfold total. apply (map_fold_weak_ind (fun A W => p ∈ A <-> exists i v, W !! i = Some v /\ p ∈ owns v)).
  - split; [by intros ?%elem_of_empty|]. intros (i & v & Hi & _). by rewrite lookup_empty in Hi.
  - intros i v W' A Hi IH. rewrite elem_of_union, IH. split.
    + intros [Hp|(j & w & Hj & Hp)]; [exists i, v; by rewrite lookup_insert_eq|]. exists j, w. split; [|done].
      rewrite lookup_insert_ne; [done|congruence].
    + intros (j & w & Hj & Hp). rewrite lookup_insert in Hj. destruct (decide (i = j)); [left; congruence|right; eauto].
Qed.

Lemma total_split W i v : W !! i = Some v -> total W = owns v ∪ total (delete i W).
Proof.
  intros Hi. apply set_eq. intros p. rewrite elem_of_union, !elem_of_total. split.
  - intros (j & w & Hj & Hp). destruct (decide (i = j)) as [<-|Hne]; [left; congruence|]. right. exists j, w. by rewrite lookup_delete_ne.
  - intros [Hp|(j & w & Hj & Hp)]; [eauto|]. apply lookup_delete_Some in Hj as [_ Hj]. eauto.
Qed.

Lemma total_insert W i v : W !! i = None -> total (<[i := v]> W) = owns v ∪ total W.
Proof. intros Hi. rewrite (total_split _ i v) by apply lookup_insert_eq. by rewrite delete_insert_id. Qed.

(** The frames of two spaces are different. *)
Lemma world_disj lo hi m W i j v w : world lo hi m W -> W !! i = Some v -> W !! j = Some w -> i <> j -> owns v ## owns w.
Proof.
  intros HW Hi Hj Hne p Hv Hw. apply (sp_disj _ _ _ _ _ _ _ _ (w_space _ _ _ _ HW i v Hi) p); [done|].
  apply elem_of_total. exists j, w. by rewrite lookup_delete_ne.
Qed.

Lemma world_frame lo hi m m' W W' i v : world lo hi m W -> W !! i = Some v -> W' !! i = Some v ->
  machine_ok lo hi m' (total W') -> same_on (owns v) m m' ->
  (forall j w, W' !! j = Some w -> j <> i -> owns w ## owns v) -> space_of lo hi m' (total (delete i W')) v.
Proof.
  intros HW Hi Hi' Hm Hs Hd. eapply space_frame; [by apply (w_space _ _ _ _ HW)|done| |].
  - rewrite (total_split _ _ _ Hi') in Hm. exact Hm.
  - intros p Hp (j & w & Hj & Hw)%elem_of_total. apply lookup_delete_Some in Hj as [Hne Hj]. by apply (Hd j w Hj (not_eq_sym Hne) p).
Qed.

(** ** Steps *)
Lemma world_insert lo hi m m' W i v : world lo hi m W -> W !! i = None ->
  space_of lo hi m' (total W) v -> same_on (total W) m m' -> world lo hi m' (<[i := v]> W).
Proof.
  intros HW Hi Hsp Hs.
  assert (Hm : machine_ok lo hi m' (total (<[i := v]> W))) by (rewrite total_insert by done; apply Hsp).
  split; [done|]. intros j w Hj. rewrite lookup_insert in Hj. destruct (decide (i = j)) as [<-|Hne].
  - injection Hj as <-. by rewrite delete_insert_id.
  - eapply world_frame; [done|exact Hj|by rewrite lookup_insert_ne|done| |].
    + eapply same_on_sub; [|exact Hs]. rewrite (total_split _ _ _ Hj). set_solver.
    + intros a u Ha Hna. rewrite lookup_insert in Ha. destruct (decide (i = a)) as [<-|Hia].
      * injection Ha as <-. pose proof (sp_disj _ _ _ _ _ _ _ _ Hsp) as Hd. rewrite (total_split _ _ _ Hj) in Hd. unfold owns in *. set_solver.
      * by apply (world_disj lo hi m W a j).
Qed.

Lemma world_delete lo hi m m' W i : world lo hi m W -> machine_ok lo hi m' (total (delete i W)) ->
  same_on (total (delete i W)) m m' -> world lo hi m' (delete i W).
Proof.
  intros HW Hm Hs. split; [done|]. intros j w Hj. pose proof Hj as [Hne Hj']%lookup_delete_Some.
  eapply world_frame; [done|exact Hj'|done|done| |].
  - eapply same_on_sub; [|exact Hs]. rewrite (total_split _ _ _ Hj). set_solver.
  - intros a u [_ Ha]%lookup_delete_Some Hna. by apply (world_disj lo hi m W a j).
Qed.

Lemma world_update lo hi m m' W i v v' : world lo hi m W -> W !! i = Some v ->
  space_of lo hi m' (total (delete i W)) v' -> same_on (total (delete i W)) m m' -> world lo hi m' (<[i := v']> W).
Proof.
  intros HW Hi Hsp Hs. rewrite <- insert_delete_eq.
  assert (Hm : machine_ok lo hi m' (total (<[i := v']> (delete i W)))) by (rewrite total_insert by apply lookup_delete_eq; apply Hsp).
  split; [done|]. intros j w Hj. rewrite lookup_insert in Hj. destruct (decide (i = j)) as [<-|Hne].
  - injection Hj as <-. by rewrite delete_insert_id by apply lookup_delete_eq.
  - pose proof Hj as [_ Hj']%lookup_delete_Some. eapply world_frame; [done|exact Hj'|by rewrite lookup_insert_ne|done| |].
    + eapply same_on_sub; [|exact Hs]. rewrite (total_split _ _ _ Hj). set_solver.
    + intros a u Ha Hna. rewrite lookup_insert in Ha. destruct (decide (i = a)) as [<-|Hia].
      * injection Ha as <-. pose proof (sp_disj _ _ _ _ _ _ _ _ Hsp) as Hd. rewrite (total_split _ _ _ Hj) in Hd. unfold owns in *. set_solver.
      * apply lookup_delete_Some in Ha as [_ Ha]. by apply (world_disj lo hi m W a j).
Qed.

(** Frames that are in use. *)
Definition in_use W : Z := Z.of_nat (size (total W)).

Lemma used_in_use W i v : W !! i = Some v -> used (as_pt v) (as_D v) (total (delete i W)) = in_use W.
Proof. intros Hi. unfold used, in_use. by rewrite (total_split _ _ _ Hi). Qed.

Lemma in_use_same W i v v' : W !! i = Some v -> owns v' = owns v -> in_use (<[i := v']> W) = in_use W.
Proof.
  intros Hi Ho. unfold in_use. rewrite (total_split _ i v' (lookup_insert_eq _ _ _)), (total_split W i v Hi), Ho. by rewrite delete_insert_eq.
Qed.

End World.
