(* ===== verification/Proc.v ===== *)
(** * Processes: the abstract specification

    What the task manager, the scheduler and the process system calls promise,
    without references, cells or memory: a table of processes by pid, a queue
    and the process that runs, and the transitions of the table.  The kernel is
    shown to refine it in [KTable] and [KSafe]. *)

From S2P Require Import Prelude.

Inductive pstate := Alive | Exited (code : Z).
Record proc := mkProc { p_parent : option Z; p_children : list Z; p_state : pstate }.
Record table := mkTable { procs : gmap Z proc; ready : list Z; current : option Z }.

(** The pid of [initproc], which adopts the children of a process that exits. *)
Definition INIT : Z := 0.

Definition add_children (cs : list Z) (x : proc) : proc := mkProc (p_parent x) (p_children x ++ cs) (p_state x).
Definition reparent (p : Z) (x : proc) : proc := if decide (p_parent x = Some p) then mkProc (Some INIT) (p_children x) (p_state x) else x.
Definition without_child (c : Z) (x : proc) : proc := mkProc (p_parent x) (filter (fun d => d <> c) (p_children x)) (p_state x).

Definition t_fork (p c : Z) (T : table) : table :=
  mkTable (<[c := mkProc (Some p) [] Alive]> (alter (add_children [c]) p (procs T))) (ready T ++ [c]) (current T).

Definition children_of (T : table) (p : Z) : list Z := match procs T !! p with Some x => p_children x | None => [] end.

Definition t_exit (p code : Z) (T : table) : table :=
  let adopted := alter (add_children (children_of T p)) INIT (reparent p <$> procs T) in
  mkTable (alter (fun x => mkProc (p_parent x) [] (Exited code)) p adopted) (ready T) None.

Definition t_yield (p : Z) (T : table) : table := mkTable (procs T) (ready T ++ [p]) None.
Definition t_dispatch (p : Z) (q : list Z) (T : table) : table := mkTable (procs T) q (Some p).
Definition t_reap (p c : Z) (T : table) : table := mkTable (delete c (alter (without_child c) p (procs T))) (ready T) (current T).

(** ** Waiting *)
Inductive reply := NoChild | NotYet | Reaped (c code : Z).

(** [w] is a pid, or -1 for any child. *)
Definition waits_for (w c : Z) : bool := (w =? -1) || (w64 w =? c).

Definition exit_status (T : table) (c : Z) : option Z :=
  match procs T !! c with Some (mkProc _ _ (Exited code)) => Some code | _ => None end.

(** The first child in the order of the forks. *)
Fixpoint find_exited (T : table) (w : Z) (cs : list Z) : option (Z * Z) :=
  match cs with
  | [] => None
  | c :: cs => match exit_status T c with Some code => if waits_for w c then Some (c, code) else find_exited T w cs | None => find_exited T w cs end
  end.

Definition t_wait (p w : Z) (T : table) : reply * table :=
  if existsb (waits_for w) (children_of T p) then
    match find_exited T w (children_of T p) with
    | Some (c, code) => (Reaped c code, t_reap p c T)
    | None => (NotYet, T)
    end
  else (NoChild, T).

(** ** Transitions *)
Inductive event :=
  | Forks (p c : Z)
  | Exits (p code : Z)
  | Waits (p w : Z) (r : reply)
  | Yields (p : Z)
  | Dispatches (p : Z).

Inductive tstep : table -> event -> table -> Prop :=
  | ts_fork T p c : current T = Some p -> procs T !! c = None -> tstep T (Forks p c) (t_fork p c T)
  | ts_exit T p code : current T = Some p -> p <> INIT -> tstep T (Exits p code) (t_exit p code T)
  | ts_wait T T' p w r : current T = Some p -> t_wait p w T = (r, T') -> tstep T (Waits p w r) T'
  | ts_yield T p : current T = Some p -> tstep T (Yields p) (t_yield p T)
  | ts_dispatch T p q : current T = None -> ready T = p :: q -> tstep T (Dispatches p) (t_dispatch p q T).

Inductive tsteps : table -> list event -> table -> Prop :=
  | tsteps_nil T : tsteps T [] T
  | tsteps_cons T e T' es T'' : tstep T e T' -> tsteps T' es T'' -> tsteps T (e :: es) T''.

Lemma tsteps_app T es T' es' T'' : tsteps T es T' -> tsteps T' es' T'' -> tsteps T (es ++ es') T''.
Proof. induction 1; [done|]. intros. econstructor; eauto. Qed.

Lemma tsteps_one T e T' : tstep T e T' -> tsteps T [e] T'.
Proof. intros. econstructor; [done|constructor]. Qed.

Create HintDb proc.
#[export] Hint Resolve tsteps_nil tsteps_one : proc.

(** ** Exit codes reach the parent *)
Lemma find_exited_some T w cs c code : find_exited T w cs = Some (c, code) -> c ∈ cs /\ exit_status T c = Some code /\ waits_for w c = true.
Proof.
  induction cs as [|d cs IH]; cbn; [done|]. destruct (exit_status T d) as [x|] eqn:E; [destruct (waits_for w d) eqn:Ew|].
  - intros [= <- <-]. split_and!; [left|done..].
  - intros (? & ? & ?)%IH. split_and!; [by right|done..].
  - intros (? & ? & ?)%IH. split_and!; [by right|done..].
Qed.

Lemma exit_status_alter T T' f p c : procs T' = alter f p (procs T) -> (forall x, p_state (f x) = p_state x) -> exit_status T' c = exit_status T c.
Proof.
  intros E Hf. unfold exit_status. rewrite E. destruct (decide (p = c)) as [->|Hne]; [rewrite lookup_alter_eq|by rewrite lookup_alter_ne].
  destruct (procs T !! c) as [x|]; cbn; [|done]. specialize (Hf x). destruct x as [? ? s], (f _) as [? ? s']. cbn in Hf. by subst.
Qed.

(** A process that has exited did so, with that code, or had when the run began. *)
Lemma tstep_exited T e T' c code : tstep T e T' -> exit_status T' c = Some code -> exit_status T c = Some code \/ e = Exits c code.
Proof.
  intros Hs. destruct Hs as [T p d Hc Hd|T p cd Hc Hp|T T' p w r Hc Hw|T p Hc|T p q Hc Hq]; auto.
  - unfold exit_status, t_fork. cbn. destruct (decide (d = c)) as [->|Hne]; [by rewrite lookup_insert_eq|]. rewrite lookup_insert_ne by done.
    intros H. left. revert H. change (exit_status (mkTable (alter (add_children [d]) p (procs T)) [] None) c = Some code -> exit_status T c = Some code).
    by rewrite (exit_status_alter T _ (add_children [d]) p).
  - unfold t_exit. set (ad := alter _ INIT _). assert (Had : exit_status (mkTable ad [] None) c = exit_status T c).
    { unfold ad. erewrite (exit_status_alter (mkTable (reparent p <$> procs T) [] None)); [|done|done]. unfold exit_status. cbn. rewrite lookup_fmap.
      destruct (procs T !! c) as [[pr cs s]|]; cbn; [|done]. unfold reparent. cbn. by case_decide. }
    unfold exit_status in Had |- *. cbn in Had |- *. destruct (decide (p = c)) as [->|Hne].
    + rewrite lookup_alter_eq. destruct (ad !! c); cbn; [|done]. intros [= ->]. by right.
    + rewrite lookup_alter_ne by done. rewrite Had. by left.
  - unfold t_wait in Hw. destruct (existsb _ _); [|by injection Hw as <- <-; auto]. destruct (find_exited _ _ _) as [[d cd]|]; [|by injection Hw as <- <-; auto].
    injection Hw as <- <-. unfold exit_status, t_reap. cbn. destruct (decide (d = c)) as [->|Hne]; [by rewrite lookup_delete_eq|]. rewrite lookup_delete_ne by done. intros H. left. revert H.
    change (exit_status (mkTable (alter (without_child d) p (procs T)) [] None) c = Some code -> exit_status T c = Some code).
    by rewrite (exit_status_alter T _ (without_child d) p).
Qed.

Lemma tsteps_exited T es T' c code : tsteps T es T' -> exit_status T' c = Some code -> exit_status T c = Some code \/ Exits c code ∈ es.
Proof.
  induction 1 as [T|T e T' es T'' Hs Hss IH]; [by left|]. intros [H|H]%IH; [|right; by right].
  destruct (tstep_exited _ _ _ _ _ Hs H) as [?| ->]; [by left|right; left].
Qed.

(** What a parent is told is what the child exited with. *)
Definition codes_delivered (T : table) (es : list event) : Prop :=
  forall es1 p w c code es2, es = es1 ++ Waits p w (Reaped c code) :: es2 -> exit_status T c = Some code \/ Exits c code ∈ es1.

Lemma tsteps_delivered T es T' : tsteps T es T' -> codes_delivered T es.
Proof.
  intros Hs es1 p w c code es2 ->. assert (Hc : exists T1 T2, tsteps T es1 T1 /\ tstep T1 (Waits p w (Reaped c code)) T2).
  { clear -Hs. revert T Hs. induction es1 as [|e es1 IH]; intros T Hs; cbn in Hs; inversion Hs as [|? ? T1 ? ? Hs1 Hn]; subst.
    - exists T, T1. split; [constructor|done].
    - destruct (IH _ Hn) as (T2 & T3 & H2 & H3). exists T2, T3. split; [by econstructor|done]. }
  destruct Hc as (T1 & T2 & H1 & H2). eapply tsteps_exited; [exact H1|]. inversion H2 as [| |? ? ? ? ? Hc Hw| |]; subst. unfold t_wait in Hw.
  destruct (existsb _ _); [|done]. destruct (find_exited _ _ _) as [[d cd]|] eqn:E; [|done]. injection Hw as -> -> _. by apply find_exited_some in E as (_ & ? & _).
Qed.

(** ** A process is listed by its parent only *)
Definition tree_ok (T : table) : Prop :=
  forall p x c, procs T !! p = Some x -> c ∈ p_children x -> exists y, procs T !! c = Some y /\ p_parent y = Some p.

Lemma tree_ok_parent T p q x y c : tree_ok T -> procs T !! p = Some x -> procs T !! q = Some y -> c ∈ p_children x -> c ∈ p_children y -> p = q.
Proof. intros Ht Hp Hq Hx Hy. destruct (Ht p x c Hp Hx) as (z & Hz & E). destruct (Ht q y c Hq Hy) as (z' & Hz' & E'). congruence. Qed.

Lemma t_fork_tree p c T : tree_ok T -> procs T !! c = None -> tree_ok (t_fork p c T).
Proof.
  intros Ht Hc q x d. unfold t_fork. cbn [procs]. intros Hq Hd.
  assert (Hold : forall q' x', procs T !! q' = Some x' -> d ∈ p_children x' -> exists y, <[c := mkProc (Some p) [] Alive]> (alter (add_children [c]) p (procs T)) !! d = Some y /\ p_parent y = Some q').
  { intros q' x' Hq' Hd'. destruct (Ht q' x' d Hq' Hd') as (y & Hy & E). assert (d <> c) by congruence. rewrite lookup_insert_ne by done. destruct (decide (p = d)) as [<-|].
    - rewrite lookup_alter_eq, Hy. eexists. by split.
    - rewrite lookup_alter_ne by done. eauto. }
  rewrite lookup_insert in Hq. case_decide as E; [injection Hq as <-; by apply not_elem_of_nil in Hd|]. destruct (decide (p = q)) as [<-|Hne].
  - rewrite lookup_alter_eq in Hq. destruct (procs T !! p) as [xp|] eqn:Hp; [|done]. injection Hq as <-.
    apply elem_of_app in Hd as [Hd| ->%list_elem_of_singleton]; [by apply (Hold p xp)|]. rewrite lookup_insert_eq. eauto.
  - rewrite lookup_alter_ne in Hq by done. by apply (Hold q x).
Qed.

Lemma t_exit_lookup p code T q : procs (t_exit p code T) !! q =
  (fun x => let x := reparent p x in let x := if decide (q = INIT) then add_children (children_of T p) x else x in
     if decide (q = p) then mkProc (p_parent x) [] (Exited code) else x) <$> procs T !! q.
Proof.
  unfold t_exit. cbn. set (f := fun x : proc => mkProc (p_parent x) [] (Exited code)). set (g := add_children _).
  assert (Ha : forall h (m : gmap Z proc) r, alter h r m !! q = (if decide (q = r) then h else id) <$> m !! q).
  { intros h m r. case_decide as E; [subst; apply lookup_alter_eq|]. rewrite lookup_alter_ne by done. by destruct (m !! q). }
  rewrite !Ha, lookup_fmap. destruct (procs T !! q) as [x|]; [|done]. cbn. by repeat case_decide.
Qed.

Lemma t_exit_tree p code T : tree_ok T -> p <> INIT -> tree_ok (t_exit p code T).
Proof.
  intros Ht Hpi q x c. rewrite t_exit_lookup. destruct (procs T !! q) as [xq|] eqn:Hq; [|done]. cbn [fmap option_fmap option_map]. intros [= <-] Hc.
  assert (Hold : forall q' x', procs T !! q' = Some x' -> c ∈ p_children x' -> exists y, procs (t_exit p code T) !! c = Some y /\ p_parent y = Some (if decide (q' = p) then INIT else q')).
  { intros q' x' Hq' Hc'. destruct (Ht q' x' c Hq' Hc') as (y & Hy & E). rewrite t_exit_lookup, Hy. cbn. eexists. split; [done|].
    assert (Hr : p_parent (reparent p y) = Some (if decide (q' = p) then INIT else q')) by (unfold reparent; rewrite E; destruct (decide (q' = p)) as [->|]; [by rewrite decide_True|rewrite decide_False by congruence; done]).
    by repeat case_decide. }
  destruct (decide (q = p)) as [->|Hqp]; [by apply not_elem_of_nil in Hc|]. destruct (decide (q = INIT)) as [->|Hqi].
  - cbn in Hc. apply elem_of_app in Hc as [Hc|Hc].
    + assert (Hc' : c ∈ p_children xq) by (unfold reparent in Hc; by case_decide). destruct (Hold INIT xq Hq Hc') as (y & Hy & E). rewrite decide_False in E by done. eauto.
    + unfold children_of in Hc. destruct (procs T !! p) as [xp|] eqn:Hp; [|by apply not_elem_of_nil in Hc]. destruct (Hold p xp Hp Hc) as (y & Hy & E). rewrite decide_True in E by done. eauto.
  - assert (Hc' : c ∈ p_children xq) by (unfold reparent in Hc; by case_decide). destruct (Hold q xq Hq Hc') as (y & Hy & E). rewrite decide_False in E by done. eauto.
Qed.

Lemma t_reap_lookup p c T q : procs (t_reap p c T) !! q = if decide (q = c) then None else (if decide (q = p) then without_child c else id) <$> procs T !! q.
Proof.
  unfold t_reap. cbn. destruct (decide (q = c)) as [->|Hc]; [by rewrite lookup_delete_eq|]. rewrite lookup_delete_ne by done.
  destruct (decide (q = p)) as [->|]; [by rewrite lookup_alter_eq|]. rewrite lookup_alter_ne by done. by destruct (procs T !! q).
Qed.

Lemma t_reap_tree p c T : tree_ok T -> c ∈ children_of T p -> tree_ok (t_reap p c T).
Proof.
  intros Ht Hc q x d. unfold children_of in Hc. destruct (procs T !! p) as [xp|] eqn:Hp; [|by apply not_elem_of_nil in Hc]. rewrite t_reap_lookup.
  case_decide as Hqc; [done|]. destruct (procs T !! q) as [xq|] eqn:Hq; [|done]. cbn [fmap option_fmap option_map]. intros [= <-] Hd.
  assert (Hd' : d ∈ p_children xq /\ d <> c).
  { destruct (decide (q = p)) as [->|Hne]; [cbn in Hd; apply list_elem_of_filter in Hd; tauto|]. split; [done|]. intros ->. apply Hne. by apply (tree_ok_parent T q p xq xp c). }
  destruct Hd' as [Hin Hne]. destruct (Ht q xq d Hq Hin) as (y & Hy & E). rewrite t_reap_lookup, decide_False, Hy by done. destruct (decide (d = p)); eexists; (split; [reflexivity|exact E]).
Qed.
