(* ===== verification/Kernel.v ===== *)
(** * The state of the kernel

    The data of os/src/task, os/src/fs and os/src/trap, the cells of the static
    variables, and the commands on the whole state.

    An [Arc] is a reference [ref] into a heap: [tasks] holds the
    [TaskControlBlock]s and [files] the [OSInode]s.  An [UPSafeCell] is a cell:
    [borrows] lists the cells borrowed at the moment, the innermost first, and
    [exclusive_access] of a borrowed cell panics as [RefCell::borrow_mut] does. *)

From S2P Require Import Prelude Address Frames PageTable MemorySet BlockDev BlockStore Efs Vfs.

Abbreviation ref := nat (only parsing).

(** ** Open files (os/src/fs/inode.rs, os/src/fs/stdio.rs) *)
Record OSInode := mkOSInode {
  os_readable : bool;
  os_writable : bool;
  os_offset : Z;
  os_inode : Inode;
}.

Definition set_offset (self : OSInode) (offset : Z) : OSInode :=
  mkOSInode (os_readable self) (os_writable self) offset (os_inode self).

(** [Arc<dyn File + Send + Sync>] *)
Inductive FileObj := Stdin | Stdout | OSFile (r : ref).

(** ** Task contexts (os/src/task/context.rs)

    [ra], [sp] and the callee-saved registers of a task that is not running
    stand for the point its kernel stack continues from: [trap_return] for a new
    task, and for the others the calls that were active when [__switch] saved
    them.  [suspend_current_and_run_next] is called from three places. *)
Inductive suspension :=
  | InYield                            (* [sys_yield] *)
  | InTimer                            (* the timer interrupt of [trap_handler] *)
  | InStdin (buffers : list UserSlice) (* the busy loop of [Stdin::read], in [sys_read] *).

Inductive TaskContext :=
  | zero_init
  | goto_trap_return (kstack_ptr : Z)
  | suspended (s : suspension)
  | in_run_tasks.

(** ** Task control blocks (os/src/task/task.rs) *)
Inductive TaskStatus := Ready | Running | Zombie.
#[global] Instance task_status_eq_dec : EqDecision TaskStatus.
Proof. solve_decision. Defined.

Record TaskControlBlockInner := mkInner {
  trap_cx_ppn : PhysPageNum;
  base_size : Z;
  task_cx : TaskContext;
  task_status : TaskStatus;
  memory_set : MemorySet;
  parent : option ref;
  children : list ref;
  exit_code : Z;
  fd_table : list (option FileObj);
}.

(** [pid] is a [PidHandle], [kernel_stack] a [KernelStack]: both hold the pid. *)
Record TaskControlBlock := mkTCB {
  pid : Z;
  kernel_stack : Z;
  inner : TaskControlBlockInner;
}.

Definition set_trap_cx_ppn (i : TaskControlBlockInner) (x : PhysPageNum) : TaskControlBlockInner :=
  mkInner x (base_size i) (task_cx i) (task_status i) (memory_set i) (parent i) (children i) (exit_code i) (fd_table i).
Definition set_task_cx (i : TaskControlBlockInner) (x : TaskContext) : TaskControlBlockInner :=
  mkInner (trap_cx_ppn i) (base_size i) x (task_status i) (memory_set i) (parent i) (children i) (exit_code i) (fd_table i).
Definition set_status (i : TaskControlBlockInner) (x : TaskStatus) : TaskControlBlockInner :=
  mkInner (trap_cx_ppn i) (base_size i) (task_cx i) x (memory_set i) (parent i) (children i) (exit_code i) (fd_table i).
Definition set_memory (i : TaskControlBlockInner) (x : MemorySet) : TaskControlBlockInner :=
  mkInner (trap_cx_ppn i) (base_size i) (task_cx i) (task_status i) x (parent i) (children i) (exit_code i) (fd_table i).
Definition set_parent (i : TaskControlBlockInner) (x : option ref) : TaskControlBlockInner :=
  mkInner (trap_cx_ppn i) (base_size i) (task_cx i) (task_status i) (memory_set i) x (children i) (exit_code i) (fd_table i).
Definition set_children (i : TaskControlBlockInner) (x : list ref) : TaskControlBlockInner :=
  mkInner (trap_cx_ppn i) (base_size i) (task_cx i) (task_status i) (memory_set i) (parent i) x (exit_code i) (fd_table i).
Definition set_exit_code (i : TaskControlBlockInner) (x : Z) : TaskControlBlockInner :=
  mkInner (trap_cx_ppn i) (base_size i) (task_cx i) (task_status i) (memory_set i) (parent i) (children i) x (fd_table i).
Definition set_fd_table (i : TaskControlBlockInner) (x : list (option FileObj)) : TaskControlBlockInner :=
  mkInner (trap_cx_ppn i) (base_size i) (task_cx i) (task_status i) (memory_set i) (parent i) (children i) (exit_code i) x.

(** [PidAllocator] and [Processor] (os/src/task/pid.rs, os/src/task/processor.rs). *)
Record PidAllocator := mkPids {
  pid_current : Z;
  pid_recycled : list Z;
}.

Record Processor := mkProcessor {
  running : option ref;      (* [current] *)
  idle_task_cx : TaskContext;
}.

(** ** Trap contexts (os/src/trap/context.rs) *)
Record TrapContext := mkTrapContext {
  xs : list Z;                (* [x] *)
  sstatus : Z;
  sepc : Z;
  kernel_satp : Z;
  kernel_sp : Z;
  trap_handler_ptr : Z;      (* [trap_handler] *)
}.

(** The causes of traps [trap_handler] distinguishes. *)
Inductive Trap :=
  | UserEnvCall
  | StoreFault | StorePageFault
  | InstructionFault | InstructionPageFault
  | LoadFault | LoadPageFault
  | IllegalInstruction
  | SupervisorTimer
  | OtherTrap.

(** The trap vector: [trap_from_kernel], or the trampoline. *)
Inductive trap_vector := FromKernel | FromUser.

(** What the kernel prints: the characters a program writes, and its own messages. *)
Inductive output :=
  | Char (c : Z)
  | Killed (cause : Trap) (stval sepc : Z)
  | IllegalInstructionKilled
  | IdleExit (code : Z)
  | AppName (name : list byte)
  | AppsHeader
  | AppsFooter
  | Hello.

(** The cells: one per static variable, [TaskControlBlock] and [OSInode]. *)
Inductive cell :=
  | PID_ALLOCATOR
  | KERNEL_SPACE
  | TASK_MANAGER
  | PROCESSOR
  | TaskInner (t : ref)
  | FileInner (r : ref).
#[global] Instance cell_eq_dec : EqDecision cell.
Proof. solve_decision. Defined.

(** ** What the kernel relies on

    The ELF parser (the crate [xmas_elf]), the symbols of the linker, the CSRs
    and the firmware's console, as the n-th read of each; [loops] bounds the
    rounds of the model's loops. *)
Record Env := mkEnv {
  parse_elf : list byte -> option ElfFile;
  tramp : Z;                   (* [strampoline] *)
  trap_handler_addr : Z;
  restore_offset : Z;          (* [__restore - __alltraps] *)
  user_sstatus : Z;            (* [sstatus::read()] after [set_spp(SPP::User)] *)
  console_getchar : nat -> Z;
  read_time : nat -> Z;
  loops : nat;
}.

(** ** The state *)
Record Kernel (St F : Type) := mkKernel {
  disk : St;
  machine : Machine F;
  root_fs : EasyFileSystem;    (* what [ROOT_INODE] belongs to *)
  kernel_space : MemorySet;
  pid_allocator : PidAllocator;
  ready_queue : list ref;      (* [TaskManager] *)
  processor : Processor;
  tasks : gmap ref TaskControlBlock;
  initproc : ref;
  files : gmap ref OSInode;
  next_ref : ref;
  stvec : trap_vector;
  timer : Z;
  reads : nat;                 (* reads of the console and of the clock so far *)
  console : list output;
  borrows : list cell;
}.
Arguments mkKernel {St F}.
Arguments disk {St F}.
Arguments machine {St F}.
Arguments root_fs {St F}.
Arguments kernel_space {St F}.
Arguments pid_allocator {St F}.
Arguments ready_queue {St F}.
Arguments processor {St F}.
Arguments tasks {St F}.
Arguments initproc {St F}.
Arguments files {St F}.
Arguments next_ref {St F}.
Arguments stvec {St F}.
Arguments timer {St F}.
Arguments reads {St F}.
Arguments console {St F}.
Arguments borrows {St F}.

Section State.
Context {St F : Type}.
Abbreviation Kernel := (Kernel St F).
Implicit Types (k : Kernel).

Definition set_disk k (v : St) : Kernel :=
  mkKernel v (machine k) (root_fs k) (kernel_space k) (pid_allocator k) (ready_queue k) (processor k) (tasks k) (initproc k) (files k) (next_ref k) (stvec k) (timer k) (reads k) (console k) (borrows k).
Definition set_machine k (v : Machine F) : Kernel :=
  mkKernel (disk k) v (root_fs k) (kernel_space k) (pid_allocator k) (ready_queue k) (processor k) (tasks k) (initproc k) (files k) (next_ref k) (stvec k) (timer k) (reads k) (console k) (borrows k).
Definition set_root_fs k (v : EasyFileSystem) : Kernel :=
  mkKernel (disk k) (machine k) v (kernel_space k) (pid_allocator k) (ready_queue k) (processor k) (tasks k) (initproc k) (files k) (next_ref k) (stvec k) (timer k) (reads k) (console k) (borrows k).
Definition set_initproc k (v : ref) : Kernel :=
  mkKernel (disk k) (machine k) (root_fs k) (kernel_space k) (pid_allocator k) (ready_queue k) (processor k) (tasks k) v (files k) (next_ref k) (stvec k) (timer k) (reads k) (console k) (borrows k).
Definition set_kernel_space k (v : MemorySet) : Kernel :=
  mkKernel (disk k) (machine k) (root_fs k) v (pid_allocator k) (ready_queue k) (processor k) (tasks k) (initproc k) (files k) (next_ref k) (stvec k) (timer k) (reads k) (console k) (borrows k).
Definition set_pid_allocator k (v : PidAllocator) : Kernel :=
  mkKernel (disk k) (machine k) (root_fs k) (kernel_space k) v (ready_queue k) (processor k) (tasks k) (initproc k) (files k) (next_ref k) (stvec k) (timer k) (reads k) (console k) (borrows k).
Definition set_ready_queue k (v : list ref) : Kernel :=
  mkKernel (disk k) (machine k) (root_fs k) (kernel_space k) (pid_allocator k) v (processor k) (tasks k) (initproc k) (files k) (next_ref k) (stvec k) (timer k) (reads k) (console k) (borrows k).
Definition set_processor k (v : Processor) : Kernel :=
  mkKernel (disk k) (machine k) (root_fs k) (kernel_space k) (pid_allocator k) (ready_queue k) v (tasks k) (initproc k) (files k) (next_ref k) (stvec k) (timer k) (reads k) (console k) (borrows k).
Definition set_tasks k (v : gmap ref TaskControlBlock) : Kernel :=
  mkKernel (disk k) (machine k) (root_fs k) (kernel_space k) (pid_allocator k) (ready_queue k) (processor k) v (initproc k) (files k) (next_ref k) (stvec k) (timer k) (reads k) (console k) (borrows k).
Definition set_files k (v : gmap ref OSInode) : Kernel :=
  mkKernel (disk k) (machine k) (root_fs k) (kernel_space k) (pid_allocator k) (ready_queue k) (processor k) (tasks k) (initproc k) v (next_ref k) (stvec k) (timer k) (reads k) (console k) (borrows k).
Definition set_next_ref k (v : ref) : Kernel :=
  mkKernel (disk k) (machine k) (root_fs k) (kernel_space k) (pid_allocator k) (ready_queue k) (processor k) (tasks k) (initproc k) (files k) v (stvec k) (timer k) (reads k) (console k) (borrows k).
Definition set_stvec k (v : trap_vector) : Kernel :=
  mkKernel (disk k) (machine k) (root_fs k) (kernel_space k) (pid_allocator k) (ready_queue k) (processor k) (tasks k) (initproc k) (files k) (next_ref k) v (timer k) (reads k) (console k) (borrows k).
Definition set_timer k (v : Z) : Kernel :=
  mkKernel (disk k) (machine k) (root_fs k) (kernel_space k) (pid_allocator k) (ready_queue k) (processor k) (tasks k) (initproc k) (files k) (next_ref k) (stvec k) v (reads k) (console k) (borrows k).
Definition set_reads k (v : nat) : Kernel :=
  mkKernel (disk k) (machine k) (root_fs k) (kernel_space k) (pid_allocator k) (ready_queue k) (processor k) (tasks k) (initproc k) (files k) (next_ref k) (stvec k) (timer k) v (console k) (borrows k).
Definition set_console k (v : list output) : Kernel :=
  mkKernel (disk k) (machine k) (root_fs k) (kernel_space k) (pid_allocator k) (ready_queue k) (processor k) (tasks k) (initproc k) (files k) (next_ref k) (stvec k) (timer k) (reads k) v (borrows k).
Definition set_borrows k (v : list cell) : Kernel :=
  mkKernel (disk k) (machine k) (root_fs k) (kernel_space k) (pid_allocator k) (ready_queue k) (processor k) (tasks k) (initproc k) (files k) (next_ref k) (stvec k) (timer k) (reads k) (console k) v.

Abbreviation M := (cmd Kernel).

(** Reading a part of the state, and updating it. *)
Definition gets {A} (f : Kernel -> A) : M A := fun k => Ok (f k, k).
Definition update (f : Kernel -> Kernel) : M unit := fun k => Ok (tt, f k).

(** A computation on the memory, and one on the disk. *)
Definition on_machine {A} (c : cmd (Machine F) A) : M A :=
  fun k => match c (machine k) with
           | Ok (a, m) => Ok (a, set_machine k m)
           | Fail f => Fail f
           end.

Definition on_disk {A} (c : cmd St A) : M A :=
  fun k => match c (disk k) with
           | Ok (a, d) => Ok (a, set_disk k d)
           | Fail f => Fail f
           end.

(** [let guard = cell.exclusive_access(); body], the guard dropped at the end. *)
Definition with_cell {A} (c : cell) (body : M A) : M A :=
  let* b := gets borrows in
  assert (bool_decide (c ∉ b));;
  update (fun k => set_borrows k (c :: b));;
  let* a := body in
  update (fun k => set_borrows k (tail (borrows k)));;
  ret a.

(** Following an [Arc]. *)
Definition get_task (t : ref) : M TaskControlBlock :=
  let* ts := gets tasks in
  match ts !! t with Some tcb => ret tcb | None => fail Undefined end.

Definition get_inner (t : ref) : M TaskControlBlockInner :=
  let* tcb := get_task t in ret (inner tcb).

Definition set_inner (t : ref) (i : TaskControlBlockInner) : M unit :=
  let* tcb := get_task t in
  update (fun k => set_tasks k (<[t := mkTCB (pid tcb) (kernel_stack tcb) i]> (tasks k))).

Definition get_file (r : ref) : M OSInode :=
  let* fs := gets files in
  match fs !! r with Some f => ret f | None => fail Undefined end.

Definition set_file (r : ref) (f : OSInode) : M unit :=
  update (fun k => set_files k (<[r := f]> (files k))).

(** [Arc::new] *)
Definition new_task (tcb : TaskControlBlock) : M ref :=
  let* t := gets next_ref in
  update (fun k => set_next_ref (set_tasks k (<[t := tcb]> (tasks k))) (S t));;
  ret t.

Definition new_file (f : OSInode) : M ref :=
  let* r := gets next_ref in
  update (fun k => set_next_ref (set_files k (<[r := f]> (files k))) (S r));;
  ret r.

Definition print (o : output) : M unit :=
  update (fun k => set_console k (console k ++ [o])).

End State.
