(* ===== verification/OsInode.v ===== *)
(** * Open files of the kernel (os/src/fs/inode.rs, os/src/fs/stdio.rs): definitions

    [OSInode] is an open file with its own offset, shared by every descriptor
    that refers to it; [Stdin] and [Stdout] are the console. *)

From S2P Require Import Prelude Address Frames PageTable MemorySet BlockDev BlockStore Efs Vfs Kernel.

(** ** [OpenFlags] *)
Definition RDONLY : Z := 0.
Definition WRONLY : Z := Z.shiftl 1 0.
Definition RDWR : Z := Z.shiftl 1 1.
Definition CREATE : Z := Z.shiftl 1 9.
Definition TRUNC : Z := Z.shiftl 1 10.

Definition all_flags : Z := Z.lor (Z.lor (Z.lor WRONLY RDWR) CREATE) TRUNC.

Definition contains (flags f : Z) : bool := Z.land flags f =? f.

(** [OpenFlags::from_bits]: unknown bits are refused. *)
Definition flags_from_bits (bits : Z) : option Z :=
  if Z.land bits (2 ^ 32 - 1 - all_flags) =? 0 then Some bits else None.

(** [(readable, writable)] *)
Definition read_write (flags : Z) : bool * bool :=
  if flags =? 0 then (true, false)
  else if contains flags WRONLY then (false, true)
  else (true, true).

(** [OSInode::new] *)
Definition os_inode_new (readable writable : bool) (inode : Inode) : OSInode :=
  mkOSInode readable writable 0 inode.

(** ** [core::str::from_utf8] followed by [chars] *)
Definition between (lo hi : Z) (b : byte) : bool := (lo <=? byte.unsigned b) && (byte.unsigned b <=? hi).
Definition continuation (b : byte) : Z := byte.unsigned b - 0x80.

(** The second byte of the sequences of three and of four bytes. *)
Definition second3 (b0 b1 : byte) : bool :=
  (between 0xe0 0xe0 b0 && between 0xa0 0xbf b1) || (between 0xe1 0xec b0 && between 0x80 0xbf b1)
  || (between 0xed 0xed b0 && between 0x80 0x9f b1) || (between 0xee 0xef b0 && between 0x80 0xbf b1).
Definition second4 (b0 b1 : byte) : bool :=
  (between 0xf0 0xf0 b0 && between 0x90 0xbf b1) || (between 0xf1 0xf3 b0 && between 0x80 0xbf b1)
  || (between 0xf4 0xf4 b0 && between 0x80 0x8f b1).

Fixpoint utf8_chars (b : list byte) : option (list Z) :=
  match b with
  | [] => Some []
  | b0 :: r0 =>
      if between 0 0x7f b0 then cons (byte.unsigned b0) <$> utf8_chars r0 else
      match r0 with
      | [] => None
      | b1 :: r1 =>
          if between 0xc2 0xdf b0 && between 0x80 0xbf b1
          then cons ((byte.unsigned b0 - 0xc0) * 64 + continuation b1) <$> utf8_chars r1 else
          match r1 with
          | [] => None
          | b2 :: r2 =>
              if second3 b0 b1 && between 0x80 0xbf b2
              then cons (((byte.unsigned b0 - 0xe0) * 64 + continuation b1) * 64 + continuation b2) <$> utf8_chars r2 else
              match r2 with
              | [] => None
              | b3 :: r3 =>
                  if second4 b0 b1 && between 0x80 0xbf b2 && between 0x80 0xbf b3
                  then cons ((((byte.unsigned b0 - 0xf0) * 64 + continuation b1) * 64 + continuation b2) * 64
                             + continuation b3) <$> utf8_chars r3
                  else None
              end
          end
      end
  end.

Section Ops.
Context {St F : Type} `{BlockStore St} `{FrameAllocator F}.
Abbreviation M := (cmd (Kernel St F)).

(** The bytes of a slice of user memory, read and written. *)
Definition slice_read (s : UserSlice) : M (list byte) :=
  let* b := on_machine (read_page (sl_page s)) in
  lift (slice b (sl_from s) (sl_to s)).

Definition slice_write (s : UserSlice) (bytes : list byte) : M unit :=
  let* b := on_machine (read_page (sl_page s)) in
  let* b := lift (copy_from_slice b (sl_from s) (sl_to s) bytes) in
  on_machine (write_page (sl_page s) b).

(** ** [OSInode] *)

(** The loop of [read_all]. *)
Fixpoint read_all_loop (fuel : nat) (r : ref) (buffer v : list byte) : M (list byte) :=
  match fuel with
  | O => fail OutOfFuel
  | S fuel =>
      let* f := get_file r in
      let* (len, buffer) := on_disk (vfs_read_at (os_inode f) (os_offset f) buffer) in
      if len =? 0 then ret v else
      set_file r (set_offset f (w64 (os_offset f + len)));;
      let* data := lift (slice buffer 0 len) in
      read_all_loop fuel r buffer (v ++ data)
  end.

Definition read_all (fuel : nat) (r : ref) : M (list byte) :=
  with_cell (FileInner r) (read_all_loop fuel r (replicate 512 Byte.x00) []).

(** [list_apps] *)
Definition list_apps : M unit :=
  let* fs := gets root_fs in
  print AppsHeader;;
  let* apps := on_disk (ls (root_inode fs)) in
  for_each apps (fun app _ => print (AppName app)) tt;;
  print AppsFooter.

Definition open_file (name : list byte) (flags : Z) : M (option ref) :=
  let* fs := gets root_fs in
  let '(readable, writable) := read_write flags in
  if contains flags CREATE then
    let* r := on_disk (find fs (root_inode fs) name) in
    match r with
    | Some inode =>
        (* clear size *)
        on_disk (clear fs inode);;
        let* f := new_file (os_inode_new readable writable inode) in
        ret (Some f)
    | None =>
        (* create file *)
        let* r := on_disk (create fs (root_inode fs) name) in
        match r with
        | Some inode => let* f := new_file (os_inode_new readable writable inode) in ret (Some f)
        | None => ret None
        end
    end
  else
    let* r := on_disk (find fs (root_inode fs) name) in
    match r with
    | Some inode =>
        let* _ := if contains flags TRUNC then on_disk (clear fs inode) else ret tt in
        let* f := new_file (os_inode_new readable writable inode) in
        ret (Some f)
    | None => ret None
    end.

(** The loops of [OSInode::read] and [OSInode::write]. *)
Fixpoint os_read_loop (r : ref) (buffers : list UserSlice) (total_read_size : Z) : M Z :=
  match buffers with
  | [] => ret total_read_size
  | s :: buffers =>
      let* f := get_file r in
      let* bytes := slice_read s in
      let* (read_size, bytes) := on_disk (vfs_read_at (os_inode f) (os_offset f) bytes) in
      slice_write s bytes;;
      if read_size =? 0 then ret total_read_size else
      set_file r (set_offset f (w64 (os_offset f + read_size)));;
      os_read_loop r buffers (w64 (total_read_size + read_size))
  end.

Definition os_read (r : ref) (buffers : list UserSlice) : M Z :=
  with_cell (FileInner r) (os_read_loop r buffers 0).

Fixpoint os_write_loop (r : ref) (buffers : list UserSlice) (total_write_size : Z) : M Z :=
  match buffers with
  | [] => ret total_write_size
  | s :: buffers =>
      let* f := get_file r in
      let* fs := gets root_fs in
      let* bytes := slice_read s in
      let* write_size := on_disk (vfs_write_at fs (os_inode f) (os_offset f) bytes) in
      assert (write_size =? slice_len s);;
      set_file r (set_offset f (w64 (os_offset f + write_size)));;
      os_write_loop r buffers (w64 (total_write_size + write_size))
  end.

Definition os_write (r : ref) (buffers : list UserSlice) : M Z :=
  with_cell (FileInner r) (os_write_loop r buffers 0).

(** ** [Stdout::write] *)
Fixpoint stdout_loop (buffers : list UserSlice) : M unit :=
  match buffers with
  | [] => ret tt
  | s :: buffers =>
      let* bytes := slice_read s in
      let* cs := lift (unwrap (utf8_chars bytes)) in
      for_each cs (fun c _ => print (Char c)) tt;;
      stdout_loop buffers
  end.

Definition stdout_write (user_buf : list UserSlice) : M Z :=
  stdout_loop user_buf;;
  ret (buffer_len 0 user_buf).

(** [file.readable()] and [file.writable()] *)
Definition file_readable (file : FileObj) : M bool :=
  match file with
  | Stdin => ret true
  | Stdout => ret false
  | OSFile r => let* f := get_file r in ret (os_readable f)
  end.

Definition file_writable (file : FileObj) : M bool :=
  match file with
  | Stdin => ret false
  | Stdout => ret true
  | OSFile r => let* f := get_file r in ret (os_writable f)
  end.

(** [file.write(buf)] *)
Definition file_write (file : FileObj) (buf : list UserSlice) : M Z :=
  match file with
  | Stdin => fail Panic
  | Stdout => stdout_write buf
  | OSFile r => os_write r buf
  end.

End Ops.
