(* ===== verification/Task.v ===== *)
(** * Processes (os/src/task, os/src/trap/context.rs): definitions

    A task that calls [schedule] leaves its kernel stack until [run_tasks]
    switches back to it: functions that may do so return a [flow], and
    Syscall.v holds what the task does when it is switched to again. *)

From Stdlib Require Import String.
From S2P Require Import Prelude Address Frames PageTable MemorySet BlockDev BlockStore Efs Vfs Kernel OsInode.

#[local] Open Scope string_scope.
#[local] Open Scope Z_scope.

(** ** [TrapContext] *)

(** [TrapContext::set_sp] and [TrapContext::app_init_context]. *)
Definition set_sp (cx : TrapContext) (sp : Z) : TrapContext :=
  mkTrapContext (<[2%nat := sp]> (xs cx)) (sstatus cx) (sepc cx) (kernel_satp cx) (kernel_sp cx) (trap_handler_ptr cx).

Definition app_init_context (sstatus entry sp kernel_satp kernel_sp trap_handler : Z) : TrapContext :=
  let cx := mkTrapContext (replicate 32 0) sstatus entry kernel_satp kernel_sp trap_handler in
  set_sp cx sp.

Definition set_x (cx : TrapContext) (i : nat) (v : Z) : TrapContext :=
  mkTrapContext (<[i := v]> (xs cx)) (sstatus cx) (sepc cx) (kernel_satp cx) (kernel_sp cx) (trap_handler_ptr cx).
Definition set_sepc (cx : TrapContext) (v : Z) : TrapContext :=
  mkTrapContext (xs cx) (sstatus cx) v (kernel_satp cx) (kernel_sp cx) (trap_handler_ptr cx).
Definition set_kernel_sp (cx : TrapContext) (v : Z) : TrapContext :=
  mkTrapContext (xs cx) (sstatus cx) (sepc cx) (kernel_satp cx) v (trap_handler_ptr cx).

(** The layout of the structure: 37 words of 8 bytes. *)
Definition cx_words : nat := 37.
Definition cx_len : nat := 296.

Definition cx_of_words (l : list Z) : TrapContext :=
  let w i := default 0 (l !! i) in
  mkTrapContext (take 32 l) (w 32%nat) (w 33%nat) (w 34%nat) (w 35%nat) (w 36%nat).

Definition words_of_cx (cx : TrapContext) : list Z :=
  xs cx ++ [sstatus cx; sepc cx; kernel_satp cx; kernel_sp cx; trap_handler_ptr cx].

Section Context.
Context {F : Type} `{FrameAllocator F}.

(** [*ppn.get_mut::<TrapContext>()], read and written. *)
Definition read_cx (ppn : PhysPageNum) : cmd (Machine F) TrapContext :=
  let* _ := check_null (addr_of ppn) in
  let* b := read_page ppn in
  ret (cx_of_words (dec_words 8 cx_words (take cx_len b))).

Definition write_cx (ppn : PhysPageNum) (cx : TrapContext) : cmd (Machine F) unit :=
  let* _ := check_null (addr_of ppn) in
  let* b := read_page ppn in
  write_page ppn (splice b 0 (enc_words 8 (words_of_cx cx))).

(** A change of some fields. *)
Definition modify_cx (ppn : PhysPageNum) (f : TrapContext -> TrapContext) : cmd (Machine F) unit :=
  let* cx := read_cx ppn in
  write_cx ppn (f cx).

End Context.

(** ** [PidAllocator] *)
Definition pid_allocator_new : PidAllocator := mkPids 0 [].

Definition pid_allocator_alloc (self : PidAllocator) : Z * PidAllocator :=
  match vec_pop (pid_recycled self) with
  | Some (pid, recycled') => (pid, mkPids (pid_current self) recycled')
  | None =>
      let self := mkPids (w64 (pid_current self + 1)) (pid_recycled self) in
      (w64 (pid_current self - 1), self)
  end.

Definition pid_allocator_dealloc (pid : Z) (self : PidAllocator) : result PidAllocator :=
  if negb (pid <? pid_current self) then Fail Panic else
  if bool_decide (pid ∈ pid_recycled self) then Fail Panic else
  Ok (mkPids (pid_current self) (pid_recycled self ++ [pid])).

(** The (bottom, top) of a kernel stack in kernel space. *)
Definition kernel_stack_position (app_id : Z) : Z * Z :=
  let top := w64 (TRAMPOLINE - w64 (app_id * (KERNEL_STACK_SIZE + PAGE_SIZE))) in
  let bottom := w64 (top - KERNEL_STACK_SIZE) in
  (bottom, top).

(** [KernelStack::get_top] *)
Definition get_top (kernel_stack : Z) : Z := (kernel_stack_position kernel_stack).2.

(** [alloc_fd]: the first free descriptor, or a new one. *)
Definition alloc_fd (i : TaskControlBlockInner) : Z * TaskControlBlockInner :=
  match list_find (fun o => o = None) (fd_table i) with
  | Some (fd, _) => (Z.of_nat fd, i)
  | None =>
      let i := set_fd_table i (fd_table i ++ [None]) in
      (w64 (zlen (fd_table i) - 1), i)
  end.

Definition is_zombie (i : TaskControlBlockInner) : bool := bool_decide (task_status i = Zombie).

(** pid of usertests app in make run TEST=1 *)
Definition IDLE_PID : Z := 0.

(** The [Arc]s of a task: the static [INITPROC], the ready queue, the processor,
    the children of every task, and the variable [task] of a suspended [sys_read]. *)
Definition holds (t : ref) (i : TaskControlBlockInner) (self : ref) : nat :=
  (count_occ Nat.eq_dec (children i) t
   + match task_cx i, task_status i with
     | suspended (InStdin _), Ready => if Nat.eqb self t then 1 else 0
     | _, _ => 0
     end)%nat.

Definition strong_count {St F} (k : Kernel St F) (t : ref) : nat :=
  ((if Nat.eqb (initproc k) t then 1 else 0)
   + count_occ Nat.eq_dec (ready_queue k) t
   + match running (processor k) with Some r => if Nat.eqb r t then 1 else 0 | None => 0 end
   + foldr (fun e n => holds t (inner e.2) e.1 + n) 0 (map_to_list (tasks k)))%nat.

(** What the current task does next. *)
Inductive flow :=
  | Value (v : Z)       (* the system call returns *)
  | Switched            (* it called [schedule] *)
  | PowerOff (ok : bool) (* QEMU exits *).

Section Ops.
Context {St F : Type} `{BlockStore St} `{FrameAllocator F}.
Abbreviation M := (cmd (Kernel St F)).
Variable env : Env.

(** ** Pids and kernel stacks (pid.rs) *)
Definition pid_alloc : M Z :=
  with_cell PID_ALLOCATOR (
    let* a := gets pid_allocator in
    let '(pid, a) := pid_allocator_alloc a in
    update (fun k => set_pid_allocator k a);;
    ret pid).

(** [PidHandle::drop] *)
Definition drop_pid (pid : Z) : M unit :=
  with_cell PID_ALLOCATOR (
    let* a := gets pid_allocator in
    let* a := lift (pid_allocator_dealloc pid a) in
    update (fun k => set_pid_allocator k a)).

(** [KernelStack::new] *)
Definition kernel_stack_new (pid : Z) : M Z :=
  let '(kernel_stack_bottom, kernel_stack_top) := kernel_stack_position pid in
  with_cell KERNEL_SPACE (
    let* ks := gets kernel_space in
    let* ks := on_machine (insert_framed_area ks (va_from kernel_stack_bottom) (va_from kernel_stack_top)
                             (Z.lor MP_R MP_W)) in
    update (fun k => set_kernel_space k ks));;
  ret pid.

(** [KernelStack::drop] *)
Definition drop_kernel_stack (kernel_stack : Z) : M unit :=
  let '(kernel_stack_bottom, _) := kernel_stack_position kernel_stack in
  let* vpn := lift (page_of (va_from kernel_stack_bottom)) in
  with_cell KERNEL_SPACE (
    let* ks := gets kernel_space in
    let* ks := on_machine (remove_area_with_start_vpn ks vpn) in
    update (fun k => set_kernel_space k ks)).

(** The drop of an [Arc<TaskControlBlock>]: the last one drops the fields, in
    the order of their declaration. *)
Fixpoint drop_arc (fuel : nat) (t : ref) : M unit :=
  let* n := gets (fun k => strong_count k t) in
  if negb (Nat.eqb n 0) then ret tt else
  match fuel with
  | O => fail OutOfFuel
  | S fuel =>
      let* tcb := get_task t in
      update (fun k => set_tasks k (delete t (tasks k)));;
      drop_pid (pid tcb);;
      drop_kernel_stack (kernel_stack tcb);;
      on_machine (drop_memory_set (memory_set (inner tcb)));;
      for_each (children (inner tcb)) (fun child _ => drop_arc fuel child) tt
  end.

(** ** The scheduler (manager.rs, processor.rs) *)
Definition add_task (task : ref) : M unit :=
  with_cell TASK_MANAGER (update (fun k => set_ready_queue k (ready_queue k ++ [task]))).

Definition fetch_task : M (option ref) :=
  with_cell TASK_MANAGER (
    let* q := gets ready_queue in
    match q with
    | task :: q => update (fun k => set_ready_queue k q);; ret (Some task)
    | [] => ret None
    end).

Definition take_current_task : M (option ref) :=
  with_cell PROCESSOR (
    let* p := gets processor in
    update (fun k => set_processor k (mkProcessor None (idle_task_cx p)));;
    ret (running p)).

Definition current_task : M (option ref) :=
  with_cell PROCESSOR (let* p := gets processor in ret (running p)).

Definition current_task_unwrap : M ref :=
  let* t := current_task in lift (unwrap t).

Definition current_user_token : M Z :=
  let* task := current_task_unwrap in
  with_cell (TaskInner task) (let* i := get_inner task in ret (ms_token (memory_set i))).

(** [current_trap_cx]: the page the reference points into. *)
Definition current_trap_cx : M PhysPageNum :=
  let* task := current_task_unwrap in
  with_cell (TaskInner task) (let* i := get_inner task in ret (trap_cx_ppn i)).

(** [schedule]: the context is saved through the pointer and the processor
    continues in [run_tasks].  [None] is a pointer to a variable of the caller. *)
Definition schedule (switched_task_cx_ptr : option ref) (cx : TaskContext) : M unit :=
  with_cell PROCESSOR (ret tt);;
  match switched_task_cx_ptr with
  | Some t => let* i := get_inner t in set_inner t (set_task_cx i cx)
  | None => ret tt
  end.

(** One round of the loop of [run_tasks], up to [__switch]: the task switched to. *)
Definition run_tasks_round : M (option ref) :=
  with_cell PROCESSOR (
    let* next := fetch_task in
    match next with
    | Some task =>
        let* _ := with_cell (TaskInner task) (
          let* i := get_inner task in set_inner task (set_status i Running)) in
        update (fun k => set_processor k (mkProcessor (Some task) in_run_tasks));;
        ret (Some task)
    | None => ret None
    end).

(** ** [TaskControlBlock] (task.rs) *)

(** [memory_set.translate(VirtAddr::from(TRAP_CONTEXT).into()).unwrap().ppn()] *)
Definition context_ppn (memory_set : MemorySet) : M PhysPageNum :=
  let* vpn := lift (page_of (va_from TRAP_CONTEXT)) in
  on_machine (translate_ppn (page_table memory_set) vpn).

Definition kernel_token : M Z :=
  with_cell KERNEL_SPACE (let* ks := gets kernel_space in ret (ms_token ks)).

Definition tcb_new (elf_data : list byte) : M TaskControlBlock :=
  let* (memory_set, user_sp, entry_point) := on_machine (from_elf (parse_elf env) (tramp env) elf_data) in
  let* trap_cx_ppn := context_ppn memory_set in
  (* alloc a pid and a kernel stack in kernel space *)
  let* pid_handle := pid_alloc in
  let* kernel_stack := kernel_stack_new pid_handle in
  let kernel_stack_top := get_top kernel_stack in
  let task_control_block :=
    mkTCB pid_handle kernel_stack
      (mkInner trap_cx_ppn user_sp (goto_trap_return kernel_stack_top) Ready memory_set None [] 0
         [Some Stdin; Some Stdout; Some Stdout]) in
  (* prepare TrapContext in user space *)
  let* token := kernel_token in
  let* _ := on_machine (write_cx trap_cx_ppn
    (app_init_context (user_sstatus env) entry_point user_sp token kernel_stack_top (trap_handler_addr env))) in
  ret task_control_block.

Definition exec (self : ref) (elf_data : list byte) : M unit :=
  let* (new_set, user_sp, entry_point) := on_machine (from_elf (parse_elf env) (tramp env) elf_data) in
  let* trap_cx_ppn := context_ppn new_set in
  with_cell (TaskInner self) (
    (* substitute memory_set *)
    let* i := get_inner self in
    on_machine (drop_memory_set (memory_set i));;
    set_inner self (set_memory i new_set);;
    (* update trap_cx ppn *)
    let* i := get_inner self in
    set_inner self (set_trap_cx_ppn i trap_cx_ppn);;
    (* initialize trap_cx *)
    let* token := kernel_token in
    let* tcb := get_task self in
    on_machine (write_cx trap_cx_ppn
      (app_init_context (user_sstatus env) entry_point user_sp token (get_top (kernel_stack tcb)) (trap_handler_addr env)))).

Definition fork (self : ref) : M ref :=
  with_cell (TaskInner self) (
    let* parent_inner := get_inner self in
    (* copy user space(include trap context) *)
    let* memory_set := on_machine (from_existed_user (tramp env) (memory_set parent_inner)) in
    let* trap_cx_ppn := context_ppn memory_set in
    (* alloc a pid and a kernel stack in kernel space *)
    let* pid_handle := pid_alloc in
    let* kernel_stack := kernel_stack_new pid_handle in
    let kernel_stack_top := get_top kernel_stack in
    (* copy fd table *)
    let new_fd_table := (fun fd => match fd with Some file => Some file | None => None end) <$> fd_table parent_inner in
    let* task_control_block := new_task (mkTCB pid_handle kernel_stack
      (mkInner trap_cx_ppn (base_size parent_inner) (goto_trap_return kernel_stack_top) Ready memory_set
         (Some self) [] 0 new_fd_table)) in
    (* add child *)
    let* _ := set_inner self (set_children parent_inner (children parent_inner ++ [task_control_block])) in
    (* modify kernel_sp in trap_cx *)
    let* ppn := with_cell (TaskInner task_control_block) (
      let* i := get_inner task_control_block in ret (Kernel.trap_cx_ppn i)) in
    on_machine (modify_cx ppn (fun cx => set_kernel_sp cx kernel_stack_top));;
    ret task_control_block).

(** ** Suspending and leaving (mod.rs) *)
Definition suspend_current_and_run_next (s : suspension) : M flow :=
  (* There must be an application running. *)
  let* t := take_current_task in
  let* task := lift (unwrap t) in
  (* Change status to Ready *)
  let* _ := with_cell (TaskInner task) (
    let* i := get_inner task in set_inner task (set_status i Ready)) in
  (* push back to ready queue. *)
  add_task task;;
  (* jump to scheduling cycle *)
  schedule (Some task) (suspended s);;
  ret Switched.

(** The loop over the children: each is given to [initproc]. *)
Definition adopt (child : ref) : M unit :=
  let* init := gets initproc in
  let* _ := with_cell (TaskInner child) (
    let* i := get_inner child in set_inner child (set_parent i (Some init))) in
  let* i := get_inner init in
  set_inner init (set_children i (children i ++ [child])).

Definition exit_current_and_run_next (exit_code : Z) : M flow :=
  (* take from Processor *)
  let* t := take_current_task in
  let* task := lift (unwrap t) in
  let* tcb := get_task task in
  if pid tcb =? IDLE_PID then
    print (IdleExit exit_code);;
    ret (PowerOff (exit_code =? 0))
  else
  let* _ := with_cell (TaskInner task) (
    let* i := get_inner task in
    (* Change status to Zombie *)
    (* Record exit code *)
    set_inner task (set_exit_code (set_status i Zombie) exit_code);;
    (* do not move to its parent but under initproc *)
    let* init := gets initproc in
    let* _ := with_cell (TaskInner init) (
      for_each (children i) (fun child _ => adopt child) tt) in
    let* i := get_inner task in
    set_inner task (set_children i []);;
    (* deallocate user space *)
    let* i := get_inner task in
    let* ms := on_machine (recycle_data_pages (memory_set i)) in
    set_inner task (set_memory i ms)) in
  (* drop task manually to maintain rc correctly *)
  drop_arc (loops env) task;;
  (* we do not have to save task context *)
  schedule None zero_init;;
  ret Switched.

(** [INITPROC] and [add_initproc]: the first task. *)
Definition init_name : list byte := list_byte_of_string "initproc".

Definition add_initproc : M unit :=
  let* r := open_file init_name RDONLY in
  let* inode := lift (unwrap r) in
  let* v := read_all (loops env) inode in
  let* tcb := tcb_new v in
  let* t := new_task tcb in
  update (fun k => set_initproc k t);;
  add_task t.

End Ops.
