(* ===== verification/Syscall.v ===== *)
(** * System calls and traps (os/src/syscall, os/src/trap/mod.rs, os/src/timer.rs): definitions

    A system call ends in a [flow]: it returns a value, switches to the
    scheduler or powers the machine off.  [resume] is what a task does after
    [run_tasks] switches back to it. *)

From S2P Require Import Prelude Address Frames PageTable MemorySet BlockDev BlockStore Efs Vfs Kernel OsInode Task.

(** ** Casts *)
Definition as_isize (z : Z) : Z := if z <? 2 ^ 63 then z else z - 2 ^ 64.
Definition as_i32 (z : Z) : Z := let z := w32 z in if z <? 2 ^ 31 then z else z - 2 ^ 32.

(** ** Numbers *)
Definition SYSCALL_OPEN : Z := 56.
Definition SYSCALL_CLOSE : Z := 57.
Definition SYSCALL_READ : Z := 63.
Definition SYSCALL_WRITE : Z := 64.
Definition SYSCALL_EXIT : Z := 93.
Definition SYSCALL_YIELD : Z := 124.
Definition SYSCALL_GET_TIME : Z := 169.
Definition SYSCALL_GETPID : Z := 172.
Definition SYSCALL_FORK : Z := 220.
Definition SYSCALL_EXEC : Z := 221.
Definition SYSCALL_WAITPID : Z := 260.

Definition CLOCK_FREQ : Z := 12500000.
Definition TICKS_PER_SEC : Z := 100.
Definition MSEC_PER_SEC : Z := 1000.

(** Where the processor goes when a trap has been handled: to user mode through
    [__restore], with its arguments [a0] and [a1], to the loop of [run_tasks], or off. *)
Inductive control :=
  | Restore (restore_va trap_cx_ptr user_satp : Z)
  | Idle
  | Off (ok : bool).

Section Ops.
Context {St F : Type} `{BlockStore St} `{FrameAllocator F}.
Abbreviation M := (cmd (Kernel St F)).
Variable env : Env.

(** ** The clock and the console *)
Definition get_time : M Z :=
  let* n := gets reads in
  update (fun k => set_reads k (S n));;
  ret (w64 (read_time env n)).

Definition get_time_ms : M Z :=
  let* t := get_time in
  ret (t / (CLOCK_FREQ / MSEC_PER_SEC)).

Definition set_next_trigger : M unit :=
  let* t := get_time in
  update (fun k => set_timer k (w64 (t + CLOCK_FREQ / TICKS_PER_SEC))).

Definition getchar : M Z :=
  let* n := gets reads in
  update (fun k => set_reads k (S n));;
  ret (w64 (console_getchar env n)).

(** ** [Stdin::read] *)

(** One round of the busy loop; after the suspension the loop goes on. *)
Definition stdin_loop (user_buf : list UserSlice) : M flow :=
  let* c := getchar in
  if c =? 0 then suspend_current_and_run_next (InStdin user_buf) else
  let ch := byte.of_Z (w8 c) in
  let* s := lift (index user_buf 0) in
  let* b := on_machine (read_page (sl_page s)) in
  let* b := lift (index_set b (sl_from s) ch) in
  on_machine (write_page (sl_page s) b);;
  ret (Value 1).

Definition stdin_read (user_buf : list UserSlice) : M flow :=
  assert (buffer_len 0 user_buf =? 1);;
  stdin_loop user_buf.

(** [file.read(buf) as isize] *)
Definition file_read (file : FileObj) (buf : list UserSlice) : M flow :=
  match file with
  | Stdin => stdin_read buf
  | Stdout => fail Panic
  | OSFile r => let* n := os_read r buf in ret (Value (as_isize n))
  end.

(** ** Files (syscall/fs.rs) *)

(** The file of a descriptor, when it exists and allows the access. *)
Definition get_fd (task : ref) (fd : Z) (allows : FileObj -> M bool) : M (option FileObj) :=
  with_cell (TaskInner task) (
    let* i := get_inner task in
    if zlen (fd_table i) <=? fd then ret None else
    let* o := lift (index (fd_table i) fd) in
    match o with
    | Some file => let* b := allows file in ret (if b then Some file else None)
    | None => ret None
    end).

Definition sys_write (fd buf len : Z) : M flow :=
  let* token := current_user_token in
  let* task := current_task_unwrap in
  let* file := get_fd task fd file_writable in
  match file with
  | Some file =>
      let* buffers := on_machine (translated_byte_buffer (loops env) token buf len) in
      let* n := file_write file buffers in
      ret (Value (as_isize n))
  | None => ret (Value (-1))
  end.

Definition sys_read (fd buf len : Z) : M flow :=
  let* token := current_user_token in
  let* task := current_task_unwrap in
  let* file := get_fd task fd file_readable in
  match file with
  | Some file =>
      let* buffers := on_machine (translated_byte_buffer (loops env) token buf len) in
      file_read file buffers
  | None => ret (Value (-1))
  end.

Definition sys_open (path flags : Z) : M flow :=
  let* task := current_task_unwrap in
  let* token := current_user_token in
  let* path := on_machine (translated_str (loops env) token path) in
  let* flags := lift (unwrap (flags_from_bits flags)) in
  let* r := open_file path flags in
  match r with
  | Some inode =>
      with_cell (TaskInner task) (
        let* i := get_inner task in
        let '(fd, i) := alloc_fd i in
        let* table := lift (index_set (fd_table i) fd (Some (OSFile inode))) in
        set_inner task (set_fd_table i table);;
        ret (Value (as_isize fd)))
  | None => ret (Value (-1))
  end.

Definition sys_close (fd : Z) : M flow :=
  let* task := current_task_unwrap in
  with_cell (TaskInner task) (
    let* i := get_inner task in
    if zlen (fd_table i) <=? fd then ret (Value (-1)) else
    let* o := lift (index (fd_table i) fd) in
    match o with
    | None => ret (Value (-1))
    | Some _ =>
        let* table := lift (index_set (fd_table i) fd None) in
        set_inner task (set_fd_table i table);;
        ret (Value 0)
    end).

(** ** Processes (syscall/process.rs) *)
Definition sys_exit (exit_code : Z) : M flow :=
  let* f := exit_current_and_run_next env exit_code in
  match f with
  | Value _ => fail Panic (* Unreachable in sys_exit! *)
  | _ => ret f
  end.

Definition sys_yield : M flow := suspend_current_and_run_next InYield.

Definition sys_get_time : M flow :=
  let* t := get_time_ms in ret (Value (as_isize t)).

Definition sys_getpid : M flow :=
  let* task := current_task_unwrap in
  let* tcb := get_task task in
  ret (Value (as_isize (pid tcb))).

Definition sys_fork : M flow :=
  let* current_task := current_task_unwrap in
  let* new_task := fork env current_task in
  let* tcb := get_task new_task in
  let new_pid := pid tcb in
  (* modify trap context of new_task, because it returns immediately after switching *)
  let* trap_cx := with_cell (TaskInner new_task) (let* i := get_inner new_task in ret (trap_cx_ppn i)) in
  (* for child process, fork returns 0 *)
  on_machine (modify_cx trap_cx (fun cx => set_x cx 10 0));;
  (* add new task to scheduler *)
  add_task new_task;;
  ret (Value (as_isize new_pid)).

Definition sys_exec (path : Z) : M flow :=
  let* token := current_user_token in
  let* path := on_machine (translated_str (loops env) token path) in
  let* r := open_file path RDONLY in
  match r with
  | Some app_inode =>
      let* all_data := read_all (loops env) app_inode in
      let* task := current_task_unwrap in
      exec env task all_data;;
      ret (Value 0)
  | None => ret (Value (-1))
  end.

(** [pid == -1 || pid as usize == p.getpid()] *)
Definition matches (wpid : Z) (p : ref) : M bool :=
  if wpid =? -1 then ret true else
  let* tcb := get_task p in
  ret (w64 wpid =? pid tcb).

(** [children.iter().any(..)] *)
Fixpoint any_child (wpid : Z) (l : list ref) : M bool :=
  match l with
  | [] => ret false
  | p :: l => let* b := matches wpid p in if b then ret true else any_child wpid l
  end.

(** [children.iter().enumerate().find(..)]: the index and the child. *)
Fixpoint find_zombie (wpid : Z) (l : list ref) (idx : nat) : M (option (nat * ref)) :=
  match l with
  | [] => ret None
  | p :: l =>
      let* z := with_cell (TaskInner p) (let* i := get_inner p in ret (is_zombie i)) in
      let* b := if z then matches wpid p else ret false in
      if b then ret (Some (idx, p)) else find_zombie wpid l (S idx)
  end.

(** [*translated_refmut(token, ptr) = value] for an [i32]: the reference must be aligned. *)
Definition write_i32 (token ptr value : Z) : M unit :=
  let* pa := on_machine (translated_ref token ptr) in
  if negb (pa mod 4 =? 0) then fail Undefined else
  let* b := on_machine (read_page (floor pa)) in
  on_machine (write_page (floor pa) (splice b (Z.to_nat (page_offset pa)) (enc_word 4 (w32 value)))).

Definition sys_waitpid (wpid exit_code_ptr : Z) : M flow :=
  let* task := current_task_unwrap in
  (* find a child process *)
  with_cell (TaskInner task) (
    let* i := get_inner task in
    let* any := any_child wpid (children i) in
    if negb any then ret (Value (-1)) else
    let* found := find_zombie wpid (children i) 0 in
    match found with
    | Some (idx, child) =>
        set_inner task (set_children i (delete idx (children i)));;
        (* confirm that child will be deallocated after being removed from children list *)
        let* n := gets (fun k => strong_count k child) in
        assert (Nat.eqb (1 + n) 1);;
        let* tcb := get_task child in
        let found_pid := pid tcb in
        let* exit_code := with_cell (TaskInner child) (let* ci := get_inner child in ret (exit_code ci)) in
        write_i32 (ms_token (memory_set i)) exit_code_ptr exit_code;;
        drop_arc (loops env) child;;
        ret (Value (as_isize found_pid))
    | None => ret (Value (-2))
    end).

(** [syscall] (syscall/mod.rs) *)
Definition syscall (syscall_id arg0 arg1 arg2 : Z) : M flow :=
  if syscall_id =? SYSCALL_OPEN then sys_open arg0 (w32 arg1)
  else if syscall_id =? SYSCALL_CLOSE then sys_close arg0
  else if syscall_id =? SYSCALL_READ then sys_read arg0 arg1 arg2
  else if syscall_id =? SYSCALL_WRITE then sys_write arg0 arg1 arg2
  else if syscall_id =? SYSCALL_EXIT then sys_exit (as_i32 arg0)
  else if syscall_id =? SYSCALL_YIELD then sys_yield
  else if syscall_id =? SYSCALL_GET_TIME then sys_get_time
  else if syscall_id =? SYSCALL_GETPID then sys_getpid
  else if syscall_id =? SYSCALL_FORK then sys_fork
  else if syscall_id =? SYSCALL_EXEC then sys_exec arg0
  else if syscall_id =? SYSCALL_WAITPID then sys_waitpid (as_isize arg0) arg1
  else fail Panic.

(** ** Traps (trap/mod.rs) *)
Definition set_kernel_trap_entry : M unit := update (fun k => set_stvec k FromKernel).
Definition set_user_trap_entry : M unit := update (fun k => set_stvec k FromUser).

Definition trap_return : M control :=
  set_user_trap_entry;;
  let trap_cx_ptr := TRAP_CONTEXT in
  let* user_satp := current_user_token in
  let restore_va := w64 (restore_offset env + TRAMPOLINE) in
  ret (Restore restore_va trap_cx_ptr user_satp).

(** The end of the system call in [trap_handler]: [cx] is changed during
    [sys_exec], so [current_trap_cx] is called again. *)
Definition syscall_return (result : Z) : M control :=
  let* cx := current_trap_cx in
  on_machine (modify_cx cx (fun cx => set_x cx 10 (w64 result)));;
  trap_return.

Definition finish (f : flow) : M control :=
  match f with
  | Value result => syscall_return result
  | Switched => ret Idle
  | PowerOff ok => ret (Off ok)
  end.

(** What follows [exit_current_and_run_next] and the timer's suspension. *)
Definition leave (f : flow) : M control :=
  match f with
  | Value _ => trap_return
  | Switched => ret Idle
  | PowerOff ok => ret (Off ok)
  end.

Definition trap_handler (scause : Trap) (stval : Z) : M control :=
  set_kernel_trap_entry;;
  match scause with
  | UserEnvCall =>
      (* jump to next instruction anyway *)
      let* cx := current_trap_cx in
      on_machine (modify_cx cx (fun cx => set_sepc cx (w64 (sepc cx + 4))));;
      (* get system call return value *)
      let* c := on_machine (read_cx cx) in
      let r i := default 0 (xs c !! i) in
      let* f := syscall (r 17%nat) (r 10%nat) (r 11%nat) (r 12%nat) in
      finish f
  | StoreFault | StorePageFault | InstructionFault | InstructionPageFault | LoadFault | LoadPageFault =>
      let* cx := current_trap_cx in
      let* c := on_machine (read_cx cx) in
      print (Killed scause stval (sepc c));;
      (* page fault exit code *)
      let* f := exit_current_and_run_next env (-2) in
      leave f
  | IllegalInstruction =>
      print IllegalInstructionKilled;;
      (* illegal instruction exit code *)
      let* f := exit_current_and_run_next env (-3) in
      leave f
  | SupervisorTimer =>
      set_next_trigger;;
      let* f := suspend_current_and_run_next InTimer in
      leave f
  | OtherTrap => fail Panic
  end.

(** What the task does once [__switch] has restored its context. *)
Definition resume (cx : TaskContext) : M control :=
  match cx with
  | goto_trap_return _ => trap_return
  | suspended InYield => finish (Value 0)
  | suspended InTimer => trap_return
  | suspended (InStdin user_buf) => let* f := stdin_loop user_buf in finish f
  | zero_init | in_run_tasks => fail Undefined
  end.

(** [run_tasks]: one round, with what the task it switches to does until the
    processor leaves the kernel or comes back to the loop. *)
Definition run_tasks : M control :=
  let* next := run_tasks_round in
  match next with
  | Some task => let* i := get_inner task in resume (task_cx i)
  | None => ret Idle
  end.

End Ops.
