(* ===== verification/Boot.v ===== *)
(** * The start of the kernel (os/src/main.rs, os/src/mm/mod.rs): definitions

    [rust_main] up to its call of [run_tasks], from the state the boot loader
    leaves: the statics have not been used yet. *)

From S2P Require Import Prelude Address Frames PageTable MemorySet BlockDev BlockStore Bitmap Efs Vfs Kernel OsInode Task Syscall.

Section Boot.
Context {St : Type} `{BlockStore St}.
Variables (env : Env) (layout : KernelLayout) (MEMORY_END : Z) (MMIO : list (Z * Z)).
Abbreviation M := (cmd (Kernel St StackFrameAllocator)).

(** Before the first use of [KERNEL_SPACE] and [ROOT_INODE] they hold nothing that is read. *)
Definition cold_boot (d : St) (r : gmap Z (list byte)) : Kernel St StackFrameAllocator :=
  mkKernel d (mkMachine r stack_new) (mkEfs (mkBitmap 0 0) (mkBitmap 0 0) 0 0) (mkMemorySet (mkPageTable 0 []) [])
    pid_allocator_new [] (mkProcessor None zero_init) ∅ 0 ∅ 0 FromKernel 0 0 [] [].

(** [mm::init]: the allocator, then the kernel's space, which [activate] installs. *)
Definition mm_init : M unit :=
  update (fun k => set_machine k (mkMachine (ram (machine k)) (init_frame_allocator (ekernel layout) MEMORY_END (allocator (machine k)))));;
  let* ks := on_machine (new_kernel layout MEMORY_END MMIO) in
  update (fun k => set_kernel_space k ks).

Definition mm_remap_test : M unit :=
  with_cell KERNEL_SPACE (let* ks := gets kernel_space in on_machine (remap_test layout ks)).

(** The initialisation of [ROOT_INODE]. *)
Definition open_root : M unit :=
  let* fs := on_disk efs_open in
  update (fun k => set_root_fs k fs).

Definition rust_main : M unit :=
  print Hello;;
  mm_init;;
  mm_remap_test;;
  set_kernel_trap_entry;;
  set_next_trigger env;;
  open_root;;
  list_apps;;
  add_initproc env.

End Boot.
