(* ===== verification/Pids.v ===== *)
(** * Pids and kernel stacks (os/src/task/pid.rs): the contract *)

From S2P Require Import Prelude Address Frames PageTable PtInv PtOps Space MemorySet AreaOps MsOps MsLife BlockDev BlockStore Efs Vfs World Kernel OsInode Task.

(** ** [PidAllocator] *)

(** The pids of [A] are in use. *)
Record pids_ok (a : PidAllocator) (A : gset Z) : Prop := {
  po_current : 0 <= pid_current a < 2 ^ 64;
  po_nodup : NoDup (pid_recycled a);
  po_recycled p : p ∈ pid_recycled a -> 0 <= p < pid_current a;
  po_used p : p ∈ A <-> 0 <= p < pid_current a /\ p ∉ pid_recycled a;
}.

Lemma pids_new : pids_ok pid_allocator_new ∅.
Proof. split; cbn; [lia|constructor|by intros p ?%not_elem_of_nil|]. intros p. rewrite elem_of_empty. split; [done|lia]. Qed.

(** A pid that is not in use is returned; the counter grows only if every pid below it is in use. *)
Lemma pid_alloc_spec a A : pids_ok a A -> pid_current a + 1 < 2 ^ 64 ->
  exists p a', pid_allocator_alloc a = (p, a') /\ (p ∉ A) /\ 0 <= p < pid_current a' /\ pids_ok a' ({[p]} ∪ A) /\
    (pid_current a' = pid_current a \/ (pid_current a' = pid_current a + 1 /\ forall q, 0 <= q < pid_current a -> q ∈ A)).
Proof.
  intros [Hc Hnd Hr Hu] Hb. unfold pid_allocator_alloc. pose proof (vec_pop_inv (pid_recycled a)) as Hp.
  destruct (vec_pop (pid_recycled a)) as [[p l]|].
  - rewrite Hp in *. assert (Hpr : 0 <= p < pid_current a) by (apply Hr; set_solver).
    apply NoDup_app in Hnd as (Hnd & Hdis & _). eexists p, _. split_and!; [done|rewrite Hu; set_solver|lia|cbn; lia| |by left].
    split; cbn; [done|done|intros q Hq; apply Hr; set_solver|]. intros q.
    rewrite elem_of_union, elem_of_singleton, Hu, elem_of_app, list_elem_of_singleton. split.
    + intros [->|?]; [|naive_solver]. split; [done|]. intros Hin. apply (Hdis p Hin). set_solver.
    + destruct (decide (q = p)); naive_solver.
  - cbn [pid_current]. rewrite (w64_small (pid_current a + 1)) by lia. replace (pid_current a + 1 - 1) with (pid_current a) by lia.
    rewrite w64_small by lia. eexists _, _. split_and!; [done|rewrite Hu; lia|lia|cbn; lia| |].
    + rewrite Hp. split; cbn; [lia|constructor|by intros q ?%not_elem_of_nil|]. intros q.
      rewrite elem_of_union, elem_of_singleton, Hu, Hp. split; [intros [->|[? ?]]; (split; [lia|apply not_elem_of_nil])|].
      intros [? ?]. destruct (decide (q = pid_current a)); [by left|right]. split; [lia|apply not_elem_of_nil].
    + right. split; [done|]. intros q Hq. rewrite Hu, Hp. split; [done|apply not_elem_of_nil].
Qed.

Lemma pid_dealloc_spec a A p : pids_ok a A -> p ∈ A ->
  exists a', pid_allocator_dealloc p a = Ok a' /\ pids_ok a' (A ∖ {[p]}) /\ pid_current a' = pid_current a.
Proof.
  intros [Hc Hnd Hr Hu] Hp. apply Hu in Hp as [Hp Hn]. unfold pid_allocator_dealloc.
  rewrite (proj2 (Z.ltb_lt _ _)) by lia. cbn [negb]. rewrite bool_decide_false by done. eexists. split_and!; [done| |done].
  split; cbn; [done| | |].
  - apply NoDup_app. split_and!; [done| |apply NoDup_singleton]. intros q Hq ->%list_elem_of_singleton. done.
  - intros q [?|Hq%list_elem_of_singleton]%elem_of_app; [by apply Hr|subst; lia].
  - intros q. rewrite elem_of_difference, elem_of_singleton, elem_of_app, list_elem_of_singleton, Hu. naive_solver.
Qed.

(** A pid that is not in use cannot be given back. *)
Lemma pid_dealloc_bad a A p : pids_ok a A -> 0 <= p -> p ∉ A -> pid_allocator_dealloc p a = Fail Panic.
Proof.
  intros [Hc Hnd Hr Hu] Hp Hn. rewrite Hu in Hn. unfold pid_allocator_dealloc.
  destruct (Z.ltb_spec p (pid_current a)); cbn [negb]; [|done]. rewrite bool_decide_true; [done|].
  destruct (decide (p ∈ pid_recycled a)); [done|]. exfalso. apply Hn. by split.
Qed.

(** ** The positions of the kernel stacks *)
Definition max_pid : Z := 2 ^ 24.

Lemma stack_position p : 0 <= p < max_pid ->
  kernel_stack_position p = (TRAMPOLINE - p * 12288 - 8192, TRAMPOLINE - p * 12288).
Proof.
  unfold max_pid. intros Hp. unfold kernel_stack_position. change (KERNEL_STACK_SIZE + PAGE_SIZE) with 12288. change KERNEL_STACK_SIZE with 8192.
  change TRAMPOLINE with (2 ^ 64 - 4096). rewrite (w64_small (p * 12288)) by lia. rewrite (w64_small (2 ^ 64 - 4096 - p * 12288)) by lia.
  rewrite w64_small by lia. done.
Qed.

(** The pages of a stack. *)
Definition stack_range (p : Z) : VPNRange := mkRange (2 ^ 27 - 3 - 3 * p) (2 ^ 27 - 1 - 3 * p).
Definition stack_shape (p : Z) : VPNRange * MapType * Z := (stack_range p, Framed, Z.lor MP_R MP_W).

Lemma high_va d : 0 <= d < 2 ^ 38 -> va_from (TRAMPOLINE - d) = 2 ^ 39 - 4096 - d.
Proof.
  intros Hd. rewrite va_from_mod. change TRAMPOLINE with (2 ^ 39 - 4096 + (2 ^ 25 - 1) * 2 ^ 39).
  replace (2 ^ 39 - 4096 + (2 ^ 25 - 1) * 2 ^ 39 - d) with (2 ^ 39 - 4096 - d + (2 ^ 25 - 1) * 2 ^ 39) by lia.
  rewrite Z.mod_add by lia. apply Z.mod_small. lia.
Qed.

Lemma stack_area_new p : 0 <= p < max_pid ->
  area_new (va_from (kernel_stack_position p).1) (va_from (kernel_stack_position p).2) Framed (Z.lor MP_R MP_W)
    = Ok (mkArea (stack_range p) ∅ Framed (Z.lor MP_R MP_W)) /\
  page_of (va_from (kernel_stack_position p).1) = Ok (get_start (stack_range p)).
Proof.
  intros Hp. rewrite stack_position by done. unfold max_pid in *. cbn [fst snd].
  replace (TRAMPOLINE - p * 12288 - 8192) with (TRAMPOLINE - (p * 12288 + 8192)) by lia. rewrite !high_va by lia. split.
  - rewrite area_new_ok; [|lia| |lia].
    + unfold va_area, stack_range. do 3 f_equal; [dlia|unfold ceil_div; dlia].
    + unfold ceil_div. dlia.
  - unfold page_of. rewrite page_offset_mod. replace ((2 ^ 39 - 4096 - (p * 12288 + 8192)) mod 4096) with 0 by dlia. cbn [Z.eqb].
    unfold floor, stack_range. change PAGE_SIZE with 4096. f_equal. cbn [get_start]. dlia.
Qed.

Lemma stack_range_ok p : 0 <= p < max_pid -> range_ok (mkArea (stack_range p) ∅ Framed (Z.lor MP_R MP_W)).
Proof. unfold max_pid. intros Hp. split; [cbn; lia|done]. Qed.

Definition in_stack (p v : Z) : Prop := 2 ^ 27 - 3 - 3 * p <= v < 2 ^ 27 - 1 - 3 * p.

(** ** The kernel's address space *)

(** The areas of an address space agree with its entries and data frames. *)
Record ms_wf (ms : MemorySet) (G D : gmap Z Z) : Prop := {
  wf_areas : Forall (area_ok G D) (areas ms);
  wf_sep : separated (areas ms);
  wf_data v : is_Some (D !! v) -> covered (areas ms) v;
  wf_entries v : is_Some (G !! v) -> v = trampoline_vpn \/ covered (areas ms) v;
  wf_tramp : is_Some (G !! trampoline_vpn) /\ ~ covered (areas ms) trampoline_vpn;
}.

(** The areas of the kernel's image, and a stack for every pid of [ps]. *)
Record kernel_ok (base : list (VPNRange * MapType * Z)) (ks : MemorySet) (v : aspace) (ps : list Z) : Prop := {
  ko_pt : as_pt v = page_table ks;
  ko_wf : ms_wf ks (as_G v) (as_D v);
  ko_shape : shape <$> areas ks = base ++ (stack_shape <$> ps);
  ko_nodup : NoDup ps;
  ko_pids : Forall (fun p => 0 <= p < max_pid) ps;
}.

(** The image lies in the lower half of the address space. *)
Definition low (base : list (VPNRange * MapType * Z)) : Prop := Forall (fun s => get_end s.1.1 <= 2 ^ 26) base.

Section Stacks.
Context {F : Type} `{FrameAllocatorSpec F}.
Variable (base : list (VPNRange * MapType * Z)).
Hypothesis Hlow : low base.

Lemma ms_ok_wf lo hi (m : Machine F) R ms v : ms_wf ms (as_G v) (as_D v) -> as_pt v = page_table ms -> space_of lo hi m R v ->
  ms_ok lo hi m R ms (as_G v) (as_D v) (as_P v).
Proof. intros [? ? ? ? ?] Hpt Hsp. unfold space_of in Hsp. rewrite Hpt in Hsp. by split. Qed.

Lemma wf_ms_ok lo hi (m : Machine F) R ms G D P : ms_ok lo hi m R ms G D P -> ms_wf ms G D /\ space_of lo hi m R (mkSpace (page_table ms) G D P).
Proof. intros [? ? ? ? ? ?]. by split. Qed.

Lemma kernel_covered ks v ps x : kernel_ok base ks v ps -> covered (areas ks) x -> x < 2 ^ 26 \/ exists p, p ∈ ps /\ in_stack p x.
Proof.
  intros [_ _ Hsh _ _] (a & Ha & Hx). assert (Hs : shape a ∈ shape <$> areas ks) by (apply list_elem_of_fmap; eauto).
  rewrite Hsh in Hs. apply elem_of_app in Hs as [Hs|Hs].
  - left. apply (proj1 (Forall_forall _ _) Hlow) in Hs. unfold in_range in Hx. cbn [shape fst] in Hs. lia.
  - apply list_elem_of_fmap in Hs as (p & Hp & Hin). right. exists p. split; [done|]. apply (f_equal (fun s => s.1.1)) in Hp as Hr. cbn in Hr. unfold in_range in Hx. rewrite Hr in Hx. cbn in Hx. unfold in_stack. lia.
Qed.

(** The pages of a stack are mapped; the page below it is not. *)
Lemma stack_entry ks v ps p x : kernel_ok base ks v ps -> p ∈ ps -> in_stack p x -> exists f, as_D v !! x = Some f /\ as_G v !! x = Some (pte_new f (Z.lor (Z.lor MP_R MP_W) PTE_V)).
Proof.
  intros [_ Hwf Hsh _ _] Hp Hx. assert (Hs : stack_shape p ∈ shape <$> areas ks) by (rewrite Hsh; apply elem_of_app; right; by apply list_elem_of_fmap_2).
  apply list_elem_of_fmap in Hs as (a & Ea & Ha). injection Ea as Hr Ht Hpm. destruct (ao_framed _ _ _ (proj1 (Forall_forall _ _) (wf_areas _ _ _ Hwf) a Ha) x) as (f & _ & HD & HG); [done| |].
  - unfold in_range. rewrite <- Hr. cbn. unfold in_stack in Hx. lia.
  - exists f. split; [done|]. rewrite HG. unfold area_pte. by rewrite <- Hpm.
Qed.

Lemma stack_guard ks v ps p : kernel_ok base ks v ps -> 0 <= p < max_pid -> as_G v !! (2 ^ 27 - 4 - 3 * p) = None.
Proof.
  intros Hk Hp. unfold max_pid in Hp. apply eq_None_not_Some. intros Hg. destruct (wf_entries _ _ _ (ko_wf _ _ _ _ Hk) _ Hg) as [E|Hc]; [unfold trampoline_vpn in E; lia|].
  destruct (kernel_covered _ _ _ _ Hk Hc) as [?|(q & _ & Hin)]; [lia|]. unfold in_stack in Hin. lia.
Qed.

Lemma kernel_stack_add lo hi m R ks v ps p : kernel_ok base ks v ps -> space_of lo hi m R v -> 0 <= p < max_pid -> p ∉ ps ->
  used (as_pt v) (as_D v) R + 6 <= hi - lo ->
  exists ks' m' v', insert_framed_area ks (va_from (kernel_stack_position p).1) (va_from (kernel_stack_position p).2) (Z.lor MP_R MP_W) m = Ok (ks', m') /\
    kernel_ok base ks' v' (ps ++ [p]) /\ space_of lo hi m' R v' /\ same_on R m m' /\ as_pt v = page_table ks /\
    root_ppn (page_table ks') = root_ppn (page_table ks) /\ used (as_pt v') (as_D v') R <= used (as_pt v) (as_D v) R + 6.
Proof.
  intros Hk Hsp Hp Hn Hroom. pose proof Hk as [Hpt Hwf Hsh Hnd Hps]. destruct (stack_area_new p Hp) as [Ea _]. set (a := mkArea (stack_range p) ∅ Framed (Z.lor MP_R MP_W)) in *.
  pose proof (ms_ok_wf _ _ _ _ _ _ Hwf Hpt Hsp) as Hms.
  assert (Hpg : pages a = 2) by (unfold pages; cbn; lia).
  destruct (push_framed lo hi m R ks (as_G v) (as_D v) (as_P v) a Hms) as (ks' & m' & G' & D' & P' & E & [Hok (a' & Ha' & Hr' & Hp' & Ht') Hs Hroot Hoth Hu] & Hz).
  - split_and!; [by apply stack_range_ok|done|]. intros x Hx. apply eq_None_not_Some. intros Hg. unfold in_range in Hx. cbn in Hx. unfold max_pid in *.
    destruct (wf_entries _ _ _ Hwf x Hg) as [->|Hc]; [unfold trampoline_vpn in Hx; lia|].
    destruct (kernel_covered _ _ _ _ Hk Hc) as [?|(q & Hq & Hin)]; [lia|]. unfold in_stack in Hin. apply Hn. assert (q = p) as <- by lia. done.
  - done.
  - rewrite Hpg. rewrite Hpt in Hroom. lia.
  - destruct (wf_ms_ok _ _ _ _ _ _ _ _ Hok) as [Hwf' Hsp'].
    exists ks', m', (mkSpace (page_table ks') G' D' P'). split_and!; [|split; cbn; [done|done| | |]|done|done|done|done|].
    + unfold insert_framed_area. rewrite Ea. cbn [lift]. by rewrite bind_ret.
    + rewrite Ha', !fmap_app, Hsh, <- app_assoc. do 2 f_equal. cbn. unfold shape at 1. by rewrite Hr', Hp', Ht'.
    + apply NoDup_app. split_and!; [done| |apply NoDup_singleton]. by intros q Hq ->%list_elem_of_singleton.
    + apply Forall_app. split; [done|]. by apply Forall_singleton.
    + cbn. rewrite Hpg in Hu. rewrite Hpt. lia.
Qed.

Lemma kernel_stack_remove lo hi m R ks v ps1 p ps2 : kernel_ok base ks v (ps1 ++ p :: ps2) -> space_of lo hi m R v ->
  exists ks' m' v', remove_area_with_start_vpn ks (get_start (stack_range p)) m = Ok (ks', m') /\
    kernel_ok base ks' v' (ps1 ++ ps2) /\ space_of lo hi m' R v' /\ same_on R m m' /\ page_table ks' = page_table ks /\
    owns v' ⊆ owns v.
Proof.
  intros [Hpt Hwf Hsh Hnd Hps] Hsp. pose proof (ms_ok_wf _ _ _ _ _ _ Hwf Hpt Hsp) as Hms.
  rewrite fmap_app, app_assoc in Hsh. cbn [fmap list_fmap] in Hsh. apply fmap_app_inv in Hsh as (l1 & l2' & Hl1 & Hl2 & Har).
  destruct l2' as [|a l2]; [done|]. injection Hl2 as Hr Ht _ Hl2. symmetry in Hr, Ht.
  apply NoDup_app in Hnd as (Hnd1 & Hdis & Hnd2). apply NoDup_cons in Hnd2 as [Hp2 Hnd2]. apply Forall_app in Hps as [Hps1 Hps2]. apply Forall_cons in Hps2 as [Hp Hps2].
  destruct (remove_area_ok lo hi m R ks (as_G v) (as_D v) (as_P v) l1 a l2 Hms Har Ht) as (m' & E & Hok & Hs).
  { apply Forall_forall. intros b Hb. rewrite Hr. assert (Hsb : shape b ∈ shape <$> l1) by (apply list_elem_of_fmap; eauto).
    rewrite <- Hl1 in Hsb. unfold max_pid in *. apply elem_of_app in Hsb as [Hsb|Hsb].
    - apply (proj1 (Forall_forall _ _) Hlow) in Hsb. cbn in Hsb. pose proof (wf_areas _ _ _ Hwf) as Hao. rewrite Har in Hao.
      assert (Hbk : b ∈ l1 ++ a :: l2) by set_solver. apply (proj1 (Forall_forall _ _) Hao) in Hbk as [[Hrb _] _ _ _]. cbn. lia.
    - apply list_elem_of_fmap in Hsb as (q & Hq & Hin). apply (f_equal (fun s => s.1.1)) in Hq. cbn in Hq. rewrite Hq. cbn. intros Heq. assert (q = p) as -> by lia.
      apply (Hdis p Hin). left. }
  rewrite Hr in E. destruct (wf_ms_ok _ _ _ _ _ _ _ _ Hok) as [Hwf' Hsp']. cbn [page_table] in *.
  set (l := vpns (vpn_range a)) in *.
  exists (mkMemorySet (page_table ks) (l1 ++ l2)), m', (mkSpace (page_table ks) (without l (as_G v)) (without l (as_D v)) (without l (as_P v))).
  split_and!; [exact E|split; cbn; [done|exact Hwf'| | |]|exact Hsp'|done|done|].
  - rewrite !fmap_app, app_assoc, Hl1. f_equal. by symmetry.
  - apply NoDup_app. split_and!; [done| |done]. intros q Hq Hq2. apply (Hdis q Hq). by right.
  - by apply Forall_app.
  - intros q. unfold owns. cbn [as_pt as_D]. rewrite Hpt, !elem_of_owned. intros [?|[x Hx]]; [by left|right]. exists x.
    rewrite lookup_without in Hx. by case_decide.
Qed.

End Stacks.
