(* ===== verification/CxMem.v ===== *)
(** * Trap contexts in memory, and pages of one space among all *)

From S2P Require Import Prelude Address Frames PageTable PtInv PtOps Space MemorySet AreaOps MsOps MsLife BlockDev BlockStore Efs Vfs World Kernel OsInode Task.

(** ** The layout of a trap context *)

(** Registers and fields of 64 bits. *)
Definition cx_ok (cx : TrapContext) : Prop := length (xs cx) = 32%nat /\ Forall is_u64 (words_of_cx cx).

Definition page_cx (b : list byte) : TrapContext := cx_of_words (dec_words 8 cx_words (take cx_len b)).
Definition put_cx (b : list byte) (cx : TrapContext) : list byte := splice b 0 (enc_words 8 (words_of_cx cx)).

Lemma words_of_cx_length cx : cx_ok cx -> length (words_of_cx cx) = cx_words.
Proof. intros [Hl _]. unfold words_of_cx, cx_words. rewrite length_app, Hl. done. Qed.

Lemma cx_of_words_of cx : cx_ok cx -> cx_of_words (words_of_cx cx) = cx.
Proof.
  intros [Hl _]. destruct cx as [x a b c d e]. cbn [xs] in Hl. unfold cx_of_words, words_of_cx. cbn [xs sstatus sepc kernel_satp kernel_sp trap_handler_ptr].
  rewrite take_app_length' by done. assert (Hw : forall i y, [a; b; c; d; e] !! i = Some y -> default 0 ((x ++ [a; b; c; d; e]) !! (32 + i)%nat) = y).
  { intros i y Hy. rewrite lookup_app_r by lia. replace (32 + i - length x)%nat with i by lia. by rewrite Hy. }
  pose proof (Hw 0%nat a eq_refl). pose proof (Hw 1%nat b eq_refl). pose proof (Hw 2%nat c eq_refl). pose proof (Hw 3%nat d eq_refl). pose proof (Hw 4%nat e eq_refl).
  cbn [Nat.add] in *. congruence.
Qed.

Lemma words_of_cx_of l : length l = cx_words -> words_of_cx (cx_of_words l) = l.
Proof.
  intros Hl. unfold cx_words in Hl. do 37 (destruct l as [|? l]; [done|]). by destruct l.
Qed.

Lemma enc_cx_length cx : cx_ok cx -> length (enc_words 8 (words_of_cx cx)) = cx_len.
Proof. intros Hc. rewrite enc_words_length, words_of_cx_length by done. done. Qed.

Lemma put_cx_length b cx : length b = page_len -> cx_ok cx -> length (put_cx b cx) = page_len.
Proof. intros Hb Hc. unfold put_cx. rewrite splice_length; [done|]. rewrite enc_cx_length by done. rewrite Hb. unfold cx_len, page_len. lia. Qed.

(** What is written is read. *)
Lemma page_put_cx b cx : length b = page_len -> cx_ok cx -> page_cx (put_cx b cx) = cx.
Proof.
  intros Hb Hc. unfold page_cx, put_cx. pose proof (enc_cx_length cx Hc) as He.
  pose proof (take_drop_splice b 0 (enc_words 8 (words_of_cx cx)) ltac:(rewrite He, Hb; unfold cx_len, page_len; lia)) as Ht.
  rewrite drop_0, He in Ht. rewrite Ht. rewrite <- (words_of_cx_length cx Hc), dec_enc_words by apply Hc. by apply cx_of_words_of.
Qed.

(** The rest of the page is kept. *)
Lemma put_cx_rest b cx : length b = page_len -> cx_ok cx -> drop cx_len (put_cx b cx) = drop cx_len b.
Proof.
  intros Hb Hc. unfold put_cx, splice. rewrite take_0. cbn [app]. pose proof (enc_cx_length cx Hc) as He.
  rewrite drop_app_length' by done. by rewrite He.
Qed.

Lemma page_cx_ok b : length b = page_len -> cx_ok (page_cx b).
Proof.
  intros Hb. assert (Hl : length (dec_words 8 cx_words (take cx_len b)) = cx_words) by apply dec_words_length.
  assert (Hr : Forall (fun z => 0 <= z < 2 ^ (Z.of_nat 8 * 8)) (dec_words 8 cx_words (take cx_len b))).
  { apply dec_words_range. rewrite length_take, Hb. done. }
  unfold page_cx. revert Hl Hr. generalize (dec_words 8 cx_words (take cx_len b)). intros l Hl Hr.
  split; [|rewrite words_of_cx_of by done; exact Hr]. cbn [cx_of_words xs]. rewrite length_take, Hl. done.
Qed.

Lemma cx_ok_set_x cx i v : cx_ok cx -> is_u64 v -> cx_ok (set_x cx i v).
Proof.
  intros [Hl Hw] Hv. split; [cbn; by rewrite length_insert|]. unfold words_of_cx in *. cbn [set_x xs sstatus sepc kernel_satp kernel_sp trap_handler_ptr].
  apply Forall_app in Hw as [Hx Hr]. apply Forall_app. split; [|done]. by apply Forall_insert.
Qed.

Lemma cx_ok_set_sepc cx v : cx_ok cx -> is_u64 v -> cx_ok (set_sepc cx v).
Proof.
  intros [Hl Hw] Hv. split; [done|]. unfold words_of_cx in *. cbn [set_sepc xs sstatus sepc kernel_satp kernel_sp trap_handler_ptr].
  apply Forall_app in Hw as [Hx Hr]. apply Forall_app. split; [done|]. rewrite !Forall_cons in *. tauto.
Qed.

Lemma cx_ok_set_kernel_sp cx v : cx_ok cx -> is_u64 v -> cx_ok (set_kernel_sp cx v).
Proof.
  intros [Hl Hw] Hv. split; [done|]. unfold words_of_cx in *. cbn [set_kernel_sp xs sstatus sepc kernel_satp kernel_sp trap_handler_ptr].
  apply Forall_app in Hw as [Hx Hr]. apply Forall_app. split; [done|]. rewrite !Forall_cons in *. tauto.
Qed.

Lemma cx_ok_init ss entry sp satp ksp th : is_u64 ss -> is_u64 entry -> is_u64 sp -> is_u64 satp -> is_u64 ksp -> is_u64 th ->
  cx_ok (app_init_context ss entry sp satp ksp th).
Proof.
  intros. apply (cx_ok_set_x (mkTrapContext (replicate 32 0) ss entry satp ksp th) 2 sp); [|done]. split; [done|].
  unfold words_of_cx. cbn [xs sstatus sepc kernel_satp kernel_sp trap_handler_ptr]. apply Forall_app. split; [|repeat (apply Forall_cons_2; [done|]); constructor].
  apply Forall_forall. intros x [-> _]%elem_of_replicate. done.
Qed.

(** ** A page of one space *)
Definition set_page (v : aspace) (x : Z) (b : list byte) : aspace := mkSpace (as_pt v) (as_G v) (as_D v) (<[x := b]> (as_P v)).

Section Pages.
Context {F : Type} `{FrameAllocatorSpec F} {K : Type} `{Countable K}.
Implicit Types (m : Machine F) (W : gmap K aspace) (v : aspace).
Variables (lo hi : Z).
Hypothesis Hlo : 0 < lo.

Lemma world_page m W i v x p : world lo hi m W -> W !! i = Some v -> as_D v !! x = Some p ->
  exists b, as_P v !! x = Some b /\ ram m !! p = Some b /\ length b = page_len.
Proof. intros HW Hi Hx. eapply space_page; [by apply (w_space _ _ _ _ HW i v Hi)|done]. Qed.

Lemma world_read m W i v x p b : world lo hi m W -> W !! i = Some v -> as_D v !! x = Some p -> as_P v !! x = Some b ->
  read_page p m = Ok (b, m).
Proof.
  intros HW Hi Hx Hb. destruct (world_page _ _ _ _ _ _ HW Hi Hx) as (b' & Hb' & Hr & _). unfold read_page. rewrite Hr. do 2 f_equal. congruence.
Qed.

Lemma world_write m W i v x p b : world lo hi m W -> W !! i = Some v -> as_D v !! x = Some p -> length b = page_len ->
  exists m', write_page p b m = Ok (tt, m') /\ world lo hi m' (<[i := set_page v x b]> W).
Proof.
  intros HW Hi Hx Hb. destruct (space_write _ _ _ _ _ _ _ _ x p b (w_space _ _ _ _ HW i v Hi) Hx Hb) as (m' & E & Hsp & Hs & _).
  exists m'. split; [done|]. by eapply world_update.
Qed.

Lemma world_frame_range m W i v x p : world lo hi m W -> W !! i = Some v -> as_D v !! x = Some p -> 0 < p < 2 ^ 44.
Proof.
  intros HW Hi Hx. destruct (fa_range _ _ _ _ (mok_alloc _ _ _ _ (w_machine _ _ _ _ HW))) as (_ & ? & Hin).
  assert (lo <= p < hi); [|lia]. apply Hin, elem_of_total. exists i, v. split; [done|]. unfold owns. apply elem_of_owned. eauto.
Qed.

Lemma check_null_frame m W i v x p : world lo hi m W -> W !! i = Some v -> as_D v !! x = Some p ->
  check_null (addr_of p) m = Ok (addr_of p, m).
Proof.
  intros HW Hi Hx. pose proof (world_frame_range _ _ _ _ _ _ HW Hi Hx). unfold check_null. rewrite addr_of_small by lia.
  by rewrite (proj2 (Z.eqb_neq _ _)) by lia.
Qed.

Lemma read_cx_ok m W i v x p b : world lo hi m W -> W !! i = Some v -> as_D v !! x = Some p -> as_P v !! x = Some b ->
  read_cx p m = Ok (page_cx b, m).
Proof.
  intros HW Hi Hx Hb. unfold read_cx. rewrite (bind_Ok _ _ _ _ _ (check_null_frame _ _ _ _ _ _ HW Hi Hx)).
  by rewrite (bind_Ok _ _ _ _ _ (world_read _ _ _ _ _ _ _ HW Hi Hx Hb)).
Qed.

Lemma write_cx_ok m W i v x p b cx : world lo hi m W -> W !! i = Some v -> as_D v !! x = Some p -> as_P v !! x = Some b -> cx_ok cx ->
  exists m', write_cx p cx m = Ok (tt, m') /\ world lo hi m' (<[i := set_page v x (put_cx b cx)]> W).
Proof.
  intros HW Hi Hx Hb Hcx. destruct (world_page _ _ _ _ _ _ HW Hi Hx) as (b' & Hb' & _ & Hl). assert (b' = b) as -> by congruence.
  destruct (world_write m W i v x p (put_cx b cx) HW Hi Hx) as (m' & E & HW'); [by apply put_cx_length|]. exists m'. split; [|done].
  unfold write_cx. rewrite (bind_Ok _ _ _ _ _ (check_null_frame _ _ _ _ _ _ HW Hi Hx)).
  rewrite (bind_Ok _ _ _ _ _ (world_read _ _ _ _ _ _ _ HW Hi Hx Hb)). exact E.
Qed.

Lemma modify_cx_ok m W i v x p b f : world lo hi m W -> W !! i = Some v -> as_D v !! x = Some p -> as_P v !! x = Some b ->
  (cx_ok (page_cx b) -> cx_ok (f (page_cx b))) ->
  exists m', modify_cx p f m = Ok (tt, m') /\ world lo hi m' (<[i := set_page v x (put_cx b (f (page_cx b)))]> W).
Proof.
  intros HW Hi Hx Hb Hf. destruct (world_page _ _ _ _ _ _ HW Hi Hx) as (b' & Hb' & _ & Hl). assert (b' = b) as -> by congruence.
  destruct (write_cx_ok m W i v x p b (f (page_cx b)) HW Hi Hx Hb) as (m' & E & HW'); [by apply Hf, page_cx_ok|]. exists m'. split; [|done].
  unfold modify_cx. by rewrite (bind_Ok _ _ _ _ _ (read_cx_ok _ _ _ _ _ _ _ HW Hi Hx Hb)).
Qed.

End Pages.
