(* ===== verification/Asm.v ===== *)
(** * The assembly routines (os/src/trap/trap.S, os/src/task/switch.S)

    The instructions the routines use, on a hart whose memory is seen through
    [satp]: a word is at an address of an address space.  [__alltraps] and
    [__restore] are shown to save and restore the registers of a program in its
    trap context, [__switch] those of a task in its task context. *)

From S2P Require Import Prelude Address Frames PageTable MemorySet BlockDev BlockStore Efs Vfs Kernel OsInode Task CxMem.

Inductive csr := Sscratch | Sstatus | Sepc | Satp.

Inductive instr :=
  | sd (rs : nat) (offset : Z) (base : nat)
  | ld (rd : nat) (offset : Z) (base : nat)
  | csrr (rd : nat) (c : csr)
  | csrw (c : csr) (rs : nat)
  | csrrw (rd : nat) (c : csr) (rs : nat)
  | mv (rd rs : nat)
  | sfence_vma.

(** How a routine ends. *)
Inductive jump := jr (rs : nat) | sret.

(** The integer registers, the CSRs, and the words of the address spaces. *)
Record Hart := mkHart {
  regs : list Z;
  csr_scratch : Z;
  csr_status : Z;
  csr_epc : Z;
  csr_satp : Z;
  words : gmap (Z * Z) Z;
}.

Definition reg (h : Hart) (i : nat) : Z := if decide (i = 0%nat) then 0 else default 0 (regs h !! i).
Definition set_reg (h : Hart) (i : nat) (v : Z) : Hart :=
  mkHart (<[i := v]> (regs h)) (csr_scratch h) (csr_status h) (csr_epc h) (csr_satp h) (words h).

Definition get_csr (h : Hart) (c : csr) : Z :=
  match c with Sscratch => csr_scratch h | Sstatus => csr_status h | Sepc => csr_epc h | Satp => csr_satp h end.
Definition set_csr (h : Hart) (c : csr) (v : Z) : Hart :=
  match c with
  | Sscratch => mkHart (regs h) v (csr_status h) (csr_epc h) (csr_satp h) (words h)
  | Sstatus => mkHart (regs h) (csr_scratch h) v (csr_epc h) (csr_satp h) (words h)
  | Sepc => mkHart (regs h) (csr_scratch h) (csr_status h) v (csr_satp h) (words h)
  | Satp => mkHart (regs h) (csr_scratch h) (csr_status h) (csr_epc h) v (words h)
  end.

(** [None] is an access fault. *)
Definition exec_instr (i : instr) (h : Hart) : option Hart :=
  match i with
  | sd rs offset base =>
      let a := (csr_satp h, w64 (reg h base + offset)) in
      _ ← words h !! a;
      Some (mkHart (regs h) (csr_scratch h) (csr_status h) (csr_epc h) (csr_satp h) (<[a := reg h rs]> (words h)))
  | ld rd offset base => w ← words h !! (csr_satp h, w64 (reg h base + offset)); Some (set_reg h rd w)
  | csrr rd c => Some (set_reg h rd (get_csr h c))
  | csrw c rs => Some (set_csr h c (reg h rs))
  | csrrw rd c rs => Some (set_reg (set_csr h c (reg h rs)) rd (get_csr h c))
  | mv rd rs => Some (set_reg h rd (reg h rs))
  | sfence_vma => Some h
  end.

Fixpoint exec_all (code : list instr) (h : Hart) : option Hart :=
  match code with [] => Some h | i :: code => h ← exec_instr i h; exec_all code h end.

Definition target (j : jump) (h : Hart) : Z := match j with jr rs => reg h rs | sret => csr_epc h end.

Definition exec_routine (r : list instr * jump) (h : Hart) : option (Hart * Z) :=
  h' ← exec_all r.1 h; Some (h', target r.2 h').

(** ** The routines *)
Definition ra : nat := 1.
Definition sp : nat := 2.
Definition t0 : nat := 5.
Definition t1 : nat := 6.
Definition t2 : nat := 7.
Definition a0 : nat := 10.
Definition a1 : nat := 11.

(** [s0]-[s11] *)
Definition s_reg (n : nat) : nat := if decide (n < 2)%nat then (8 + n)%nat else (16 + n)%nat.

Definition SAVE_GP (n : nat) : instr := sd n (Z.of_nat n * 8) sp.
Definition LOAD_GP (n : nat) : instr := ld n (Z.of_nat n * 8) sp.

Definition alltraps : list instr * jump :=
  ([ csrrw sp Sscratch sp;
     (* save other general purpose registers *)
     sd 1 (1 * 8) sp;
     sd 3 (3 * 8) sp ] ++
   (SAVE_GP <$> seq 5 27) ++
   [ csrr t0 Sstatus;
     csrr t1 Sepc;
     sd t0 (32 * 8) sp;
     sd t1 (33 * 8) sp;
     (* read user stack from sscratch and save it in TrapContext *)
     csrr t2 Sscratch;
     sd t2 (2 * 8) sp;
     (* load kernel_satp into t0 *)
     ld t0 (34 * 8) sp;
     (* load trap_handler into t1 *)
     ld t1 (36 * 8) sp;
     (* move to kernel_sp *)
     ld sp (35 * 8) sp;
     (* switch to kernel space *)
     csrw Satp t0;
     sfence_vma ],
   (* jump to trap_handler *)
   jr t1).

Definition restore : list instr * jump :=
  ([ csrw Satp a1;
     sfence_vma;
     csrw Sscratch a0;
     mv sp a0;
     (* restore sstatus/sepc *)
     ld t0 (32 * 8) sp;
     ld t1 (33 * 8) sp;
     csrw Sstatus t0;
     csrw Sepc t1;
     (* restore general purpose registers except x0/sp/tp *)
     ld 1 (1 * 8) sp;
     ld 3 (3 * 8) sp ] ++
   (LOAD_GP <$> seq 5 27) ++
   (* back to user stack *)
   [ ld sp (2 * 8) sp ],
   sret).

Definition SAVE_SN (n : nat) : instr := sd (s_reg n) ((Z.of_nat n + 2) * 8) a0.
Definition LOAD_SN (n : nat) : instr := ld (s_reg n) ((Z.of_nat n + 2) * 8) a1.

Definition switch : list instr * jump :=
  ([ (* save kernel stack of current task *)
     sd sp 8 a0;
     (* save ra & s0~s11 of current execution *)
     sd ra 0 a0 ] ++
   (SAVE_SN <$> seq 0 12) ++
   (* restore ra & s0~s11 of next execution *)
   [ ld ra 0 a1 ] ++
   (LOAD_SN <$> seq 0 12) ++
   (* restore kernel stack of next task *)
   [ ld sp 8 a1 ],
   jr ra).

(** ** A structure in memory *)

(** The words [ws] at [base] in the space [s]. *)
Fixpoint block (s base : Z) (ws : list Z) : gmap (Z * Z) Z :=
  match ws with [] => ∅ | w :: ws => <[(s, base) := w]> (block s (base + 8) ws) end.

Lemma block_lookup s base ws i : block s base ws !! (s, base + 8 * Z.of_nat i) = ws !! i.
Proof.
  revert base i. induction ws as [|w ws IH]; intros base i; [done|]. destruct i as [|i]; cbn [block].
  - rewrite Z.add_0_r, lookup_insert_eq. done.
  - rewrite lookup_insert_ne by (intros [= E]; lia). replace (base + 8 * Z.of_nat (S i)) with (base + 8 + 8 * Z.of_nat i) by lia. apply IH.
Qed.

Lemma block_insert s base ws i w :
  (i < length ws)%nat -> <[(s, base + 8 * Z.of_nat i) := w]> (block s base ws) = block s base (<[i := w]> ws).
Proof.
  revert base i. induction ws as [|x ws IH]; intros base i Hi; cbn in Hi; [lia|]. destruct i as [|i]; cbn [block].
  - rewrite Z.add_0_r, insert_insert_eq. done.
  - rewrite insert_insert_ne by (intros [= E]; lia). cbn [insert list_insert block].
    replace (base + 8 * Z.of_nat (S i)) with (base + 8 + 8 * Z.of_nat i) by lia. by rewrite IH by lia.
Qed.

(** The memory has the structure [ws] at [base], and [rest] elsewhere. *)
Definition mem_at (h : Hart) (s base : Z) (ws : list Z) (rest : gmap (Z * Z) Z) : Prop :=
  words h = block s base ws ∪ rest.

Definition block_fits (base : Z) (n : nat) : Prop := 0 <= base /\ base + 8 * Z.of_nat n <= 2 ^ 64.

Lemma mem_at_load h s base ws rest i w off :
  mem_at h s base ws rest -> block_fits base (length ws) -> ws !! i = Some w -> off = 8 * Z.of_nat i ->
  words h !! (s, w64 (base + off)) = Some w.
Proof.
  intros -> Hf Hi ->. pose proof (lookup_lt_Some _ _ _ Hi). unfold block_fits in Hf.
  rewrite w64_small by lia. apply lookup_union_Some_l. by rewrite block_lookup.
Qed.

Lemma mem_at_store h s base ws rest i off v :
  mem_at h s base ws rest -> block_fits base (length ws) -> (i < length ws)%nat -> off = 8 * Z.of_nat i ->
  <[(s, w64 (base + off)) := v]> (words h) = block s base (<[i := v]> ws) ∪ rest.
Proof.
  intros -> Hf Hi ->. unfold block_fits in Hf. rewrite w64_small by lia. by rewrite insert_union_l, block_insert.
Qed.

(** ** Runs of stores and of loads *)
Definition with_words (h : Hart) (m : gmap (Z * Z) Z) : Hart := mkHart (regs h) (csr_scratch h) (csr_status h) (csr_epc h) (csr_satp h) m.
Definition with_regs (h : Hart) (rs : list Z) : Hart := mkHart rs (csr_scratch h) (csr_status h) (csr_epc h) (csr_satp h) (words h).

Lemma exec_all_app c1 c2 h : exec_all (c1 ++ c2) h = h' ← exec_all c1 h; exec_all c2 h'.
Proof. revert h. induction c1 as [|i c1 IH]; intros h; [done|]. cbn [exec_all app]. destruct (exec_instr i h); cbn; [apply IH|done]. Qed.

Section block_access.
  Context (base : Z) (b : nat) (rest : gmap (Z * Z) Z) (slot r : nat -> nat) (off : nat -> Z).
  Hypothesis off_ok : forall n, off n = 8 * Z.of_nat (slot n).

(** Each store replaces its word of the structure. *)
Lemma exec_saves h ws ns :
  mem_at h (csr_satp h) base ws rest -> block_fits base (length ws) -> reg h b = base -> Forall (fun n => (slot n < length ws)%nat) ns ->
  exec_all ((fun n => sd (r n) (off n) b) <$> ns) h =
    Some (with_words h (block (csr_satp h) base (foldl (fun ws n => <[slot n := reg h (r n)]> ws) ws ns) ∪ rest)).
Proof.
  revert h ws. induction ns as [|n ns IH]; intros h ws Hm Hf Hb Hs; cbn [exec_all fmap list_fmap foldl].
  - unfold with_words. rewrite <- Hm. by destruct h.
  - apply Forall_cons in Hs as [Hn Hs]. destruct (lookup_lt_is_Some_2 _ _ Hn) as [w Hw].
    cbn [exec_instr]. rewrite Hb, (mem_at_load h _ _ _ _ _ _ _ Hm Hf Hw (off_ok n)). cbn [mbind option_bind].
    rewrite (mem_at_store h _ _ _ _ _ _ (reg h (r n)) Hm Hf Hn (off_ok n)).
    rewrite (IH _ (<[slot n := reg h (r n)]> ws)); [done|done|by rewrite length_insert|done|].
    eapply Forall_impl; [exact Hs|]. intros i. by rewrite length_insert.
Qed.

(** Each load takes its word of the structure. *)
Lemma exec_loads h ws ns :
  mem_at h (csr_satp h) base ws rest -> block_fits base (length ws) -> reg h b = base -> Forall (fun n => (slot n < length ws)%nat /\ r n <> b) ns ->
  exec_all ((fun n => ld (r n) (off n) b) <$> ns) h = Some (with_regs h (foldl (fun rs n => <[r n := ws !!! slot n]> rs) (regs h) ns)).
Proof.
  revert h. induction ns as [|n ns IH]; intros h Hm Hf Hb Hs; cbn [exec_all fmap list_fmap foldl].
  - by destruct h.
  - apply Forall_cons in Hs as [[Hn Hr] Hs]. destruct (lookup_lt_is_Some_2 _ _ Hn) as [w Hw].
    cbn [exec_instr]. rewrite Hb, (mem_at_load h _ _ _ _ _ _ _ Hm Hf Hw (off_ok n)). cbn [mbind option_bind].
    rewrite IH; [|done|done| |done]; [by rewrite (list_lookup_total_correct _ _ _ Hw)|].
    revert Hb. unfold reg, set_reg. case_decide; [done|]. cbn. by rewrite list_lookup_insert_ne.
Qed.

End block_access.

(** ** Weakest preconditions of straight-line code *)
Definition wp (code : list instr) (h : Hart) (Q : Hart -> Prop) : Prop := exists h', exec_all code h = Some h' /\ Q h'.

Lemma wp_nil h (Q : Hart -> Prop) : Q h -> wp [] h Q.
Proof. intros H. by exists h. Qed.

Lemma wp_cons i c h h' Q : exec_instr i h = Some h' -> wp c h' Q -> wp (i :: c) h Q.
Proof. intros E (h2 & E2 & H). exists h2. cbn [exec_all]. by rewrite E. Qed.

Lemma wp_app c1 c2 h h' Q : exec_all c1 h = Some h' -> wp c2 h' Q -> wp (c1 ++ c2) h Q.
Proof. intros E (h2 & E2 & H). exists h2. by rewrite exec_all_app, E. Qed.

Lemma wp_routine r h Q : wp r.1 h (fun h' => Q h' (target r.2 h')) -> exists h' pc, exec_routine r h = Some (h', pc) /\ Q h' pc.
Proof. intros (h' & E & H). exists h', (target r.2 h'). unfold exec_routine. by rewrite E. Qed.

Section structure.
  Context (base : Z) (rest : gmap (Z * Z) Z) (b : nat).

Lemma wp_saves (slot r : nat -> nat) (off : nat -> Z) code ns c h ws ws' Q :
  code = (fun n => sd (r n) (off n) b) <$> ns -> (forall n, off n = 8 * Z.of_nat (slot n)) ->
  mem_at h (csr_satp h) base ws rest -> block_fits base (length ws) -> reg h b = base -> forallb (fun n => slot n <? length ws)%nat ns = true ->
  foldl (fun ws n => <[slot n := reg h (r n)]> ws) ws ns = ws' ->
  (forall m, mem_at (with_words h m) (csr_satp h) base ws' rest -> wp c (with_words h m) Q) -> wp (code ++ c) h Q.
Proof.
  intros -> Ho Hm Hf Hb Hn <- H. eapply wp_app; [apply (exec_saves _ _ _ _ _ _ Ho _ _ _ Hm Hf Hb)|by apply H].
  apply Forall_forall. intros n Hi. apply forallb_forall with (x := n) in Hn; [by apply Nat.ltb_lt|by apply list_elem_of_In].
Qed.

Lemma wp_loads (slot r : nat -> nat) (off : nat -> Z) code ns c h ws rs Q :
  code = (fun n => ld (r n) (off n) b) <$> ns -> (forall n, off n = 8 * Z.of_nat (slot n)) ->
  mem_at h (csr_satp h) base ws rest -> block_fits base (length ws) -> reg h b = base ->
  forallb (fun n => (slot n <? length ws)%nat && negb (r n =? b)%nat) ns = true ->
  foldl (fun rs n => <[r n := ws !!! slot n]> rs) (regs h) ns = rs ->
  wp c (with_regs h rs) Q -> wp (code ++ c) h Q.
Proof.
  intros -> Ho Hm Hf Hb Hn <- H. eapply wp_app; [apply (exec_loads _ _ _ _ _ _ Ho _ _ _ Hm Hf Hb)|exact H].
  apply Forall_forall. intros n Hi. apply forallb_forall with (x := n) in Hn; [|by apply list_elem_of_In].
  apply andb_prop in Hn as [H1 H2]. split; [by apply Nat.ltb_lt|]. by apply Nat.eqb_neq, negb_true_iff.
Qed.

Lemma wp_save i rs off c h ws ws' Q :
  mem_at h (csr_satp h) base ws rest -> block_fits base (length ws) -> reg h b = base -> (i <? length ws)%nat = true -> off = 8 * Z.of_nat i ->
  <[i := reg h rs]> ws = ws' ->
  (forall m, mem_at (with_words h m) (csr_satp h) base ws' rest -> wp c (with_words h m) Q) -> wp (sd rs off b :: c) h Q.
Proof.
  intros Hm Hf Hb Hi -> E H. apply (wp_saves (fun _ => i) (fun _ => rs) (fun _ => 8 * Z.of_nat i) [sd rs (8 * Z.of_nat i) b] [O] c h ws ws'); try done.
  cbn [forallb]. by rewrite Hi.
Qed.

(** The register loaded may be the one that points to the structure. *)
Lemma wp_load i w rd off c h ws Q :
  mem_at h (csr_satp h) base ws rest -> block_fits base (length ws) -> reg h b = base -> ws !! i = Some w -> off = 8 * Z.of_nat i ->
  wp c (set_reg h rd w) Q -> wp (ld rd off b :: c) h Q.
Proof. intros Hm Hf Hb Hi -> H. eapply wp_cons; [|exact H]. cbn [exec_instr]. by rewrite Hb, (mem_at_load h _ _ _ _ _ _ _ Hm Hf Hi eq_refl). Qed.

End structure.

(** ** Traps *)

(** The context that [__alltraps] leaves: the registers but x0 and tp, and the CSRs. *)
Definition saved (h : Hart) (old : TrapContext) : TrapContext :=
  mkTrapContext ((fun i => if decide (i = 0%nat \/ i = 4%nat) then xs old !!! i else reg h i) <$> seq 0 32) (csr_status h) (csr_epc h)
    (kernel_satp old) (kernel_sp old) (trap_handler_ptr old).

Ltac explode l H := do 32 (destruct l as [|? l]; [discriminate H|]); destruct l; [|discriminate H]; clear H.

(** An instruction on registers; a store and a load of the structure at [Hm]. *)
Ltac reg_step := eapply wp_cons; [cbv; reflexivity|].
Ltac save_step Hm i := eapply (wp_save _ _ _ i); [exact Hm|eassumption|reflexivity|reflexivity|reflexivity|cbv; reflexivity|clear Hm; cbv [with_words regs csr_scratch csr_status csr_epc csr_satp]; intros ? Hm].
Ltac load_step Hm i := eapply (wp_load _ _ _ i); [exact Hm|eassumption|reflexivity|cbv; reflexivity|reflexivity|cbv [set_reg insert list_insert regs csr_scratch csr_status csr_epc csr_satp words]].

Lemma alltraps_ok h old rest : length (regs h) = 32%nat -> length (xs old) = 32%nat -> block_fits (csr_scratch h) cx_words ->
  mem_at h (csr_satp h) (csr_scratch h) (words_of_cx old) rest ->
  exists h' pc, exec_routine alltraps h = Some (h', pc) /\ pc = trap_handler_ptr old /\
    mem_at h' (csr_satp h) (csr_scratch h) (words_of_cx (saved h old)) rest /\
    csr_satp h' = kernel_satp old /\ reg h' sp = kernel_sp old /\ csr_scratch h' = reg h sp.
Proof.
  intros Hr Hx Hf Hm. apply wp_routine. destruct h as [x scratch status epc satp mem], old as [y st ep ks kp th].
  cbn [regs csr_scratch csr_satp xs kernel_satp kernel_sp trap_handler_ptr] in *. explode x Hr. explode y Hx.
  cbv [words_of_cx app xs sstatus sepc kernel_satp kernel_sp trap_handler_ptr length] in *.
  unfold alltraps. cbn [fst snd app]. reg_step. save_step Hm 1%nat. save_step Hm 3%nat.
  eapply (wp_saves scratch rest sp (fun n => n) (fun n => n) (fun n => Z.of_nat n * 8) (SAVE_GP <$> seq 5 27) (seq 5 27));
    [reflexivity|intros; lia|exact Hm|exact Hf|reflexivity|reflexivity|cbv; reflexivity|clear Hm; cbv [with_words regs csr_scratch csr_status csr_epc csr_satp]; intros ? Hm].
  reg_step. reg_step. save_step Hm 32%nat. save_step Hm 33%nat. reg_step. save_step Hm 2%nat.
  load_step Hm 34%nat. load_step Hm 36%nat. load_step Hm 35%nat. reg_step. reg_step. apply wp_nil. split; [reflexivity|]. split; [exact Hm|]. done.
Qed.

(** A program resumes with the context [cx]. *)
Record resumes (h : Hart) (cx : TrapContext) (h' : Hart) (base : Z) : Prop := mkResumes {
  rs_regs : forall i, (0 < i < 32)%nat -> i <> 4%nat -> reg h' i = xs cx !!! i;
  rs_tp : reg h' 4 = reg h 4;
  rs_status : csr_status h' = sstatus cx;
  rs_scratch : csr_scratch h' = base;
  rs_satp : csr_satp h' = reg h a1;
  rs_words : words h' = words h;
}.

Lemma restore_ok h cx rest : length (regs h) = 32%nat -> length (xs cx) = 32%nat -> block_fits (reg h a0) cx_words ->
  mem_at h (reg h a1) (reg h a0) (words_of_cx cx) rest ->
  exists h' pc, exec_routine restore h = Some (h', pc) /\ pc = sepc cx /\ resumes h cx h' (reg h a0).
Proof.
  intros Hr Hx Hf Hm. apply wp_routine. destruct h as [x scratch status epc satp mem], cx as [y st ep ks kp th].
  cbn [regs xs sepc] in *. explode x Hr. explode y Hx. cbv [reg a0 a1 regs lookup] in Hf, Hm. cbn in Hf, Hm.
  cbv [words_of_cx app xs sstatus sepc kernel_satp kernel_sp trap_handler_ptr length] in *.
  unfold restore. cbn [fst snd app]. reg_step. reg_step. reg_step. reg_step. load_step Hm 32%nat. load_step Hm 33%nat. reg_step. reg_step.
  load_step Hm 1%nat. load_step Hm 3%nat.
  eapply (wp_loads _ rest sp (fun n => n) (fun n => n) (fun n => Z.of_nat n * 8) (LOAD_GP <$> seq 5 27) (seq 5 27));
    [reflexivity|intros; lia|exact Hm|exact Hf|reflexivity|reflexivity|cbv; reflexivity|cbv [with_regs csr_scratch csr_status csr_epc csr_satp words]].
  load_step Hm 2%nat. apply wp_nil. split; [reflexivity|]. split; try reflexivity.
  intros i Hi H4. do 32 (destruct i as [|i]; [lia || reflexivity|]). lia.
Qed.

(** ** Switches between tasks *)

Definition task_cx_words : nat := 14.

(** [ra], [sp] and the callee-saved registers: the words of a [TaskContext]. *)
Definition callee_saved (h : Hart) : list Z := reg h <$> ([ra; sp] ++ (s_reg <$> seq 0 12)).

Lemma block_fresh s base ws s' x : s' <> s \/ x < base \/ base + 8 * Z.of_nat (length ws) <= x -> block s base ws !! (s', x) = None.
Proof.
  revert base. induction ws as [|w ws IH]; intros base H; cbn [block length] in *; [done|].
  rewrite lookup_insert_ne; [apply IH; lia|]. intros [= -> ->]. destruct H as [?|?]; [done|lia].
Qed.

Lemma block_disjoint s b1 b2 ws1 ws2 :
  b1 + 8 * Z.of_nat (length ws1) <= b2 \/ b2 + 8 * Z.of_nat (length ws2) <= b1 -> block s b1 ws1 ##ₘ block s b2 ws2.
Proof.
  revert b1. induction ws1 as [|w ws1 IH]; intros b1 H; cbn [block length] in *; [apply map_disjoint_empty_l|].
  apply map_disjoint_insert_l. split; [apply block_fresh; lia|apply IH; lia].
Qed.

Lemma mem_at_swap h s b1 b2 ws1 ws2 rest :
  b1 + 8 * Z.of_nat (length ws1) <= b2 \/ b2 + 8 * Z.of_nat (length ws2) <= b1 ->
  mem_at h s b1 ws1 (block s b2 ws2 ∪ rest) -> mem_at h s b2 ws2 (block s b1 ws1 ∪ rest).
Proof. unfold mem_at. intros Hd ->. rewrite !(assoc_L (∪)). f_equal. by apply map_union_comm, block_disjoint. Qed.

Definition apart (b1 b2 : Z) : Prop := b1 + 8 * Z.of_nat task_cx_words <= b2 \/ b2 + 8 * Z.of_nat task_cx_words <= b1.

(** The current task's registers are saved, the next one's are in place. *)
Record switched (h : Hart) (next : list Z) (rest : gmap (Z * Z) Z) (h' : Hart) : Prop := mkSwitched {
  sw_saved : mem_at h' (csr_satp h) (reg h a0) (callee_saved h) (block (csr_satp h) (reg h a1) next ∪ rest);
  sw_regs : callee_saved h' = next;
  sw_others : forall i, i ∉ [ra; sp] ++ (s_reg <$> seq 0 12) -> reg h' i = reg h i;
  sw_csrs : forall c, get_csr h' c = get_csr h c;
}.

Lemma switch_ok h cur next rest : length (regs h) = 32%nat -> length cur = task_cx_words -> length next = task_cx_words ->
  block_fits (reg h a0) task_cx_words -> block_fits (reg h a1) task_cx_words -> apart (reg h a0) (reg h a1) ->
  mem_at h (csr_satp h) (reg h a0) cur (block (csr_satp h) (reg h a1) next ∪ rest) ->
  exists h' pc, exec_routine switch h = Some (h', pc) /\ next !! 0%nat = Some pc /\ switched h next rest h'.
Proof.
  intros Hr Hc Hn Hf1 Hf2 Hd Hm. apply wp_routine. remember (reg h a0) as p eqn:Ep. remember (reg h a1) as q eqn:Eq.
  destruct h as [x scratch status epc satp mem]. cbn [regs csr_satp] in *. explode x Hr. cbv in Ep, Eq. subst p q.
  do 14 (destruct cur as [|? cur]; [discriminate Hc|]). destruct cur; [|discriminate Hc]. do 14 (destruct next as [|? next]; [discriminate Hn|]). destruct next; [|discriminate Hn].
  unfold switch. cbn [fst snd app]. save_step Hm 1%nat. save_step Hm 0%nat.
  eapply (wp_saves _ _ a0 (fun n => n + 2)%nat s_reg (fun n => (Z.of_nat n + 2) * 8) (SAVE_SN <$> seq 0 12) (seq 0 12));
    [reflexivity|intros; lia|exact Hm|exact Hf1|reflexivity|reflexivity|cbv; reflexivity|clear Hm; cbv [with_words regs csr_scratch csr_status csr_epc csr_satp]; intros ? Hm].
  pose proof (fun Hd => mem_at_swap _ _ _ _ _ _ _ Hd Hm) as Hm2. specialize (Hm2 Hd). load_step Hm2 0%nat.
  eapply (wp_loads _ _ a1 (fun n => n + 2)%nat s_reg (fun n => (Z.of_nat n + 2) * 8) (LOAD_SN <$> seq 0 12) (seq 0 12));
    [reflexivity|intros; lia|exact Hm2|exact Hf2|reflexivity|reflexivity|cbv; reflexivity|cbv [with_regs csr_scratch csr_status csr_epc csr_satp words]].
  load_step Hm2 1%nat. apply wp_nil. split; [reflexivity|]. split; [exact Hm|reflexivity| |by intros []].
  intros i Hi. do 32 (destruct i as [|i]; [(cbv; reflexivity) || (exfalso; apply Hi, (bool_decide_unpack _); vm_compute; exact I)|]). done.
Qed.

(** C26: switching away and back.  The task resumes after its call with its stack and
    callee-saved registers, whatever ran in between left in the registers. *)
Theorem switch_resumes h cur next rest h2 back rest2 :
  length (regs h) = 32%nat -> length cur = task_cx_words -> length next = task_cx_words ->
  block_fits (reg h a0) task_cx_words -> block_fits (reg h a1) task_cx_words -> apart (reg h a0) (reg h a1) ->
  mem_at h (csr_satp h) (reg h a0) cur (block (csr_satp h) (reg h a1) next ∪ rest) ->
  (* the memory of the task contexts is as it was left *)
  length (regs h2) = 32%nat -> length back = task_cx_words -> csr_satp h2 = csr_satp h -> reg h2 a1 = reg h a0 ->
  block_fits (reg h2 a0) task_cx_words -> apart (reg h2 a0) (reg h2 a1) ->
  mem_at h2 (csr_satp h) (reg h2 a0) back (block (csr_satp h) (reg h a0) (callee_saved h) ∪ rest2) ->
  exists h1 h3, exec_routine switch h = Some (h1, next !!! 0%nat) /\ callee_saved h1 = next /\
    mem_at h1 (csr_satp h) (reg h a0) (callee_saved h) (block (csr_satp h) (reg h a1) next ∪ rest) /\
    exec_routine switch h2 = Some (h3, reg h ra) /\ callee_saved h3 = callee_saved h.
Proof.
  intros Hr Hc Hn Hf1 Hf2 Hd Hm Hr2 Hb Es Ea Hf3 Hd2 Hm2.
  destruct (switch_ok h cur next rest) as (h1 & pc & E1 & Hpc & [S1 S2 _ _]); try done.
  rewrite <- Es, <- Ea in Hm2. destruct (switch_ok h2 back (callee_saved h) rest2) as (h3 & pc3 & E3 & Hpc3 & [_ S3 _ _]); try done; [by rewrite Ea|].
  exists h1, h3. rewrite (list_lookup_total_correct _ _ _ Hpc). injection Hpc3 as ->. done.
Qed.

(** From one context to another, and back with other registers. *)
Definition leaving : Hart := mkHart (<[10%nat := 0x1000]> (<[11%nat := 0x2000]> (replicate 32 7))) 0 0 0 0 (block 0 0x1000 (replicate 14 0) ∪ (block 0 0x2000 (replicate 14 1) ∪ ∅)).
Definition coming_back : Hart := mkHart (<[10%nat := 0x2000]> (<[11%nat := 0x1000]> (replicate 32 9))) 0 0 0 0 (block 0 0x2000 (replicate 14 1) ∪ (block 0 0x1000 (callee_saved leaving) ∪ ∅)).

Lemma switch_resumes_witness : exists h1 h3, exec_routine switch leaving = Some (h1, 1) /\ exec_routine switch coming_back = Some (h3, 7).
Proof.
  assert (L0 : reg leaving a0 = 0x1000) by reflexivity. assert (L1 : reg leaving a1 = 0x2000) by reflexivity.
  assert (B0 : reg coming_back a0 = 0x2000) by reflexivity. assert (B1 : reg coming_back a1 = 0x1000) by reflexivity.
  assert (M1 : mem_at leaving 0 0x1000 (replicate 14 0) (block 0 0x2000 (replicate 14 1) ∪ ∅)) by (unfold mem_at, leaving; cbn [words]; exact eq_refl).
  assert (M2 : mem_at coming_back 0 0x2000 (replicate 14 1) (block 0 0x1000 (callee_saved leaving) ∪ ∅)) by (unfold mem_at, coming_back; cbn [words]; exact eq_refl).
  pose proof (switch_resumes leaving (replicate 14 0) (replicate 14 1) ∅ coming_back (replicate 14 1) ∅) as Hs.
  change (csr_satp leaving) with 0 in Hs. rewrite L0, L1, B0, B1 in Hs.
  destruct Hs as (h1 & h3 & E1 & _ & _ & E3 & _); [exact eq_refl|exact eq_refl|exact eq_refl|split; done|split; done|left; done|exact M1|exact eq_refl|exact eq_refl|exact eq_refl|exact eq_refl|split; done|right; done|exact M2|].
  exists h1, h3. split; [exact E1|exact E3].
Defined.
