(* ===== verification/KLogic.v ===== *)
(** * Running the commands of the kernel

    What the basic commands do to a state that is known, the contract of the
    pid allocator, and the positions of the kernel stacks. *)

From S2P Require Import Prelude Address Frames PageTable MemorySet BlockDev BlockStore Efs Vfs PtInv PtOps Space AreaOps MsOps MsLife Kernel OsInode Task.

Section Run.
Context {St F : Type} `{BlockStore St} `{FrameAllocator F}.
Implicit Types (k : Kernel St F).

Lemma on_machine_ok {A} (c : cmd (Machine F) A) k a m : c (machine k) = Ok (a, m) -> on_machine c k = Ok (a, set_machine k m).
Proof. unfold on_machine. by intros ->. Qed.

Lemma on_disk_ok {A} (c : cmd St A) k a d : c (disk k) = Ok (a, d) -> on_disk c k = Ok (a, set_disk k d).
Proof. unfold on_disk. by intros ->. Qed.

Lemma gets_bind {A B} (f : Kernel St F -> A) (c : A -> cmd (Kernel St F) B) k : bind (gets f) c k = c (f k) k.
Proof. done. Qed.

Lemma update_bind {B} f (c : unit -> cmd (Kernel St F) B) k : bind (update f) c k = c tt (f k).
Proof. done. Qed.

(** The guard is dropped at the end. *)
Lemma with_cell_ok {A} c (body : cmd (Kernel St F) A) k a k' : c ∉ borrows k ->
  body (set_borrows k (c :: borrows k)) = Ok (a, k') -> borrows k' = c :: borrows k ->
  with_cell c body k = Ok (a, set_borrows k' (borrows k)).
Proof.
  intros Hc Hb Hk. unfold with_cell. rewrite gets_bind. rewrite bool_decide_true by done. cbn [assert]. rewrite bind_ret, update_bind.
  rewrite (bind_Ok _ _ _ _ _ Hb), update_bind. by rewrite Hk.
Qed.

(** The same, with the state after the guard. *)
Lemma with_cell_to {A} c (body : cmd (Kernel St F) A) k a k' : c ∉ borrows k -> borrows k' = borrows k ->
  body (set_borrows k (c :: borrows k)) = Ok (a, set_borrows k' (c :: borrows k)) -> with_cell c body k = Ok (a, k').
Proof. intros Hc Hb E. rewrite (with_cell_ok _ _ _ _ _ Hc E eq_refl), <- Hb. do 2 f_equal. by destruct k'. Qed.

(** A cell that is borrowed cannot be borrowed again. *)
Lemma with_cell_panic {A} c (body : cmd (Kernel St F) A) k : c ∈ borrows k -> with_cell c body k = Fail Panic.
Proof. intros Hc. unfold with_cell. rewrite gets_bind. by rewrite bool_decide_false by naive_solver. Qed.

Lemma get_task_ok t tcb k : tasks k !! t = Some tcb -> get_task t k = Ok (tcb, k).
Proof. intros Ht. unfold get_task. rewrite gets_bind. by rewrite Ht. Qed.

Lemma get_inner_ok t tcb k : tasks k !! t = Some tcb -> get_inner t k = Ok (inner tcb, k).
Proof. intros Ht. unfold get_inner. by rewrite (bind_Ok _ _ _ _ _ (get_task_ok t tcb k Ht)). Qed.

Definition with_inner (tcb : TaskControlBlock) (i : TaskControlBlockInner) : TaskControlBlock := mkTCB (pid tcb) (kernel_stack tcb) i.

Lemma set_inner_ok t tcb i k : tasks k !! t = Some tcb ->
  set_inner t i k = Ok (tt, set_tasks k (<[t := with_inner tcb i]> (tasks k))).
Proof. intros Ht. unfold set_inner. by rewrite (bind_Ok _ _ _ _ _ (get_task_ok t tcb k Ht)). Qed.

Lemma get_file_ok r f k : files k !! r = Some f -> get_file r k = Ok (f, k).
Proof. intros Hr. unfold get_file. rewrite gets_bind. by rewrite Hr. Qed.

(** Enters a guard whose body computes. *)
Ltac cell := erewrite with_cell_ok; [|done|reflexivity|done].

(** ** The scheduler *)
Lemma add_task_ok t k : TASK_MANAGER ∉ borrows k -> add_task t k = Ok (tt, set_ready_queue k (ready_queue k ++ [t])).
Proof. intros Hb. unfold add_task. by cell. Qed.

Lemma fetch_task_some t q k : TASK_MANAGER ∉ borrows k -> ready_queue k = t :: q ->
  fetch_task k = Ok (Some t, set_ready_queue k q).
Proof.
  intros Hb Hq. unfold fetch_task. erewrite with_cell_ok; [|done|rewrite gets_bind; cbn [ready_queue set_borrows]; rewrite Hq; done|done]. done.
Qed.

Lemma fetch_task_none k : TASK_MANAGER ∉ borrows k -> ready_queue k = [] -> fetch_task k = Ok (None, k).
Proof.
  intros Hb Hq. unfold fetch_task. erewrite with_cell_ok; [|done|rewrite gets_bind; cbn [ready_queue set_borrows]; rewrite Hq; done|done].
  do 2 f_equal. by destruct k.
Qed.

Lemma take_current_ok k : PROCESSOR ∉ borrows k ->
  take_current_task k = Ok (running (processor k), set_processor k (mkProcessor None (idle_task_cx (processor k)))).
Proof. intros Hb. unfold take_current_task. by cell. Qed.

Lemma set_borrows_id k : set_borrows k (borrows k) = k.
Proof. by destruct k. Qed.

Lemma current_task_ok t k : PROCESSOR ∉ borrows k -> running (processor k) = Some t -> current_task_unwrap k = Ok (t, k).
Proof.
  intros Hb Ht. unfold current_task_unwrap, current_task. erewrite bind_Ok; [|cell; reflexivity].
  cbn [set_borrows processor]. rewrite Ht. cbn [unwrap lift ret]. unfold ret. do 2 f_equal. by destruct k.
Qed.

(** Reading the inner part of a task under its guard. *)
Lemma peek_inner {A} t tcb (f : TaskControlBlockInner -> A) k : TaskInner t ∉ borrows k -> tasks k !! t = Some tcb ->
  with_cell (TaskInner t) (let* i := get_inner t in ret (f i)) k = Ok (f (inner tcb), k).
Proof.
  intros Hb Ht. erewrite with_cell_ok; [|done|erewrite bind_Ok; [|by apply get_inner_ok]; reflexivity|done].
  do 2 f_equal. by destruct k.
Qed.

(** Changing it. *)
Lemma poke_inner t tcb (f : TaskControlBlockInner -> TaskControlBlockInner) k : TaskInner t ∉ borrows k -> tasks k !! t = Some tcb ->
  with_cell (TaskInner t) (let* i := get_inner t in set_inner t (f i)) k =
    Ok (tt, set_tasks k (<[t := with_inner tcb (f (inner tcb))]> (tasks k))).
Proof.
  intros Hb Ht. erewrite with_cell_ok; [|done|erewrite bind_Ok; [|by apply get_inner_ok]; by apply set_inner_ok|done]. done.
Qed.

Lemma current_user_token_ok t tcb k : PROCESSOR ∉ borrows k -> TaskInner t ∉ borrows k ->
  running (processor k) = Some t -> tasks k !! t = Some tcb -> current_user_token k = Ok (ms_token (memory_set (inner tcb)), k).
Proof.
  intros Hb Hb' Hr Ht. unfold current_user_token. rewrite (bind_Ok _ _ _ _ _ (current_task_ok t k Hb Hr)).
  by apply (peek_inner t tcb (fun i => ms_token (memory_set i))).
Qed.

Lemma current_trap_cx_ok t tcb k : PROCESSOR ∉ borrows k -> TaskInner t ∉ borrows k ->
  running (processor k) = Some t -> tasks k !! t = Some tcb -> current_trap_cx k = Ok (trap_cx_ppn (inner tcb), k).
Proof.
  intros Hb Hb' Hr Ht. unfold current_trap_cx. rewrite (bind_Ok _ _ _ _ _ (current_task_ok t k Hb Hr)).
  by apply (peek_inner t tcb trap_cx_ppn).
Qed.

Lemma schedule_none cx k : PROCESSOR ∉ borrows k -> schedule None cx k = Ok (tt, k).
Proof.
  intros Hb. unfold schedule. erewrite bind_Ok; [|cell; reflexivity]. unfold ret. do 2 f_equal. by destruct k.
Qed.

Lemma schedule_some t tcb cx k : PROCESSOR ∉ borrows k -> tasks k !! t = Some tcb ->
  schedule (Some t) cx k = Ok (tt, set_tasks k (<[t := with_inner tcb (set_task_cx (inner tcb) cx)]> (tasks k))).
Proof.
  intros Hb Ht. unfold schedule. erewrite bind_Ok; [|cell; reflexivity].
  erewrite bind_Ok; [|by apply get_inner_ok]. by rewrite (set_inner_ok t tcb) by done.
Qed.

(** [suspend_current_and_run_next]: the task becomes ready, at the end of the queue. *)
Lemma suspend_ok s t tcb k : borrows k = [] -> running (processor k) = Some t -> tasks k !! t = Some tcb ->
  suspend_current_and_run_next s k = Ok (Switched,
    set_tasks (set_ready_queue (set_processor k (mkProcessor None (idle_task_cx (processor k)))) (ready_queue k ++ [t]))
      (<[t := with_inner tcb (set_task_cx (set_status (inner tcb) Ready) (suspended s))]> (tasks k))).
Proof.
  intros Hb Hr Ht. unfold suspend_current_and_run_next.
  rewrite (bind_Ok _ _ _ _ _ (take_current_ok k ltac:(rewrite Hb; apply not_elem_of_nil))). rewrite Hr. cbn [unwrap lift]. rewrite bind_ret.
  erewrite bind_Ok; [|apply (poke_inner t tcb (fun i => set_status i Ready)); [cbn; rewrite Hb; apply not_elem_of_nil|done]].
  erewrite bind_Ok; [|apply add_task_ok; cbn; rewrite Hb; apply not_elem_of_nil].
  erewrite bind_Ok; [|apply schedule_some; [cbn; rewrite Hb; apply not_elem_of_nil|cbn [tasks set_ready_queue set_tasks]; apply lookup_insert_eq]].
  unfold ret, with_inner. do 2 f_equal. cbn. unfold set_tasks. cbn. by rewrite insert_insert_eq.
Qed.

(** One round of [run_tasks]. *)
Lemma run_round_ok t q tcb k : borrows k = [] -> ready_queue k = t :: q -> tasks k !! t = Some tcb ->
  run_tasks_round k = Ok (Some t,
    set_processor (set_tasks (set_ready_queue k q) (<[t := with_inner tcb (set_status (inner tcb) Running)]> (tasks k)))
      (mkProcessor (Some t) in_run_tasks)).
Proof.
  intros Hb Hq Ht. unfold run_tasks_round. erewrite with_cell_ok; [| | |].
  2: rewrite Hb; apply not_elem_of_nil.
  2: { erewrite bind_Ok; [|apply (fetch_task_some t q); [cbn; rewrite Hb; set_solver|done]]. cbv beta iota.
       erewrite bind_Ok; [|apply (poke_inner t tcb (fun i => set_status i Running)); [cbn; rewrite Hb; set_solver|done]].
       rewrite update_bind. reflexivity. }
  2: done.
  done.
Qed.

Lemma run_round_empty k : borrows k = [] -> ready_queue k = [] -> run_tasks_round k = Ok (None, k).
Proof.
  intros Hb Hq. unfold run_tasks_round. erewrite with_cell_ok; [| | |].
  2: rewrite Hb; apply not_elem_of_nil.
  2: { erewrite bind_Ok; [|apply fetch_task_none; [cbn; rewrite Hb; set_solver|done]]. reflexivity. }
  2: done.
  unfold ret. do 2 f_equal. cbn. destruct k. done.
Qed.

End Run.
