(* ===== verification/KInv.v ===== *)
(** * The invariant of the kernel

    [mem_inv] ties the address spaces of the kernel and of the tasks to the
    frames, [sched_inv] the queue and the processor to the states of the tasks,
    [tree_inv] parents to children, and [file_inv] the descriptors to the disk. *)

From S2P Require Import Prelude BlockDev BlockStore Layout Efs Vfs FsInv FsUpdate FsOps FsDir FsSpec FsRefine Address Frames PageTable PtInv PtOps Space MemorySet AreaOps MsOps MsLife World Kernel OsInode Task Pids CxMem KLogic.

Definition context_vpn : Z := 2 ^ 27 - 2.

(** The pids of the tasks. *)
Definition live (ts : gmap nat TaskControlBlock) : gset Z := map_img (pid <$> ts).

Lemma elem_of_live ts p : p ∈ live ts <-> exists t tcb, ts !! t = Some tcb /\ pid tcb = p.
Proof.
  unfold live. rewrite elem_of_map_img. split.
  - intros [t Ht]. rewrite lookup_fmap in Ht. destruct (ts !! t) as [tcb|] eqn:E; [|done]. injection Ht as <-. eauto.
  - intros (t & tcb & Ht & <-). exists t. by rewrite lookup_fmap, Ht.
Qed.

Lemma live_with_inner ts t tcb i : ts !! t = Some tcb -> live (<[t := with_inner tcb i]> ts) = live ts.
Proof.
  intros Ht. unfold live. f_equal. rewrite fmap_insert. cbn [with_inner pid]. apply insert_id. by rewrite lookup_fmap, Ht.
Qed.

Lemma live_insert ts t tcb : ts !! t = None -> live (<[t := tcb]> ts) = {[pid tcb]} ∪ live ts.
Proof.
  intros Ht. apply set_eq. intros p. rewrite elem_of_union, elem_of_singleton, !elem_of_live. split.
  - intros (t' & tcb' & H1 & H2). rewrite lookup_insert in H1. destruct (decide (t = t')); [left; congruence|right; eauto].
  - intros [->|(t' & tcb' & H1 & H2)]; [exists t, tcb; by rewrite lookup_insert_eq|]. exists t', tcb'. split; [|done]. rewrite lookup_insert_ne; [done|congruence].
Qed.

(** ** Memory *)

(** The address space of a task that has not exited. *)
Record user_ok (s : Z) (ms : MemorySet) (ppn : Z) (v : aspace) : Prop := {
  uo_pt : as_pt v = page_table ms;
  uo_wf : ms_wf ms (as_G v) (as_D v);
  uo_framed : Forall (fun a => map_type a = Framed) (areas ms);
  uo_tramp : as_G v !! trampoline_vpn = Some (trampoline_pte s);
  uo_context : as_D v !! context_vpn = Some ppn;
  uo_closed : pte_flags <$> as_G v !! context_vpn = Some (Z.lor (Z.lor MP_R MP_W) PTE_V);   (* not for the program *)
}.

(** That of one that has: only the tables are left. *)
Record dead_ok (ms : MemorySet) (v : aspace) : Prop := {
  do_pt : as_pt v = page_table ms;
  do_areas : areas ms = [];
  do_data : as_D v = ∅;
}.

Definition task_ok (s : Z) (tcb : TaskControlBlock) (v : aspace) : Prop :=
  let i := inner tcb in
  if decide (task_status i = Zombie) then dead_ok (memory_set i) v else user_ok s (memory_set i) (trap_cx_ppn i) v.

Lemma task_ok_same s tcb tcb' v : task_ok s tcb v -> memory_set (inner tcb') = memory_set (inner tcb) ->
  trap_cx_ppn (inner tcb') = trap_cx_ppn (inner tcb) -> (task_status (inner tcb') = Zombie <-> task_status (inner tcb) = Zombie) ->
  task_ok s tcb' v.
Proof.
  unfold task_ok. intros Hok Hm Hp Hz. rewrite Hm, Hp. destruct (decide (task_status (inner tcb) = Zombie)), (decide (task_status (inner tcb') = Zombie)); tauto.
Qed.

Section Inv.
Context {St F : Type} `{BlockStoreSpec St} `{FrameAllocatorSpec F}.
Variables (env : Env) (lo hi N : Z) (base : list (VPNRange * MapType * Z)).
Implicit Types (k : Kernel St F) (W : gmap (option nat) aspace) (v : aspace) (ts : gmap nat TaskControlBlock).

(** The spaces of [W] are that of the kernel ([None]) and those of the tasks. *)
Record mem_inv (m : Machine F) (ks : MemorySet) (pids : PidAllocator) ts W : Prop := {
  mi_world : world lo hi m W;
  mi_kernel : exists v ps, W !! None = Some v /\ kernel_ok base ks v ps /\ forall p, p ∈ ps <-> p ∈ live ts;
  mi_dom t : is_Some (W !! Some t) <-> is_Some (ts !! t);
  mi_task t tcb v : ts !! t = Some tcb -> W !! Some t = Some v -> task_ok (tramp env) tcb v;
  mi_pids : pids_ok pids (live ts);
  mi_pid_inj t t' tcb tcb' : ts !! t = Some tcb -> ts !! t' = Some tcb' -> pid tcb = pid tcb' -> t = t';
  mi_stack t tcb : ts !! t = Some tcb -> kernel_stack tcb = pid tcb;
  mi_current : pid_current pids <= hi - lo;
}.

(** ** The scheduler *)

(** A byte range of the task's memory, outside its trap context. *)
Definition place_ok v (s : UserSlice) : Prop :=
  (exists x, x <> context_vpn /\ as_D v !! x = Some (sl_page s)) /\ 0 <= sl_from s < sl_to s /\ sl_to s <= 4096.

Definition resumable v (cx : TaskContext) : Prop :=
  match cx with
  | goto_trap_return _ | suspended InYield | suspended InTimer => True
  | suspended (InStdin user_buf) => exists s, user_buf = [s] /\ place_ok v s /\ slice_len s = 1
  | zero_init | in_run_tasks => False
  end.

Record sched_inv ts (q : list nat) (r : option nat) W : Prop := {
  sc_nodup : NoDup q;
  sc_queue t : t ∈ q <-> exists tcb, ts !! t = Some tcb /\ task_status (inner tcb) = Ready;
  sc_running t : r = Some t <-> exists tcb, ts !! t = Some tcb /\ task_status (inner tcb) = Running;
  sc_resume t tcb v : ts !! t = Some tcb -> task_status (inner tcb) = Ready -> W !! Some t = Some v -> resumable v (task_cx (inner tcb));
}.

(** ** Parents and children *)
Record tree_inv ts (init : nat) : Prop := {
  tr_init : exists tcb, ts !! init = Some tcb /\ pid tcb = IDLE_PID /\ task_status (inner tcb) <> Zombie /\ parent (inner tcb) = None;
  tr_child t tcb c : ts !! t = Some tcb -> c ∈ children (inner tcb) -> exists ctcb, ts !! c = Some ctcb /\ parent (inner ctcb) = Some t;
  tr_nodup t tcb : ts !! t = Some tcb -> NoDup (children (inner tcb));
  tr_parent t tcb : ts !! t = Some tcb -> t <> init ->
    exists p ptcb, parent (inner tcb) = Some p /\ ts !! p = Some ptcb /\ t ∈ children (inner ptcb);
  tr_zombie t tcb : ts !! t = Some tcb -> task_status (inner tcb) = Zombie -> children (inner tcb) = [];
  tr_self t tcb : ts !! t = Some tcb -> t ∉ children (inner tcb);
}.

(** ** Files *)
Record file_inv (d : St) (fs : EasyFileSystem) ts (fl : gmap nat OSInode) (l : directory) (a : named_files) : Prop := {
  fi_wf : wf d;
  fi_held : held d = ∅;
  fi_view : fs_view (content d) fs N l a;
  fi_files r f : fl !! r = Some f -> 0 <= os_offset f /\ exists name i, assoc name l = Some i /\ os_inode f = vinode fs i;
  fi_fds t tcb r : ts !! t = Some tcb -> Some (OSFile r) ∈ fd_table (inner tcb) -> is_Some (fl !! r);
}.

(** ** The whole *)
Record kinv k W (l : directory) (a : named_files) : Prop := {
  ki_borrows : borrows k = [];
  ki_mem : mem_inv (machine k) (kernel_space k) (pid_allocator k) (tasks k) W;
  ki_sched : sched_inv (tasks k) (ready_queue k) (running (processor k)) W;
  ki_tree : tree_inv (tasks k) (initproc k);
  ki_file : file_inv (disk k) (root_fs k) (tasks k) (files k) l a;
  ki_fresh t : is_Some (tasks k !! t) -> (t < next_ref k)%nat;
  ki_fresh_file r : is_Some (files k !! r) -> (r < next_ref k)%nat;
}.

(** ** A change of one task that keeps its memory *)
Lemma mem_inv_task m ks pids ts W t tcb i : mem_inv m ks pids ts W -> ts !! t = Some tcb ->
  memory_set i = memory_set (inner tcb) -> trap_cx_ppn i = trap_cx_ppn (inner tcb) ->
  (task_status i = Zombie <-> task_status (inner tcb) = Zombie) -> mem_inv m ks pids (<[t := with_inner tcb i]> ts) W.
Proof.
  intros [HW Hk Hd Ht Hp Hi Hs Hc] Htt Hm Hx Hz. split; [done| | | | | | |done].
  - by rewrite live_with_inner.
  - intros t'. rewrite Hd, lookup_insert. destruct (decide (t = t')) as [<-|]; [|done]. rewrite Htt. split; eauto.
  - intros t' tcb' v'. rewrite lookup_insert. destruct (decide (t = t')) as [<-|]; [|apply Ht]. intros [= <-] Hv.
    by apply (task_ok_same _ tcb); [by apply (Ht t)| | |].
  - by rewrite live_with_inner.
  - assert (Hrw : forall u x, <[t := with_inner tcb i]> ts !! u = Some x -> exists y, ts !! u = Some y /\ pid y = pid x).
    { intros u x. rewrite lookup_insert. destruct (decide (t = u)) as [<-|]; [intros [= <-]; eauto|eauto]. }
    intros u u' x x' (y & Hy & Ey)%Hrw (y' & Hy' & Ey')%Hrw E. apply (Hi u u' y y'); congruence.
  - intros u x. rewrite lookup_insert. destruct (decide (t = u)) as [<-|]; [|apply Hs]. intros [= <-]. cbn. by apply (Hs t).
Qed.

(** The same for the children, the parent and the state of the task. *)
Lemma tree_inv_task ts init t tcb i : tree_inv ts init -> ts !! t = Some tcb ->
  children i = children (inner tcb) -> parent i = parent (inner tcb) ->
  (task_status i = Zombie <-> task_status (inner tcb) = Zombie) -> tree_inv (<[t := with_inner tcb i]> ts) init.
Proof.
  intros [(ti & Hti & Hpi & Hzi & Hri) Hc Hnd Hp Hz Hs] Ht Hch Hpa Hzz.
  assert (Hback : forall u x, <[t := with_inner tcb i]> ts !! u = Some x -> exists y, ts !! u = Some y /\ pid y = pid x /\
    children (inner x) = children (inner y) /\ parent (inner x) = parent (inner y) /\
    (task_status (inner x) = Zombie <-> task_status (inner y) = Zombie)).
  { intros u x. rewrite lookup_insert. destruct (decide (t = u)) as [<-|]; [intros [= <-]; exists tcb; by split_and!|eauto 10]. }
  assert (Hfwd : forall u y, ts !! u = Some y -> exists x, <[t := with_inner tcb i]> ts !! u = Some x /\ pid y = pid x /\
    children (inner x) = children (inner y) /\ parent (inner x) = parent (inner y) /\
    (task_status (inner x) = Zombie <-> task_status (inner y) = Zombie)).
  { intros u y Hy. rewrite lookup_insert. destruct (decide (t = u)) as [<-|]; [|eauto 10]. exists (with_inner tcb i). assert (y = tcb) as -> by congruence. by split_and!. }
  split.
  - destruct (Hfwd _ _ Hti) as (x & Hx & E1 & E2 & E3 & E4). exists x. split_and!; [done|congruence|tauto|congruence].
  - intros u x c (y & Hy & E1 & E2 & E3 & E4)%Hback. rewrite E2. intros Hin. destruct (Hc _ _ _ Hy Hin) as (z & Hzz' & Hpz).
    destruct (Hfwd _ _ Hzz') as (z' & Hz' & F1 & F2 & F3 & F4). exists z'. split; [done|congruence].
  - intros u x (y & Hy & E1 & E2 & E3 & E4)%Hback. rewrite E2. by apply (Hnd u).
  - intros u x (y & Hy & E1 & E2 & E3 & E4)%Hback Hne. destruct (Hp _ _ Hy Hne) as (p & pt & Hpp & Hpt & Hin).
    destruct (Hfwd _ _ Hpt) as (z' & Hz' & F1 & F2 & F3 & F4). exists p, z'. split_and!; [congruence|done|by rewrite F2].
  - intros u x (y & Hy & E1 & E2 & E3 & E4)%Hback Hzx. rewrite E2. apply (Hz u y Hy). tauto.
  - intros u x (y & Hy & E1 & E2 & E3 & E4)%Hback. rewrite E2. by apply (Hs u).
Qed.

Lemma sched_inv_task ts q r W t tcb i : sched_inv ts q r W -> ts !! t = Some tcb ->
  task_status i = task_status (inner tcb) -> task_cx i = task_cx (inner tcb) -> sched_inv (<[t := with_inner tcb i]> ts) q r W.
Proof.
  intros [Hnd Hq Hr Hre] Ht Hs Hc.
  assert (He : forall u s, (exists y, <[t := with_inner tcb i]> ts !! u = Some y /\ task_status (inner y) = s) <-> (exists x, ts !! u = Some x /\ task_status (inner x) = s)).
  { intros u s. rewrite lookup_insert. destruct (decide (t = u)) as [<-|]; [|done]. rewrite Ht. split; intros (x & [= <-] & E); eexists; (split; [done|]); cbn in *; congruence. }
  split; [done|intros u; by rewrite He|intros u; by rewrite He|]. intros u x v. rewrite lookup_insert. destruct (decide (t = u)) as [<-|]; [|apply Hre].
  intros [= <-]. cbn. rewrite Hs, Hc. by apply Hre.
Qed.

Lemma file_inv_task d fs ts fl l a t tcb i : file_inv d fs ts fl l a -> ts !! t = Some tcb ->
  (forall r, Some (OSFile r) ∈ fd_table i -> is_Some (fl !! r)) -> file_inv d fs (<[t := with_inner tcb i]> ts) fl l a.
Proof.
  intros [Hw Hh Hv Hf Hfds] Ht Hfd. split; [done..|]. intros u x r. rewrite lookup_insert. destruct (decide (t = u)) as [<-|]; [|apply Hfds].
  intros [= <-]. apply Hfd.
Qed.

(** New page contents. *)
Lemma mem_inv_pages m m' ks pids ts W i v P : mem_inv m ks pids ts W -> W !! i = Some v -> let v' := mkSpace (as_pt v) (as_G v) (as_D v) P in
  world lo hi m' (<[i := v']> W) -> mem_inv m' ks pids ts (<[i := v']> W).
Proof.
  intros [HW Hk Hd Ht Hp Hi Hs Hc] Hv v' HW'. split; [done| | | |done|done|done|done].
  - destruct Hk as (u & ps & Hu & Hko & Hps). destruct (decide (i = None)) as [->|Hne].
    + exists v', ps. rewrite lookup_insert_eq. split_and!; [done| |done]. assert (u = v) as -> by congruence. by destruct Hko.
    + exists u, ps. by rewrite lookup_insert_ne.
  - intros t. rewrite <- Hd, lookup_insert. destruct (decide (i = Some t)) as [->|]; [|done]. rewrite Hv. split; eauto.
  - intros t tcb u Htt. rewrite lookup_insert. destruct (decide (i = Some t)) as [->|]; [|by apply Ht]. intros [= <-].
    pose proof (Ht t tcb v Htt Hv) as Hok. unfold task_ok in *. destruct (decide _); destruct Hok; by split.
Qed.

Lemma mem_inv_world m m' ks pids ts W i v x b : mem_inv m ks pids ts W -> W !! i = Some v ->
  world lo hi m' (<[i := set_page v x b]> W) -> mem_inv m' ks pids ts (<[i := set_page v x b]> W).
Proof. intros Hm Hv. by apply (mem_inv_pages m). Qed.

Lemma sched_inv_pages ts q r W i v P : sched_inv ts q r W -> W !! i = Some v -> sched_inv ts q r (<[i := mkSpace (as_pt v) (as_G v) (as_D v) P]> W).
Proof.
  intros [Hnd Hq Hru Hre] Hv. split; [done..|]. intros t tcb u Ht Hr. rewrite lookup_insert. destruct (decide (i = Some t)) as [->|]; [|by apply Hre].
  intros [= <-]. apply (Hre t tcb v Ht Hr Hv).
Qed.

Lemma sched_inv_page ts q r W i v x b : sched_inv ts q r W -> W !! i = Some v -> sched_inv ts q r (<[i := set_page v x b]> W).
Proof. apply sched_inv_pages. Qed.

(** ** Consequences *)
Section Facts.
Variables (k : Kernel St F) (W : gmap (option nat) aspace) (l : directory) (a : named_files).
Hypothesis Hk : kinv k W l a.

(** A task has a space; that of a task that has not exited is a user space. *)
Lemma task_space t tcb : tasks k !! t = Some tcb -> exists v, W !! Some t = Some v /\ task_ok (tramp env) tcb v.
Proof.
  intros Ht. destruct (proj2 (mi_dom _ _ _ _ _ (ki_mem _ _ _ _ Hk) t)) as [v Hv]; [eauto|]. exists v. split; [done|]. by apply (mi_task _ _ _ _ _ (ki_mem _ _ _ _ Hk) t).
Qed.

Lemma user_space t tcb : tasks k !! t = Some tcb -> task_status (inner tcb) <> Zombie ->
  exists v, W !! Some t = Some v /\ user_ok (tramp env) (memory_set (inner tcb)) (trap_cx_ppn (inner tcb)) v.
Proof.
  intros Ht Hz. destruct (task_space t tcb Ht) as (v & Hv & Hok). exists v. split; [done|]. unfold task_ok in Hok. by rewrite decide_False in Hok.
Qed.

(** The running task. *)
Lemma running_task t : running (processor k) = Some t -> exists tcb v, tasks k !! t = Some tcb /\ task_status (inner tcb) = Running /\
  W !! Some t = Some v /\ user_ok (tramp env) (memory_set (inner tcb)) (trap_cx_ppn (inner tcb)) v.
Proof.
  intros Hr. apply (sc_running _ _ _ _ (ki_sched _ _ _ _ Hk)) in Hr as (tcb & Ht & Hs). destruct (user_space t tcb Ht) as (v & Hv & Hok); [congruence|]. eauto 10.
Qed.

Lemma no_borrow c : c ∉ borrows k.
Proof. rewrite (ki_borrows _ _ _ _ Hk). apply not_elem_of_nil. Qed.

End Facts.
End Inv.
