(* ===== verification/KSched.v ===== *)
(** * The scheduler and the return to user mode keep the invariant *)

From S2P Require Import Prelude BlockDev BlockStore Layout Efs Vfs FsInv FsUpdate FsOps FsDir FsSpec FsRefine Address Frames PageTable PtInv PtOps Space MemorySet AreaOps MsOps MsLife World Kernel OsInode Task Syscall Pids CxMem KLogic KInv.

(** The trap context of a task, in its address space. *)
Definition space_cx (v : aspace) : option TrapContext := page_cx <$> as_P v !! context_vpn.

Definition set_cx (v : aspace) (f : TrapContext -> TrapContext) : aspace :=
  match as_P v !! context_vpn with
  | Some b => set_page v context_vpn (put_cx b (f (page_cx b)))
  | None => v
  end.

Section Sched.
Context {St F : Type} `{BlockStoreSpec St} `{FrameAllocatorSpec F}.
Variables (env : Env) (lo hi N : Z) (base : list (VPNRange * MapType * Z)).
Hypothesis Hlo : 0 < lo.
Implicit Types (k : Kernel St F) (W : gmap (option nat) aspace) (v : aspace).
Abbreviation kinv := (kinv env lo hi N base).

(** ** Fields the invariant does not mention *)
Lemma kinv_stvec k W l a x : kinv k W l a -> kinv (set_stvec k x) W l a.
Proof. by intros []; split. Qed.
Lemma kinv_timer k W l a x : kinv k W l a -> kinv (set_timer k x) W l a.
Proof. by intros []; split. Qed.
Lemma kinv_reads k W l a x : kinv k W l a -> kinv (set_reads k x) W l a.
Proof. by intros []; split. Qed.
Lemma kinv_console k W l a x : kinv k W l a -> kinv (set_console k x) W l a.
Proof. by intros []; split. Qed.

(** ** Suspension *)
Definition suspended_state k (t : nat) (tcb : TaskControlBlock) (s : suspension) : Kernel St F :=
  set_tasks (set_ready_queue (set_processor k (mkProcessor None (idle_task_cx (processor k)))) (ready_queue k ++ [t]))
    (<[t := with_inner tcb (set_task_cx (set_status (inner tcb) Ready) (suspended s))]> (tasks k)).

Lemma sched_suspend ts q t tcb s W v : sched_inv ts q (Some t) W -> ts !! t = Some tcb -> W !! Some t = Some v -> resumable v (suspended s) ->
  sched_inv (<[t := with_inner tcb (set_task_cx (set_status (inner tcb) Ready) (suspended s))]> ts) (q ++ [t]) None W.
Proof.
  intros [Hnd Hq Hr Hre] Ht Hv Hs. destruct (proj1 (Hr t) eq_refl) as (tcb' & Ht' & Hst). assert (tcb' = tcb) as -> by congruence.
  assert (Htq : t ∉ q) by (rewrite Hq; intros (x & Hx & Hxs); congruence). split.
  - apply NoDup_app. split_and!; [done| |apply NoDup_singleton]. by intros x Hx ->%list_elem_of_singleton.
  - intros u. rewrite elem_of_app, list_elem_of_singleton, Hq. destruct (decide (u = t)) as [->|Hne].
    + rewrite lookup_insert_eq. split; [eauto|by right].
    + rewrite lookup_insert_ne by done. naive_solver.
  - intros u. split; [done|]. destruct (decide (u = t)) as [->|Hne].
    + rewrite lookup_insert_eq. intros (x & [= <-] & Hx). done.
    + rewrite lookup_insert_ne by done. intros Hu. apply Hr in Hu. congruence.
  - intros u x w. destruct (decide (u = t)) as [->|Hne].
    + rewrite lookup_insert_eq. intros [= <-] _ Hw. cbn. by replace w with v by congruence.
    + rewrite lookup_insert_ne by done. apply Hre.
Qed.

Lemma suspend_inv k W l a t s v : kinv k W l a -> running (processor k) = Some t -> W !! Some t = Some v -> resumable v (suspended s) ->
  exists tcb, tasks k !! t = Some tcb /\ suspend_current_and_run_next s k = Ok (Switched, suspended_state k t tcb s) /\
    kinv (suspended_state k t tcb s) W l a.
Proof.
  intros Hk Hr Hv Hs. destruct (running_task _ _ _ _ _ _ _ _ _ Hk t Hr) as (tcb & v' & Ht & Hst & Hv' & Hok).
  exists tcb. split_and!; [done|by apply suspend_ok; [apply Hk|..]|].
  destruct Hk as [Hb Hm Hsc Htr Hf Hfr Hff]. rewrite Hr in Hsc. split; cbn; [done| | | | | |done].
  - apply mem_inv_task; [done|done|done|done|]. cbn. by rewrite Hst.
  - by apply (sched_suspend _ _ _ _ _ _ v).
  - apply tree_inv_task; [done|done|done|done|]. cbn. by rewrite Hst.
  - apply file_inv_task; [done|done|]. cbn. intros r Hin. by apply (fi_fds _ _ _ _ _ _ _ Hf t tcb).
  - intros u. rewrite lookup_insert. destruct (decide (t = u)) as [<-|]; [|apply Hfr]. intros _. apply Hfr. eauto.
Qed.

(** ** One round of [run_tasks] *)
Definition scheduled_state k (t : nat) (q : list nat) (tcb : TaskControlBlock) : Kernel St F :=
  set_processor (set_tasks (set_ready_queue k q) (<[t := with_inner tcb (set_status (inner tcb) Running)]> (tasks k)))
    (mkProcessor (Some t) in_run_tasks).

Lemma sched_run ts t q tcb W : sched_inv ts (t :: q) None W -> ts !! t = Some tcb ->
  sched_inv (<[t := with_inner tcb (set_status (inner tcb) Running)]> ts) q (Some t) W.
Proof.
  intros [Hnd Hq Hr Hre] Ht. apply NoDup_cons in Hnd as [Htq Hnd].
  assert (Hst : task_status (inner tcb) = Ready). { destruct (proj1 (Hq t)) as (x & Hx & ?); [left|]. congruence. } split; [done| | |].
  - intros u. destruct (decide (u = t)) as [->|Hne].
    + rewrite lookup_insert_eq. split; [done|]. intros (x & [= <-] & Hx). done.
    + rewrite lookup_insert_ne, <- Hq, elem_of_cons by done. naive_solver.
  - intros u. destruct (decide (u = t)) as [->|Hne].
    + rewrite lookup_insert_eq. split; [eauto|done].
    + rewrite lookup_insert_ne, <- Hr by done. naive_solver.
  - intros u x w. destruct (decide (u = t)) as [->|Hne].
    + rewrite lookup_insert_eq. intros [= <-]. done.
    + rewrite lookup_insert_ne by done. apply Hre.
Qed.

Lemma run_round_inv k W l a t q : kinv k W l a -> running (processor k) = None -> ready_queue k = t :: q ->
  exists tcb v, tasks k !! t = Some tcb /\ W !! Some t = Some v /\ resumable v (task_cx (inner tcb)) /\
    run_tasks_round k = Ok (Some t, scheduled_state k t q tcb) /\ kinv (scheduled_state k t q tcb) W l a.
Proof.
  intros Hk Hr Hq. pose proof Hk as [Hb Hm Hsc Htr Hf Hfr Hff]. rewrite Hq, Hr in Hsc.
  destruct (proj1 (sc_queue _ _ _ _ Hsc t)) as (tcb & Ht & Hst); [left|]. destruct (task_space _ _ _ _ _ _ _ _ _ Hk t tcb Ht) as (v & Hv & Hok).
  exists tcb, v. split_and!; [done|done|by eapply (sc_resume _ _ _ _ Hsc)|by apply run_round_ok|].
  split; cbn; [done| | | | | |done].
  - apply mem_inv_task; [done|done|done|done|]. cbn. by rewrite Hst.
  - by apply sched_run.
  - apply tree_inv_task; [done|done|done|done|]. cbn. by rewrite Hst.
  - apply file_inv_task; [done|done|]. cbn. intros r Hin. by apply (fi_fds _ _ _ _ _ _ _ Hf t tcb).
  - intros u. rewrite lookup_insert. destruct (decide (t = u)) as [<-|]; [|apply Hfr]. intros _. apply Hfr. eauto.
Qed.

(** ** Trap contexts *)
Lemma page_inv k W l a i v x b m' : kinv k W l a -> W !! i = Some v -> world lo hi m' (<[i := set_page v x b]> W) ->
  kinv (set_machine k m') (<[i := set_page v x b]> W) l a.
Proof.
  intros [Hb Hm Hsc Htr Hf Hfr Hff] Hv HW. split; cbn; [done| | |done|done|done|done].
  - by apply (mem_inv_world env lo hi base (machine k)).
  - by apply sched_inv_page.
Qed.

Lemma context_page k W l a t tcb v : kinv k W l a -> tasks k !! t = Some tcb -> W !! Some t = Some v ->
  user_ok (tramp env) (memory_set (inner tcb)) (trap_cx_ppn (inner tcb)) v ->
  exists b, as_P v !! context_vpn = Some b /\ length b = page_len.
Proof.
  intros Hk Ht Hv Hok. destruct (world_page lo hi _ _ _ _ _ _ (mi_world _ _ _ _ _ _ _ _ _ (ki_mem _ _ _ _ _ _ _ _ _ Hk)) Hv (uo_context _ _ _ _ Hok)) as (b & Hb & _ & Hl).
  eauto.
Qed.

Lemma task_cx_modify k W l a t tcb v f : kinv k W l a -> tasks k !! t = Some tcb -> W !! Some t = Some v ->
  user_ok (tramp env) (memory_set (inner tcb)) (trap_cx_ppn (inner tcb)) v -> (forall cx, cx_ok cx -> cx_ok (f cx)) ->
  exists m' cx, on_machine (modify_cx (trap_cx_ppn (inner tcb)) f) k = Ok (tt, set_machine k m') /\
    kinv (set_machine k m') (<[Some t := set_cx v f]> W) l a /\ space_cx v = Some cx /\ cx_ok cx /\ space_cx (set_cx v f) = Some (f cx).
Proof.
  intros Hk Ht Hv Hok Hf. destruct (context_page _ _ _ _ _ _ _ Hk Ht Hv Hok) as (b & Hb & Hl).
  pose proof (mi_world _ _ _ _ _ _ _ _ _ (ki_mem _ _ _ _ _ _ _ _ _ Hk)) as HW.
  destruct (modify_cx_ok lo hi Hlo _ _ _ v context_vpn _ b f HW Hv (uo_context _ _ _ _ Hok) Hb (Hf _)) as (m' & E & HW').
  exists m', (page_cx b). unfold set_cx, space_cx. rewrite Hb. split_and!; [by apply on_machine_ok| |done|by apply page_cx_ok|].
  - by apply page_inv.
  - cbn. rewrite lookup_insert_eq. cbn. f_equal. apply page_put_cx; [done|]. by apply Hf, page_cx_ok.
Qed.

Lemma task_cx_read k W l a t tcb v : kinv k W l a -> tasks k !! t = Some tcb -> W !! Some t = Some v ->
  user_ok (tramp env) (memory_set (inner tcb)) (trap_cx_ppn (inner tcb)) v ->
  exists cx, on_machine (read_cx (trap_cx_ppn (inner tcb))) k = Ok (cx, k) /\ space_cx v = Some cx /\ cx_ok cx.
Proof.
  intros Hk Ht Hv Hok. destruct (context_page _ _ _ _ _ _ _ Hk Ht Hv Hok) as (b & Hb & Hl).
  pose proof (mi_world _ _ _ _ _ _ _ _ _ (ki_mem _ _ _ _ _ _ _ _ _ Hk)) as HW.
  pose proof (read_cx_ok lo hi Hlo _ _ _ v context_vpn _ b HW Hv (uo_context _ _ _ _ Hok) Hb) as E.
  exists (page_cx b). unfold space_cx. rewrite Hb. split_and!; [|done|by apply page_cx_ok].
  rewrite (on_machine_ok _ _ _ _ E). do 2 f_equal. by destruct k.
Qed.

(** ** The way back to user mode *)
Definition restore_to (v : aspace) : control :=
  Restore (w64 (restore_offset env + TRAMPOLINE)) TRAP_CONTEXT (token (as_pt v)).

Lemma trap_return_inv k W l a t v : kinv k W l a -> running (processor k) = Some t -> W !! Some t = Some v ->
  trap_return env k = Ok (restore_to v, set_stvec k FromUser) /\ kinv (set_stvec k FromUser) W l a.
Proof.
  intros Hk Hr Hv. split; [|by apply kinv_stvec]. destruct (running_task _ _ _ _ _ _ _ _ _ Hk t Hr) as (tcb & v' & Ht & _ & Hv' & Hok).
  unfold trap_return, set_user_trap_entry. rewrite update_bind. erewrite bind_Ok; [|apply (current_user_token_ok t tcb)]; [..|done|done].
  - unfold restore_to, ms_token. replace v with v' by congruence. by rewrite (uo_pt _ _ _ _ Hok).
  - cbn. by eapply no_borrow.
  - cbn. by eapply no_borrow.
Qed.

Lemma is_u64_w64 z : is_u64 (w64 z).
Proof. apply w64_range. Qed.

Lemma syscall_return_inv k W l a t v r : kinv k W l a -> running (processor k) = Some t -> W !! Some t = Some v ->
  exists m', let v' := set_cx v (fun cx => set_x cx 10 (w64 r)) in let k' := set_stvec (set_machine k m') FromUser in
    syscall_return env r k = Ok (restore_to v', k') /\ kinv k' (<[Some t := v']> W) l a /\
    exists cx, space_cx v = Some cx /\ space_cx v' = Some (set_x cx 10 (w64 r)).
Proof.
  intros Hk Hr Hv. destruct (running_task _ _ _ _ _ _ _ _ _ Hk t Hr) as (tcb & v' & Ht & _ & Hv' & Hok). assert (v' = v) as -> by congruence.
  destruct (task_cx_modify k W l a t tcb v (fun cx => set_x cx 10 (w64 r)) Hk Ht Hv Hok) as (m' & cx & E & Hk' & Hc & _ & Hc').
  { intros cx Hcx. apply cx_ok_set_x; [done|apply is_u64_w64]. }
  exists m'. cbv zeta. destruct (trap_return_inv _ _ _ _ t (set_cx v (fun cx => set_x cx 10 (w64 r))) Hk') as [E2 Hk2]; [done|apply lookup_insert_eq|].
  split_and!; [|done|by exists cx]. unfold syscall_return. rewrite (bind_Ok _ _ _ _ _ (current_trap_cx_ok t tcb k (no_borrow _ _ _ _ _ _ _ _ _ Hk _) (no_borrow _ _ _ _ _ _ _ _ _ Hk _) Hr Ht)).
  by rewrite (bind_Ok _ _ _ _ _ E).
Qed.

End Sched.
