(* ===== verification/KProc.v ===== *)
(** * Address spaces of tasks: creation, replacement and removal *)

From S2P Require Import Prelude BlockDev BlockStore Layout Efs Vfs FsInv FsUpdate FsOps FsDir FsSpec FsRefine Address Frames PageTable PtInv PtOps Space MemorySet AreaOps MsOps MsLife World Kernel OsInode Task Syscall Pids CxMem KLogic KInv KSched.

(** ** Counting *)
Section Count.
Context {F : Type} `{FrameAllocatorSpec F} {K : Type} `{Countable K}.

(** Every space has a frame of its own. *)
Lemma spaces_in_use lo hi (m : Machine F) (W : gmap K aspace) : world lo hi m W -> Z.of_nat (base.size W) <= in_use W.
Proof.
  intros HW.
  assert (Hne : forall i v, W !! i = Some v -> exists p, p ∈ owns v).
  { intros i v Hi. destruct (sp_tables _ _ _ _ _ _ _ _ (w_space _ _ _ _ HW i v Hi)) as (T & HT & Hf & _). exists (root_ppn (as_pt v)).
    unfold owns. apply elem_of_owned. left. apply Hf. apply elem_of_map_img. eexists. apply (pt_root _ _ _ HT). }
  pose proof (fun i j v w => world_disj lo hi m W i j v w HW) as Hdj. unfold in_use. apply inj_le. clear HW.
  induction W as [|i v W Hi IH] using map_ind; [rewrite map_size_empty; lia|].
  rewrite total_insert, map_size_insert_None by done. destruct (Hne i v) as [p Hp]; [apply lookup_insert_eq|].
  assert (Hd : owns v ## total W).
  { intros q Hq (j & w & Hj & Hw)%elem_of_total. assert (i <> j) by congruence.
    apply (Hdj i j v w (lookup_insert_eq _ _ _) ltac:(by rewrite lookup_insert_ne) ltac:(done) q Hq Hw). }
  rewrite size_union by done. assert (Hs : (1 <= base.size (owns v))%nat).
  { destruct (base.size (owns v)) eqn:E; [|lia]. apply size_empty_inv in E. set_solver. }
  enough (base.size W <= base.size (total W))%nat by lia. apply IH.
  - intros j w Hj. apply (Hne j w). rewrite lookup_insert_ne; [done|congruence].
  - intros j j' w w' Hj Hj'. apply Hdj; (rewrite lookup_insert_ne; [done|congruence]).
Qed.
End Count.

Lemma live_size (ts : gmap nat TaskControlBlock) n : (forall q, 0 <= q < n -> q ∈ live ts) -> n <= Z.of_nat (base.size ts).
Proof.
  intros Hq. destruct (Z.lt_ge_cases n 0); [lia|].
  assert (Hs : seqZ 0 n ⊆+ (fun e => pid e.2) <$> map_to_list ts).
  { apply NoDup_submseteq; [apply NoDup_seqZ|]. intros q Hin%elem_of_seqZ. destruct (proj1 (elem_of_live ts q)) as (t & tcb & Ht & <-); [apply Hq; lia|].
    apply list_elem_of_fmap. exists (t, tcb). split; [done|]. by apply elem_of_map_to_list. }
  apply submseteq_length in Hs. rewrite length_seqZ, length_fmap, length_map_to_list in Hs. lia.
Qed.

Section Proc.
Context {St F : Type} `{BlockStoreSpec St} `{FrameAllocatorSpec F}.
Variables (env : Env) (lo hi N : Z) (base : list (VPNRange * MapType * Z)).
Hypothesis Hlow : low base.
Hypothesis Hsmall : hi - lo <= max_pid.
Implicit Types (k : Kernel St F) (W : gmap (option nat) aspace) (v : aspace) (ts : gmap nat TaskControlBlock).
Abbreviation mem_inv := (mem_inv env lo hi base).

Lemma mem_room m ks pids ts W : mem_inv m ks pids ts W -> Z.of_nat (base.size ts) + 1 <= in_use W.
Proof.
  intros [HW (v & ps & Hv & _) Hd _ _ _ _ _]. etransitivity; [|by eapply spaces_in_use].
  assert (Hs : None :: (Some <$> (map_to_list ts).*1) ⊆+ (map_to_list W).*1).
  { apply NoDup_submseteq.
    - apply NoDup_cons. split; [by intros (t & ? & _)%list_elem_of_fmap|]. apply NoDup_fmap_2; [apply _|apply NoDup_fst_map_to_list].
    - assert (Hin : forall i, is_Some (W !! i) -> i ∈ (map_to_list W).*1).
      { intros i [w Hw]. apply list_elem_of_fmap. exists (i, w). split; [done|]. by apply elem_of_map_to_list. }
      intros i [->|(t & -> & ([u x] & -> & Hx%elem_of_map_to_list)%list_elem_of_fmap)%list_elem_of_fmap]%elem_of_cons; apply Hin; [eauto|]. apply Hd. eauto. }
  apply submseteq_length in Hs. cbn [length] in Hs. rewrite !length_fmap, !length_map_to_list in Hs. lia.
Qed.

(** ** A new pid with its kernel stack *)
Lemma spawn_ok k W ts ps vk : world lo hi (machine k) W -> W !! None = Some vk -> kernel_ok base (kernel_space k) vk ps ->
  (forall p, p ∈ ps <-> p ∈ live ts) -> pids_ok (pid_allocator k) (live ts) -> pid_current (pid_allocator k) <= hi - lo ->
  Z.of_nat (base.size ts) + 1 <= hi - lo -> in_use W + 6 <= hi - lo -> PID_ALLOCATOR ∉ borrows k -> KERNEL_SPACE ∉ borrows k ->
  exists p a' ks' m' vk',
    pid_alloc k = Ok (p, set_pid_allocator k a') /\
    kernel_stack_new p (set_pid_allocator k a') = Ok (p, set_kernel_space (set_machine (set_pid_allocator k a') m') ks') /\
    (p ∉ live ts) /\ 0 <= p < max_pid /\ pids_ok a' ({[p]} ∪ live ts) /\ pid_current a' <= hi - lo /\
    kernel_ok base ks' vk' (ps ++ [p]) /\ world lo hi m' (<[None := vk']> W) /\ root_ppn (page_table ks') = root_ppn (page_table (kernel_space k)) /\
    in_use (<[None := vk']> W) <= in_use W + 6.
Proof.
  intros HW Hv Hko Hps Hpids Hcur Hsz Hroom Hb1 Hb2. unfold max_pid in Hsmall.
  destruct (pid_alloc_spec _ _ Hpids ltac:(lia)) as (p & a' & Ea & Hp & Hpr & Hpids' & Hc').
  assert (Hcur' : pid_current a' <= hi - lo). { destruct Hc' as [?|[? Hall]]; [lia|]. pose proof (live_size ts _ Hall). lia. }
  assert (Hpm : 0 <= p < max_pid) by (unfold max_pid; lia).
  destruct (kernel_stack_add base Hlow lo hi (machine k) _ _ vk ps p Hko (w_space _ _ _ _ HW None vk Hv) Hpm) as (ks' & m' & vk' & E & Hko' & Hsp' & Hs & _ & Hroot & Hu).
  { by rewrite Hps. } { by rewrite (used_in_use W None vk Hv). }
  exists p, a', ks', m', vk'. split_and!; [| |done|lia|lia|done|done|done|by eapply world_update|done|].
  - unfold pid_alloc. erewrite with_cell_ok; [|done|rewrite gets_bind; cbn [pid_allocator set_borrows]; rewrite Ea; reflexivity|done]. done.
  - unfold kernel_stack_new. destruct (kernel_stack_position p) as [bottom top] eqn:Epos. cbn [fst snd] in E.
    erewrite bind_Ok; [|erewrite with_cell_ok; [|done|rewrite gets_bind; erewrite bind_Ok; [|apply on_machine_ok; cbn; exact E]; reflexivity|done]; reflexivity].
    done.
  - rewrite <- (used_in_use _ None vk' (lookup_insert_eq _ _ _)), <- (used_in_use W None vk Hv). by rewrite delete_insert_eq.
Qed.

(** ** A task is added *)
Lemma mem_inv_add m m' ks ks' a a' ts W t tcb v vk' ps' : mem_inv m ks a ts W -> ts !! t = None ->
  world lo hi m' (<[None := vk']> (<[Some t := v]> W)) -> kernel_ok base ks' vk' ps' -> (forall p, p ∈ ps' <-> p = pid tcb \/ p ∈ live ts) ->
  pids_ok a' ({[pid tcb]} ∪ live ts) -> pid_current a' <= hi - lo -> pid tcb ∉ live ts -> kernel_stack tcb = pid tcb -> task_ok (tramp env) tcb v ->
  mem_inv m' ks' a' (<[t := tcb]> ts) (<[None := vk']> (<[Some t := v]> W)).
Proof.
  intros [HW Hk Hd Ht Hp Hi Hs Hc] Hn HW' Hko Hps Hpids Hcur Hnew Hst Hok. split; [done| | | | | | |done].
  - exists vk', ps'. rewrite lookup_insert_eq. split_and!; [done|done|]. intros p. rewrite Hps, live_insert by done. by rewrite elem_of_union, elem_of_singleton.
  - intros u. rewrite lookup_insert_ne by done. destruct (decide (u = t)) as [->|Hne]; [rewrite !lookup_insert_eq; split; eauto|].
    rewrite !lookup_insert_ne by congruence. apply Hd.
  - intros u x w. rewrite (lookup_insert_ne _ None) by done. destruct (decide (u = t)) as [->|Hne]; [rewrite !lookup_insert_eq; by intros [= <-] [= <-]|].
    rewrite !lookup_insert_ne by congruence. apply Ht.
  - by rewrite live_insert.
  - intros u u' x x'. destruct (decide (u = t)) as [->|Hne], (decide (u' = t)) as [->|Hne']; rewrite ?lookup_insert_eq, ?lookup_insert_ne by congruence; [done| | |apply Hi].
    + intros [= <-] Hx' E. exfalso. apply Hnew. rewrite E. apply elem_of_live. eauto.
    + intros Hx [= <-] E. exfalso. apply Hnew. rewrite <- E. apply elem_of_live. eauto.
  - intros u x. rewrite lookup_insert. destruct (decide (t = u)) as [<-|]; [by intros [= <-]|apply Hs].
Qed.

(** ** The memory of a task is replaced *)
Lemma mem_inv_replace m m' ks a ts W t tcb i v : mem_inv m ks a ts W -> ts !! t = Some tcb ->
  world lo hi m' (<[Some t := v]> W) -> task_ok (tramp env) (with_inner tcb i) v -> mem_inv m' ks a (<[t := with_inner tcb i]> ts) (<[Some t := v]> W).
Proof.
  intros [HW Hk Hd Ht Hp Hi Hs Hc] Htt HW' Hok. split; [done| | | | | | |done].
  - destruct Hk as (u & ps & Hu & Hko & Hps). exists u, ps. rewrite lookup_insert_ne by done. by rewrite live_with_inner.
  - intros u. destruct (decide (u = t)) as [->|Hne]; [rewrite !lookup_insert_eq; split; eauto|]. rewrite !lookup_insert_ne by congruence. apply Hd.
  - intros u x w. destruct (decide (u = t)) as [->|Hne]; [rewrite !lookup_insert_eq; by intros [= <-] [= <-]|]. rewrite !lookup_insert_ne by congruence. apply Ht.
  - by rewrite live_with_inner.
  - assert (Hrw : forall u x, <[t := with_inner tcb i]> ts !! u = Some x -> exists y, ts !! u = Some y /\ pid y = pid x).
    { intros u x. rewrite lookup_insert. destruct (decide (t = u)) as [<-|]; [intros [= <-]; eauto|eauto]. }
    intros u u' x x' (y & Hy & Ey)%Hrw (y' & Hy' & Ey')%Hrw E. apply (Hi u u' y y'); congruence.
  - intros u x. rewrite lookup_insert. destruct (decide (t = u)) as [<-|]; [|apply Hs]. intros [= <-]. cbn. by apply (Hs t).
Qed.

(** ** The trap context of a new space *)
Lemma user_ok_context s ms ppn v : user_ok s ms ppn v -> covered (areas ms) context_vpn.
Proof. intros [_ Hwf _ _ Hc]. apply Hwf. eauto. Qed.

Lemma context_ppn_ok k R ms v : ms_wf ms (as_G v) (as_D v) -> as_pt v = page_table ms -> space_of lo hi (machine k) R v ->
  Forall (fun a => map_type a = Framed) (areas ms) -> covered (areas ms) context_vpn ->
  exists p, as_D v !! context_vpn = Some p /\ context_ppn ms k = Ok (p, k).
Proof.
  intros Hwf Hpt Hsp Hfr (ar & Har & Hin). apply (proj1 (Forall_forall _ _) Hfr) in Har as Ht. apply (proj1 (Forall_forall _ _) (wf_areas _ _ _ Hwf)) in Har as [[_ Hpm] Hf _ _].
  destruct (Hf _ Ht Hin) as (p & _ & HD & HG). exists p. split; [done|].
  assert (Ep : page_of (va_from TRAP_CONTEXT) = Ok context_vpn) by done.
  unfold context_ppn. rewrite Ep. cbn [lift]. rewrite bind_ret.
  rewrite (on_machine_ok _ k p (machine k)); [by destruct k|]. rewrite <- Hpt.
  eapply translate_ppn_ok; [exact Hsp|exact HG| |by apply flags_valid_range]. pose proof (space_frame_range _ _ _ _ _ _ _ _ _ _ Hsp HD). lia.
Qed.

End Proc.
