(* ===== verification/KFork.v ===== *)
(** * [sys_fork] *)

From S2P Require Import Prelude BlockDev BlockStore Layout Efs Vfs FsInv FsUpdate FsOps FsDir FsSpec FsRefine Address Frames PageTable PtInv PtOps Space MemorySet AreaOps MsOps MsLife World Kernel OsInode Task Syscall Pids CxMem KLogic KInv KSched KProc.

(** ** The tree and the queue with a new task *)
Definition new_child (t : nat) (pd ppn : Z) (ms : MemorySet) (i : TaskControlBlockInner) : TaskControlBlock :=
  mkTCB pd pd (mkInner ppn (base_size i) (goto_trap_return (get_top pd)) Ready ms (Some t) [] 0 (fd_table i)).

Lemma tree_inv_fork ts init t c tcb ctcb : tree_inv ts init -> ts !! t = Some tcb -> task_status (inner tcb) <> Zombie -> ts !! c = None ->
  parent (inner ctcb) = Some t -> children (inner ctcb) = [] -> task_status (inner ctcb) <> Zombie ->
  tree_inv (<[t := with_inner tcb (set_children (inner tcb) (children (inner tcb) ++ [c]))]> (<[c := ctcb]> ts)) init.
Proof.
  intros [(ti & Hti & Hpi & Hzi & Hri) Hc Hnd Hp Hz Hs] Ht Hzt Hn Hpar Hch Hzc. set (tcb' := with_inner tcb _).
  assert (Htc : t <> c) by congruence.
  assert (Hnew : forall u y, ts !! u = Some y -> c ∉ children (inner y)).
  { intros u y Hy Hin. destruct (Hc _ _ _ Hy Hin) as (z & Hz' & _). congruence. }
  assert (Hl : forall u x, <[t := tcb']> (<[c := ctcb]> ts) !! u = Some x -> (u = t /\ x = tcb') \/ (u = c /\ x = ctcb) \/ (u <> t /\ u <> c /\ ts !! u = Some x)).
  { intros u x. destruct (decide (u = t)) as [->|]; [rewrite lookup_insert_eq; intros [= <-]; auto|].
    destruct (decide (u = c)) as [->|]; [rewrite lookup_insert_ne, lookup_insert_eq by done; intros [= <-]; auto|]. rewrite !lookup_insert_ne by done. auto. }
  assert (Hf : forall u y, ts !! u = Some y -> exists x, <[t := tcb']> (<[c := ctcb]> ts) !! u = Some x /\ parent (inner x) = parent (inner y) /\
    pid x = pid y /\ task_status (inner x) = task_status (inner y) /\ forall d, d ∈ children (inner y) -> d ∈ children (inner x)).
  { intros u y Hy. destruct (decide (u = t)) as [->|].
    - exists tcb'. rewrite lookup_insert_eq. assert (y = tcb) as -> by congruence. split_and!; [done..|]. intros d Hd. cbn. set_solver.
    - exists y. rewrite lookup_insert_ne by done. rewrite lookup_insert_ne by congruence. by split_and!. }
  split.
  - destruct (Hf _ _ Hti) as (x & Hx & E1 & E2 & E3 & _). exists x. split_and!; [done|congruence..].
  - intros u x d [[-> ->]|[[-> ->]|(Hut & Huc & Hx)]]%Hl; [|rewrite Hch; by intros ?%not_elem_of_nil|].
    + cbn. intros [Hd|Hd%list_elem_of_singleton]%elem_of_app.
      * destruct (Hc _ _ _ Ht Hd) as (z & Hz' & Hpz). destruct (Hf _ _ Hz') as (x & Hx & E1 & _). exists x. split; [done|congruence].
      * subst d. exists ctcb. by rewrite lookup_insert_ne, lookup_insert_eq.
    + intros Hd. destruct (Hc _ _ _ Hx Hd) as (z & Hz' & Hpz). destruct (Hf _ _ Hz') as (y & Hy & E1 & _). exists y. split; [done|congruence].
  - intros u x [[-> ->]|[[-> ->]|(Hut & Huc & Hx)]]%Hl; [|rewrite Hch; constructor|by apply (Hnd u)].
    cbn. apply NoDup_app. split_and!; [by apply (Hnd t)| |apply NoDup_singleton]. intros d Hd ->%list_elem_of_singleton. by apply (Hnew t tcb).
  - intros u x [[-> ->]|[[-> ->]|(Hut & Huc & Hx)]]%Hl Hne.
    + destruct (Hp _ _ Ht Hne) as (p & pt & Hpp & Hpt & Hin). destruct (Hf _ _ Hpt) as (y & Hy & _ & _ & _ & Hmono). exists p, y. eauto.
    + exists t, tcb'. rewrite lookup_insert_eq. split_and!; [done|done|]. cbn. set_solver.
    + destruct (Hp _ _ Hx Hne) as (p & pt & Hpp & Hpt & Hin). destruct (Hf _ _ Hpt) as (y & Hy & _ & _ & _ & Hmono). exists p, y. eauto.
  - intros u x [[-> ->]|[[-> ->]|(Hut & Huc & Hx)]]%Hl Hzx; [done|done|by apply (Hz u)].
  - intros u x [[-> ->]|[[-> ->]|(Hut & Huc & Hx)]]%Hl; [|rewrite Hch; apply not_elem_of_nil|by apply (Hs u)].
    cbn. rewrite elem_of_app, list_elem_of_singleton. intros [Hd|Hd]; [by apply (Hs t tcb)|done].
Qed.

Section Fork.
Context {St F : Type} `{BlockStoreSpec St} `{FrameAllocatorSpec F}.
Variables (env : Env) (lo hi N : Z) (base : list (VPNRange * MapType * Z)).
Hypothesis Hlo : 0 < lo.
Hypothesis Hlow : low base.
Hypothesis Hsmall : hi - lo <= max_pid.
Hypothesis Htramp : trampoline_ok (tramp env).
Implicit Types (k : Kernel St F) (W : gmap (option nat) aspace) (v : aspace).
Abbreviation kinv := (kinv env lo hi N base).

Lemma sched_fork ts q r W W' t i c tcb ctcb : sched_inv ts q r W -> ts !! t = Some tcb -> ts !! c = None ->
  task_status i = task_status (inner tcb) -> task_cx i = task_cx (inner tcb) -> task_status (inner ctcb) = Ready ->
  (forall w, W' !! Some c = Some w -> resumable w (task_cx (inner ctcb))) -> (forall u, u <> c -> W' !! Some u = W !! Some u) ->
  sched_inv (<[t := with_inner tcb i]> (<[c := ctcb]> ts)) (q ++ [c]) r W'.
Proof.
  intros [Hnd Hq Hr Hre] Ht Hn Est Ecx Hst Hres HW. assert (Htc : t <> c) by congruence.
  assert (Hcq : c ∉ q) by (rewrite Hq; intros (x & Hx & _); congruence).
  assert (Hother : forall u s, u <> c -> (exists x, <[t := with_inner tcb i]> (<[c := ctcb]> ts) !! u = Some x /\ task_status (inner x) = s) <->
    (exists x, ts !! u = Some x /\ task_status (inner x) = s)).
  { intros u s Hu. destruct (decide (u = t)) as [->|Hut]; [|by rewrite !lookup_insert_ne]. rewrite lookup_insert_eq. split.
    - intros (x & [= <-] & Hx). exists tcb. cbn in Hx. split; [done|congruence].
    - intros (x & Hx & Hs). exists (with_inner tcb i). cbn. split; [done|congruence]. }
  assert (Hc : <[t := with_inner tcb i]> (<[c := ctcb]> ts) !! c = Some ctcb) by (by rewrite lookup_insert_ne, lookup_insert_eq). split.
  - apply NoDup_app. split_and!; [done| |apply NoDup_singleton]. by intros x Hx ->%list_elem_of_singleton.
  - intros u. rewrite elem_of_app, list_elem_of_singleton. destruct (decide (u = c)) as [->|Hu]; [split; eauto|]. rewrite Hother, <- Hq by done. naive_solver.
  - intros u. destruct (decide (u = c)) as [->|Hu]; [|by rewrite Hother, <- Hr]. split.
    + intros Hrc. apply Hr in Hrc as (x & Hx & _). congruence.
    + intros (x & Hx & Hxs). congruence.
  - intros u x w Hx Hxs Hw. destruct (decide (u = c)) as [->|Hu]; [assert (x = ctcb) as -> by congruence; by apply Hres|]. rewrite HW in Hw by done.
    destruct (decide (u = t)) as [->|Hut].
    + rewrite lookup_insert_eq in Hx. injection Hx as <-. cbn in *. rewrite Ecx. apply (Hre t tcb w Ht); [congruence|done].
    + rewrite !lookup_insert_ne in Hx by done. by apply (Hre u x w).
Qed.

(** ** [TaskControlBlock::fork] *)
Definition forked k (t c : nat) (tcb child : TaskControlBlock) (m : Machine F) (ks : MemorySet) (pids : PidAllocator) : Kernel St F :=
  mkKernel (disk k) m (root_fs k) ks pids (ready_queue k) (processor k)
    (<[t := with_inner tcb (set_children (inner tcb) (children (inner tcb) ++ [c]))]> (<[c := child]> (tasks k)))
    (initproc k) (files k) (S c) (stvec k) (timer k) (reads k) (console k) (borrows k).

Lemma copy_fds (fds : list (option FileObj)) : (fun fd => match fd with Some file => Some file | None => None end) <$> fds = fds.
Proof. induction fds as [|[f|] fds IH]; csimpl; [done|by rewrite IH..]. Qed.

Lemma is_u64_top pd : is_u64 (get_top pd).
Proof. apply w64_range. Qed.

(** The copy of the parent's space, as a new space. *)
Lemma fork_space k W l a t tcb v : kinv k W l a -> tasks k !! t = Some tcb -> W !! Some t = Some v ->
  user_ok (tramp env) (memory_set (inner tcb)) (trap_cx_ppn (inner tcb)) v ->
  in_use W + 3 + 3 * total_pages (areas (memory_set (inner tcb))) <= hi - lo ->
  exists ms m ppn vc, from_existed_user (tramp env) (memory_set (inner tcb)) (machine k) = Ok (ms, m) /\
    (forall k1, machine k1 = m -> context_ppn ms k1 = Ok (ppn, k1)) /\ user_ok (tramp env) ms ppn vc /\
    world lo hi m (<[Some (next_ref k) := vc]> W) /\ as_P vc = as_P v /\ shape <$> areas ms = shape <$> areas (memory_set (inner tcb)) /\
    (forall x, pte_flags <$> as_G vc !! x = pte_flags <$> as_G v !! x) /\
    in_use (<[Some (next_ref k) := vc]> W) <= in_use W + 3 + 3 * total_pages (areas (memory_set (inner tcb))) /\ W !! Some (next_ref k) = None.
Proof.
  intros Hk Ht Hv Hok Hroom. pose proof (ki_mem _ _ _ _ _ _ _ _ _ Hk) as Hm. pose proof (mi_world _ _ _ _ _ _ _ _ _ Hm) as HW.
  assert (Hn : W !! Some (next_ref k) = None).
  { apply eq_None_not_Some. intros Hs. apply (mi_dom _ _ _ _ _ _ _ _ _ Hm) in Hs. apply (ki_fresh _ _ _ _ _ _ _ _ _ Hk) in Hs. lia. }
  destruct Hok as [Hpt Hwf Hfr Htr Hcx Hcl]. set (us := memory_set (inner tcb)) in *.
  pose proof (ms_ok_wf lo hi _ _ us v Hwf Hpt (w_space _ _ _ _ HW _ _ Hv)) as Hus.
  pose proof (used_in_use W _ _ Hv) as Hu. rewrite Hpt in Hu.
  destruct (fork_ok lo hi (tramp env) _ _ us _ _ _ Hus Hfr Htramp Htr ltac:(lia)) as (ms & m & G' & D' & E & Hc & _ & Hs & Hsh & Hfl & Htr' & Hu').
  assert (Htot : owned (page_table us) (as_D v) ∪ total (delete (Some t) W) = total W) by (rewrite (total_split W _ _ Hv); unfold owns; by rewrite Hpt).
  rewrite Htot in *. destruct (wf_ms_ok _ _ _ _ _ _ _ _ Hc) as [Hwf' Hsp']. set (vc := mkSpace (page_table ms) G' D' (as_P v)) in *.
  assert (Hfr' : Forall (fun b => map_type b = Framed) (areas ms)).
  { apply Forall_forall. intros b Hb. destruct (shapes_elem _ _ b Hsh Hb) as (b' & Hb' & Es). apply (proj1 (Forall_forall _ _) Hfr) in Hb'.
    apply (f_equal (fun s => s.1.2)) in Es. cbn in Es. congruence. }
  assert (Hcov : covered (areas ms) context_vpn) by (apply (shapes_covered (areas us)); [done|]; apply Hwf; eauto).
  assert (Hctx : exists ppn, D' !! context_vpn = Some ppn /\ forall k1, machine k1 = m -> context_ppn ms k1 = Ok (ppn, k1)).
  { destruct (context_ppn_ok lo hi (set_machine k m) (total W) ms vc Hwf' eq_refl Hsp' Hfr' Hcov) as (ppn & HD & _). exists ppn. split; [done|]. intros k1 <-.
    destruct (context_ppn_ok lo hi k1 (total W) ms vc Hwf' eq_refl Hsp' Hfr' Hcov) as (ppn' & HD' & E'). rewrite E'. congruence. }
  destruct Hctx as (ppn & HD & Ectx). exists ms, m, ppn, vc. split_and!; [done|done|split; try done; cbn; by rewrite Hfl, Hcl|by eapply world_insert|done|done|done| |done].
  unfold in_use. rewrite total_insert by done. change (Z.of_nat (base.size (owns vc ∪ total W))) with (used (page_table ms) D' (total W)). rewrite Hu in Hu'. exact Hu'.
Qed.

Lemma fork_run k W l a t tcb v : kinv k W l a -> tasks k !! t = Some tcb -> W !! Some t = Some v ->
  user_ok (tramp env) (memory_set (inner tcb)) (trap_cx_ppn (inner tcb)) v -> task_status (inner tcb) <> Zombie ->
  in_use W + 9 + 3 * total_pages (areas (memory_set (inner tcb))) <= hi - lo ->
  let c := next_ref k in
  exists pd ppn ms m ks' pids' vc W' cx, let child := new_child t pd ppn ms (inner tcb) in
    fork env t k = Ok (c, forked k t c tcb child m ks' pids') /\
    mem_inv env lo hi base m ks' pids' (tasks (forked k t c tcb child m ks' pids')) W' /\
    W' !! Some c = Some vc /\ (forall u, u <> c -> W' !! Some u = W !! Some u) /\
    user_ok (tramp env) ms ppn vc /\ space_cx v = Some cx /\ space_cx vc = Some (set_kernel_sp cx (get_top pd)) /\
    (forall x, x <> context_vpn -> as_P vc !! x = as_P v !! x) /\ (forall x, pte_flags <$> as_G vc !! x = pte_flags <$> as_G v !! x) /\
    shape <$> areas ms = shape <$> areas (memory_set (inner tcb)) /\ (pd ∉ live (tasks k)) /\ 0 <= pd < max_pid /\
    ms_token ks' = ms_token (kernel_space k).
Proof.
  intros Hk Ht Hv Hok Hz Hroom c. pose proof (ki_mem _ _ _ _ _ _ _ _ _ Hk) as Hm. pose proof (mem_room _ _ _ _ _ _ _ _ _ Hm) as Hrm.
  destruct (fork_space k W l a t tcb v Hk Ht Hv Hok ltac:(lia)) as (ms & m1 & ppn & v1 & E1 & Ectx & Hok1 & HW1 & HP1 & Hsh & Hfl & Huse & Hn).
  fold c in HW1, Huse, Hn. assert (Htot : 0 <= total_pages (areas (memory_set (inner tcb)))) by (eapply total_pages_nonneg; apply Hok).
  destruct (mi_kernel _ _ _ _ _ _ _ _ _ Hm) as (vk & ps & Hvk & Hko & Hps).
  assert (Hnc : tasks k !! c = None). { apply eq_None_not_Some. intros Hs. apply (ki_fresh _ _ _ _ _ _ _ _ _ Hk) in Hs. unfold c in Hs. lia. }
  assert (Htc : t <> c) by congruence.
  set (k1 := set_machine (set_borrows k [TaskInner t]) m1).
  destruct (spawn_ok lo hi base Hlow Hsmall k1 (<[Some c := v1]> W) (tasks k) ps vk) as (pd & a' & ks' & m2 & vk' & Ep & Es & Hpd & Hpr & Hpids & Hcur & Hko' & HW2 & Hroot & _);
    [done|by rewrite lookup_insert_ne|done|done|apply Hm|apply Hm|lia|lia|unfold k1; cbn; set_solver|unfold k1; cbn; set_solver|].
  set (child := new_child t pd ppn ms (inner tcb)).
  assert (Hm2 : mem_inv env lo hi base m2 ks' a' (<[c := child]> (tasks k)) (<[None := vk']> (<[Some c := v1]> W))).
  { eapply mem_inv_add; try done. intros p. rewrite elem_of_app, list_elem_of_singleton, Hps. cbn. tauto. }
  set (i' := set_children (inner tcb) (children (inner tcb) ++ [c])).
  assert (Hm2' : mem_inv env lo hi base m2 ks' a' (<[t := with_inner tcb i']> (<[c := child]> (tasks k))) (<[None := vk']> (<[Some c := v1]> W))).
  { apply mem_inv_task; [done|by rewrite lookup_insert_ne|done|done|done]. }
  set (W2 := <[None := vk']> (<[Some c := v1]> W)) in *.
  assert (Hv2 : W2 !! Some c = Some v1) by (unfold W2; by rewrite lookup_insert_ne, lookup_insert_eq).
  destruct (world_page lo hi _ _ _ _ _ _ HW2 Hv2 (uo_context _ _ _ _ Hok1)) as (b & Hb & _ & Hlb).
  set (f := fun cx => set_kernel_sp cx (get_top pd)).
  destruct (modify_cx_ok lo hi Hlo m2 W2 (Some c) v1 context_vpn ppn b f HW2 Hv2 (uo_context _ _ _ _ Hok1) Hb) as (m3 & E3 & HW3).
  { intros Hcx. apply cx_ok_set_kernel_sp; [done|apply is_u64_top]. }
  exists pd, ppn, ms, m3, ks', a', (set_page v1 context_vpn (put_cx b (f (page_cx b)))), (<[Some c := set_page v1 context_vpn (put_cx b (f (page_cx b)))]> W2), (page_cx b).
  cbv zeta. fold child. split_and!; [|by apply (mem_inv_world _ _ _ _ m2)|apply lookup_insert_eq| | | | | |exact Hfl|done|done|lia|lia|unfold ms_token, token; by rewrite Hroot].
  - unfold fork. erewrite with_cell_ok; [|by eapply no_borrow| |].
    2: { rewrite (ki_borrows _ _ _ _ _ _ _ _ _ Hk). erewrite bind_Ok; [|by apply (get_inner_ok t tcb)]. erewrite bind_Ok; [|apply on_machine_ok; exact E1].
         erewrite bind_Ok; [|by apply Ectx]. erewrite bind_Ok; [|exact Ep]. erewrite bind_Ok; [|exact Es]. rewrite copy_fds. fold child.
         erewrite bind_Ok; [|unfold new_task; rewrite gets_bind, update_bind; reflexivity]. cbn [next_ref set_kernel_space set_machine set_pid_allocator set_borrows k1]. fold c.
         erewrite bind_Ok; [|apply (set_inner_ok t tcb); cbn; by rewrite lookup_insert_ne].
         erewrite bind_Ok; [|apply (peek_inner c child trap_cx_ppn); cbn; [set_solver|by rewrite lookup_insert_ne, lookup_insert_eq]].
         erewrite bind_Ok; [|apply on_machine_ok; cbn; exact E3]. reflexivity. }
    2: { cbn. by rewrite (ki_borrows _ _ _ _ _ _ _ _ _ Hk). }
    done.
  - intros u Hu. unfold W2. by rewrite !lookup_insert_ne by congruence.
  - destruct Hok1. by split.
  - unfold space_cx. by rewrite <- HP1, Hb.
  - unfold space_cx. cbn. rewrite lookup_insert_eq. cbn. f_equal. apply page_put_cx; [done|]. apply cx_ok_set_kernel_sp; [by apply page_cx_ok|apply is_u64_top].
  - intros x Hx. cbn. rewrite lookup_insert_ne by done. by rewrite HP1.
Qed.

(** ** [sys_fork]: the parent gets the pid of the child, the child gets 0 *)
Lemma sys_fork_inv k W l a t tcb v : kinv k W l a -> running (processor k) = Some t -> tasks k !! t = Some tcb -> W !! Some t = Some v ->
  in_use W + 9 + 3 * total_pages (areas (memory_set (inner tcb))) <= hi - lo ->
  let c := next_ref k in
  exists pd ppn ms k' vc W' cx, let child := new_child t pd ppn ms (inner tcb) in
    sys_fork env k = Ok (Value pd, k') /\ kinv k' W' l a /\ (pd ∉ live (tasks k)) /\
    tasks k' = <[t := with_inner tcb (set_children (inner tcb) (children (inner tcb) ++ [c]))]> (<[c := child]> (tasks k)) /\
    ready_queue k' = ready_queue k ++ [c] /\ processor k' = processor k /\ (files k' = files k /\ initproc k' = initproc k) /\
    (forall u, u <> c -> W' !! Some u = W !! Some u) /\ W' !! Some c = Some vc /\
    space_cx v = Some cx /\ space_cx vc = Some (set_x (set_kernel_sp cx (get_top pd)) 10 0) /\
    (forall x, x <> context_vpn -> as_P vc !! x = as_P v !! x) /\ (forall x, pte_flags <$> as_G vc !! x = pte_flags <$> as_G v !! x) /\
    ms_token (kernel_space k') = ms_token (kernel_space k).
Proof.
  intros Hk Hr Ht Hv Hroom c. destruct (running_task _ _ _ _ _ _ _ _ _ Hk t Hr) as (tcb' & v' & Ht' & Hst & Hv' & Hok).
  assert (tcb' = tcb) as -> by congruence. assert (v' = v) as -> by congruence.
  destruct (fork_run k W l a t tcb v Hk Ht Hv Hok ltac:(congruence) Hroom) as (pd & ppn & ms & m & ks & pids & vc & W1 & cx & E & Hm & Hvc & Hoth & Hokc & Hcx & Hcxc & HP & Hfl & Hsh & Hpd & Hpr & Htok).
  fold c in E, Hm, Hvc, Hoth. set (child := new_child t pd ppn ms (inner tcb)) in *. set (k1 := forked k t c tcb child m ks pids) in *.
  assert (Hnc : tasks k !! c = None). { apply eq_None_not_Some. intros Hs. apply (ki_fresh _ _ _ _ _ _ _ _ _ Hk) in Hs. unfold c in Hs. lia. }
  assert (Htc : t <> c) by congruence.
  assert (Hc1 : tasks k1 !! c = Some child) by (cbn; by rewrite lookup_insert_ne, lookup_insert_eq).
  pose proof (mi_world _ _ _ _ _ _ _ _ _ Hm) as HW1. destruct (world_page lo hi _ _ _ _ _ _ HW1 Hvc (uo_context _ _ _ _ Hokc)) as (b & Hb & _ & Hlb).
  destruct (modify_cx_ok lo hi Hlo m W1 (Some c) vc context_vpn ppn b (fun cx => set_x cx 10 0) HW1 Hvc (uo_context _ _ _ _ Hokc) Hb) as (m' & E' & HW').
  { intros ?. by apply cx_ok_set_x. }
  set (vc' := set_page vc context_vpn (put_cx b (set_x (page_cx b) 10 0))) in *.
  exists pd, ppn, ms, (set_ready_queue (set_machine k1 m') (ready_queue k ++ [c])), vc', (<[Some c := vc']> W1), cx.
  assert (Hcb : page_cx b = set_kernel_sp cx (get_top pd)). { unfold space_cx in Hcxc. rewrite Hb in Hcxc. change (Some (page_cx b) = Some (set_kernel_sp cx (get_top pd))) in Hcxc. congruence. }
  cbv zeta. fold child. split_and!; [| |done|done|done|done|done|done| |apply lookup_insert_eq|done| | |exact Hfl|exact Htok].
  - unfold sys_fork. erewrite bind_Ok; [|apply (current_task_ok t); [by eapply no_borrow|done]]. erewrite bind_Ok; [|exact E].
    erewrite bind_Ok; [|by apply (get_task_ok c child)].
    erewrite bind_Ok; [|apply (peek_inner c child trap_cx_ppn); [cbn; by eapply no_borrow|done]].
    erewrite bind_Ok; [|apply on_machine_ok; exact E']. erewrite bind_Ok; [|apply add_task_ok; cbn; by eapply no_borrow].
    unfold ret. do 2 f_equal. f_equal. unfold as_isize. rewrite (proj2 (Z.ltb_lt _ _)); [done|]. unfold max_pid in Hpr. cbn. lia.
  - pose proof Hk as [Hbo _ Hsc Htr Hf Hfr Hff]. split; cbn; [done| | | | | |].
    + by apply (mem_inv_world _ _ _ _ m).
    + eapply sched_fork; try done.
      intros u Hu. rewrite lookup_insert_ne by congruence. by apply Hoth.
    + apply tree_inv_fork; try done. congruence.
    + destruct Hf as [Hf1 Hf2 Hf3 Hf4 Hf5]. split; [done..|]. intros u x r. destruct (decide (u = t)) as [->|Hut]; [rewrite lookup_insert_eq; intros [= <-]; by apply (Hf5 t tcb)|].
      rewrite lookup_insert_ne by done. destruct (decide (u = c)) as [->|Huc]; [rewrite lookup_insert_eq; intros [= <-]; by apply (Hf5 t tcb)|].
      rewrite lookup_insert_ne by done. apply Hf5.
    + intros u. rewrite lookup_insert. destruct (decide (t = u)) as [<-|]; [intros _; transitivity (next_ref k); [apply Hfr; eauto|lia]|].
      rewrite lookup_insert. destruct (decide (c = u)) as [<-|]; [lia|]. intros Hs. apply Hfr in Hs. unfold c. lia.
    + intros r Hs. apply Hff in Hs. unfold c. lia.
  - intros u Hu. rewrite lookup_insert_ne by congruence. by apply Hoth.
  - unfold space_cx. cbn. rewrite lookup_insert_eq. cbn. f_equal. rewrite page_put_cx; [by rewrite Hcb|done|]. apply cx_ok_set_x; [by apply page_cx_ok|done].
  - intros x Hx. cbn. rewrite lookup_insert_ne by done. by apply HP.
Qed.

End Fork.
