(* ===== verification/KTree.v ===== *)
(** * Changes of several tasks at once, and the counts of [Arc]s *)

From S2P Require Import Prelude BlockDev BlockStore Layout Efs Vfs FsInv FsUpdate FsOps FsDir FsSpec FsRefine Address Frames PageTable PtInv PtOps Space MemorySet AreaOps MsOps MsLife World Kernel OsInode Task Syscall Pids CxMem KLogic KInv.

(** Two tasks that differ at most in their relatives. *)
Record same_task (x y : TaskControlBlock) : Prop := {
  st_pid : pid y = pid x;
  st_stack : kernel_stack y = kernel_stack x;
  st_memory : memory_set (inner y) = memory_set (inner x);
  st_context : trap_cx_ppn (inner y) = trap_cx_ppn (inner x);
  st_status : task_status (inner y) = task_status (inner x);
  st_cx : task_cx (inner y) = task_cx (inner x);
  st_fds : fd_table (inner y) = fd_table (inner x);
}.

Lemma same_task_refl x : same_task x x.
Proof. done. Qed.

Definition same_tasks (ts ts' : gmap nat TaskControlBlock) : Prop := forall u, option_Forall2 same_task (ts !! u) (ts' !! u).

Lemma same_tasks_l ts ts' u x : same_tasks ts ts' -> ts !! u = Some x -> exists y, ts' !! u = Some y /\ same_task x y.
Proof. intros Hs Hx. specialize (Hs u). rewrite Hx in Hs. inversion Hs; subst. eauto. Qed.

Lemma same_tasks_r ts ts' u y : same_tasks ts ts' -> ts' !! u = Some y -> exists x, ts !! u = Some x /\ same_task x y.
Proof. intros Hs Hy. specialize (Hs u). rewrite Hy in Hs. inversion Hs; subst. eauto. Qed.

Lemma same_tasks_some ts ts' u : same_tasks ts ts' -> is_Some (ts' !! u) <-> is_Some (ts !! u).
Proof.
  intros Hs. split; intros [x Hx].
  - destruct (same_tasks_r _ _ _ _ Hs Hx) as (y & Hy & _). eauto.
  - destruct (same_tasks_l _ _ _ _ Hs Hx) as (y & Hy & _). eauto.
Qed.

Lemma same_tasks_live ts ts' : same_tasks ts ts' -> live ts' = live ts.
Proof.
  intros Hs. apply set_eq. intros p. rewrite !elem_of_live. split.
  - intros (t & y & Hy & <-). destruct (same_tasks_r _ _ _ _ Hs Hy) as (x & Hx & Hxy). exists t, x. split; [done|]. symmetry. apply Hxy.
  - intros (t & x & Hx & <-). destruct (same_tasks_l _ _ _ _ Hs Hx) as (y & Hy & Hxy). exists t, y. split; [done|]. apply Hxy.
Qed.

Section Same.
Context {St F : Type} `{BlockStoreSpec St} `{FrameAllocatorSpec F}.
Variables (env : Env) (lo hi N : Z) (base : list (VPNRange * MapType * Z)).
Implicit Types (k : Kernel St F) (W : gmap (option nat) aspace).

Lemma mem_inv_same m ks a ts ts' W : same_tasks ts ts' -> mem_inv env lo hi base m ks a ts W -> mem_inv (F := F) env lo hi base m ks a ts' W.
Proof.
  intros Hs [HW Hk Hd Ht Hp Hi Hst Hc]. split; [done| | | | | | |done].
  - by rewrite (same_tasks_live ts).
  - intros t. by rewrite (same_tasks_some ts), Hd.
  - intros t y v (x & Hx & Hxy)%(same_tasks_r _ _ _ _ Hs) Hv. apply (task_ok_same _ x); [by apply (Ht t)|apply Hxy..|]. by rewrite (st_status _ _ Hxy).
  - by rewrite (same_tasks_live ts).
  - intros t t' y y' (x & Hx & Hxy)%(same_tasks_r _ _ _ _ Hs) (x' & Hx' & Hxy')%(same_tasks_r _ _ _ _ Hs) E. apply (Hi t t' x x' Hx Hx').
    by rewrite <- (st_pid _ _ Hxy), <- (st_pid _ _ Hxy').
  - intros t y (x & Hx & Hxy)%(same_tasks_r _ _ _ _ Hs). rewrite (st_stack _ _ Hxy), (st_pid _ _ Hxy). by apply (Hst t).
Qed.

Lemma sched_inv_same ts ts' q r W : same_tasks ts ts' -> sched_inv ts q r W -> sched_inv ts' q r W.
Proof.
  intros Hs [Hnd Hq Hr Hre].
  assert (He : forall t s, (exists y, ts' !! t = Some y /\ task_status (inner y) = s) <-> (exists x, ts !! t = Some x /\ task_status (inner x) = s)).
  { intros t s. split.
    - intros (y & Hy & <-). destruct (same_tasks_r _ _ _ _ Hs Hy) as (x & Hx & Hxy). exists x. split; [done|]. symmetry. apply Hxy.
    - intros (x & Hx & <-). destruct (same_tasks_l _ _ _ _ Hs Hx) as (y & Hy & Hxy). exists y. split; [done|]. apply Hxy. }
  split; [done| | |].
  - intros t. by rewrite He.
  - intros t. by rewrite He.
  - intros t y v (x & Hx & Hxy)%(same_tasks_r _ _ _ _ Hs) Hst Hv. rewrite (st_cx _ _ Hxy). apply (Hre t x v Hx); [|done]. by rewrite <- (st_status _ _ Hxy).
Qed.

Lemma file_inv_same (d : St) fs ts ts' fl l a : same_tasks ts ts' -> file_inv N d fs ts fl l a -> file_inv N d fs ts' fl l a.
Proof.
  intros Hs [Hw Hh Hv Hf Hfd]. split; [done..|]. intros t y r (x & Hx & Hxy)%(same_tasks_r _ _ _ _ Hs). rewrite (st_fds _ _ Hxy). by apply (Hfd t x).
Qed.

End Same.

(** ** The children of a task are given to [init] *)
Definition give (ts : gmap nat TaskControlBlock) (init c : nat) : gmap nat TaskControlBlock :=
  match ts !! c, ts !! init with
  | Some ctcb, Some itcb =>
      <[init := with_inner itcb (set_children (inner itcb) (children (inner itcb) ++ [c]))]>
        (<[c := with_inner ctcb (set_parent (inner ctcb) (Some init))]> ts)
  | _, _ => ts
  end.

Definition adopted (ts : gmap nat TaskControlBlock) (init : nat) (cs : list nat) : gmap nat TaskControlBlock :=
  foldl (fun ts c => give ts init c) ts cs.

(** What [adopted] holds. *)
Definition adopted_at (ts : gmap nat TaskControlBlock) (init : nat) (cs : list nat) (u : nat) : option TaskControlBlock :=
  if decide (u = init) then (fun x => with_inner x (set_children (inner x) (children (inner x) ++ cs))) <$> ts !! u
  else if decide (u ∈ cs) then (fun x => with_inner x (set_parent (inner x) (Some init))) <$> ts !! u
  else ts !! u.

Lemma with_inner_id x : with_inner x (inner x) = x.
Proof. by destruct x. Qed.

Lemma lookup_adopted cs : forall ts init u, init ∉ cs -> NoDup cs -> (forall c, c ∈ cs -> is_Some (ts !! c)) -> is_Some (ts !! init) ->
  adopted ts init cs !! u = adopted_at ts init cs u.
Proof.
  induction cs as [|c cs IH]; intros ts init u Hni Hnd Hl Hi; unfold adopted, adopted_at in *; cbn [foldl].
  - destruct (decide (u = init)) as [->|]; [|destruct (decide (u ∈ [])) as [Hin|]; [by apply not_elem_of_nil in Hin|done]].
    destruct (ts !! init) as [x|]; [|done]. cbn. rewrite app_nil_r. by destruct x as [? ? []].
  - apply not_elem_of_cons in Hni as [Hnc Hni]. apply NoDup_cons in Hnd as [Hcc Hnd].
    destruct (Hl c) as [ctcb Hc]; [left|]. destruct Hi as [itcb Hi].
    assert (Hg : give ts init c = <[init := with_inner itcb (set_children (inner itcb) (children (inner itcb) ++ [c]))]>
        (<[c := with_inner ctcb (set_parent (inner ctcb) (Some init))]> ts)) by (unfold give; by rewrite Hc, Hi).
    rewrite IH; [|done|done| |].
    + rewrite Hg. destruct (decide (u = init)) as [->|Hu].
      * rewrite lookup_insert_eq, Hi. cbn. f_equal. unfold with_inner, set_children. cbn. by rewrite <- app_assoc.
      * rewrite lookup_insert_ne by done. destruct (decide (u = c)) as [->|Huc].
        -- rewrite lookup_insert_eq, decide_False, decide_True by (done || left). by rewrite Hc.
        -- rewrite lookup_insert_ne by done. destruct (decide (u ∈ cs)), (decide (u ∈ c :: cs)) as [[?|?]%elem_of_cons|Hn]; try done. exfalso. apply Hn. by right.
    + intros d Hd. rewrite Hg. rewrite !lookup_insert_ne; [apply Hl; by right| |]; intros ->; done.
    + rewrite Hg, lookup_insert_eq. eauto.
Qed.

Lemma adopted_same ts init cs : init ∉ cs -> NoDup cs -> (forall c, c ∈ cs -> is_Some (ts !! c)) -> is_Some (ts !! init) ->
  same_tasks ts (adopted ts init cs).
Proof.
  intros Hni Hnd Hl Hi u. rewrite lookup_adopted by done. unfold adopted_at.
  destruct (decide (u = init)), (decide (u ∈ cs)); destruct (ts !! u) as [x|]; cbn; constructor; by split.
Qed.

(** The task [t] has exited: its children [cs] belong to [init] and its record is the zombie [zt]. *)
Section exit_tree.
Context (ts : gmap nat TaskControlBlock) (init t : nat) (tcb zt ti : TaskControlBlock).
Context (Hinv : tree_inv ts init) (Ht : ts !! t = Some tcb) (Hne : t <> init) (Hti : ts !! init = Some ti) (Hpi : parent (inner ti) = None).
Context (Hpar : parent (inner zt) = parent (inner tcb)).

Local Abbreviation cs := (children (inner tcb)).
Local Abbreviation ts' := (<[t := zt]> (adopted ts init cs)).
Local Abbreviation itcb := (with_inner ti (set_children (inner ti) (children (inner ti) ++ cs))).

(** A task that is neither [t] nor [init] keeps all but its parent. *)
Definition kept (u : nat) (x y : TaskControlBlock) : Prop :=
  children (inner y) = children (inner x) /\ task_status (inner y) = task_status (inner x) /\
  parent (inner y) = if decide (u ∈ cs) then Some init else parent (inner x).

Lemma child_of_one p p' pt pt' c : ts !! p = Some pt -> ts !! p' = Some pt' ->
  c ∈ children (inner pt) -> c ∈ children (inner pt') -> p = p'.
Proof using Hinv.
  intros H1 H2 Hc1 Hc2. destruct Hinv as [_ Hc _ _ _ _].
  destruct (Hc _ _ _ H1 Hc1) as (x & Hx & Hpx), (Hc _ _ _ H2 Hc2) as (y & Hy & Hpy). congruence.
Qed.

Lemma exit_lookup u : u <> t -> ts' !! u = adopted_at ts init cs u.
Proof using Hinv Ht Hti Hpi.
  intros Hu. destruct Hinv as [_ Hc Hnd _ _ _]. rewrite lookup_insert_ne by done. apply lookup_adopted; [|by apply (Hnd t)| |eauto].
  - intros Hin. destruct (Hc _ _ _ Ht Hin) as (x & Hx & Hpx). congruence.
  - intros c Hin. destruct (Hc _ _ _ Ht Hin) as (x & Hx & _). eauto.
Qed.

Lemma exit_init : ts' !! init = Some itcb.
Proof using Hinv Ht Hne Hti Hpi. rewrite exit_lookup by done. unfold adopted_at. rewrite decide_True by done. by rewrite Hti. Qed.

Lemma exit_other u x : ts !! u = Some x -> u <> t -> u <> init -> exists y, ts' !! u = Some y /\ kept u x y.
Proof using Hinv Ht Hti Hpi.
  intros Hx Hu Hui. rewrite exit_lookup by done. unfold adopted_at, kept. rewrite decide_False by done. rewrite Hx.
  destruct (decide (u ∈ cs)); eexists; by split_and!.
Qed.

Lemma exit_cases u y : ts' !! u = Some y ->
  (u = t /\ y = zt) \/ (u = init /\ y = itcb) \/ (u <> t /\ u <> init /\ exists x, ts !! u = Some x /\ kept u x y).
Proof using Hinv Ht Hne Hti Hpi.
  intros Hy. destruct (decide (u = t)) as [->|Hu]; [rewrite lookup_insert_eq in Hy; injection Hy as <-; by left|].
  destruct (decide (u = init)) as [->|Hui]; [right; left; split; [done|]; pose proof exit_init; congruence|]. right. right. split_and!; [done|done|].
  destruct (ts !! u) as [x|] eqn:Hx.
  - destruct (exit_other u x Hx Hu Hui) as (y' & Hy' & ?). exists x. split; [done|]. by replace y with y' by congruence.
  - rewrite exit_lookup in Hy by done. unfold adopted_at in Hy. rewrite decide_False, Hx in Hy by done. by destruct (decide (u ∈ cs)).
Qed.

(** A child of a task other than [t] keeps its parent. *)
Lemma exit_child u x c : u <> t -> ts !! u = Some x -> c ∈ children (inner x) ->
  exists z, ts' !! c = Some z /\ parent (inner z) = Some u.
Proof using Hinv Ht Hne Hti Hpi Hpar.
  intros Hu Hx Hin. pose proof Hinv as [_ Hc _ _ _ _]. destruct (Hc _ _ _ Hx Hin) as (z & Hz & Hpz).
  destruct (decide (c = t)) as [->|Hct]; [exists zt; rewrite lookup_insert_eq; split; [done|congruence]|].
  destruct (exit_other c z Hz Hct) as (y & Hy & _ & _ & E); [congruence|]. exists y. split; [done|].
  rewrite E, decide_False; [done|]. intros Hcs. apply Hu. by apply (child_of_one u t x tcb c).
Qed.

(** A child of [t] is a child of [init]. *)
Lemma exit_adopted c : c ∈ cs -> exists z, ts' !! c = Some z /\ parent (inner z) = Some init.
Proof using Hinv Ht Hti Hpi.
  intros Hin. pose proof Hinv as [_ Hc _ _ _ Hs]. destruct (Hc _ _ _ Ht Hin) as (z & Hz & Hpz).
  destruct (exit_other c z Hz) as (y & Hy & _ & _ & E); [intros ->; by apply (Hs t tcb Ht)|congruence|].
  exists y. split; [done|]. by rewrite E, decide_True.
Qed.

(** A parent other than [t] keeps its children. *)
Lemma exit_parent p pt c : ts !! p = Some pt -> c ∈ children (inner pt) -> p <> t ->
  exists y, ts' !! p = Some y /\ c ∈ children (inner y).
Proof using Hinv Ht Hne Hti Hpi.
  intros Hpt Hin Hp. destruct (decide (p = init)) as [->|Hpni].
  - exists itcb. split; [apply exit_init|]. cbn. apply elem_of_app. left. by replace ti with pt by congruence.
  - destruct (exit_other p pt Hpt) as (y & Hy & E & _); [done|done|]. exists y. by rewrite E.
Qed.

Lemma exit_has_parent u y : ts' !! u = Some y -> u <> init ->
  exists p pt, parent (inner y) = Some p /\ ts' !! p = Some pt /\ u ∈ children (inner pt).
Proof using Hinv Ht Hne Hti Hpi Hpar.
  intros Hy Hui. pose proof Hinv as [_ _ _ Hp _ Hs].
  apply exit_cases in Hy as [[-> ->]|[[-> ->]|(Hu & _ & x & Hx & _ & _ & E)]]; [|done|].
  - destruct (Hp t tcb Ht Hne) as (p & pt & Epp & Hpt & Hin).
    destruct (exit_parent p pt t Hpt Hin) as (z & Hzp & Hzin); [intros ->; by apply (Hs t pt Hpt)|]. exists p, z. split_and!; [congruence|done..].
  - rewrite E. destruct (decide (u ∈ cs)) as [Hcs|Hcs].
    + exists init, itcb. split_and!; [done|apply exit_init|]. cbn. apply elem_of_app. by right.
    + destruct (Hp u x Hx Hui) as (p & pt & Epp & Hpt & Hin).
      destruct (exit_parent p pt u Hpt Hin) as (z & Hzp & Hzin); [intros ->; apply Hcs; by replace tcb with pt by congruence|]. exists p, z. by split_and!.
Qed.

End exit_tree.

Lemma tree_inv_exit ts init t tcb zt : tree_inv ts init -> ts !! t = Some tcb -> t <> init ->
  parent (inner zt) = parent (inner tcb) -> children (inner zt) = [] -> task_status (inner zt) = Zombie ->
  tree_inv (<[t := zt]> (adopted ts init (children (inner tcb)))) init.
Proof.
  intros Hinv Ht Hne Hpar Hch Hzz. pose proof Hinv as [(ti & Hti & Hidle & Hzi & Hpi) Hc Hnd Hp Hz Hs].
  pose proof (exit_cases ts init t tcb zt ti Hinv Ht Hne Hti Hpi) as Hback. split.
  - eexists. split; [by apply exit_init|]. by split_and!.
  - intros u y c [[-> ->]|[[-> ->]|(Hu & Hui & x & Hx & E1 & _)]]%Hback; [rewrite Hch; by intros ?%not_elem_of_nil| |].
    + cbn. intros [Hin|Hin]%elem_of_app; [by eapply exit_child|by eapply exit_adopted].
    + rewrite E1. intros Hin. by eapply exit_child.
  - intros u y [[-> ->]|[[-> ->]|(Hu & Hui & x & Hx & E1 & _)]]%Hback; [rewrite Hch; constructor| |rewrite E1; by apply (Hnd u)].
    cbn. apply NoDup_app. split_and!; [by apply (Hnd init)| |by apply (Hnd t)]. intros c Hi Hcs.
    apply Hne. by apply (child_of_one ts init Hinv t init tcb ti c).
  - intros u y Hy Hu. by eapply exit_has_parent.
  - intros u y [[-> ->]|[[-> ->]|(Hu & Hui & x & Hx & E1 & E2 & _)]]%Hback Hzy; [done|done|]. rewrite E1. apply (Hz u x Hx). congruence.
  - intros u y [[-> ->]|[[-> ->]|(Hu & Hui & x & Hx & E1 & _)]]%Hback; [rewrite Hch; apply not_elem_of_nil| |rewrite E1; by apply (Hs u)].
    cbn. intros [Hin|Hin]%elem_of_app; [by apply (Hs init ti)|].
    destruct (Hc _ _ _ Ht Hin) as (x & Hx & Hpx). congruence.
Qed.
