(* ===== verification/KExit.v ===== *)
(** * [exit_current_and_run_next] *)

From S2P Require Import Prelude BlockDev BlockStore Layout Efs Vfs FsInv FsUpdate FsOps FsDir FsSpec FsRefine Address Frames PageTable PtInv PtOps Space MemorySet AreaOps MsOps MsLife World Kernel OsInode Task Syscall Pids CxMem KLogic KInv KSched KProc KTree.

(** ** Counts of [Arc]s *)
Section Count.
Context {St F : Type}.
Implicit Types (k : Kernel St F).

Lemma holds_sum t (l : list (nat * TaskControlBlock)) :
  foldr (fun e n => holds t (inner e.2) e.1 + n)%nat 0%nat l = 0%nat <-> forall e, e ∈ l -> holds t (inner e.2) e.1 = 0%nat.
Proof.
  induction l as [|e l IH]; cbn [foldr]; [split; [by intros _ e ?%not_elem_of_nil|done]|]. rewrite Nat.eq_add_0, IH. split.
  - intros [He Hl] x [->|Hx]%elem_of_cons; [done|by apply Hl].
  - intros Hl. split; [apply Hl; left|]. intros x Hx. apply Hl. by right.
Qed.

Lemma holds_pos t u i : t ∈ children i -> holds t i u <> 0%nat.
Proof.
  intros Hin. unfold holds. assert (0 < count_occ Nat.eq_dec (children i) t)%nat; [|lia]. apply count_occ_In. by apply list_elem_of_In.
Qed.

(** A child has an [Arc]. *)
Lemma child_counted k t p ptcb : tasks k !! p = Some ptcb -> t ∈ children (inner ptcb) -> strong_count k t <> 0%nat.
Proof.
  intros Hp Hin Hz. unfold strong_count in Hz. rewrite !Nat.eq_add_0 in Hz. destruct Hz as [_ Hs]. rewrite holds_sum in Hs.
  apply (holds_pos t p (inner ptcb) Hin). apply (Hs (p, ptcb)). by apply elem_of_map_to_list.
Qed.

(** A task nothing refers to has none. *)
Lemma not_counted k t : initproc k <> t -> t ∉ ready_queue k -> running (processor k) <> Some t ->
  (forall u x, tasks k !! u = Some x -> (t ∉ children (inner x)) /\ (u = t -> task_status (inner x) <> Ready)) -> strong_count k t = 0%nat.
Proof.
  intros Hi Hq Hr Hc. unfold strong_count. rewrite !Nat.eq_add_0, holds_sum. split_and!.
  - by rewrite (proj2 (Nat.eqb_neq _ _)).
  - apply count_occ_not_In. by rewrite <- list_elem_of_In.
  - destruct (running (processor k)) as [r|]; [|done]. rewrite (proj2 (Nat.eqb_neq _ _)); [done|congruence].
  - intros [u x] Hx%elem_of_map_to_list. cbn. destruct (Hc u x Hx) as [Hch Hst]. unfold holds.
    rewrite (proj1 (count_occ_not_In Nat.eq_dec _ _)) by (by rewrite <- list_elem_of_In). cbn.
    destruct (task_cx (inner x)) as [| |[]|]; try done. destruct (Nat.eqb_spec u t) as [->|]; [|by destruct (task_status (inner x))].
    by destruct (task_status (inner x)); [destruct (Hst eq_refl)| |].
Qed.
End Count.

Section Exit.
Context {St F : Type} `{BlockStoreSpec St} `{FrameAllocatorSpec F}.
Variables (env : Env) (lo hi N : Z) (base : list (VPNRange * MapType * Z)).
Implicit Types (k : Kernel St F) (W : gmap (option nat) aspace) (v : aspace) (ts : gmap nat TaskControlBlock).
Abbreviation kinv := (kinv env lo hi N base).

(** ** The loop over the children *)
Lemma adopt_ok k c : c <> initproc k -> is_Some (tasks k !! c) -> is_Some (tasks k !! initproc k) -> TaskInner c ∉ borrows k ->
  adopt c k = Ok (tt, set_tasks k (give (tasks k) (initproc k) c)).
Proof.
  intros Hne [ctcb Hc] [itcb Hi] Hb. unfold adopt. rewrite gets_bind. erewrite bind_Ok; [|by apply (poke_inner c ctcb (fun i => set_parent i (Some (initproc k))))].
  erewrite bind_Ok; [|apply (get_inner_ok _ itcb); cbn; by rewrite lookup_insert_ne].
  rewrite (set_inner_ok _ itcb) by (cbn; by rewrite lookup_insert_ne). unfold give. by rewrite Hc, Hi.
Qed.

Lemma give_some ts init c u : is_Some (ts !! u) -> is_Some (give ts init c !! u).
Proof.
  intros Hu. unfold give. destruct (ts !! c), (ts !! init); try done. rewrite lookup_insert. case_decide; [eauto|]. rewrite lookup_insert. case_decide; eauto.
Qed.

Lemma adopt_all cs : forall k, initproc k ∉ cs -> (forall c, c ∈ cs -> is_Some (tasks k !! c) /\ (TaskInner c ∉ borrows k)) -> is_Some (tasks k !! initproc k) ->
  for_each cs (fun child _ => adopt child) tt k = Ok (tt, set_tasks k (adopted (tasks k) (initproc k) cs)).
Proof.
  induction cs as [|c cs IH]; intros k Hni Hc Hi; cbn [for_each].
  - unfold ret, adopted. cbn. do 2 f_equal. by destruct k.
  - apply not_elem_of_cons in Hni as [Hne Hni]. destruct (Hc c) as [Hcs Hb]; [left|].
    erewrite bind_Ok; [|apply adopt_ok; [done|done|done|done]]. rewrite IH; [done|done| |by apply give_some].
    intros d Hd. destruct (Hc d) as [Hds Hdb]; [by right|]. split; [by apply give_some|done].
Qed.

Lemma adopted_insert ts init cs t z : t <> init -> t ∉ cs -> init ∉ cs -> NoDup cs -> (forall c, c ∈ cs -> is_Some (ts !! c)) -> is_Some (ts !! init) ->
  adopted (<[t := z]> ts) init cs = <[t := z]> (adopted ts init cs).
Proof.
  intros Hti Htc Hni Hnd Hl Hi. apply map_eq. intros u.
  rewrite lookup_adopted; [|done|done|intros c Hc; rewrite lookup_insert; case_decide; [eauto|by apply Hl]|by rewrite lookup_insert_ne].
  unfold adopted_at. destruct (decide (u = t)) as [->|Hu].
  - by rewrite decide_False, decide_False, !lookup_insert_eq by done.
  - rewrite !lookup_insert_ne by done. by rewrite lookup_adopted.
Qed.

(** ** The exit *)
Definition exited (tcb : TaskControlBlock) (code : Z) : TaskControlBlock :=
  let i := inner tcb in
  with_inner tcb (mkInner (trap_cx_ppn i) (base_size i) (task_cx i) Zombie (mkMemorySet (page_table (memory_set i)) []) (parent i) [] code (fd_table i)).

Definition exited_state k (t : nat) (tcb : TaskControlBlock) (code : Z) (m : Machine F) : Kernel St F :=
  mkKernel (disk k) m (root_fs k) (kernel_space k) (pid_allocator k) (ready_queue k) (mkProcessor None (idle_task_cx (processor k)))
    (<[t := exited tcb code]> (adopted (tasks k) (initproc k) (children (inner tcb))))
    (initproc k) (files k) (next_ref k) (stvec k) (timer k) (reads k) (console k) (borrows k).

(** The memory of the task: its data frames are returned. *)
Lemma exit_memory k W l a t tcb v : kinv k W l a -> tasks k !! t = Some tcb -> W !! Some t = Some v ->
  user_ok (tramp env) (memory_set (inner tcb)) (trap_cx_ppn (inner tcb)) v ->
  exists m, recycle_data_pages (memory_set (inner tcb)) (machine k) = Ok (mkMemorySet (page_table (memory_set (inner tcb))) [], m) /\
    world lo hi m (<[Some t := mkSpace (as_pt v) (as_G v) ∅ ∅]> W).
Proof.
  intros Hk Ht Hv [Hpt Hwf _ _ _]. pose proof (mi_world _ _ _ _ _ _ _ _ _ (ki_mem _ _ _ _ _ _ _ _ _ Hk)) as HW. pose proof (w_space _ _ _ _ HW _ _ Hv) as Hsp.
  pose proof (ms_ok_wf lo hi _ _ _ v Hwf Hpt Hsp) as Hms. unfold space_of in Hsp. rewrite Hpt in Hsp.
  destruct (recycle_ok lo hi _ _ (memory_set (inner tcb)) _ _ _ Hsp (ms_tracks _ _ _ _ _ _ _ _ Hms)) as (m & E & Hsp' & Hram).
  exists m. split; [done|]. eapply world_update; [exact HW|exact Hv| |].
  - unfold space_of. cbn. rewrite Hpt. exact Hsp'.
  - intros p _. by rewrite Hram.
Qed.

Lemma exit_run k W l a t tcb v code : kinv k W l a -> running (processor k) = Some t -> tasks k !! t = Some tcb -> W !! Some t = Some v ->
  pid tcb <> IDLE_PID ->
  exists m, exit_current_and_run_next env code k = Ok (Switched, exited_state k t tcb code m) /\
    world lo hi m (<[Some t := mkSpace (as_pt v) (as_G v) ∅ ∅]> W).
Proof.
  intros Hk Hr Ht Hv Hpid. destruct (running_task _ _ _ _ _ _ _ _ _ Hk t Hr) as (tcb' & v' & Ht' & Hst & Hv' & Hok).
  assert (tcb' = tcb) as -> by congruence. assert (v' = v) as -> by congruence.
  destruct (exit_memory k W l a t tcb v Hk Ht Hv Hok) as (m & E & HW). exists m. split; [|done].
  pose proof (ki_tree _ _ _ _ _ _ _ _ _ Hk) as [(ti & Hti & Hpi & _ & Hri) Hc Hnd Hp _ Hs]. pose proof (no_borrow _ _ _ _ _ _ _ _ _ Hk) as Hnb.
  pose proof (ki_borrows _ _ _ _ _ _ _ _ _ Hk) as Hb. set (cs := children (inner tcb)). set (init := initproc k) in *.
  assert (Hne : t <> init) by congruence.
  assert (Hni : init ∉ cs). { intros Hin. destruct (Hc _ _ _ Ht Hin) as (x & Hx & Hpx). congruence. }
  assert (Htc : t ∉ cs) by (by apply (Hs t)).
  assert (Hl : forall c, c ∈ cs -> is_Some (tasks k !! c)). { intros c Hin. destruct (Hc _ _ _ Ht Hin) as (x & Hx & _). eauto. }
  unfold exit_current_and_run_next. erewrite bind_Ok; [|by apply take_current_ok]. rewrite Hr. cbn [unwrap lift]. rewrite bind_ret.
  erewrite bind_Ok; [|by apply (get_task_ok t tcb)]. rewrite (proj2 (Z.eqb_neq _ _)) by done.
  erewrite bind_Ok; [|erewrite with_cell_ok; [reflexivity|cbn; apply Hnb| |]].
  2: { erewrite bind_Ok; [|by apply (get_inner_ok t tcb)]. erewrite bind_Ok; [|by apply (set_inner_ok t tcb)]. rewrite gets_bind.
       erewrite bind_Ok; [|erewrite with_cell_ok; [reflexivity|cbn; rewrite Hb; set_solver|apply adopt_all; cbn|cbn; reflexivity]].
       2: done. 2: { intros c Hin. assert (t <> c) by (intros <-; done). assert (init <> c) by (intros <-; done). split; [rewrite lookup_insert_ne by done; by apply Hl|rewrite Hb; fold init; set_solver]. }
       2: { rewrite lookup_insert_ne by done. eauto. }
       cbn. fold init cs. rewrite adopted_insert; [|done|done|done|by apply (Hnd t)|done|eauto].
       erewrite bind_Ok; [|apply get_inner_ok; cbn; apply lookup_insert_eq]. erewrite bind_Ok; [|apply set_inner_ok; cbn; apply lookup_insert_eq].
       erewrite bind_Ok; [|apply get_inner_ok; cbn; apply lookup_insert_eq]. erewrite bind_Ok; [|apply on_machine_ok; cbn; exact E].
       apply set_inner_ok. cbn. apply lookup_insert_eq. }
  2: { cbn. by rewrite Hb. }
  set (k' := exited_state k t tcb code m). match goal with |- context [set_borrows ?a ?b] => replace (set_borrows a b) with k' end.
  2: { unfold k', exited_state. cbn. fold init cs. by rewrite !insert_insert_eq. }
  destruct (Hp t tcb Ht Hne) as (p & pt & Epp & Hpt & Hin).
  assert (Hcount : strong_count k' t <> 0%nat).
  { assert (p <> t). { intros ->. apply Htc. unfold cs. by replace tcb with pt by congruence. }
    destruct (decide (p = init)) as [->|Hpni].
    - eapply (child_counted k' t init); [cbn; rewrite lookup_insert_ne by done; rewrite lookup_adopted by (done || eauto || by apply (Hnd t)); unfold adopted_at; rewrite decide_True by done; fold init; by rewrite Hpt|].
      cbn. set_solver.
    - assert (Hex : exists y, tasks k' !! p = Some y /\ children (inner y) = children (inner pt)).
      { cbn. rewrite lookup_insert_ne by done. rewrite lookup_adopted by (done || eauto || by apply (Hnd t)). unfold adopted_at. rewrite decide_False by done. fold init cs. rewrite Hpt.
        destruct (decide (p ∈ cs)); eexists; by split. }
      destruct Hex as (y & Hy & Ey). eapply (child_counted k' t p y); [done|by rewrite Ey]. }
  erewrite (bind_Ok (drop_arc (loops env) t)); [|].
  2: { destruct (loops env); cbn [drop_arc]; rewrite gets_bind; by rewrite (proj2 (Nat.eqb_neq _ _) Hcount). }
  erewrite bind_Ok; [|apply schedule_none; unfold k'; cbn; rewrite Hb; apply not_elem_of_nil]. done.
Qed.

Lemma sched_exit ts q t z W W' : sched_inv ts q (Some t) W -> task_status (inner z) = Zombie -> (forall u, u <> t -> W' !! Some u = W !! Some u) ->
  sched_inv (<[t := z]> ts) q None W'.
Proof.
  intros [Hnd Hq Hr Hre] Hz HW. destruct (proj1 (Hr t) eq_refl) as (tcb & Ht & Hst). split; [done| | |].
  - intros u. rewrite Hq. destruct (decide (u = t)) as [->|Hne]; [|by rewrite lookup_insert_ne]. rewrite lookup_insert_eq. split; intros (x & Hx & Hxs); congruence.
  - intros u. split; [done|]. destruct (decide (u = t)) as [->|Hne].
    + rewrite lookup_insert_eq. intros (x & [= <-] & Hx). congruence.
    + rewrite lookup_insert_ne by done. intros Hu. apply Hr in Hu. congruence.
  - intros u x w. destruct (decide (u = t)) as [->|Hne].
    + rewrite lookup_insert_eq. intros [= <-]. congruence.
    + rewrite lookup_insert_ne, HW by done. apply Hre.
Qed.

(** The exit of a task keeps the invariant: it is a zombie without data pages,
    and its children are those of [initproc]. *)
Lemma exit_inv k W l a t tcb v code : kinv k W l a -> running (processor k) = Some t -> tasks k !! t = Some tcb -> W !! Some t = Some v ->
  pid tcb <> IDLE_PID ->
  exists m, let W' := <[Some t := mkSpace (as_pt v) (as_G v) ∅ ∅]> W in let k' := exited_state k t tcb code m in
    exit_current_and_run_next env code k = Ok (Switched, k') /\ kinv k' W' l a.
Proof.
  intros Hk Hr Ht Hv Hpid. destruct (exit_run k W l a t tcb v code Hk Hr Ht Hv Hpid) as (m & E & HW). exists m. cbv zeta. split; [done|].
  destruct (running_task _ _ _ _ _ _ _ _ _ Hk t Hr) as (tcb' & v' & Ht' & Hst & Hv' & Hok). assert (tcb' = tcb) as -> by congruence. assert (v' = v) as -> by congruence.
  destruct Hk as [Hb Hm Hsc Htr Hf Hfr Hff]. rewrite Hr in Hsc. pose proof Htr as [(ti & Hti & Hpi & _ & Hri) Hc Hnd _ _ Hs].
  set (cs := children (inner tcb)). set (init := initproc k) in *. set (z := exited tcb code).
  assert (Hne : t <> init) by congruence.
  assert (Hni : init ∉ cs). { intros Hin. destruct (Hc _ _ _ Ht Hin) as (x & Hx & Hpx). congruence. }
  assert (Htc : t ∉ cs) by (by apply (Hs t)).
  assert (Hl : forall c, c ∈ cs -> is_Some (tasks k !! c)). { intros c Hin. destruct (Hc _ _ _ Ht Hin) as (x & Hx & _). eauto. }
  assert (Hsame : same_tasks (<[t := z]> (tasks k)) (<[t := z]> (adopted (tasks k) init cs))).
  { rewrite <- adopted_insert; [|done|done|done|by apply (Hnd t)|done|eauto]. apply adopted_same; [done|by apply (Hnd t)| |rewrite lookup_insert_ne by done; eauto].
    intros c Hin. rewrite lookup_insert. case_decide; [eauto|by apply Hl]. }
  split; cbn; fold init cs z; [done| | | | | |done].
  - eapply mem_inv_same; [exact Hsame|]. apply (mem_inv_replace _ _ _ _ (machine k)); [done|done|done|].
    unfold task_ok. cbn. destruct Hok. by split.
  - eapply sched_inv_same; [exact Hsame|]. eapply sched_exit; [exact Hsc|done|]. intros u Hu. by rewrite lookup_insert_ne by congruence.
  - by apply tree_inv_exit.
  - eapply file_inv_same; [exact Hsame|]. apply file_inv_task; [done|done|]. cbn. intros r. by apply (fi_fds _ _ _ _ _ _ _ Hf t tcb).
  - intros u Hu. apply Hfr. apply (same_tasks_some _ _ _ Hsame) in Hu. rewrite lookup_insert in Hu. case_decide; [subst; eauto|done].
Qed.

(** The exit of [initproc] powers the machine off. *)
Lemma exit_idle k W l a t tcb code : kinv k W l a -> running (processor k) = Some t -> tasks k !! t = Some tcb -> pid tcb = IDLE_PID ->
  exit_current_and_run_next env code k = Ok (PowerOff (code =? 0),
    set_console (set_processor k (mkProcessor None (idle_task_cx (processor k)))) (console k ++ [IdleExit code])).
Proof.
  intros Hk Hr Ht Hpid. pose proof (no_borrow _ _ _ _ _ _ _ _ _ Hk) as Hnb. unfold exit_current_and_run_next.
  erewrite bind_Ok; [|by apply take_current_ok]. rewrite Hr. cbn [unwrap lift]. rewrite bind_ret.
  erewrite bind_Ok; [|by apply (get_task_ok t tcb)]. by rewrite (proj2 (Z.eqb_eq _ _)).
Qed.

End Exit.
