(* ===== verification/KWait.v ===== *)
(** * [sys_waitpid] *)

From S2P Require Import Prelude BlockDev BlockStore Layout Efs Vfs FsInv FsUpdate FsOps FsDir FsSpec FsRefine Address Frames PageTable PtInv PtOps Space MemorySet AreaOps MsOps MsLife UserMem World Kernel OsInode Task Syscall Pids CxMem KLogic KInv KSched KProc KTree KExit.

(** ** The search among the children *)
Definition child_matches (ts : gmap nat TaskControlBlock) (wpid : Z) (c : nat) : bool :=
  (wpid =? -1) || match ts !! c with Some x => w64 wpid =? pid x | None => false end.

Definition child_zombie (ts : gmap nat TaskControlBlock) (c : nat) : bool :=
  match ts !! c with Some x => is_zombie (inner x) | None => false end.

(** The first child that has exited and matches. *)
Fixpoint first_zombie (ts : gmap nat TaskControlBlock) (wpid : Z) (l : list nat) (idx : nat) : option (nat * nat) :=
  match l with
  | [] => None
  | p :: l => if child_zombie ts p && child_matches ts wpid p then Some (idx, p) else first_zombie ts wpid l (S idx)
  end.

Lemma first_zombie_some ts wpid l : forall n i c, first_zombie ts wpid l n = Some (i, c) ->
  exists l1 l2, l = l1 ++ c :: l2 /\ i = (n + length l1)%nat /\ child_zombie ts c = true /\ child_matches ts wpid c = true.
Proof.
  induction l as [|p l IH]; intros n i c; cbn; [done|]. destruct (child_zombie ts p && child_matches ts wpid p) eqn:E.
  - intros [= <- <-]. apply andb_prop in E as [? ?]. exists [], l. split_and!; [done|cbn; lia|done|done].
  - intros (l1 & l2 & -> & -> & ? & ?)%IH. exists (p :: l1), l2. split_and!; [done|cbn; lia|done|done].
Qed.

Lemma first_zombie_none ts wpid l : forall n, first_zombie ts wpid l n = None ->
  forall c, c ∈ l -> child_matches ts wpid c = true -> child_zombie ts c = false.
Proof.
  induction l as [|p l IH]; intros n E c Hc Hm; [by apply not_elem_of_nil in Hc|]. cbn in E.
  destruct (child_zombie ts p && child_matches ts wpid p) eqn:Ep; [done|]. apply elem_of_cons in Hc as [->|Hc]; [|by eapply IH].
  rewrite Hm, andb_true_r in Ep. done.
Qed.

(** ** The tree without a zombie *)
Lemma tree_inv_reap ts init t tcb c ctcb l1 l2 : tree_inv ts init -> ts !! t = Some tcb -> children (inner tcb) = l1 ++ c :: l2 ->
  ts !! c = Some ctcb -> task_status (inner ctcb) = Zombie ->
  tree_inv (delete c (<[t := with_inner tcb (set_children (inner tcb) (l1 ++ l2))]> ts)) init.
Proof.
  intros [(ti & Hti & Hpi & Hzi & Hri) Hc Hnd Hp Hz Hs] Ht Hch Hcc Hzc. set (tcb' := with_inner tcb _).
  assert (Hin : c ∈ children (inner tcb)) by (rewrite Hch; apply elem_of_app; right; left).
  assert (Htc : t <> c) by (intros ->; by apply (Hs c tcb)). assert (Hic : init <> c) by congruence.
  assert (Hpc : parent (inner ctcb) = Some t). { destruct (Hc _ _ _ Ht Hin) as (x & Hx & ?). congruence. }
  pose proof (Hnd t tcb Ht) as Hndt. rewrite Hch in Hndt. apply NoDup_app in Hndt as (Hn1 & Hdis & Hn2). apply NoDup_cons in Hn2 as [Hc2 Hn2].
  assert (Hel : forall d, d ∈ l1 ++ l2 <-> d ∈ children (inner tcb) /\ d <> c).
  { intros d. rewrite Hch, !elem_of_app, elem_of_cons. split; [|naive_solver]. intros [Hd|Hd]; (split; [naive_solver|]); intros ->; [by apply (Hdis c Hd); left|done]. }
  assert (Hback : forall u y, delete c (<[t := tcb']> ts) !! u = Some y -> u <> c /\ exists x, ts !! u = Some x /\ pid y = pid x /\
    parent (inner y) = parent (inner x) /\ task_status (inner y) = task_status (inner x) /\
    (forall d, d ∈ children (inner y) <-> d ∈ children (inner x) /\ d <> c) /\ NoDup (children (inner y))).
  { intros u y [Hne Hy]%lookup_delete_Some. split; [done|]. rewrite lookup_insert in Hy. destruct (decide (t = u)) as [<-|Hu].
    - injection Hy as <-. exists tcb. split_and!; [done..|]. cbn. apply NoDup_app. split_and!; [done| |done]. intros d Hd Hd2. apply (Hdis d Hd). by right.
    - exists y. split_and!; [done..| |by apply (Hnd u)]. intros d. split; [|by intros [? _]]. intros Hd. split; [done|]. intros ->.
      destruct (Hc _ _ _ Hy Hd) as (x & Hx & ?). congruence. }
  assert (Hfwd : forall u x, ts !! u = Some x -> u <> c -> exists y, delete c (<[t := tcb']> ts) !! u = Some y).
  { intros u x Hx Hu. rewrite lookup_delete_ne by done. rewrite lookup_insert. case_decide; eauto. }
  split.
  - destruct (Hfwd _ _ Hti Hic) as (y & Hy). destruct (Hback _ _ Hy) as (_ & x & Hx & E1 & E2 & E3 & _). assert (x = ti) as -> by congruence.
    exists y. split_and!; [done|congruence..].
  - intros u y d (Hu & x & Hx & E1 & E2 & E3 & E4 & E5)%Hback [Hd Hdc]%E4. destruct (Hc _ _ _ Hx Hd) as (z & Hz' & Hpz).
    destruct (Hfwd _ _ Hz' Hdc) as (y' & Hy'). destruct (Hback _ _ Hy') as (_ & x' & Hx' & _ & F2 & _). exists y'. split; [done|]. congruence.
  - by intros u y (Hu & x & Hx & E1 & E2 & E3 & E4 & E5)%Hback.
  - intros u y (Hu & x & Hx & E1 & E2 & E3 & E4 & E5)%Hback Hne. destruct (Hp _ _ Hx Hne) as (p & pt & Epp & Hpt & Hpin).
    assert (p <> c). { intros ->. assert (pt = ctcb) as -> by congruence. rewrite (Hz c ctcb Hcc Hzc) in Hpin. by apply not_elem_of_nil in Hpin. }
    destruct (Hfwd _ _ Hpt ltac:(done)) as (y' & Hy'). destruct (Hback _ _ Hy') as (_ & x' & Hx' & _ & _ & _ & F4 & _). exists p, y'.
    split_and!; [congruence|done|]. apply F4. split; [|done]. by replace x' with pt by congruence.
  - intros u y (Hu & x & Hx & E1 & E2 & E3 & E4 & E5)%Hback Hzy. destruct (children (inner y)) as [|d ds] eqn:E; [done|]. exfalso.
    destruct (proj1 (E4 d)) as [Hd _]; [left|]. rewrite (Hz u x Hx) in Hd by congruence. by apply not_elem_of_nil in Hd.
  - intros u y (Hu & x & Hx & E1 & E2 & E3 & E4 & E5)%Hback [Hd _]%E4. by apply (Hs u x).
Qed.

Section Wait.
Context {St F : Type} `{BlockStoreSpec St} `{FrameAllocatorSpec F}.
Variables (env : Env) (lo hi N : Z) (base : list (VPNRange * MapType * Z)).
Hypothesis Hlo : 0 < lo.
Hypothesis Hlow : low base.
Implicit Types (k : Kernel St F) (W : gmap (option nat) aspace) (v : aspace) (ts : gmap nat TaskControlBlock).
Abbreviation kinv := (kinv env lo hi N base).

Lemma matches_ok k wpid c x : tasks k !! c = Some x -> matches wpid c k = Ok (child_matches (tasks k) wpid c, k).
Proof.
  intros Hx. unfold matches, child_matches. destruct (wpid =? -1); [done|]. erewrite bind_Ok; [|by apply get_task_ok]. by rewrite Hx.
Qed.

Lemma any_child_ok k wpid l : (forall c, c ∈ l -> is_Some (tasks k !! c)) -> any_child wpid l k = Ok (existsb (child_matches (tasks k) wpid) l, k).
Proof.
  induction l as [|c l IH]; intros Hl; cbn [any_child existsb]; [done|]. destruct (Hl c) as [x Hx]; [left|].
  erewrite bind_Ok; [|by eapply matches_ok]. destruct (child_matches (tasks k) wpid c); [done|]. apply IH. intros d Hd. apply Hl. by right.
Qed.

Lemma find_zombie_ok k wpid l : forall n, (forall c, c ∈ l -> is_Some (tasks k !! c) /\ (TaskInner c ∉ borrows k)) ->
  find_zombie wpid l n k = Ok (first_zombie (tasks k) wpid l n, k).
Proof.
  induction l as [|c l IH]; intros n Hl; cbn [find_zombie first_zombie]; [done|]. destruct (Hl c) as [[x Hx] Hb]; [left|].
  erewrite bind_Ok; [|by apply (peek_inner c x is_zombie)]. assert (Ez : child_zombie (tasks k) c = is_zombie (inner x)) by (unfold child_zombie; by rewrite Hx).
  rewrite Ez. destruct (is_zombie (inner x)); cbn [andb].
  - erewrite bind_Ok; [|by eapply matches_ok]. destruct (child_matches (tasks k) wpid c); [done|]. apply IH. intros d Hd. apply Hl. by right.
  - rewrite bind_ret. apply IH. intros d Hd. apply Hl. by right.
Qed.

(** ** Writing the exit code *)
Definition put_i32 (b : list byte) (off value : Z) : list byte := splice b (Z.to_nat off) (enc_word 4 (w32 value)).

Lemma write_i32_ok k W t v ptr value : world lo hi (machine k) W -> W !! Some t = Some v -> 0 <= ptr < 2 ^ 39 -> ptr mod 4 = 0 ->
  data_page (as_G v) (as_D v) (ptr / 4096) ->
  exists b m, as_P v !! (ptr / 4096) = Some b /\ write_i32 (token (as_pt v)) ptr value k = Ok (tt, set_machine k m) /\
    world lo hi m (<[Some t := set_page v (ptr / 4096) (put_i32 b (ptr mod 4096) value)]> W).
Proof.
  intros HW Hv Hp Hal Hd. pose proof Hd as (p & fl & HD & _). destruct (world_page lo hi _ _ _ _ _ _ HW Hv HD) as (b & Hb & _ & Hl).
  assert (Ho : 0 <= ptr mod 4096 <= 4092) by dlia.
  destruct (world_write lo hi _ W (Some t) v (ptr / 4096) p (put_i32 b (ptr mod 4096) value) HW Hv HD) as (m & E & HW').
  { unfold put_i32. rewrite splice_length; [done|]. rewrite enc_word_length, Hl. unfold page_len. lia. }
  exists b, m. split_and!; [done| |done]. pose proof (translated_ref_ok lo hi _ _ _ _ _ _ (w_space _ _ _ _ HW _ _ Hv) Hlo ptr Hp Hd) as Er.
  unfold user_frame in Er. rewrite HD in Er. change (default 0 (Some p)) with p in Er.
  destruct (split_addr p (ptr mod 4096)) as [Ed Em]; [lia|].
  unfold write_i32. erewrite bind_Ok; [|apply on_machine_ok; exact Er]. replace ((p * 4096 + ptr mod 4096) mod 4) with 0 by dlia. cbn [Z.eqb negb].
  unfold floor. change PAGE_SIZE with 4096. rewrite Ed, page_offset_mod, Em.
  erewrite bind_Ok; [|apply on_machine_ok; cbn; by apply (world_read lo hi _ W (Some t) v (ptr / 4096))].
  rewrite (on_machine_ok _ _ tt m); [done|exact E].
Qed.

(** ** The last [Arc] of a zombie *)
Lemma live_delete ts c ctcb : ts !! c = Some ctcb -> (forall t t' x x', ts !! t = Some x -> ts !! t' = Some x' -> pid x = pid x' -> t = t') ->
  live (delete c ts) = live ts ∖ {[pid ctcb]}.
Proof.
  intros Hc Hi. apply set_eq. intros p. rewrite elem_of_difference, elem_of_singleton, !elem_of_live. split.
  - intros (t & x & [Hne Hx]%lookup_delete_Some & <-). split; [eauto|]. intros E. by apply Hne, (Hi c t ctcb x).
  - intros [(t & x & Hx & <-) Hne]. exists t, x. split; [|done]. rewrite lookup_delete_ne; [done|]. intros ->. congruence.
Qed.

Definition reaped k (c : nat) (m : Machine F) (ks : MemorySet) (pids : PidAllocator) : Kernel St F :=
  set_kernel_space (set_machine (set_pid_allocator (set_tasks k (delete c (tasks k))) pids) m) ks.

Lemma drop_zombie k W c ctcb vc fuel : mem_inv env lo hi base (machine k) (kernel_space k) (pid_allocator k) (tasks k) W ->
  tasks k !! c = Some ctcb -> W !! Some c = Some vc -> dead_ok (memory_set (inner ctcb)) vc -> children (inner ctcb) = [] ->
  strong_count k c = 0%nat -> PID_ALLOCATOR ∉ borrows k -> KERNEL_SPACE ∉ borrows k ->
  exists m ks pids vk, drop_arc (S fuel) c k = Ok (tt, reaped k c m ks pids) /\
    mem_inv env lo hi base m ks pids (delete c (tasks k)) (delete (Some c) (<[None := vk]> W)) /\ page_table ks = page_table (kernel_space k).
Proof.
  intros [HW (vk & ps & Hvk & Hko & Hps) Hd Ht Hp Hi Hs Hc] Hct Hvc [Hdp Hda Hdd] Hch Hz Hb1 Hb2.
  assert (Hlv : pid ctcb ∈ live (tasks k)) by (apply elem_of_live; eauto).
  destruct (pid_dealloc_spec _ _ _ Hp Hlv) as (pids & Ep & Hp' & Hcur).
  destruct (list_elem_of_split ps (pid ctcb)) as (ps1 & ps2 & Eps); [by apply Hps|].
  rewrite Eps in Hko. destruct (kernel_stack_remove base Hlow lo hi (machine k) _ _ vk ps1 (pid ctcb) ps2 Hko (w_space _ _ _ _ HW None vk Hvk)) as (ks & m1 & vk' & Er & Hko' & Hsp' & Hsm & Hpt & _).
  assert (HW1 : world lo hi m1 (<[None := vk']> W)) by (by eapply world_update).
  assert (Hvc1 : <[None := vk']> W !! Some c = Some vc) by (by rewrite lookup_insert_ne).
  pose proof (w_space _ _ _ _ HW1 _ _ Hvc1) as Hspc. unfold space_of in Hspc. rewrite Hdp, Hdd in Hspc.
  destruct (drop_ok lo hi m1 _ (memory_set (inner ctcb)) _ ∅ _ Hspc) as (m2 & Ed & Hm2 & Hram).
  { unfold tracks, ms_frames. rewrite Hda. split; [constructor|]. intros p. split; [by intros ?%not_elem_of_nil|]. intros (x & Hx). by rewrite lookup_empty in Hx. }
  exists m2, ks, pids, vk'. pose proof (ko_nodup _ _ _ _ Hko) as Hnd.
  apply NoDup_app in Hnd as (Hn1 & Hdis & Hn2). apply NoDup_cons in Hn2 as [Hc2 _]. split; [|split; [split|done]].
  - cbn [drop_arc]. rewrite gets_bind, Hz. cbn [Nat.eqb negb]. erewrite bind_Ok; [|by apply get_task_ok]. rewrite update_bind.
    erewrite bind_Ok; [|unfold drop_pid; erewrite with_cell_ok; [reflexivity|done|rewrite gets_bind; cbn [pid_allocator set_borrows set_tasks]; rewrite Ep; reflexivity|done]].
    erewrite bind_Ok; [|unfold drop_kernel_stack; rewrite (Hs c ctcb Hct)].
    2: { assert (Hpm : 0 <= pid ctcb < max_pid). { apply (proj1 (Forall_forall _ _) (ko_pids _ _ _ _ Hko)). set_solver. }
         destruct (stack_area_new (pid ctcb) Hpm) as [_ Epg]. destruct (kernel_stack_position (pid ctcb)) as [bottom top]. cbn [fst] in Epg. rewrite Epg. cbn [lift]. rewrite bind_ret.
         erewrite with_cell_ok; [reflexivity|done|rewrite gets_bind; erewrite bind_Ok; [|apply on_machine_ok; cbn; exact Er]; reflexivity|done]. }
    erewrite bind_Ok; [|apply on_machine_ok; cbn; exact Ed]. by rewrite Hch.
  - eapply world_delete; [exact HW1|exact Hm2|]. intros p _. by rewrite Hram.
  - exists vk', (ps1 ++ ps2). rewrite lookup_delete_ne, lookup_insert_eq by done. split_and!; [done|done|]. intros p.
    rewrite (live_delete _ _ _ Hct Hi), elem_of_difference, elem_of_singleton, <- Hps, Eps, !elem_of_app, elem_of_cons. split; [|naive_solver].
    intros [Hin|Hin]; (split; [naive_solver|]); intros ->; [by apply (Hdis _ Hin); left|done].
  - intros t. destruct (decide (t = c)) as [->|Hne]; [rewrite !lookup_delete_eq; split; by intros [??]|]. rewrite !lookup_delete_ne, lookup_insert_ne by congruence. apply Hd.
  - intros t x v [Hne Hx]%lookup_delete_Some. rewrite lookup_delete_ne, lookup_insert_ne by congruence. by apply Ht.
  - by rewrite (live_delete _ _ _ Hct Hi).
  - intros t t' x x' [_ Hx]%lookup_delete_Some [_ Hx']%lookup_delete_Some. by apply Hi.
  - intros t x [_ Hx]%lookup_delete_Some. by apply (Hs t).
  - by rewrite Hcur.
Qed.

(** The queue and the processor do not see the zombie. *)
Lemma sched_reap ts q r W W' t tcb i c ctcb : sched_inv ts q r W -> ts !! t = Some tcb -> ts !! c = Some ctcb ->
  task_status i = task_status (inner tcb) /\ task_cx i = task_cx (inner tcb) -> task_status (inner ctcb) = Zombie ->
  (forall u w, u <> c -> W' !! Some u = Some w -> exists w0, W !! Some u = Some w0 /\ as_D w0 = as_D w) ->
  sched_inv (delete c (<[t := with_inner tcb i]> ts)) q r W'.
Proof.
  intros [Hnd Hq Hr Hre] Ht Hc [Es Ec] Hz HW. set (ts' := delete c _).
  assert (Hback : forall u y, ts' !! u = Some y -> exists x, ts !! u = Some x /\ u <> c /\ task_status (inner y) = task_status (inner x) /\ task_cx (inner y) = task_cx (inner x)).
  { intros u y [Hne Hy]%lookup_delete_Some. rewrite lookup_insert in Hy. case_decide; [subst; injection Hy as <-; eauto 10|eauto 10]. }
  assert (Hex : forall u s, s <> Zombie -> (exists y, ts' !! u = Some y /\ task_status (inner y) = s) <-> (exists x, ts !! u = Some x /\ task_status (inner x) = s)).
  { intros u s Hs. split.
    - intros (y & Hy & Hys). destruct (Hback u y Hy) as (x & Hx & _ & E & _). exists x. split; [done|congruence].
    - intros (x & Hx & Hxs). assert (u <> c) by congruence. unfold ts'. rewrite lookup_delete_ne, lookup_insert by done. case_decide; [subst t|eauto].
      eexists. split; [done|]. cbn. congruence. }
  split; [done| | |].
  - intros u. by rewrite Hq, Hex.
  - intros u. by rewrite Hr, Hex.
  - intros u y w Hy Hys Hw. destruct (Hback u y Hy) as (x & Hx & Huc & E1 & E2). destruct (HW u w Huc Hw) as (w0 & Hw0 & ED).
    rewrite E2. pose proof (Hre u x w0 Hx ltac:(congruence) Hw0) as Hres. unfold resumable, place_ok in *. destruct (task_cx (inner x)) as [| |[]|]; try done. by rewrite <- ED.
Qed.

(** ** The three results *)
Section Results.
Variables (k : Kernel St F) (W : gmap (option nat) aspace) (l : directory) (a : named_files) (t : nat) (tcb : TaskControlBlock) (v : aspace) (wpid ptr : Z).
Hypothesis Hk : kinv k W l a.
Hypothesis Hr : running (processor k) = Some t.
Hypothesis Ht : tasks k !! t = Some tcb.
Hypothesis Hv : W !! Some t = Some v.

Lemma children_live c : c ∈ children (inner tcb) -> is_Some (tasks k !! c) /\ c <> t.
Proof.
  intros Hin. pose proof (ki_tree _ _ _ _ _ _ _ _ _ Hk) as [_ Hc _ _ _ Hs]. destruct (Hc _ _ _ Ht Hin) as (x & Hx & _). split; [eauto|].
  intros ->. by apply (Hs t tcb).
Qed.

Lemma wait_no_child : existsb (child_matches (tasks k) wpid) (children (inner tcb)) = false -> sys_waitpid env wpid ptr k = Ok (Value (-1), k).
Proof.
  intros He. unfold sys_waitpid. erewrite bind_Ok; [|apply (current_task_ok t); [by eapply no_borrow|done]].
  erewrite with_cell_ok; [| | |].
  2: by eapply no_borrow.
  2: { erewrite bind_Ok; [|by apply (get_inner_ok t tcb)]. erewrite bind_Ok; [|apply any_child_ok; intros c Hc; by apply children_live]. cbn [tasks set_borrows]. rewrite He. reflexivity. }
  2: done.
  do 2 f_equal. by destruct k.
Qed.

Lemma wait_running : existsb (child_matches (tasks k) wpid) (children (inner tcb)) = true ->
  first_zombie (tasks k) wpid (children (inner tcb)) 0 = None -> sys_waitpid env wpid ptr k = Ok (Value (-2), k).
Proof.
  intros He Hf. unfold sys_waitpid. erewrite bind_Ok; [|apply (current_task_ok t); [by eapply no_borrow|done]].
  erewrite with_cell_ok; [| | |].
  2: by eapply no_borrow.
  2: { erewrite bind_Ok; [|by apply (get_inner_ok t tcb)]. erewrite bind_Ok; [|apply any_child_ok; intros c Hc; by apply children_live]. cbn [tasks set_borrows]. rewrite He. cbn [negb].
       erewrite bind_Ok; [|apply find_zombie_ok; intros c Hc; destruct (children_live c Hc) as [? ?]; split; [done|cbn; rewrite (ki_borrows _ _ _ _ _ _ _ _ _ Hk); set_solver]].
       cbn [tasks set_borrows]. rewrite Hf. reflexivity. }
  2: done.
  do 2 f_equal. by destruct k.
Qed.

(** The child found is a zombie whose only [Arc] was in the list of children. *)
Lemma zombie_child c : c ∈ children (inner tcb) -> child_zombie (tasks k) c = true ->
  exists ctcb vc, tasks k !! c = Some ctcb /\ task_status (inner ctcb) = Zombie /\ W !! Some c = Some vc /\ dead_ok (memory_set (inner ctcb)) vc /\
    children (inner ctcb) = [] /\ c <> initproc k /\ (c ∉ ready_queue k) /\ parent (inner ctcb) = Some t.
Proof.
  intros Hin Hz. unfold child_zombie in Hz. destruct (tasks k !! c) as [ctcb|] eqn:Hc; [|done]. apply bool_decide_eq_true in Hz.
  destruct (task_space _ _ _ _ _ _ _ _ _ Hk c ctcb Hc) as (vc & Hvc & Hok). unfold task_ok in Hok. rewrite decide_True in Hok by done.
  pose proof (ki_tree _ _ _ _ _ _ _ _ _ Hk) as [(ti & Hti & _ & Hzi & _) Hch _ _ Hzz _]. destruct (Hch _ _ _ Ht Hin) as (x & Hx & Hpx).
  exists ctcb, vc. split_and!; [done..|by apply (Hzz c)|congruence| |congruence].
  rewrite (sc_queue _ _ _ _ (ki_sched _ _ _ _ _ _ _ _ _ Hk)). intros (y & Hy & Hys). congruence.
Qed.

Lemma zombie_uncounted c ctcb l1 l2 k' : children (inner tcb) = l1 ++ c :: l2 -> tasks k !! c = Some ctcb -> task_status (inner ctcb) = Zombie ->
  c <> initproc k -> (c ∉ ready_queue k) ->
  tasks k' = <[t := with_inner tcb (set_children (inner tcb) (l1 ++ l2))]> (tasks k) -> ready_queue k' = ready_queue k ->
  processor k' = processor k -> initproc k' = initproc k -> strong_count k' c = 0%nat.
Proof.
  intros Hch Hc Hz Hi Hq Ets Eq Ep Ei. assert (Hin : c ∈ children (inner tcb)) by (rewrite Hch; apply elem_of_app; right; left).
  destruct (children_live c Hin) as [_ Hct]. pose proof (ki_tree _ _ _ _ _ _ _ _ _ Hk) as [_ Hcd Hnd _ _ _].
  destruct (Hcd _ _ _ Ht Hin) as (x & Hx & Hpx). apply not_counted.
  - by rewrite Ei.
  - by rewrite Eq.
  - rewrite Ep, Hr. congruence.
  - intros u y. rewrite Ets, lookup_insert. destruct (decide (t = u)) as [<-|Hu].
    + intros [= <-]. split; [|by intros ->]. cbn. pose proof (Hnd t tcb Ht) as Hn. rewrite Hch in Hn. apply NoDup_app in Hn as (_ & Hdis & Hn2).
      apply NoDup_cons in Hn2 as [Hc2 _]. intros [Hd|Hd]%elem_of_app; [apply (Hdis c Hd); left|done].
    + intros Hy. split; [|intros ->; congruence]. intros Hd. destruct (Hcd _ _ _ Hy Hd) as (x' & Hx' & Hpx'). congruence.
Qed.

(** The exit code is written, and nothing of the child is left. *)
Lemma wait_found idx c : existsb (child_matches (tasks k) wpid) (children (inner tcb)) = true ->
  first_zombie (tasks k) wpid (children (inner tcb)) 0 = Some (idx, c) ->
  0 <= ptr < 2 ^ 39 -> ptr mod 4 = 0 -> data_page (as_G v) (as_D v) (ptr / 4096) -> loops env <> 0%nat ->
  exists ctcb l1 l2 b k' W', children (inner tcb) = l1 ++ c :: l2 /\ tasks k !! c = Some ctcb /\ task_status (inner ctcb) = Zombie /\
    child_matches (tasks k) wpid c = true /\ as_P v !! (ptr / 4096) = Some b /\
    sys_waitpid env wpid ptr k = Ok (Value (pid ctcb), k') /\ kinv k' W' l a /\
    tasks k' = delete c (<[t := with_inner tcb (set_children (inner tcb) (l1 ++ l2))]> (tasks k)) /\
    ready_queue k' = ready_queue k /\ processor k' = processor k /\ files k' = files k /\
    W' !! Some t = Some (set_page v (ptr / 4096) (put_i32 b (ptr mod 4096) (exit_code (inner ctcb)))) /\ W' !! Some c = None /\
    (forall u, u <> t -> u <> c -> W' !! Some u = W !! Some u) /\ ms_token (kernel_space k') = ms_token (kernel_space k).
Proof.
  intros He Hf Hp Hal Hd Hfu. destruct (first_zombie_some _ _ _ _ _ _ Hf) as (l1 & l2 & Hch & -> & Hz & Hma). cbn [Nat.add] in *.
  assert (Hin : c ∈ children (inner tcb)) by (rewrite Hch; apply elem_of_app; right; left). destruct (children_live c Hin) as [_ Hct].
  destruct (zombie_child c Hin Hz) as (ctcb & vc & Hc & Hcz & Hvc & Hdead & Hcch & Hci & Hcq & Hcp). pose proof (ki_borrows _ _ _ _ _ _ _ _ _ Hk) as Hb.
  destruct (running_task _ _ _ _ _ _ _ _ _ Hk t Hr) as (tcb' & v' & Ht' & Hst & Hv' & Hok). assert (tcb' = tcb) as -> by congruence. assert (v' = v) as -> by congruence.
  set (i' := set_children (inner tcb) (l1 ++ l2)). set (ts1 := <[t := with_inner tcb i']> (tasks k)).
  set (k2 := set_tasks (set_borrows k [TaskInner t]) ts1).
  assert (Hm2 : mem_inv env lo hi base (machine k) (kernel_space k) (pid_allocator k) ts1 W) by (by apply mem_inv_task; [apply Hk|..]).
  destruct (write_i32_ok k2 W t v ptr (exit_code (inner ctcb)) (mi_world _ _ _ _ _ _ _ _ _ Hm2) Hv Hp Hal Hd) as (b & m & HPb & Ew & HW1).
  set (v1 := set_page v (ptr / 4096) _) in HW1. set (W1 := <[Some t := v1]> W) in *. set (k3 := set_machine k2 m) in Ew.
  assert (Hm3 : mem_inv env lo hi base m (kernel_space k) (pid_allocator k) ts1 W1) by (by apply (mem_inv_world _ _ _ _ (machine k))).
  assert (Hc1 : ts1 !! c = Some ctcb) by (unfold ts1; by rewrite lookup_insert_ne).
  assert (Hn : forall k', tasks k' = ts1 -> ready_queue k' = ready_queue k -> processor k' = processor k -> initproc k' = initproc k -> strong_count k' c = 0%nat).
  { intros k'. by apply (zombie_uncounted c ctcb l1 l2). }
  destruct (loops env) as [|fuel] eqn:Hfuel; [done|].
  destruct (drop_zombie k3 W1 c ctcb vc fuel) as (m' & ks & pids & vk & Ed & Hm4 & Hks); [exact Hm3|exact Hc1|unfold W1; by rewrite lookup_insert_ne by congruence|done|done|by apply Hn|unfold k3; cbn; set_solver|unfold k3; cbn; set_solver|].
  exists ctcb, l1, l2, b, (set_borrows (reaped k3 c m' ks pids) []), (delete (Some c) (<[None := vk]> W1)).
  split_and!; [done|done|done|done|done| | |done|done|done|done| |apply lookup_delete_eq| |unfold ms_token; cbn; by rewrite Hks].
  - unfold sys_waitpid. erewrite bind_Ok; [|apply (current_task_ok t); [by eapply no_borrow|done]]. erewrite with_cell_ok; [| | |]; cycle 1.
    { by eapply no_borrow. }
    { rewrite Hb. erewrite bind_Ok; [|by apply (get_inner_ok t tcb)]. erewrite bind_Ok; [|apply any_child_ok; intros d Hd'; by apply children_live]. cbn [tasks set_borrows]. rewrite He. cbn [negb].
      erewrite bind_Ok; [|apply find_zombie_ok; intros d Hd'; destruct (children_live d Hd') as [? ?]; split; [done|cbn; set_solver]].
      cbn [tasks set_borrows]. rewrite Hf. cbv iota. rewrite Hch, delete_middle. erewrite bind_Ok; [|by apply (set_inner_ok t tcb)]. rewrite gets_bind, Hn by done. cbn [Nat.add Nat.eqb assert]. rewrite bind_ret.
      erewrite bind_Ok; [|apply (get_task_ok c ctcb); exact Hc1]. erewrite bind_Ok; [|apply (peek_inner c ctcb exit_code); [cbn; set_solver|exact Hc1]].
      unfold ms_token. rewrite <- (uo_pt _ _ _ _ Hok). erewrite bind_Ok; [|exact Ew]. rewrite Hfuel. erewrite bind_Ok; [|exact Ed]. reflexivity. }
    { cbn. by rewrite Hb. }
    rewrite Hb. do 2 f_equal. f_equal. unfold as_isize. rewrite (proj2 (Z.ltb_lt _ _)); [done|].
    destruct (mi_kernel _ _ _ _ _ _ _ _ _ (ki_mem _ _ _ _ _ _ _ _ _ Hk)) as (? & ps & _ & Hko & Hps). pose proof (ko_pids _ _ _ _ Hko) as Hall. rewrite Forall_forall in Hall.
    assert (0 <= pid ctcb < max_pid) by (apply Hall, Hps, elem_of_live; eauto). unfold max_pid in *. lia.
  - pose proof Hk as [_ _ Hsc Htr Hfi Hfr Hff]. split; cbn; [done|exact Hm4| | | | |done].
    + eapply sched_reap; [exact Hsc|done|done|done|by rewrite Hcz|]. intros u w Huc. rewrite lookup_delete_ne, lookup_insert_ne by congruence. unfold W1.
      rewrite lookup_insert. case_decide; [|eauto]. intros [= <-]. exists v. split; [congruence|done].
    + by apply (tree_inv_reap _ _ _ _ _ ctcb).
    + destruct Hfi as [Hf1 Hf2 Hf3 Hf4 Hf5]. split; [done..|]. intros u x r [_ Hx]%lookup_delete_Some. unfold ts1 in Hx. rewrite lookup_insert in Hx.
      case_decide; [|by apply (Hf5 u)]. injection Hx as <-. by apply (Hf5 t tcb).
    + intros u [x [_ Hx]%lookup_delete_Some]. apply Hfr. unfold ts1 in Hx. rewrite lookup_insert in Hx. case_decide; [subst; eauto|eauto].
  - rewrite lookup_delete_ne, lookup_insert_ne by congruence. apply lookup_insert_eq.
  - intros u Hu Huc. rewrite lookup_delete_ne, lookup_insert_ne by congruence. unfold W1. by rewrite lookup_insert_ne by congruence.
Qed.

End Results.

End Wait.
