(* ===== verification/KTable.v ===== *)
(** * The process table of the kernel

    The abstract table of a kernel state, and the transition of the table that
    each change of the tasks is. *)

From S2P Require Import Prelude BlockDev BlockStore Layout Efs Vfs FsInv FsUpdate FsOps FsDir FsSpec FsRefine Address Frames PageTable PtInv PtOps Space MemorySet AreaOps MsOps MsLife UserMem World Proc Kernel OsInode Task Syscall Pids CxMem KLogic KInv KSched KProc KFork KTree KExit KWait.

(** ** Tables of tasks *)
Definition pid_at (ts : gmap nat TaskControlBlock) (t : nat) : Z := match ts !! t with Some x => pid x | None => 0 end.

Definition proc_of (ts : gmap nat TaskControlBlock) (x : TaskControlBlock) : proc :=
  mkProc (pid_at ts <$> parent (inner x)) (pid_at ts <$> children (inner x)) (if is_zombie (inner x) then Exited (exit_code (inner x)) else Alive).

Definition procs_of (ts : gmap nat TaskControlBlock) : gmap Z proc :=
  list_to_map ((fun y => (pid y.2, proc_of ts y.2)) <$> map_to_list ts).

Definition pids_inj (ts : gmap nat TaskControlBlock) : Prop :=
  forall t t' x x', ts !! t = Some x -> ts !! t' = Some x' -> pid x = pid x' -> t = t'.

Lemma procs_of_lookup ts p x : pids_inj ts -> procs_of ts !! p = Some x <-> exists t y, ts !! t = Some y /\ pid y = p /\ proc_of ts y = x.
Proof.
  intros Hi. unfold procs_of. rewrite <- elem_of_list_to_map.
  - rewrite list_elem_of_fmap. split.
    + intros ([t y] & [= -> ->] & Hy%elem_of_map_to_list). by exists t, y.
    + intros (t & y & Ht & <- & <-). exists (t, y). split; [done|by apply elem_of_map_to_list].
  - rewrite <- list_fmap_compose. apply NoDup_fmap_2_strong; [|apply NoDup_map_to_list].
    intros [t y] [t' y'] Hy%elem_of_map_to_list Hy'%elem_of_map_to_list E. cbn in E. assert (t' = t) as -> by (symmetry; by apply (Hi t t' y y')). congruence.
Qed.

Lemma procs_of_at ts t y : pids_inj ts -> ts !! t = Some y -> procs_of ts !! pid y = Some (proc_of ts y).
Proof. intros Hi Ht. apply procs_of_lookup; eauto. Qed.

Lemma procs_of_fresh ts p : pids_inj ts -> p ∉ live ts -> procs_of ts !! p = None.
Proof. intros Hi Hp. apply eq_None_not_Some. intros [x (t & y & Ht & <- & _)%procs_of_lookup]; [|done]. apply Hp, elem_of_live. eauto. Qed.

Lemma pid_at_eq ts t x : ts !! t = Some x -> pid_at ts t = pid x.
Proof. unfold pid_at. by intros ->. Qed.

(** Tables are compared entry by entry. *)
Lemma procs_of_eq ts m : pids_inj ts -> (forall t y, ts !! t = Some y -> m !! pid y = Some (proc_of ts y)) ->
  (forall p, is_Some (m !! p) -> p ∈ live ts) -> procs_of ts = m.
Proof.
  intros Hi Hf Hb. apply map_eq. intros p. destruct (m !! p) as [x|] eqn:E.
  - destruct (proj1 (elem_of_live ts p) (Hb p ltac:(eauto))) as (t & y & Ht & <-). rewrite (procs_of_at ts t y Hi Ht). rewrite <- E. symmetry. by apply (Hf t).
  - apply procs_of_fresh; [done|]. intros (t & y & Ht & <-)%elem_of_live. by rewrite (Hf t y Ht) in E.
Qed.

(** The references of a task are those of tasks. *)
Lemma refs_live ts init t x : tree_inv ts init -> ts !! t = Some x ->
  (forall r, parent (inner x) = Some r -> is_Some (ts !! r)) /\ (forall r, r ∈ children (inner x) -> is_Some (ts !! r)).
Proof.
  intros [(ti & Hti & _ & _ & Hri) Hc _ Hp _ _] Ht. split.
  - intros r Hr. destruct (decide (t = init)) as [->|Hne]; [congruence|]. destruct (Hp t x Ht Hne) as (p & y & E & Hy & _). rewrite Hr in E. injection E as <-. eauto.
  - intros r Hr. destruct (Hc t x r Ht Hr) as (y & Hy & _). eauto.
Qed.

Lemma proc_of_ext ts ts' init t x : tree_inv ts init -> ts !! t = Some x -> (forall r, is_Some (ts !! r) -> r ∈ children (inner x) \/ parent (inner x) = Some r -> pid_at ts' r = pid_at ts r) ->
  proc_of ts' x = proc_of ts x.
Proof.
  intros Htr Ht He. destruct (refs_live ts init t x Htr Ht) as [Hp Hc]. unfold proc_of. f_equal.
  - destruct (parent (inner x)) as [r|]; [|done]. cbn. f_equal. apply He; [by apply Hp|by right].
  - apply list_fmap_ext. intros i r Hr%list_elem_of_lookup_2. apply He; [by apply Hc|by left].
Qed.

Lemma pid_at_insert ts t x y r : ts !! t = Some x -> pid y = pid x -> pid_at (<[t := y]> ts) r = pid_at ts r.
Proof. intros Ht E. unfold pid_at. rewrite lookup_insert. destruct (decide (t = r)) as [<-|]; [by rewrite Ht|done]. Qed.

(** ** Changes the table does not see *)
Lemma procs_of_task ts init t x i : pids_inj ts -> tree_inv ts init -> ts !! t = Some x -> parent i = parent (inner x) -> children i = children (inner x) ->
  is_zombie i = is_zombie (inner x) -> exit_code i = exit_code (inner x) -> procs_of (<[t := with_inner x i]> ts) = procs_of ts.
Proof.
  intros Hi Htr Ht Ep Ec Ez Ee. set (ts' := <[t := with_inner x i]> ts).
  assert (Hpid : forall r, pid_at ts' r = pid_at ts r) by (intros r; by apply (pid_at_insert ts t x)).
  assert (Hback : forall u y, ts' !! u = Some y -> exists z, ts !! u = Some z /\ pid y = pid z /\ proc_of ts' y = proc_of ts z).
  { intros u y. unfold ts' at 1. rewrite lookup_insert. destruct (decide (t = u)) as [<-|Hne]; intros Hy.
    - injection Hy as <-. exists x. split_and!; [done|done|]. unfold proc_of. cbn. rewrite Ep, Ec, Ez, Ee. f_equal; [|by apply list_fmap_ext]. destruct (parent (inner x)); [cbn; by rewrite Hpid|done].
    - exists y. split_and!; [done|done|]. by apply (proc_of_ext ts ts' init u). }
  apply procs_of_eq.
  - intros u u' y y' (z & Hz & E & _)%Hback (z' & Hz' & E' & _)%Hback Ey. apply (Hi u u' z z'); congruence.
  - intros u y (z & Hz & -> & ->)%Hback. by apply (procs_of_at ts u).
  - intros p [y (u & z & Hz & <- & _)%procs_of_lookup]; [|done]. apply elem_of_live. destruct (decide (u = t)) as [->|Hne].
    + exists t, (with_inner x i). unfold ts'. rewrite lookup_insert_eq. split; [done|]. assert (z = x) as -> by congruence. done.
    + exists u, z. unfold ts'. by rewrite lookup_insert_ne.
Qed.

(** ** A new task *)
Lemma procs_of_fork ts init t c x y : pids_inj ts -> tree_inv ts init -> ts !! t = Some x -> ts !! c = None -> pid y ∉ live ts ->
  parent (inner y) = Some t -> children (inner y) = [] -> is_zombie (inner y) = false ->
  procs_of (<[t := with_inner x (set_children (inner x) (children (inner x) ++ [c]))]> (<[c := y]> ts)) =
    <[pid y := mkProc (Some (pid x)) [] Alive]> (alter (add_children [pid y]) (pid x) (procs_of ts)).
Proof.
  intros Hi Htr Ht Hc Hp Ep Ec Ez. set (x' := with_inner x _). set (ts' := <[t := x']> _).
  assert (Htc : t <> c) by congruence. assert (Hxy : pid y <> pid x) by (intros E; apply Hp, elem_of_live; eauto).
  assert (Hpid : forall r, r <> c -> pid_at ts' r = pid_at ts r).
  { intros r Hr. unfold pid_at, ts'. destruct (decide (t = r)) as [<-|Hne]; [by rewrite lookup_insert_eq, Ht|]. by rewrite !lookup_insert_ne. }
  assert (Hpc : pid_at ts' c = pid y) by (unfold pid_at, ts'; by rewrite lookup_insert_ne, lookup_insert_eq).
  assert (Hext : forall u z, ts !! u = Some z -> proc_of ts' z = proc_of ts z).
  { intros u z Hz. apply (proc_of_ext ts ts' init u); [done|done|]. intros r [? Hr] _. apply Hpid. congruence. }
  assert (Hx' : proc_of ts' x' = add_children [pid y] (proc_of ts x)).
  { rewrite <- (Hext t x Ht). unfold proc_of, add_children, x'. cbn. by rewrite fmap_app, list_fmap_singleton, Hpc. }
  assert (Hcase : forall u z, ts' !! u = Some z -> (u = t /\ z = x') \/ (u = c /\ z = y) \/ (u <> t /\ u <> c /\ ts !! u = Some z)).
  { intros u z. unfold ts'. rewrite !lookup_insert. repeat case_decide; intros E; naive_solver. }
  assert (Hl : forall u z, ts !! u = Some z -> pid z <> pid y) by (intros u z Hz E; apply Hp, elem_of_live; eauto).
  apply procs_of_eq.
  - intros u u' z z' Hz Hz' E. destruct (Hcase u z Hz) as [[-> ->]|[[-> ->]|(H1 & H2 & H3)]], (Hcase u' z' Hz') as [[-> ->]|[[-> ->]|(H1' & H2' & H3')]]; try done; cbn in E.
    + by apply (Hi t u' x z').
    + by destruct (Hl u' z' H3').
    + by apply (Hi u t z x).
    + by destruct (Hl u z H3).
    + by apply (Hi u u' z z').
  - intros u z Hz. destruct (Hcase u z Hz) as [[-> ->]|[[-> ->]|(H1 & H2 & H3)]].
    + change (pid x') with (pid x). rewrite lookup_insert_ne, lookup_alter_eq, (procs_of_at ts t x) by done. by rewrite Hx'.
    + rewrite lookup_insert_eq. unfold proc_of. rewrite Ep, Ec, Ez. cbn. by rewrite Hpid, (pid_at_eq ts t x).
    + rewrite lookup_insert_ne by (intros E; by apply (Hl u z H3)). rewrite lookup_alter_ne by (intros E; apply H1; by apply (Hi u t z x)).
      by rewrite (procs_of_at ts u z), (Hext u z).
  - intros p Hs. apply elem_of_live. destruct (decide (p = pid y)) as [->|Hne]; [exists c, y; unfold ts'; by rewrite lookup_insert_ne, lookup_insert_eq|].
    rewrite lookup_insert_ne, lookup_alter_is_Some in Hs by done. destruct Hs as [w (u & z & Hz & <- & _)%procs_of_lookup]; [|done].
    destruct (decide (u = t)) as [->|Hu]; [exists t, x'; unfold ts'; rewrite lookup_insert_eq; split; [done|]; by assert (z = x) as -> by congruence|].
    exists u, z. unfold ts'. rewrite !lookup_insert_ne by congruence. done.
Qed.

(** ** A task that exits *)
Lemma pid_at_adopted ts init t x code r : tree_inv ts init -> ts !! t = Some x -> pid_at (<[t := exited x code]> (adopted ts init (children (inner x)))) r = pid_at ts r.
Proof.
  intros Htr Ht. pose proof Htr as [(ti & Hti & _ & _ & Hri) Hc Hnd _ _ Hs]. unfold pid_at. rewrite lookup_insert. destruct (decide (t = r)) as [<-|Hne]; [by rewrite Ht|].
  rewrite lookup_adopted; [|intros Hin; destruct (Hc _ _ _ Ht Hin) as (y & Hy & E); congruence|by apply (Hnd t)|intros c Hin; destruct (Hc _ _ _ Ht Hin) as (y & Hy & _); eauto|eauto].
  unfold adopted_at. destruct (decide (r = init)), (decide (r ∈ children (inner x))); by destruct (ts !! r).
Qed.

Lemma parent_iff ts init t x u y : pids_inj ts -> tree_inv ts init -> ts !! t = Some x -> ts !! u = Some y ->
  (pid_at ts <$> parent (inner y)) = Some (pid x) <-> u ∈ children (inner x).
Proof.
  intros Hi Htr Ht Hu. pose proof Htr as [(ti & Hti & _ & _ & Hri) Hc _ Hp _ _]. split.
  - intros E. destruct (parent (inner y)) as [r|] eqn:Er; [|done]. injection E as E. destruct (decide (u = init)) as [->|Hne]; [congruence|].
    destruct (Hp u y Hu Hne) as (p & z & Ep & Hz & Hin). rewrite Er in Ep. injection Ep as <-. rewrite (pid_at_eq ts r z Hz) in E.
    assert (r = t) as -> by (by apply (Hi r t z x)). congruence.
  - intros Hin. destruct (Hc _ _ _ Ht Hin) as (z & Hz & Ep). assert (z = y) as -> by congruence. rewrite Ep. cbn. by rewrite (pid_at_eq ts t x).
Qed.

Lemma procs_of_exit ts init t x code : pids_inj ts -> tree_inv ts init -> ts !! t = Some x -> pid x <> IDLE_PID ->
  procs_of (<[t := exited x code]> (adopted ts init (children (inner x)))) =
    alter (fun z => mkProc (p_parent z) [] (Exited code)) (pid x) (alter (add_children (pid_at ts <$> children (inner x))) INIT (reparent (pid x) <$> procs_of ts)).
Proof.
  intros Hi Htr Ht Hpx. pose proof Htr as [(ti & Hti & Hpi & _ & Hri) Hc Hnd Hp _ Hself]. set (cs := children (inner x)). set (ts' := <[t := _]> _). set (m := reparent (pid x) <$> procs_of ts).
  assert (Hpid : forall r, pid_at ts' r = pid_at ts r) by (intros r; by apply pid_at_adopted).
  assert (Hni : init ∉ cs) by (intros Hin; destruct (Hc _ _ _ Ht Hin) as (y & Hy & E); congruence).
  assert (Hlook : forall u, u <> t -> ts' !! u = adopted_at ts init cs u).
  { intros u Hu. unfold ts'. rewrite lookup_insert_ne by done. apply lookup_adopted; [done|by apply (Hnd t)|intros c Hin; destruct (Hc _ _ _ Ht Hin) as (y & Hy & _); eauto|eauto]. }
  assert (Hback : forall u z, ts' !! u = Some z -> exists y, ts !! u = Some y /\ pid z = pid y /\ (u = t -> z = exited x code) /\ (u <> t -> adopted_at ts init cs u = Some z)).
  { intros u z Hz. destruct (decide (u = t)) as [->|Hu]; [unfold ts' in Hz; rewrite lookup_insert_eq in Hz; injection Hz as <-; exists x; by split_and!|].
    rewrite Hlook in Hz by done. unfold adopted_at in Hz |- *. destruct (ts !! u) as [y|]; [|repeat case_decide; done]. exists y.
    split_and!; [done|repeat case_decide; cbn in Hz; by injection Hz as <-|done|done]. }
  assert (Hext : forall u y, ts !! u = Some y -> proc_of ts' y = proc_of ts y) by (intros u y Hy; by apply (proc_of_ext ts ts' init u)).
  assert (Hm : forall u y, ts !! u = Some y -> m !! pid y = Some (reparent (pid x) (proc_of ts y))) by (intros u y Hy; unfold m; by rewrite lookup_fmap, (procs_of_at ts u y)).
  assert (Hrep : forall u y, ts !! u = Some y -> reparent (pid x) (proc_of ts y) = if decide (u ∈ cs) then proc_of ts' (with_inner y (set_parent (inner y) (Some init))) else proc_of ts' y).
  { intros u y Hy. unfold reparent. pose proof (parent_iff ts init t x u y Hi Htr Ht Hy) as Hiff. cbn [p_parent proc_of]. destruct (decide (u ∈ cs)) as [Hin|Hin].
    - rewrite decide_True by (by apply Hiff). rewrite <- (Hext u y Hy). unfold proc_of. cbn. by rewrite Hpid, (pid_at_eq ts init ti), Hpi.
    - rewrite decide_False by (by rewrite Hiff). symmetry. by apply (Hext u). }
  apply procs_of_eq.
  - intros u u' z z' (y & Hy & E & _)%Hback (y' & Hy' & E' & _)%Hback Ez. apply (Hi u u' y y'); congruence.
  - intros u z Hz. destruct (Hback u z Hz) as (y & Hy & -> & Heq & Had). destruct (decide (u = t)) as [->|Hu].
    + rewrite (Heq eq_refl). assert (y = x) as -> by congruence. rewrite lookup_alter_eq, lookup_alter_ne, (Hm t x), (Hrep t x) by done. rewrite decide_False by (by apply (Hself t)). done.
    + specialize (Had Hu). unfold adopted_at in Had. rewrite lookup_alter_ne by (intros E; apply Hu; by apply (Hi u t y x)). rewrite Hy in Had. destruct (decide (u = init)) as [->|Hui].
      * assert (y = ti) as -> by congruence. injection Had as <-. rewrite Hpi. change INIT with IDLE_PID. rewrite lookup_alter_eq. rewrite <- Hpi. rewrite (Hm init ti), (Hrep init ti), decide_False by done.
        cbn. f_equal. unfold add_children, proc_of. cbn. rewrite fmap_app. f_equal. f_equal. by apply list_fmap_ext.
      * rewrite lookup_alter_ne by (intros E; apply Hui; apply (Hi u init y ti); [done|done|by rewrite Hpi, <- E]). rewrite (Hm u y), (Hrep u y) by done. case_decide; by injection Had as <-.
  - intros p Hs. rewrite lookup_alter_is_Some, lookup_alter_is_Some in Hs. unfold m in Hs. rewrite lookup_fmap, fmap_is_Some in Hs. destruct Hs as [w (u & y & Hy & <- & _)%procs_of_lookup]; [|done].
    apply elem_of_live. exists u. destruct (decide (u = t)) as [->|Hu]; [exists (exited x code); unfold ts'; rewrite lookup_insert_eq; split; [done|]; by assert (y = x) as -> by congruence|].
    rewrite (Hlook u Hu). unfold adopted_at. rewrite Hy. repeat case_decide; eexists; by split.
Qed.

(** ** A zombie that is reaped *)
Lemma filter_pids ts c l1 l2 : (forall d, d ∈ l1 ++ l2 -> pid_at ts d <> pid_at ts c) ->
  filter (fun d => d <> pid_at ts c) (pid_at ts <$> l1 ++ c :: l2) = pid_at ts <$> l1 ++ l2.
Proof.
  intros Hne. rewrite !fmap_app, filter_app, fmap_cons, filter_cons_False by naive_solver. rewrite <- filter_app, <- fmap_app.
  induction (l1 ++ l2) as [|d l IH]; [done|]. rewrite fmap_cons, filter_cons_True by (apply Hne; left). f_equal. apply IH. intros e He. apply Hne. by right.
Qed.

Lemma procs_of_reap ts init t x c y l1 l2 : pids_inj ts -> tree_inv ts init -> ts !! t = Some x -> ts !! c = Some y ->
  children (inner x) = l1 ++ c :: l2 -> task_status (inner y) = Zombie ->
  procs_of (delete c (<[t := with_inner x (set_children (inner x) (l1 ++ l2))]> ts)) = delete (pid y) (alter (without_child (pid y)) (pid x) (procs_of ts)).
Proof.
  intros Hi Htr Ht Hcy Hch Hz. pose proof Htr as [(ti & Hti & Hpi & _ & Hri) Hc Hnd Hp Hzc Hself]. set (x' := with_inner x _). set (ts' := delete c _).
  assert (Hin : c ∈ children (inner x)) by (rewrite Hch; apply elem_of_app; right; left). assert (Htc : t <> c) by (intros <-; by apply (Hself t x)).
  assert (Hxy : pid y <> pid x) by (intros E; apply Htc; by apply (Hi t c x y)).
  assert (Hpid : forall r, r <> c -> pid_at ts' r = pid_at ts r).
  { intros r Hr. unfold pid_at, ts'. rewrite lookup_delete_ne by done. rewrite lookup_insert. destruct (decide (t = r)) as [<-|]; [by rewrite Ht|done]. }
  pose proof (Hnd t x Ht) as Hn. rewrite Hch in Hn. apply NoDup_app in Hn as (_ & Hd1 & [Hc2 _]%NoDup_cons).
  assert (Hcl : c ∉ l1 ++ l2) by (rewrite elem_of_app; intros [H|H]; [apply (Hd1 c H); left|done]).
  assert (Hother : forall u z r, ts !! u = Some z -> u <> t -> u <> c -> r ∈ children (inner z) \/ parent (inner z) = Some r -> r <> c).
  { intros u z r Hu Hut Huc Hr ->. destruct Hr as [Hr|Hr].
    - destruct (Hc _ _ _ Hu Hr) as (w & Hw & E). destruct (Hc _ _ _ Ht Hin) as (w' & Hw' & E'). congruence.
    - destruct (decide (u = init)) as [->|Hui]; [congruence|]. destruct (Hp u z Hu Hui) as (p & w & E & Hw & Hiw). rewrite Hr in E. injection E as <-.
      assert (w = y) as -> by congruence. rewrite (Hzc c y Hcy Hz) in Hiw. by apply not_elem_of_nil in Hiw. }
  assert (Hx' : proc_of ts' x' = without_child (pid y) (proc_of ts x)).
  { unfold proc_of, without_child, x'. cbn. rewrite <- (pid_at_eq ts c y Hcy), Hch, filter_pids.
    - f_equal.
      + destruct (parent (inner x)) as [r|] eqn:Er; [|done]. cbn. f_equal. apply Hpid. intros ->. assert (E : (pid_at ts <$> parent (inner x)) = Some (pid y)) by (rewrite Er; cbn; by rewrite (pid_at_eq ts c y)).
        apply (parent_iff ts init c y t x Hi Htr Hcy Ht) in E. rewrite (Hzc c y Hcy Hz) in E. by apply not_elem_of_nil in E.
      + apply list_fmap_ext. intros i r Hr%list_elem_of_lookup_2. apply Hpid. intros ->. done.
    - intros d Hd E. apply Hcl. replace c with d; [done|]. assert (Hdc : d ∈ children (inner x)) by (rewrite Hch, elem_of_app, elem_of_cons; rewrite elem_of_app in Hd; tauto).
      destruct (Hc _ _ _ Ht Hdc) as (w & Hw & _). apply (Hi d c w y); [done|done|]. by rewrite (pid_at_eq ts d w), (pid_at_eq ts c y) in E. }
  assert (Hcase : forall u z, ts' !! u = Some z -> u <> c /\ ((u = t /\ z = x') \/ (u <> t /\ ts !! u = Some z))).
  { intros u z [Hne Hu]%lookup_delete_Some. split; [done|]. rewrite lookup_insert in Hu. case_decide; naive_solver. }
  apply procs_of_eq.
  - assert (Hb : forall u z, ts' !! u = Some z -> exists w, ts !! u = Some w /\ pid z = pid w) by (intros u z [_ [[-> ->]|[_ H]]]%Hcase; eauto).
    intros u u' z z' (w & Hw & E)%Hb (w' & Hw' & E')%Hb Ez. apply (Hi u u' w w'); congruence.
  - intros u z Hu. destruct (Hcase u z Hu) as [Huc [[-> ->]|[Hut Hz']]].
    + change (pid x') with (pid x). rewrite lookup_delete_ne, lookup_alter_eq, (procs_of_at ts t x) by done. by rewrite Hx'.
    + rewrite lookup_delete_ne by (intros E; apply Huc; by apply (Hi u c z y)). rewrite lookup_alter_ne by (intros E; apply Hut; by apply (Hi u t z x)).
      rewrite (procs_of_at ts u z) by done. f_equal. symmetry. apply (proc_of_ext ts ts' init u); [done|done|]. intros r _ Hr. apply Hpid. by apply (Hother u z).
  - intros p [Hne [w Hw]%lookup_alter_is_Some]%lookup_delete_is_Some. apply procs_of_lookup in Hw as (u & z & Hu & <- & _); [|done]. apply elem_of_live.
    assert (Huc : u <> c) by congruence. exists u. unfold ts'. rewrite lookup_delete_ne by done. destruct (decide (u = t)) as [->|Hut]; [exists x'; rewrite lookup_insert_eq; split; [done|]; by assert (z = x) as -> by congruence|].
    exists z. by rewrite lookup_insert_ne.
Qed.

(** ** The search among the children *)
Section Wait.
Variables (ts : gmap nat TaskControlBlock) (T : table).
Hypothesis Hi : pids_inj ts.
Hypothesis HT : procs T = procs_of ts.

Lemma exit_status_of c x : ts !! c = Some x -> exit_status T (pid x) = if is_zombie (inner x) then Some (exit_code (inner x)) else None.
Proof. intros Hc. unfold exit_status. rewrite HT, (procs_of_at ts c x) by done. unfold proc_of. by destruct (is_zombie (inner x)). Qed.

Lemma matches_waits w c x : ts !! c = Some x -> child_matches ts w c = waits_for w (pid_at ts c).
Proof. intros Hc. unfold child_matches, waits_for. by rewrite (pid_at_eq ts c x), Hc. Qed.

Lemma any_waits w l : (forall c, c ∈ l -> is_Some (ts !! c)) -> existsb (child_matches ts w) l = existsb (waits_for w) (pid_at ts <$> l).
Proof.
  induction l as [|c l IH]; intros Hl; [done|]. cbn. destruct (Hl c ltac:(left)) as [x Hx]. rewrite (matches_waits w c x Hx), IH; [done|]. intros d Hd. apply Hl. by right.
Qed.

Lemma find_zombies w l : forall n, (forall c, c ∈ l -> is_Some (ts !! c)) ->
  find_exited T w (pid_at ts <$> l) = match first_zombie ts w l n with Some (_, c) => (fun x => (pid x, exit_code (inner x))) <$> ts !! c | None => None end.
Proof.
  induction l as [|c l IH]; intros n Hl; [done|]. cbn [fmap list_fmap find_exited first_zombie]. destruct (Hl c ltac:(left)) as [x Hx].
  rewrite (matches_waits w c x Hx). unfold child_zombie. rewrite (pid_at_eq ts c x Hx), (exit_status_of c x Hx), Hx.
  assert (Hl' : forall d, d ∈ l -> is_Some (ts !! d)) by (intros d Hd; apply Hl; by right).
  destruct (is_zombie (inner x)), (waits_for w (pid x)); cbn [andb]; rewrite ?Hx; [done|by apply IH..].
Qed.

End Wait.

(** ** The table of a kernel *)
Section Table.
Context {St F : Type} `{BlockStoreSpec St} `{FrameAllocatorSpec F}.
Variables (env : Env) (lo hi N : Z) (base : list (VPNRange * MapType * Z)).
Implicit Types (k : Kernel St F) (W : gmap (option nat) aspace) (v : aspace) (l : directory) (a : named_files).
Abbreviation kinv := (kinv env lo hi N base).

Definition table_of k : table :=
  mkTable (procs_of (tasks k)) (pid_at (tasks k) <$> ready_queue k) (pid_at (tasks k) <$> running (processor k)).

Lemma table_same k k' : tasks k' = tasks k -> ready_queue k' = ready_queue k -> processor k' = processor k -> table_of k' = table_of k.
Proof. intros Et Eq Ep. unfold table_of. by rewrite Et, Eq, Ep. Qed.

Lemma kinv_inj k W l a : kinv k W l a -> pids_inj (tasks k).
Proof. intros Hk t t' x x'. apply (mi_pid_inj _ _ _ _ _ _ _ _ _ (ki_mem _ _ _ _ _ _ _ _ _ Hk)). Qed.

Lemma fmap_pids ts ts' (q : list nat) : (forall r, r ∈ q -> pid_at ts' r = pid_at ts r) -> pid_at ts' <$> q = pid_at ts <$> q.
Proof. intros He. apply list_fmap_ext. intros i r Hr%list_elem_of_lookup_2. by apply He. Qed.

(** A change of the tasks' registers, memory and descriptors only. *)
Lemma table_task k k' W l a t x i : kinv k W l a -> tasks k !! t = Some x -> tasks k' = <[t := with_inner x i]> (tasks k) ->
  ready_queue k' = ready_queue k -> processor k' = processor k ->
  parent i = parent (inner x) -> children i = children (inner x) -> is_zombie i = is_zombie (inner x) -> exit_code i = exit_code (inner x) -> table_of k' = table_of k.
Proof.
  intros Hk Ht Et Eq Ep E1 E2 E3 E4. unfold table_of. rewrite Et, Eq, Ep, (procs_of_task _ (initproc k)) by solve [eauto using kinv_inj|apply Hk]. f_equal.
  - apply fmap_pids. intros r _. by apply (pid_at_insert _ t x).
  - destruct (running (processor k)); [|done]. cbn. f_equal. by apply (pid_at_insert _ t x).
Qed.

Section Current.
Variables (k : Kernel St F) (W : gmap (option nat) aspace) (l : directory) (a : named_files) (t : nat) (x : TaskControlBlock).
Hypothesis Hk : kinv k W l a.
Hypothesis Hr : running (processor k) = Some t.
Hypothesis Ht : tasks k !! t = Some x.

Lemma table_current : current (table_of k) = Some (pid x).
Proof. unfold table_of. cbn. rewrite Hr. cbn. by rewrite (pid_at_eq _ _ _ Ht). Qed.

Lemma table_children : children_of (table_of k) (pid x) = pid_at (tasks k) <$> children (inner x).
Proof. unfold children_of, table_of. cbn. by rewrite (procs_of_at _ t x) by (eauto using kinv_inj). Qed.

Lemma table_suspend s : tstep (table_of k) (Yields (pid x)) (table_of (suspended_state k t x s)).
Proof.
  replace (table_of (suspended_state k t x s)) with (t_yield (pid x) (table_of k)); [constructor; exact table_current|].
  unfold table_of, t_yield. cbn. set (i := set_task_cx _ _). assert (Hst : task_status (inner x) = Running).
  { apply (sc_running _ _ _ _ (ki_sched _ _ _ _ _ _ _ _ _ Hk)) in Hr as (y & Hy & ?). congruence. }
  rewrite (procs_of_task _ (initproc k)) by solve [eauto using kinv_inj|apply Hk|unfold is_zombie; by rewrite Hst]. f_equal.
  etrans; [|symmetry; apply fmap_pids; intros r _; by apply (pid_at_insert _ t x)]. by rewrite fmap_app, list_fmap_singleton, (pid_at_eq _ _ _ Ht).
Qed.

Lemma table_fork k' W' c y : kinv k' W' l a -> tasks k !! c = None -> pid y ∉ live (tasks k) -> parent (inner y) = Some t -> children (inner y) = [] -> is_zombie (inner y) = false ->
  tasks k' = <[t := with_inner x (set_children (inner x) (children (inner x) ++ [c]))]> (<[c := y]> (tasks k)) ->
  ready_queue k' = ready_queue k ++ [c] -> processor k' = processor k -> tstep (table_of k) (Forks (pid x) (pid y)) (table_of k').
Proof.
  intros Hk' Hc Hp Ep Ec Ez Et Eq Epr. pose proof (kinv_inj _ _ _ _ Hk) as Hi.
  replace (table_of k') with (t_fork (pid x) (pid y) (table_of k)); [constructor; [exact table_current|by apply procs_of_fresh]|].
  unfold table_of, t_fork. cbn. rewrite Et, Eq, Epr, (procs_of_fork _ (initproc k)) by (done || apply Hk). set (ts' := <[t := _]> _).
  assert (Hpid : forall r, r <> c -> pid_at ts' r = pid_at (tasks k) r).
  { intros r Hne. unfold pid_at, ts'. destruct (decide (t = r)) as [<-|]; [by rewrite lookup_insert_eq, Ht|]. by rewrite !lookup_insert_ne. }
  assert (Hpc : pid_at ts' c = pid y) by (unfold pid_at, ts'; rewrite lookup_insert_ne by congruence; by rewrite lookup_insert_eq).
  f_equal; [|rewrite Hr; cbn; f_equal; rewrite Hpid by congruence; done].
  rewrite fmap_app, list_fmap_singleton, Hpc. f_equal. symmetry. apply fmap_pids. intros r Hin. apply Hpid. intros ->.
  apply (sc_queue _ _ _ _ (ki_sched _ _ _ _ _ _ _ _ _ Hk)) in Hin as (z & Hz & _). congruence.
Qed.

Lemma table_exit code m : pid x <> IDLE_PID -> tstep (table_of k) (Exits (pid x) code) (table_of (exited_state k t x code m)).
Proof.
  intros Hp. replace (table_of (exited_state k t x code m)) with (t_exit (pid x) code (table_of k)); [constructor; [exact table_current|done]|].
  unfold t_exit. rewrite table_children. unfold table_of, exited_state. cbn. rewrite (procs_of_exit _ (initproc k)) by solve [eauto using kinv_inj|apply Hk]. f_equal.
  symmetry. apply fmap_pids. intros r _. apply pid_at_adopted; [apply Hk|done].
Qed.

(** ** Waiting *)
Lemma children_are c : c ∈ children (inner x) -> is_Some (tasks k !! c).
Proof. by apply (refs_live _ (initproc k) t x (ki_tree _ _ _ _ _ _ _ _ _ Hk) Ht). Qed.

Lemma table_wait_none w : existsb (child_matches (tasks k) w) (children (inner x)) = false -> tstep (table_of k) (Waits (pid x) w NoChild) (table_of k).
Proof.
  intros He. constructor; [exact table_current|]. unfold t_wait. rewrite table_children. rewrite <- any_waits by apply children_are. by rewrite He.
Qed.

Lemma table_wait_running w : existsb (child_matches (tasks k) w) (children (inner x)) = true -> first_zombie (tasks k) w (children (inner x)) 0 = None ->
  tstep (table_of k) (Waits (pid x) w NotYet) (table_of k).
Proof.
  intros He Hf. constructor; [exact table_current|]. unfold t_wait. rewrite table_children. rewrite <- any_waits by apply children_are. rewrite He.
  rewrite (find_zombies (tasks k) (table_of k) (kinv_inj _ _ _ _ Hk) eq_refl w _ 0) by apply children_are. by rewrite Hf.
Qed.

Lemma table_wait_found w k' idx c y (l1 l2 : list nat) : existsb (child_matches (tasks k) w) (children (inner x)) = true ->
  first_zombie (tasks k) w (children (inner x)) 0 = Some (idx, c) -> children (inner x) = l1 ++ c :: l2 -> tasks k !! c = Some y -> task_status (inner y) = Zombie ->
  tasks k' = delete c (<[t := with_inner x (set_children (inner x) (l1 ++ l2))]> (tasks k)) -> ready_queue k' = ready_queue k -> processor k' = processor k ->
  tstep (table_of k) (Waits (pid x) w (Reaped (pid y) (exit_code (inner y)))) (table_of k').
Proof.
  intros He Hf Hch Hc Hz Et Eq Ep. constructor; [exact table_current|]. unfold t_wait. rewrite table_children. rewrite <- any_waits by apply children_are. rewrite He.
  rewrite (find_zombies (tasks k) (table_of k) (kinv_inj _ _ _ _ Hk) eq_refl w _ 0) by apply children_are. rewrite Hf, Hc. cbn. f_equal.
  unfold t_reap, table_of. cbn. rewrite Et, Eq, Ep, (procs_of_reap _ (initproc k)) with (y := y) by solve [eauto using kinv_inj|apply Hk]. set (ts' := delete c _).
  assert (Hpid : forall r, r <> c -> pid_at ts' r = pid_at (tasks k) r).
  { intros r Hne. unfold pid_at, ts'. rewrite lookup_delete_ne by done. rewrite lookup_insert. destruct (decide (t = r)) as [<-|]; [by rewrite Ht|done]. }
  assert (Htc : t <> c) by (intros ->; apply (sc_running _ _ _ _ (ki_sched _ _ _ _ _ _ _ _ _ Hk)) in Hr as (z & Hz' & ?); congruence).
  f_equal; [|by rewrite Hr; cbn; rewrite Hpid]. symmetry. apply fmap_pids. intros r Hin. apply Hpid. intros ->.
  apply (sc_queue _ _ _ _ (ki_sched _ _ _ _ _ _ _ _ _ Hk)) in Hin as (z & Hz' & ?). congruence.
Qed.

End Current.

(** ** The scheduler *)
Lemma table_run k W l a t q x : kinv k W l a -> running (processor k) = None -> ready_queue k = t :: q -> tasks k !! t = Some x ->
  tstep (table_of k) (Dispatches (pid x)) (table_of (scheduled_state k t q x)).
Proof.
  intros Hk Hr Hq Ht. replace (table_of (scheduled_state k t q x)) with (t_dispatch (pid x) (pid_at (tasks k) <$> q) (table_of k)).
  { constructor; [unfold table_of; cbn; by rewrite Hr|]. unfold table_of. cbn. by rewrite Hq, fmap_cons, (pid_at_eq _ _ _ Ht). }
  unfold table_of, t_dispatch. cbn. assert (Hst : task_status (inner x) = Ready).
  { destruct (proj1 (sc_queue _ _ _ _ (ki_sched _ _ _ _ _ _ _ _ _ Hk) t)) as (y & Hy & ?); [rewrite Hq; left|]. congruence. }
  rewrite (procs_of_task _ (initproc k)) by solve [eauto using kinv_inj|apply Hk|unfold is_zombie; by rewrite Hst]. f_equal.
  - symmetry. apply fmap_pids. intros r _. by apply (pid_at_insert _ t x).
  - f_equal. unfold pid_at. by rewrite lookup_insert_eq.
Qed.

End Table.
