(* ===== verification/KFile.v ===== *)
(** * Open files (os/src/fs/inode.rs) and the invariant *)

From S2P Require Import Prelude BlockDev BlockStore Layout DiskCodec Tree BuildTree TreeOps ClearTree InodeOps FileData Efs Vfs FsInv FsAlloc FsUpdate FsOps FsDir FsCreate FsSpec FsRefine Address Frames PageTable PtInv PtOps Space MemorySet AreaOps MsOps MsLife UserMem World Kernel OsInode Task Syscall Pids CxMem KLogic KInv KSched KProc KTree KExit.

(** The files after [open_file], if it succeeds. *)
Definition open_spec (name : list byte) (flags : Z) (a : named_files) : option named_files :=
  match lookup_name name a with
  | Some _ => Some (if contains flags CREATE || contains flags TRUNC then update_name name [] a else a)
  | None => if contains flags CREATE then Some (a ++ [(name, [])]) else None
  end.

(** What it needs of the disk. *)
Definition open_ok (fs : EasyFileSystem) (N : Z) (name : list byte) (flags : Z) (a : named_files) : Prop :=
  match lookup_name name a with
  | Some c => contains flags CREATE || contains flags TRUNC = true -> clearable (_data_blocks (zlen c))
  | None => contains flags CREATE = true -> name_ok name /\ zlen a + 1 < inodes fs /\ 32 * (zlen a + 1) <= MAX_SIZE /\
              fs_weight (a ++ [(name, [])]) <= N - data_area_start_block fs
  end.

Lemma assoc_app name l l' i : assoc name l = Some i -> assoc name (l ++ l') = Some i.
Proof. induction l as [|[n j] l IH]; [done|]. cbn. by destruct (decide (n = name)). Qed.

Lemma assoc_fresh name l i : assoc name l = None -> assoc name (l ++ [(name, i)]) = Some i.
Proof. induction l as [|[n j] l IH]; cbn; [by rewrite decide_True|]. by destruct (decide (n = name)). Qed.

(** [name] is the inode [i] in [l'], that keeps the entries of [l]. *)
Definition enters (name : list byte) (i : Z) (l l' : directory) : Prop := assoc name l' = Some i /\ forall n j, assoc n l = Some j -> assoc n l' = Some j.

Lemma lookup_update name c a : is_Some (lookup_name name a) -> lookup_name name (update_name name c a) = Some c.
Proof. induction a as [|[n d] a IH]; cbn; [by intros [??]|]. destruct (decide (n = name)) eqn:E; cbn; rewrite E; [done|apply IH]. Qed.

Section Files.
Context {St F : Type} `{BlockStoreSpec St} `{FrameAllocatorSpec F}.
Variables (env : Env) (lo hi N : Z) (base : list (VPNRange * MapType * Z)).
Implicit Types (k : Kernel St F) (W : gmap (option nat) aspace) (l : directory) (a : named_files).
Abbreviation kinv := (kinv env lo hi N base).

(** ** The part of the invariant on files *)
Abbreviation finv k l a := (file_inv N (disk k) (root_fs k) (tasks k) (files k) l a).

(** A computation of the file system that keeps the files. *)
Lemma finv_read {A} k l a (c : cmd St A) r : finv k l a -> runs ∅ (content (disk k)) c r (content (disk k)) ->
  exists d', on_disk c k = Ok (r, set_disk k d') /\ finv (set_disk k d') l a.
Proof.
  intros [Hw Hh Hv Hf Hfd] Hrun. destruct (Hrun (disk k) Hw eq_refl Hh) as (d' & E & Hw' & Hc & Hh'). exists d'. split; [by apply on_disk_ok|].
  split; cbn; [done|done| |done|done]. by rewrite Hc.
Qed.

(** One that changes them. *)
Lemma finv_change {A} k l a (c : cmd St A) r σ' l' a' : finv k l a -> commits (content (disk k)) c r σ' -> fs_view σ' (root_fs k) N l' a' ->
  (forall name i, assoc name l = Some i -> assoc name l' = Some i) ->
  exists d', on_disk c k = Ok (r, set_disk k d') /\ finv (set_disk k d') l' a' /\ stable d' = content d'.
Proof.
  intros [Hw Hh Hv Hf Hfd] Hrun Hv' Hl. destruct (Hrun (disk k) Hw eq_refl Hh) as (d' & E & Hw' & Hc & Hh' & Hst). exists d'. split_and!; [by apply on_disk_ok| |congruence].
  split; cbn; [done|done|by rewrite Hc| |done]. intros r0 f Hr. destruct (Hf r0 f Hr) as (Ho & name & i & Hi & E0). split; [done|]. exists name, i. split; [by apply Hl|done].
Qed.

Lemma finv_write {A} k l a (c : cmd St A) r σ' a' : finv k l a -> commits (content (disk k)) c r σ' -> fs_view σ' (root_fs k) N l a' ->
  exists d', on_disk c k = Ok (r, set_disk k d') /\ finv (set_disk k d') l a' /\ stable d' = content d'.
Proof. intros Hf Hrun Hv. by eapply finv_change. Qed.

(** ** A new file object *)
Definition opened k (f : OSInode) : Kernel St F := set_next_ref (set_files k (<[next_ref k := f]> (files k))) (S (next_ref k)).

Lemma finv_opened k l a name i rd wr : finv k l a -> assoc name l = Some i -> finv (opened k (os_inode_new rd wr (vinode (root_fs k) i))) l a.
Proof.
  intros [Hw Hh Hv Hf Hfd] Hi. split; cbn; [done|done|done| |].
  - intros r f. rewrite lookup_insert. case_decide; [|apply Hf]. intros [= <-]. split; [done|]. exists name, i. by split.
  - intros t tcb r Ht Hin. rewrite lookup_insert. case_decide; [eauto|]. by apply (Hfd t tcb).
Qed.

(** ** [open_file] *)
Lemma open_file_files k l a name flags : finv k l a -> open_ok (root_fs k) N name flags a ->
  match open_spec name flags a with
  | Some a' => exists i l' d', let f := os_inode_new (read_write flags).1 (read_write flags).2 (vinode (root_fs k) i) in
      enters name i l l' /\ open_file name flags k = Ok (Some (next_ref k), opened (set_disk k d') f) /\
      finv (opened (set_disk k d') f) l' a'
  | None => exists d', open_file name flags k = Ok (None, set_disk k d') /\ finv (set_disk k d') l a
  end.
Proof.
  intros Hk Hok. pose proof (fi_view _ _ _ _ _ _ _ Hk) as Hv. set (fs := root_fs k) in *.
  destruct (finv_read k l a _ _ Hk (view_find _ _ _ _ _ Hv name)) as (d1 & E1 & Hk1). unfold open_spec, open_ok in *.
  pose proof (view_assoc _ _ _ _ _ Hv name) as Has. pose proof (fi_view _ _ _ _ _ _ _ Hk1) as Hv1. cbn [disk set_disk root_fs] in Hv1. fold fs in Hv1.
  unfold open_file. rewrite gets_bind. fold fs. destruct (read_write flags) as [rd wr]. cbn [fst snd]. destruct (lookup_name name a) as [c|] eqn:Hl.
  - destruct (proj2 Has) as [i Hi]; [eauto|]. rewrite Hi in E1. cbn [fmap option_fmap option_map] in E1.
    destruct (contains flags CREATE || contains flags TRUNC) eqn:Hfl.
    + destruct (view_clear (St := St) _ fs N l a Hv1 name i c Hi Hl (Hok eq_refl)) as (σ' & Hc & Hv2).
      destruct (finv_write _ l a _ _ σ' _ Hk1 Hc Hv2) as (d2 & E2 & Hk2 & _). exists i, l, d2. cbv zeta. split_and!; [by split| |by apply (finv_opened (set_disk k d2) l _ name)].
      apply orb_prop in Hfl. destruct (contains flags CREATE).
      * erewrite bind_Ok; [|exact E1]. cbv iota. erewrite bind_Ok; [|exact E2]. done.
      * destruct Hfl as [|Hfl]; [done|]. rewrite Hfl. erewrite bind_Ok; [|exact E1]. cbv iota. erewrite bind_Ok; [|exact E2]. done.
    + apply orb_false_elim in Hfl as [-> ->]. exists i, l, d1. cbv zeta. split_and!; [by split| |by apply (finv_opened (set_disk k d1) l _ name)].
      erewrite bind_Ok; [|exact E1]. done.
  - assert (Hn : assoc name l = None) by (apply eq_None_not_Some; rewrite Has; by intros [??]). rewrite Hn in E1. cbn [fmap option_fmap option_map] in E1.
    destruct (contains flags CREATE).
    + destruct (Hok eq_refl) as (Hname & Hino & Hmax & Hw).
      destruct (view_create (St := St) _ fs N l a Hv1 name Hl Hname Hino Hmax Hw) as (i & σ' & Hc & Hv2).
      destruct (finv_change _ l a _ _ σ' _ _ Hk1 Hc Hv2) as (d2 & E2 & Hk2 & _); [intros; by apply assoc_app|].
      exists i, (l ++ [(name, i)]), d2. cbv zeta. pose proof (assoc_fresh name l i Hn). split_and!; [split; [done|intros; by apply assoc_app]| |by apply (finv_opened (set_disk k d2) _ _ name)].
      erewrite bind_Ok; [|exact E1]. cbv iota. erewrite bind_Ok; [|exact E2]. done.
    + exists d1. split; [|done]. erewrite bind_Ok; [|exact E1]. done.
Qed.

Lemma open_file_ok k W l a name flags : kinv k W l a -> open_ok (root_fs k) N name flags a ->
  match open_spec name flags a with
  | Some a' => exists i l' d', let f := os_inode_new (read_write flags).1 (read_write flags).2 (vinode (root_fs k) i) in
      enters name i l l' /\ open_file name flags k = Ok (Some (next_ref k), opened (set_disk k d') f) /\
      kinv (opened (set_disk k d') f) W l' a'
  | None => exists d', open_file name flags k = Ok (None, set_disk k d') /\ kinv (set_disk k d') W l a
  end.
Proof.
  intros Hk Hok. pose proof (open_file_files k l a name flags (ki_file _ _ _ _ _ _ _ _ _ Hk) Hok) as Ho. destruct Hk as [Hb Hm Hsc Htr Hf Hfr Hff].
  destruct (open_spec name flags a) as [a'|].
  - destruct Ho as (i & l' & d' & Hi & E & Hf'). exists i, l', d'. cbv zeta. split; [done|]. split; [done|]. split; cbn; [done|done|done|done|exact Hf'| |].
    + intros t Ht. apply Hfr in Ht. lia.
    + intros r. rewrite lookup_insert. case_decide; [lia|]. intros Hr. apply Hff in Hr. lia.
  - destruct Ho as (d' & E & Hf'). exists d'. split; [done|]. split; cbn; done.
Qed.

(** ** Reading and writing through a file object

    These run while the cell of the file is borrowed, so they are about the
    part of the invariant on files. *)
Lemma finv_offset k l a r f o : finv k l a -> files k !! r = Some f -> 0 <= o -> finv (set_files k (<[r := set_offset f o]> (files k))) l a.
Proof.
  intros [Hw Hh Hv Hf Hfd] Hr Ho. split; cbn; [done|done|done| |].
  - intros r' f'. rewrite lookup_insert. case_decide; [|apply Hf]. intros [= <-]. split; [done|]. by apply (Hf r f).
  - intros t tcb r' Ht Hin. rewrite lookup_insert. case_decide; [eauto|]. by apply (Hfd t tcb).
Qed.

(** The invariant after such an operation. *)
Lemma kinv_file k W l a d fl l' a' : kinv k W l a -> file_inv N d (root_fs k) (tasks k) fl l' a' -> (forall r, is_Some (fl !! r) -> is_Some (files k !! r)) ->
  kinv (set_files (set_disk k d) fl) W l' a'.
Proof. intros [Hb Hm Hsc Htr Hf Hfr Hff] Hf' Hd. split; cbn; [done|done|done|done|done|done|]. intros r Hr. by apply Hff, Hd. Qed.

(** The file [r] is open on the file [name] with contents [c], at offset [o]. *)
Definition open_on k l a (r : nat) (f : OSInode) (name c : list byte) : Prop :=
  files k !! r = Some f /\ lookup_name name a = Some c /\ exists i, assoc name l = Some i /\ os_inode f = vinode (root_fs k) i.

Lemma file_open_on k l a r f : finv k l a -> files k !! r = Some f -> exists name c, open_on k l a r f name c.
Proof.
  intros [Hw Hh Hv Hf Hfd] Hr. destruct (Hf r f Hr) as (_ & name & i & Hi & E). destruct (proj1 (view_assoc _ _ _ _ _ Hv name)) as [c Hc]; [eauto|].
  exists name, c. split_and!; [done|done|eauto].
Qed.

Lemma content_max k l a name c : finv k l a -> lookup_name name a = Some c -> zlen c <= MAX_SIZE.
Proof.
  intros Hf Hl. destruct (view_lookup _ _ _ _ _ (fi_view _ _ _ _ _ _ _ Hf) name c Hl) as (I & X & i & di & T & _ & _ & _ & _ & _ & _ & Hs & Hm). lia.
Qed.

(** One read at the offset of the file. *)
Lemma read_once k l a r f name c buf : finv k l a -> open_on k l a r f name c -> 0 <= os_offset f < 2 ^ 63 -> zlen buf < 2 ^ 63 ->
  let out := take (length buf) (drop (Z.to_nat (os_offset f)) c) in
  exists d', on_disk (vfs_read_at (os_inode f) (os_offset f) buf) k = Ok ((zlen out, out ++ drop (length out) buf), set_disk k d') /\
    finv (set_disk k d') l a.
Proof.
  intros Hf (Hr & Hl & i & Hi & ->) Ho Hb out. apply finv_read; [done|].
  apply (view_read _ _ N l a (fi_view _ _ _ _ _ _ _ Hf) name); [done|done|lia|lia].
Qed.

(** The loop of [read_all] returns the rest of the file. *)
Lemma read_all_loop_ok fuel : forall k l a r f name c buffer v, finv k l a -> open_on k l a r f name c -> 0 <= os_offset f <= zlen c -> length buffer = 512%nat ->
  zlen c - os_offset f <= 512 * (Z.of_nat fuel - 1) ->
  exists d', read_all_loop fuel r buffer v k =
      Ok (v ++ drop (Z.to_nat (os_offset f)) c, set_files (set_disk k d') (<[r := set_offset f (zlen c)]> (files k))) /\
    finv (set_files (set_disk k d') (<[r := set_offset f (zlen c)]> (files k))) l a.
Proof.
  induction fuel as [|fuel IH]; intros k l a r f name c buffer v Hf Hop Ho Hb Hfu; [lia|]. pose proof Hop as (Hr & Hl & i & Hi & Ei).
  pose proof (content_max k l a name c Hf Hl) as Hmax. assert (Hms : MAX_SIZE < 2 ^ 63) by done.
  destruct (read_once k l a r f name c buffer Hf Hop ltac:(lia)) as (d1 & E1 & Hf1); [unfold zlen; lia|].
  set (out := take (length buffer) (drop (Z.to_nat (os_offset f)) c)) in *. cbn [read_all_loop].
  erewrite bind_Ok; [|by apply (get_file_ok r f)]. erewrite bind_Ok; [|exact E1]. cbv iota beta.
  assert (Hzo : zlen out = Z.min 512 (zlen c - os_offset f)) by (unfold out, zlen in *; rewrite length_take, length_drop; lia).
  destruct (Z.eqb_spec (zlen out) 0) as [E0|E0].
  - exists d1. assert (os_offset f = zlen c) as Eo by lia. rewrite drop_ge by (unfold zlen in *; lia). rewrite app_nil_r, <- Eo.
    assert (Ef : set_offset f (os_offset f) = f) by (by destruct f). rewrite Ef, insert_id by done. unfold ret. by destruct k.
  - rewrite (w64_small (os_offset f + zlen out)) by lia. unfold set_file. rewrite update_bind. rewrite slice_Ok; [|lia|unfold zlen in *; rewrite length_app, length_drop; lia].
    cbn [lift]. rewrite bind_ret. rewrite Z.sub_0_r, drop_0, take_app_le by (unfold zlen in *; lia). rewrite take_ge by (unfold zlen in *; lia).
    set (f1 := set_offset f (os_offset f + zlen out)). set (k1 := set_files (set_disk k d1) (<[r := f1]> (files k))).
    destruct (IH k1 l a r f1 name c (out ++ drop (length out) buffer) (v ++ out)) as (d2 & E2 & Hf2).
    + apply (finv_offset (set_disk k d1)); [done|done|lia].
    + split_and!; [apply lookup_insert_eq|done|by exists i].
    + unfold f1. cbn [os_offset set_offset]. lia.
    + rewrite length_app, length_drop. unfold zlen in *. lia.
    + unfold f1. cbn [os_offset set_offset]. lia.
    + exists d2. unfold k1, f1 in E2, Hf2. cbn in E2, Hf2. rewrite insert_insert_eq in E2, Hf2. split; [|done].
      etransitivity; [exact E2|]. do 2 f_equal. rewrite <- app_assoc. f_equal. unfold out. cbn [os_offset set_offset].
      replace (Z.to_nat (os_offset f + zlen (take (length buffer) (drop (Z.to_nat (os_offset f)) c)))) with
        (Z.to_nat (os_offset f) + length (take (length buffer) (drop (Z.to_nat (os_offset f)) c)))%nat by (unfold zlen; lia).
      rewrite <- drop_drop. set (d := drop (Z.to_nat (os_offset f)) c). rewrite length_take.
      rewrite <- (take_drop (Nat.min (length buffer) (length d)) d) at 4. f_equal. rewrite <- take_take. by rewrite (take_ge d (length d)).
Qed.

(** [read_all] returns the rest of the file and leaves the offset at its end. *)
Lemma read_all_files fuel k l a r f name c : finv k l a -> FileInner r ∉ borrows k -> open_on k l a r f name c -> 0 <= os_offset f <= zlen c ->
  zlen c - os_offset f <= 512 * (Z.of_nat fuel - 1) ->
  exists d', let k' := set_files (set_disk k d') (<[r := set_offset f (zlen c)]> (files k)) in
    read_all fuel r k = Ok (drop (Z.to_nat (os_offset f)) c, k') /\ finv k' l a.
Proof.
  intros Hf Hb Hop Ho Hfu.
  destruct (read_all_loop_ok fuel (set_borrows k (FileInner r :: borrows k)) l a r f name c (replicate 512 Byte.x00) [] Hf Hop Ho) as (d' & E & Hf'); [by rewrite length_replicate|done|].
  exists d'. cbv zeta. split; [|exact Hf']. unfold read_all. erewrite with_cell_ok; [|done|exact E|done]. done.
Qed.

Lemma read_all_ok fuel k W l a r f name c : kinv k W l a -> open_on k l a r f name c -> 0 <= os_offset f <= zlen c ->
  zlen c - os_offset f <= 512 * (Z.of_nat fuel - 1) ->
  exists d', let k' := set_files (set_disk k d') (<[r := set_offset f (zlen c)]> (files k)) in
    read_all fuel r k = Ok (drop (Z.to_nat (os_offset f)) c, k') /\ kinv k' W l a.
Proof.
  intros Hk Hop Ho Hfu. destruct (read_all_files fuel k l a r f name c (ki_file _ _ _ _ _ _ _ _ _ Hk) (no_borrow _ _ _ _ _ _ _ _ _ Hk _) Hop Ho Hfu) as (d' & E & Hf').
  exists d'. cbv zeta. split; [done|]. apply (kinv_file k W l a); [done|exact Hf'|]. intros r'. rewrite lookup_insert. case_decide; [|done]. subst. destruct Hop as (-> & _). eauto.
Qed.

End Files.
