(* ===== verification/KBuf.v ===== *)
(** * Files and user buffers: [OSInode::read], [OSInode::write], [Stdout::write] *)

From S2P Require Import Prelude BlockDev BlockStore Layout DiskCodec Tree BuildTree TreeOps ClearTree InodeOps FileData Efs Vfs FsInv FsAlloc FsUpdate FsOps FsDir FsCreate FsSpec FsRefine Address Frames PageTable PtInv PtOps Space MemorySet AreaOps MsOps MsLife UserMem World Kernel OsInode Task Syscall Pids CxMem KLogic KInv KSched KProc KTree KExit KFile.

(** ** The slices of a buffer *)

(** The slices [ss] are the bytes from address [p] on, in order. *)
Fixpoint segs (D : gmap Z Z) (p : Z) (ss : list UserSlice) : Prop :=
  match ss with
  | [] => True
  | s :: ss => sl_page s = user_frame D p /\ sl_from s = p mod 4096 /\ 0 < slice_len s /\ sl_to s <= 4096 /\ segs D (p + slice_len s) ss
  end.

Definition slices_len (ss : list UserSlice) : Z := foldr (fun s n => slice_len s + n) 0 ss.

Lemma slices_len_nonneg D p ss : segs D p ss -> 0 <= slices_len ss.
Proof. revert p. induction ss as [|s ss IH]; intros p; cbn; [done|]. intros (_ & _ & ? & _ & Hs). apply IH in Hs. unfold slices_len in Hs. lia. Qed.

Lemma segs_of_places D ss : forall p n, 0 <= n -> Forall (fun s => 0 < slice_len s) ss -> concat (slice_bytes <$> ss) = user_place D <$> seqZ p n ->
  segs D p ss /\ slices_len ss = n.
Proof.
  induction ss as [|s ss IH]; intros p n Hn Hpos Hc.
  - apply (f_equal length) in Hc. cbn in Hc. rewrite length_fmap, length_seqZ in Hc. split; [done|]. cbn. lia.
  - apply Forall_cons in Hpos as [Hs Hpos]. cbn [fmap list_fmap concat] in Hc.
    assert (Hl : length (slice_bytes s) = Z.to_nat (slice_len s)) by (unfold slice_bytes; by rewrite length_fmap, length_seqZ).
    assert (Hle : slice_len s <= n). { apply (f_equal length) in Hc. rewrite length_app, Hl, length_fmap, length_seqZ in Hc. lia. }
    replace n with (slice_len s + (n - slice_len s)) in Hc by lia. rewrite seqZ_app, fmap_app in Hc by lia.
    apply app_inj_1 in Hc as [H1 H2]; [|by rewrite Hl, length_fmap, length_seqZ].
    destruct (IH (p + slice_len s) (n - slice_len s) ltac:(lia) Hpos H2) as [Hseg Hlen].
    assert (Hj : forall j, 0 <= j < slice_len s -> sl_page s = user_frame D (p + j) /\ sl_from s + j = (p + j) mod 4096).
    { intros j Hj. apply (f_equal (fun l => l !! Z.to_nat j)) in H1. unfold slice_bytes in H1. rewrite !list_lookup_fmap, !lookup_seqZ_lt in H1 by lia.
      cbn in H1. unfold user_place in H1. rewrite Z2Nat.id in H1 by lia. split; congruence. }
    split; [|cbn; unfold slices_len in Hlen; lia]. cbn. destruct (Hj 0 ltac:(lia)) as [E1 E2]. rewrite Z.add_0_r in E1. rewrite !Z.add_0_r in E2.
    split_and!; [done|done|done| |done]. destruct (Hj (slice_len s - 1) ltac:(lia)) as [_ E3]. unfold slice_len in *. pose proof (Z.mod_pos_bound (p + (sl_to s - sl_from s - 1)) 4096 ltac:(lia)). lia.
Qed.

(** Bytes written into a page of the user's memory. *)
Lemma user_byte_splice P x b p bs y : P !! x = Some b -> length b = page_len -> p / 4096 = x -> p mod 4096 + zlen bs <= 4096 ->
  user_byte (<[x := splice b (Z.to_nat (p mod 4096)) bs]> P) y = if decide (p <= y < p + zlen bs) then bs !! Z.to_nat (y - p) else user_byte P y.
Proof.
  intros Hb Hl <- Hlen. pose proof (zlen_nonneg bs). unfold user_byte. pose proof (Z.mod_pos_bound p 4096 ltac:(lia)) as Hpm. pose proof (Z.mod_pos_bound y 4096 ltac:(lia)) as Hym.
  unfold page_len in Hl. rewrite lookup_insert. destruct (decide (p / 4096 = y / 4096)) as [E|Hne].
  - cbn [mbind option_bind]. pose proof (Z.div_mod p 4096 ltac:(lia)) as Ep. pose proof (Z.div_mod y 4096 ltac:(lia)) as Ey.
    destruct (decide (p <= y < p + zlen bs)) as [Hin|Hout].
    + rewrite lookup_splice_in by (unfold zlen in *; lia). f_equal. lia.
    + rewrite lookup_splice_out by (unfold zlen in *; lia). by rewrite <- E, Hb.
  - rewrite decide_False; [done|]. intros Hin. apply Hne. pose proof (Z.div_mod p 4096 ltac:(lia)). pose proof (Z.div_mod y 4096 ltac:(lia)). nia.
Qed.

(** ** Writing one buffer after another *)
Lemma lookup_written c off d i : 0 <= off ->
  written c off d !! i = if decide (off <= Z.of_nat i < off + zlen d) then d !! (i - Z.to_nat off)%nat
    else if decide (Z.of_nat i < Z.max (zlen c) (off + zlen d)) then Some (default Byte.x00 (c !! i)) else None.
Proof.
  intros Ho. pose proof (zlen_nonneg d). pose proof (zlen_nonneg c). unfold written. set (n := Z.to_nat (Z.max (zlen c) (off + zlen d))).
  assert (Hn : length (resize n Byte.x00 c) = n) by apply length_resize. assert (En : Z.of_nat n = Z.max (zlen c) (off + zlen d)) by (unfold n; lia). clearbody n. unfold zlen in *.
  destruct (decide (off <= Z.of_nat i < off + Z.of_nat (length d))); [rewrite lookup_splice_in by lia; done|].
  rewrite lookup_splice_out by lia. destruct (decide (Z.of_nat i < Z.max (Z.of_nat (length c)) (off + Z.of_nat (length d)))).
  - destruct (decide (i < length c)%nat).
    + rewrite lookup_resize by lia. destruct (lookup_lt_is_Some_2 c i ltac:(done)) as [x ->]. done.
    + rewrite lookup_resize_new by lia. by rewrite (lookup_ge_None_2 c i) by lia.
  - apply lookup_resize_old. lia.
Qed.

Lemma written_app c off d1 d2 : 0 <= off -> written (written c off d1) (off + zlen d1) d2 = written c off (d1 ++ d2).
Proof.
  intros Ho. pose proof (zlen_nonneg d1). pose proof (zlen_nonneg d2). apply list_eq. intros i. rewrite !lookup_written by lia. rewrite written_length by done.
  assert (El : zlen (d1 ++ d2) = zlen d1 + zlen d2) by (unfold zlen; rewrite length_app; lia). rewrite El.
  destruct (decide (off + zlen d1 <= Z.of_nat i < off + zlen d1 + zlen d2)).
  { rewrite decide_True by lia. rewrite lookup_app_r by (unfold zlen in *; lia). f_equal. unfold zlen in *. lia. }
  destruct (decide (off <= Z.of_nat i < off + zlen d1)).
  { rewrite decide_True by lia. rewrite decide_True by lia. rewrite lookup_app_l by (unfold zlen in *; lia).
    destruct (lookup_lt_is_Some_2 d1 (i - Z.to_nat off)%nat) as [x ->]; [unfold zlen in *; lia|done]. }
  rewrite (decide_False (P := off <= Z.of_nat i < off + (zlen d1 + zlen d2))) by lia.
  destruct (decide (Z.of_nat i < Z.max (zlen c) (off + (zlen d1 + zlen d2)))); [|by rewrite decide_False by lia]. rewrite decide_True by lia.
  destruct (decide (Z.of_nat i < Z.max (zlen c) (off + zlen d1))); [done|]. by rewrite lookup_ge_None_2 by (unfold zlen in *; lia).
Qed.

Lemma update_twice name c c' a : update_name name c' (update_name name c a) = update_name name c' a.
Proof. induction a as [|[n d] a IH]; [done|]. cbn. destruct (decide (n = name)) eqn:E; cbn; rewrite E; [done|by rewrite IH]. Qed.

(** Writing less of a buffer takes no more blocks. *)
Lemma written_weight name c off d1 d2 a : lookup_name name a = Some c -> 0 <= off -> off + zlen (d1 ++ d2) <= MAX_SIZE -> zlen c <= MAX_SIZE ->
  fs_weight (update_name name (written c off d1) a) <= fs_weight (update_name name (written c off (d1 ++ d2)) a).
Proof.
  intros Hl Ho Hm Hc. rewrite !(fs_weight_update name c) by done. pose proof (zlen_nonneg d1). pose proof (zlen_nonneg d2). pose proof (zlen_nonneg c).
  assert (El : zlen (d1 ++ d2) = zlen d1 + zlen d2) by (unfold zlen; rewrite length_app; lia).
  pose proof (bytes_weight_mono (zlen (written c off d1)) (zlen (written c off (d1 ++ d2)))) as Hw. rewrite !written_length in * by done. lia.
Qed.

Section Buf.
Context {St F : Type} `{BlockStoreSpec St} `{FrameAllocatorSpec F}.
Variables (env : Env) (lo hi N : Z) (base : list (VPNRange * MapType * Z)).
Hypothesis Hlo : 0 < lo.
Implicit Types (k : Kernel St F) (W : gmap (option nat) aspace) (v : aspace) (l : directory) (a : named_files).
Abbreviation kinv := (kinv env lo hi N base).
Abbreviation finv k l a := (file_inv N (disk k) (root_fs k) (tasks k) (files k) l a).

(** ** One slice *)
Section Slice.
Variables (k : Kernel St F) (W : gmap (option nat) aspace) (t : nat) (v : aspace) (p : Z) (s : UserSlice).
Hypothesis HW : world lo hi (machine k) W.
Hypothesis Hv : W !! Some t = Some v.
Hypothesis Hd : is_Some (as_D v !! (p / 4096)).
Hypothesis Hs : sl_page s = user_frame (as_D v) p /\ sl_from s = p mod 4096 /\ 0 < slice_len s /\ sl_to s <= 4096.

Lemma slice_page : exists b, as_D v !! (p / 4096) = Some (sl_page s) /\ as_P v !! (p / 4096) = Some b /\ length b = page_len.
Proof.
  destruct Hd as [q Hq]. destruct Hs as (Ep & _). unfold user_frame in Ep. rewrite Hq in Ep. change (default 0 (Some q)) with q in Ep. subst q.
  destruct (world_page lo hi _ _ _ _ _ _ HW Hv Hq) as (b & Hb & _ & Hl). eauto.
Qed.

Lemma slice_read_ok b : as_P v !! (p / 4096) = Some b ->
  slice_read s k = Ok (take (Z.to_nat (slice_len s)) (drop (Z.to_nat (p mod 4096)) b), k).
Proof.
  intros Hb. destruct slice_page as (b' & HD & Hb' & Hl). assert (b' = b) as -> by congruence. destruct Hs as (_ & Ef & Hpos & Hto). unfold slice_len, page_len in *.
  pose proof (Z.mod_pos_bound p 4096 ltac:(lia)). unfold slice_read. erewrite bind_Ok; [|apply on_machine_ok; by apply (world_read lo hi _ W (Some t) v (p / 4096))].
  rewrite slice_Ok by (unfold zlen; lia). rewrite Ef. cbn [lift]. unfold ret. do 2 f_equal. by destruct k.
Qed.

Lemma slice_write_ok b bytes : as_P v !! (p / 4096) = Some b -> zlen bytes = slice_len s ->
  exists m, slice_write s bytes k = Ok (tt, set_machine k m) /\
    world lo hi m (<[Some t := set_page v (p / 4096) (splice b (Z.to_nat (p mod 4096)) bytes)]> W).
Proof.
  intros Hb Hlen. destruct slice_page as (b' & HD & Hb' & Hl). assert (b' = b) as -> by congruence. destruct Hs as (_ & Ef & Hpos & Hto). unfold slice_len, page_len in *.
  pose proof (Z.mod_pos_bound p 4096 ltac:(lia)).
  destruct (world_write lo hi _ W (Some t) v (p / 4096) (sl_page s) (splice b (Z.to_nat (p mod 4096)) bytes) HW Hv HD) as (m & E & HW').
  { rewrite splice_length; [done|]. unfold zlen in Hlen. lia. }
  exists m. split; [|done]. unfold slice_write. erewrite bind_Ok; [|apply on_machine_ok; by apply (world_read lo hi _ W (Some t) v (p / 4096))].
  rewrite copy_from_slice_Ok by (unfold zlen in *; lia). cbn [lift]. rewrite bind_ret, Ef. rewrite (on_machine_ok _ _ tt m); [done|exact E].
Qed.
End Slice.

(** What a read of [out] into the slice leaves in memory. *)
Lemma user_byte_read P x b p len out y : P !! x = Some b -> length b = page_len -> p / 4096 = x -> p mod 4096 + len <= 4096 -> zlen out <= len ->
  let old := take (Z.to_nat len) (drop (Z.to_nat (p mod 4096)) b) in
  user_byte (<[x := splice b (Z.to_nat (p mod 4096)) (out ++ drop (length out) old)]> P) y =
    if decide (p <= y < p + zlen out) then out !! Z.to_nat (y - p) else user_byte P y.
Proof.
  intros Hb Hl Hx Hlen Ho old. pose proof (zlen_nonneg out). pose proof (Z.mod_pos_bound p 4096 ltac:(lia)) as Hpm. unfold page_len in Hl.
  assert (Hold : length old = Z.to_nat len) by (unfold old; rewrite length_take, length_drop; lia).
  rewrite (user_byte_splice P x b p); [|done|done|done|unfold zlen in *; rewrite length_app, length_drop; lia].
  assert (Hz : zlen (out ++ drop (length out) old) = len) by (unfold zlen in *; rewrite length_app, length_drop; lia). rewrite Hz.
  destruct (decide (p <= y < p + len)) as [Hin|Hout]; [|rewrite decide_False by lia; done].
  destruct (decide (p <= y < p + zlen out)) as [Hio|Hoo]; [rewrite lookup_app_l by (unfold zlen in *; lia); done|].
  rewrite lookup_app_r by (unfold zlen in *; lia). rewrite lookup_drop. unfold old. rewrite lookup_take_lt by (unfold zlen in *; lia). rewrite lookup_drop.
  unfold user_byte. assert (E : y / 4096 = x /\ y mod 4096 = p mod 4096 + (y - p)). { pose proof (Z.div_mod p 4096 ltac:(lia)). subst x. split; [symmetry; apply (Z.div_unique y 4096 _ (p mod 4096 + (y - p))); lia|symmetry; apply (Z.mod_unique y 4096 (p / 4096)); lia]. }
  destruct E as [-> ->]. rewrite Hb. cbn [mbind option_bind]. f_equal. unfold zlen in *. lia.
Qed.

(** ** [OSInode::read] *)
(** One slice of the buffer. *)
Lemma os_read_slice k l a W t v r f name c p s ss total : finv k l a -> world lo hi (machine k) W -> W !! Some t = Some v ->
  open_on k l a r f name c -> 0 <= os_offset f < 2 ^ 62 -> slice_len s < 2 ^ 62 -> segs (as_D v) p (s :: ss) -> is_Some (as_D v !! (p / 4096)) ->
  exists d m P n, n = Z.min (slice_len s) (Z.max 0 (zlen c - os_offset f)) /\ finv (set_disk k d) l a /\
    world lo hi m (<[Some t := mkSpace (as_pt v) (as_G v) (as_D v) P]> W) /\
    (forall y, user_byte P y = if decide (p <= y < p + n) then c !! Z.to_nat (os_offset f + (y - p)) else user_byte (as_P v) y) /\
    os_read_loop r (s :: ss) total k = (let k1 := set_machine (set_disk k d) m in
      if n =? 0 then Ok (total, k1)
      else os_read_loop r ss (w64 (total + n)) (set_files k1 (<[r := set_offset f (w64 (os_offset f + n))]> (files k)))).
Proof.
  intros Hf HW Hv Hop Ho Hsl Hseg Hdp. pose proof Hop as (Hr & Hl & i & Hi & Ei). cbn [segs] in Hseg. destruct Hseg as (S1 & S2 & S3 & S4 & _).
  pose proof (content_max N k l a name c Hf Hl) as Hmax. assert (Hms : MAX_SIZE < 2 ^ 62) by done.
  destruct (slice_page k W t v p s HW Hv Hdp ltac:(done)) as (b & HD & Hb & Hlb). set (old := take (Z.to_nat (slice_len s)) (drop (Z.to_nat (p mod 4096)) b)).
  pose proof (Z.mod_pos_bound p 4096 ltac:(lia)) as Hpm. unfold page_len in Hlb.
  assert (Hold : length old = Z.to_nat (slice_len s)) by (unfold old; rewrite length_take, length_drop; unfold slice_len in *; lia).
  destruct (read_once N k l a r f name c old Hf Hop ltac:(lia)) as (d1 & E1 & Hf1); [unfold zlen; rewrite Hold; lia|]. rewrite Hold in E1.
  set (out := take (Z.to_nat (slice_len s)) (drop (Z.to_nat (os_offset f)) c)) in *.
  assert (Hzo : zlen out = Z.min (slice_len s) (Z.max 0 (zlen c - os_offset f))) by (unfold out, zlen in *; rewrite length_take, length_drop; lia).
  destruct (slice_write_ok (set_disk k d1) W t v p s HW Hv Hdp ltac:(done) b (out ++ drop (length out) old) Hb) as (m1 & E2 & HW1); [unfold zlen in *; rewrite length_app, length_drop; lia|].
  eexists d1, m1, _, (zlen out). split_and!; [exact Hzo|exact Hf1|exact HW1| |].
  - intros y. etransitivity; [apply (user_byte_read (as_P v) (p / 4096) b p (slice_len s) out y); [done|done|done|unfold slice_len in *; lia|lia]|].
    destruct (decide (p <= y < p + zlen out)) as [Hy|]; [|done]. unfold out. rewrite lookup_take_lt by lia. rewrite lookup_drop. f_equal. lia.
  - cbn [os_read_loop]. erewrite bind_Ok; [|by apply (get_file_ok r f)]. erewrite bind_Ok; [|by apply (slice_read_ok k W t v p s HW Hv Hdp ltac:(done))].
    fold old. erewrite bind_Ok; [|exact E1]. cbv iota beta. erewrite bind_Ok; [|exact E2]. cbv zeta. by destruct (zlen out =? 0).
Qed.

Lemma os_read_loop_ok ss : forall k l a W t v r f name c p total, finv k l a -> world lo hi (machine k) W -> W !! Some t = Some v ->
  open_on k l a r f name c -> 0 <= os_offset f < 2 ^ 62 -> segs (as_D v) p ss -> (forall y, p <= y < p + slices_len ss -> is_Some (as_D v !! (y / 4096))) ->
  0 <= total -> total + slices_len ss < 2 ^ 62 ->
  forall n, n = Z.min (slices_len ss) (Z.max 0 (zlen c - os_offset f)) ->
  exists d m P, let k' := set_files (set_disk (set_machine k m) d) (<[r := set_offset f (os_offset f + n)]> (files k)) in
    os_read_loop r ss total k = Ok (total + n, k') /\ finv k' l a /\ world lo hi m (<[Some t := mkSpace (as_pt v) (as_G v) (as_D v) P]> W) /\
    forall y, user_byte P y = if decide (p <= y < p + n) then c !! Z.to_nat (os_offset f + (y - p)) else user_byte (as_P v) y.
Proof.
  induction ss as [|s ss IH]; intros k l a W t v r f name c p total Hf HW Hv Hop Ho Hseg Hmap Ht Htl n En; pose proof Hop as (Hr & Hl & i & Hi & Ei);
    assert (Ef : set_offset f (os_offset f) = f) by (by destruct f).
  - assert (Hn : n = 0) by (cbn in En; lia). exists (disk k), (machine k), (as_P v). rewrite Hn, !Z.add_0_r. cbv zeta.
    rewrite Ef, (insert_id (files k)) by done. split_and!; [|done| |].
    + cbn. unfold ret. do 2 f_equal. by destruct k.
    + rewrite insert_id; [done|]. rewrite Hv. by destruct v.
    + intros y. by rewrite decide_False by lia.
  - pose proof Hseg as (S1 & S2 & S3 & S4 & Hseg'). pose proof (slices_len_nonneg _ _ _ Hseg') as Hnn.
    change (slices_len (s :: ss)) with (slice_len s + slices_len ss) in *. pose proof (content_max N k l a name c Hf Hl) as Hmax. assert (Hms : MAX_SIZE < 2 ^ 62) by done.
    destruct (os_read_slice k l a W t v r f name c p s ss total) as (d1 & m1 & P1 & n0 & En0 & Hf1 & HW1 & HP1 & ->); [done..|lia|done|apply Hmap; lia|].
    cbv zeta. destruct (Z.eqb_spec n0 0) as [E0|E0].
    + assert (Hn : n = 0) by lia. exists d1, m1, P1. rewrite Hn, !Z.add_0_r. rewrite Ef, (insert_id (files k)) by done. split_and!; [done|done|done|].
      intros y. by rewrite HP1, !decide_False by lia.
    + rewrite !w64_small by lia. set (v1 := mkSpace (as_pt v) (as_G v) (as_D v) P1) in *. set (f1 := set_offset f (os_offset f + n0)). set (k1 := set_files (set_machine (set_disk k d1) m1) (<[r := f1]> (files k))).
      assert (exists n1, n1 = Z.min (slices_len ss) (Z.max 0 (zlen c - (os_offset f + n0)))) as [n1 En1] by eauto.
      assert (Hn : n = n0 + n1 /\ (n1 <> 0 -> n0 = slice_len s)) by lia. destruct Hn as [Hn Hfull].
      destruct (IH k1 l a (<[Some t := v1]> W) t v1 r f1 name c (p + slice_len s) (total + n0)) with (n := n1) as (d2 & m2 & P2 & E3 & Hf3 & HW3 & HP3);
        [by apply (finv_offset N (set_machine (set_disk k d1) m1)); [exact Hf1|done|lia]|exact HW1|apply lookup_insert_eq|split_and!; [apply lookup_insert_eq|done|by exists i]
        |unfold f1; cbn [os_offset set_offset]; lia|exact Hseg'|intros y Hy; apply Hmap; lia|lia|lia|exact En1|].
      assert (Es : set_offset f1 (os_offset f1 + n1) = set_offset f (os_offset f + n)) by (unfold f1; cbn; rewrite Hn, Z.add_assoc; done). rewrite Es in E3, Hf3.
      exists d2, m2, P2. cbv zeta. unfold k1 in E3, Hf3. cbn in E3, Hf3, HP3. rewrite insert_insert_eq in E3, Hf3. rewrite insert_insert_eq in HW3. split_and!; [|exact Hf3|exact HW3|].
      * etransitivity; [exact E3|]. do 2 f_equal. lia.
      * intros y. rewrite HP3, HP1. repeat case_decide; first [done|lia|f_equal; lia].
Qed.

(** ** [OSInode::write] *)

(** The bytes [data] are the user's memory from [p] on. *)
Definition user_data (P : gmap Z (list byte)) (p : Z) (data : list byte) : Prop :=
  forall i, (i < length data)%nat -> data !! i = user_byte P (p + Z.of_nat i).

Lemma user_data_slice k W t v p s b data : world lo hi (machine k) W -> W !! Some t = Some v -> is_Some (as_D v !! (p / 4096)) ->
  sl_page s = user_frame (as_D v) p /\ sl_from s = p mod 4096 /\ 0 < slice_len s /\ sl_to s <= 4096 ->
  as_P v !! (p / 4096) = Some b -> user_data (as_P v) p data -> slice_len s <= zlen data ->
  take (Z.to_nat (slice_len s)) (drop (Z.to_nat (p mod 4096)) b) = take (Z.to_nat (slice_len s)) data.
Proof.
  intros HW Hv Hd Hs Hb Hu Hlen. destruct (slice_page k W t v p s HW Hv Hd Hs) as (b' & HD & Hb' & Hl). assert (b' = b) as -> by congruence. destruct Hs as (_ & Ef & Hpos & Hto).
  unfold slice_len, page_len in *. pose proof (Z.mod_pos_bound p 4096 ltac:(lia)) as Hpm. pose proof (Z.div_mod p 4096 ltac:(lia)) as Ep. apply list_eq. intros i.
  destruct (decide (i < Z.to_nat (sl_to s - sl_from s))%nat); [|rewrite !lookup_take_ge by lia; done]. rewrite !lookup_take_lt by done. rewrite lookup_drop.
  rewrite Hu by (unfold zlen in *; lia). unfold user_byte.
  rewrite <- (Z.div_unique (p + Z.of_nat i) 4096 (p / 4096) (p mod 4096 + Z.of_nat i)) by lia. rewrite <- (Z.mod_unique (p + Z.of_nat i) 4096 (p / 4096) (p mod 4096 + Z.of_nat i)) by lia.
  rewrite Hb. cbn [mbind option_bind]. f_equal. lia.
Qed.

(** The files after a write of [data] to the file [name]: a write of no slice leaves them as they are. *)
Definition after_write (name c : list byte) (off : Z) (data : list byte) (a : named_files) : named_files :=
  if data is [] then a else update_name name (written c off data) a.

Lemma os_write_loop_ok ss : forall k l a W t v r f name c p total data, finv k l a -> world lo hi (machine k) W -> W !! Some t = Some v ->
  open_on k l a r f name c -> 0 <= os_offset f -> segs (as_D v) p ss -> (forall y, p <= y < p + slices_len ss -> is_Some (as_D v !! (y / 4096))) ->
  zlen data = slices_len ss -> user_data (as_P v) p data -> os_offset f + zlen data <= MAX_SIZE ->
  fs_weight (after_write name c (os_offset f) data a) <= N - data_area_start_block (root_fs k) -> 0 <= total -> total + slices_len ss < 2 ^ 62 ->
  exists d, let k' := set_files (set_disk k d) (<[r := set_offset f (os_offset f + zlen data)]> (files k)) in
    os_write_loop r ss total k = Ok (total + zlen data, k') /\ finv k' l (after_write name c (os_offset f) data a).
Proof.
  induction ss as [|s ss IH]; intros k l a W t v r f name c p total data Hf HW Hv Hop Ho Hseg Hmap Hdl Hu Hmax Hwt Ht Htl; pose proof Hop as (Hr & Hl & i & Hi & Ei).
  - assert (data = []) as -> by (cbn in Hdl; unfold zlen in Hdl; destruct data; [done|cbn in Hdl; lia]). exists (disk k). change (zlen []) with 0. rewrite !Z.add_0_r. cbv zeta.
    assert (Ef : set_offset f (os_offset f) = f) by (by destruct f). rewrite Ef, (insert_id (files k)) by done. split; [|done]. cbn. unfold ret. do 2 f_equal. by destruct k.
  - cbn [segs] in Hseg. destruct Hseg as (S1 & S2 & S3 & S4 & Hseg). pose proof (slices_len_nonneg _ _ _ Hseg) as Hnn'.
    change (slices_len (s :: ss)) with (slice_len s + slices_len ss) in *. pose proof (content_max N k l a name c Hf Hl) as Hcm. assert (Hms : MAX_SIZE < 2 ^ 62) by done.
    assert (Hdp : is_Some (as_D v !! (p / 4096))) by (apply Hmap; lia).
    destruct (slice_page k W t v p s HW Hv Hdp ltac:(done)) as (b & HD & Hb & Hlb).
    pose proof (user_data_slice k W t v p s b data HW Hv Hdp ltac:(done) Hb Hu ltac:(lia)) as Ed.
    set (d1 := take (Z.to_nat (slice_len s)) data) in *. set (d2 := drop (Z.to_nat (slice_len s)) data). assert (Edata : data = d1 ++ d2) by (symmetry; apply take_drop).
    assert (Hz1 : zlen d1 = slice_len s) by (unfold zlen in *; unfold d1; rewrite length_take; lia).
    assert (Hz2 : zlen d2 = slices_len ss) by (unfold zlen in *; unfold d2; rewrite length_drop; lia).
    assert (Haw : after_write name c (os_offset f) data a = update_name name (written c (os_offset f) (d1 ++ d2)) a).
    { rewrite <- Edata. unfold after_write. destruct data; [|done]. unfold zlen in Hdl. cbn in Hdl. lia. }
    rewrite Haw in Hwt |- *. pose proof (written_weight name c (os_offset f) d1 d2 a Hl Ho ltac:(by rewrite <- Edata) Hcm) as Hww.
    destruct (view_write _ _ N l a (fi_view _ _ _ _ _ _ _ Hf) name i c (os_offset f) d1 Hi Hl Ho ltac:(lia) ltac:(lia) ltac:(lia)) as (σ' & Hrun & Hv').
    destruct (finv_write N k l a _ _ _ _ Hf Hrun Hv') as (dk & E1 & Hf1 & _). rewrite <- Ei in E1.
    cbn [os_write_loop]. erewrite bind_Ok; [|by apply (get_file_ok r f)]. rewrite gets_bind. erewrite bind_Ok; [|by apply (slice_read_ok k W t v p s HW Hv Hdp ltac:(done))].
    rewrite Ed. erewrite bind_Ok; [|exact E1]. rewrite Hz1, Z.eqb_refl. cbn [assert]. rewrite bind_ret. rewrite !w64_small by lia. unfold set_file. rewrite update_bind.
    set (f1 := set_offset f (os_offset f + slice_len s)). set (c1 := written c (os_offset f) d1) in *. set (k1 := set_files (set_disk k dk) (<[r := f1]> (files k))).
    assert (Hc1 : lookup_name name (update_name name c1 a) = Some c1) by (apply lookup_update; eauto).
    assert (Haw2 : after_write name c1 (os_offset f1) d2 (update_name name c1 a) = update_name name (written c (os_offset f) (d1 ++ d2)) a).
    { unfold after_write, f1. cbn [os_offset set_offset]. destruct d2 eqn:E2; [by rewrite app_nil_r|]. rewrite <- E2. rewrite update_twice. f_equal. unfold c1. rewrite <- Hz1. apply written_app. lia. }
    destruct (IH k1 l (update_name name c1 a) W t v r f1 name c1 (p + slice_len s) (total + slice_len s) d2) as (d & E3 & Hf3); try (unfold f1; cbn [os_offset set_offset]; lia); try done.
    + apply (finv_offset N (set_disk k dk)); [exact Hf1|done|lia].
    + split_and!; [apply lookup_insert_eq|done|by exists i].
    + intros y Hy. apply Hmap. lia.
    + intros j Hj. unfold d2 in *. rewrite length_drop in Hj. rewrite lookup_drop, Hu by lia. f_equal. lia.
    + rewrite Haw2. exact Hwt.
    + rewrite Haw2 in Hf3. unfold k1, f1 in E3, Hf3. cbn in E3, Hf3. rewrite insert_insert_eq in E3, Hf3.
      assert (Es : os_offset f + slice_len s + zlen d2 = os_offset f + zlen data) by lia. unfold set_offset in E3, Hf3 at 1. cbn in E3, Hf3. rewrite Es in E3, Hf3.
      exists d. cbv zeta. split; [|exact Hf3]. etransitivity; [exact E3|]. do 2 f_equal. lia.
Qed.

End Buf.
