(* ===== verification/KIo.v ===== *)
(** * System calls on files: [sys_read], [sys_write], [sys_open], [sys_close] *)

From S2P Require Import Prelude BlockDev BlockStore Layout DiskCodec Tree BuildTree TreeOps ClearTree InodeOps FileData Efs Vfs FsInv FsAlloc FsUpdate FsOps FsDir FsCreate FsSpec FsRefine Address Frames PageTable PtInv PtOps Space MemorySet AreaOps MsOps MsLife UserMem World Kernel OsInode Task Syscall Pids CxMem KLogic KInv KSched KProc KTree KExit KFile KBuf.

(** ** Memory of the user *)
Definition mapped v (p n : Z) : Prop := forall y, p <= y < p + n -> is_Some (as_D v !! (y / 4096)).

Lemma user_data_page s ms ppn v x : user_ok s ms ppn v -> is_Some (as_D v !! x) -> data_page (as_G v) (as_D v) x.
Proof.
  intros [Hpt [Ha Hsep Hd He Ht] Hf _ _] Hx. destruct (Hd x Hx) as (ar & Hin & Hr).
  apply (area_data_page _ _ ar); [by apply (proj1 (Forall_forall _ _) Ha)|by apply (proj1 (Forall_forall _ _) Hf)|done].
Qed.

(** ** Descriptors *)
Definition fd_of (tcb : TaskControlBlock) (fd : Z) : option FileObj := mjoin (fd_table (inner tcb) !! Z.to_nat fd).

(** ** Characters *)
Lemma utf8_ascii b : Forall (fun x => byte.unsigned x < 128) b -> utf8_chars b = Some (byte.unsigned <$> b).
Proof.
  induction 1 as [|x b Hx Hb IH]; [done|]. cbn [utf8_chars]. assert (between 0 127 x = true) as ->; [|by rewrite IH].
  unfold between. pose proof (byte.unsigned_range x). apply andb_true_intro. split; apply Z.leb_le; lia.
Qed.

Lemma buffer_len_ok D p ss total : segs D p ss -> 0 <= total -> total + slices_len ss < 2 ^ 64 -> buffer_len total ss = total + slices_len ss.
Proof.
  revert p total. induction ss as [|s ss IH]; intros p total Hs Ht Hl; [cbn; lia|]. cbn [segs] in Hs. destruct Hs as (_ & _ & Hp & _ & Hs).
  pose proof (slices_len_nonneg _ _ _ Hs). change (slices_len (s :: ss)) with (slice_len s + slices_len ss) in *. cbn [buffer_len].
  rewrite w64_small by lia. rewrite (IH _ _ Hs) by lia. lia.
Qed.

Lemma print_each {St F X} `{BlockStore St} `{FrameAllocator F} (f : X -> output) xs : forall k : Kernel St F,
  for_each xs (fun x _ => print (f x)) tt k = Ok (tt, set_console k (console k ++ (f <$> xs))).
Proof.
  induction xs as [|x xs IH]; intros k.
  - cbn. rewrite app_nil_r. unfold ret. do 2 f_equal. by destruct k.
  - cbn [for_each]. unfold print at 1. rewrite update_bind, IH. cbn. by rewrite <- app_assoc.
Qed.

Section Io.
Context {St F : Type} `{BlockStoreSpec St} `{FrameAllocatorSpec F}.
Variables (env : Env) (lo hi N : Z) (base : list (VPNRange * MapType * Z)).
Hypothesis Hlo : 0 < lo.
Implicit Types (l : directory) (a : named_files).
Abbreviation kinv := (kinv env lo hi N base).

Section Calls.
Variables (k : Kernel St F) (W : gmap (option nat) aspace) (l : directory) (a : named_files) (t : nat) (tcb : TaskControlBlock) (v : aspace).
Hypothesis Hk : kinv k W l a.
Hypothesis Hr : running (processor k) = Some t.
Hypothesis Ht : tasks k !! t = Some tcb.
Hypothesis Hv : W !! Some t = Some v.

Lemma current_ok : user_ok (tramp env) (memory_set (inner tcb)) (trap_cx_ppn (inner tcb)) v.
Proof.
  destruct (running_task _ _ _ _ _ _ _ _ _ Hk t Hr) as (tcb' & v' & Ht' & _ & Hv' & Hok). assert (tcb' = tcb) as -> by congruence. by assert (v' = v) as -> by congruence.
Qed.

Lemma free c : c ∉ borrows k.
Proof. apply (no_borrow _ _ _ _ _ _ _ _ _ Hk). Qed.

Lemma get_fd_ok fd (allows : FileObj -> cmd (Kernel St F) bool) p : 0 <= fd ->
  (forall file, fd_of tcb fd = Some file -> allows file (set_borrows k [TaskInner t]) = Ok (p file, set_borrows k [TaskInner t])) ->
  get_fd t fd allows k = Ok (fd_of tcb fd ≫= fun file => if p file then Some file else None, k).
Proof.
  intros Hfd Ha. pose proof (ki_borrows _ _ _ _ _ _ _ _ _ Hk) as Hb. unfold get_fd. apply with_cell_to; [apply free|done|]. rewrite Hb.
  erewrite bind_Ok; [|by apply (get_inner_ok t tcb)]. unfold fd_of in *. destruct (Z.leb_spec (zlen (fd_table (inner tcb))) fd) as [Hle|Hlt].
  - unfold zlen in Hle. by rewrite lookup_ge_None_2 by lia.
  - destruct (lookup_lt_is_Some_2 (fd_table (inner tcb)) (Z.to_nat fd)) as [o Ho]; [unfold zlen in Hlt; lia|].
    erewrite bind_Ok; [|cbn [lift]; rewrite (index_Ok _ _ o) by done; reflexivity]. rewrite Ho in *. cbn in *. destruct o as [file|]; [|done].
    erewrite bind_Ok; [|by apply Ha]. done.
Qed.

Definition writable (file : FileObj) : bool :=
  match file with Stdin => false | Stdout => true | OSFile r => from_option os_writable false (files k !! r) end.
Definition readable (file : FileObj) : bool :=
  match file with Stdin => true | Stdout => false | OSFile r => from_option os_readable false (files k !! r) end.

(** An open descriptor is a file of the table of open files. *)
Lemma fd_file fd r : fd_of tcb fd = Some (OSFile r) -> exists f, files k !! r = Some f /\ 0 <= os_offset f.
Proof.
  unfold fd_of. destruct (fd_table (inner tcb) !! Z.to_nat fd) as [o|] eqn:E; [|done]. cbn. intros ->. destruct (ki_file _ _ _ _ _ _ _ _ _ Hk) as [_ _ _ Hf Hfd].
  destruct (Hfd t tcb r Ht) as [f Hfr]; [by eapply list_elem_of_lookup_2|]. exists f. split; [done|]. by apply (Hf r f).
Qed.

Lemma writable_ok file fd : fd_of tcb fd = Some file -> file_writable file (set_borrows k [TaskInner t]) = Ok (writable file, set_borrows k [TaskInner t]).
Proof.
  intros Hfd. destruct file as [| |r]; [done|done|]. destruct (fd_file fd r Hfd) as (f & Hf & _). cbn [file_writable writable].
  erewrite bind_Ok; [|by apply (get_file_ok r f)]. by rewrite Hf.
Qed.

Lemma readable_ok file fd : fd_of tcb fd = Some file -> file_readable file (set_borrows k [TaskInner t]) = Ok (readable file, set_borrows k [TaskInner t]).
Proof.
  intros Hfd. destruct file as [| |r]; [done|done|]. destruct (fd_file fd r Hfd) as (f & Hf & _). cbn [file_readable readable].
  erewrite bind_Ok; [|by apply (get_file_ok r f)]. by rewrite Hf.
Qed.

(** A descriptor that is not open, or not for writing. *)
Lemma sys_write_denied fd buf len : 0 <= fd -> (forall file, fd_of tcb fd = Some file -> writable file = false) ->
  sys_write env fd buf len k = Ok (Value (-1), k).
Proof.
  intros Hfd Hden. unfold sys_write. erewrite bind_Ok; [|apply (current_user_token_ok t tcb); auto using free]. erewrite bind_Ok; [|apply (current_task_ok t); auto using free].
  erewrite bind_Ok; [|apply (get_fd_ok fd _ writable); [done|]; intros file; apply writable_ok]. destruct (fd_of tcb fd) as [file|] eqn:E; [|done]. cbn. by rewrite Hden.
Qed.

Lemma sys_read_denied fd buf len : 0 <= fd -> (forall file, fd_of tcb fd = Some file -> readable file = false) ->
  sys_read env fd buf len k = Ok (Value (-1), k).
Proof.
  intros Hfd Hden. unfold sys_read. erewrite bind_Ok; [|apply (current_user_token_ok t tcb); auto using free]. erewrite bind_Ok; [|apply (current_task_ok t); auto using free].
  erewrite bind_Ok; [|apply (get_fd_ok fd _ readable); [done|]; intros file; apply readable_ok]. destruct (fd_of tcb fd) as [file|] eqn:E; [|done]. cbn. by rewrite Hden.
Qed.

(** The slices of a buffer of the caller. *)
Lemma buffers_ok buf len : 0 <= buf -> 0 <= len -> buf + len < 2 ^ 38 -> mapped v buf len -> len / 4096 + 2 <= Z.of_nat (loops env) ->
  exists ss, on_machine (translated_byte_buffer (loops env) (ms_token (memory_set (inner tcb))) buf len) k = Ok (ss, k) /\
    segs (as_D v) buf ss /\ slices_len ss = len.
Proof.
  intros Hb Hl Hbl Hm Hfu. pose proof current_ok as Hok. pose proof (mi_world _ _ _ _ _ _ _ _ _ (ki_mem _ _ _ _ _ _ _ _ _ Hk)) as HW.
  destruct (translated_byte_buffer_ok lo hi _ _ _ _ _ _ (w_space _ _ _ _ HW _ _ Hv) (loops env) buf len Hb Hl Hbl) as (ss & E & Hpos & Hc); [|done|].
  { intros y Hy. by apply (user_data_page _ _ _ _ _ Hok), Hm. }
  destruct (segs_of_places _ ss buf len Hl Hpos Hc) as [Hseg Hlen]. exists ss. split_and!; [|done|done].
  rewrite (on_machine_ok _ _ ss (machine k)); [do 2 f_equal; by destruct k|]. unfold ms_token. rewrite <- (uo_pt _ _ _ _ Hok). exact E.
Qed.

Lemma kinv_pages m P : let v' := mkSpace (as_pt v) (as_G v) (as_D v) P in world lo hi m (<[Some t := v']> W) -> kinv (set_machine k m) (<[Some t := v']> W) l a.
Proof.
  intros v' HW. destruct Hk as [Hb Hm Hsc Htr Hf Hfr Hff]. split; cbn; [done| | |done|done|done|done].
  - by apply (mem_inv_pages env lo hi base (machine k)).
  - by apply sched_inv_pages.
Qed.

(** [sys_write] to a file appends the bytes at the offset, and the offset moves past them. *)
Lemma sys_write_file fd buf len r f name c data : 0 <= fd -> fd_of tcb fd = Some (OSFile r) -> open_on k l a r f name c -> os_writable f = true ->
  0 <= buf -> buf + len < 2 ^ 38 -> mapped v buf len -> len / 4096 + 2 <= Z.of_nat (loops env) -> zlen data = len -> user_data (as_P v) buf data ->
  os_offset f + len <= MAX_SIZE -> fs_weight (after_write name c (os_offset f) data a) <= N - data_area_start_block (root_fs k) ->
  exists d, let k' := set_files (set_disk k d) (<[r := set_offset f (os_offset f + len)]> (files k)) in
    sys_write env fd buf len k = Ok (Value len, k') /\ kinv k' W l (after_write name c (os_offset f) data a).
Proof.
  intros Hfd Hfo Hop Hwr Hb Hbl Hm Hfu Hdl Hu Hmax Hwt. pose proof Hop as (Hfr & _). destruct (fd_file fd r Hfo) as (f' & Hf' & Ho). assert (f' = f) as -> by congruence.
  pose proof (zlen_nonneg data). destruct (buffers_ok buf len Hb ltac:(lia) Hbl Hm Hfu) as (ss & E & Hseg & Hsl). pose proof (ki_borrows _ _ _ _ _ _ _ _ _ Hk) as Hbr.
  destruct (os_write_loop_ok lo hi N ss (set_borrows k [FileInner r]) l a W t v r f name c buf 0 data) as (d & E2 & Hf2); try done; try lia.
  { apply (ki_file _ _ _ _ _ _ _ _ _ Hk). } { apply (mi_world _ _ _ _ _ _ _ _ _ (ki_mem _ _ _ _ _ _ _ _ _ Hk)). } { intros y Hy. apply Hm. lia. }
  rewrite Hdl in E2, Hf2. exists d. cbv zeta. split.
  - unfold sys_write. erewrite bind_Ok; [|apply (current_user_token_ok t tcb); auto using free]. erewrite bind_Ok; [|apply (current_task_ok t); auto using free].
    erewrite bind_Ok; [|apply (get_fd_ok fd _ writable); [done|]; intros file; apply writable_ok]. rewrite Hfo. cbn [mbind option_bind writable]. rewrite Hfr. cbn [from_option]. rewrite Hwr.
    erewrite bind_Ok; [|exact E]. cbn [file_write]. erewrite bind_Ok; [|unfold os_write; apply (with_cell_to _ _ _ _ (set_files (set_disk k d) (<[r := set_offset f (os_offset f + len)]> (files k)))); [apply free|done|rewrite Hbr; exact E2]].
    unfold ret. do 3 f_equal. unfold as_isize. rewrite Z.add_0_l. destruct (Z.ltb_spec len (2 ^ 63)); lia.
  - apply (kinv_file env lo hi N base k W l a); [done|exact Hf2|]. intros r'. rewrite lookup_insert. case_decide; [subst; eauto|done].
Qed.

(** [sys_read] from a file copies the bytes at the offset into the buffer, as many as there are. *)
Lemma sys_read_file fd buf len r f name c : 0 <= fd -> fd_of tcb fd = Some (OSFile r) -> open_on k l a r f name c -> os_readable f = true ->
  0 <= buf -> 0 <= len -> buf + len < 2 ^ 38 -> mapped v buf len -> len / 4096 + 2 <= Z.of_nat (loops env) -> os_offset f < 2 ^ 62 ->
  let n := Z.min len (Z.max 0 (zlen c - os_offset f)) in
  exists d m P, let k' := set_files (set_disk (set_machine k m) d) (<[r := set_offset f (os_offset f + n)]> (files k)) in
    sys_read env fd buf len k = Ok (Value n, k') /\ kinv k' (<[Some t := mkSpace (as_pt v) (as_G v) (as_D v) P]> W) l a /\
    forall y, user_byte P y = if decide (buf <= y < buf + n) then c !! Z.to_nat (os_offset f + (y - buf)) else user_byte (as_P v) y.
Proof.
  intros Hfd Hfo Hop Hrd Hb Hln Hbl Hm Hfu Hol n. pose proof Hop as (Hfr & _). destruct (fd_file fd r Hfo) as (f' & Hf' & Ho). assert (f' = f) as -> by congruence.
  destruct (buffers_ok buf len Hb ltac:(lia) Hbl Hm Hfu) as (ss & E & Hseg & Hsl). pose proof (ki_borrows _ _ _ _ _ _ _ _ _ Hk) as Hbr.
  destruct (os_read_loop_ok lo hi N ss (set_borrows k [FileInner r]) l a W t v r f name c buf 0) with (n := n) as (d & m & P & E2 & Hf2 & HW2 & HP); try done; try lia.
  { apply (ki_file _ _ _ _ _ _ _ _ _ Hk). } { apply (mi_world _ _ _ _ _ _ _ _ _ (ki_mem _ _ _ _ _ _ _ _ _ Hk)). } { intros y Hy. apply Hm. lia. }
  exists d, m, P. cbv zeta. split_and!; [| |done].
  - unfold sys_read. erewrite bind_Ok; [|apply (current_user_token_ok t tcb); auto using free]. erewrite bind_Ok; [|apply (current_task_ok t); auto using free].
    erewrite bind_Ok; [|apply (get_fd_ok fd _ readable); [done|]; intros file; apply readable_ok]. rewrite Hfo. cbn [mbind option_bind readable]. rewrite Hfr. cbn [from_option]. rewrite Hrd.
    erewrite bind_Ok; [|exact E]. cbn [file_read]. erewrite bind_Ok; [|unfold os_read; apply (with_cell_to _ _ _ _ (set_files (set_disk (set_machine k m) d) (<[r := set_offset f (os_offset f + n)]> (files k)))); [apply free|done|rewrite Hbr; exact E2]].
    unfold ret. do 3 f_equal. unfold as_isize. rewrite Z.add_0_l. destruct (Z.ltb_spec n (2 ^ 63)); lia.
  - apply (kinv_file env lo hi N base (set_machine k m) _ l a); [by apply kinv_pages|exact Hf2|]. intros r'. rewrite lookup_insert. case_decide; [subst; eauto|done].
Qed.

(** ** The console *)

(** The characters of a buffer of ASCII bytes. *)
Lemma stdout_loop_ok ss : forall (k0 : Kernel St F) p data, world lo hi (machine k0) W -> segs (as_D v) p ss -> mapped v p (slices_len ss) -> zlen data = slices_len ss ->
  user_data (as_P v) p data -> Forall (fun b => byte.unsigned b < 128) data ->
  stdout_loop ss k0 = Ok (tt, set_console k0 (console k0 ++ ((fun b => Char (byte.unsigned b)) <$> data))).
Proof.
  induction ss as [|s ss IH]; intros k0 p data HW Hseg Hm Hdl Hu Ha.
  - assert (data = []) as -> by (cbn in Hdl; unfold zlen in Hdl; destruct data; [done|cbn in Hdl; lia]). cbn. rewrite app_nil_r. unfold ret. do 2 f_equal. by destruct k0.
  - cbn [segs] in Hseg. destruct Hseg as (S1 & S2 & S3 & S4 & Hseg). pose proof (slices_len_nonneg _ _ _ Hseg) as Hnn'.
    change (slices_len (s :: ss)) with (slice_len s + slices_len ss) in *.
    assert (Hdp : is_Some (as_D v !! (p / 4096))) by (apply Hm; lia). destruct (slice_page lo hi k0 W t v p s HW Hv Hdp ltac:(done)) as (b & HD & Hb & Hlb).
    pose proof (user_data_slice lo hi k0 W t v p s b data HW Hv Hdp ltac:(done) Hb Hu ltac:(lia)) as Ed.
    set (d1 := take (Z.to_nat (slice_len s)) data) in *. set (d2 := drop (Z.to_nat (slice_len s)) data). assert (Edata : data = d1 ++ d2) by (symmetry; apply take_drop).
    rewrite Edata in Ha. apply Forall_app in Ha as [Ha1 Ha2]. cbn [stdout_loop]. erewrite bind_Ok; [|by apply (slice_read_ok lo hi k0 W t v p s HW Hv Hdp ltac:(done))].
    rewrite Ed, utf8_ascii by done. cbn [unwrap lift]. rewrite bind_ret. erewrite bind_Ok; [|apply (print_each Char)].
    rewrite (IH _ (p + slice_len s) d2); [|exact HW|done| | | |done].
    + cbn [console set_console]. rewrite (f_equal (fmap _) Edata), fmap_app, <- app_assoc, <- list_fmap_compose. done.
    + intros y Hy. apply Hm. lia.
    + unfold d2, zlen in *. rewrite length_drop. lia.
    + intros j Hj. unfold d2 in *. rewrite length_drop in Hj. rewrite lookup_drop, Hu by lia. f_equal. lia.
Qed.

Lemma sys_write_stdout fd buf len data : 0 <= fd -> fd_of tcb fd = Some Stdout -> 0 <= buf -> buf + len < 2 ^ 38 -> mapped v buf len ->
  len / 4096 + 2 <= Z.of_nat (loops env) -> zlen data = len -> user_data (as_P v) buf data -> Forall (fun b => byte.unsigned b < 128) data ->
  sys_write env fd buf len k = Ok (Value len, set_console k (console k ++ ((fun b => Char (byte.unsigned b)) <$> data))).
Proof.
  intros Hfd Hfo Hb Hbl Hm Hfu Hdl Hu Ha. pose proof (zlen_nonneg data). destruct (buffers_ok buf len Hb ltac:(lia) Hbl Hm Hfu) as (ss & E & Hseg & Hsl).
  unfold sys_write. erewrite bind_Ok; [|apply (current_user_token_ok t tcb); auto using free]. erewrite bind_Ok; [|apply (current_task_ok t); auto using free].
  erewrite bind_Ok; [|apply (get_fd_ok fd _ writable); [done|]; intros file; apply writable_ok]. rewrite Hfo. cbn [mbind option_bind writable].
  erewrite bind_Ok; [|exact E]. cbn [file_write]. unfold stdout_write. erewrite bind_Ok.
  2: { erewrite bind_Ok; [reflexivity|]. apply (stdout_loop_ok ss k buf data); try done; [|by rewrite Hsl|by rewrite Hsl]. apply (mi_world _ _ _ _ _ _ _ _ _ (ki_mem _ _ _ _ _ _ _ _ _ Hk)). }
  unfold ret. do 3 f_equal. rewrite (buffer_len_ok _ _ _ 0 Hseg) by lia. unfold as_isize. rewrite Hsl. destruct (Z.ltb_spec (0 + len) (2 ^ 63)); lia.
Qed.

(** Any other text is printed up to the first slice that is not UTF-8, where the kernel panics. *)
Lemma stdout_loop_any ss : forall (k0 : Kernel St F) p, world lo hi (machine k0) W -> segs (as_D v) p ss -> mapped v p (slices_len ss) ->
  stdout_loop ss k0 = Fail Panic \/ exists out, stdout_loop ss k0 = Ok (tt, set_console k0 out).
Proof.
  induction ss as [|s ss IH]; intros k0 p HW Hseg Hm; [right; exists (console k0); cbn; unfold ret; do 2 f_equal; by destruct k0|].
  cbn [segs] in Hseg. destruct Hseg as (S1 & S2 & S3 & S4 & Hseg). pose proof (slices_len_nonneg _ _ _ Hseg) as Hnn.
  change (slices_len (s :: ss)) with (slice_len s + slices_len ss) in *.
  assert (Hdp : is_Some (as_D v !! (p / 4096))) by (apply Hm; lia). destruct (slice_page lo hi k0 W t v p s HW Hv Hdp ltac:(done)) as (b & HD & Hb & Hlb).
  cbn [stdout_loop]. erewrite bind_Ok; [|by apply (slice_read_ok lo hi k0 W t v p s HW Hv Hdp ltac:(done))]. destruct (utf8_chars _) as [cs|]; [|by left].
  cbn [unwrap lift]. rewrite bind_ret. erewrite bind_Ok; [|apply (print_each Char)]. set (k1 := set_console k0 _).
  destruct (IH k1 (p + slice_len s)) as [E|[out E]]; [exact HW|done|intros y Hy; apply Hm; lia|by left|]. right. exists out. exact E.
Qed.

Lemma sys_write_console fd buf len : 0 <= fd -> fd_of tcb fd = Some Stdout -> 0 <= buf -> 0 <= len -> buf + len < 2 ^ 38 -> mapped v buf len ->
  len / 4096 + 2 <= Z.of_nat (loops env) -> sys_write env fd buf len k = Fail Panic \/ exists out, sys_write env fd buf len k = Ok (Value len, set_console k out).
Proof.
  intros Hfd Hfo Hb Hl Hbl Hm Hfu. destruct (buffers_ok buf len Hb Hl Hbl Hm Hfu) as (ss & E & Hseg & Hsl).
  assert (Es : sys_write env fd buf len k = (let* n := stdout_write ss in ret (Value (as_isize n))) k).
  { unfold sys_write. erewrite bind_Ok; [|apply (current_user_token_ok t tcb); auto using free]. erewrite bind_Ok; [|apply (current_task_ok t); auto using free].
    erewrite bind_Ok; [|apply (get_fd_ok fd _ writable); [done|]; intros file; apply writable_ok]. rewrite Hfo. cbn [mbind option_bind writable]. by erewrite bind_Ok; [|exact E]. }
  rewrite Es. unfold stdout_write. rewrite bind_assoc. destruct (stdout_loop_any ss k buf) as [E'|[out E']]; [apply (mi_world _ _ _ _ _ _ _ _ _ (ki_mem _ _ _ _ _ _ _ _ _ Hk))|done|by rewrite Hsl|left|right].
  - unfold bind. by rewrite E'.
  - exists out. rewrite (bind_Ok _ _ _ _ _ E'), bind_ret. unfold ret. do 3 f_equal. rewrite (buffer_len_ok _ _ _ 0 Hseg) by lia. unfold as_isize. rewrite Hsl. destruct (Z.ltb_spec (0 + len) (2 ^ 63)); lia.
Qed.

(** The loop of [Stdin::read]: without a character the task is suspended inside
    the call; with one the byte is stored and the call returns 1. *)
Definition got_char (P : gmap Z (list byte)) (x off : Z) (c : byte) : option (list byte) := (fun b => <[Z.to_nat off := c]> b) <$> P !! x.

Lemma stdin_loop_ok s : place_ok v s -> slice_len s = 1 -> let c := w64 (console_getchar env (reads k)) in
  if c =? 0 then let k' := suspended_state (set_reads k (S (reads k))) t tcb (InStdin [s]) in
    stdin_loop env [s] k = Ok (Switched, k') /\ kinv k' W l a
  else exists x b m, as_D v !! x = Some (sl_page s) /\ x <> context_vpn /\ as_P v !! x = Some b /\
    let v' := set_page v x (<[Z.to_nat (sl_from s) := byte.of_Z (w8 c)]> b) in let k' := set_machine (set_reads k (S (reads k))) m in
    stdin_loop env [s] k = Ok (Value 1, k') /\ kinv k' (<[Some t := v']> W) l a.
Proof.
  intros Hs Hlen c. pose proof Hs as ((x & Hxc & Hx) & Hfr & Hto). pose proof (mi_world _ _ _ _ _ _ _ _ _ (ki_mem _ _ _ _ _ _ _ _ _ Hk)) as HW.
  unfold stdin_loop, getchar. rewrite bind_assoc, gets_bind, bind_assoc, update_bind, bind_ret. fold c. destruct (c =? 0).
  - destruct (suspend_inv env lo hi N base (set_reads k (S (reads k))) W l a t (InStdin [s]) v) as (tcb' & Ht' & E & Hk'); [by apply kinv_reads|done|done|cbn; eauto|].
    assert (tcb' = tcb) as -> by (cbn in Ht'; congruence). done.
  - destruct (world_page lo hi _ _ _ _ _ _ HW Hv Hx) as (b & Hb & _ & Hl).
    destruct (world_write lo hi _ W (Some t) v x (sl_page s) (<[Z.to_nat (sl_from s) := byte.of_Z (w8 c)]> b) HW Hv Hx) as (m & E & HW'); [by rewrite length_insert|].
    exists x, b, m. split; [done|]. split; [done|]. split; [done|]. cbv zeta. split.
    + cbn [lift]. erewrite bind_Ok; [|rewrite (index_Ok _ _ s) by done; reflexivity].
      erewrite bind_Ok; [|apply on_machine_ok; by apply (world_read lo hi _ W (Some t) v x)]. unfold page_len in Hl.
      erewrite bind_Ok; [|rewrite index_set_Ok by (unfold zlen; lia); reflexivity]. erewrite bind_Ok; [|apply on_machine_ok; exact E]. done.
    + apply (kinv_reads env lo hi N base (set_machine k m)). by apply kinv_pages.
Qed.

(** ** [sys_open] and [sys_close] *)

(** The descriptor [alloc_fd] gives, and the table with the file in it. *)
Definition fd_insert {A} (table : list (option A)) (file : A) : nat * list (option A) :=
  match list_find (fun o => o = None) table with
  | Some (fd, _) => (fd, <[fd := Some file]> table)
  | None => (length table, table ++ [Some file])
  end.

Lemma alloc_fd_ok i file : zlen (fd_table i) < 2 ^ 63 -> let r := alloc_fd i in
  index_set (fd_table r.2) r.1 (Some file) = Ok (fd_insert (fd_table i) file).2 /\ r.1 = Z.of_nat (fd_insert (fd_table i) file).1 /\
  (forall x, set_fd_table r.2 x = set_fd_table i x).
Proof.
  intros Hl. unfold alloc_fd, fd_insert. destruct (list_find (fun o => o = None) (fd_table i)) as [[fd o]|] eqn:E; cbn [fst snd].
  - apply list_find_Some in E as (Hfd & _ & _). apply lookup_lt_Some in Hfd. rewrite index_set_Ok by (unfold zlen; lia). by rewrite Nat2Z.id.
  - assert (Ez : zlen (fd_table (set_fd_table i (fd_table i ++ [None]))) = zlen (fd_table i) + 1) by (cbn; unfold zlen; rewrite length_app; cbn; lia).
    unfold zlen in Hl. rewrite Ez, w64_small by (unfold zlen; lia). replace (zlen (fd_table i) + 1 - 1) with (Z.of_nat (length (fd_table i))) by (unfold zlen; lia). split_and!; [|done|done].
    rewrite index_set_Ok by (rewrite Ez; unfold zlen; lia). rewrite Nat2Z.id. cbn [fd_table set_fd_table]. rewrite insert_app_r_alt by lia. by rewrite Nat.sub_diag.
Qed.

(** The descriptor was not in use; the others are unchanged. *)
Lemma fd_insert_lookup {A} (table : list (option A)) file : (mjoin (table !! (fd_insert table file).1) = None) /\
  forall fd, (fd_insert table file).2 !! fd = if decide (fd = (fd_insert table file).1) then Some (Some file) else table !! fd.
Proof.
  unfold fd_insert. destruct (list_find (fun o => o = None) table) as [[fd o]|] eqn:E; cbn [fst snd].
  - apply list_find_Some in E as (Hfd & -> & _). split; [by rewrite Hfd|]. intros fd'. destruct (decide (fd' = fd)) as [->|Hne].
    + apply list_lookup_insert_eq. by eapply lookup_lt_Some.
    + by rewrite list_lookup_insert_ne.
  - split; [by rewrite lookup_ge_None_2|]. intros fd. destruct (decide (fd = length table)) as [->|Hne]; [by rewrite lookup_app_r, Nat.sub_diag|].
    destruct (decide (fd < length table)%nat); [by rewrite lookup_app_l|]. rewrite !lookup_ge_None_2; [done|lia|rewrite length_app; cbn; lia].
Qed.

Lemma kinv_fds table : (forall r, Some (OSFile r) ∈ table -> is_Some (files k !! r)) ->
  kinv (set_tasks k (<[t := with_inner tcb (set_fd_table (inner tcb) table)]> (tasks k))) W l a.
Proof.
  intros Hfd. destruct Hk as [Hb Hm Hsc Htr Hf Hfr Hff]. split; cbn; [done| | | | | |done].
  - by apply mem_inv_task.
  - by apply sched_inv_task.
  - by apply tree_inv_task.
  - by apply file_inv_task.
  - intros u. rewrite lookup_insert. case_decide; [subst; intros _; apply Hfr; eauto|apply Hfr].
Qed.

(** [sys_close] frees the descriptor. *)
Lemma sys_close_ok fd : 0 <= fd -> let k' := set_tasks k (<[t := with_inner tcb (set_fd_table (inner tcb) (<[Z.to_nat fd := None]> (fd_table (inner tcb))))]> (tasks k)) in
  if fd_of tcb fd is Some _ then sys_close fd k = Ok (Value 0, k') /\ kinv k' W l a else sys_close fd k = Ok (Value (-1), k).
Proof.
  intros Hfd k'. assert (E : forall r kf, (forall b, (let* i := get_inner t in
      if zlen (fd_table i) <=? fd then ret (Value (-1)) else let* o := lift (index (fd_table i) fd) in
      match o with None => ret (Value (-1)) | Some _ => let* table := lift (index_set (fd_table i) fd None) in set_inner t (set_fd_table i table);; ret (Value 0) end)
      (set_borrows k b) = Ok (r, set_borrows kf b)) -> borrows kf = borrows k -> sys_close fd k = Ok (r, kf)).
  { intros r kf Hbody Hb. unfold sys_close. erewrite bind_Ok; [|apply (current_task_ok t); auto using free]. apply with_cell_to; [apply free|done|apply Hbody]. }
  unfold fd_of. destruct (fd_table (inner tcb) !! Z.to_nat fd) as [o|] eqn:Eo; cbn [mjoin option_join].
  - assert (Hlt : fd < zlen (fd_table (inner tcb))) by (apply lookup_lt_Some in Eo; unfold zlen; lia). destruct o as [file|].
    + split.
      * apply E; [|done]. intros b. erewrite bind_Ok; [|by apply (get_inner_ok t tcb)]. destruct (Z.leb_spec (zlen (fd_table (inner tcb))) fd); [lia|].
        rewrite (index_Ok _ _ (Some file)) by done. cbn [lift]. rewrite bind_ret. rewrite index_set_Ok by lia. cbn [lift]. rewrite bind_ret. by rewrite (bind_Ok _ _ _ _ _ (set_inner_ok t tcb _ (set_borrows k b) Ht)).
      * apply kinv_fds. intros r Hin. apply list_elem_of_lookup in Hin as [j Hj]. apply list_lookup_insert_Some in Hj as [(_ & ? & _)|[_ Hj]]; [done|].
        apply (fi_fds _ _ _ _ _ _ _ (ki_file _ _ _ _ _ _ _ _ _ Hk) t tcb r Ht). by eapply list_elem_of_lookup_2.
    + apply E; [|done]. intros b. erewrite bind_Ok; [|by apply (get_inner_ok t tcb)]. destruct (Z.leb_spec (zlen (fd_table (inner tcb))) fd); [lia|].
      rewrite (index_Ok _ _ None) by done. done.
  - apply E; [|done]. intros b. erewrite bind_Ok; [|by apply (get_inner_ok t tcb)]. apply lookup_ge_None_1 in Eo. destruct (Z.leb_spec (zlen (fd_table (inner tcb))) fd); [done|unfold zlen in *; lia].
Qed.

Lemma sys_getpid_ok : 0 <= pid tcb < 2 ^ 63 -> sys_getpid k = Ok (Value (pid tcb), k).
Proof.
  intros Hp. unfold sys_getpid. erewrite bind_Ok; [|apply (current_task_ok t); auto using free]. erewrite bind_Ok; [|by apply (get_task_ok t tcb)].
  unfold as_isize, ret. destruct (Z.ltb_spec (pid tcb) (2 ^ 63)); [done|lia].
Qed.

(** A string of the caller. *)
Definition user_str (ptr : Z) (cs : list byte) : Prop :=
  0 <= ptr /\ ptr + zlen cs < 2 ^ 39 /\ (length cs < loops env)%nat /\ mapped v ptr (zlen cs + 1) /\
  (forall i c, cs !! i = Some c -> c <> Byte.x00 /\ user_byte (as_P v) (ptr + Z.of_nat i) = Some c) /\ user_byte (as_P v) (ptr + zlen cs) = Some Byte.x00.

Lemma user_str_ok ptr cs : user_str ptr cs ->
  on_machine (translated_str (loops env) (ms_token (memory_set (inner tcb))) ptr) k = Ok (chars cs, k).
Proof.
  intros (Hp & Hl & Hfu & Hm & Hcs & Hz). pose proof current_ok as Hok. pose proof (mi_world _ _ _ _ _ _ _ _ _ (ki_mem _ _ _ _ _ _ _ _ _ Hk)) as HW.
  rewrite (on_machine_ok _ _ (chars cs) (machine k)); [do 2 f_equal; by destruct k|]. unfold ms_token. rewrite <- (uo_pt _ _ _ _ Hok).
  apply (translated_str_ok lo hi _ _ _ _ _ _ (w_space _ _ _ _ HW _ _ Hv) Hlo cs); [done|done|done| |done|done].
  intros x Hx. apply (user_data_page _ _ _ _ _ Hok), Hm. lia.
Qed.

End Calls.

(** [sys_open] adds the file to the first free descriptor. *)
Lemma sys_open_ok k W l a t tcb v ptr cs flags : kinv k W l a -> running (processor k) = Some t -> tasks k !! t = Some tcb -> W !! Some t = Some v ->
  user_str v ptr cs -> flags_from_bits flags = Some flags -> open_ok (root_fs k) N (chars cs) flags a -> zlen (fd_table (inner tcb)) < 2 ^ 63 ->
  let r := fd_insert (fd_table (inner tcb)) (OSFile (next_ref k)) in
  match open_spec (chars cs) flags a with
  | Some a' => exists i l' d', let f := os_inode_new (read_write flags).1 (read_write flags).2 (vinode (root_fs k) i) in
      let k' := set_tasks (opened (set_disk k d') f) (<[t := with_inner tcb (set_fd_table (inner tcb) r.2)]> (tasks k)) in
      enters (chars cs) i l l' /\ sys_open env ptr flags k = Ok (Value (Z.of_nat r.1), k') /\ kinv k' W l' a'
  | None => exists d', sys_open env ptr flags k = Ok (Value (-1), set_disk k d') /\ kinv (set_disk k d') W l a
  end.
Proof.
  intros Hk Hr Ht Hv Hs Hfl Hop Hlen r. pose proof (open_file_ok env lo hi N base k W l a (chars cs) flags Hk Hop) as Hopen.
  assert (E : forall o k1, open_file (chars cs) flags k = Ok (o, k1) -> sys_open env ptr flags k = match o with
    | Some inode => with_cell (TaskInner t) (let* i := get_inner t in let '(fd, i) := alloc_fd i in let* table := lift (index_set (fd_table i) fd (Some (OSFile inode))) in
        set_inner t (set_fd_table i table);; ret (Value (as_isize fd))) k1
    | None => Ok (Value (-1), k1) end).
  { intros o k1 E. unfold sys_open. erewrite bind_Ok; [|apply (current_task_ok t); [by eapply free|done]]. erewrite bind_Ok; [|apply (current_user_token_ok t tcb); [by eapply free|by eapply free|done|done]].
    erewrite bind_Ok; [|by eapply user_str_ok]. rewrite Hfl. cbn [unwrap lift]. rewrite bind_ret. rewrite (bind_Ok _ _ _ _ _ E). by destruct o. }
  destruct (open_spec (chars cs) flags a) as [a'|].
  - destruct Hopen as (i & l' & d' & Hi & Eo & Hk'). set (f := os_inode_new _ _ _) in *. exists i, l', d'. cbv zeta. fold f. split; [done|]. split.
    + rewrite (E _ _ Eo). cbv iota beta. destruct (alloc_fd_ok (inner tcb) (OSFile (next_ref k)) Hlen) as (A1 & A2 & A3). apply with_cell_to; [cbn; by eapply free|done|].
      erewrite bind_Ok; [|by apply (get_inner_ok t tcb)]. destruct (alloc_fd (inner tcb)) as [fd i1]. cbn [fst snd] in *. rewrite A1. cbn [lift]. rewrite bind_ret, A3.
      erewrite bind_Ok; [|by apply (set_inner_ok t tcb)]. unfold ret. do 3 f_equal. rewrite A2. unfold as_isize. assert (Z.of_nat (fd_insert (fd_table (inner tcb)) (OSFile (next_ref k))).1 <= zlen (fd_table (inner tcb))) as Hle.
      { unfold fd_insert. destruct (list_find _ _) as [[? ?]|] eqn:E2; cbn; [|unfold zlen; lia]. apply list_find_Some in E2 as (E2 & _). apply lookup_lt_Some in E2. unfold zlen. lia. }
      destruct (Z.ltb_spec (Z.of_nat (fd_insert (fd_table (inner tcb)) (OSFile (next_ref k))).1) (2 ^ 63)); [done|lia].
    + apply (kinv_fds (opened (set_disk k d') f) W l' a' t tcb v Hk' Hr Ht Hv). intros q Hq. cbn. rewrite lookup_insert. case_decide as Hc; [eauto|].
      apply list_elem_of_lookup in Hq as [j Hj]. unfold r in Hj. rewrite (proj2 (fd_insert_lookup _ _)) in Hj. case_decide; [congruence|].
      apply (fi_fds _ _ _ _ _ _ _ (ki_file _ _ _ _ _ _ _ _ _ Hk) t tcb q Ht). by eapply list_elem_of_lookup_2.
  - destruct Hopen as (d' & Eo & Hk'). exists d'. split; [|done]. by rewrite (E _ _ Eo).
Qed.

End Io.
