(* ===== verification/KExec.v ===== *)
(** * New address spaces from ELF files: [exec], [TaskControlBlock::new] *)

From S2P Require Import Prelude BlockDev BlockStore Layout DiskCodec Tree BuildTree TreeOps ClearTree InodeOps FileData Efs Vfs FsInv FsAlloc FsUpdate FsOps FsDir FsCreate FsSpec FsRefine Address Frames PageTable PtInv PtOps Space MemorySet AreaOps MsOps MsLife MsBuild UserMem World Kernel OsInode Task Syscall Pids CxMem KLogic KInv KSched KProc KFork KTree KExit KFile KBuf KIo.

(** ** A space under another name *)
Section Rename.
Context {F : Type} `{FrameAllocatorSpec F} {K : Type} `{Countable K}.

Lemma total_rename (W : gmap K aspace) i j v : W !! i = Some v -> W !! j = None -> total (<[j := v]> (delete i W)) = total W.
Proof.
  intros Hi Hj. rewrite total_insert by (rewrite lookup_delete; by case_decide). by rewrite <- total_split.
Qed.

Lemma world_rename lo hi (m : Machine F) (W : gmap K aspace) i j v : world lo hi m W -> W !! i = Some v -> W !! j = None ->
  world lo hi m (<[j := v]> (delete i W)).
Proof.
  intros [Hm Hs] Hi Hj. assert (Hij : i <> j) by congruence. split; [by rewrite total_rename|]. intros a w Ha.
  rewrite lookup_insert in Ha. destruct (decide (j = a)) as [<-|Hja].
  - injection Ha as <-. rewrite delete_insert_id by (rewrite lookup_delete; by case_decide). by apply Hs.
  - apply lookup_delete_Some in Ha as [Hia Ha]. rewrite delete_insert_ne by done. rewrite delete_delete, total_rename; [by apply Hs|by rewrite lookup_delete_ne|].
    by rewrite lookup_delete_ne.
Qed.
End Rename.

Lemma is_u64_lor x y : is_u64 x -> is_u64 y -> is_u64 (Z.lor x y).
Proof.
  unfold is_u64. intros Hx Hy. assert (Hn : 0 <= Z.lor x y) by (apply Z.lor_nonneg; lia). split; [done|].
  destruct (decide (Z.lor x y = 0)) as [->|Hz]; [lia|]. apply Z.log2_lt_pow2; [lia|]. rewrite Z.log2_lor by lia.
  assert (forall z, 0 <= z < 2 ^ 64 -> Z.log2 z < 64) as Hlog. { intros z Hz'. destruct (decide (z = 0)) as [->|]; [done|]. apply Z.log2_lt_pow2; lia. }
  apply Hlog in Hx, Hy. lia.
Qed.

(** ** Files that can be executed *)
Record elf_ok (env : Env) (data : list byte) (elf : ElfFile) : Prop := {
  eo_len : zlen data < 2 ^ 63;
  eo_parse : parse_elf env data = Some elf;
  eo_magic : magic elf = [0x7f; 0x45; 0x4c; 0x46];
  eo_headers : Forall (header_ok data) (program_headers elf);
  eo_ascending : ascending 0 (segments (program_headers elf));
  eo_entry : is_u64 (entry_point elf);
}.

Definition elf_sp (elf : ElfFile) : Z := 4096 * (end_page 0 (segments (program_headers elf)) + 3).

Lemma end_page_range data hs : forall e, zlen data < 2 ^ 63 -> Forall (header_ok data) hs -> 0 <= e <= 2 ^ 26 - 4 -> 0 <= end_page e (segments hs) <= 2 ^ 26 - 4.
Proof.
  induction hs as [|o hs IH]; intros e Hl Hhs He; [done|]. apply Forall_cons in Hhs as [Ho Hhs]. unfold segments in *. cbn [omap list_omap].
  destruct o as [ph|]; [|done]. cbn [mbind option_bind]. destruct (decide (ph_type ph = Some true)) as [Ht|]; [|by apply IH].
  cbn [end_page]. apply IH; [done|done|]. destruct Ho as [?|[_ Hs]]; [congruence|].
  destruct (seg_area_ok data ph Hs Hl) as ([Hrg _] & ? & ? & _). unfold pages in *. lia.
Qed.

Lemma elf_sp_u64 env data elf : elf_ok env data elf -> is_u64 (elf_sp elf).
Proof. intros [Hl _ _ Hh _ _]. pose proof (end_page_range data _ 0 Hl Hh ltac:(lia)). unfold elf_sp, is_u64. lia. Qed.

Lemma elf_framed elf (ms : MemorySet) : shape <$> areas ms = shape <$> elf_areas elf -> Forall (fun a => map_type a = Framed) (areas ms).
Proof.
  intros Hsh. apply Forall_forall. intros b Hb. destruct (shapes_elem _ _ b Hsh Hb) as (b' & Hb' & Es). apply (f_equal (fun s => s.1.2)) in Es. cbn in Es. rewrite Es.
  unfold elf_areas in Hb'. apply elem_of_app in Hb' as [(ph & -> & _)%list_elem_of_fmap|[->|[->|?%not_elem_of_nil]%elem_of_cons]%elem_of_cons]; done.
Qed.

Lemma elf_context elf (ms : MemorySet) : shape <$> areas ms = shape <$> elf_areas elf -> covered (areas ms) context_vpn.
Proof.
  intros Hsh. apply (shapes_covered (elf_areas elf)); [done|]. exists context_area. split; [|done]. unfold elf_areas. set_solver.
Qed.

(** The page of the trap context is not for the program. *)
Lemma area_flags G D a p : area_ok G D a -> map_type a = Framed -> in_range a p -> (forall q, D !! p = Some q -> 0 <= q < 2 ^ 44) -> pte_flags <$> G !! p = Some (Z.lor (map_perm a) PTE_V).
Proof.
  intros [[_ Hpm] Hf _ _] Ht Hin Hr. destruct (Hf p Ht Hin) as (q & _ & HD & ->). cbn. f_equal. unfold area_pte. rewrite pte_flags_new; [done|by apply Hr|by apply flags_valid_range].
Qed.

(** The permissions of a page of a program. *)
Lemma elf_flags elf (ms : MemorySet) G D ar x : ms_wf ms G D -> shape <$> areas ms = shape <$> elf_areas elf -> ar ∈ elf_areas elf -> map_type ar = Framed -> in_range ar x ->
  (forall q, D !! x = Some q -> 0 <= q < 2 ^ 44) -> pte_flags <$> G !! x = Some (Z.lor (map_perm ar) PTE_V).
Proof.
  intros Hwf Hsh Har Hf Hx Hr. assert (Hin : shape ar ∈ shape <$> areas ms) by (rewrite Hsh; apply list_elem_of_fmap; by exists ar).
  apply list_elem_of_fmap in Hin as (a & Ea & Ha). injection Ea as E1 E2 E3. rewrite E3.
  apply (area_flags G D a); [by apply (proj1 (Forall_forall _ _) (wf_areas _ _ _ Hwf))|congruence|unfold in_range; by rewrite <- E1|done].
Qed.

Lemma elf_closed elf (ms : MemorySet) G D : ms_wf ms G D -> shape <$> areas ms = shape <$> elf_areas elf -> (forall q, D !! context_vpn = Some q -> 0 <= q < 2 ^ 44) ->
  pte_flags <$> G !! context_vpn = Some (Z.lor (Z.lor MP_R MP_W) PTE_V).
Proof. intros Hwf Hsh Hr. apply (elf_flags elf ms G D context_area context_vpn Hwf Hsh); [unfold elf_areas; set_solver|done|done|done]. Qed.

Section Exec.
Context {St F : Type} `{BlockStoreSpec St} `{FrameAllocatorSpec F}.
Variables (env : Env) (lo hi N : Z) (base : list (VPNRange * MapType * Z)).
Hypothesis Hlo : 0 < lo.
Hypothesis Hlow : low base.
Hypothesis Hsmall : hi - lo <= max_pid.
Hypothesis Htramp : trampoline_ok (tramp env).
Implicit Types (k : Kernel St F) (W : gmap (option nat) aspace) (v : aspace) (l : directory) (a : named_files).
Abbreviation kinv := (kinv env lo hi N base).

(** The space of the file, as a new space. *)
Lemma elf_space k W i data elf : world lo hi (machine k) W -> W !! i = None -> elf_ok env data elf ->
  in_use W + 3 + 3 * total_pages (elf_areas elf) <= hi - lo ->
  exists ms m ppn v, from_elf (parse_elf env) (tramp env) data (machine k) = Ok ((ms, elf_sp elf, entry_point elf), m) /\
    (forall k1, machine k1 = m -> context_ppn ms k1 = Ok (ppn, k1)) /\ user_ok (tramp env) ms ppn v /\ world lo hi m (<[i := v]> W) /\
    (forall x b, elf_contents data elf x = Some b -> as_P v !! x = Some b) /\ shape <$> areas ms = shape <$> elf_areas elf /\
    in_use (<[i := v]> W) <= in_use W + 3 + 3 * total_pages (elf_areas elf).
Proof.
  intros HW Hi [Hl Hp Hmg Hh Has Hen] Hroom.
  destruct (from_elf_ok lo hi (tramp env) (machine k) (total W) data Hl (parse_elf env) elf (w_machine _ _ _ _ HW) Htramp Hp Hmg Hh Has Hroom) as (ms & m & G & D & P & E & [Hok Hsm Hsh Hpg Htr Hu]).
  destruct (wf_ms_ok _ _ _ _ _ _ _ _ Hok) as [Hwf Hsp]. set (v := mkSpace (page_table ms) G D P) in *.
  pose proof (elf_framed elf ms Hsh) as Hfr. pose proof (elf_context elf ms Hsh) as Hcov.
  assert (Hctx : exists ppn, D !! context_vpn = Some ppn /\ forall k1, machine k1 = m -> context_ppn ms k1 = Ok (ppn, k1)).
  { destruct (context_ppn_ok lo hi (set_machine k m) (total W) ms v Hwf eq_refl Hsp Hfr Hcov) as (ppn & HD & _). exists ppn. split; [done|]. intros k1 <-.
    destruct (context_ppn_ok lo hi k1 (total W) ms v Hwf eq_refl Hsp Hfr Hcov) as (ppn' & HD' & E'). rewrite E'. congruence. }
  destruct Hctx as (ppn & HD & Ectx). exists ms, m, ppn, v. split_and!; [done|done|split; try done; by apply (elf_closed elf ms G D); [..|intros q Hq; pose proof (space_frame_range _ _ _ _ _ _ _ _ _ _ Hsp Hq); lia]|by eapply world_insert|intros x b Hx; by apply (Hpg x b)|done|].
  unfold in_use. rewrite total_insert by done. exact Hu.
Qed.

(** The old space is dropped, and the new one takes its place. *)
Lemma swap_space m W t v v' i ms : world lo hi m (<[i := v']> W) -> W !! i = None -> W !! Some t = Some v ->
  ms_wf ms (as_G v) (as_D v) -> as_pt v = page_table ms ->
  exists m', drop_memory_set ms m = Ok (tt, m') /\ world lo hi m' (<[Some t := v']> W).
Proof.
  intros HW Hi Ht Hwf Hpt. assert (Hne : i <> Some t) by congruence. assert (Ht' : <[i := v']> W !! Some t = Some v) by (by rewrite lookup_insert_ne).
  pose proof (w_space _ _ _ _ HW _ _ Ht') as Hsp. pose proof (ms_ok_wf lo hi _ _ ms v Hwf Hpt Hsp) as Hms.
  unfold space_of in Hsp. rewrite Hpt in Hsp. destruct (drop_ok lo hi _ _ ms _ _ _ Hsp (ms_tracks _ _ _ _ _ _ _ _ Hms)) as (m' & E & Hm' & Hram).
  exists m'. split; [done|]. assert (HW1 : world lo hi m' (delete (Some t) (<[i := v']> W))).
  { eapply world_delete; [exact HW|exact Hm'|]. intros p _. by rewrite Hram. }
  rewrite delete_insert_ne in HW1 by done. pose proof (world_rename lo hi m' _ i (Some t) v' HW1 (lookup_insert_eq _ _ _)) as HW2.
  rewrite lookup_insert_ne, lookup_delete_eq in HW2 by done. specialize (HW2 eq_refl). rewrite delete_insert_id in HW2 by (by rewrite lookup_delete_ne).
  by rewrite insert_delete_eq in HW2.
Qed.

(** ** [exec] *)
Definition env_ok : Prop := is_u64 (user_sstatus env) /\ is_u64 (trap_handler_addr env).

Lemma kernel_token_u64 k W l a : kinv k W l a -> is_u64 (ms_token (kernel_space k)).
Proof.
  intros Hk. destruct (ki_mem _ _ _ _ _ _ _ _ _ Hk) as [HW (v & ps & Hv & Hko & _) _ _ _ _ _ _].
  pose proof (space_root _ _ _ _ _ _ _ _ (w_space _ _ _ _ HW None v Hv)) as Hr. rewrite (ko_pt _ _ _ _ Hko) in Hr.
  unfold ms_token, token. apply is_u64_lor; [done|]. unfold is_u64. lia.
Qed.

(** The first context of a program. *)
Definition start_cx (elf : ElfFile) (satp : Z) (pd : Z) : TrapContext :=
  app_init_context (user_sstatus env) (entry_point elf) (elf_sp elf) satp (get_top pd) (trap_handler_addr env).

Definition with_memory (tcb : TaskControlBlock) (ms : MemorySet) (ppn : Z) : TaskControlBlock :=
  with_inner tcb (set_trap_cx_ppn (set_memory (inner tcb) ms) ppn).

Lemma exec_inv k W l a t tcb v data elf : kinv k W l a -> env_ok -> tasks k !! t = Some tcb -> task_status (inner tcb) = Running -> W !! Some t = Some v ->
  elf_ok env data elf -> in_use W + 3 + 3 * total_pages (elf_areas elf) <= hi - lo ->
  exists ms m ppn v', let k' := set_tasks (set_machine k m) (<[t := with_memory tcb ms ppn]> (tasks k)) in
    exec env t data k = Ok (tt, k') /\ kinv k' (<[Some t := v']> W) l a /\ shape <$> areas ms = shape <$> elf_areas elf /\
    (forall x b, x <> context_vpn -> elf_contents data elf x = Some b -> as_P v' !! x = Some b) /\
    space_cx v' = Some (start_cx elf (ms_token (kernel_space k)) (kernel_stack tcb)).
Proof.
  intros Hk [Hsst Hth] Ht Hst Hv Hel Hroom. pose proof (ki_mem _ _ _ _ _ _ _ _ _ Hk) as Hm. pose proof (mi_world _ _ _ _ _ _ _ _ _ Hm) as HW.
  destruct (user_space _ _ _ _ _ _ _ _ _ Hk t tcb Ht) as (v0 & Hv0 & Hok); [congruence|]. assert (v0 = v) as -> by congruence. set (i := Some (next_ref k)).
  assert (Hn : W !! i = None). { apply eq_None_not_Some. intros Hs. apply (mi_dom _ _ _ _ _ _ _ _ _ Hm) in Hs. apply (ki_fresh _ _ _ _ _ _ _ _ _ Hk) in Hs. lia. }
  destruct (elf_space k W i data elf HW Hn Hel Hroom) as (ms & m1 & ppn & v1 & E1 & Ec & Hok1 & HW1 & Hpg & Hsh & _).
  destruct (swap_space m1 W t v v1 i (memory_set (inner tcb)) HW1 Hn Hv (uo_wf _ _ _ _ Hok) (uo_pt _ _ _ _ Hok)) as (m2 & E2 & HW2).
  set (cx := start_cx elf (ms_token (kernel_space k)) (kernel_stack tcb)).
  assert (Hcx : cx_ok cx).
  { apply cx_ok_init; [done|apply Hel|by eapply elf_sp_u64|by eapply kernel_token_u64|apply is_u64_top|done]. }
  assert (Hb : exists b, as_P v1 !! context_vpn = Some b /\ length b = page_len).
  { destruct (world_page lo hi _ _ _ _ _ _ HW2 (lookup_insert_eq _ _ _) (uo_context _ _ _ _ Hok1)) as (b & Hb & _ & Hl). eauto. }
  destruct Hb as (b & Hb & Hbl).
  destruct (write_cx_ok lo hi Hlo m2 _ (Some t) v1 context_vpn ppn b cx HW2 (lookup_insert_eq _ _ _) (uo_context _ _ _ _ Hok1) Hb Hcx) as (m3 & E3 & HW3).
  rewrite insert_insert_eq in HW3. set (v' := set_page v1 context_vpn (put_cx b cx)) in *. exists ms, m3, ppn, v'. cbv zeta. split_and!; [| |done| |].
  - unfold exec. erewrite bind_Ok; [|apply on_machine_ok; exact E1]. cbv iota beta. erewrite bind_Ok; [|by apply Ec].
    apply with_cell_to; [cbn; by eapply free|done|]. erewrite bind_Ok; [|by apply (get_inner_ok t tcb)]. erewrite bind_Ok; [|apply on_machine_ok; exact E2].
    erewrite bind_Ok; [|by apply (set_inner_ok t tcb)]. erewrite bind_Ok; [|apply (get_inner_ok t (with_inner tcb (set_memory (inner tcb) ms))); apply lookup_insert_eq].
    erewrite bind_Ok; [|apply (set_inner_ok t (with_inner tcb (set_memory (inner tcb) ms))); apply lookup_insert_eq].
    unfold kernel_token. erewrite bind_Ok; [|apply with_cell_to; [|reflexivity|]; [|reflexivity]].
    2: { cbn. rewrite (ki_borrows _ _ _ _ _ _ _ _ _ Hk). by intros [?|?%not_elem_of_nil]%elem_of_cons. }
    erewrite bind_Ok; [|apply (get_task_ok t (with_memory tcb ms ppn)); cbn; rewrite insert_insert_eq; apply lookup_insert_eq].
    erewrite on_machine_ok; [|exact E3]. do 2 f_equal. cbn. by rewrite insert_insert_eq.
  - destruct Hk as [Hb0 Hm0 Hsc Htr Hf Hfr Hff]. split; cbn; [done| | | | | |done].
    + eapply (mem_inv_replace env lo hi base); [exact Hm|done|done|]. unfold task_ok. cbn. rewrite Hst. rewrite decide_False by done.
      by destruct Hok1.
    + destruct Hsc as [Hnd Hq Hr Hre]. apply sched_inv_task; [|done|done|done]. split; [done..|]. intros u x w Hu Hr' Hw. rewrite lookup_insert_ne in Hw; [by eapply Hre|]. congruence.
    + by apply tree_inv_task.
    + apply file_inv_task; [done|done|]. intros r. apply (fi_fds _ _ _ _ _ _ _ Hf t tcb r Ht).
    + intros u. rewrite lookup_insert. case_decide; [subst; intros _; apply Hfr; eauto|apply Hfr].
  - intros x b' Hx Hc. cbn. rewrite lookup_insert_ne by done. by apply Hpg.
  - unfold space_cx. cbn. rewrite lookup_insert_eq. cbn. f_equal. by apply page_put_cx.
Qed.

(** ** [sys_exec] *)
Lemma open_read_none a name c : lookup_name name a = Some c -> open_spec name RDONLY a = Some a.
Proof. unfold open_spec. by intros ->. Qed.

Lemma open_read_ok fs name a : open_ok fs N name RDONLY a.
Proof. unfold open_ok. by destruct (lookup_name name a). Qed.

Lemma sys_exec_missing k W l a t tcb v ptr cs : kinv k W l a -> running (processor k) = Some t -> tasks k !! t = Some tcb -> W !! Some t = Some v ->
  user_str env v ptr cs -> lookup_name (chars cs) a = None ->
  exists d, sys_exec env ptr k = Ok (Value (-1), set_disk k d) /\ kinv (set_disk k d) W l a.
Proof.
  intros Hk Hr Ht Hv Hs Hl. pose proof (open_file_ok env lo hi N base k W l a (chars cs) RDONLY Hk (open_read_ok _ _ _)) as Ho. unfold open_spec in Ho. rewrite Hl in Ho.
  destruct Ho as (d & E & Hk'). exists d. split; [|done]. unfold sys_exec. erewrite bind_Ok; [|apply (current_user_token_ok t tcb); [by eapply free|by eapply free|done|done]].
  erewrite bind_Ok; [|by eapply user_str_ok]. by erewrite bind_Ok; [|exact E].
Qed.

Lemma sys_exec_ok k W l a t tcb v ptr cs data elf : kinv k W l a -> env_ok -> running (processor k) = Some t -> tasks k !! t = Some tcb -> W !! Some t = Some v ->
  user_str env v ptr cs -> lookup_name (chars cs) a = Some data -> elf_ok env data elf -> in_use W + 3 + 3 * total_pages (elf_areas elf) <= hi - lo ->
  zlen data <= 512 * (Z.of_nat (loops env) - 1) ->
  exists d m fl ms ppn v' l', let k' := set_tasks (set_machine (set_next_ref (set_files (set_disk k d) fl) (S (next_ref k))) m) (<[t := with_memory tcb ms ppn]> (tasks k)) in
    sys_exec env ptr k = Ok (Value 0, k') /\ kinv k' (<[Some t := v']> W) l' a /\ shape <$> areas ms = shape <$> elf_areas elf /\
    (forall x b, x <> context_vpn -> elf_contents data elf x = Some b -> as_P v' !! x = Some b) /\
    space_cx v' = Some (start_cx elf (ms_token (kernel_space k)) (kernel_stack tcb)).
Proof.
  intros Hk Henv Hr Ht Hv Hs Hl Hel Hroom Hfu. pose proof (zlen_nonneg data). pose proof (open_file_ok env lo hi N base k W l a (chars cs) RDONLY Hk (open_read_ok _ _ _)) as Ho.
  rewrite (open_read_none a _ data Hl) in Ho. destruct Ho as (i & l' & d1 & [Hi _] & E1 & Hk1). set (f := os_inode_new _ _ _) in *. set (k1 := opened (set_disk k d1) f) in *.
  assert (Hop : open_on k1 l' a (next_ref k) f (chars cs) data) by (split_and!; [apply lookup_insert_eq|done|by exists i]).
  destruct (read_all_ok env lo hi N base (loops env) k1 W l' a (next_ref k) f (chars cs) data Hk1 Hop) as (d2 & E2 & Hk2); [cbn; lia|cbn; lia|]. cbn [os_offset f os_inode_new] in E2.
  change (drop (Z.to_nat 0) data) with data in E2. set (k2 := set_files (set_disk k1 d2) (<[next_ref k := set_offset f (zlen data)]> (files k1))) in *.
  destruct (running_task _ _ _ _ _ _ _ _ _ Hk t Hr) as (tcb' & v' & Ht' & Hst & _). assert (tcb' = tcb) as -> by congruence.
  destruct (exec_inv k2 W l' a t tcb v data elf Hk2 Henv Ht Hst Hv Hel Hroom) as (ms & m & ppn & v2 & E3 & Hk3 & Hsh & Hpg & Hcx).
  exists d2, m, (files k2), ms, ppn, v2, l'. cbv zeta. split_and!; [|exact Hk3|done|done|done].
  unfold sys_exec. erewrite bind_Ok; [|apply (current_user_token_ok t tcb); [by eapply free|by eapply free|done|done]].
  erewrite bind_Ok; [|by eapply user_str_ok]. erewrite bind_Ok; [|exact E1]. cbv iota beta. erewrite bind_Ok; [|exact E2].
  erewrite bind_Ok; [|apply (current_task_ok t); [by eapply (free _ _ _ _ _ k2)|done]]. by erewrite bind_Ok; [|exact E3].
Qed.

End Exec.
