(* ===== verification/KSafe.v ===== *)
(** * Every well-formed trap is handled

    A trap of a program that passes valid arguments is handled without a panic,
    a deadlock or a double borrow, and the invariant holds afterwards; so do the
    words of the trap contexts through which the next trap enters the kernel. *)

From S2P Require Import Prelude BlockDev BlockStore Layout DiskCodec Tree BuildTree TreeOps ClearTree InodeOps FileData Efs Vfs FsInv FsAlloc FsUpdate FsOps FsDir FsCreate FsSpec FsRefine Address Frames PageTable PtInv PtOps Space MemorySet AreaOps MsOps MsLife MsBuild UserMem World Proc Kernel OsInode Task Syscall Pids CxMem KLogic KInv KSched KProc KFork KTree KExit KWait KTable KFile KBuf KIo KExec.

Create HintDb kernel.

(** The spaces of the tasks other than [t] are unchanged; there may be new ones. *)
Definition others (W : gmap (option nat) aspace) (t : nat) (W' : gmap (option nat) aspace) : Prop :=
  forall u v, u <> t -> W' !! Some u = Some v -> W !! Some u = Some v \/ W !! Some u = None.

Lemma others_refl W t : others W t W.
Proof. intros u v _. by left. Qed.

Lemma others_insert W t v : others W t (<[Some t := v]> W).
Proof. intros u w Hu. rewrite lookup_insert_ne by congruence. by left. Qed.

Lemma others_after W t v W' : others (<[Some t := v]> W) t W' -> others W t W'.
Proof. intros Ho u w Hu Hw. specialize (Ho u w Hu Hw). by rewrite lookup_insert_ne in Ho by congruence. Qed.

Lemma others_before W t v W' : others W t W' -> others W t (<[Some t := v]> W').
Proof. intros Ho u w Hu. rewrite lookup_insert_ne by congruence. by apply Ho. Qed.

#[export] Hint Resolve others_refl others_insert others_before : kernel.
#[export] Hint Extern 1 (_ = _) => reflexivity : kernel.

(** ** The way into the kernel *)

(** The words of a trap context that [__alltraps] loads before it jumps (trap.S):
    the kernel's address space, the stack and the handler. *)
Definition entry_words (cx : TrapContext) : Z * Z * Z := (kernel_satp cx, kernel_sp cx, trap_handler_ptr cx).
Definition space_entry (v : aspace) : option (Z * Z * Z) := entry_words <$> space_cx v.

Lemma space_entry_page v x b : x <> context_vpn -> space_entry (set_page v x b) = space_entry v.
Proof. intros Hx. unfold space_entry, space_cx. cbn. by rewrite lookup_insert_ne. Qed.

Lemma space_entry_cx v f cx : space_cx v = Some cx -> space_cx (set_cx v f) = Some (f cx) -> entry_words (f cx) = entry_words cx -> space_entry (set_cx v f) = space_entry v.
Proof. intros H1 H2 E. unfold space_entry. rewrite H1, H2. cbn. by f_equal. Qed.

(** Two pages with the same bytes. *)
Lemma user_byte_page (P P' : gmap Z (list byte)) x b b' : P !! x = Some b -> P' !! x = Some b' -> length b = page_len -> length b' = page_len ->
  (forall y, y / 4096 = x -> user_byte P' y = user_byte P y) -> b' = b.
Proof.
  intros Hb Hb' Hl Hl' Hy. apply list_eq. intros i. destruct (decide (i < page_len)%nat) as [Hi|Hi]; [|rewrite !lookup_ge_None_2 by lia; done].
  specialize (Hy (4096 * x + Z.of_nat i)). unfold page_len in *. assert (E : (4096 * x + Z.of_nat i) / 4096 = x /\ (4096 * x + Z.of_nat i) mod 4096 = Z.of_nat i) by dlia.
  destruct E as [E1 E2]. specialize (Hy E1). unfold user_byte in Hy. rewrite E1, E2, Hb, Hb', Nat2Z.id in Hy. exact Hy.
Qed.

(** The tasks that remain when others are adopted. *)
Lemma adopted_back cs : forall ts init u y, adopted ts init cs !! u = Some y -> exists x, ts !! u = Some x /\ kernel_stack y = kernel_stack x /\ task_status (inner y) = task_status (inner x).
Proof.
  induction cs as [|c cs IH]; intros ts init u y; cbn [adopted foldl]; [eauto|]. intros (x & Hx & E1 & E2)%IH. rewrite E1, E2. unfold give in Hx.
  destruct (ts !! c) as [ctcb|] eqn:Hc; [|eauto]. destruct (ts !! init) as [itcb|] eqn:Hi; [|eauto]. rewrite !lookup_insert in Hx.
  repeat case_decide; subst; simplify_eq; eauto.
Qed.

Section Safe.
Context {St F : Type} `{BlockStoreSpec St} `{FrameAllocatorSpec F}.
Variables (env : Env) (lo hi N : Z) (base : list (VPNRange * MapType * Z)).
Implicit Types (k : Kernel St F) (W : gmap (option nat) aspace) (v : aspace) (l : directory) (a : named_files).
Abbreviation kinv := (kinv env lo hi N base).

(** What the kernel needs of the machine and of its environment. *)
Record setup_ok : Prop := {
  so_lo : 0 < lo;
  so_low : low base;
  so_small : hi - lo <= max_pid;
  so_tramp : trampoline_ok (tramp env);
  so_env : env_ok env;
  so_loops : loops env <> 0%nat;
}.
Hypothesis Hset : setup_ok.

(** ** Sealed trap contexts *)

(** Where a trap of the task has to enter the kernel, and that it does. *)
Definition entry k tcb : Z * Z * Z := (ms_token (kernel_space k), get_top (kernel_stack tcb), trap_handler_addr env).

Definition seals k W : Prop := forall t tcb v, tasks k !! t = Some tcb -> task_status (inner tcb) <> Zombie -> W !! Some t = Some v -> space_entry v = Some (entry k tcb).

Definition keeps k W k' W' : Prop := seals k W -> seals k' W'.

Lemma keeps_tasks k W k' W' : ms_token (kernel_space k') = ms_token (kernel_space k) ->
  (forall u y w, tasks k' !! u = Some y -> task_status (inner y) <> Zombie -> W' !! Some u = Some w ->
     exists x v, tasks k !! u = Some x /\ task_status (inner x) <> Zombie /\ kernel_stack y = kernel_stack x /\ W !! Some u = Some v /\ space_entry w = space_entry v) ->
  keeps k W k' W'.
Proof.
  intros Et Hb Hs u y w Hy Hz Hw. destruct (Hb u y w Hy Hz Hw) as (x & v & Hx & Hzx & Ek & Hv & ->). rewrite (Hs u x v Hx Hzx Hv). unfold entry. by rewrite Et, Ek.
Qed.

Lemma keeps_same k W k' : ms_token (kernel_space k') = ms_token (kernel_space k) -> tasks k' = tasks k -> keeps k W k' W.
Proof. intros Et Ets. apply keeps_tasks; [done|]. rewrite Ets. intros u y w Hy Hz Hw. by exists y, w. Qed.

Lemma keeps_trans k W k1 W1 k' W' : keeps k W k1 W1 -> keeps k1 W1 k' W' -> keeps k W k' W'.
Proof. unfold keeps. auto. Qed.

(** One task changes, but for its kernel stack. *)
Lemma keeps_inner k W k' t tcb i : tasks k !! t = Some tcb -> task_status (inner tcb) <> Zombie -> ms_token (kernel_space k') = ms_token (kernel_space k) ->
  tasks k' = <[t := with_inner tcb i]> (tasks k) -> keeps k W k' W.
Proof.
  intros Ht Hz Et Ets. apply keeps_tasks; [done|]. rewrite Ets. intros u y w. rewrite lookup_insert. case_decide as Hu; [|intros Hy Hyz Hw; by exists y, w].
  subst u. intros [= <-] _ Hw. by exists tcb, w.
Qed.

(** One space changes, but for the words. *)
Lemma keeps_space k W k' t v w : W !! Some t = Some v -> ms_token (kernel_space k') = ms_token (kernel_space k) -> tasks k' = tasks k ->
  space_entry w = space_entry v -> keeps k W k' (<[Some t := w]> W).
Proof.
  intros Hv Et Ets E. apply keeps_tasks; [done|]. rewrite Ets. intros u y z Hy Hz. rewrite lookup_insert. case_decide as Hu; [|intros Hw; by exists y, z].
  injection Hu as ->. intros [= <-]. by exists y, v.
Qed.

#[local] Hint Resolve keeps_same : kernel.

(** ** Valid arguments *)
Definition buffer_ok v (buf len : Z) : Prop :=
  0 <= buf /\ 0 <= len /\ buf + len < 2 ^ 38 /\ mapped v buf len /\ len / 4096 + 2 <= Z.of_nat (loops env).

Definition read_ok k tcb v (fd buf len : Z) : Prop :=
  match fd_of tcb fd with
  | Some Stdin => buffer_ok v buf len /\ len = 1
  | Some (OSFile r) => forall f, files k !! r = Some f -> os_readable f = true -> buffer_ok v buf len /\ os_offset f < 2 ^ 62
  | Some Stdout | None => True
  end.

Definition write_ok k l a tcb v (fd buf len : Z) : Prop :=
  match fd_of tcb fd with
  | Some Stdout => buffer_ok v buf len
  | Some (OSFile r) => forall f name c, open_on k l a r f name c -> os_writable f = true -> buffer_ok v buf len /\
      exists data, zlen data = len /\ user_data (as_P v) buf data /\ os_offset f + len <= MAX_SIZE /\
        fs_weight (after_write name c (os_offset f) data a) <= N - data_area_start_block (root_fs k)
  | Some Stdin | None => True
  end.

(** What is written to the console is ASCII. *)
Definition prints_ascii tcb v (fd buf len : Z) : Prop :=
  fd_of tcb fd = Some Stdout -> exists data, zlen data = len /\ user_data (as_P v) buf data /\ Forall (fun b => byte.unsigned b < 128) data.

Definition open_args_ok k a tcb v (path flags : Z) : Prop :=
  flags_from_bits flags = Some flags /\ zlen (fd_table (inner tcb)) < 2 ^ 63 /\
  exists cs, user_str env v path cs /\ open_ok (root_fs k) N (chars cs) flags a.

Definition exec_args_ok W a v (path : Z) : Prop :=
  exists cs, user_str env v path cs /\
    forall data, lookup_name (chars cs) a = Some data -> zlen data <= 512 * (Z.of_nat (loops env) - 1) /\
      exists elf, elf_ok env data elf /\ in_use W + 3 + 3 * total_pages (elf_areas elf) <= hi - lo.

Definition wait_args_ok k tcb v (wpid ptr : Z) : Prop :=
  first_zombie (tasks k) wpid (children (inner tcb)) 0 <> None -> 0 <= ptr < 2 ^ 38 /\ ptr mod 4 = 0 /\ is_Some (as_D v !! (ptr / 4096)).

Definition call_ok k W l a tcb v (id x y z : Z) : Prop :=
  if id =? SYSCALL_OPEN then open_args_ok k a tcb v x (w32 y)
  else if id =? SYSCALL_READ then read_ok k tcb v x y z
  else if id =? SYSCALL_WRITE then write_ok k l a tcb v x y z
  else if id =? SYSCALL_FORK then in_use W + 9 + 3 * total_pages (areas (memory_set (inner tcb))) <= hi - lo
  else if id =? SYSCALL_EXEC then exec_args_ok W a v x
  else if id =? SYSCALL_WAITPID then wait_args_ok k tcb v (as_isize x) y
  else id ∈ [SYSCALL_CLOSE; SYSCALL_EXIT; SYSCALL_YIELD; SYSCALL_GET_TIME; SYSCALL_GETPID].

(** ** Outcomes *)

(** The process table changes as its specification allows. *)
Definition table_moves k k' : Prop := exists es, tsteps (table_of k) es (table_of k').

Lemma moves_same k k' : table_of k' = table_of k -> table_moves k k'.
Proof. intros E. exists []. rewrite E. constructor. Qed.

#[local] Hint Resolve moves_same : kernel.

Lemma moves_step k e k' : tstep (table_of k) e (table_of k') -> table_moves k k'.
Proof. intros Hs. exists [e]. auto with proc. Qed.

Lemma moves_trans k k1 k' : table_moves k k1 -> table_moves k1 k' -> table_moves k k'.
Proof. intros [es Hs] [es' Hs']. exists (es ++ es'). by eapply tsteps_app. Qed.

(** Nothing is taken from the queue; [arr] has been added. *)
Definition settled k W (t : nat) (running_after : option nat) k' : Prop :=
  exists W' l a arr, kinv k' W' l a /\ running (processor k') = running_after /\ ready_queue k' = ready_queue k ++ arr /\ others W t W' /\ table_moves k k' /\ keeps k W k' W'.

Definition lands k W (t : nat) (f : flow) k' : Prop :=
  match f with
  | Value _ => settled k W t (Some t) k'
  | Switched => settled k W t None k'
  | PowerOff _ => ready_queue k' = ready_queue k
  end.

Definition safe_call k W (t : nat) (c : cmd (Kernel St F) flow) : Prop := exists f k', c k = Ok (f, k') /\ lands k W t f k'.

Section Calls.
Variables (k : Kernel St F) (W : gmap (option nat) aspace) (l : directory) (a : named_files) (t : nat) (tcb : TaskControlBlock) (v : aspace).
Hypothesis Hk : kinv k W l a.
Hypothesis Hr : running (processor k) = Some t.
Hypothesis Ht : tasks k !! t = Some tcb.
Hypothesis Hv : W !! Some t = Some v.

Lemma lands_value r k' W' l' a' : kinv k' W' l' a' -> running (processor k') = Some t -> ready_queue k' = ready_queue k -> others W t W' -> table_moves k k' -> keeps k W k' W' -> lands k W t (Value r) k'.
Proof. intros Hk' Hr' Hq Ho Hm Hse. exists W', l', a', []. by rewrite app_nil_r. Qed.

Lemma safe_value c r k' W' l' a' : c k = Ok (Value r, k') -> kinv k' W' l' a' -> running (processor k') = Some t -> ready_queue k' = ready_queue k -> others W t W' -> table_moves k k' -> keeps k W k' W' -> safe_call k W t c.
Proof. intros E Hk' Hr' Hq Ho Hm Hse. exists (Value r), k'. split; [done|]. by eapply lands_value. Qed.

Lemma current_user : user_ok (tramp env) (memory_set (inner tcb)) (trap_cx_ppn (inner tcb)) v.
Proof. by eapply current_ok. Qed.

Lemma current_alive : task_status (inner tcb) <> Zombie.
Proof. destruct (running_task _ _ _ _ _ _ _ _ _ Hk t Hr) as (x & _ & Hx & Hs & _). assert (x = tcb) as -> by congruence. by rewrite Hs. Qed.

Lemma current_keeps k' i : ms_token (kernel_space k') = ms_token (kernel_space k) -> tasks k' = <[t := with_inner tcb i]> (tasks k) -> keeps k W k' W.
Proof. apply keeps_inner; [done|apply current_alive]. Qed.
#[local] Hint Extern 2 (keeps _ _ _ _) => eapply current_keeps; reflexivity : kernel.

Lemma close_safe fd : 0 <= fd -> safe_call k W t (sys_close fd).
Proof.
  intros Hfd. pose proof (sys_close_ok env lo hi N base k W l a t tcb v Hk Hr Ht Hv fd Hfd) as Hc. cbv zeta in Hc. destruct (fd_of tcb fd).
  - destruct Hc as [E Hk']. eapply safe_value; [exact E|exact Hk'|done|done|auto with kernel|apply moves_same; by eapply (table_task env lo hi N base k)|auto with kernel].
  - eapply safe_value; [exact Hc|exact Hk|done|done|auto with kernel..].
Qed.

(** A call that panics is a write of something else than ASCII. *)
Definition may_call (plain : Prop) (c : cmd (Kernel St F) flow) : Prop := safe_call k W t c \/ (c k = Fail Panic /\ ~ plain).

Lemma write_may fd buf len : 0 <= fd -> write_ok k l a tcb v fd buf len -> may_call (prints_ascii tcb v fd buf len) (sys_write env fd buf len).
Proof.
  intros Hfd Hw. destruct (so_lo Hset). unfold write_ok in Hw. destruct (fd_of tcb fd) as [[| |r]|] eqn:Ef.
  - left. eapply safe_value; [eapply (sys_write_denied env lo hi N base k W l a t tcb); eauto; intros ? E; rewrite Ef in E; by injection E as <-|(done || auto with kernel)..].
  - destruct Hw as (B1 & B2 & B3 & B4 & B5). destruct (sys_write_console env lo hi N base k W l a t tcb v Hk Hr Ht Hv fd buf len Hfd Ef B1 B2 B3 B4 B5) as [E|[out E]]; [right|left].
    + split; [done|]. intros Hpl. destruct (Hpl Ef) as (data & D1 & D2 & D3). rewrite (sys_write_stdout env lo hi N base k W l a t tcb v) with (data := data) in E by done. done.
    + eapply safe_value; [exact E|by apply kinv_console|(done || auto with kernel)..].
  - left. destruct (fd_file env lo hi N base k W l a t tcb Hk Ht fd r Ef) as (f & Hf & _).
    destruct (file_open_on N k l a r f (ki_file _ _ _ _ _ _ _ _ _ Hk) Hf) as (name & c & Hop). destruct (os_writable f) eqn:Ew.
    + destruct (Hw f name c Hop Ew) as ((B1 & B2 & B3 & B4 & B5) & data & D1 & D2 & D3 & D4).
      destruct (sys_write_file env lo hi N base k W l a t tcb v Hk Hr Ht Hv fd buf len r f name c data) as (d & E & Hk'); try done. eapply safe_value; [exact E|exact Hk'|done|done|auto with kernel..].
    + eapply safe_value; [eapply (sys_write_denied env lo hi N base k W l a t tcb); eauto; intros ? E; rewrite Ef in E; injection E as <-; cbn; by rewrite Hf|(done || auto with kernel)..].
  - left. eapply safe_value; [eapply (sys_write_denied env lo hi N base k W l a t tcb); eauto; intros ? E; by rewrite Ef in E|(done || auto with kernel)..].
Qed.

(** A buffer of one byte is one slice. *)
Lemma one_slice D p ss : segs D p ss -> slices_len ss = 1 -> exists s, ss = [s] /\ slice_len s = 1.
Proof.
  destruct ss as [|s ss]; [done|]. cbn [segs]. intros (_ & _ & Hp & _ & Hs) Hl. pose proof (slices_len_nonneg _ _ _ Hs) as Hn.
  change (slices_len (s :: ss)) with (slice_len s + slices_len ss) in Hl. destruct ss as [|s' ss]; [exists s; split; [done|cbn in Hl; lia]|].
  cbn [segs] in Hs. destruct Hs as (_ & _ & Hp' & _ & Hs). pose proof (slices_len_nonneg _ _ _ Hs). change (slices_len (s' :: ss)) with (slice_len s' + slices_len ss) in *. lia.
Qed.

Lemma stdin_safe s : place_ok v s -> slice_len s = 1 -> safe_call k W t (stdin_loop env [s]).
Proof.
  intros Hp Hl. pose proof (stdin_loop_ok env lo hi N base k W l a t tcb v Hk Hr Ht Hv s Hp Hl) as Hs. cbv zeta in Hs. destruct (w64 _ =? 0).
  - destruct Hs as [E Hk']. exists Switched, (suspended_state (set_reads k (S (reads k))) t tcb (InStdin [s])). split; [done|]. exists W, l, a, [t]. split_and!; [done|done|done|auto with kernel| |auto with kernel].
    eapply moves_step, (table_suspend env lo hi N base (set_reads k (S (reads k)))); [by apply kinv_reads|done|done].
  - destruct Hs as (x & b & m & _ & Hx & _ & E & Hk'). eapply safe_value; [exact E|exact Hk'|done|done|auto with kernel..|]. eapply keeps_space; [done..|by apply space_entry_page].
Qed.

(** A read of one byte from the console is the loop on the byte's place. *)
Lemma sys_read_stdin fd buf : 0 <= fd -> fd_of tcb fd = Some Stdin -> buffer_ok v buf 1 ->
  exists s, place_ok v s /\ slice_len s = 1 /\ as_D v !! (buf / 4096) = Some (sl_page s) /\ sl_from s = buf mod 4096 /\ sys_read env fd buf 1 k = stdin_loop env [s] k.
Proof.
  intros Hfd Ef (B1 & B2 & B3 & B4 & B5). destruct (buffers_ok env lo hi N base k W l a t tcb v Hk Hr Ht Hv buf 1 B1 B2 B3 B4 B5) as (ss & E & Hseg & Hsl).
  destruct (one_slice _ _ _ Hseg Hsl) as (s & -> & Hs1). destruct Hseg as (S1 & S2 & S3 & S4 & _). destruct (B4 buf ltac:(lia)) as [p Hp].
  assert (Hpg : as_D v !! (buf / 4096) = Some (sl_page s)) by (rewrite S1; unfold user_frame; by rewrite Hp). exists s. split_and!; [|done|done|done|].
  { split_and!; [exists (buf / 4096); split; [unfold context_vpn; dlia|done]|rewrite S2; apply Z.mod_pos_bound; lia|unfold slice_len in *; lia|done]. }
  unfold sys_read. erewrite bind_Ok; [|apply (current_user_token_ok t tcb); eauto using free]. erewrite bind_Ok; [|apply (current_task_ok t); eauto using free].
  erewrite bind_Ok; [|eapply (get_fd_ok env lo hi N base k W l a t tcb); eauto; intros file; by eapply readable_ok]. rewrite Ef. cbn [mbind option_bind readable].
  erewrite bind_Ok; [|exact E]. cbn [file_read]. unfold stdin_read. cbn [buffer_len]. by rewrite Hs1.
Qed.

(** A buffer in the lower half is not in the trap context. *)
Lemma read_entry k' W' l' a' P buf n (c : list byte) off : kinv k' W' l' a' -> W' !! Some t = Some (mkSpace (as_pt v) (as_G v) (as_D v) P) -> buf + n < 2 ^ 38 ->
  (forall y, user_byte P y = if decide (buf <= y < buf + n) then c !! Z.to_nat (off + (y - buf)) else user_byte (as_P v) y) ->
  space_entry (mkSpace (as_pt v) (as_G v) (as_D v) P) = space_entry v.
Proof.
  intros Hk' Hv' Hb HP. pose proof (uo_context _ _ _ _ current_user) as Hc. pose proof (mi_world _ _ _ _ _ _ _ _ _ (ki_mem _ _ _ _ _ _ _ _ _ Hk)) as HW.
  pose proof (mi_world _ _ _ _ _ _ _ _ _ (ki_mem _ _ _ _ _ _ _ _ _ Hk')) as HW'. destruct (world_page lo hi _ _ _ _ _ _ HW Hv Hc) as (b & Hb1 & _ & Hl).
  destruct (world_page lo hi _ _ _ _ _ _ HW' Hv' Hc) as (b' & Hb' & _ & Hl'). unfold space_entry, space_cx. cbn [as_P] in *. rewrite Hb1, Hb'. do 3 f_equal.
  apply (user_byte_page (as_P v) P context_vpn); [done..|]. intros y Hy. rewrite HP, decide_False; [done|]. unfold context_vpn in Hy. dlia.
Qed.

Lemma read_safe fd buf len : 0 <= fd -> read_ok k tcb v fd buf len -> safe_call k W t (sys_read env fd buf len).
Proof.
  intros Hfd Hw. destruct (so_lo Hset). unfold read_ok in Hw. destruct (fd_of tcb fd) as [[| |r]|] eqn:Ef.
  - destruct Hw as (Hbuf & ->). destruct (sys_read_stdin fd buf Hfd Ef Hbuf) as (s & Hp & Hs1 & _ & _ & E). destruct (stdin_safe s Hp Hs1) as (f & k' & Es & Hland).
    exists f, k'. split; [by rewrite E|done].
  - eapply safe_value; [eapply (sys_read_denied env lo hi N base k W l a t tcb); eauto; intros ? E; rewrite Ef in E; by injection E as <-|(done || auto with kernel)..].
  - destruct (fd_file env lo hi N base k W l a t tcb Hk Ht fd r Ef) as (f & Hf & _).
    destruct (file_open_on N k l a r f (ki_file _ _ _ _ _ _ _ _ _ Hk) Hf) as (name & c & Hop). destruct (os_readable f) eqn:Ew.
    + destruct (Hw f Hf Ew) as ((B1 & B2 & B3 & B4 & B5) & Hoff).
      destruct (sys_read_file env lo hi N base k W l a t tcb v Hk Hr Ht Hv fd buf len r f name c) as (d & m & P & E & Hk' & HP); try done. eapply safe_value; [exact E|exact Hk'|done|done|auto with kernel..|].
      eapply keeps_space; [done..|]. eapply read_entry; [exact Hk'|apply lookup_insert_eq| |exact HP]. lia.
    + eapply safe_value; [eapply (sys_read_denied env lo hi N base k W l a t tcb); eauto; intros ? E; rewrite Ef in E; injection E as <-; cbn; by rewrite Hf|(done || auto with kernel)..].
  - eapply safe_value; [eapply (sys_read_denied env lo hi N base k W l a t tcb); eauto; intros ? E; by rewrite Ef in E|(done || auto with kernel)..].
Qed.

Lemma open_safe path flags : open_args_ok k a tcb v path flags -> safe_call k W t (sys_open env path flags).
Proof.
  intros (Hfl & Hlen & cs & Hs & Ho). pose proof (sys_open_ok env lo hi N base (so_lo Hset) k W l a t tcb v path cs flags Hk Hr Ht Hv Hs Hfl Ho Hlen) as Hop. cbv zeta in Hop.
  destruct (open_spec (chars cs) flags a) as [a'|].
  - destruct Hop as (i & l' & d & _ & E & Hk'). eapply safe_value; [exact E|exact Hk'|done|done|auto with kernel|apply moves_same; by eapply (table_task env lo hi N base k)|auto with kernel].
  - destruct Hop as (d & E & Hk'). eapply safe_value; [exact E|exact Hk'|done|done|auto with kernel..].
Qed.

Lemma fork_safe : in_use W + 9 + 3 * total_pages (areas (memory_set (inner tcb))) <= hi - lo -> safe_call k W t (sys_fork env).
Proof.
  intros Hroom. destruct Hset as [? ? ? ? ? ?].
  destruct (sys_fork_inv env lo hi N base) with (k := k) (W := W) (l := l) (a := a) (t := t) (tcb := tcb) (v := v) as (pd & ppn & ms & k' & vc & W' & cx & E & Hk' & Hpd & Hts & Hq & Hp & _ & Hoth & Hvc & Hcx & Hcxc & _ & _ & Htok); try done.
  assert (Hnew : tasks k !! next_ref k = None) by (apply eq_None_not_Some; intros Hs%(ki_fresh _ _ _ _ _ _ _ _ _ Hk); lia).
  exists (Value pd), k'. split; [done|]. exists W', l, a, [next_ref k]. rewrite Hp. split_and!; [done|done|done| | |].
  - intros u w _ Hw. destruct (decide (u = next_ref k)) as [->|Hne]; [right|left; by rewrite <- Hoth]. apply eq_None_not_Some. intros Hs.
    apply (mi_dom _ _ _ _ _ _ _ _ _ (ki_mem _ _ _ _ _ _ _ _ _ Hk)) in Hs. rewrite Hnew in Hs. by destruct Hs.
  - eapply moves_step, (table_fork env lo hi N base k W l a t tcb Hk Hr Ht k' W' (next_ref k) (new_child t pd ppn ms (inner tcb))); done.
  - intros Hse u y w Hy Hz Hw. pose proof (ki_fresh _ _ _ _ _ _ _ _ _ Hk t ltac:(eauto)) as Hlt. unfold entry. rewrite Htok. rewrite Hts, lookup_insert in Hy. case_decide as Hu; [|rewrite lookup_insert in Hy; case_decide as Huc].
    + subst u. injection Hy as <-. rewrite Hoth in Hw by lia. apply (Hse t tcb w Ht); [by eapply current_alive|done].
    + subst u. injection Hy as <-. rewrite Hvc in Hw. injection Hw as <-. pose proof (Hse t tcb v Ht current_alive Hv) as Ev. unfold space_entry in *. rewrite Hcx in Ev. rewrite Hcxc. cbn in *. unfold entry_words in *. cbn.
      injection Ev as -> _ ->. done.
    + rewrite Hoth in Hw by done. by apply (Hse u y w).
Qed.

Lemma exec_safe path : exec_args_ok W a v path -> safe_call k W t (sys_exec env path).
Proof.
  intros (cs & Hs & Hd). destruct Hset as [? ? ? ? ? ?]. destruct (lookup_name (chars cs) a) as [data|] eqn:El.
  - destruct (Hd data eq_refl) as (Hfu & elf & Hel & Hroom).
    destruct (sys_exec_ok env lo hi N base) with (k := k) (W := W) (l := l) (a := a) (t := t) (tcb := tcb) (v := v) (ptr := path) (cs := cs) (data := data) (elf := elf)
      as (d & m & fl & ms & ppn & v' & l' & E & Hk' & _ & _ & Hcx); try done. eapply safe_value; [exact E|exact Hk'|done|done|auto with kernel|apply moves_same; by eapply (table_task env lo hi N base k)|].
    intros Hse u y w Hy Hz Hw. cbn [tasks set_tasks] in Hy. rewrite lookup_insert in Hy. rewrite lookup_insert in Hw. destruct (decide (t = u)) as [<-|Hu].
    + rewrite decide_True in Hw by done. injection Hw as <-. injection Hy as <-. unfold space_entry. by rewrite Hcx.
    + rewrite decide_False in Hw by congruence. by apply (Hse u y w).
  - destruct (sys_exec_missing env lo hi N base) with (k := k) (W := W) (l := l) (a := a) (t := t) (tcb := tcb) (v := v) (ptr := path) (cs := cs) as (d & E & Hk'); try done. eapply safe_value; [exact E|exact Hk'|done|done|auto with kernel..].
Qed.

Lemma wait_safe wpid ptr : wait_args_ok k tcb v wpid ptr -> safe_call k W t (sys_waitpid env wpid ptr).
Proof.
  intros Hw. destruct Hset as [? ? ? ? ? ?]. destruct (existsb (child_matches (tasks k) wpid) (children (inner tcb))) eqn:He.
  - destruct (first_zombie (tasks k) wpid (children (inner tcb)) 0) as [[idx c]|] eqn:Ez.
    + destruct Hw as (Hp & Hal & Hd); [by rewrite Ez|]. pose proof (user_data_page _ _ _ _ _ current_user Hd) as Hdp.
      destruct (wait_found env lo hi N base) with (k := k) (W := W) (l := l) (a := a) (t := t) (tcb := tcb) (v := v) (wpid := wpid) (ptr := ptr) (idx := idx) (c := c)
        as (ctcb & l1 & l2 & b & k' & W' & Hch & Hcc & Hcz & _ & _ & E & Hk' & Hts & Hq & Hp' & _ & Hvt & Hc & Hoth & Htok); try done; [lia|].
      eapply safe_value; [done|done|by rewrite Hp'|done| | |].
      * intros u w Hu Hw. left. rewrite <- Hoth; [done|done|congruence].
      * by eapply moves_step, (table_wait_found env lo hi N base k W l a t tcb).
      * apply keeps_tasks; [done|]. intros u y w Hy Hz Hw. rewrite Hts in Hy. apply lookup_delete_Some in Hy as [Huc Hy]. rewrite lookup_insert in Hy. case_decide as Hu.
        -- subst u. injection Hy as <-. rewrite Hvt in Hw. injection Hw as <-. exists tcb, v. split_and!; [done|by eapply current_alive|done|done|]. apply space_entry_page. unfold context_vpn. dlia.
        -- exists y, w. rewrite <- Hoth by congruence. done.
    + eapply safe_value; [by eapply wait_running|done|done|done|auto with kernel| |auto with kernel]. by eapply moves_step, (table_wait_running env lo hi N base k W l a t tcb).
  - eapply safe_value; [by eapply wait_no_child|done|done|done|auto with kernel| |auto with kernel]. by eapply moves_step, (table_wait_none env lo hi N base k W l a t tcb).
Qed.

Lemma exit_safe code : safe_call k W t (sys_exit env code).
Proof.
  destruct (decide (pid tcb = IDLE_PID)) as [Hp|Hp].
  - eexists _, _. split; [unfold sys_exit; erewrite bind_Ok; [|by eapply exit_idle]; done|done].
  - destruct (exit_inv env lo hi N base) with (k := k) (W := W) (l := l) (a := a) (t := t) (tcb := tcb) (v := v) (code := code) as (m & E & Hk'); try done; [by destruct Hset..|].
    eexists _, _. split; [unfold sys_exit; erewrite bind_Ok; [|exact E]; done|]. eexists _, l, a, []. split_and!; [exact Hk'|done|by rewrite app_nil_r|auto with kernel| |].
    + by eapply moves_step, (table_exit env lo hi N base k W l a t tcb).
    + apply keeps_tasks; [done|]. intros u y w Hy Hz Hw. cbn [tasks exited_state] in Hy. rewrite lookup_insert in Hy. case_decide as Hu; [injection Hy as <-; by destruct Hz|].
      apply adopted_back in Hy as (x & Hx & E1 & E2). exists x, w. rewrite lookup_insert_ne in Hw by congruence. rewrite <- E2. done.
Qed.

Lemma suspend_safe s : resumable v (suspended s) -> safe_call k W t (suspend_current_and_run_next s).
Proof.
  intros Hs. destruct (suspend_inv env lo hi N base k W l a t s v Hk Hr Hv Hs) as (tcb' & Ht' & E & Hk'). eexists _, _. split; [exact E|].
  assert (tcb' = tcb) as -> by congruence. exists W, l, a, [t]. split_and!; [done|done|done|auto with kernel| |auto with kernel]. by eapply moves_step, (table_suspend env lo hi N base k W l a).
Qed.

Lemma pid_range : 0 <= pid tcb < max_pid.
Proof.
  destruct (ki_mem _ _ _ _ _ _ _ _ _ Hk) as [_ (vk & ps & _ & Hko & Hps) _ _ _ _ _ _]. apply (proj1 (Forall_forall _ _) (ko_pids _ _ _ _ Hko)). apply Hps, elem_of_live. eauto.
Qed.

Lemma getpid_safe : safe_call k W t sys_getpid.
Proof.
  pose proof pid_range as Hp. unfold max_pid in Hp. eapply safe_value; [eapply sys_getpid_ok; eauto; lia|(done || auto with kernel)..].
Qed.

Lemma get_time_safe : safe_call k W t (sys_get_time env).
Proof. eapply safe_value; [reflexivity|by apply (kinv_reads env lo hi N base k W l a)|(done || auto with kernel)..]. Qed.

(** ** Any call *)
Lemma syscall_may id x y z : 0 <= x -> call_ok k W l a tcb v id x y z -> may_call (id = SYSCALL_WRITE -> prints_ascii tcb v x y z) (syscall env id x y z).
Proof.
  intros Hx Hc. unfold call_ok in Hc. unfold syscall. destruct (id =? SYSCALL_OPEN); [left; by apply open_safe|].
  destruct (Z.eqb_spec id SYSCALL_CLOSE) as [->|H3]; [left; by apply close_safe|].
  destruct (id =? SYSCALL_READ); [left; by apply read_safe|]. destruct (Z.eqb_spec id SYSCALL_WRITE) as [->|H8]; [destruct (write_may x y z Hx Hc) as [?|[? ?]]; [by left|right; tauto]|]. left.
  destruct (Z.eqb_spec id SYSCALL_EXIT) as [->|H4]; [by apply exit_safe|].
  destruct (Z.eqb_spec id SYSCALL_YIELD) as [->|H5]; [by apply suspend_safe|].
  destruct (Z.eqb_spec id SYSCALL_GET_TIME) as [->|H6]; [by apply get_time_safe|].
  destruct (Z.eqb_spec id SYSCALL_GETPID) as [->|H7]; [by apply getpid_safe|].
  destruct (id =? SYSCALL_FORK); [by apply fork_safe|]. destruct (id =? SYSCALL_EXEC); [by apply exec_safe|]. destruct (id =? SYSCALL_WAITPID); [by apply wait_safe|].
  set_solver.
Qed.

End Calls.

(** ** Traps *)

(** Where the handler leaves the processor: back in the task [t], through its
    own address space, in the loop of [run_tasks], or off. *)
Definition steps_to k W (t : nat) (c : control) k' : Prop :=
  match c with
  | Restore va ptr satp => exists W' l a arr v, kinv k' W' l a /\ running (processor k') = Some t /\ ready_queue k' = ready_queue k ++ arr /\
      others W t W' /\ table_moves k k' /\ keeps k W k' W' /\ W' !! Some t = Some v /\
      Restore va ptr satp = restore_to env v /\ stvec k' = FromUser
  | Idle => settled k W t None k'
  | Off _ => ready_queue k' = ready_queue k
  end.

Lemma steps_from k k0 W W0 t c k' : ready_queue k0 = ready_queue k -> (forall u, u <> t -> W0 !! Some u = W !! Some u) -> table_of k0 = table_of k -> keeps k W k0 W0 ->
  steps_to k0 W0 t c k' -> steps_to k W t c k'.
Proof.
  intros Hq HW HT Hse. assert (Hs0 : forall k1 W1, keeps k0 W0 k1 W1 -> keeps k W k1 W1) by (intros; by eapply keeps_trans). assert (Ho : forall W', others W0 t W' -> others W t W') by (intros W' Ho u v Hu; rewrite <- HW by done; by apply Ho).
  unfold steps_to, settled, table_moves. rewrite Hq, HT. destruct c as [va ptr satp| |ok]; [| |done].
  - intros (W' & l & a & arr & v & ? & ? & ? & ? & ? & ? & ?). exists W', l, a, arr, v. naive_solver.
  - intros (W' & l & a & arr & ? & ? & ? & ? & ? & ?). exists W', l, a, arr. naive_solver.
Qed.

Lemma restore_safe k W0 t k' : settled k W0 t (Some t) k' -> exists c k2, trap_return env k' = Ok (c, k2) /\ steps_to k W0 t c k2.
Proof.
  intros (W & l & a & arr & Hk & Hr & Hq & Ho & Hm & Hse). destruct (running_task _ _ _ _ _ _ _ _ _ Hk t Hr) as (tcb & v & _ & _ & Hv & _).
  destruct (trap_return_inv env lo hi N base k' W l a t v Hk Hr Hv) as [E Hk2]. exists (restore_to env v), (set_stvec k' FromUser). split; [done|]. exists W, l, a, arr, v. by split_and!.
Qed.

Lemma finish_safe k W0 t f k' : lands k W0 t f k' -> exists c k2, finish env f k' = Ok (c, k2) /\ steps_to k W0 t c k2.
Proof.
  destruct f as [r| |ok]; cbn [finish lands]; [|by exists Idle, k'|by exists (Off ok), k'].
  intros (W & l & a & arr & Hk & Hr & Hq & Ho & Hm & Hse). destruct (running_task _ _ _ _ _ _ _ _ _ Hk t Hr) as (tcb & v & _ & _ & Hv & _).
  destruct (syscall_return_inv env lo hi N base (so_lo Hset) k' W l a t v r Hk Hr Hv) as (m & E & Hk2 & cx & Hcx & Hcx'). eexists _, _. split; [exact E|].
  eexists _, l, a, arr, _. split_and!; [exact Hk2|done|done|auto with kernel|exact Hm| |apply lookup_insert_eq|done|done].
  eapply keeps_trans; [exact Hse|]. eapply keeps_space; [done..|]. by eapply space_entry_cx.
Qed.

Lemma leave_safe k W0 t f k' : lands k W0 t f k' -> exists c k2, leave env f k' = Ok (c, k2) /\ steps_to k W0 t c k2.
Proof. destruct f as [r| |ok]; cbn [leave lands]; [apply restore_safe|by exists Idle, k'|by exists (Off ok), k']. Qed.

(** What the program must respect: a call has valid arguments, as the handler
    sees them, and the other traps are those the handler knows. *)
Definition next_cx (cx : TrapContext) : TrapContext := set_sepc cx (w64 (sepc cx + 4)).

Definition trap_ok k W l a (t : nat) (scause : Trap) : Prop :=
  match scause with
  | UserEnvCall => forall tcb v cx, tasks k !! t = Some tcb -> W !! Some t = Some v -> space_cx v = Some cx ->
      let v' := set_cx v next_cx in let r i := default 0 (xs cx !! i) in
      call_ok k (<[Some t := v']> W) l a tcb v' (r 17%nat) (r 10%nat) (r 11%nat) (r 12%nat)
  | OtherTrap => False
  | _ => True
  end.

(** The text of a program that writes to the console is ASCII. *)
Definition plain k W (t : nat) (scause : Trap) : Prop :=
  match scause with
  | UserEnvCall => forall tcb v cx, tasks k !! t = Some tcb -> W !! Some t = Some v -> space_cx v = Some cx ->
      let r i := default 0 (xs cx !! i) in r 17%nat = SYSCALL_WRITE -> prints_ascii tcb (set_cx v next_cx) (r 10%nat) (r 11%nat) (r 12%nat)
  | _ => True
  end.

Lemma cx_ok_reg cx i : cx_ok cx -> 0 <= default 0 (xs cx !! i).
Proof.
  intros [_ Hw]. destruct (xs cx !! i) as [x|] eqn:E; [|done]. cbn. apply (proj1 (Forall_forall _ _) Hw). unfold words_of_cx. apply elem_of_app. left. by eapply list_elem_of_lookup_2.
Qed.

Lemma cx_ok_next cx : cx_ok cx -> cx_ok (next_cx cx).
Proof. intros Hcx. apply cx_ok_set_sepc; [done|apply is_u64_w64]. Qed.

(** A system call is entered with the saved program counter past the instruction. *)
Lemma env_call_enters k W l a t stval : kinv k W l a -> running (processor k) = Some t ->
  exists tcb v cx m, let v1 := set_cx v next_cx in let k1 := set_machine (set_stvec k FromKernel) m in let r i := default 0 (xs cx !! i) in
    tasks k !! t = Some tcb /\ W !! Some t = Some v /\ space_cx v = Some cx /\ cx_ok cx /\ space_cx v1 = Some (next_cx cx) /\ kinv k1 (<[Some t := v1]> W) l a /\ keeps k W k1 (<[Some t := v1]> W) /\
    trap_handler env UserEnvCall stval k = (let* f := syscall env (r 17%nat) (r 10%nat) (r 11%nat) (r 12%nat) in finish env f) k1.
Proof.
  intros Hk Hr. pose proof (kinv_stvec env lo hi N base k W l a FromKernel Hk) as Hk0. set (k0 := set_stvec k FromKernel) in *.
  destruct (running_task _ _ _ _ _ _ _ _ _ Hk t Hr) as (tcb & v & Ht & _ & Hv & Huo).
  destruct (task_cx_modify env lo hi N base (so_lo Hset) k0 W l a t tcb v next_cx Hk0 Ht Hv Huo cx_ok_next) as (m & cx & E1 & Hk1 & Hcx & Hcxo & Hcx1).
  set (v1 := set_cx v next_cx) in *. set (k1 := set_machine k0 m) in *.
  assert (Hv1 : <[Some t := v1]> W !! Some t = Some v1) by apply lookup_insert_eq.
  assert (Huo1 : user_ok (tramp env) (memory_set (inner tcb)) (trap_cx_ppn (inner tcb)) v1) by (by eapply (current_ok env lo hi N base k1)).
  destruct (task_cx_read env lo hi N base (so_lo Hset) k1 _ l a t tcb v1 Hk1 Ht Hv1 Huo1) as (cx1 & E2 & Hcx2 & _). assert (cx1 = next_cx cx) as -> by congruence.
  exists tcb, v, cx, m. cbv zeta. split_and!; try done; [eapply keeps_space; [done..|by eapply space_entry_cx]|].
  unfold trap_handler, set_kernel_trap_entry. rewrite update_bind. erewrite bind_Ok; [|apply (current_trap_cx_ok t tcb); [by eapply (free _ _ _ _ _ k0)|by eapply (free _ _ _ _ _ k0)|done|done]].
  erewrite bind_Ok; [|exact E1]. erewrite bind_Ok; [|exact E2]. done.
Qed.

(** The handler comes to an end, or the call is a write of something else than ASCII. *)
Definition handled k W (t : nat) (scause : Trap) (r : result (control * Kernel St F)) : Prop :=
  (exists c k', r = Ok (c, k') /\ steps_to k W t c k') \/ (r = Fail Panic /\ ~ plain k W t scause).

Lemma env_call_safe k W l a t stval : kinv k W l a -> running (processor k) = Some t -> trap_ok k W l a t UserEnvCall ->
  handled k W t UserEnvCall (trap_handler env UserEnvCall stval k).
Proof.
  intros Hk Hr Hok. destruct (env_call_enters k W l a t stval Hk Hr) as (tcb & v & cx & m & Ht & Hv & Hcx & Hcxo & _ & Hk1 & Hse & ->). specialize (Hok tcb v cx Ht Hv Hcx). cbv zeta in Hok.
  set (v1 := set_cx v next_cx) in *. set (k1 := set_machine _ m) in *. assert (Hv1 : <[Some t := v1]> W !! Some t = Some v1) by apply lookup_insert_eq.
  destruct (syscall_may k1 _ l a t tcb v1 Hk1 Hr Ht Hv1 _ _ _ _ (cx_ok_reg cx 10 Hcxo) Hok) as [(f & k2 & E3 & Hl)|[E3 Hpl]]; [left|right].
  2: { split; [unfold bind; by rewrite E3|]. intros Hp. by apply Hpl, (Hp tcb v cx). }
  destruct (finish_safe k1 _ t f k2 Hl) as (c & k3 & E4 & Hs). exists c, k3. split; [by rewrite (bind_Ok _ _ _ _ _ E3)|].
  apply (steps_from k k1 W (<[Some t := v1]> W) t c k3 eq_refl); [|done|exact Hse|exact Hs]. intros u Hu. rewrite lookup_insert_ne; congruence.
Qed.

(** The exit code of a program that is killed. *)
Definition fault_code (scause : Trap) : Z := match scause with IllegalInstruction => -3 | _ => -2 end.

Definition faults : list Trap := [StoreFault; StorePageFault; InstructionFault; InstructionPageFault; LoadFault; LoadPageFault; IllegalInstruction].

(** A fault is an exit on behalf of the program, after a message. *)
Lemma fault_exits k W l a t scause stval : kinv k W l a -> running (processor k) = Some t -> scause ∈ faults ->
  exists o, trap_handler env scause stval k =
    (let* f := exit_current_and_run_next env (fault_code scause) in leave env f) (set_console (set_stvec k FromKernel) (console k ++ [o])).
Proof.
  intros Hk Hr Hin. pose proof (kinv_stvec env lo hi N base k W l a FromKernel Hk) as Hk0. set (k0 := set_stvec k FromKernel) in *.
  destruct (running_task _ _ _ _ _ _ _ _ _ Hk t Hr) as (tcb & v & Ht & _ & Hv & Huo).
  destruct (task_cx_read env lo hi N base (so_lo Hset) k0 _ l a t tcb v Hk0 Ht Hv Huo) as (cx & E & _ & _).
  assert (Hf : (let* cx := current_trap_cx in let* c := on_machine (read_cx cx) in print (Killed scause stval (sepc c));;
     let* f := exit_current_and_run_next env (-2) in leave env f) k0 =
     (let* f := exit_current_and_run_next env (-2) in leave env f) (set_console k0 (console k ++ [Killed scause stval (sepc cx)]))).
  { erewrite bind_Ok; [|apply (current_trap_cx_ok t tcb); [by eapply (free _ _ _ _ _ k0)|by eapply (free _ _ _ _ _ k0)|done|done]]. erewrite bind_Ok; [|exact E]. unfold print. by rewrite update_bind. }
  unfold trap_handler, set_kernel_trap_entry. rewrite update_bind. fold k0.
  destruct scause; try (eexists; exact Hf); try (exfalso; unfold faults in Hin; set_solver). exists IllegalInstructionKilled. unfold print. by rewrite update_bind.
Qed.

Lemma fault_safe k W l a t scause stval : kinv k W l a -> running (processor k) = Some t -> scause ∈ faults ->
  exists c k', trap_handler env scause stval k = Ok (c, k') /\ steps_to k W t c k'.
Proof.
  intros Hk Hr Hin. destruct (fault_exits k W l a t scause stval Hk Hr Hin) as (o & ->). set (k1 := set_console _ _).
  assert (Hk1 : kinv k1 W l a) by (by apply kinv_console, kinv_stvec). destruct (running_task _ _ _ _ _ _ _ _ _ Hk t Hr) as (tcb & v & Ht & _ & Hv & Huo).
  destruct (exit_safe k1 W l a t tcb v Hk1 Hr Ht Hv (fault_code scause)) as (f & k2 & E & Hl). unfold sys_exit in E.
  apply bind_inv in E as (f' & k2' & Ee & E). assert (f' = f /\ k2' = k2) as [-> ->] by (destruct f'; [done|injection E as <- <-; done|injection E as <- <-; done]).
  destruct (leave_safe k1 W t f k2 Hl) as (c & k3 & E4 & Hs). exists c, k3. split; [by rewrite (bind_Ok _ _ _ _ _ Ee)|apply (steps_from k k1 W W); [done..|by apply keeps_same|done]].
Qed.

Lemma trap_safe k W l a t scause stval : kinv k W l a -> running (processor k) = Some t -> trap_ok k W l a t scause ->
  handled k W t scause (trap_handler env scause stval k).
Proof.
  intros Hk Hr Hok. destruct scause; try (by eapply env_call_safe); left; try (eapply fault_safe; [exact Hk|done|unfold faults; set_solver]).
  (* the timer *)
  set (k1 := set_timer (set_reads (set_stvec k FromKernel) (S (reads k))) (w64 (w64 (read_time env (reads k)) + CLOCK_FREQ / TICKS_PER_SEC))).
  assert (Hk1 : kinv k1 W l a) by (apply kinv_timer, kinv_reads, kinv_stvec; exact Hk).
  destruct (running_task _ _ _ _ _ _ _ _ _ Hk t Hr) as (tcb & v & Ht & _ & Hv & Huo).
  destruct (suspend_safe k1 W l a t tcb v Hk1 Hr Ht Hv InTimer I) as (f & k2 & E & Hl). destruct (leave_safe k1 W t f k2 Hl) as (c & k3 & E4 & Hs).
  exists c, k3. split; [|apply (steps_from k k1 W W); [done..|by apply keeps_same|done]]. change (trap_handler env SupervisorTimer stval k) with ((let* f := suspend_current_and_run_next InTimer in leave env f) k1).
  by rewrite (bind_Ok _ _ _ _ _ E).
Qed.

(** ** The loop *)

(** A task never waits for ever in an empty machine: [initproc] is always ready or running. *)
Lemma queue_nonempty k W l a : kinv k W l a -> running (processor k) = None -> exists t q, ready_queue k = t :: q.
Proof.
  intros Hk Hr. destruct (ki_tree _ _ _ _ _ _ _ _ _ Hk) as [(ti & Hti & _ & Hz & _) _ _ _ _ _]. destruct (ki_sched _ _ _ _ _ _ _ _ _ Hk) as [_ Hq Hru _].
  destruct (ready_queue k) as [|t q] eqn:E; [|eauto]. exfalso. destruct (task_status (inner ti)) eqn:Es; [|..|done].
  - assert (initproc k ∈ []) as ?%not_elem_of_nil; [|done]. apply Hq. eauto.
  - assert (running (processor k) = Some (initproc k)); [|congruence]. apply Hru. eauto.
Qed.

Lemma run_tasks_safe k W l a : kinv k W l a -> running (processor k) = None ->
  exists t q tcb c k', ready_queue k = t :: q /\ run_tasks env k = Ok (c, k') /\ steps_to (scheduled_state k t q tcb) W t c k' /\ table_moves k (scheduled_state k t q tcb) /\
    keeps k W (scheduled_state k t q tcb) W.
Proof.
  intros Hk Hr. destruct (queue_nonempty k W l a Hk Hr) as (t & q & Hq). destruct (run_round_inv env lo hi N base k W l a t q Hk Hr Hq) as (tcb & v & Ht & Hv & Hre & E & Hk1).
  set (k1 := scheduled_state k t q tcb) in *. set (tcb1 := with_inner tcb (set_status (inner tcb) Running)).
  assert (Ht1 : tasks k1 !! t = Some tcb1) by apply lookup_insert_eq. exists t, q, tcb.
  assert (Hres : exists c k', resume env (task_cx (inner tcb)) k1 = Ok (c, k') /\ steps_to k1 W t c k').
  { assert (Hset1 : settled k1 W t (Some t) k1) by (exists W, l, a, []; rewrite app_nil_r; split_and!; [done|done|done|auto with kernel|by apply moves_same|by apply keeps_same]).
    destruct (task_cx (inner tcb)) as [|x|[| |buf]|]; cbn [resume]; try done; [by apply restore_safe|by apply (finish_safe k1 W t (Value 0))|by apply restore_safe|].
    destruct Hre as (s & -> & Hp & Hs1). destruct (stdin_safe k1 W l a t tcb1 v Hk1 eq_refl Ht1 Hv s Hp Hs1) as (f & k2 & E2 & Hl).
    destruct (finish_safe k1 W t f k2 Hl) as (c & k3 & E3 & Hst). exists c, k3. split; [|done]. by rewrite (bind_Ok _ _ _ _ _ E2). }
  destruct Hres as (c & k' & E2 & Hs). exists c, k'. split_and!; [done| |exact Hs|by eapply moves_step, (table_run env lo hi N base k W l a)|].
  2: { eapply (keeps_inner k); [done| |done|done]. destruct (sc_queue _ _ _ _ (ki_sched _ _ _ _ _ _ _ _ _ Hk) t) as [Hin _]. destruct Hin as (x & Hx & Hs0); [rewrite Hq; by left|]. assert (x = tcb) as -> by congruence. by rewrite Hs0. }
  unfold run_tasks. erewrite bind_Ok; [|exact E]. cbv iota beta. erewrite bind_Ok; [|by apply (get_inner_ok t tcb1)]. exact E2.
Qed.

End Safe.
