(* ===== verification/KRun.v ===== *)
(** * The system as a transition system

    Between traps the running program changes its own pages and registers.  A
    trap goes where the words of the trap context send it: to the handler, as
    long as they are those the kernel wrote, else nowhere known.  The loop of
    [run_tasks] dispatches the next task.  Each step is labelled with the task it
    dispatches.

    A system call that returns is well formed in these runs ([behaves]), and any
    call may panic.  Nothing is said of a call that returns although its
    arguments are not valid, such as a read into the page of the trap context. *)

From S2P Require Import Prelude BlockDev BlockStore Layout DiskCodec Tree BuildTree TreeOps ClearTree InodeOps FileData Efs Vfs FsInv FsAlloc FsUpdate FsOps FsDir FsCreate FsSpec FsRefine Address Frames PageTable PtInv PtOps PtRefine Space MemorySet AreaOps MsOps MsLife MsBuild UserMem World Proc Kernel OsInode Task Syscall Pids CxMem KLogic KInv KSched KProc KFork KTree KExit KWait KTable KFile KBuf KIo KExec KSafe.

(** [Lost]: a trap did not enter the handler. *)
Inductive phase := InUser | InLoop | Halted (ok : bool) | Lost.

Definition phase_of (c : control) : phase :=
  match c with Restore _ _ _ => InUser | Idle => InLoop | Off ok => Halted ok end.

(** A page the program may write: valid, user, writable. *)
Definition user_page (pte : PageTableEntry) : Prop := is_valid pte = true /\ PageTable.writable pte = true /\ Z.land (pte_flags pte) PTE_U <> 0.

(** Only the trap context changes. *)
Lemma set_cx_same v f : as_pt (set_cx v f) = as_pt v /\ as_G (set_cx v f) = as_G v /\ forall x, x <> context_vpn -> as_P (set_cx v f) !! x = as_P v !! x.
Proof. unfold set_cx. destruct (as_P v !! context_vpn); [|done]. split_and!; [done..|]. intros x Hx. cbn. by rewrite lookup_insert_ne. Qed.

Lemma set_cx_owns v f : owns (set_cx v f) = owns v.
Proof. unfold set_cx. by destruct (as_P v !! context_vpn). Qed.

(** The trap context after [__alltraps]: registers, whatever they are, and the
    words of the kernel as they were. *)
Definition saved_words (cx old : TrapContext) : TrapContext := mkTrapContext (xs cx) (sstatus cx) (sepc cx) (kernel_satp old) (kernel_sp old) (trap_handler_ptr old).

Lemma saved_words_ok cx old : cx_ok cx -> cx_ok old -> cx_ok (saved_words cx old).
Proof.
  intros [Hlc Hc] [Hl Ho]. split; [done|]. unfold words_of_cx in *. cbn. apply Forall_app in Ho as [_ Ho], Hc as [Hc1 Hc2].
  apply Forall_app. split; [done|]. repeat (apply Forall_cons in Ho as [? Ho]; apply Forall_cons in Hc2 as [? Hc2]). repeat (apply Forall_cons_2; [done|]). constructor.
Qed.

Section Run.
Context {St F : Type} `{BlockStoreSpec St} `{FrameAllocatorSpec F}.
Variables (env : Env) (lo hi N : Z) (base : list (VPNRange * MapType * Z)).
Implicit Types (k : Kernel St F) (W : gmap (option nat) aspace) (v : aspace) (l : directory) (a : named_files).
Abbreviation kinv := (kinv env lo hi N base).
Hypothesis Hset : setup_ok env lo hi base.

(** The program stores into one of its pages. *)
Definition user_store k k' : Prop := exists t tcb vpn pte b m, running (processor k) = Some t /\ tasks k !! t = Some tcb /\ 0 <= vpn < 2 ^ 27 /\
  translate (page_table (memory_set (inner tcb))) vpn (machine k) = Ok (Some pte, machine k) /\ user_page pte /\ length b = page_len /\
  write_page (pte_ppn pte) b (machine k) = Ok (tt, m) /\ k' = set_machine k m.

(** The trap entry saves the registers: it keeps the words of the kernel. *)
Definition registers_saved k k' : Prop := exists t tcb cx m,
  running (processor k) = Some t /\ tasks k !! t = Some tcb /\ cx_ok cx /\
  modify_cx (trap_cx_ppn (inner tcb)) (saved_words cx) (machine k) = Ok (tt, m) /\ k' = set_machine k m.

(** The program behaves: its trap is valid for whatever the state represents. *)
Definition behaves k (scause : Trap) : Prop := forall W l a t, kinv k W l a -> running (processor k) = Some t -> trap_ok env lo hi N k W l a t scause.

(** Where [__alltraps] goes: the words it loads from the trap context of the
    running task, for [satp], the stack pointer and the program counter.  The page
    is the one the task maps at [TRAP_CONTEXT] ([uo_context] of the invariant). *)
Definition trap_entry k : option (Z * Z * Z) :=
  t ← running (processor k); tcb ← tasks k !! t;
  match read_cx (trap_cx_ppn (inner tcb)) (machine k) with Ok (cx, _) => Some (entry_words cx) | Fail _ => None end.

(** It goes to the handler, in the kernel's address space and on the stack of the task. *)
Definition enters_handler k : Prop := exists t tcb, running (processor k) = Some t /\ tasks k !! t = Some tcb /\ trap_entry k = Some (entry env k tcb).

(** What the program prints is ASCII. *)
Definition plain_text k (scause : Trap) : Prop := forall W l a t, kinv k W l a -> running (processor k) = Some t -> plain k W t scause.

Inductive step : phase * Kernel St F -> list nat -> phase * Kernel St F -> Prop :=
  | step_store k k' : user_store k k' -> step (InUser, k) [] (InUser, k')
  | step_save k k' : registers_saved k k' -> step (InUser, k) [] (InUser, k')
  | step_trap k scause stval c k' : enters_handler k -> behaves k scause -> trap_handler env scause stval k = Ok (c, k') -> step (InUser, k) [] (phase_of c, k')
  | step_panic k scause stval : enters_handler k -> trap_handler env scause stval k = Fail Panic -> step (InUser, k) [] (Halted false, k)
  | step_lost k : ~ enters_handler k -> step (InUser, k) [] (Lost, k)
  | step_loop k t q c k' : ready_queue k = t :: q -> run_tasks env k = Ok (c, k') -> step (InLoop, k) [t] (phase_of c, k').

Inductive runs_to : phase * Kernel St F -> list nat -> phase * Kernel St F -> Prop :=
  | run_refl s : runs_to s [] s
  | run_step s s' s'' ds ds' : runs_to s ds s' -> step s' ds' s'' -> runs_to s (ds ++ ds') s''.

(** ** The invariant *)
Definition at_phase (p : phase) k W l a : Prop :=
  match p with
  | InUser => kinv k W l a /\ seals env k W /\ exists t, running (processor k) = Some t
  | InLoop => kinv k W l a /\ seals env k W /\ running (processor k) = None
  | Halted _ => True
  | Lost => False
  end.

(** The task on whose behalf the step runs. *)
Definition actor (p : phase) k : option nat := match p with InUser => running (processor k) | InLoop => head (ready_queue k) | Halted _ | Lost => None end.

(** What a program sees at a page: the entry and the contents of the frame. *)
Definition user_view k (u : nat) (vpn : Z) : option (PageTableEntry * list byte) :=
  match tasks k !! u with
  | Some tcb =>
      match translate (page_table (memory_set (inner tcb))) vpn (machine k) with
      | Ok (r, _) => pte ← valid_entry r; (pte,.) <$> ram (machine k) !! pte_ppn pte
      | Fail _ => None
      end
  | None => None
  end.

(** A mapped page other than the trampoline is a data page. *)
Lemma mapped_page k W l a t tcb v vpn pte : kinv k W l a -> tasks k !! t = Some tcb -> W !! Some t = Some v ->
  user_ok (tramp env) (memory_set (inner tcb)) (trap_cx_ppn (inner tcb)) v -> as_G v !! vpn = Some pte -> vpn <> trampoline_vpn -> as_D v !! vpn = Some (pte_ppn pte).
Proof.
  intros Hk Ht Hv Hok HG Hne. pose proof (mi_world _ _ _ _ _ _ _ _ _ (ki_mem _ _ _ _ _ _ _ _ _ Hk)) as HW. pose proof (w_space _ _ _ _ HW _ _ Hv) as Hsp.
  pose proof Hok as [_ Hwf Hfr Htr _]. destruct (wf_entries _ _ _ Hwf vpn) as [->|(ar & Har & Hin)]; [eauto|done|].
  pose proof (proj1 (Forall_forall _ _) (wf_areas _ _ _ Hwf) ar Har) as Hao. pose proof (proj1 (Forall_forall _ _) Hfr ar Har) as Hft.
  destruct (area_data_page _ _ ar vpn Hao Hft Hin) as (p & fl & HD & HG' & Hfl). rewrite HG in HG'. injection HG' as ->.
  pose proof (space_frame_range _ _ _ _ _ _ _ _ _ _ Hsp HD) as Hp. rewrite pte_ppn_new; [done|lia|done].
Qed.

Lemma user_view_space k W l a t tcb v vpn : kinv k W l a -> tasks k !! t = Some tcb -> W !! Some t = Some v ->
  user_ok (tramp env) (memory_set (inner tcb)) (trap_cx_ppn (inner tcb)) v -> 0 <= vpn < 2 ^ 27 -> vpn <> trampoline_vpn ->
  user_view k t vpn = pte ← as_G v !! vpn; (pte,.) <$> as_P v !! vpn.
Proof.
  intros Hk Ht Hv Hok Hvpn Hne. pose proof (mi_world _ _ _ _ _ _ _ _ _ (ki_mem _ _ _ _ _ _ _ _ _ Hk)) as HW. pose proof (w_space _ _ _ _ HW _ _ Hv) as Hsp.
  destruct (translate_valid lo hi _ _ _ _ _ _ vpn Hsp Hvpn) as (r & E & Hr). unfold user_view. rewrite Ht, <- (uo_pt _ _ _ _ Hok), E, Hr.
  destruct (as_G v !! vpn) as [pte|] eqn:HG; [|done]. cbn. pose proof (mapped_page k W l a t tcb v vpn pte Hk Ht Hv Hok HG Hne) as HD.
  by rewrite <- (sp_pages _ _ _ _ _ _ _ _ Hsp), HD.
Qed.

(** A page the program may write is a data page of its space. *)
Lemma user_store_page k W l a t tcb v vpn pte : kinv k W l a -> tasks k !! t = Some tcb -> W !! Some t = Some v ->
  user_ok (tramp env) (memory_set (inner tcb)) (trap_cx_ppn (inner tcb)) v -> 0 <= vpn < 2 ^ 27 ->
  translate (page_table (memory_set (inner tcb))) vpn (machine k) = Ok (Some pte, machine k) -> user_page pte -> as_D v !! vpn = Some (pte_ppn pte) /\ vpn <> context_vpn.
Proof.
  intros Hk Ht Hv Hok Hvpn E (Hval & Hw & Hu). pose proof (mi_world _ _ _ _ _ _ _ _ _ (ki_mem _ _ _ _ _ _ _ _ _ Hk)) as HW. pose proof (w_space _ _ _ _ HW _ _ Hv) as Hsp.
  destruct (translate_valid lo hi _ _ _ _ _ _ vpn Hsp Hvpn) as (r & E' & Hr). rewrite (uo_pt _ _ _ _ Hok), E in E'. injection E' as <-. cbn in Hr. rewrite Hval in Hr.
  split; [|intros ->; apply Hu; pose proof (uo_closed _ _ _ _ Hok) as Hc; rewrite <- Hr in Hc; cbn in Hc; injection Hc as ->; done].
  destruct (decide (vpn = trampoline_vpn)) as [->|Hne]; [|by eapply mapped_page].
  exfalso. rewrite (uo_tramp _ _ _ _ Hok) in Hr. injection Hr as ->. destruct (so_tramp _ _ _ _ Hset) as [Hs _].
  unfold PageTable.writable, trampoline_pte in Hw. rewrite pte_flags_new in Hw; [done|dlia|done].
Qed.

Lemma store_inv k W l a k' : kinv k W l a -> user_store k k' -> exists W' t, running (processor k) = Some t /\ kinv k' W' l a /\ others W t W' /\
  running (processor k') = Some t /\ ready_queue k' = ready_queue k /\ table_of k' = table_of k /\ keeps env k W k' W'.
Proof.
  intros Hk (t & tcb & vpn & pte & b & m & Hr & Ht & Hvpn & E & Hup & Hb & Ew & ->). pose proof (mi_world _ _ _ _ _ _ _ _ _ (ki_mem _ _ _ _ _ _ _ _ _ Hk)) as HW.
  destruct (running_task _ _ _ _ _ _ _ _ _ Hk t Hr) as (tcb' & v & Ht' & _ & Hv & Hok). assert (tcb' = tcb) as -> by congruence.
  pose proof (user_store_page k W l a t tcb v vpn pte Hk Ht Hv Hok Hvpn E Hup) as [HD Hne].
  destruct (world_write lo hi _ W (Some t) v vpn _ b HW Hv HD Hb) as (m' & Ew' & HW'). assert (m' = m) as -> by congruence.
  exists (<[Some t := set_page v vpn b]> W), t. split_and!; [done|by eapply page_inv|auto with kernel|done|done|done|].
  eapply keeps_space; [done..|by apply space_entry_page].
Qed.

Lemma save_inv k W l a k' : kinv k W l a -> registers_saved k k' -> exists W' t, running (processor k) = Some t /\ kinv k' W' l a /\ others W t W' /\
  running (processor k') = Some t /\ ready_queue k' = ready_queue k /\ table_of k' = table_of k /\ keeps env k W k' W'.
Proof.
  intros Hk (t & tcb & cx & m & Hr & Ht & Hcx & E & ->). destruct (running_task _ _ _ _ _ _ _ _ _ Hk t Hr) as (tcb' & v & Ht' & _ & Hv & Hok). assert (tcb' = tcb) as -> by congruence.
  destruct (task_cx_modify env lo hi N base (so_lo _ _ _ _ Hset) k W l a t tcb v (saved_words cx) Hk Ht Hv Hok) as (m' & cx0 & E' & Hk' & Hcx0 & _ & Hcx1); [intros old Ho; by apply saved_words_ok|].
  rewrite (on_machine_ok _ _ _ _ E) in E'. injection E' as Em. exists (<[Some t := set_cx v (saved_words cx)]> W), t. split_and!; [done| |auto with kernel|done|done|done|eapply keeps_space; [done..|by eapply space_entry_cx]].
  replace (set_machine k m) with (set_machine k m'); [done|]. congruence.
Qed.

(** ** The way into the kernel is open *)
Lemma trap_entry_cx k W l a t tcb v : kinv k W l a -> running (processor k) = Some t -> tasks k !! t = Some tcb -> W !! Some t = Some v -> trap_entry k = space_entry v.
Proof.
  intros Hk Hr Ht Hv. pose proof (current_ok env lo hi N base k W l a t tcb v Hk Hr Ht Hv) as Hok.
  destruct (task_cx_read env lo hi N base (so_lo _ _ _ _ Hset) k W l a t tcb v Hk Ht Hv Hok) as (cx & E & Hcx & _).
  unfold trap_entry, space_entry. rewrite Hr. cbn. rewrite Ht, Hcx. cbn. unfold on_machine in E. destruct (read_cx _ (machine k)) as [[cx' m]|e]; [by injection E as -> _|done].
Qed.

Lemma sealed_enters k W l a t : kinv k W l a -> seals env k W -> running (processor k) = Some t -> enters_handler k.
Proof.
  intros Hk Hse Hr. destruct (running_task _ _ _ _ _ _ _ _ _ Hk t Hr) as (tcb & v & Ht & Hs & Hv & _). exists t, tcb. split_and!; [done|done|].
  rewrite (trap_entry_cx k W l a t tcb v Hk Hr Ht Hv). apply (Hse t tcb v Ht); [congruence|done].
Qed.

(** The first trap context is sealed. *)
Lemma boot_seals k W l a t tcb v elf : kinv k W l a -> tasks k = {[t := tcb]} -> pid tcb = IDLE_PID -> W !! Some t = Some v ->
  space_cx v = Some (start_cx env elf (ms_token (kernel_space k)) IDLE_PID) -> seals env k W.
Proof.
  intros Hk Hts Hp Hv Hcx u x w Hx _ Hw. rewrite Hts in Hx. apply lookup_singleton_Some in Hx as [<- <-]. assert (w = v) as -> by congruence.
  unfold space_entry, entry. rewrite Hcx, (mi_stack _ _ _ _ _ _ _ _ _ (ki_mem _ _ _ _ _ _ _ _ _ Hk) t tcb) by (rewrite Hts; apply lookup_singleton_eq). by rewrite Hp.
Qed.

(** ** What a state determines of its representation *)
Lemma frames_unique f A A' : fa_inv (F := F) f lo hi A -> fa_inv f lo hi A' -> A ⊆ A'.
Proof.
  intros Hi Hi' p Hp. destruct (decide (p ∈ A')) as [|Hn]; [done|]. exfalso. destruct (fa_range _ _ _ _ Hi) as (_ & _ & Hr). destruct (fa_dealloc_ok _ _ _ _ _ Hi Hp) as (f' & E & _).
  rewrite (fa_dealloc_bad _ _ _ _ p Hi') in E; [done|by apply Hr|done].
Qed.

Lemma in_use_unique k W l a W' l' a' : kinv k W l a -> kinv k W' l' a' -> in_use W' = in_use W.
Proof.
  intros Hk Hk'. pose proof (fun W l a Hk => mok_alloc _ _ _ _ (w_machine _ _ _ _ (mi_world _ _ _ _ _ _ _ _ _ (ki_mem env lo hi N base k W l a Hk)))) as Hi.
  unfold in_use. f_equal. f_equal. apply set_eq. intros p. split; [apply (frames_unique _ _ _ (Hi _ _ _ Hk') (Hi _ _ _ Hk))|apply (frames_unique _ _ _ (Hi _ _ _ Hk) (Hi _ _ _ Hk'))].
Qed.

Lemma cx_unique k W l a W' l' a' t tcb v v' : kinv k W l a -> kinv k W' l' a' -> running (processor k) = Some t -> tasks k !! t = Some tcb -> W !! Some t = Some v -> W' !! Some t = Some v' ->
  space_cx v' = space_cx v.
Proof.
  intros Hk Hk' Hr Ht Hv Hv'. pose proof (current_ok env lo hi N base k W l a t tcb v Hk Hr Ht Hv) as Hok. pose proof (current_ok env lo hi N base k W' l' a' t tcb v' Hk' Hr Ht Hv') as Hok'.
  destruct (task_cx_read env lo hi N base (so_lo _ _ _ _ Hset) k W l a t tcb v Hk Ht Hv Hok) as (cx & E & -> & _).
  destruct (task_cx_read env lo hi N base (so_lo _ _ _ _ Hset) k W' l' a' t tcb v' Hk' Ht Hv' Hok') as (cx' & E' & -> & _). congruence.
Qed.

(** A fork is well formed where the memory suffices. *)
Lemma fork_behaves k W l a t tcb v cx : kinv k W l a -> running (processor k) = Some t -> tasks k !! t = Some tcb -> W !! Some t = Some v -> space_cx v = Some cx ->
  xs cx !! 17%nat = Some SYSCALL_FORK -> in_use W + 9 + 3 * total_pages (areas (memory_set (inner tcb))) <= hi - lo -> behaves k UserEnvCall.
Proof.
  intros Hk Hr Ht Hv Hcx H17 Hroom W' l' a' t' Hk' Hr' tcb' v' cx' Ht' Hv' Hcx'. assert (t' = t) as -> by congruence. assert (tcb' = tcb) as -> by congruence.
  assert (cx' = cx) as -> by (rewrite (cx_unique k W l a W' l' a' t tcb v v' Hk Hk' Hr Ht Hv Hv') in Hcx'; congruence).
  cbv beta zeta. rewrite H17. cbn [default]. unfold call_ok. change (SYSCALL_FORK =? SYSCALL_OPEN) with false. cbv iota. rewrite (in_use_same W' (Some t) v') by (done || apply set_cx_owns). by rewrite (in_use_unique k W l a W' l' a' Hk Hk').
Qed.

(** ** Preservation *)
(** Where a trap or a dispatch leads. *)
Lemma steps_phase k W t c k' : steps_to env lo hi N base k W t c k' -> seals env k W ->
  exists W' l' a' arr, at_phase (phase_of c) k' W' l' a' /\ ready_queue k' = ready_queue k ++ arr /\ others W t W' /\ ((forall ok, phase_of c <> Halted ok) -> table_moves k k').
Proof.
  intros Hs Hse. destruct c as [va ptr satp| |ok]; cbn [steps_to phase_of] in *.
  - destruct Hs as (W' & l' & a' & arr & v & Hk' & Hr' & Hq & Ho & Hm & Hke & _). exists W', l', a', arr. split_and!; [|done..]. split_and!; eauto.
  - destruct Hs as (W' & l' & a' & arr & Hk' & Hr' & Hq & Ho & Hm & Hke). exists W', l', a', arr. split_and!; [|done..]. split_and!; auto.
  - exists W, [], [], []. rewrite app_nil_r. split_and!; [done|done|auto with kernel|intros Hh; by destruct (Hh ok)].
Qed.

Lemma step_inv p k ds p' k' W l a : at_phase p k W l a -> step (p, k) ds (p', k') ->
  exists W' l' a' arr, at_phase p' k' W' l' a' /\ ready_queue k ++ arr = ds ++ ready_queue k' /\
    (forall t, actor p k = Some t -> others W t W') /\ ((forall ok, p' <> Halted ok) -> table_moves k k').
Proof.
  intros Hp Hs. inversion Hs as [k0 k1 Hu|k0 k1 Hu|k0 sc sv c k1 He Hb E|k0 sc sv He E|k0 He|k0 t q c k1 Hq E]; subst.
  - destruct Hp as (Hk & Hse & _). destruct (store_inv k W l a k' Hk Hu) as (W' & t & Hr & Hk' & Ho & Hr' & Hq & HT & Hke). exists W', l, a, []. rewrite app_nil_r. split_and!; [split_and!; eauto|done| |intros _; by apply moves_same]. cbn. intros u Hu'. by assert (u = t) as -> by congruence.
  - destruct Hp as (Hk & Hse & _). destruct (save_inv k W l a k' Hk Hu) as (W' & t & Hr & Hk' & Ho & Hr' & Hq & HT & Hke). exists W', l, a, []. rewrite app_nil_r. split_and!; [split_and!; eauto|done| |intros _; by apply moves_same]. cbn. intros u Hu'. by assert (u = t) as -> by congruence.
  - destruct Hp as (Hk & Hse & t & Hr). destruct (trap_safe env lo hi N base Hset k W l a t sc sv Hk Hr (Hb _ _ _ _ Hk Hr)) as [(c' & k2 & E' & Hs')|[E' _]]; [|congruence]. rewrite E in E'. injection E' as <- <-.
    destruct (steps_phase k W t c k' Hs' Hse) as (W' & l' & a' & arr & Hp' & Hq & Ho & Hm). exists W', l', a', arr. split_and!; [done|done| |done]. cbn. intros u Hu. by assert (u = t) as -> by congruence.
  - exists W, l, a, []. rewrite app_nil_r. split_and!; [done|done|auto with kernel|intros Hh; by destruct (Hh false)].
  - destruct Hp as (Hk & Hse & t & Hr). destruct He. by eapply sealed_enters.
  - destruct Hp as (Hk & Hse & Hr). destruct (run_tasks_safe env lo hi N base Hset k W l a Hk Hr) as (t' & q' & tcb & c' & k2 & Hq' & E' & Hs' & Hm1 & Hke). rewrite E in E'. injection E' as <- <-.
    rewrite Hq in Hq'. injection Hq' as <- <-. destruct (steps_phase _ W t c k' Hs' (Hke Hse)) as (W' & l' & a' & arr & Hp' & Hqq & Ho & Hm). exists W', l', a', arr. cbn in Hqq. rewrite Hq, Hqq.
    split_and!; [done|done| |intros Hh; eapply moves_trans; [exact Hm1|by apply Hm]]. cbn. rewrite Hq. by intros u [= <-].
Qed.

(** ** Runs *)
Lemma run_inv p k ds p' k' W l a : at_phase p k W l a -> runs_to (p, k) ds (p', k') ->
  exists W' l' a' arr, at_phase p' k' W' l' a' /\ ready_queue k ++ arr = ds ++ ready_queue k' /\ ((forall ok, p' <> Halted ok) -> table_moves k k').
Proof.
  intros Hp Hrun. remember (p, k) as s eqn:Es. remember (p', k') as s' eqn:Es'. revert p' k' Es'.
  induction Hrun as [s|s [p1 k1] s'' ds ds' Hrun IH Hst]; intros p' k' ->.
  - injection Es as -> ->. exists W, l, a, []. rewrite app_nil_r. split_and!; [done|done|]. intros _. by apply moves_same.
  - destruct (IH Es p1 k1 eq_refl) as (W1 & l1 & a1 & arr & Hp1 & Hq & Hm). destruct (step_inv _ _ _ _ _ _ _ _ Hp1 Hst) as (W2 & l2 & a2 & arr' & Hp2 & Hq' & _ & Hm').
    exists W2, l2, a2, (arr ++ arr'). split_and!; [done|by rewrite app_assoc, Hq, <- !app_assoc, Hq'|]. intros Hh. eapply moves_trans; [apply Hm; intros ok ->; inversion Hst|by apply Hm'].
Qed.

Lemma run_enters k k' ds W l a : at_phase InLoop k W l a -> runs_to (InLoop, k) ds (InUser, k') -> enters_handler k'.
Proof. intros Hp Hrun. destruct (run_inv _ _ _ _ _ _ _ _ Hp Hrun) as (W' & l' & a' & _ & (Hk & Hse & t & Hr) & _). by eapply sealed_enters. Qed.

Lemma run_halted ok k ds s : runs_to (Halted ok, k) ds s -> s = (Halted ok, k).
Proof. intros Hrun. remember (Halted ok, k) as s0 eqn:E. induction Hrun as [|s0 s1 s2 ds ds' Hrun IH Hst]; [done|].
  rewrite (IH E), E in Hst. inversion Hst.
Qed.

(** A task that is not the actor keeps its memory as long as it waits in the queue. *)
Lemma step_keeps p k ds p' k' W l a W' u : at_phase p k W l a -> step (p, k) ds (p', k') -> (forall t, actor p k = Some t -> others W t W') ->
  is_Some (W' !! Some u) -> is_Some (W !! Some u) -> actor p k <> Some u -> W' !! Some u = W !! Some u.
Proof.
  intros Hp Hst Ho [v' Hv'] [v Hv] Hne. assert (Ha : exists t, actor p k = Some t).
  { inversion Hst as [| | | | |k0 t q c k1 Hq E]; subst; cbn; try apply Hp. rewrite Hq. by exists t. }
  destruct Ha as [t Ht]. destruct (Ho t Ht u v') as [E|E]; [congruence|done|congruence|congruence].
Qed.

Lemma at_phase_inv p k W l a : at_phase p k W l a -> (forall ok, p <> Halted ok) -> kinv k W l a.
Proof. destruct p as [| |ok|]; [by intros [? _]..| |done]. intros _ Hp. by destruct (Hp ok). Qed.

Lemma queued_task k W l a u : kinv k W l a -> u ∈ ready_queue k -> exists tcb v, tasks k !! u = Some tcb /\ task_status (inner tcb) = Ready /\
  W !! Some u = Some v /\ user_ok (tramp env) (memory_set (inner tcb)) (trap_cx_ppn (inner tcb)) v.
Proof.
  intros Hk Hu. apply (sc_queue _ _ _ _ (ki_sched _ _ _ _ _ _ _ _ _ Hk)) in Hu as (tcb & Ht & Hs).
  destruct (user_space _ _ _ _ _ _ _ _ _ Hk u tcb Ht) as (v & Hv & Hok); [congruence|]. by exists tcb, v.
Qed.

Lemma waiting_not_actor p k ds s W l a u : at_phase p k W l a -> step (p, k) ds s -> u ∈ ready_queue k -> u ∉ ds -> actor p k <> Some u.
Proof.
  intros Hp Hst Hu Hds Ha. inversion Hst as [| | | | |k0 t q c k1 Hq E]; subst; cbn in Ha.
  6: { rewrite Hq in Ha. injection Ha as ->. apply Hds. by left. }
  all: destruct Hp as [Hk _]; destruct (queued_task k W l a u Hk Hu) as (tcb & v & Ht & Hs & _);
    apply (sc_running _ _ _ _ (ki_sched _ _ _ _ _ _ _ _ _ Hk)) in Ha as (tcb' & Ht' & Hs'); congruence.
Qed.

Lemma run_keeps p k ds p' k' W l a u : at_phase p k W l a -> runs_to (p, k) ds (p', k') -> u ∈ ready_queue k -> u ∉ ds -> (forall ok, p' <> Halted ok) ->
  exists W' l' a', at_phase p' k' W' l' a' /\ u ∈ ready_queue k' /\ W' !! Some u = W !! Some u.
Proof.
  intros Hp Hrun Hu. remember (p, k) as s eqn:Es. remember (p', k') as s' eqn:Es'. revert p' k' Es'.
  induction Hrun as [s|s [p1 k1] s'' ds ds' Hrun IH Hst]; intros p' k' -> Hds Hh.
  - injection Es as -> ->. by exists W, l, a.
  - rewrite elem_of_app in Hds. destruct (IH Es p1 k1 eq_refl) as (W1 & l1 & a1 & Hp1 & Hu1 & E1); [tauto|inversion Hst; done|].
    destruct (step_inv _ _ _ _ _ _ _ _ Hp1 Hst) as (W2 & l2 & a2 & arr' & Hp2 & Hq' & Ho & _). exists W2, l2, a2.
    assert (Hu2 : u ∈ ready_queue k'). { assert (Hin : u ∈ ready_queue k1 ++ arr') by (apply elem_of_app; by left). rewrite Hq', elem_of_app in Hin. tauto. }
    split_and!; [done|done|]. rewrite <- E1. eapply step_keeps; [done|done|done| | |eapply waiting_not_actor; eauto].
    + destruct (queued_task k' W2 l2 a2 u) as (? & v & _ & _ & Hv & _); [by eapply at_phase_inv|done|by exists v].
    + destruct (queued_task k1 W1 l1 a1 u) as (? & v & _ & _ & Hv & _); [|done|by exists v]. eapply at_phase_inv; [done|inversion Hst; done].
Qed.

End Run.
