(* ===== verification/KBoot.v ===== *)
(** * The kernel boots into its invariant *)

From S2P Require Import Prelude BlockDev BlockStore Bitmap Layout DiskCodec Tree BuildTree TreeOps ClearTree InodeOps FileData Efs Vfs FsInv FsAlloc FsUpdate FsOps FsDir FsCreate FsSpec FsRefine Address Frames PageTable PtInv PtOps Space MemorySet AreaOps MsOps MsLife MsBuild UserMem World Kernel OsInode Task Syscall Boot Pids CxMem KLogic KInv KSched KProc KFork KTree KExit KWait KFile KBuf KIo KExec KSafe KRun.

Section KBoot.
Context {St F : Type} `{BlockStoreSpec St} `{FrameAllocatorSpec F}.
Variables (env : Env) (lo hi N : Z) (base : list (VPNRange * MapType * Z)).
Hypothesis Hset : setup_ok env lo hi base.
Implicit Types (k : Kernel St F) (W : gmap (option nat) aspace) (v : aspace) (l : directory) (a : named_files).
Abbreviation kinv := (kinv env lo hi N base).
Abbreviation finv k l a := (file_inv N (disk k) (root_fs k) (tasks k) (files k) l a).

(** The kernel before its first task. *)
Record no_task k W l a : Prop := {
  nt_borrows : borrows k = [];
  nt_tasks : tasks k = ∅;
  nt_queue : ready_queue k = [];
  nt_running : running (processor k) = None;
  nt_pids : pid_allocator k = pid_allocator_new;
  nt_mem : mem_inv env lo hi base (machine k) (kernel_space k) (pid_allocator k) ∅ W;
  nt_file : finv k l a;
  nt_fresh r : is_Some (files k !! r) -> (r < next_ref k)%nat;
}.

Definition first_inner (ms : MemorySet) (ppn sp : Z) : TaskControlBlockInner :=
  mkInner ppn sp (goto_trap_return (get_top IDLE_PID)) Ready ms None [] 0 [Some Stdin; Some Stdout; Some Stdout].

Lemma first_task k W l a data elf : no_task k W l a -> elf_ok env data elf -> in_use W + 9 + 3 * total_pages (elf_areas elf) <= hi - lo ->
  0 <= total_pages (elf_areas elf) -> let t := next_ref k in
  exists ppn ms m ks pids v W', let tcb := mkTCB IDLE_PID IDLE_PID (first_inner ms ppn (elf_sp elf)) in
    tcb_new env data k = Ok (tcb, set_machine (set_kernel_space (set_pid_allocator k pids) ks) m) /\
    mem_inv env lo hi base m ks pids {[t := tcb]} W' /\ W' !! Some t = Some v /\ (forall u, u <> t -> W' !! Some u = W !! Some u) /\
    (forall x b, x <> context_vpn -> elf_contents data elf x = Some b -> as_P v !! x = Some b) /\
    space_cx v = Some (start_cx env elf (ms_token ks) IDLE_PID) /\ in_use W' <= in_use W + 9 + 3 * total_pages (elf_areas elf) /\
    shape <$> areas ms = shape <$> elf_areas elf /\ user_ok (tramp env) ms ppn v.
Proof.
  intros [Hb Hts Hq Hr Hpn Hm Hf Hfr] Hel Hroom Htp t. destruct Hset as [Hlo Hlow Hsmall Htramp [Hsst Hth] Hloops]. pose proof (mi_world _ _ _ _ _ _ _ _ _ Hm) as HW.
  pose proof (mem_room _ _ _ _ _ _ _ _ _ Hm) as Hrm. change (Z.of_nat (base.size (∅ : gmap nat TaskControlBlock))) with 0 in Hrm.
  assert (Hn : W !! Some t = None). { apply eq_None_not_Some. intros Hs. apply (mi_dom _ _ _ _ _ _ _ _ _ Hm) in Hs as [??]. by rewrite lookup_empty in *. }
  destruct (elf_space env lo hi Htramp k W (Some t) data elf HW Hn Hel ltac:(lia)) as (ms & m1 & ppn & v1 & E1 & Ec & Hok1 & HW1 & Hpg & Hsh & Huse).
  destruct (mi_kernel _ _ _ _ _ _ _ _ _ Hm) as (vk & ps & Hvk & Hko & Hps). set (k1 := set_machine k m1).
  destruct (spawn_ok lo hi base Hlow Hsmall k1 (<[Some t := v1]> W) ∅ ps vk) as (pd & pids & ks & m2 & vk' & Ep & Es & Hpd & Hpr & Hpids & Hcur & Hko' & HW2 & Hroot & Huse2);
    [done|by rewrite lookup_insert_ne|done|done|apply Hm|apply Hm|change (Z.of_nat (base.size (∅ : gmap nat TaskControlBlock))) with 0; lia|lia|cbn; rewrite Hb; apply not_elem_of_nil|cbn; rewrite Hb; apply not_elem_of_nil|].
  assert (pd = IDLE_PID) as ->.
  { unfold pid_alloc in Ep. erewrite with_cell_ok in Ep; [|cbn; rewrite Hb; apply not_elem_of_nil|rewrite gets_bind; cbn [pid_allocator set_borrows k1 set_machine]; rewrite Hpn; reflexivity|done]. by injection Ep as <-. }
  set (tcb := mkTCB IDLE_PID IDLE_PID (first_inner ms ppn (elf_sp elf))).
  assert (Hm2 : mem_inv env lo hi base m2 ks pids (<[t := tcb]> ∅) (<[None := vk']> (<[Some t := v1]> W))).
  { eapply (mem_inv_add env lo hi base); try done. intros p. rewrite elem_of_app, list_elem_of_singleton, Hps. cbn. tauto. }
  set (W2 := <[None := vk']> (<[Some t := v1]> W)) in *.
  assert (Hv2 : W2 !! Some t = Some v1) by (unfold W2; by rewrite lookup_insert_ne, lookup_insert_eq).
  destruct (world_page lo hi _ _ _ _ _ _ HW2 Hv2 (uo_context _ _ _ _ Hok1)) as (b & Hbp & _ & Hlb). set (cx := start_cx env elf (ms_token (kernel_space k)) IDLE_PID).
  assert (Etok : ms_token ks = ms_token (kernel_space k)) by (unfold ms_token, token; by rewrite Hroot).
  assert (Hcx : cx_ok cx).
  { apply cx_ok_init; [done|apply Hel|by eapply elf_sp_u64| |apply is_u64_top|done].
    pose proof (space_root _ _ _ _ _ _ _ _ (w_space _ _ _ _ HW None vk Hvk)) as Hrt. rewrite (ko_pt _ _ _ _ Hko) in Hrt.
    unfold ms_token, token. apply is_u64_lor; [done|]. unfold is_u64. lia. }
  destruct (write_cx_ok lo hi Hlo m2 W2 (Some t) v1 context_vpn ppn b cx HW2 Hv2 (uo_context _ _ _ _ Hok1) Hbp Hcx) as (m3 & E3 & HW3).
  exists ppn, ms, m3, ks, pids, (set_page v1 context_vpn (put_cx b cx)), (<[Some t := set_page v1 context_vpn (put_cx b cx)]> W2). cbv zeta. fold tcb. split_and!.
  - unfold tcb_new. erewrite bind_Ok; [|apply on_machine_ok; exact E1]. cbv iota beta. erewrite bind_Ok; [|by apply Ec]. erewrite bind_Ok; [|exact Ep]. erewrite bind_Ok; [|exact Es].
    unfold kernel_token. erewrite bind_Ok; [|apply with_cell_to; [cbn; rewrite Hb; apply not_elem_of_nil|reflexivity|reflexivity]].
    cbn [kernel_space set_kernel_space set_borrows]. rewrite Etok. erewrite bind_Ok; [|apply on_machine_ok; exact E3]. done.
  - by apply (mem_inv_world env lo hi base m2).
  - apply lookup_insert_eq.
  - intros u Hu. unfold W2. by rewrite !lookup_insert_ne by congruence.
  - intros x b' Hx Hc. cbn. rewrite lookup_insert_ne by done. by apply Hpg.
  - unfold space_cx. cbn. rewrite lookup_insert_eq. cbn. f_equal. rewrite Etok. by apply page_put_cx.
  - rewrite (in_use_same W2 (Some t) v1) by done. fold W2 in Huse2. lia.
  - done.
  - by destruct Hok1.
Qed.

(** [add_initproc]: the program of the file [initproc] is the only task, at the head of the queue. *)
Lemma initproc_inv k W l a data elf : no_task k W l a -> lookup_name init_name a = Some data -> elf_ok env data elf ->
  in_use W + 9 + 3 * total_pages (elf_areas elf) <= hi - lo -> 0 <= total_pages (elf_areas elf) -> zlen data <= 512 * (Z.of_nat (loops env) - 1) ->
  exists k' W' l' t tcb v, add_initproc env k = Ok (tt, k') /\ kinv k' W' l' a /\ ready_queue k' = [t] /\ running (processor k') = None /\
    tasks k' = {[t := tcb]} /\ initproc k' = t /\ pid tcb = IDLE_PID /\ (exists ms ppn, inner tcb = first_inner ms ppn (elf_sp elf)) /\ W' !! Some t = Some v /\
    (forall x b, x <> context_vpn -> elf_contents data elf x = Some b -> as_P v !! x = Some b) /\
    space_cx v = Some (start_cx env elf (ms_token (kernel_space k')) IDLE_PID) /\ in_use W' <= in_use W + 9 + 3 * total_pages (elf_areas elf) /\
    shape <$> areas (memory_set (inner tcb)) = shape <$> elf_areas elf /\ root_fs k' = root_fs k.
Proof.
  intros Hk Hl Hel Hroom Htp Hfu. pose proof (zlen_nonneg data). pose proof Hk as [Hb Hts Hq Hr Hpn Hm Hf Hfr].
  pose proof (open_file_files N k l a init_name RDONLY Hf (open_read_ok N _ _ _)) as Ho. rewrite (open_read_none a _ data Hl) in Ho.
  destruct Ho as (i & l' & d1 & [Hi _] & E1 & Hf1). set (f := os_inode_new _ _ _) in *. set (k1 := opened (set_disk k d1) f) in *.
  assert (Hop : open_on k1 l' a (next_ref k) f init_name data) by (split_and!; [apply lookup_insert_eq|done|by exists i]).
  destruct (read_all_files N (loops env) k1 l' a (next_ref k) f init_name data Hf1) as (d2 & E2 & Hf2); [cbn; rewrite Hb; apply not_elem_of_nil|done|cbn; lia|cbn; lia|].
  cbn [os_offset f os_inode_new] in E2. change (drop (Z.to_nat 0) data) with data in E2.
  set (k2 := set_files (set_disk k1 d2) (<[next_ref k := set_offset f (zlen data)]> (files k1))) in *.
  assert (Hk2 : no_task k2 W l' a).
  { split; [done|done|done|done|done|done|exact Hf2|]. intros r. cbn. rewrite !lookup_insert. repeat case_decide; intros Hs; try lia. apply Hfr in Hs. lia. }
  destruct (first_task k2 W l' a data elf Hk2 Hel Hroom Htp) as (ppn & ms & m & ks & pids & v & W' & E3 & Hm3 & Hv & Hoth & Hpg & Hcx & Huse & Hsh & Huo). set (t := next_ref k2) in *.
  set (tcb := mkTCB IDLE_PID IDLE_PID (first_inner ms ppn (elf_sp elf))) in *.
  set (kx := set_machine (set_kernel_space (set_pid_allocator k2 pids) ks) m). set (kn := set_initproc (set_next_ref (set_tasks kx (<[t := tcb]> (tasks kx))) (S t)) t).
  exists (set_ready_queue kn (ready_queue kn ++ [t])), W', l', t, tcb, v. split; [|split; [|split_and!; try done; try (by exists ms, ppn)]].
  - unfold add_initproc. erewrite bind_Ok; [|exact E1]. cbn [unwrap lift]. rewrite bind_ret. erewrite bind_Ok; [|exact E2]. erewrite bind_Ok; [|exact E3].
    erewrite bind_Ok; [|unfold new_task; rewrite gets_bind, update_bind; reflexivity]. rewrite update_bind. apply (add_task_ok t kn). cbn. rewrite Hb. apply not_elem_of_nil.
  - assert (Ets : tasks kn = {[t := tcb]}) by (change (<[t := tcb]> (tasks k) = {[t := tcb]}); by rewrite Hts). assert (Eq : ready_queue kn ++ [t] = [t]) by (cbn; by rewrite Hq).
    rewrite Eq. split; change (tasks (set_ready_queue kn [t])) with (tasks kn); rewrite ?Ets; [done|exact Hm3| | | | |].
    + split; [apply NoDup_singleton| | |].
      * intros u. change (ready_queue (set_ready_queue kn [t])) with [t]. rewrite list_elem_of_singleton. split; [intros ->; exists tcb; by rewrite lookup_singleton_eq|]. intros (x & [-> _]%lookup_singleton_Some & _). done.
      * intros u. change (running (processor (set_ready_queue kn [t]))) with (running (processor k)). rewrite Hr. split; [done|]. intros (x & [_ <-]%lookup_singleton_Some & ?). done.
      * by intros u x w [_ <-]%lookup_singleton_Some.
    + split.
      * exists tcb. by rewrite lookup_singleton_eq.
      * intros u x c [_ <-]%lookup_singleton_Some ?%not_elem_of_nil. done.
      * intros u x [_ <-]%lookup_singleton_Some. constructor.
      * by intros u x [<- _]%lookup_singleton_Some.
      * by intros u x [_ <-]%lookup_singleton_Some.
      * intros u x [_ <-]%lookup_singleton_Some. apply not_elem_of_nil.
    + destruct Hf2 as [A B C D _]. split; [done..|]. intros u x r [_ <-]%lookup_singleton_Some Hin. cbn in Hin. set_solver.
    + intros u [x [<- _]%lookup_singleton_Some]. unfold t. cbn. lia.
    + intros r. cbn. rewrite !lookup_insert. repeat case_decide; intros Hs; try lia. apply Hfr in Hs. lia.
  - cbn. by rewrite Hq.
  - cbn. by rewrite Hts.
Qed.

End KBoot.

(** ** [rust_main] *)
Section Main.
Context {St : Type} `{BlockStoreSpec St}.
Variables (env : Env) (layout : KernelLayout) (MEMORY_END : Z) (MMIO : list (Z * Z)) (N : Z).

Definition first_frame : Z := ceil (pa_from (ekernel layout)).
Definition last_frame : Z := floor (pa_from MEMORY_END).
Definition kernel_shapes : list (VPNRange * MapType * Z) := shape <$> (sec_area <$> kernel_sections layout MEMORY_END MMIO).
Abbreviation lo := first_frame.
Abbreviation hi := last_frame.

(** The machine and the image of the kernel. *)
Record board_ok (r : gmap Z (list byte)) : Prop := {
  bo_setup : setup_ok env lo hi kernel_shapes;
  bo_range : lo <= hi /\ hi <= 2 ^ 44;
  bo_tramp : strampoline layout = tramp env;
  bo_mmio pair : pair ∈ MMIO -> pair.1 + pair.2 < 2 ^ 64;
  bo_fits : fits lo hi ∅ (kernel_sections layout MEMORY_END MMIO);
  bo_sections : stext layout < etext layout /\ srodata layout < erodata layout /\ sdata layout < edata layout;
  bo_ram p : lo <= p < hi -> is_Some (r !! p);
  bo_pages : pages_ok r;
}.

Definition kernel_tables : Z := 3 + 2 * total_tables (sec_area <$> kernel_sections layout MEMORY_END MMIO).

Lemma init_machine_ok r : board_ok r -> machine_ok lo hi (mkMachine r (init_frame_allocator (ekernel layout) MEMORY_END stack_new)) ∅.
Proof.
  intros [[Hlo _ _ _ _ _] Hr _ _ _ _ Hram Hp]. split; [|done|done]. split; cbn; [done|change (ceil (pa_from (ekernel layout))) with lo; lia|lia|constructor|by intros p ?%not_elem_of_nil|].
  intros p. rewrite elem_of_empty. split; [done|]. unfold first_frame. lia.
Qed.

Lemma mm_init_ok (k : Kernel St StackFrameAllocator) : board_ok (ram (machine k)) -> allocator (machine k) = stack_new -> KERNEL_SPACE ∉ borrows k ->
  exists ks m vk, (mm_init layout MEMORY_END MMIO;; mm_remap_test layout) k = Ok (tt, set_kernel_space (set_machine k m) ks) /\
    mem_inv env lo hi kernel_shapes m ks pid_allocator_new ∅ {[None := vk]} /\ in_use ({[None := vk]} : gmap (option nat) aspace) <= kernel_tables.
Proof.
  intros Hbo Ha Hb. pose proof (init_machine_ok _ Hbo) as Hm0. set (m0 := mkMachine (ram (machine k)) (init_frame_allocator (ekernel layout) MEMORY_END stack_new)) in *.
  destruct Hbo as [Hset Hrg Htr Hmm Hfits (S1 & S2 & S3) _ _]. pose proof (so_tramp _ _ _ _ Hset) as Ht. rewrite <- Htr in Ht.
  destruct (new_kernel_ok lo hi m0 ∅ layout MEMORY_END MMIO Hm0 Ht Hmm Hfits) as (ks & m & G & E & Hk).
  pose proof (remap_test_ok lo hi m0 ∅ layout MEMORY_END MMIO m ks G Hk (proj1 Hfits) S1 S2 S3) as Er.
  destruct (wf_ms_ok _ _ _ _ _ _ _ _ (kn_ok _ _ _ _ _ _ _ _ _ Hk)) as [Hwf Hsp]. set (vk := mkSpace (page_table ks) G ∅ ∅) in *.
  assert (HW0 : world lo hi m0 (∅ : gmap (option nat) aspace)) by (split; [done|by intros i v; rewrite lookup_empty]).
  exists ks, m, vk. split_and!.
  - unfold mm_init. rewrite bind_assoc, update_bind, bind_assoc. rewrite Ha. erewrite bind_Ok; [|apply on_machine_ok; exact E]. rewrite update_bind.
    unfold mm_remap_test. apply with_cell_to; [done|done|]. rewrite gets_bind. rewrite (on_machine_ok _ _ tt m); [done|exact Er].
  - split.
    + apply (world_insert lo hi m0 m ∅ None vk HW0 (lookup_empty _)); [exact Hsp|apply Hk].
    + exists vk, []. rewrite lookup_singleton_eq. split_and!; [done| |intros p; rewrite elem_of_live; split; [by intros ?%not_elem_of_nil|by intros (t & x & Hx & _)]].
      split; [done|done|rewrite app_nil_r; apply Hk|constructor|constructor].
    + intros t. rewrite lookup_singleton_ne by done. split; by intros [??].
    + by intros t x v.
    + apply pids_new.
    + by intros t t' x x'.
    + by intros t x.
    + cbn. lia.
  - unfold in_use. rewrite <- (insert_empty None vk), total_insert by apply lookup_empty. apply Hk.
Qed.

(** The kernel boots: it prints the names of the files and schedules the program of [initproc]. *)
Lemma boot_ok d r fs l a data elf : board_ok r -> wf d -> held d = ∅ -> fs_view (content d) fs N l a ->
  lookup_name init_name a = Some data -> elf_ok env data elf -> kernel_tables + 9 + 3 * total_pages (elf_areas elf) <= hi - lo ->
  0 <= total_pages (elf_areas elf) -> zlen data <= 512 * (Z.of_nat (loops env) - 1) ->
  exists k W l' t tcb v, rust_main env layout MEMORY_END MMIO (cold_boot d r) = Ok (tt, k) /\ kinv env lo hi N kernel_shapes k W l' a /\
    ready_queue k = [t] /\ running (processor k) = None /\ tasks k = {[t := tcb]} /\ initproc k = t /\ pid tcb = IDLE_PID /\
    (exists ms ppn, inner tcb = first_inner ms ppn (elf_sp elf)) /\ W !! Some t = Some v /\
    (forall x b, x <> context_vpn -> elf_contents data elf x = Some b -> as_P v !! x = Some b) /\ space_cx v = Some (start_cx env elf (ms_token (kernel_space k)) IDLE_PID) /\
    in_use W <= kernel_tables + 9 + 3 * total_pages (elf_areas elf) /\ shape <$> areas (memory_set (inner tcb)) = shape <$> elf_areas elf /\
    root_fs k = fs.
Proof.
  intros Hbo Hw Hh Hv Hl Hel Hroom Htp Hfu. pose proof (bo_setup _ Hbo) as Hset.
  set (kc := set_console (cold_boot d r) [Hello]).
  destruct (mm_init_ok kc Hbo eq_refl (not_elem_of_nil _)) as (ks & m & vk & E1 & Hm & Hu). set (k1 := set_kernel_space (set_machine kc m) ks) in *.
  set (k2 := set_timer (set_reads (set_stvec k1 FromKernel) 1%nat) (w64 (w64 (read_time env 0) + CLOCK_FREQ / TICKS_PER_SEC))).
  assert (Hop : runs (St := St) ∅ (content d) efs_open fs (content d)). { destruct Hv as (I & X & Hfd & _). eapply efs_open_runs. apply Hfd. }
  destruct (Hop d Hw eq_refl Hh) as (d1 & E2 & Hw1 & Hc1 & Hh1). set (k3 := set_root_fs (set_disk k2 d1) fs).
  assert (Hf3 : file_inv N (disk k3) (root_fs k3) (tasks k3) (files k3) l a).
  { split; cbn; [done|done|by rewrite Hc1|by intros ? ?; rewrite lookup_empty|by intros ? ? ?; rewrite lookup_empty]. }
  set (k3h := set_console k3 [Hello; AppsHeader]).
  destruct (finv_read N k3h l a _ _ Hf3 (view_ls _ _ _ _ _ (fi_view _ _ _ _ _ _ _ Hf3))) as (d4 & E4 & Hf4). set (k4 := set_console (set_disk k3 d4) ([Hello; AppsHeader] ++ (AppName <$> a.*1) ++ [AppsFooter])).
  assert (Hk4 : no_task env lo hi N kernel_shapes k4 {[None := vk]} l a).
  { split; try done. cbn. intros q. rewrite lookup_empty. by intros [??]. }
  destruct (initproc_inv env lo hi N kernel_shapes Hset k4 {[None := vk]} l a data elf Hk4 Hl Hel ltac:(lia) Htp Hfu) as (k5 & W & l' & t & tcb & v & E5 & R).
  destruct R as (R1 & R2 & R3 & R4 & R5 & R6 & R7 & R8 & R9 & R10 & R11 & R12 & R13).
  exists k5, W, l', t, tcb, v. split; [|split_and!; try done; lia]. unfold rust_main, print at 1. rewrite update_bind. change (set_console (cold_boot d r) _) with kc. rewrite <- bind_assoc. erewrite bind_Ok; [|exact E1].
  change ((set_kernel_trap_entry;; set_next_trigger env;; open_root;; list_apps;; add_initproc env) k1 = Ok (tt, k5)) with ((open_root;; list_apps;; add_initproc env) k2 = Ok (tt, k5)).
  unfold open_root. rewrite bind_assoc. erewrite bind_Ok; [|apply on_disk_ok; exact E2]. rewrite update_bind. fold k3.
  unfold list_apps. rewrite bind_assoc, gets_bind. unfold print at 1. rewrite bind_assoc, update_bind. change (set_console k3 _) with k3h. rewrite bind_assoc. erewrite bind_Ok; [|exact E4].
  rewrite bind_assoc. erewrite bind_Ok; [|apply (print_each AppName)]. unfold print. rewrite update_bind. cbn [console set_console set_disk k3h]. rewrite <- app_assoc. exact E5.
Qed.

End Main.
