(* ===== verification/User.v ===== *)
(** * User programs (user/src)

    A program is an interaction tree over the system calls of user/src/syscall.rs:
    a call is an event, with what the program passes and what it gets back, and
    the loops that need not end are those of the trees.  The library (lib.rs,
    console.rs) and the programs of user/src/bin follow. *)

From Stdlib Require Import String.
From stdpp Require Import pretty.
From ITree Require Import Core.ITreeDefinition.
From S2P Require Import Prelude Address PageTable Layout Syscall.

(** ** The calls (syscall.rs) *)
Variant sysE : Type -> Type :=
  | SysOpen (path : list byte) (flags : Z) : sysE Z
  | SysClose (fd : Z) : sysE Z
  | SysRead (fd : Z) (len : Z) : sysE (Z * list byte)   (* the result, and the bytes put into the buffer *)
  | SysWrite (fd : Z) (buffer : list byte) : sysE Z
  | SysExit (exit_code : Z) : sysE Empty_set
  | SysYield : sysE Z
  | SysGetTime : sysE Z
  | SysGetPid : sysE Z
  | SysFork : sysE Z
  | SysExec (path : list byte) : sysE Z
  | SysWaitpid (pid : Z) : sysE (Z * option Z).   (* the result, and what is stored in the exit code *)

Definition prog : Type -> Type := itree sysE.
Definition call {R} (e : sysE R) : prog R := Vis e (fun r => Ret r).

Declare Scope prog_scope.
Delimit Scope prog_scope with prog.
Notation "'let*' p ':=' m 'in' k" := (ITree.bind m (fun x => match x with p => k end))
  (at level 10, p pattern, m at level 100, k at level 200) : prog_scope.
Notation "m ;; k" := (ITree.bind m (fun _ => k))
  (at level 100, k at level 200, right associativity) : prog_scope.
Local Open Scope prog_scope.

(** [for x in l { body }], and with a local variable. *)
Fixpoint for_ {A} (l : list A) (body : A -> prog unit) : prog unit :=
  match l with [] => Ret tt | x :: l => body x;; for_ l body end.
Fixpoint fold_ {A B} (l : list A) (body : B -> A -> prog B) (b : B) : prog B :=
  match l with [] => Ret b | x :: l => let* b := body b x in fold_ l body b end.

(** ** What is passed to the kernel *)
Module UserSyscall.
Definition SYSCALL_OPEN : Z := 56.
Definition SYSCALL_CLOSE : Z := 57.
Definition SYSCALL_READ : Z := 63.
Definition SYSCALL_WRITE : Z := 64.
Definition SYSCALL_EXIT : Z := 93.
Definition SYSCALL_YIELD : Z := 124.
Definition SYSCALL_GET_TIME : Z := 169.
Definition SYSCALL_GETPID : Z := 172.
Definition SYSCALL_FORK : Z := 220.
Definition SYSCALL_EXEC : Z := 221.
Definition SYSCALL_WAITPID : Z := 260.

(** a7 and a0-a2 of the call, whose path, buffer or exit code is at [ptr]. *)
Definition registers {R} (e : sysE R) (ptr : Z) : Z * Z * Z * Z :=
  match e with
  | SysOpen _ flags => (SYSCALL_OPEN, ptr, flags, 0)
  | SysClose fd => (SYSCALL_CLOSE, fd, 0, 0)
  | SysRead fd len => (SYSCALL_READ, fd, ptr, len)
  | SysWrite fd buffer => (SYSCALL_WRITE, fd, ptr, zlen buffer)
  | SysExit exit_code => (SYSCALL_EXIT, w64 exit_code, 0, 0)
  | SysYield => (SYSCALL_YIELD, 0, 0, 0)
  | SysGetTime => (SYSCALL_GET_TIME, 0, 0, 0)
  | SysGetPid => (SYSCALL_GETPID, 0, 0, 0)
  | SysFork => (SYSCALL_FORK, 0, 0, 0)
  | SysExec _ => (SYSCALL_EXEC, ptr, 0, 0)
  | SysWaitpid pid => (SYSCALL_WAITPID, w64 pid, ptr, 0)
  end.
End UserSyscall.

(** ** The library (lib.rs) *)
Module OpenFlags.
Definition RDONLY : Z := 0.
Definition WRONLY : Z := Z.shiftl 1 0.
Definition RDWR : Z := Z.shiftl 1 1.
Definition CREATE : Z := Z.shiftl 1 9.
Definition TRUNC : Z := Z.shiftl 1 10.
End OpenFlags.

Definition open (path : list byte) (flags : Z) : prog Z := call (SysOpen path flags).
Definition close (fd : Z) : prog Z := call (SysClose fd).
Definition read (fd len : Z) : prog (Z * list byte) := call (SysRead fd len).
Definition write (fd : Z) (buf : list byte) : prog Z := call (SysWrite fd buf).
Definition exit {R} (exit_code : Z) : prog R := Vis (SysExit exit_code) (fun r : Empty_set => match r with end).
Definition yield_ : prog Z := call SysYield.
Definition get_time : prog Z := call SysGetTime.
Definition getpid : prog Z := call SysGetPid.
Definition fork : prog Z := call SysFork.
Definition exec (path : list byte) : prog Z := call (SysExec path).

(** [wait] and [waitpid], with the variable for the exit code: the result and
    the new value of the variable. *)
Definition waiting (pid : Z) : Z -> prog (Z * Z) :=
  ITree.iter (fun exit_code =>
    let* (r, stored) := call (SysWaitpid pid) in
    let exit_code := default exit_code stored in
    if r =? -2 then yield_;; Ret (inl exit_code) else Ret (inr (r, exit_code))).
Definition wait (exit_code : Z) : prog (Z * Z) := waiting (-1) exit_code.
Definition waitpid (pid exit_code : Z) : prog (Z * Z) := waiting (as_isize (w64 pid)) exit_code.

Definition sleep (period_ms : Z) : prog unit :=
  let* start := call SysGetTime in
  ITree.iter (fun _ : unit =>
    let* now := call SysGetTime in
    if now <? as_isize (w64 (start + period_ms)) then call SysYield;; Ret (inl tt) else Ret (inr tt)) tt.

(** [_start] *)
Definition start (main : prog Z) : prog Empty_set := let* code := main in exit code.

(** ** The console (console.rs) *)
Definition STDIN : Z := 0.
Definition STDOUT : Z := 1.

(** A text is printed piece by piece: the literals of the format and the
    arguments are one call each. *)
Definition print (pieces : list (list byte)) : prog unit := for_ pieces (fun s => write STDOUT s;; Ret tt).

Definition str (s : string) : list byte := list_byte_of_string s.
Definition cstr (s : string) : list byte := str s ++ [Byte.x00].
Definition line (s : string) : list byte := str s ++ [Byte.x0a].

(** [Display] of the integers: the sign is written on its own. *)
Definition show (n : Z) : list (list byte) :=
  if n <? 0 then [str "-"; str (pretty (Z.to_N (- n)))] else [str (pretty (Z.to_N n))].

Definition getchar : prog byte :=
  let* (_, c) := read STDIN 1 in Ret (default Byte.x00 (head c)).

(** ** Panics (lang_items.rs) *)
Definition panic {R} (file : string) (at_line : Z) (err : list (list byte)) : prog R :=
  print ([str "Panicked at "; str file; str ":"] ++ show at_line ++ [str ", "] ++ err ++ [[Byte.x0a]]);;
  exit (-1).

Definition assert_that (file : string) (at_line : Z) (cond : string) (b : bool) : prog unit :=
  if b then Ret tt else panic file at_line [str "assertion failed: "; str cond].

Definition assert_eq (file : string) (at_line : Z) (left right : Z) : prog unit :=
  if left =? right then Ret tt
  else panic file at_line ([line "assertion failed: `(left == right)`" ++ str "  left: `"] ++ show left ++ [line "`," ++ str " right: `"] ++ show right ++ [str "`"]).

(** ** The programs (bin) *)
Module initproc.
Definition main : prog Z :=
  let* pid := fork in
  if pid =? 0 then exec (cstr "user_shell");; Ret 0
  else
    ITree.iter (fun _ : unit =>
      let* (pid, exit_code) := wait 0 in
      if pid =? -1 then yield_;; Ret (inl tt)
      else
        print ([str "[initproc] Released a zombie process, pid="] ++ show pid ++ [str ", exit_code="] ++ show exit_code ++ [[Byte.x0a]]);;
        Ret (inl tt)) tt.
End initproc.

Module user_shell.
Definition LF : byte := Byte.x0a.
Definition CR : byte := Byte.x0d.
Definition DL : byte := Byte.x7f.
Definition BS : byte := Byte.x08.

(** The line: its characters and the capacity of the [String]. *)
Record Line := mkLine { text : list byte; cap : Z }.

(** [line.as_str()], of the characters that were pushed. *)
Definition as_str (line : list byte) : list byte := foldl push_char [] line.

Section Heap.
(** The allocator of the user library: [None] when a block of that many bytes is
    found, else the text of the layout that was asked for. *)
Variable heap : Z -> option (list (list byte)).

(** [String::push]: a line that is full doubles its capacity, to 8 bytes at
    least; when there is no memory [handle_alloc_error] panics. *)
Definition push (line : Line) (c : byte) : prog Line :=
  let len := zlen (as_str (text line)) in
  let needed := zlen (push_char [] c) in
  if cap line - len <? needed then
    let new := Z.max 8 (Z.max (2 * cap line) (len + needed)) in
    match heap new with
    | None => Ret (mkLine (text line ++ [c]) new)
    | Some layout => panic "src/lib.rs" 27 ([str "Heap allocation error, layout = "] ++ layout)
    end
  else Ret (mkLine (text line ++ [c]) (cap line)).

(** A line that is not empty is run by a child. *)
Definition run (line : Line) : prog (Line + Z) :=
  let* line := push line Byte.x00 in
  let* pid := fork in
  if pid =? 0 then
    let* r := exec (as_str (text line)) in
    if r =? -1 then print [User.line "Error when executing!"];; Ret (inr (-4))
    else panic "src/bin/user_shell.rs" 38 [str "internal error: entered unreachable code"]
  else
    let* (exit_pid, exit_code) := waitpid pid 0 in
    assert_eq "src/bin/user_shell.rs" 42 pid exit_pid;;
    print ([str "Shell: Process "] ++ show pid ++ [str " exited with code "] ++ show exit_code ++ [[LF]]);;
    print [str ">> "];;
    Ret (inl (mkLine [] (cap line))).

Definition body (line : Line) : prog (Line + Z) :=
  let* c := getchar in
  if bool_decide (c = LF \/ c = CR) then
    print [[LF]];;
    match text line with
    | [] => print [str ">> "];; Ret (inl line)
    | _ => run line
    end
  else if bool_decide (c = BS \/ c = DL) then
    match text line with
    | [] => Ret (inl line)
    | _ => print [[BS]];; print [str " "];; print [[BS]];; Ret (inl (mkLine (removelast (text line)) (cap line)))
    end
  else
    print [push_char [] c];;
    let* line := push line c in
    Ret (inl line).

Definition main : prog Z :=
  print [line "Rust user shell"];;
  print [str ">> "];;
  ITree.iter body (mkLine [] 0).
End Heap.
End user_shell.

Module forktest.
Definition MAX_CHILD : nat := 30.
Definition main : prog Z :=
  for_ (seq 0 MAX_CHILD) (fun i =>
    let* pid := fork in
    (if pid =? 0 then
       print ([str "I am child "] ++ show (Z.of_nat i) ++ [[Byte.x0a]]);;
       exit 0
     else
       print ([str "forked child pid = "] ++ show pid ++ [[Byte.x0a]]));;
    assert_that "src/bin/forktest.rs" 21 "pid > 0" (0 <? pid));;
  let* exit_code := fold_ (seq 0 MAX_CHILD) (fun exit_code _ =>
    let* (pid, exit_code) := wait exit_code in
    if pid <=? 0 then panic "src/bin/forktest.rs" 26 [str "wait stopped early"] else Ret exit_code) 0 in
  let* (pid, exit_code) := wait exit_code in
  (if 0 <? pid then panic "src/bin/forktest.rs" 30 [str "wait got too many"] else Ret tt);;
  print [line "forktest pass."];;
  Ret 0.
End forktest.

(** [(time as i32 as isize) * (time as i32 as isize) % 1000] *)
Definition time_square (current_time : Z) : Z := Z.rem (as_i32 current_time * as_i32 current_time) 1000.

Module forktest2.
Definition NUM : nat := 30.
Definition main : prog Z :=
  for_ (seq 0 NUM) (fun _ =>
    let* pid := fork in
    if pid =? 0 then
      let* current_time := get_time in
      let sleep_length := time_square current_time + 1000 in
      let* pid := getpid in
      print ([str "pid "] ++ show pid ++ [str " sleep for "] ++ show sleep_length ++ [line " ms"]);;
      sleep sleep_length;;
      let* pid := getpid in
      print ([str "pid "] ++ show pid ++ [line " OK!"]);;
      exit 0
    else Ret tt);;
  let* exit_code := fold_ (seq 0 NUM) (fun exit_code _ =>
    let* (pid, exit_code) := wait exit_code in
    assert_that "src/bin/forktest2.rs" 28 "wait(&mut exit_code) > 0" (0 <? pid);;
    assert_eq "src/bin/forktest2.rs" 29 exit_code 0;;
    Ret exit_code) 0 in
  let* (pid, exit_code) := wait exit_code in
  assert_that "src/bin/forktest2.rs" 31 "wait(&mut exit_code) < 0" (pid <? 0);;
  print [line "forktest2 test passed!"];;
  Ret 0.
End forktest2.

Module forktest_simple.
Definition main : prog Z :=
  let* (r, _) := wait 0 in
  assert_eq "src/bin/forktest_simple.rs" 11 r (-1);;
  print [line "sys_wait without child process test passed!"];;
  let* me := getpid in
  print ([str "parent start, pid = "] ++ show me ++ [line "!"]);;
  let* pid := fork in
  if pid =? 0 then
    print [line "hello child process!"];;
    Ret 100
  else
    print [line "ready waiting on parent process!"];;
    let* (r, exit_code) := wait 0 in
    assert_eq "src/bin/forktest_simple.rs" 23 pid r;;
    assert_eq "src/bin/forktest_simple.rs" 24 exit_code 100;;
    print ([str "child process pid = "] ++ show pid ++ [str ", exit code = "] ++ show exit_code ++ [[Byte.x0a]]);;
    Ret 0.
End forktest_simple.

Module exit.
Definition MAGIC : Z := -0x10384.
Definition main : prog Z :=
  print [line "I am the parent. Forking the child..."];;
  let* pid := fork in
  (if pid =? 0 then
     print [line "I am the child."];;
     for_ (seq 0 7) (fun _ => yield_;; Ret tt);;
     User.exit MAGIC
   else
     print ([str "I am parent, fork a child pid "] ++ show pid ++ [[Byte.x0a]]));;
  print [line "I am the parent, waiting now.."];;
  let* (r, xstate) := waitpid pid 0 in
  assert_that "src/bin/exit.rs" 25 "waitpid(pid as usize, &mut xstate) == pid && xstate == MAGIC" ((r =? pid) && (xstate =? MAGIC));;
  let* (r, xstate) := waitpid pid xstate in
  (if r <? 0 then
     let* (r, _) := wait xstate in
     assert_that "src/bin/exit.rs" 26 "waitpid(pid as usize, &mut xstate) < 0 && wait(&mut xstate) <= 0" (r <=? 0)
   else assert_that "src/bin/exit.rs" 26 "waitpid(pid as usize, &mut xstate) < 0 && wait(&mut xstate) <= 0" false);;
  print ([str "waitpid "] ++ show pid ++ [line " ok."]);;
  print [line "exit pass."];;
  Ret 0.
End exit.

Module forktree.
Definition DEPTH : nat := 4.

(** [fork_tree] and [fork_child]: [fuel] bounds the depth, which [DEPTH] bounds. *)
Fixpoint fork_tree (fuel : nat) (cur : list byte) : prog unit :=
  let fork_child (branch : byte) : prog unit :=
    if (DEPTH <=? length cur)%nat then Ret tt else
    let next := cur ++ [branch] in
    let* pid := fork in
    if pid =? 0 then
      match fuel with O => Ret tt | S fuel => fork_tree fuel next end;;
      yield_;;
      User.exit 0
    else Ret tt in
  let* pid := getpid in
  print ([str "pid"] ++ show pid ++ [str ": "; cur; [Byte.x0a]]);;
  fork_child Byte.x30;;
  fork_child Byte.x31.

Definition main : prog Z :=
  fork_tree DEPTH [];;
  sleep 3000;;
  Ret 0.
End forktree.

Module hello_world.
Definition main : prog Z := print [line "Hello world from user mode program!"];; Ret 0.
End hello_world.

Module yield.
Definition main : prog Z :=
  let* pid := getpid in
  print ([str "Hello, I am process "] ++ show pid ++ [line "."]);;
  for_ (seq 0 5) (fun i =>
    yield_;;
    let* pid := getpid in
    print ([str "Back in process "] ++ show pid ++ [str ", iteration "] ++ show (Z.of_nat i) ++ [line "."]));;
  print [line "yield pass."];;
  Ret 0.
End yield.

Module sleep.
Definition sleepy {R} : prog R :=
  let time := 100 in
  for_ (seq 0 5) (fun i =>
    User.sleep time;;
    print ([str "sleep "] ++ show (Z.of_nat i + 1) ++ [str " x "] ++ show time ++ [line " msecs."]));;
  User.exit 0.

Definition main : prog Z :=
  let* current_time := get_time in
  let* pid := fork in
  (if pid =? 0 then sleepy else Ret tt);;
  let* (r, exit_code) := waitpid pid 0 in
  assert_that "src/bin/sleep.rs" 26 "waitpid(pid as usize, &mut exit_code) == pid && exit_code == 0" ((r =? pid) && (exit_code =? 0));;
  let* now := get_time in
  print ([str "use "] ++ show (as_isize (w64 (now - current_time))) ++ [line " msecs."]);;
  print [line "sleep pass."];;
  Ret 0.
End sleep.

Module sleep_simple.
Definition main : prog Z :=
  print [line "into sleep test!"];;
  let* start := get_time in
  print ([str "current time_msec = "] ++ show start ++ [[Byte.x0a]]);;
  User.sleep 100;;
  let* end_ := get_time in
  print ([str "time_msec = "] ++ show end_ ++ [str " after sleeping 100 ticks, delta = "] ++ show (as_isize (w64 (end_ - start))) ++ [line "ms!"]);;
  print [line "r_sleep passed!"];;
  Ret 0.
End sleep_simple.

Module matrix.
Definition NUM : nat := 30.
Definition N : nat := 10.
Definition P : Z := 10007.
Abbreviation Arr := (list (list Z)).

Definition at2 (a : Arr) (i j : nat) : Z := default 0 ((default [] (a !! i)) !! j).
Definition tabulate (f : nat -> nat -> Z) : Arr := (fun i => f i <$> seq 0 N) <$> seq 0 N.

(** One entry of the product, in 32-bit arithmetic. *)
Definition entry (a b : Arr) (i j : nat) : Z :=
  foldl (fun c k => Z.rem (as_i32 (c + as_i32 (at2 a i k * at2 b k j))) P) 0 (seq 0 N).

(** The matrices a and b after one round. *)
Definition round (ab : Arr * Arr) : Arr * Arr :=
  let c := tabulate (entry ab.1 ab.2) in (c, c).

Definition rounds (times : Z) : Arr * Arr :=
  let ones := tabulate (fun _ _ => 1) in Nat.iter (Z.to_nat times) round (ones, ones).

(** The matrices are not looked at. *)
Definition work {R} (times : Z) : prog R :=
  yield_;;
  let* pid := getpid in
  print ([str "pid "] ++ show pid ++ [str " is running ("] ++ show times ++ [line " times)!."]);;
  let* _ := Ret (rounds times) in
  let* pid := getpid in
  print ([str "pid "] ++ show pid ++ [line " done!."]);;
  User.exit 0.

Definition main : prog Z :=
  for_ (seq 0 NUM) (fun _ =>
    let* pid := fork in
    if pid =? 0 then
      let* current_time := get_time in
      work (time_square current_time * 10)
    else Ret tt);;
  print [line "fork ok."];;
  let* exit_code := fold_ (seq 0 NUM) (fun exit_code _ =>
    let* (pid, exit_code) := wait exit_code in
    if pid <? 0 then panic "src/bin/matrix.rs" 63 [str "wait failed."] else Ret exit_code) 0 in
  let* (pid, exit_code) := wait exit_code in
  assert_that "src/bin/matrix.rs" 66 "wait(&mut exit_code) < 0" (pid <? 0);;
  print [line "matrix passed."];;
  Ret 0.
End matrix.

Module fantastic_text.
Definition ESC (s : string) : list byte := [Byte.x1b] ++ str s.
Definition color_text (text : list byte) (color : Z) : list (list byte) := [ESC "["] ++ show color ++ [str "m"; text; ESC "[0m"].

Definition letters : list (list (list byte)) :=
  [color_text (str "H") 31; color_text (str "e") 32; color_text (str "l") 33; color_text (str "l") 34; color_text (str "o") 35; [str " "];
   color_text (str "R") 36; color_text (str "u") 37; color_text (str "s") 90; color_text (str "t") 91; [str " "];
   color_text (str "u") 92; color_text (str "C") 93; color_text (str "o") 94; color_text (str "r") 95; color_text (str "e") 96; color_text (str "!") 97].

Definition text : list byte :=
  str "reguler " ++ ESC "[4munderline" ++ ESC "[24m " ++ ESC "[7mreverse" ++ ESC "[27m " ++ ESC "[9mstrikethrough" ++ ESC "[29m".

Definition main : prog Z :=
  print (concat letters ++ [[Byte.x0a]]);;
  print ([ESC "[47m"] ++ color_text text 30 ++ [ESC "[0m" ++ [Byte.x0a]]);;
  for_ (seq 31 7) (fun i => print (color_text text (Z.of_nat i) ++ [[Byte.x0a]]));;
  for_ (seq 90 8) (fun i => print (color_text text (Z.of_nat i) ++ [[Byte.x0a]]));;
  Ret 0.
End fantastic_text.

(** [core::str::from_utf8(&buf[..size]).unwrap()], for a size that was an [isize]. *)
Definition text (file : string) (at_line : Z) (buf : list byte) (size : Z) : prog (list byte) :=
  if zlen buf <? w64 size then panic file at_line ([str "range end index "] ++ show (w64 size) ++ [str " out of range for slice of length "] ++ show (zlen buf))
  else
    let s := take (Z.to_nat (w64 size)) buf in
    if utf8_valid s then Ret s else panic file at_line [str "called `Result::unwrap()` on an `Err` value"].

(** What a read leaves in a buffer. *)
Definition fill (buf data : list byte) : list byte := data ++ drop (length data) buf.

Module filetest_simple.
Definition test_str : list byte := str "Hello, world!".
Definition filea : list byte := cstr "filea".

Definition main : prog Z :=
  let* fd := open filea (Z.lor OpenFlags.CREATE OpenFlags.WRONLY) in
  assert_that "src/bin/filetest_simple.rs" 14 "fd > 0" (0 <? fd);;
  let fd := w64 fd in
  write fd test_str;;
  close fd;;
  let* fd := open filea OpenFlags.RDONLY in
  assert_that "src/bin/filetest_simple.rs" 20 "fd > 0" (0 <? fd);;
  let fd := w64 fd in
  let* (read_len, data) := read fd 100 in
  let buffer := fill (replicate 100 Byte.x00) data in
  close fd;;
  let* s := text "src/bin/filetest_simple.rs" 26 buffer read_len in
  (if bool_decide (test_str = s) then Ret tt
   else panic "src/bin/filetest_simple.rs" 26 [line "assertion failed: `(left == right)`" ++ str "  left: `"; test_str; line "`," ++ str " right: `"; s; str "`"]);;
  print [line "file_test passed!"];;
  Ret 0.
End filetest_simple.

Module cat_filea.
Definition body (fd : Z) (buf : list byte) : prog (list byte + unit) :=
  let* (size, data) := read fd 256 in
  let buf := fill buf data in
  if w64 size =? 0 then Ret (inr tt)
  else
    let* s := text "src/bin/cat_filea.rs" 23 buf size in
    print [s; [Byte.x0a]];;
    Ret (inl buf).

Definition main : prog Z :=
  let* fd := open (cstr "filea") OpenFlags.RDONLY in
  (if fd =? -1 then panic "src/bin/cat_filea.rs" 14 [str "Error occured when opening file"] else Ret tt);;
  let fd := w64 fd in
  ITree.iter (body fd) (replicate 256 Byte.x00);;
  close fd;;
  Ret 0.
End cat_filea.

Module huge_write.
Definition buffer : list byte := (fun i => byte.of_Z (w8 (Z.of_nat i))) <$> seq 0 1024.
Definition size_mb : Z := 1.

Definition main : prog Z :=
  let* f := open (cstr "testf") (Z.lor OpenFlags.CREATE OpenFlags.WRONLY) in
  (if f <? 0 then panic "src/bin/huge_write.rs" 17 [str "Open test file failed!"] else Ret tt);;
  let f := w64 f in
  let* start := get_time in
  for_ (seq 0 (Z.to_nat (1024 * size_mb))) (fun _ => write f buffer;; Ret tt);;
  close f;;
  let* now := get_time in
  let time_ms := w64 (now - start) in
  let* speed_kbs := if time_ms =? 0 then panic "src/bin/huge_write.rs" 27 [str "attempt to divide by zero"] else Ret (size_mb * 1000000 / time_ms) in
  print (show size_mb ++ [str "MiB written, time cost = "] ++ show time_ms ++ [str "ms, write speed = "] ++ show speed_kbs ++ [line "KiB/s"]);;
  Ret 0.
End huge_write.

(** The stack that [f] uses up is not modelled: it recurs until a fault ends it. *)
Module stack_overflow.
Definition f (depth : Z) : prog Z :=
  ITree.iter (fun depth =>
    (if depth mod 10 =? 0 then print ([str "depth = "] ++ show depth ++ [[Byte.x0a]]) else Ret tt);;
    Ret (inl (w64 (depth + 1)))) depth.

Definition main : prog Z :=
  print [line "It should trigger segmentation fault!"];;
  f 0;;
  Ret 0.
End stack_overflow.

(** A test is run by a child; the arguments [argv] of the table are not passed on. *)
Module usertests_simple.
Definition TESTS : list (list byte) := cstr <$>
  ["exit"; "fantastic_text"; "forktest"; "forktest2"; "forktest_simple"; "hello_world"; "matrix"; "sleep"; "sleep_simple"; "stack_overflow"; "yield"]%string.

Definition main : prog Z :=
  for_ TESTS (fun test =>
    print [str "Usertests: Running "; test; [Byte.x0a]];;
    let* pid := fork in
    if pid =? 0 then
      exec test;;
      panic "src/bin/usertests_simple.rs" 30 [str "unreachable!"]
    else
      let* (wait_pid, exit_code) := waitpid pid 0 in
      assert_eq "src/bin/usertests_simple.rs" 34 pid wait_pid;;
      print ([[Byte.x1b] ++ str "[32mUsertests: Test "; test; str " in Process "] ++ show pid ++ [str " exited with code "] ++ show exit_code ++ [[Byte.x1b] ++ line "[0m"]));;
  print [line "Usertests passed!"];;
  Ret 0.
End usertests_simple.

Module usertests.
Definition SUCC_TESTS : list (list byte * Z) := (fun t => (cstr t, 0)) <$>
  ["filetest_simple"; "cat_filea"; "exit"; "fantastic_text"; "forktest_simple"; "forktest"; "forktest2"; "forktree"; "hello_world"; "huge_write"; "matrix"; "sleep_simple"; "sleep"; "yield"]%string.
Definition FAIL_TESTS : list (list byte * Z) := [(cstr "stack_overflow", -2)].

Definition run_tests (tests : list (list byte * Z)) : prog Z :=
  fold_ tests (fun pass_num test =>
    print [str "Usertests: Running "; test.1; [Byte.x0a]];;
    let* pid := fork in
    if pid =? 0 then
      exec test.1;;
      panic "src/bin/usertests.rs" 69 [str "unreachable!"]
    else
      let* (wait_pid, exit_code) := waitpid pid 0 in
      assert_eq "src/bin/usertests.rs" 73 pid wait_pid;;
      let pass_num := if exit_code =? test.2 then as_i32 (pass_num + 1) else pass_num in
      print ([[Byte.x1b] ++ str "[32mUsertests: Test "; test.1; str " in Process "] ++ show pid ++ [str " exited with code "] ++ show exit_code ++ [[Byte.x1b] ++ line "[0m"]);;
      Ret pass_num) 0.

Definition main : prog Z :=
  let* succ_num := run_tests SUCC_TESTS in
  let* err_num := run_tests FAIL_TESTS in
  let succ_len := zlen SUCC_TESTS in
  let fail_len := zlen FAIL_TESTS in
  if (succ_num =? succ_len) && (err_num =? fail_len) then
    print (show succ_len ++ [str " of sueecssed apps, "] ++ show fail_len ++ [line " of failed apps run correctly. " ++ line "Usertests passed!"]);;
    Ret 0
  else
    (if negb (succ_num =? succ_len) then print ([str "all successed app_num is  "] ++ show succ_len ++ [str " , but only  passed "] ++ show succ_num ++ [[Byte.x0a]]) else Ret tt);;
    (if negb (err_num =? fail_len) then print ([str "all failed app_num is  "] ++ show fail_len ++ [str " , but only  passed "] ++ show err_num ++ [[Byte.x0a]]) else Ret tt);;
    print [line " Usertests failed!"];;
    Ret (-1).
End usertests.
