(* ===== verification/Unix.v ===== *)
(** * User programs on the abstract process manager

    A system is a table of processes and the program of each.  The running
    process makes a call, or is preempted; the scheduler dispatches the next one.
    What the calls on files and the clock return is left open. *)

From ITree Require Import Core.ITreeDefinition.
From S2P Require Import Prelude Proc Address Syscall User.

Record usys := mkUsys { utab : table; uprog : gmap Z (prog Empty_set) }.

Section System.
(** The programs of the file system. *)
Variable images : list byte -> option (prog Z).

Definition set_uprog (U : usys) (p : Z) (t : prog Empty_set) : usys := mkUsys (utab U) (<[p := t]> (uprog U)).
Definition set_utab (U : usys) (T : table) : usys := mkUsys T (uprog U).

(** What [sys_waitpid] returns and stores. *)
Definition wait_result (r : reply) : Z * option Z :=
  match r with NoChild => (-1, None) | NotYet => (-2, None) | Reaped c code => (c, Some code) end.

(** The process [p] makes the call [e] and continues with [k]; the events are
    those of the table. *)
Definition ucall {R} (e : sysE R) : (R -> prog Empty_set) -> Z -> usys -> list event -> usys -> Prop :=
  match e in sysE R return (R -> prog Empty_set) -> Z -> usys -> list event -> usys -> Prop with
  | SysExit code => fun _ p U es U' => p <> INIT /\ es = [Exits p code] /\ U' = mkUsys (t_exit p code (utab U)) (delete p (uprog U))
  | SysYield => fun k p U es U' => es = [Yields p] /\ U' = set_utab (set_uprog U p (k 0)) (t_yield p (utab U))
  | SysFork => fun k p U es U' => exists c, 0 < c < 2 ^ 63 /\ procs (utab U) !! c = None /\ es = [Forks p c] /\
      U' = mkUsys (t_fork p c (utab U)) (<[p := k c]> (<[c := k 0]> (uprog U)))
  | SysWaitpid w => fun k p U es U' => exists r T, t_wait p w (utab U) = (r, T) /\ es = [Waits p w r] /\ U' = set_utab (set_uprog U p (k (wait_result r))) T
  | SysGetPid => fun k p U es U' => es = [] /\ U' = set_uprog U p (k p)
  | SysExec path => fun k p U es U' => es = [] /\ U' = set_uprog U p (match images path with Some main => start main | None => k (-1) end)
  | SysGetTime => fun k p U es U' => es = [] /\ exists r, U' = set_uprog U p (k r)
  | SysOpen _ _ | SysClose _ | SysWrite _ _ => fun k p U es U' => es = [] /\ exists r, U' = set_uprog U p (k r)
  | SysRead _ _ => fun k p U es U' => es = [] /\ exists r, U' = set_uprog U p (k r)
  end.

Definition uact (t : prog Empty_set) (p : Z) (U : usys) (es : list event) (U' : usys) : Prop :=
  match observe t with
  | RetF r => match r with end
  | TauF t => es = [] /\ U' = set_uprog U p t
  | VisF e k => ucall e k p U es U'
  end.

Inductive ustep : usys -> list event -> usys -> Prop :=
  | u_act U p t es U' : current (utab U) = Some p -> uprog U !! p = Some t -> uact t p U es U' -> ustep U es U'
  | u_preempt U p : current (utab U) = Some p -> ustep U [Yields p] (set_utab U (t_yield p (utab U)))
  | u_dispatch U p q : current (utab U) = None -> ready (utab U) = p :: q -> ustep U [Dispatches p] (set_utab U (t_dispatch p q (utab U))).

Inductive usteps : usys -> list event -> usys -> Prop :=
  | usteps_nil U : usteps U [] U
  | usteps_cons U es U' es' U'' : ustep U es U' -> usteps U' es' U'' -> usteps U (es ++ es') U''.

(** The table moves as its specification says: what holds of the kernel's runs
    holds of these. *)
Lemma ustep_table U es U' : ustep U es U' -> tsteps (utab U) es (utab U').
Proof.
  intros [V p t fs V' Hc Hp Ha|V p Hc|V p q Hc Hq]; [|apply tsteps_one; by constructor..]. unfold uact in Ha. destruct (observe t) as [[]|t'|X e k]; [by destruct Ha as [-> ->]; constructor|].
  destruct e; cbn in Ha; try (by destruct Ha as [-> [r ->]]; constructor); try (by destruct Ha as [-> ->]; constructor).
  - destruct Ha as (Hne & -> & ->). apply tsteps_one. by constructor.
  - destruct Ha as [-> ->]. apply tsteps_one. by constructor.
  - destruct Ha as (c & _ & Hf & -> & ->). apply tsteps_one. by constructor.
  - destruct Ha as (r & T & E & -> & ->). apply tsteps_one. by constructor.
Qed.

(** ** Round robin *)

(** One way to run a system: no preemption, the next pid for a child, a clock and
    what is typed. *)
Definition next_pid (T : table) : Z := 1 + map_fold (fun p _ a => Z.max p a) 0 (procs T).

Definition uanswer {R} (now : Z) (typed : list byte) (e : sysE R) : (R -> prog Empty_set) -> Z -> usys -> option (list event * usys) :=
  match e in sysE R return (R -> prog Empty_set) -> Z -> usys -> option (list event * usys) with
  | SysExit code => fun _ p U => if p =? INIT then None else Some ([Exits p code], mkUsys (t_exit p code (utab U)) (delete p (uprog U)))
  | SysYield => fun k p U => Some ([Yields p], set_utab (set_uprog U p (k 0)) (t_yield p (utab U)))
  | SysFork => fun k p U => let c := next_pid (utab U) in
      if decide (0 < c < 2 ^ 63 /\ procs (utab U) !! c = None) then Some ([Forks p c], mkUsys (t_fork p c (utab U)) (<[p := k c]> (<[c := k 0]> (uprog U)))) else None
  | SysWaitpid w => fun k p U => let (r, T) := t_wait p w (utab U) in Some ([Waits p w r], set_utab (set_uprog U p (k (wait_result r))) T)
  | SysGetPid => fun k p U => Some ([], set_uprog U p (k p))
  | SysExec path => fun k p U => Some ([], set_uprog U p (match images path with Some main => start main | None => k (-1) end))
  | SysGetTime => fun k p U => Some ([], set_uprog U p (k now))
  | SysOpen _ _ | SysClose _ => fun k p U => Some ([], set_uprog U p (k (-1)))
  | SysWrite _ buffer => fun k p U => Some ([], set_uprog U p (k (zlen buffer)))
  | SysRead _ _ => fun k p U => match typed with [] => None | c :: _ => Some ([], set_uprog U p (k (1, [c]))) end
  end.

Definition unext (now : Z) (typed : list byte) (U : usys) : option (list event * usys) :=
  match current (utab U), ready (utab U) with
  | None, p :: q => Some ([Dispatches p], set_utab U (t_dispatch p q (utab U)))
  | None, [] => None
  | Some p, _ =>
      match uprog U !! p with
      | None => None
      | Some t =>
          match observe t with
          | RetF r => match r : Empty_set with end
          | TauF t => Some ([], set_uprog U p t)
          | VisF e k => uanswer now typed e k p U
          end
      end
  end.

(** The next step reads what is typed. *)
Definition is_read {R} (e : sysE R) : bool := match e with SysRead _ _ => true | _ => false end.

Definition reads_key (U : usys) : bool :=
  match current (utab U) with
  | Some p => match (uprog U !! p : option (prog Empty_set)) with Some t => match observe t with RetF _ | TauF _ => false | VisF e _ => is_read e end | None => false end
  | None => false
  end.

(** [fuel] steps, half a second each. *)
Fixpoint urun (fuel : nat) (now : Z) (typed : list byte) (U : usys) : list event * usys :=
  match fuel with
  | O => ([], U)
  | S fuel =>
      match unext now typed U with
      | Some (es, U') => let (es', U'') := urun fuel (now + 500) (if reads_key U then tail typed else typed) U' in (es ++ es', U'')
      | None => ([], U)
      end
  end.

Lemma unext_step now typed U es U' : unext now typed U = Some (es, U') -> ustep U es U'.
Proof.
  unfold unext. destruct (current (utab U)) as [p|] eqn:Hc; [|destruct (ready (utab U)) as [|p q] eqn:Hq; [done|intros [= <- <-]; by apply u_dispatch]].
  destruct (uprog U !! p) as [t|] eqn:Hp; [|done]. intros E. apply (u_act U p t); [done|done|]. unfold uact. destruct (observe t) as [[]|u|X e k]; [by injection E as <- <-|].
  destruct e; cbn in E |- *; try (injection E as <- <-; by eauto); try (destruct typed; [done|injection E as <- <-; by eauto]).
  - destruct (Z.eqb_spec p INIT); [done|]. by injection E as <- <-.
  - case_decide as H; [|done]. injection E as <- <-. eexists. split_and!; [apply H|apply H|apply H|done|done].
  - destruct (t_wait p pid (utab U)) as [r T]. injection E as <- <-. by eexists _, _.
Qed.

Lemma urun_steps fuel : forall now typed U, usteps U (urun fuel now typed U).1 (urun fuel now typed U).2.
Proof.
  induction fuel as [|fuel IH]; intros now typed U; cbn [urun]; [constructor|]. destruct (unext now typed U) as [[es U']|] eqn:E; [|constructor].
  set (rest := if reads_key U then tail typed else typed). specialize (IH (now + 500) rest U'). destruct (urun fuel (now + 500) rest U') as [es' U'']. cbn in *. by eapply usteps_cons; [eapply unext_step|].
Qed.

End System.
