(* ===== verification/UserLogic.v ===== *)
(** * A logic for user programs

    [wp Γ t Φ]: a process that runs [t], has made the promise and has the
    children of [Γ], keeps its promise (its exit code satisfies it), whatever the
    others do, and satisfies [Φ] when [t] returns.  Each child comes with the
    promise it was forked with.  The logic is sound for the system of [Unix]:
    under every interleaving a process whose program is verified exits, if it
    does, as it promised. *)

From ITree Require Import Core.ITreeDefinition.
From S2P Require Import Prelude Proc Address Syscall User Unix.

Abbreviation codes := (Z -> Prop).
Record ghost := mkGhost { promise : codes; kids : list (Z * codes) }.

(** The children without one that has been reaped. *)
Definition drop_kid (c : Z) (ks : list (Z * codes)) : list (Z * codes) := filter (fun x => x.1 <> c) ks.
Definition reaped (Γ : ghost) (c : Z) : ghost := mkGhost (promise Γ) (drop_kid c (kids Γ)).
Definition forked (Γ : ghost) (c : Z) (Q : codes) : ghost := mkGhost (promise Γ) (kids Γ ++ [(c, Q)]).

Section Logic.
Variable images : list byte -> option (prog Z).

(** What a call needs, when [I] must hold afterwards. *)
Definition wcall {R X} (e : sysE X) (I : ghost -> prog R -> Prop) : (X -> prog R) -> ghost -> Prop :=
  match e in sysE X return (X -> prog R) -> ghost -> Prop with
  | SysExit code => fun _ Γ => promise Γ code
  | SysYield => fun k Γ => I Γ (k 0)
  | SysFork => fun k Γ => exists Q, (forall c, 0 < c < 2 ^ 63 -> c ∉ (kids Γ).*1 -> I (forked Γ c Q) (k c)) /\ I (mkGhost Q []) (k 0)
  | SysWaitpid w => fun k Γ =>
      if existsb (waits_for w) (kids Γ).*1 then
        I Γ (k (-2, None)) /\ forall c Q code, (c, Q) ∈ kids Γ -> waits_for w c = true -> 0 < c < 2 ^ 63 -> Q code -> I (reaped Γ c) (k (c, Some code))
      else I Γ (k (-1, None))
  | SysGetPid => fun k Γ => forall p, I Γ (k p)
  | SysExec path => fun k Γ => I Γ (k (-1)) /\ (is_Some (images path) -> forall code, promise Γ code)
  | SysGetTime => fun k Γ => forall r, I Γ (k r)
  | SysOpen _ _ | SysClose _ | SysWrite _ _ => fun k Γ => forall r, I Γ (k r)
  | SysRead _ _ => fun k Γ => forall r, I Γ (k r)
  end.

Definition wpF {R} (Φ : ghost -> R -> Prop) (I : ghost -> prog R -> Prop) (Γ : ghost) (t : prog R) : Prop :=
  match observe t with
  | RetF r => Φ Γ r
  | TauF t => I Γ t
  | VisF e k => wcall e I k Γ
  end.

(** The greatest invariant: programs may run for ever. *)
Definition wp {R} (Γ : ghost) (t : prog R) (Φ : ghost -> R -> Prop) : Prop :=
  exists I, (forall Γ t, I Γ t -> wpF Φ I Γ t) /\ I Γ t.

Lemma wcall_map {R R' X} (e : sysE X) (I : ghost -> prog R -> Prop) (J : ghost -> prog R' -> Prop) k k' Γ :
  (forall Γ x, I Γ (k x) -> J Γ (k' x)) -> wcall e I k Γ -> wcall e J k' Γ.
Proof.
  intros HIJ. destruct e; cbn; try (by auto).
  - intros (Q & Hp & Hc). exists Q. split; [|by apply HIJ]. intros c Hc0 Hn. by apply HIJ, Hp.
  - intros [? ?]. split; [by apply HIJ|done].
  - case_match; [|by apply HIJ]. intros [Hy Hr]. split; [by apply HIJ|]. intros c Q code H1 H2 H3 H4. by eapply HIJ, Hr.
Qed.

Lemma wpF_mono {R} Φ (I J : ghost -> prog R -> Prop) Γ t : (forall Γ t, I Γ t -> J Γ t) -> wpF Φ I Γ t -> wpF Φ J Γ t.
Proof. intros HIJ. unfold wpF. destruct (observe t); [done|apply HIJ|]. apply wcall_map. auto. Qed.

Lemma wp_unfold {R} Γ (t : prog R) Φ : wp Γ t Φ -> wpF Φ (fun Γ t => wp Γ t Φ) Γ t.
Proof. intros (I & Hc & HI). eapply wpF_mono; [|by apply Hc]. intros Δ u Hu. by exists I. Qed.

(** Coinduction, up to what is known. *)
Lemma wp_coind {R} (Φ : ghost -> R -> Prop) (J : ghost -> prog R -> Prop) :
  (forall Γ t, J Γ t -> wpF Φ (fun Γ t => J Γ t \/ wp Γ t Φ) Γ t) -> forall Γ t, J Γ t -> wp Γ t Φ.
Proof.
  intros HJ Γ t Ht. exists (fun Γ t => J Γ t \/ wp Γ t Φ). split; [|by left]. intros Δ u [Hu|Hu]; [by apply HJ|].
  eapply wpF_mono; [|by apply wp_unfold]. auto.
Qed.

Lemma wp_fold {R} Γ (t : prog R) Φ : wpF Φ (fun Γ t => wp Γ t Φ) Γ t -> wp Γ t Φ.
Proof.
  intros H. apply (wp_coind Φ (fun Δ u => wpF Φ (fun Γ t => wp Γ t Φ) Δ u)); [|done]. intros Δ u Hu. eapply wpF_mono; [|exact Hu]. auto.
Qed.

(** ** Rules *)
Lemma wp_ret {R} Γ (r : R) (Φ : ghost -> R -> Prop) : Φ Γ r -> wp Γ (Ret r) Φ.
Proof. intros H. by apply wp_fold. Qed.

Lemma wp_call {R} (e : sysE R) Γ (Φ : ghost -> R -> Prop) : wcall e (fun Γ t => wp Γ t Φ) (fun r => Ret r) Γ -> wp Γ (call e) Φ.
Proof. intros H. by apply wp_fold. Qed.

Lemma wp_exit {R} code Γ (Φ : ghost -> R -> Prop) : promise Γ code -> wp Γ (exit code) Φ.
Proof. intros H. by apply wp_fold. Qed.

Lemma wp_mono {R} Γ (t : prog R) (Φ Ψ : ghost -> R -> Prop) : wp Γ t Φ -> (forall Γ r, Φ Γ r -> Ψ Γ r) -> wp Γ t Ψ.
Proof.
  intros H HΦ. apply (wp_coind Ψ (fun Δ u => wp Δ u Φ)); [|done]. intros Δ u Hu%wp_unfold. unfold wpF in *. destruct (observe u); [by apply HΦ|by left|].
  eapply wcall_map; [|exact Hu]. auto.
Qed.

Lemma observe_bind {R X} (t : prog X) (k : X -> prog R) : observe (ITree.bind t k) =
  match observe t with RetF r => observe (k r) | TauF t => TauF (ITree.bind t k) | VisF e h => VisF e (fun x => ITree.bind (h x) k) end.
Proof. unfold observe. cbn. unfold observe. by destruct (_observe t). Qed.

Lemma wp_bind {R X} Γ (t : prog X) (k : X -> prog R) Φ : wp Γ t (fun Γ x => wp Γ (k x) Φ) -> wp Γ (ITree.bind t k) Φ.
Proof.
  intros H. apply (wp_coind Φ (fun Δ u => exists v, u = ITree.bind v k /\ wp Δ v (fun Γ x => wp Γ (k x) Φ))); [|by exists t].
  intros Δ u (v & -> & Hv%wp_unfold). unfold wpF in Hv |- *. rewrite observe_bind. destruct (observe v) as [r|v'|Y e h].
  - apply wp_unfold in Hv. unfold wpF in Hv. destruct (observe (k r)); [done|by right|]. eapply wcall_map; [|exact Hv]. auto.
  - left. by exists v'.
  - eapply wcall_map; [|exact Hv]. intros Θ x Hx. left. by exists (h x).
Qed.

(** A loop with an invariant. *)
Lemma wp_iter {R A} (body : A -> prog (A + R)) (Inv : ghost -> A -> Prop) Φ :
  (forall Γ a, Inv Γ a -> wp Γ (body a) (fun Γ r => match r with inl a => Inv Γ a | inr r => Φ Γ r end)) ->
  forall Γ a, Inv Γ a -> wp Γ (ITree.iter body a) Φ.
Proof.
  intros Hb Γ a Ha. set (k := fun lr : A + R => match lr with inl l => Tau (ITree.iter body l) | inr r => Ret r end).
  set (J := fun Δ (u : prog R) => exists v, observe u = observe (ITree.bind v k) /\ wp Δ v (fun Γ r => match r with inl a => Inv Γ a | inr r => Φ Γ r end)).
  assert (HJ : forall Δ a, Inv Δ a -> J Δ (ITree.iter body a)) by (intros Δ b Hi; exists (body b); split; [reflexivity|by apply Hb]).
  apply (wp_coind Φ J); [|by apply HJ]. intros Δ u (v & E & Hv%wp_unfold). unfold wpF in *. rewrite E, observe_bind. destruct (observe v) as [[b|r]|v'|Y e h]; cbn.
  - left. by apply HJ.
  - done.
  - left. by exists v'.
  - eapply wcall_map; [|exact Hv]. intros Θ x Hx. left. by exists (h x).
Qed.

(** ** The library *)
Lemma wp_for {A} (l : list A) (body : A -> prog unit) (Inv : nat -> ghost -> Prop) Φ :
  (forall n x Γ, l !! n = Some x -> Inv n Γ -> wp Γ (body x) (fun Γ _ => Inv (S n) Γ)) -> (forall Γ, Inv (length l) Γ -> Φ Γ tt) ->
  forall Γ, Inv O Γ -> wp Γ (for_ l body) Φ.
Proof.
  revert Inv. induction l as [|x l IH]; intros Inv Hb HΦ Γ H0; cbn [for_]; [by apply wp_ret, HΦ|].
  apply wp_bind. eapply wp_mono; [by apply (Hb O x)|]. intros Δ [] H1. apply (IH (fun n => Inv (S n))); [|done|done]. intros n y Θ Hy. by apply (Hb (S n)).
Qed.

Lemma wp_fold_ {A B} (l : list A) (body : B -> A -> prog B) (Inv : nat -> ghost -> B -> Prop) Φ :
  (forall n x Γ b, l !! n = Some x -> Inv n Γ b -> wp Γ (body b x) (fun Γ b => Inv (S n) Γ b)) -> (forall Γ b, Inv (length l) Γ b -> Φ Γ b) ->
  forall Γ b, Inv O Γ b -> wp Γ (fold_ l body b) Φ.
Proof.
  revert Inv. induction l as [|x l IH]; intros Inv Hb HΦ Γ b H0; cbn [fold_]; [by apply wp_ret, HΦ|].
  apply wp_bind. eapply wp_mono; [by apply (Hb O x)|]. intros Δ b' H1. apply (IH (fun n => Inv (S n))); [|done|done]. intros n y Θ c Hy. by apply (Hb (S n)).
Qed.

Lemma wp_print pieces Γ (Φ : ghost -> unit -> Prop) : Φ Γ tt -> wp Γ (print pieces) Φ.
Proof.
  intros H. apply (wp_for _ _ (fun _ Δ => Δ = Γ)); [|by intros ? ->|done]. intros n x Δ _ ->. apply wp_bind, wp_call. intros r. by apply wp_ret, wp_ret.
Qed.

Lemma wp_yield Γ (Φ : ghost -> Z -> Prop) : Φ Γ 0 -> wp Γ yield_ Φ.
Proof. intros H. by apply wp_call, wp_ret. Qed.

Lemma wp_getpid Γ (Φ : ghost -> Z -> Prop) : (forall p, Φ Γ p) -> wp Γ getpid Φ.
Proof. intros H. apply wp_call. intros p. by apply wp_ret. Qed.

Lemma wp_get_time Γ (Φ : ghost -> Z -> Prop) : (forall r, Φ Γ r) -> wp Γ get_time Φ.
Proof. intros H. apply wp_call. intros p. by apply wp_ret. Qed.

Lemma wp_sleep period Γ (Φ : ghost -> unit -> Prop) : Φ Γ tt -> wp Γ (sleep period) Φ.
Proof.
  intros H. apply wp_bind, wp_call. intros t0. apply wp_ret, (wp_iter _ (fun Δ _ => Δ = Γ)); [|done]. intros Δ [] ->.
  apply wp_bind, wp_call. intros now. apply wp_ret. case_match; [|by apply wp_ret]. apply wp_bind, wp_call, wp_ret. by apply wp_ret.
Qed.

(** The parent goes on with one child more, the child with a promise of its own. *)
Lemma wp_fork Γ (Q : codes) (Φ : ghost -> Z -> Prop) :
  (forall c, 0 < c < 2 ^ 63 -> c ∉ (kids Γ).*1 -> Φ (forked Γ c Q) c) -> Φ (mkGhost Q []) 0 -> wp Γ fork Φ.
Proof. intros Hp Hc. apply wp_call. exists Q. split; [|by apply wp_ret]. intros c H1 H2. by apply wp_ret, Hp. Qed.

(** [wait] and [waitpid] return -1 when no child matches, and else a child that
    matches, with a code as it promised; never -2. *)
Lemma wp_waiting w code0 Γ (Φ : ghost -> Z * Z -> Prop) :
  (if existsb (waits_for w) (kids Γ).*1 then forall c Q code, (c, Q) ∈ kids Γ -> waits_for w c = true -> 0 < c < 2 ^ 63 -> Q code -> Φ (reaped Γ c) (c, code)
   else Φ Γ (-1, code0)) -> wp Γ (waiting w code0) Φ.
Proof.
  intros H. apply (wp_iter _ (fun Δ e => Δ = Γ /\ e = code0)); [|done]. intros Δ e [-> ->]. apply wp_bind, wp_call. cbn [wcall].
  destruct (existsb (waits_for w) (kids Γ).*1).
  - split.
    + apply wp_ret, wp_bind, wp_yield, wp_ret. done.
    + intros c Q code H1 H2 H3 H4. apply wp_ret. rewrite (proj2 (Z.eqb_neq _ _)) by lia. apply wp_ret. by eapply H.
  - by apply wp_ret, wp_ret.
Qed.

Lemma wp_panic {R} file l err Γ (Φ : ghost -> R -> Prop) : promise Γ (-1) -> wp Γ (panic file l err) Φ.
Proof. intros H. by apply wp_bind, wp_print, wp_exit. Qed.

Lemma wp_assert_that file l cond b Γ (Φ : ghost -> unit -> Prop) : b = true -> Φ Γ tt -> wp Γ (assert_that file l cond b) Φ.
Proof. intros -> H. by apply wp_ret. Qed.

Lemma wp_assert_eq file l x y Γ (Φ : ghost -> unit -> Prop) : x = y -> Φ Γ tt -> wp Γ (assert_eq file l x y) Φ.
Proof. intros -> H. unfold assert_eq. rewrite Z.eqb_refl. by apply wp_ret. Qed.

End Logic.

(** ** Soundness *)
Section Sound.
Variable images : list byte -> option (prog Z).
Implicit Types (U : usys) (Q : Z -> codes) (S : gset Z).
Abbreviation wp := (wp images).

Definition kids_of Q (cs : list Z) : list (Z * codes) := (fun c => (c, Q c)) <$> cs.

(** A process that is followed: it has kept its promise, has promised nothing, or
    runs a program that keeps it, with children that are followed. *)
Definition process_ok Q S U (p : Z) (x : proc) : Prop :=
  match p_state x with
  | Exited code => Q p code /\ uprog U !! p = None
  | Alive => (forall code, Q p code) \/
      exists t, uprog U !! p = Some t /\ wp (mkGhost (Q p) (kids_of Q (p_children x))) t (fun _ _ => False) /\
        Forall (fun c => c ∈ S /\ 0 < c < 2 ^ 63) (p_children x)
  end.

Record followed Q S U : Prop := {
  fo_init : INIT ∉ S;
  fo_tree : tree_ok (utab U);
  fo_ok p : p ∈ S -> exists x, procs (utab U) !! p = Some x /\ process_ok Q S U p x;
}.

(** What the others see of a call of [p]: nothing, but the child that it reaps. *)
Definition untouched U (q : Z) (x : proc) U' : Prop :=
  exists x', procs (utab U') !! q = Some x' /\ p_state x' = p_state x /\ p_children x' = p_children x /\ uprog U' !! q = uprog U !! q.

Definition reaps (es : list event) (q : Z) : Prop := exists p w code, Waits p w (Reaped q code) ∈ es.

Lemma set_uprog_untouched U p q x t : q <> p -> procs (utab U) !! q = Some x -> untouched U q x (set_uprog U p t).
Proof. intros Hne Hq. exists x. split_and!; [done|done|done|]. cbn. by rewrite lookup_insert_ne. Qed.

Lemma t_wait_reaped p w T c code T' : t_wait p w T = (Reaped c code, T') -> T' = t_reap p c T /\ c ∈ children_of T p /\ exit_status T c = Some code /\ waits_for w c = true.
Proof.
  unfold t_wait. destruct (existsb _ _); [|done]. destruct (find_exited _ _ _) as [[d cd]|] eqn:E; [|done]. intros [= -> -> <-].
  apply find_exited_some in E as (? & ? & ?). done.
Qed.

Lemma t_wait_other p w T r T' : t_wait p w T = (r, T') -> (forall c code, r <> Reaped c code) ->
  T' = T /\ r = if existsb (waits_for w) (children_of T p) then NotYet else NoChild.
Proof.
  unfold t_wait. destruct (existsb _ _); [|by intros [= <- <-]]. destruct (find_exited _ _ _) as [[d cd]|]; [|by intros [= <- <-]]. intros [= <- <-] Hr. by destruct (Hr d cd).
Qed.

Lemma act_untouched U p t es U' q x : uact images t p U es U' -> q <> p -> q <> INIT -> procs (utab U) !! q = Some x ->
  untouched U q x U' \/ reaps es q.
Proof.
  intros Ha Hqp Hqi Hq. unfold uact in Ha. destruct (observe t) as [[]|t'|X e k]; [left; destruct Ha as [_ ->]; by apply set_uprog_untouched|].
  destruct e; cbn in Ha; try (left; destruct Ha as [_ [r ->]]; by apply set_uprog_untouched); try (left; destruct Ha as [_ ->]; by apply set_uprog_untouched).
  - left. destruct Ha as (Hne & _ & ->). eexists. cbn [utab uprog]. rewrite t_exit_lookup, Hq, lookup_delete_ne by done. cbn. split; [done|]. rewrite !decide_False by done.
    unfold reparent. by case_decide.
  - left. destruct Ha as [_ ->]. exists x. split_and!; [done|done|done|]. cbn. by rewrite lookup_insert_ne.
  - left. destruct Ha as (c & _ & Hf & _ & ->). assert (q <> c) by congruence. exists x. cbn [utab uprog t_fork procs]. rewrite !lookup_insert_ne, lookup_alter_ne by done. done.
  - destruct Ha as (r & T & E & -> & ->). destruct r as [| |c code].
    1, 2: left; destruct (t_wait_other _ _ _ _ _ E ltac:(done)) as [-> _]; exists x; split_and!; [done|done|done|]; cbn; by rewrite lookup_insert_ne.
    destruct (t_wait_reaped _ _ _ _ _ _ E) as (-> & Hc & _). destruct (decide (q = c)) as [->|Hqc]; [right; eexists _, _, _; left|].
    left. exists x. cbn [utab uprog set_utab set_uprog]. rewrite t_reap_lookup, lookup_insert_ne, !decide_False, Hq by done. done.
Qed.

Lemma act_tree U p t es U' : tree_ok (utab U) -> uact images t p U es U' -> tree_ok (utab U').
Proof.
  intros Ht Ha. unfold uact in Ha. destruct (observe t) as [[]|t'|X e k]; [by destruct Ha as [_ ->]|].
  destruct e; cbn in Ha; try (by destruct Ha as [_ [r ->]]); try (by destruct Ha as [_ ->]).
  - destruct Ha as (Hne & _ & ->). by apply t_exit_tree.
  - destruct Ha as (c & _ & Hf & _ & ->). by apply t_fork_tree.
  - destruct Ha as (r & T & E & _ & ->). destruct r as [| |c code].
    1, 2: by destruct (t_wait_other _ _ _ _ _ E ltac:(done)) as [-> _].
    destruct (t_wait_reaped _ _ _ _ _ _ E) as (-> & Hc & _). by apply t_reap_tree.
Qed.

Lemma act_reaps U p t es U' c : uact images t p U es U' -> reaps es c -> c ∈ children_of (utab U) p.
Proof.
  intros Ha (q & w & code & Hin). unfold uact in Ha. destruct (observe t) as [[]|t'|X e k]; [destruct Ha as [-> _]; by apply not_elem_of_nil in Hin|].
  destruct e; cbn in Ha; try (by destruct Ha as [-> _]; apply not_elem_of_nil in Hin).
  - destruct Ha as (_ & -> & _). by apply list_elem_of_singleton in Hin.
  - destruct Ha as [-> _]. by apply list_elem_of_singleton in Hin.
  - destruct Ha as (d & _ & _ & -> & _). by apply list_elem_of_singleton in Hin.
  - destruct Ha as (r & T & E & -> & _). apply list_elem_of_singleton in Hin as [= <- <- <-]. by destruct (t_wait_reaped _ _ _ _ _ _ E) as (_ & Hc & _).
Qed.

(** ** The process that acts *)

(** The processes of [S] that are not reaped stay in [S'], with their promises. *)
Definition keeps Q Q' S S' (es : list event) : Prop := forall q, q ∈ S -> ~ reaps es q -> q ∈ S' /\ Q' q = Q q.

(** The others stay followed. *)
Lemma others_ok Q Q' S S' U p t es U' q x : tree_ok (utab U) -> uact images t p U es U' -> keeps Q Q' S S' es -> q <> p -> q <> INIT ->
  procs (utab U) !! q = Some x -> q ∈ S -> process_ok Q S U q x -> ~ reaps es q -> exists x', procs (utab U') !! q = Some x' /\ process_ok Q' S' U' q x'.
Proof.
  intros Htr Ha HS Hqp Hqi Hq HqS Hok Hnr. destruct (act_untouched _ _ _ _ _ _ _ Ha Hqp Hqi Hq) as [(x' & Hq' & Es & Ec & Eu)|?]; [|done].
  exists x'. split; [done|]. destruct (HS q HqS Hnr) as [_ EQ]. unfold process_ok in *. rewrite Es, EQ, Eu, Ec. destruct (p_state x); [|done].
  destruct Hok as [Hf|(u & Hu & Hw & Hkids)]; [by left|right]. exists u. split; [done|].
  assert (Hall : forall c, c ∈ p_children x -> c ∈ S' /\ Q' c = Q c).
  { intros c Hc. apply (proj1 (Forall_forall _ _) Hkids) in Hc as HcS. apply HS; [apply HcS|]. intros Hr. pose proof (act_reaps _ _ _ _ _ _ Ha Hr) as Hcp.
    unfold children_of in Hcp. destruct (procs (utab U) !! p) as [xp|] eqn:Hp; [|by apply not_elem_of_nil in Hcp]. apply Hqp. by apply (tree_ok_parent (utab U) q p x xp c). }
  split.
  - replace (kids_of Q' (p_children x)) with (kids_of Q (p_children x)); [done|]. unfold kids_of. apply list_fmap_ext. intros i c Hc%list_elem_of_lookup_2. by destruct (Hall c Hc) as [_ ->].
  - apply Forall_forall. intros c Hc. split; [by apply Hall|by apply (proj1 (Forall_forall _ _) Hkids)].
Qed.

(** The processes that are reaped. *)
Definition reaped_in (es : list event) : gset Z :=
  list_to_set (omap (fun e => match e with Waits _ _ (Reaped c _) => Some c | _ => None end) es).

Lemma elem_of_reaped_in es q : q ∈ reaped_in es <-> reaps es q.
Proof.
  unfold reaped_in, reaps. rewrite elem_of_list_to_set, list_elem_of_omap. split.
  - intros (e & He & E). destruct e as [| |p w [| |c code]| |]; try done. injection E as ->. eauto.
  - intros (p & w & code & He). eexists. by split.
Qed.

Lemma assemble Q Q' S S' U p t es U' : followed Q S U -> uact images t p U es U' -> keeps Q Q' S S' es -> INIT ∉ S' ->
  (forall q, q ∈ S' -> (q ∈ S /\ q <> p /\ ~ reaps es q) \/ exists x, procs (utab U') !! q = Some x /\ process_ok Q' S' U' q x) -> followed Q' S' U'.
Proof.
  intros [Hi Htr Hok] Ha HS Hi' Hall. split; [done|by eapply act_tree|]. intros q Hq. destruct (Hall q Hq) as [(HqS & Hqp & Hnr)|?]; [|done].
  destruct (Hok q HqS) as (x & Hx & Hxo). eapply others_ok; try done. congruence.
Qed.

(** A process that acts is alive, or exits. *)
Lemma act_self U p t es U' x : uact images t p U es U' -> procs (utab U) !! p = Some x -> p_state x = Alive ->
  exists x', procs (utab U') !! p = Some x' /\ match p_state x' with Alive => True | Exited _ => uprog U' !! p = None end.
Proof.
  intros Ha Hp Hx. unfold uact in Ha. assert (Hsame : forall V, utab V = utab U -> exists x', procs (utab V) !! p = Some x' /\ match p_state x' with Alive => True | Exited _ => uprog V !! p = None end).
  { intros V ->. exists x. by rewrite Hx. }
  destruct (observe t) as [[]|t'|X e k]; [by destruct Ha as [_ ->]; apply Hsame|]. destruct e; cbn in Ha; try (by destruct Ha as [_ [r ->]]; apply Hsame); try (by destruct Ha as [_ ->]; apply Hsame).
  - destruct Ha as (Hne & _ & ->). eexists. cbn [utab uprog]. rewrite t_exit_lookup, Hp, lookup_delete_eq. cbn. by rewrite decide_True.
  - destruct Ha as [_ ->]. exists x. by rewrite Hx.
  - destruct Ha as (c & _ & Hf & _ & ->). exists (add_children [c] x). cbn. rewrite lookup_insert_ne by congruence. rewrite lookup_alter_eq, Hp. by rewrite Hx.
  - destruct Ha as (r & T & E & _ & ->). destruct r as [| |c code].
    1, 2: destruct (t_wait_other _ _ _ _ _ E ltac:(done)) as [-> _]; exists x; by rewrite Hx.
    destruct (t_wait_reaped _ _ _ _ _ _ E) as (-> & _ & Hc & _). assert (p <> c) by (intros <-; unfold exit_status in Hc; rewrite Hp in Hc; destruct x; cbn in Hx; by subst).
    exists (without_child c x). cbn [utab set_utab]. rewrite t_reap_lookup, decide_False, decide_True, Hp by done. cbn. by rewrite Hx.
Qed.

(** A process that is not followed, or has promised nothing. *)
Lemma act_free Q S U p t es U' : followed Q S U -> uprog U !! p = Some t -> uact images t p U es U' -> (p ∈ S -> forall code, Q p code) ->
  exists Q' S', followed Q' S' U' /\ keeps Q Q' S S' es.
Proof.
  intros Hf Ht Ha Hfree. exists Q, (S ∖ reaped_in es). assert (Hk : keeps Q Q S (S ∖ reaped_in es) es) by (intros q Hq Hr; rewrite <- elem_of_reaped_in in Hr; set_solver).
  split; [|done]. eapply (assemble Q Q S); try done; [pose proof (fo_init _ _ _ Hf); set_solver|]. intros q Hq. assert (HqS : q ∈ S /\ ~ reaps es q) by (rewrite <- elem_of_reaped_in; set_solver).
  destruct (decide (q = p)) as [->|Hne]; [right|left; tauto]. destruct (fo_ok _ _ _ Hf p (proj1 HqS)) as (x & Hx & Hok). unfold process_ok in Hok.
  destruct (p_state x) eqn:Ex; [|destruct Hok; congruence]. destruct (act_self _ _ _ _ _ _ Ha Hx Ex) as (x' & Hx' & Hs). exists x'. split; [done|]. unfold process_ok.
  destruct (p_state x'); [left; exact (Hfree (proj1 HqS))|]. split; [apply (Hfree (proj1 HqS))|exact Hs].
Qed.

Lemma kids_of_pids Q cs : (kids_of Q cs).*1 = cs.
Proof. unfold kids_of. rewrite <- list_fmap_compose. apply list_fmap_id. Qed.

Lemma kids_of_drop Q c cs : kids_of Q (filter (fun d => d <> c) cs) = drop_kid c (kids_of Q cs).
Proof.
  unfold kids_of, drop_kid. induction cs as [|d cs IH]; [done|]. rewrite fmap_cons, !filter_cons. cbn [fst]. destruct (decide (d <> c)); [|done]. by rewrite fmap_cons, IH.
Qed.

Lemma kids_of_ext Q Q' cs : (forall c, c ∈ cs -> Q' c = Q c) -> kids_of Q' cs = kids_of Q cs.
Proof. intros H. apply list_fmap_ext. intros i c Hc%list_elem_of_lookup_2. by rewrite H. Qed.

Definition with_promise Q (c : Z) (P : codes) : Z -> codes := fun q => if decide (q = c) then P else Q q.

(** ** The calls of a process that is followed *)
Section Acts.
Variables (Q : Z -> codes) (S : gset Z) (U : usys) (p : Z) (x : proc).
Hypothesis Hf : followed Q S U.
Hypothesis HpS : p ∈ S.
Hypothesis Hx : procs (utab U) !! p = Some x.
Hypothesis Ex : p_state x = Alive.
Hypothesis Hkids : Forall (fun c => c ∈ S /\ 0 < c < 2 ^ 63) (p_children x).
Abbreviation Γ := (mkGhost (Q p) (kids_of Q (p_children x))).
Abbreviation post := (fun (_ : ghost) (_ : Empty_set) => False).

(** The processes are as they were. *)
Lemma act_kept t es u T : uact images t p U es (set_utab (set_uprog U p u) T) -> procs T = procs (utab U) -> (forall q, ~ reaps es q) -> wp Γ u post \/ (forall code, Q p code) ->
  exists Q' S', followed Q' S' (set_utab (set_uprog U p u) T) /\ keeps Q Q' S S' es.
Proof.
  intros Ha HT Hno Hw. exists Q, S. split; [|by intros q Hq _]. eapply (assemble Q Q S S); [done|exact Ha|by intros q Hq _|apply Hf|].
  intros q Hq. destruct (decide (q = p)) as [->|Hne]; [right|left; by split_and!].
  exists x. cbn [utab set_utab]. rewrite HT. split; [done|]. unfold process_ok. rewrite Ex. destruct Hw as [Hw|Hw]; [right|by left]. exists u. cbn. by rewrite lookup_insert_eq.
Qed.

Lemma act_exit t code U' : uact images t p U [Exits p code] U' -> U' = mkUsys (t_exit p code (utab U)) (delete p (uprog U)) -> Q p code ->
  exists Q' S', followed Q' S' U' /\ keeps Q Q' S S' [Exits p code].
Proof.
  intros Ha -> Hc. assert (Hno : forall q, ~ reaps [Exits p code] q) by (by intros q (? & ? & ? & H%list_elem_of_singleton)).
  exists Q, S. split; [|by intros q Hq _]. eapply (assemble Q Q S S); [done|exact Ha|by intros q Hq _|apply Hf|]. intros q Hq. destruct (decide (q = p)) as [->|Hne]; [right|left; by split_and!].
  eexists. cbn [utab]. rewrite t_exit_lookup, Hx. cbn [fmap option_fmap option_map]. split; [done|]. cbv zeta. rewrite decide_True by done. split; [done|]. apply lookup_delete_eq.
Qed.

Lemma act_fork t (k : Z -> prog Empty_set) c P U' : uact images t p U [Forks p c] U' -> U' = mkUsys (t_fork p c (utab U)) (<[p := k c]> (<[c := k 0]> (uprog U))) ->
  0 < c < 2 ^ 63 -> procs (utab U) !! c = None -> wp (forked Γ c P) (k c) post -> wp (mkGhost P []) (k 0) post ->
  exists Q' S', followed Q' S' U' /\ keeps Q Q' S S' [Forks p c].
Proof.
  intros Ha -> Hc Hn Hw Hw0. assert (Hno : forall q, ~ reaps [Forks p c] q) by (by intros q (? & ? & ? & H%list_elem_of_singleton)).
  assert (HcS : forall q, q ∈ S -> q <> c) by (intros q Hq ->; destruct (fo_ok _ _ _ Hf c Hq) as (y & Hy & _); congruence). assert (Hpc : p <> c) by (by apply HcS).
  assert (HQ : forall q, q ∈ S -> with_promise Q c P q = Q q) by (intros q Hq; unfold with_promise; rewrite decide_False by (by apply HcS); done).
  exists (with_promise Q c P), (S ∪ {[c]}). assert (Hk : keeps Q (with_promise Q c P) S (S ∪ {[c]}) [Forks p c]) by (intros q Hq _; split; [set_solver|by apply HQ]). split; [|done].
  eapply (assemble Q _ S); [done|exact Ha|exact Hk|pose proof (fo_init _ _ _ Hf); assert (INIT <> c) by (unfold INIT; lia); set_solver|]. intros q Hq. destruct (decide (q = c)) as [->|Hqc].
  - right. exists (mkProc (Some p) [] Alive). cbn. rewrite lookup_insert_eq. split; [done|]. right. exists (k 0). cbn. rewrite lookup_insert_ne, lookup_insert_eq by done.
    unfold with_promise. rewrite decide_True by done. split_and!; [done|exact Hw0|constructor].
  - destruct (decide (q = p)) as [->|Hqp]; [right|left; split_and!; [set_solver|done|done]]. exists (add_children [c] x). cbn [utab t_fork procs]. rewrite lookup_insert_ne, lookup_alter_eq, Hx by done. split; [done|].
    unfold process_ok. cbn [add_children p_state p_children]. rewrite Ex. right. exists (k c). cbn [uprog]. rewrite lookup_insert_eq, (HQ p HpS). split_and!; [done| |].
    + replace (kids_of (with_promise Q c P) (p_children x ++ [c])) with (kids_of Q (p_children x) ++ [(c, P)]); [exact Hw|]. unfold kids_of at 2. rewrite fmap_app. f_equal.
      * symmetry. apply kids_of_ext. intros d Hd. apply HQ. by apply (proj1 (Forall_forall _ _) Hkids).
      * cbn. unfold with_promise. by rewrite decide_True.
    + apply Forall_app. split; [eapply Forall_impl; [exact Hkids|]; intros d [? ?]; split; [set_solver|done]|]. constructor; [split; [set_solver|done]|constructor].
Qed.

Lemma act_reap t (k : Z * option Z -> prog Empty_set) w c code T : uact images t p U [Waits p w (Reaped c code)] (set_utab (set_uprog U p (k (c, Some code))) T) ->
  t_wait p w (utab U) = (Reaped c code, T) -> (forall P, (c, P) ∈ kids Γ -> waits_for w c = true -> 0 < c < 2 ^ 63 -> P code -> wp (reaped Γ c) (k (c, Some code)) post) ->
  exists Q' S', followed Q' S' (set_utab (set_uprog U p (k (c, Some code))) T) /\ keeps Q Q' S S' [Waits p w (Reaped c code)].
Proof.
  intros Ha E Hw. destruct (t_wait_reaped _ _ _ _ _ _ E) as (-> & Hc & Hst & Hm). unfold children_of in Hc. rewrite Hx in Hc. destruct (proj1 (Forall_forall _ _) Hkids c Hc) as [HcS Hcr].
  assert (Hpc : p <> c) by (intros <-; unfold exit_status in Hst; rewrite Hx in Hst; destruct x; cbn in Ex; by subst).
  assert (HQc : Q c code). { destruct (fo_ok _ _ _ Hf c HcS) as (y & Hy & Hok). unfold exit_status in Hst. rewrite Hy in Hst. destruct y as [? ? [|cd]]; [done|]. injection Hst as ->. apply Hok. }
  assert (Hre : forall q, reaps [Waits p w (Reaped c code)] q <-> q = c) by (intros q; split; [by intros (? & ? & ? & [= _ _ <- _]%list_elem_of_singleton)|intros ->; eexists _, _, _; left]).
  exists Q, (S ∖ {[c]}). assert (Hk : keeps Q Q S (S ∖ {[c]}) [Waits p w (Reaped c code)]) by (intros q Hq Hr; rewrite Hre in Hr; set_solver). split; [|done].
  eapply (assemble Q Q S); [done|exact Ha|exact Hk|pose proof (fo_init _ _ _ Hf); set_solver|]. intros q Hq. destruct (decide (q = p)) as [->|Hqp]; [right|left; rewrite Hre; set_solver].
  exists (without_child c x). cbn [utab set_utab]. rewrite t_reap_lookup, decide_False, decide_True, Hx by done. split; [done|]. unfold process_ok. cbn [without_child p_state p_children]. rewrite Ex. right.
  exists (k (c, Some code)). cbn [uprog set_utab set_uprog]. rewrite lookup_insert_eq. split_and!; [done| |].
  - rewrite kids_of_drop. apply (Hw (Q c)); [|done|done|done]. unfold kids, kids_of. apply list_elem_of_fmap. eauto.
  - apply Forall_forall. intros d [Hdc Hd]%list_elem_of_filter. destruct (proj1 (Forall_forall _ _) Hkids d Hd). split; [set_solver|done].
Qed.

End Acts.

Lemma reaps_nil q : ~ reaps [] q.
Proof. intros (? & ? & ? & H). by apply not_elem_of_nil in H. Qed.

Lemma act_followed Q S U p t es U' : followed Q S U -> uprog U !! p = Some t -> uact images t p U es U' -> exists Q' S', followed Q' S' U' /\ keeps Q Q' S S' es.
Proof.
  intros Hf Ht Ha. destruct (decide (p ∈ S)) as [HpS|HpS]; [|by eapply act_free]. destruct (fo_ok _ _ _ Hf p HpS) as (x & Hx & Hok). unfold process_ok in Hok.
  destruct (p_state x) eqn:Ex; [|destruct Hok; congruence]. destruct Hok as [Hfree|(t' & Ht' & Hw & Hkids)]; [by eapply act_free|]. assert (t' = t) as -> by congruence.
  apply wp_unfold in Hw. pose proof Ha as Ha'. unfold uact in Ha'. unfold wpF in Hw.
  assert (Hsame : forall u, uact images t p U [] (set_uprog U p u) -> wp (mkGhost (Q p) (kids_of Q (p_children x))) u (fun _ _ => False) \/ (forall code, Q p code) ->
    exists Q' S', followed Q' S' (set_uprog U p u) /\ keeps Q Q' S S' []).
  { intros u Hu Huw. eapply (act_kept Q S U p x Hf Hx Ex Hkids t [] u (utab U)); [exact Hu|done|apply reaps_nil|done]. }
  destruct (observe t) as [[]|u|X e k]; [destruct Ha' as [-> ->]; apply Hsame; auto|]. destruct e; cbn in Ha', Hw; try (destruct Ha' as [-> [r ->]]; apply Hsame; auto).
  - destruct Ha' as (Hne & -> & ->). by eapply act_exit.
  - destruct Ha' as (-> & ->). eapply act_kept; try done; [by intros q (? & ? & ? & H%list_elem_of_singleton)|by left].
  - destruct Ha' as [-> ->]. apply Hsame; auto.
  - destruct Ha' as (c & Hc & Hn & -> & ->), Hw as (P & Hp & H0). eapply (act_fork Q S U p x) with (P := P); try done. apply Hp; [done|]. rewrite kids_of_pids. intros Hin.
    destruct (proj1 (Forall_forall _ _) Hkids c Hin) as [HcS _]. destruct (fo_ok _ _ _ Hf c HcS) as (y & Hy & _). congruence.
  - destruct Ha' as [-> ->], Hw as [Hw Hfree]. apply Hsame; [done|]. destruct (images path); [right; by apply Hfree|by left].
  - destruct Ha' as (r & T & E & -> & ->). rewrite kids_of_pids in Hw.
    destruct r as [| |c code]; cbn [wait_result] in *.
    1, 2: destruct (t_wait_other _ _ _ _ _ E ltac:(done)) as [-> Er]; unfold children_of in Er; rewrite Hx in Er;
      eapply act_kept; try done; [by intros q (? & ? & ? & H%list_elem_of_singleton)|left; destruct (existsb _ _); [done || apply Hw|done || apply Hw]].
    eapply act_reap; try done. destruct (t_wait_reaped _ _ _ _ _ _ E) as (_ & Hc & _ & Hm). unfold children_of in Hc. rewrite Hx in Hc.
    assert (He : existsb (waits_for pid) (p_children x) = true) by (apply existsb_exists; exists c; split; [by apply list_elem_of_In|done]). rewrite He in Hw.
    intros P H1 H2 H3 H4. by eapply Hw.
Qed.

Lemma step_followed Q S U es U' : followed Q S U -> ustep images U es U' -> exists Q' S', followed Q' S' U' /\ keeps Q Q' S S' es.
Proof.
  intros Hf Hs. revert Hf. destruct Hs as [V p t fs V' Hc Hp Ha|V p Hc|V p q Hc Hq]; intros Hf; [by eapply act_followed|..]; exists Q, S; (split; [|by intros r Hr _]);
    destruct Hf as [Hi Htr Hok]; (split; [exact Hi|exact Htr|exact Hok]).
Qed.

Lemma steps_followed U es U' : usteps images U es U' -> forall Q S, followed Q S U -> exists Q' S', followed Q' S' U' /\ keeps Q Q' S S' es.
Proof.
  induction 1 as [U|U es U' es' U'' Hs Hss IH]; intros Q S Hf; [exists Q, S; split; [done|by intros q Hq _]|].
  destruct (step_followed _ _ _ _ _ Hf Hs) as (Q1 & S1 & Hf1 & Hk1). destruct (IH _ _ Hf1) as (Q2 & S2 & Hf2 & Hk2). exists Q2, S2. split; [done|].
  intros q Hq Hn. assert (Hn1 : ~ reaps es q) by (intros (p & w & c & ?); apply Hn; exists p, w, c; apply elem_of_app; by left).
  assert (Hn2 : ~ reaps es' q) by (intros (p & w & c & ?); apply Hn; exists p, w, c; apply elem_of_app; by right).
  destruct (Hk1 q Hq Hn1) as [H1 E1]. destruct (Hk2 q H1 Hn2) as [H2 E2]. split; [done|congruence].
Qed.

(** A program whose exit code satisfies [P], in the parent and in every child
    that goes on with it. *)
Definition verified (P : codes) (main : prog Z) : Prop := wp (mkGhost P []) main (fun Γ code => promise Γ code).

(** A process that starts a verified program, without children, exits as promised
    if it exits: whatever the others run and however they are interleaved. *)
Lemma verified_sound (P : codes) main U es U' p x code : verified P main -> tree_ok (utab U) -> p <> INIT ->
  procs (utab U) !! p = Some x -> p_state x = Alive -> p_children x = [] -> uprog U !! p = Some (start main) ->
  usteps images U es U' -> ~ reaps es p -> exit_status (utab U') p = Some code -> P code.
Proof.
  intros Hw Htr Hpi Hx Ex Ec Ht Hss Hn He. assert (Hf : followed (fun _ => P) {[p]} U).
  { split; [set_solver|done|]. intros q ->%elem_of_singleton. exists x. split; [done|]. unfold process_ok. rewrite Ex, Ec. right. exists (start main). split_and!; [done| |constructor].
    apply wp_bind. eapply wp_mono; [exact Hw|]. intros Γ c HP. by apply wp_exit. }
  destruct (steps_followed _ _ _ Hss _ _ Hf) as (Q' & S' & [_ _ Hok] & Hk). destruct (Hk p ltac:(set_solver) Hn) as [HpS HQ]. destruct (Hok p HpS) as (y & Hy & Hpo).
  unfold exit_status in He. rewrite Hy in He. destruct y as [? ? [|cd]]; [done|]. injection He as ->. destruct Hpo as [Hpo _]. by rewrite HQ in Hpo.
Qed.

End Sound.
