(* ===== verification/UserTheorems.v ===== *)
(** * The user programs keep their assertions

    The tests of user/src/bin that fork and wait, verified in the logic of
    [UserLogic]: none of their assertions fails and each exits with 0, under
    every interleaving with any other programs. *)

From Stdlib Require Import String.
From ITree Require Import Core.ITreeDefinition.
From S2P Require Import Prelude Proc Address Syscall User Unix UserLogic.

(** ** Families of children *)

(** [n] children, each with the promise [P]. *)
Record family (P : codes) (n : nat) (Γ : ghost) : Prop := {
  fam_len : length (kids Γ) = n;
  fam_nodup : NoDup (kids Γ).*1;
  fam_all : Forall (fun x => x.2 = P) (kids Γ);
}.

Lemma family_none P Q : family P O (mkGhost Q []).
Proof. split; [done|constructor|constructor]. Qed.

Lemma family_fork P n Γ c : family P n Γ -> c ∉ (kids Γ).*1 -> family P (S n) (forked Γ c P).
Proof.
  intros [Hl Hn Ha] Hc. split; cbn [forked kids].
  - rewrite length_app, Hl. cbn. lia.
  - rewrite fmap_app. apply NoDup_app. split_and!; [done| |apply NoDup_singleton]. by intros x Hx ->%list_elem_of_singleton.
  - apply Forall_app. split; [done|]. by constructor.
Qed.

Lemma drop_kid_pids (c : Z) (ks : list (Z * codes)) : (drop_kid c ks).*1 = filter (fun d => d <> c) ks.*1.
Proof. unfold drop_kid. induction ks as [|[d R] ks IH]; [done|]. rewrite fmap_cons, !filter_cons. cbn [fst]. case_decide; [|done]. by rewrite fmap_cons, IH. Qed.

Lemma filter_absent (c : Z) (l : list Z) : c ∉ l -> filter (fun d => d <> c) l = l.
Proof. induction l as [|d l IH]; intros Hc; [done|]. apply not_elem_of_cons in Hc as [Hd Hc]. rewrite filter_cons_True by congruence. by rewrite IH. Qed.

Lemma filter_once (c : Z) (l : list Z) : NoDup l -> c ∈ l -> S (length (filter (fun d => d <> c) l)) = length l.
Proof.
  intros Hn (l1 & l2 & ->)%list_elem_of_split. apply NoDup_app in Hn as (_ & Hd & [Hc2 _]%NoDup_cons). assert (Hc1 : c ∉ l1) by (intros H; apply (Hd c H); left).
  rewrite filter_app, filter_cons_False, !filter_absent, !length_app by (done || naive_solver). cbn. lia.
Qed.

Lemma family_reap P n Γ c Q : family P (S n) Γ -> (c, Q) ∈ kids Γ -> Q = P /\ family P n (reaped Γ c).
Proof.
  intros [Hl Hn Ha] Hin. split; [by apply (proj1 (Forall_forall _ _) Ha) in Hin|]. assert (Hc : c ∈ (kids Γ).*1) by (apply list_elem_of_fmap; by exists (c, Q)). split; cbn [reaped kids].
  - pose proof (filter_once c _ Hn Hc) as Hf. rewrite <- drop_kid_pids, !length_fmap in Hf. lia.
  - rewrite drop_kid_pids. by apply NoDup_filter.
  - unfold drop_kid. apply Forall_forall. intros x [_ Hx]%list_elem_of_filter. by apply (proj1 (Forall_forall _ _) Ha).
Qed.

Section Programs.
Variable images : list byte -> option (prog Z).
Abbreviation wp := (wp images).
Abbreviation ZERO := (fun code : Z => code = 0).

(** [wait] when there is a child, and when there is none. *)
Lemma wp_wait_family P n Γ code0 (Φ : ghost -> Z * Z -> Prop) : family P (S n) Γ ->
  (forall Δ c code, promise Δ = promise Γ -> family P n Δ -> 0 < c -> P code -> Φ Δ (c, code)) -> wp Γ (wait code0) Φ.
Proof.
  intros Hf H. apply wp_waiting. destruct Hf as [Hl Hn Ha]. destruct (existsb _ _) eqn:E.
  - intros c Q code Hin _ Hc HQ. destruct (family_reap P n Γ c Q) as [-> Hf]; [by split|done|]. apply H; [done|done|lia|done].
  - exfalso. destruct (kids Γ) as [|[c Q] ks]; [done|]. cbn in E. done.
Qed.

Lemma wp_wait_none P Γ code0 (Φ : ghost -> Z * Z -> Prop) : family P O Γ -> Φ Γ (-1, code0) -> wp Γ (wait code0) Φ.
Proof. intros [Hl _ _] H. apply wp_waiting. by rewrite (nil_length_inv _ Hl). Qed.

(** The loop that forks children, and the one that reaps them. *)
Lemma wp_spawn P n (body : nat -> prog unit) Γ (Φ : ghost -> unit -> Prop) : family P O Γ ->
  (forall i m Δ, family P m Δ -> promise Δ = promise Γ -> wp Δ (body i) (fun Δ _ => promise Δ = promise Γ /\ family P (S m) Δ)) ->
  (forall Δ, promise Δ = promise Γ -> family P n Δ -> Φ Δ tt) -> wp Γ (for_ (seq 0 n) body) Φ.
Proof.
  intros H0 Hb HΦ. apply (wp_for images _ _ (fun m Δ => promise Δ = promise Γ /\ family P m Δ)); [|intros Δ [? Hf]; apply HΦ; [done|by rewrite length_seq in Hf]|done].
  intros m x Δ _ [Hp Hf]. by apply Hb.
Qed.

Lemma wp_collect P n (body : Z -> nat -> prog Z) Γ code0 (Φ : ghost -> Z -> Prop) : family P n Γ ->
  (forall i m Δ code, family P (S m) Δ -> promise Δ = promise Γ -> wp Δ (body code i) (fun Δ _ => promise Δ = promise Γ /\ family P m Δ)) ->
  (forall Δ code, promise Δ = promise Γ -> family P O Δ -> Φ Δ code) -> wp Γ (fold_ (seq 0 n) body code0) Φ.
Proof.
  intros H0 Hb HΦ. apply (wp_fold_ images _ _ (fun m Δ _ => promise Δ = promise Γ /\ family P (n - m)%nat Δ)).
  - intros m x Δ b Hx [Hp Hf]. apply lookup_seq in Hx as [_ Hx]. apply Hb; [|done]. by replace (S (n - S m))%nat with (n - m)%nat by lia.
  - intros Δ b [Hp Hf]. rewrite length_seq, Nat.sub_diag in Hf. by apply HΦ.
  - by rewrite Nat.sub_0_r.
Qed.

(** ** The tests *)
Lemma forktest_verified : verified images ZERO forktest.main.
Proof.
  apply wp_bind. apply (wp_spawn ZERO); [apply family_none| |].
  - intros i m Δ Hf Hp. apply wp_bind, (wp_fork images Δ ZERO).
    + intros c Hc Hn. rewrite (proj2 (Z.eqb_neq _ _)) by lia. apply wp_bind, wp_print, wp_assert_that; [lia|]. split; [done|by apply family_fork].
    + cbn [Z.eqb]. by apply wp_bind, wp_bind, wp_print, wp_exit.
  - intros Δ Hp Hf. apply wp_bind. apply (wp_collect ZERO forktest.MAX_CHILD); [done| |].
    + intros i m Θ code Hf' Hp'. apply wp_bind. apply (wp_wait_family ZERO m); [done|]. intros Ξ c cd Hp2 Hf2 Hc _. rewrite (proj2 (Z.leb_gt _ _)) by lia. apply wp_ret. split; [congruence|done].
    + intros Θ code Hp' Hf'. apply wp_bind, (wp_wait_none ZERO); [done|]. cbn [Z.ltb Z.compare]. apply wp_bind, wp_ret, wp_bind, wp_print, wp_ret. by rewrite Hp', Hp.
Qed.

Lemma forktest2_verified : verified images ZERO forktest2.main.
Proof.
  apply wp_bind. apply (wp_spawn ZERO); [apply family_none| |].
  - intros i m Δ Hf Hp. apply wp_bind, (wp_fork images Δ ZERO).
    + intros c Hc Hn. rewrite (proj2 (Z.eqb_neq _ _)) by lia. apply wp_ret. split; [done|by apply family_fork].
    + cbn [Z.eqb]. apply wp_bind, wp_get_time. intros now. apply wp_bind, wp_getpid. intros p. apply wp_bind, wp_print, wp_bind, wp_sleep, wp_bind, wp_getpid. intros p'.
      by apply wp_bind, wp_print, wp_exit.
  - intros Δ Hp Hf. apply wp_bind. apply (wp_collect ZERO forktest2.NUM); [done| |].
    + intros i m Θ code Hf' Hp'. apply wp_bind. apply (wp_wait_family ZERO m); [done|]. intros Ξ c cd Hp2 Hf2 Hc Hcd. apply wp_bind, wp_assert_that; [lia|].
      apply wp_bind, wp_assert_eq; [exact Hcd|]. apply wp_ret. split; [congruence|done].
    + intros Θ code Hp' Hf'. apply wp_bind, (wp_wait_none ZERO); [done|]. apply wp_bind, wp_assert_that; [done|]. apply wp_bind, wp_print, wp_ret. by rewrite Hp', Hp.
Qed.

Lemma matrix_verified : verified images ZERO matrix.main.
Proof.
  apply wp_bind. apply (wp_spawn ZERO); [apply family_none| |].
  - intros i m Δ Hf Hp. apply wp_bind, (wp_fork images Δ ZERO).
    + intros c Hc Hn. rewrite (proj2 (Z.eqb_neq _ _)) by lia. apply wp_ret. split; [done|by apply family_fork].
    + cbn [Z.eqb]. apply wp_bind, wp_get_time. intros now. apply wp_bind, wp_yield, wp_bind, wp_getpid. intros p. apply wp_bind, wp_print, wp_bind, wp_ret, wp_bind, wp_getpid. intros p'.
      by apply wp_bind, wp_print, wp_exit.
  - intros Δ Hp Hf. apply wp_bind, wp_print, wp_bind. apply (wp_collect ZERO matrix.NUM); [done| |].
    + intros i m Θ code Hf' Hp'. apply wp_bind. apply (wp_wait_family ZERO m); [done|]. intros Ξ c cd Hp2 Hf2 Hc _. rewrite (proj2 (Z.ltb_ge _ _)) by lia. apply wp_ret. split; [congruence|done].
    + intros Θ code Hp' Hf'. apply wp_bind, (wp_wait_none ZERO); [done|]. apply wp_bind, wp_assert_that; [done|]. apply wp_bind, wp_print, wp_ret. by rewrite Hp', Hp.
Qed.

(** Waiting for the only child. *)
Lemma wp_waiting_only w c P Q code0 (Φ : ghost -> Z * Z -> Prop) : waits_for w c = true -> (forall code, P code -> Φ (mkGhost Q []) (c, code)) ->
  wp (mkGhost Q [(c, P)]) (waiting w code0) Φ.
Proof.
  intros Hc H. apply wp_waiting. cbn [kids fmap list_fmap existsb fst]. rewrite Hc. cbn [orb]. intros d R code Hin%list_elem_of_singleton _ _ HR. injection Hin as -> ->.
  unfold reaped, drop_kid. cbn [kids promise]. rewrite filter_cons_False by naive_solver. by apply H.
Qed.

Lemma forktest_simple_verified : verified images ZERO forktest_simple.main.
Proof.
  apply wp_bind, (wp_wait_none ZERO); [apply family_none|]. apply wp_bind, wp_assert_eq; [done|]. apply wp_bind, wp_print, wp_bind, wp_getpid. intros me. apply wp_bind, wp_print, wp_bind.
  apply (wp_fork images _ (fun code => code = 100)).
  - intros c Hc Hn. rewrite (proj2 (Z.eqb_neq _ _)) by lia. apply wp_bind, wp_print, wp_bind. apply wp_waiting_only; [done|]. intros code ->.
    apply wp_bind, wp_assert_eq; [done|]. apply wp_bind, wp_assert_eq; [done|]. by apply wp_bind, wp_print, wp_ret.
  - cbn [Z.eqb]. by apply wp_bind, wp_print, wp_ret.
Qed.

(** The pid of a child, as an argument of [waitpid]. *)
Lemma waitpid_matches c d : 0 < c < 2 ^ 63 -> 0 < d < 2 ^ 63 -> waits_for (as_isize (w64 c)) d = (c =? d).
Proof.
  intros Hc Hd. rewrite w64_small by lia. unfold as_isize. rewrite (proj2 (Z.ltb_lt c _)) by lia. unfold waits_for. rewrite (proj2 (Z.eqb_neq c _)) by lia. by rewrite w64_small by lia.
Qed.

Lemma wp_waitpid_only c P Q code0 (Φ : ghost -> Z * Z -> Prop) : 0 < c < 2 ^ 63 -> (forall code, P code -> Φ (mkGhost Q []) (c, code)) ->
  wp (mkGhost Q [(c, P)]) (waitpid c code0) Φ.
Proof. intros Hc H. apply wp_waiting_only; [|done]. by rewrite waitpid_matches, Z.eqb_refl. Qed.

Lemma exit_verified : verified images ZERO exit.main.
Proof.
  apply wp_bind, wp_print, wp_bind, (wp_fork images _ (fun code => code = exit.MAGIC)).
  - intros c Hc Hn. rewrite (proj2 (Z.eqb_neq _ _)) by lia. apply wp_bind, wp_print, wp_bind, wp_print, wp_bind. apply wp_waitpid_only; [done|]. intros code ->.
    apply wp_bind, wp_assert_that; [by rewrite !Z.eqb_refl|]. apply wp_bind, wp_waiting. cbn [kids fmap list_fmap existsb]. cbn [Z.ltb Z.compare].
    apply wp_bind, wp_bind, (wp_wait_none ZERO); [apply family_none|]. apply wp_assert_that; [done|]. by apply wp_bind, wp_print, wp_bind, wp_print, wp_ret.
  - cbn [Z.eqb]. apply wp_bind, wp_bind, wp_print, wp_bind. apply (wp_for images _ _ (fun _ Δ => Δ = mkGhost (fun code => code = exit.MAGIC) [])); [|by intros ? ->; apply wp_exit|done].
    intros n x Δ _ ->. by apply wp_bind, wp_yield, wp_ret.
Qed.

Lemma sleep_verified : verified images ZERO sleep.main.
Proof.
  apply wp_bind, wp_get_time. intros t. apply wp_bind, (wp_fork images _ ZERO).
  - intros c Hc Hn. rewrite (proj2 (Z.eqb_neq _ _)) by lia. apply wp_bind, wp_ret, wp_bind. apply wp_waitpid_only; [done|]. intros code ->.
    apply wp_bind, wp_assert_that; [by rewrite !Z.eqb_refl|]. apply wp_bind, wp_get_time. intros now. by apply wp_bind, wp_print, wp_bind, wp_print, wp_ret.
  - cbn [Z.eqb]. apply wp_bind, wp_bind. apply (wp_for images _ _ (fun _ Δ => Δ = mkGhost ZERO [])); [|by intros ? ->; apply wp_exit|done]. intros n x Δ _ ->. by apply wp_bind, wp_sleep, wp_print.
Qed.

(** A branch of the tree is a child that goes on with [sub], yields and exits. *)
Lemma wp_branch Γ (sub : prog unit) : promise Γ = ZERO -> (forall Δ, promise Δ = ZERO -> wp Δ sub (fun Δ _ => promise Δ = ZERO)) ->
  wp Γ (let* pid := fork in if pid =? 0 then sub;; yield_;; User.exit 0 else Ret tt)%prog (fun Δ _ => promise Δ = ZERO).
Proof.
  intros HΓ Hsub. apply wp_bind, (wp_fork images _ ZERO).
  - intros c Hc _. rewrite (proj2 (Z.eqb_neq _ _)) by lia. by apply wp_ret.
  - cbn [Z.eqb]. apply wp_bind. eapply wp_mono; [by apply Hsub|]. intros Δ [] HΔ. apply wp_bind, wp_yield, wp_exit. by rewrite HΔ.
Qed.

Lemma fork_tree_verified fuel : forall cur Γ, promise Γ = ZERO -> wp Γ (forktree.fork_tree fuel cur) (fun Δ _ => promise Δ = ZERO).
Proof.
  induction fuel as [|fuel IH]; intros cur Γ HΓ; cbn [forktree.fork_tree]; apply wp_bind, wp_getpid; intros p; apply wp_bind, wp_print, wp_bind; (destruct (_ <=? _)%nat; [by apply wp_ret, wp_ret|]).
  - eapply wp_mono; [apply wp_branch; [done|intros; by apply wp_ret]|]. intros Δ [] HΔ. apply wp_branch; [done|]. intros. by apply wp_ret.
  - eapply wp_mono; [apply wp_branch; [done|intros; by apply IH]|]. intros Δ [] HΔ. apply wp_branch; [done|]. intros. by apply IH.
Qed.

Lemma forktree_verified : verified images ZERO forktree.main.
Proof. apply wp_bind. eapply wp_mono; [by apply fork_tree_verified|]. intros Δ [] HΔ. apply wp_bind, wp_sleep, wp_ret. by rewrite HΔ. Qed.

(** Programs that only print, yield and look at the clock. *)
Lemma wp_print_all {A} (l : list A) (f : A -> list (list byte)) Γ (Φ : ghost -> unit -> Prop) : Φ Γ tt -> wp Γ (for_ l (fun x => print (f x))) Φ.
Proof. intros H. apply (wp_for images _ _ (fun _ Δ => Δ = Γ)); [|by intros ? ->|done]. intros n x Δ _ ->. by apply wp_print. Qed.

Lemma hello_world_verified : verified images ZERO hello_world.main.
Proof. by apply wp_bind, wp_print, wp_ret. Qed.

Lemma fantastic_text_verified : verified images ZERO fantastic_text.main.
Proof. by apply wp_bind, wp_print, wp_bind, wp_print, wp_bind, wp_print_all, wp_bind, wp_print_all, wp_ret. Qed.

Lemma yield_verified : verified images ZERO yield.main.
Proof.
  apply wp_bind, wp_getpid. intros p. apply wp_bind, wp_print, wp_bind. apply (wp_for images _ _ (fun _ Δ => Δ = mkGhost ZERO [])); [|by intros ? ->; apply wp_bind, wp_print, wp_ret|done].
  intros n x Δ _ ->. apply wp_bind, wp_yield, wp_bind, wp_getpid. intros q. by apply wp_print.
Qed.

Lemma sleep_simple_verified : verified images ZERO sleep_simple.main.
Proof.
  apply wp_bind, wp_print, wp_bind, wp_get_time. intros t. apply wp_bind, wp_print, wp_bind, wp_sleep, wp_bind, wp_get_time. intros t'. by apply wp_bind, wp_print, wp_bind, wp_print, wp_ret.
Qed.

(** ** Programs that run others *)
Lemma wp_exec path Γ (Φ : ghost -> Z -> Prop) : Φ Γ (-1) -> (forall code, promise Γ code) -> wp Γ (exec path) Φ.
Proof. intros H Hp. apply wp_call. split; [by apply wp_ret|auto]. Qed.

Abbreviation ANY := (fun _ : Z => True).

Lemma usertests_simple_verified : verified images ZERO usertests_simple.main.
Proof.
  apply wp_bind. apply (wp_for images _ _ (fun _ Δ => Δ = mkGhost ZERO [])); [|by intros ? ->; apply wp_bind, wp_print, wp_ret|done].
  intros n test Δ _ ->. apply wp_bind, wp_print, wp_bind, (wp_fork images _ ANY).
  - intros c Hc _. rewrite (proj2 (Z.eqb_neq _ _)) by lia. apply wp_bind. apply wp_waitpid_only; [done|]. intros code _. apply wp_bind, wp_assert_eq; [done|]. by apply wp_print.
  - cbn [Z.eqb]. apply wp_bind, wp_exec; [|done]. by apply wp_panic.
Qed.




(** [stack_overflow] does not exit on its own. *)
Lemma stack_overflow_verified : verified images (fun _ => False) stack_overflow.main.
Proof.
  apply wp_bind, wp_print, wp_bind. apply (wp_iter images _ (fun Δ _ => Δ = mkGhost (fun _ => False) [])); [|done].
  intros Δ depth ->. apply wp_bind. destruct (_ =? 0); [apply wp_print|apply wp_ret]; by apply wp_ret.
Qed.

End Programs.

(** ** The arithmetic of [matrix] *)
Lemma at2_tabulate f i j : (i < matrix.N)%nat -> (j < matrix.N)%nat -> matrix.at2 (matrix.tabulate f) i j = f i j.
Proof. intros Hi Hj. unfold matrix.at2, matrix.tabulate. rewrite list_lookup_fmap, lookup_seq_lt by done. cbn [fmap option_fmap option_map default from_option id]. by rewrite list_lookup_fmap, lookup_seq_lt by done. Qed.

Lemma tabulate_ext f g : (forall i j, (i < matrix.N)%nat -> (j < matrix.N)%nat -> f i j = g i j) -> matrix.tabulate f = matrix.tabulate g.
Proof.
  intros H. apply list_fmap_ext. intros i' i [-> Hi]%lookup_seq. apply list_fmap_ext. intros j' j [-> Hj]%lookup_seq. apply H; lia.
Qed.

Lemma as_i32_id x : - 2 ^ 31 <= x < 2 ^ 31 -> as_i32 x = x.
Proof.
  intros H. unfold as_i32, w32. destruct (decide (0 <= x)).
  - rewrite Z.mod_small by lia. destruct (Z.ltb_spec x (2 ^ 31)); lia.
  - assert (x mod 2 ^ 32 = x + 2 ^ 32) as -> by (symmetry; apply (Z.mod_unique _ _ (-1)); lia). destruct (Z.ltb_spec (x + 2 ^ 32) (2 ^ 31)); lia.
Qed.

Lemma entry_constant x i j : 0 <= x < matrix.P -> (i < matrix.N)%nat -> (j < matrix.N)%nat ->
  let a := matrix.tabulate (fun _ _ => x) in matrix.entry a a i j = (10 * (x * x)) mod matrix.P.
Proof.
  intros Hx Hi Hj a. assert (Ha : forall k, (k < matrix.N)%nat -> matrix.at2 a i k = x /\ matrix.at2 a k j = x) by (intros k Hk; unfold a; by rewrite !at2_tabulate).
  clearbody a. assert (H : forall l c, 0 <= c < matrix.P -> Forall (fun k => (k < matrix.N)%nat) l ->
    foldl (fun c k => Z.rem (as_i32 (c + as_i32 (matrix.at2 a i k * matrix.at2 a k j))) matrix.P) c l = (c + Z.of_nat (length l) * (x * x)) mod matrix.P).
  { induction l as [|k l IH]; intros c Hc Hl; [cbn; by rewrite Z.add_0_r, Z.mod_small|]. inversion Hl as [|? ? Hk Hl']; subst. cbn [foldl length]. destruct (Ha k Hk) as [-> ->].
    unfold matrix.P in *. assert (0 <= x * x <= 10006 * 10006) by nia. rewrite (as_i32_id (x * x)) by lia. rewrite as_i32_id by lia. rewrite Z.rem_mod_nonneg by lia.
    rewrite IH by (done || apply Z.mod_pos_bound; lia). rewrite Zplus_mod_idemp_l. f_equal. lia. }
  unfold matrix.entry. rewrite H; [|unfold matrix.P; lia|].
  - rewrite length_seq. done.
  - apply Forall_forall. intros k Hk%elem_of_seq. lia.
Qed.

(** The products of [matrix] do not overflow.  After any number of rounds
    every entry of both matrices, computed in 32 bits, is 10^(2^times - 1) modulo
    10007. *)
Theorem matrix_rounds times : 0 <= times -> matrix.rounds times =
  let c := matrix.tabulate (fun _ _ => 10 ^ (2 ^ times - 1) mod matrix.P) in (c, c).
Proof.
  intros Ht. rewrite <- (Z2Nat.id times Ht). generalize (Z.to_nat times). intros n. unfold matrix.rounds. rewrite Nat2Z.id. cbv zeta. induction n as [|n IH]; [done|]. cbn [Nat.iter nat_rect].
  unfold Nat.iter in IH. rewrite IH. unfold matrix.round. cbn [fst snd]. assert (E : forall f g : matrix.Arr, f = g -> (f, f) = (g, g)) by (by intros ? ? ->). apply E, tabulate_ext. intros i j Hi Hj.
  pose proof (Z.pow_pos_nonneg 2 (Z.of_nat n) ltac:(lia) ltac:(lia)) as Hp. rewrite entry_constant by (done || apply Z.mod_pos_bound; done).
  rewrite <- Zmult_mod_idemp_r, <- Zmult_mod, Zmult_mod_idemp_r. rewrite <- Z.pow_add_r by lia. f_equal. rewrite Nat2Z.inj_succ, Z.pow_succ_r by lia.
  replace (2 * 2 ^ Z.of_nat n - 1) with (1 + (2 ^ Z.of_nat n - 1 + (2 ^ Z.of_nat n - 1))) by lia. rewrite (Z.pow_add_r 10 1) by lia. done.
Qed.

(** ** The tests, on any system *)

(** The process [p] of the system starts [main]. *)
Record starts (U : usys) (p : Z) (main : prog Z) : Prop := {
  st_tree : tree_ok (utab U);
  st_init : p <> INIT;
  st_alive : exists q, procs (utab U) !! p = Some (mkProc q [] Alive);
  st_prog : uprog U !! p = Some (start main);
}.

Definition tests : list (prog Z) :=
  [forktest.main; forktest2.main; forktest_simple.main; exit.main; forktree.main; matrix.main; sleep.main; sleep_simple.main; yield.main; hello_world.main; fantastic_text.main;
   usertests_simple.main].

Lemma tests_verified images main : main ∈ tests -> verified images (fun code => code = 0) main.
Proof.
  intros Hin. unfold tests in Hin. repeat (apply elem_of_cons in Hin as [->|Hin]); [..|by apply not_elem_of_nil in Hin].
  all: first [apply forktest_verified|apply forktest2_verified|apply forktest_simple_verified|apply exit_verified|apply forktree_verified|apply matrix_verified|apply sleep_verified
    |apply sleep_simple_verified|apply yield_verified|apply hello_world_verified|apply fantastic_text_verified|apply usertests_simple_verified].
Qed.

(** C10: the tests of the user library pass.  A process that starts one of them,
    in any system of processes that run any programs and under every interleaving
    of their calls, exits with code 0 if it exits: no assertion about [fork],
    [wait], [waitpid] and exit codes fails in it. *)
Theorem user_tests_pass images main U es U' p code : main ∈ tests -> starts U p main -> usteps images U es U' -> ~ reaps es p ->
  exit_status (utab U') p = Some code -> code = 0.
Proof.
  intros Hm [Ht Hi [q Hx] Hp] Hs Hr He. by eapply (verified_sound images (fun code => code = 0) main U es U' p); [by apply tests_verified|done|done|done|done|done|..].
Qed.


(** [initproc], that only yields here, and a test. *)
Definition idle : prog Z := ITree.iter (fun _ : unit => (yield_;; Ret (inl tt))%prog) tt.
Definition lab (main : prog Z) : usys :=
  mkUsys (mkTable {[0 := mkProc None [1] Alive; 1 := mkProc (Some 0) [] Alive]} [0] (Some 1)) {[0 := start idle; 1 := start main]}.

Lemma lab_starts main : starts (lab main) 1 main.
Proof.
  split; [|done|by exists (Some 0)|done]. intros p x c. cbn. intros Hp Hc. apply lookup_insert_Some in Hp as [[<- <-]|[_ [<- <-]%lookup_singleton_Some]]; [|by apply not_elem_of_nil in Hc].
  apply list_elem_of_singleton in Hc as ->. by eexists.
Qed.

(** The programs by their names, without [stack_overflow], that would not end. *)
Definition images (path : list byte) : option (prog Z) :=
  snd <$> find (fun x => bool_decide (x.1 = path))
    [(cstr "exit", exit.main); (cstr "fantastic_text", fantastic_text.main); (cstr "forktest", forktest.main); (cstr "forktest2", forktest2.main); (cstr "forktest_simple", forktest_simple.main);
     (cstr "hello_world", hello_world.main); (cstr "matrix", matrix.main); (cstr "sleep", sleep.main); (cstr "sleep_simple", sleep_simple.main); (cstr "yield", yield.main);
     (cstr "forktree", forktree.main)].

Definition outcome (p : Z) (r : list event * usys) : option Z * bool := (exit_status (utab r.2) p, bool_decide (p ∈ reaped_in r.1)).
Definition lab_run (main : prog Z) : list event * usys := urun images (Z.to_nat 50000) 0 [] (lab main).

Lemma outcome_status p r code : outcome p r = (code, false) -> exit_status (utab r.2) p = code /\ ~ reaps r.1 p.
Proof. intros [= <- H%bool_decide_eq_false]. by rewrite elem_of_reaped_in in H. Qed.

Lemma user_tests_pass_witness : exists es U', usteps images (lab forktest.main) es U' /\ exit_status (utab U') 1 = Some 0 /\ 0 = 0.
Proof.
  assert (E : outcome 1 (lab_run forktest.main) = (Some 0, false)) by (vm_compute; reflexivity). apply outcome_status in E as [Ec Er].
  pose proof (urun_steps images (Z.to_nat 50000) 0 [] (lab forktest.main)) as Hs. fold (lab_run forktest.main) in Hs. exists (lab_run forktest.main).1, (lab_run forktest.main).2.
  split; [exact Hs|]. split; [exact Ec|]. exact (user_tests_pass images forktest.main (lab forktest.main) _ _ 1 0 ltac:(left) (lab_starts forktest.main) Hs Er Ec).
Defined.




Lemma matrix_rounds_witness : matrix.rounds 1000 = let c := matrix.tabulate (fun _ _ => 10 ^ (2 ^ 1000 - 1) mod matrix.P) in (c, c).
Proof. apply (matrix_rounds 1000). lia. Defined.
