(* ===== verification/UserFiles.v ===== *)
(** * The user programs that work on files

    A process that only opens, closes, reads and writes files and prints sees its
    descriptors, the named files of [FsSpec] and the console ([fcall]).  The tests
    on files of user/src/bin are run on it to their end; [FileTheorems] shows that
    the kernel serves the calls as [fcall] says. *)

From Stdlib Require Import String.
From stdpp Require Import pretty.
From ITree Require Import Core.ITreeDefinition.
From S2P Require Import Prelude Address Layout FsOps FsCreate FsSpec Pack UserMem OsInode Syscall KFile KBuf KIo KExec User Unix UserLogic.

(** ** What the process sees *)
Inductive desc :=
  | ConsoleIn
  | ConsoleOut
  | OpenFile (name : list byte) (offset : Z) (readable writable : bool).

Record fproc := mkFproc {
  pfiles : named_files;
  pfds : list (option desc);
  pout : list byte;      (* what has been printed *)
  ptimes : list Z;       (* the times the clock will show *)
}.

Definition fd_at (s : fproc) (fd : Z) : option desc := mjoin (pfds s !! Z.to_nat fd).
Definition set_fd (s : fproc) (fd : Z) (o : option desc) : fproc := mkFproc (pfiles s) (<[Z.to_nat fd := o]> (pfds s)) (pout s) (ptimes s).
Definition set_pfiles (s : fproc) (a : named_files) : fproc := mkFproc a (pfds s) (pout s) (ptimes s).
Definition prints (s : fproc) (b : list byte) : fproc := mkFproc (pfiles s) (pfds s) (pout s ++ b) (ptimes s).
Definition set_ptimes (s : fproc) (l : list Z) : fproc := mkFproc (pfiles s) (pfds s) (pout s) l.

Definition ascii (b : list byte) : bool := forallb (fun x => byte.unsigned x <? 128) b.

(** A path up to its NUL. *)
Fixpoint c_string (path : list byte) : option (list byte) :=
  match path with
  | [] => None
  | b :: path => if decide (b = Byte.x00) then Some [] else cons b <$> c_string path
  end.

(** The answer to a call; none when it is not about files, waits for a character,
    prints what is not ASCII or makes the kernel panic. *)
Definition fcall {R} (e : sysE R) : fproc -> option (R * fproc) :=
  match e in sysE R return fproc -> option (R * fproc) with
  | SysOpen path flags => fun s =>
      match c_string path, flags_from_bits flags with
      | Some name, Some flags =>
          Some (match open_spec (chars name) flags (pfiles s) with
                | Some a => let (fd, fds) := fd_insert (pfds s) (OpenFile (chars name) 0 (read_write flags).1 (read_write flags).2) in
                            (Z.of_nat fd, mkFproc a fds (pout s) (ptimes s))
                | None => (-1, s)
                end)
      | _, _ => None
      end
  | SysClose fd => fun s => Some (if fd_at s fd is Some _ then (0, set_fd s fd None) else (-1, s))
  | SysRead fd len => fun s =>
      match fd_at s fd with
      | Some (OpenFile name offset true w) =>
          match lookup_name name (pfiles s) with
          | Some c => let data := take (Z.to_nat len) (drop (Z.to_nat offset) c) in Some ((zlen data, data), set_fd s fd (Some (OpenFile name (offset + zlen data) true w)))
          | None => None
          end
      | Some ConsoleIn => None
      | _ => Some ((-1, []), s)
      end
  | SysWrite fd buffer => fun s =>
      match fd_at s fd with
      | Some (OpenFile name offset r true) =>
          match lookup_name name (pfiles s) with
          | Some c => Some (zlen buffer, set_pfiles (set_fd s fd (Some (OpenFile name (offset + zlen buffer) r true))) (after_write name c offset buffer (pfiles s)))
          | None => None
          end
      | Some ConsoleOut => if ascii buffer then Some (zlen buffer, prints s buffer) else None
      | _ => Some (-1, s)
      end
  | SysGetTime => fun s => match ptimes s with now :: l => Some (now, set_ptimes s l) | [] => None end
  | _ => fun _ => None
  end.

(** The program ends, with a value or an exit code. *)
Inductive completes {A} : prog A -> fproc -> A + Z -> fproc -> Prop :=
  | c_ret t s r : observe t = RetF r -> completes t s (inl r) s
  | c_exit t s code k : observe t = VisF (SysExit code) k -> completes t s (inr code) s
  | c_tau t u s r s' : observe t = TauF u -> completes u s r s' -> completes t s r s'
  | c_call t X (e : sysE X) k s x s1 r s' : observe t = VisF e k -> fcall e s = Some (x, s1) -> completes (k x) s1 r s' -> completes t s r s'.

Local Open Scope prog_scope.

Lemma completes_eq {A} (t u : prog A) s r s' : observe t = observe u -> completes u s r s' -> completes t s r s'.
Proof.
  intros E H. destruct H as [u s v Eu|u s c h Eu|u w s v s1 Eu H|u X e h s z s2 v s1 Eu Hc H]; rewrite Eu in E;
    [by apply c_ret|by eapply c_exit|by eapply c_tau|by eapply c_call].
Qed.

Lemma completes_bind {A B} (t : prog A) (k : A -> prog B) s x s1 r s' : completes t s (inl x) s1 -> completes (k x) s1 r s' -> completes (ITree.bind t k) s r s'.
Proof.
  intros H. remember (inl x) as y eqn:Ey. revert Ey. induction H as [t s v E|t s c h E|t u s v s1 E H IH|t X e h s z s2 v s1 E Hc H IH]; intros Ey Hk; [injection Ey as ->|discriminate Ey|..].
  - apply (completes_eq _ (k x)); [|done]. by rewrite observe_bind, E.
  - eapply c_tau; [rewrite observe_bind, E; reflexivity|]. by apply IH.
  - eapply c_call; [rewrite observe_bind, E; reflexivity|exact Hc|]. by apply IH.
Qed.

Lemma completes_stop {A B} (t : prog A) (k : A -> prog B) s code s' : completes t s (inr code) s' -> completes (ITree.bind t k) s (inr code) s'.
Proof.
  intros H. remember (inr code) as y eqn:Ey. revert Ey. induction H as [t s v E|t s c h E|t u s v s1 E H IH|t X e h s z s2 v s1 E Hc H IH]; intros Ey; [discriminate Ey|injection Ey as ->|..].
  - eapply c_exit. rewrite observe_bind, E. reflexivity.
  - eapply c_tau; [rewrite observe_bind, E; reflexivity|]. by apply IH.
  - eapply c_call; [rewrite observe_bind, E; reflexivity|exact Hc|]. by apply IH.
Qed.

Lemma completes_call {A X} (e : sysE X) (k : X -> prog A) s x s1 r s' : fcall e s = Some (x, s1) -> completes (k x) s1 r s' -> completes (let* y := call e in k y) s r s'.
Proof. intros Hc Hk. eapply completes_bind; [|exact Hk]. eapply c_call; [reflexivity|exact Hc|]. by apply c_ret. Qed.

Lemma completes_ret {A} (x : A) s : completes (Ret x) s (inl x) s.
Proof. by apply c_ret. Qed.

Lemma completes_exit {A} code s : completes (exit (R := A) code) s (inr code) s.
Proof. by eapply c_exit. Qed.

(** ** What is printed is ASCII *)
Lemma ascii_Forall b : ascii b = true <-> Forall (fun x => byte.unsigned x < 128) b.
Proof. unfold ascii. rewrite forallb_forall, Forall_forall. split; intros H x Hx; [apply Z.ltb_lt, H|apply Z.ltb_lt, H]; by apply list_elem_of_In. Qed.

Lemma ascii_app b1 b2 : ascii (b1 ++ b2) = ascii b1 && ascii b2.
Proof. apply forallb_app. Qed.

Lemma ascii_utf8 b : ascii b = true -> utf8_valid b = true.
Proof.
  induction b as [|x b IH]; [done|]. cbn [ascii forallb utf8_valid]. intros [Hx%Z.ltb_lt Hb]%andb_prop. pose proof (byte.unsigned_range x).
  assert (in_range x 0 0x7f = true) as -> by (unfold in_range; apply andb_true_intro; split; apply Z.leb_le; lia). by apply IH.
Qed.

Lemma digit_ascii n : (byte.unsigned (Ascii.byte_of_ascii (pretty_N_char n)) <? 128) = true.
Proof. unfold pretty_N_char. repeat case_match; reflexivity. Qed.

Lemma number_ascii (n : N) : ascii (str (pretty n)) = true.
Proof.
  assert (H : forall (n : N) s, ascii (str s) = true -> ascii (str (pretty_N_go n s)) = true).
  { intros m. induction (N.lt_wf_0 m) as [m _ IH]. intros s Hs. destruct (decide (m = 0)%N) as [->|Hm]; [by rewrite pretty_N_go_0|]. rewrite pretty_N_go_step by lia.
    apply IH; [apply N.div_lt; lia|]. cbn. by rewrite digit_ascii. }
  unfold pretty, pretty_N. case_decide; [reflexivity|]. by apply H.
Qed.

Lemma show_ascii n : Forall (fun b => ascii b = true) (show n).
Proof. unfold show. destruct (n <? 0); repeat constructor; apply number_ascii. Qed.

Lemma completes_print pieces s : fd_at s STDOUT = Some ConsoleOut -> Forall (fun b => ascii b = true) pieces -> completes (print pieces) s (inl tt) (prints s (concat pieces)).
Proof.
  unfold print. intros Hc Ha. revert s Hc. induction Ha as [|b pieces Hb Ha IH]; intros s Hc; cbn [for_ concat].
  - replace (prints s []) with s by (unfold prints; rewrite app_nil_r; by destruct s). by apply c_ret.
  - eapply completes_bind; [eapply completes_call; [cbn [fcall]; rewrite Hc, Hb; reflexivity|apply completes_ret]|].
    replace (prints s (b ++ concat pieces)) with (prints (prints s b) (concat pieces)) by (unfold prints; cbn; by rewrite app_assoc). by apply IH.
Qed.

(** ** Descriptors *)

(** The console is open, and there is room for [n] descriptors. *)
Record std (s : fproc) (n : Z) : Prop := {
  std_in : fd_at s STDIN = Some ConsoleIn;
  std_out : fd_at s STDOUT = Some ConsoleOut;
  std_room : zlen (pfds s) + n < 2 ^ 63;
}.

Definition same_fds (s s' : fproc) : Prop := forall j, 0 <= j -> fd_at s' j = fd_at s j.

Lemma fd_at_set s fd o j : is_Some (fd_at s fd) -> 0 <= fd -> 0 <= j -> fd_at (set_fd s fd o) j = if decide (j = fd) then o else fd_at s j.
Proof.
  unfold fd_at, set_fd. cbn. intros [d Hd] Hfd Hj. case_decide as Hc.
  - subst j. rewrite list_lookup_insert_eq; [done|]. destruct (pfds s !! Z.to_nat fd) eqn:E; [|done]. by eapply lookup_lt_Some.
  - rewrite list_lookup_insert_ne; [done|]. lia.
Qed.

(** A descriptor [fd] for [d] has been opened. *)
Record opened_fd (s s' : fproc) (fd : Z) (d : desc) : Prop := {
  of_fd : 1 < fd < 2 ^ 63;
  of_free : fd_at s fd = None;
  of_new : fd_at s' fd = Some d;
  of_other j : 0 <= j -> j <> fd -> fd_at s' j = fd_at s j;
  of_out : pout s' = pout s;
  of_times : ptimes s' = ptimes s;
  of_len : zlen (pfds s') <= zlen (pfds s) + 1;
}.

Lemma open_call s n path name flags a : c_string path = Some name -> flags_from_bits flags = Some flags -> open_spec (chars name) flags (pfiles s) = Some a -> std s n -> 0 <= n ->
  exists fd s', fcall (SysOpen path flags) s = Some (fd, s') /\ opened_fd s s' fd (OpenFile (chars name) 0 (read_write flags).1 (read_write flags).2) /\ pfiles s' = a.
Proof.
  intros Hp Hf Ho [H0 H1 Hl] Hn. cbn [fcall]. rewrite Hp, Hf, Ho. set (d := OpenFile _ _ _ _). destruct (fd_insert_lookup (pfds s) d) as [Hfree Hrest].
  assert (Hlen : Z.of_nat (fd_insert (pfds s) d).1 <= zlen (pfds s) /\ zlen (fd_insert (pfds s) d).2 <= zlen (pfds s) + 1).
  { unfold fd_insert. destruct (list_find _ _) as [[i o]|] eqn:E; cbn [fst snd]; unfold zlen; [rewrite length_insert|rewrite length_app; cbn [length]; lia].
    apply list_find_Some in E as (E & _). apply lookup_lt_Some in E. lia. }
  destruct (fd_insert (pfds s) d) as [fd fds]. cbn [fst snd] in *. eexists _, _. split; [reflexivity|]. split; [|done]. unfold fd_at in H0, H1. change (Z.to_nat STDIN) with 0%nat in H0. change (Z.to_nat STDOUT) with 1%nat in H1. split; unfold fd_at; cbn [pfds pout ptimes]; rewrite ?Nat2Z.id.
  - split; [|lia]. destruct fd as [|[|fd]]; [congruence|congruence|lia].
  - done.
  - by rewrite Hrest, decide_True.
  - intros j Hj Hne. rewrite Hrest, decide_False; [done|]. lia.
  - done.
  - done.
  - lia.
Qed.

Lemma opened_std s s' fd d n : opened_fd s s' fd d -> std s (n + 1) -> std s' n.
Proof. intros [Hfd _ _ Ho _ _ Hl] [H0 H1 Hr]. split; [rewrite Ho; [done|done|unfold STDIN; lia]|rewrite Ho; [done|done|unfold STDOUT; lia]|lia]. Qed.

(** Closing it restores the descriptors. *)
Lemma close_call s fd d : fd_at s fd = Some d -> fcall (SysClose fd) s = Some (0, set_fd s fd None).
Proof. cbn [fcall]. by intros ->. Qed.

(** ** [filetest_simple] *)

Lemma completes_assert file at_line cond b s : b = true -> completes (assert_that file at_line cond b) s (inl tt) s.
Proof. intros ->. apply completes_ret. Qed.

Lemma lookup_update_ne name n c a : n <> name -> lookup_name n (update_name name c a) = lookup_name n a.
Proof.
  intros Hn. induction a as [|[m d] a IH]; [done|]. cbn [update_name lookup_name]. destruct (decide (m = name)) as [->|]; cbn [lookup_name]; [by rewrite !decide_False by congruence|].
  by rewrite IH.
Qed.

Lemma lookup_app_ne name n c a : n <> name -> lookup_name n (a ++ [(name, c)]) = lookup_name n a.
Proof.
  intros Hn. induction a as [|[m d] a IH]; cbn [app lookup_name]; [by rewrite decide_False by congruence|]. by rewrite IH.
Qed.

Lemma open_create name flags a : contains flags CREATE = true -> exists a', open_spec name flags a = Some a' /\ lookup_name name a' = Some [] /\
  forall n, n <> name -> lookup_name n a' = lookup_name n a.
Proof.
  unfold open_spec. intros ->. cbn [orb]. destruct (lookup_name name a) as [c|] eqn:El; eexists; (split; [done|]); split.
  - apply lookup_update. eauto.
  - intros n Hn. by apply lookup_update_ne.
  - apply lookup_last. by apply lookup_None_notin.
  - intros n Hn. by apply lookup_app_ne.
Qed.

(** A file opened for writing with [fd], and closed again. *)
Lemma write_call s fd name offset c buffer : fd_at s fd = Some (OpenFile name offset false true) -> lookup_name name (pfiles s) = Some c ->
  fcall (SysWrite fd buffer) s = Some (zlen buffer, set_pfiles (set_fd s fd (Some (OpenFile name (offset + zlen buffer) false true))) (after_write name c offset buffer (pfiles s))).
Proof. cbn [fcall]. by intros -> ->. Qed.

Lemma read_call s fd name offset c len : fd_at s fd = Some (OpenFile name offset true false) -> lookup_name name (pfiles s) = Some c ->
  let data := take (Z.to_nat len) (drop (Z.to_nat offset) c) in
  fcall (SysRead fd len) s = Some ((zlen data, data), set_fd s fd (Some (OpenFile name (offset + zlen data) true false))).
Proof. cbn [fcall]. by intros -> ->. Qed.

(** The state [s'] differs from [s] in the descriptor [fd] only, that is [o]. *)
Record fd_changed (s s' : fproc) (fd : Z) (o : option desc) : Prop := {
  fc_new : fd_at s' fd = o;
  fc_other j : 0 <= j -> j <> fd -> fd_at s' j = fd_at s j;
  fc_len : zlen (pfds s') <= zlen (pfds s) + 1;
}.

Lemma opened_changed s s' fd d : opened_fd s s' fd d -> fd_changed s s' fd (Some d).
Proof. intros []. by split. Qed.

Lemma changed_set s s' fd d o a : 0 <= fd -> fd_changed s s' fd (Some d) -> fd_changed s (set_pfiles (set_fd s' fd o) a) fd o.
Proof.
  intros Hfd [Hn Ho Hl]. assert (Hs : is_Some (fd_at s' fd)) by eauto. split.
  - change (fd_at (set_fd s' fd o) fd = o). rewrite fd_at_set by done. by rewrite decide_True.
  - intros j Hj Hne. change (fd_at (set_fd s' fd o) j = fd_at s j). rewrite fd_at_set by done. rewrite decide_False by done. by apply Ho.
  - cbn [pfds set_pfiles set_fd]. unfold zlen. by rewrite length_insert.
Qed.

Lemma changed_set_fd s s' fd d o : 0 <= fd -> fd_changed s s' fd (Some d) -> fd_changed s (set_fd s' fd o) fd o.
Proof. apply (changed_set s s' fd d o (pfiles s')). Qed.

Lemma changed_closed s s' fd : fd_at s fd = None -> fd_changed s s' fd None -> same_fds s s'.
Proof. intros Hf [Hn Ho _] j Hj. destruct (decide (j = fd)) as [->|Hne]; [congruence|by apply Ho]. Qed.

Lemma same_std s s' n m : same_fds s s' -> std s n -> zlen (pfds s') + m < 2 ^ 63 -> std s' m.
Proof. intros Hs [H0 H1 _] Hl. split; [by rewrite Hs|by rewrite Hs|done]. Qed.

Lemma completes_start {main s code s'} : completes main s (inl code) s' -> completes (start main) s (inr code) s'.
Proof. intros H. eapply completes_bind; [exact H|]. apply completes_exit. Qed.

Lemma filetest_simple_completes s : std s 2 -> exists s', completes filetest_simple.main s (inl 0) s' /\
  lookup_name (str "filea") (pfiles s') = Some filetest_simple.test_str /\ (forall n, n <> str "filea" -> lookup_name n (pfiles s') = lookup_name n (pfiles s)) /\
  pout s' = pout s ++ line "file_test passed!" /\ same_fds s s' /\ zlen (pfds s') <= zlen (pfds s) + 2.
Proof.
  intros Hstd. destruct (open_create (str "filea") (Z.lor OpenFlags.CREATE OpenFlags.WRONLY) (pfiles s) eq_refl) as (a & Ho & Ha & Hoth).
  destruct (open_call s 2 filetest_simple.filea (str "filea") (Z.lor OpenFlags.CREATE OpenFlags.WRONLY) a eq_refl eq_refl Ho Hstd ltac:(lia)) as (fd & s1 & E1 & H1 & Hf1). pose proof (of_fd _ _ _ _ H1) as Hfd.
  pose proof (write_call s1 fd (str "filea") 0 [] filetest_simple.test_str (of_new _ _ _ _ H1) ltac:(by rewrite Hf1)) as E2. set (s2 := set_pfiles _ _) in E2.
  assert (C2 : fd_changed s s2 fd _) by (eapply changed_set; [lia|by apply opened_changed]).
  pose proof (close_call s2 fd _ (fc_new _ _ _ _ C2)) as E3. set (s3 := set_fd s2 fd None) in E3. assert (C3 : fd_changed s s3 fd None) by (eapply changed_set_fd; [lia|done]).
  pose proof (changed_closed _ _ _ (of_free _ _ _ _ H1) C3) as Hsame. pose proof (fc_len _ _ _ _ C3) as Hl3. assert (Hstd3 : std s3 1) by (eapply same_std; [done|done|destruct Hstd; lia]).
  assert (Hc3 : lookup_name (str "filea") (pfiles s3) = Some filetest_simple.test_str).
  { cbn [s3 s2 pfiles set_fd set_pfiles]. rewrite Hf1. change (after_write _ _ _ _ a) with (update_name (str "filea") filetest_simple.test_str a). apply lookup_update. eauto. }
  destruct (open_call s3 1 filetest_simple.filea (str "filea") RDONLY (pfiles s3) eq_refl eq_refl (open_read_none _ _ _ Hc3) Hstd3 ltac:(lia)) as (fd' & s4 & E4 & H4 & Hf4).
  pose proof (of_fd _ _ _ _ H4) as Hfd'. pose proof (read_call s4 fd' (str "filea") 0 _ 100 (of_new _ _ _ _ H4) ltac:(rewrite Hf4; exact Hc3)) as E5. cbv zeta in E5.
  change (take _ _) with filetest_simple.test_str in E5. set (s5 := set_fd s4 _ _) in E5. assert (C5 : fd_changed s3 s5 fd' _) by (eapply changed_set_fd; [lia|by apply opened_changed]).
  pose proof (close_call s5 fd' _ (fc_new _ _ _ _ C5)) as E6. set (s6 := set_fd s5 fd' None) in E6. assert (C6 : fd_changed s3 s6 fd' None) by (eapply changed_set_fd; [lia|done]).
  pose proof (changed_closed _ _ _ (of_free _ _ _ _ H4) C6) as Hsame'. exists (prints s6 (line "file_test passed!")). split_and!.
  - unfold filetest_simple.main, open, close, read, write. eapply completes_call; [exact E1|]. eapply completes_bind; [apply completes_assert, Z.ltb_lt; lia|]. cbv zeta. rewrite (w64_small fd) by lia.
    eapply completes_call; [exact E2|]. eapply completes_call; [exact E3|]. eapply completes_call; [exact E4|]. eapply completes_bind; [apply completes_assert, Z.ltb_lt; lia|]. rewrite (w64_small fd') by lia.
    eapply completes_call; [exact E5|]. eapply completes_call; [exact E6|]. eapply completes_bind; [by apply c_ret|]. eapply completes_bind; [by apply c_ret|].
    eapply completes_bind; [apply completes_print; [rewrite Hsame', Hsame by done; apply Hstd|by repeat constructor]|]. cbn [concat]. rewrite app_nil_r. apply completes_ret.
  - cbn [prints pfiles]. change (pfiles s6) with (pfiles s4). by rewrite Hf4.
  - intros n Hn. change (pfiles (prints s6 _)) with (pfiles s4). rewrite Hf4. change (pfiles s3) with (update_name (str "filea") filetest_simple.test_str (pfiles s1)).
    rewrite lookup_update_ne by done. rewrite Hf1. by apply Hoth.
  - cbn [prints pout]. f_equal. change (pout s6) with (pout s4). rewrite (of_out _ _ _ _ H4). change (pout s3) with (pout s1). apply (of_out _ _ _ _ H1).
  - intros j Hj. change (fd_at (prints s6 _) j) with (fd_at s6 j). by rewrite Hsame', Hsame.
  - change (pfds (prints s6 _)) with (pfds s6). pose proof (fc_len _ _ _ _ C6). lia.
Qed.

(** ** [cat_filea] *)

Lemma completes_iter {A B} (step : A -> prog (A + B)) i s x s1 r s' : completes (step i) s (inl x) s1 ->
  completes (match x with inl i => ITree.iter step i | inr b => Ret b end) s1 r s' -> completes (ITree.iter step i) s r s'.
Proof.
  intros H1 H2. apply (completes_eq _ (ITree.bind (step i) (fun x => match x with inl i => Tau (ITree.iter step i) | inr b => Ret b end))); [reflexivity|].
  eapply completes_bind; [exact H1|]. destruct x; [by eapply c_tau|done].
Qed.

Lemma completes_panic {A} file at_line err s : fd_at s STDOUT = Some ConsoleOut -> Forall (fun b => ascii b = true) (str file :: err) ->
  exists text, completes (panic (R := A) file at_line err) s (inr (-1)) (prints s text).
Proof.
  intros Hs He. eexists. eapply completes_bind; [|apply completes_exit]. apply completes_print; [done|]. inversion He; subst.
  repeat first [apply Forall_app; split|apply Forall_cons; split|apply Forall_nil|done|apply show_ascii].
Qed.

(** What it prints for the contents [c]: the pieces of 256 bytes, with a newline each. *)
Fixpoint pieces (fuel : nat) (c : list byte) : list byte :=
  match fuel with
  | O => []
  | S fuel => if c is [] then [] else take 256 c ++ [Byte.x0a] ++ pieces fuel (drop 256 c)
  end.

Lemma ascii_take n b : ascii b = true -> ascii (take n b) = true.
Proof. rewrite !ascii_Forall. apply Forall_take. Qed.
Lemma ascii_drop n b : ascii b = true -> ascii (drop n b) = true.
Proof. rewrite !ascii_Forall. apply Forall_drop. Qed.

Lemma fill_length buf data : (length data <= length buf)%nat -> length (fill buf data) = length buf.
Proof. intros H. unfold fill. rewrite length_app, length_drop. lia. Qed.

Lemma completes_text file at_line buf data s : (length data <= length buf)%nat -> zlen buf < 2 ^ 64 -> utf8_valid data = true ->
  completes (text file at_line (fill buf data) (zlen data)) s (inl data) s.
Proof.
  intros Hl Hb Hu. unfold text. pose proof (fill_length buf data Hl) as Hf. rewrite w64_small by (unfold zlen in *; lia). destruct (Z.ltb_spec (zlen (fill buf data)) (zlen data)); [unfold zlen in *; lia|].
  unfold fill at 1 2. replace (Z.to_nat (zlen data)) with (length data) by (unfold zlen; lia). rewrite take_app_length, Hu. apply completes_ret.
Qed.

Lemma set_fd_same s fd d d' : set_fd (set_fd s fd d) fd d' = set_fd s fd d'.
Proof. unfold set_fd. cbn. by rewrite list_insert_insert_eq. Qed.

Lemma set_fd_id s fd : is_Some (fd_at s fd) -> set_fd s fd (fd_at s fd) = s.
Proof.
  intros [d Hd]. unfold set_fd, fd_at in *. destruct (pfds s !! Z.to_nat fd) as [o|] eqn:E; [|done]. cbn. rewrite list_insert_id by done. by destruct s.
Qed.

Lemma rest_drop n off (c : list byte) : 0 <= off -> drop (Z.to_nat (off + zlen (take n (drop (Z.to_nat off) c)))) c = drop n (drop (Z.to_nat off) c).
Proof.
  intros Ho. rewrite drop_drop. unfold zlen. rewrite length_take, length_drop. destruct (decide (n <= length c - Z.to_nat off)%nat); [f_equal; lia|]. rewrite !drop_ge by lia. done.
Qed.

Lemma cat_loop fd name c w : 0 <= fd -> fd <> STDOUT -> ascii c = true -> forall fuel off buf s, zlen c - off <= Z.of_nat fuel -> 0 <= off -> length buf = 256%nat ->
  fd_at s fd = Some (OpenFile name off true w) -> fd_at s STDOUT = Some ConsoleOut -> lookup_name name (pfiles s) = Some c ->
  exists o, completes (ITree.iter (cat_filea.body fd) buf) s (inl tt) (prints (set_fd s fd (Some (OpenFile name o true w))) (pieces fuel (drop (Z.to_nat off) c))).
Proof.
  intros Hfd Hne Ha. induction fuel as [|fuel IH]; intros off buf s Hf Hoff Hb Hd Ho Hl; set (rest := drop (Z.to_nat off) c).
  1: assert (Er : rest = []) by (apply drop_ge; unfold zlen in Hf; lia).
  2: destruct (decide (rest = [])) as [Er|Er].
  1,2: exists (off + 0); replace (pieces _ rest) with (@nil byte) by (by rewrite Er); eapply completes_iter; [unfold cat_filea.body, read; eapply completes_call; [cbn [fcall]; rewrite Hd, Hl; fold rest; rewrite Er; reflexivity|apply completes_ret]|];
    cbv beta iota; unfold prints; rewrite app_nil_r; by apply c_ret.
  set (data := take 256 rest). assert (Hdl : (length data <= 256)%nat) by (unfold data; rewrite length_take; lia). assert (Hdn : zlen data <> 0).
  { unfold data. destruct rest; [done|]. unfold zlen. cbn. lia. }
  assert (Had : ascii data = true) by (by apply ascii_take, ascii_drop). set (s1 := set_fd s fd (Some (OpenFile name (off + zlen data) true w))).
  assert (Hs1 : fd_at s1 STDOUT = Some ConsoleOut) by (unfold s1; rewrite fd_at_set by (rewrite ?Hd; eauto; unfold STDOUT; lia); by rewrite decide_False).
  destruct (IH (off + zlen data) (fill buf data) (prints s1 (data ++ [Byte.x0a]))) as [o Hrec].
  - unfold zlen in *. lia.
  - pose proof (zlen_nonneg data). lia.
  - rewrite fill_length; lia.
  - change (fd_at (prints s1 _) fd) with (fd_at s1 fd). unfold s1. rewrite fd_at_set by (rewrite ?Hd; eauto). by rewrite decide_True.
  - done.
  - done.
  - exists o. eapply completes_iter.
    + unfold cat_filea.body, read. eapply completes_call; [cbn [fcall]; rewrite Hd, Hl; reflexivity|]. cbv beta iota zeta. fold rest data. change (take (Z.to_nat 256) rest) with data. fold s1.
      rewrite (w64_small (zlen data)) by (unfold zlen; lia). rewrite (proj2 (Z.eqb_neq _ _) Hdn). eapply completes_bind; [apply completes_text; [lia|unfold zlen; lia|by apply ascii_utf8]|].
      eapply completes_bind; [apply completes_print; [done|]|apply completes_ret]. repeat constructor. done.
    + cbv beta iota. cbn [concat]. rewrite app_nil_r. replace (prints (set_fd s _ _) (pieces (S fuel) rest)) with
        (prints (set_fd (prints s1 (data ++ [Byte.x0a])) fd (Some (OpenFile name o true w))) (pieces fuel (drop (Z.to_nat (off + zlen data)) c))); [done|].
      unfold data, rest at 2. rewrite rest_drop by done. fold rest. unfold s1, prints, set_fd. cbn [pfiles pfds pout ptimes]. rewrite list_insert_insert_eq. f_equal.
      cbn [pieces]. destruct rest; [done|]. by rewrite <- !app_assoc.
Qed.

Lemma cat_filea_completes s c : std s 1 -> lookup_name (str "filea") (pfiles s) = Some c -> ascii c = true ->
  exists s', completes cat_filea.main s (inl 0) s' /\ pfiles s' = pfiles s /\ pout s' = pout s ++ pieces (length c) c /\ same_fds s s'.
Proof.
  intros Hstd Hc Ha. destruct (open_call s 1 (cstr "filea") (str "filea") RDONLY (pfiles s) eq_refl eq_refl (open_read_none _ _ _ Hc) Hstd ltac:(lia)) as (fd & s1 & E1 & H1 & Hf1).
  pose proof (of_fd _ _ _ _ H1) as Hfd. assert (Hstd1 : std s1 0) by (eapply opened_std; [exact H1|exact Hstd]).
  destruct (cat_loop fd (str "filea") c false ltac:(lia) ltac:(unfold STDOUT; lia) Ha (length c) 0 (replicate 256 Byte.x00) s1) as [o Hloop];
    [unfold zlen; lia|lia|done|apply (of_new _ _ _ _ H1)|apply (std_out _ _ Hstd1)|by rewrite Hf1|].
  change (drop (Z.to_nat 0) c) with c in Hloop. set (s2 := set_fd s1 fd _) in Hloop. assert (C2 : fd_changed s s2 fd _) by (eapply changed_set_fd; [lia|by apply opened_changed]).
  pose proof (close_call (prints s2 (pieces (length c) c)) fd _ (fc_new _ _ _ _ C2)) as E3. eexists. split; [|split_and!].
  - unfold cat_filea.main, open, close. eapply completes_call; [exact E1|]. destruct (Z.eqb_spec fd (-1)); [lia|]. eapply completes_bind; [apply completes_ret|]. cbv zeta. rewrite (w64_small fd) by lia.
    eapply completes_bind; [exact Hloop|]. eapply completes_call; [exact E3|]. apply completes_ret.
  - done.
  - cbn [set_fd pout prints s2]. by rewrite (of_out _ _ _ _ H1).
  - apply (changed_closed s _ fd); [apply (of_free _ _ _ _ H1)|]. destruct (changed_set_fd s s2 fd _ None ltac:(lia) C2). by split.
Qed.

Lemma cat_filea_missing s : std s 0 -> lookup_name (str "filea") (pfiles s) = None -> exists text, completes cat_filea.main s (inr (-1)) (prints s text).
Proof.
  intros Hstd Hc. destruct (completes_panic (A := unit) "src/bin/cat_filea.rs" 14 [str "Error occured when opening file"] s (std_out _ _ Hstd)) as [text Ht]; [by repeat constructor|]. exists text.
  unfold cat_filea.main, open. eapply completes_call.
  - cbn [fcall]. change (c_string (cstr "filea")) with (Some (str "filea")). change (flags_from_bits OpenFlags.RDONLY) with (Some 0). cbv iota. change (chars (str "filea")) with (str "filea").
    unfold open_spec. rewrite Hc. reflexivity.
  - cbv beta iota. by eapply completes_stop.
Qed.

(** ** [huge_write] *)

(** The file [name], open for writing at its end with [fd], has the contents [c]. *)
Definition at_end (s : fproc) (fd : Z) (name c : list byte) : Prop :=
  fd_at s fd = Some (OpenFile name (zlen c) false true) /\ lookup_name name (pfiles s) = Some c.

Definition appended (s : fproc) (fd : Z) (name c : list byte) : fproc :=
  set_pfiles (set_fd s fd (Some (OpenFile name (zlen c) false true))) (update_name name c (pfiles s)).

Lemma appended_at_end s fd name c c' : 0 <= fd -> at_end s fd name c -> at_end (appended s fd name c') fd name c'.
Proof.
  intros Hfd [Hd Hl]. split; [|apply lookup_update; eauto]. change (fd_at (set_fd s fd (Some (OpenFile name (zlen c') false true))) fd = Some (OpenFile name (zlen c') false true)).
  rewrite fd_at_set by eauto. by rewrite decide_True.
Qed.

Lemma appended_twice s fd name c c' : appended (appended s fd name c) fd name c' = appended s fd name c'.
Proof. unfold appended, set_pfiles, set_fd. cbn. by rewrite list_insert_insert_eq, update_twice. Qed.

Lemma append_call s fd name c b : b <> [] -> at_end s fd name c -> fcall (SysWrite fd b) s = Some (zlen b, appended s fd name (c ++ b)).
Proof.
  intros Hb [Hd Hl]. rewrite (write_call s fd name (zlen c) c b Hd Hl). unfold appended, after_write. rewrite written_end. destruct b; [done|]. assert (zlen (c ++ b :: b0) = zlen c + zlen (b :: b0)) as -> by (unfold zlen; rewrite length_app; lia). done.
Qed.

Lemma write_loop fd name b : 0 <= fd -> b <> [] -> forall (l : list nat) s c, at_end s fd name c -> l <> [] ->
  completes (for_ l (fun _ => write fd b;; Ret tt)) s (inl tt) (appended s fd name (c ++ concat (replicate (length l) b))).
Proof.
  intros Hfd Hb l. induction l as [|i l IH]; intros s c Hs Hl; [done|]. cbn [for_]. eapply completes_bind; [eapply completes_call; [by apply append_call|apply completes_ret]|].
  cbn [length replicate concat]. rewrite app_assoc. destruct l as [|j l]; [cbn; rewrite app_nil_r; apply completes_ret|].
  rewrite <- (appended_twice s fd name (c ++ b) ((c ++ b) ++ concat (replicate (length (j :: l)) b))). apply IH; [by eapply appended_at_end|done].
Qed.

(** Its last words. *)
Lemma completes_report t0 t1 s : fd_at s STDOUT = Some ConsoleOut -> t0 <= t1 < t0 + 2 ^ 64 -> exists r text,
  completes (let time_ms := w64 (t1 - t0) in
    let* speed_kbs := if time_ms =? 0 then panic "src/bin/huge_write.rs" 27 [str "attempt to divide by zero"] else Ret (huge_write.size_mb * 1000000 / time_ms) in
    print (show huge_write.size_mb ++ [str "MiB written, time cost = "] ++ show time_ms ++ [str "ms, write speed = "] ++ show speed_kbs ++ [line "KiB/s"]);;
    Ret 0) s r (prints s text) /\ r = if t1 =? t0 then inr (-1) else inl 0.
Proof.
  intros Ho Ht. cbv zeta. rewrite w64_small by lia. destruct (Z.eqb_spec t1 t0) as [->|Hne].
  - rewrite Z.sub_diag. destruct (completes_panic (A := Z) "src/bin/huge_write.rs" 27 [str "attempt to divide by zero"] s Ho) as [text Hp]; [by repeat constructor|].
    eexists _, text. split; [eapply completes_stop; exact Hp|done].
  - destruct (Z.eqb_spec (t1 - t0) 0); [lia|]. eexists _, _. split; [|done]. eapply completes_bind; [apply completes_ret|]. eapply completes_bind; [apply completes_print; [done|]|apply completes_ret].
    repeat first [apply Forall_app; split|apply Forall_cons; split|apply Forall_nil|apply show_ascii|reflexivity].
Qed.

Lemma huge_write_completes s t0 t1 times : std s 1 -> ptimes s = t0 :: t1 :: times -> t0 <= t1 < t0 + 2 ^ 64 -> exists r s', completes huge_write.main s r s' /\
  r = (if t1 =? t0 then inr (-1) else inl 0) /\ lookup_name (str "testf") (pfiles s') = Some (concat (replicate 1024 huge_write.buffer)) /\
  (forall n, n <> str "testf" -> lookup_name n (pfiles s') = lookup_name n (pfiles s)).
Proof.
  intros Hstd Ht Hle. destruct (open_create (str "testf") (Z.lor OpenFlags.CREATE OpenFlags.WRONLY) (pfiles s) eq_refl) as (a & Ho & Ha & Hoth).
  destruct (open_call s 1 (cstr "testf") (str "testf") (Z.lor OpenFlags.CREATE OpenFlags.WRONLY) a eq_refl eq_refl Ho Hstd ltac:(lia)) as (fd & s1 & E1 & H1 & Hf1). pose proof (of_fd _ _ _ _ H1) as Hfd.
  set (s2 := set_ptimes s1 (t1 :: times)). assert (E2 : fcall SysGetTime s1 = Some (t0, s2)) by (cbn [fcall]; by rewrite (of_times _ _ _ _ H1), Ht).
  assert (He : at_end s2 fd (str "testf") []) by (split; [apply (of_new _ _ _ _ H1)|cbn; by rewrite Hf1]).
  pose proof (write_loop fd (str "testf") huge_write.buffer ltac:(lia) ltac:(done) (seq 0 (Z.to_nat (1024 * huge_write.size_mb))) s2 [] He ltac:(done)) as Hw. rewrite length_seq in Hw.
  change (Z.to_nat (1024 * huge_write.size_mb)) with 1024%nat in Hw. set (mib := [] ++ concat (replicate 1024 huge_write.buffer)) in Hw. set (s3 := appended s2 fd _ mib) in Hw.
  assert (C3 : fd_changed s s3 fd (Some (OpenFile (str "testf") (zlen mib) false true))).
  { destruct (changed_set s s1 fd _ (Some (OpenFile (str "testf") (zlen mib) false true)) (pfiles s3) ltac:(lia) (opened_changed _ _ _ _ H1)). by split. }
  set (s4 := set_fd s3 fd None). pose proof (close_call s3 fd _ (fc_new _ _ _ _ C3)) as E4. fold s4 in E4. set (s5 := set_ptimes s4 times). assert (E5 : fcall SysGetTime s4 = Some (t1, s5)) by done.
  assert (C4 : fd_changed s s4 fd None) by (eapply changed_set_fd; [lia|done]). destruct (completes_report t0 t1 s5) as (r & text & Hr & Er); [|done|].
  { change (fd_at s5 STDOUT) with (fd_at s4 STDOUT). rewrite (changed_closed _ _ _ (of_free _ _ _ _ H1) C4) by done. apply Hstd. }
  exists r, (prints s5 text). split_and!; [|done| |].
  - unfold huge_write.main, open, close, get_time. eapply completes_call; [exact E1|]. destruct (Z.ltb_spec fd 0); [lia|]. eapply completes_bind; [apply completes_ret|]. cbv zeta. rewrite (w64_small fd) by lia.
    eapply completes_call; [exact E2|]. eapply completes_bind; [exact Hw|]. eapply completes_call; [exact E4|]. eapply completes_call; [exact E5|]. exact Hr.
  - change (pfiles (prints s5 text)) with (update_name (str "testf") mib (pfiles s1)). apply lookup_update. rewrite Hf1. eauto.
  - intros n Hn. change (pfiles (prints s5 text)) with (update_name (str "testf") mib (pfiles s1)). rewrite lookup_update_ne by done. rewrite Hf1. by apply Hoth.
Qed.
