(* ===== verification/KDemo.v ===== *)
(** * A machine that boots

    The layout of the QEMU board, an image packed with one program, and the
    states the kernel reaches from there, on which the theorems about the kernel
    are instantiated. *)

From S2P Require Import Prelude BlockDev BlockStore BlockCache Bitmap Layout DiskCodec Tree BuildTree TreeOps ClearTree InodeOps FileData Efs Vfs FsInv FsAlloc FsUpdate FsOps FsDir FsCreate FsSpec FsRefine Pack Address Frames PageTable PtInv PtOps Space MemorySet AreaOps MsOps MsLife MsBuild UserMem World Kernel OsInode Task Syscall Boot Pids CxMem KLogic KInv KSched KProc KFork KTree KExit KWait KFile KBuf KIo KExec KSafe KRun KBoot.

#[export] Existing Instance BlockFile.file_device.
#[export] Existing Instance BlockFile.file_device_spec.
Abbreviation Store := (CacheState BlockFile.File).
Abbreviation OS := (Kernel Store StackFrameAllocator).

(** ** The program: two pages, the first of which starts with its own name *)
Definition init_data : list byte := init_name ++ [Byte.x00].
Definition init_header : ProgramHeader := mkHeader (Some true) 0x10000 5000 0 9 true true true.
Definition init_elf : ElfFile := mkElf [0x7f; 0x45; 0x4c; 0x46] [Some init_header] 0x10000.

Definition board : Env :=
  mkEnv (fun d => if decide (d = init_data) then Some init_elf else None) 0x80200000 0x80201000 0x60 0x8000000000006000
    (fun _ => 97) (fun n => 1000 * Z.of_nat n) 100.

(** ** The machine *)
Definition qemu_layout : KernelLayout :=
  mkLayout 0x80200000 0x80212000 0x80212000 0x80217000 0x80217000 0x8021a000 0x8021a000 0x8042b000 0x8042b000 0x80200000.
Definition qemu_end : Z := 0x801000000.
Definition qemu_mmio : list (Z * Z) := [(0x100000, 0x2000); (0x10001000, 0x1000)].

Abbreviation LO := (first_frame qemu_layout).
Abbreviation HI := (last_frame qemu_end).
Abbreviation SHAPES := (kernel_shapes qemu_layout qemu_end qemu_mmio).

(** A board with memory up to [MEMORY_END], as the kernel takes for granted: more
    than QEMU gives the machine unless it is told. *)
Definition qemu_ram : gmap Z (list byte) := gset_to_gmap zero_page (list_to_set (seqZ LO (HI - LO))).

Lemma zero_pages (X : gset Z) : pages_ok (gset_to_gmap zero_page X).
Proof. intros p b Hb. apply lookup_gset_to_gmap_Some in Hb as [_ <-]. by vm_compute. Qed.

Lemma LO_eq : LO = 0x8042b.
Proof. by vm_compute. Qed.
Lemma HI_eq : HI = 0x801000.
Proof. by vm_compute. Qed.

Lemma qemu_setup : setup_ok board LO HI SHAPES.
Proof.
  split; [by vm_compute| |by vm_compute|split; [split; by vm_compute|by vm_compute]|split; split; by vm_compute|done].
  repeat (apply Forall_cons_2; [by vm_compute|]). constructor.
Qed.

Lemma qemu_board : board_ok board qemu_layout qemu_end qemu_mmio qemu_ram.
Proof.
  split.
  - exact qemu_setup.
  - split; by vm_compute.
  - done.
  - intros pair Hp. repeat (apply elem_of_cons in Hp as [->|Hp]; [by vm_compute|]). by apply not_elem_of_nil in Hp.
  - split_and!.
    + repeat (apply Forall_cons_2; [unfold sec_ok; vm_compute; repeat split; discriminate|]). constructor.
    + apply separatedb_ok. vm_compute. reflexivity.
    + vm_compute. discriminate.
  - split_and!; by vm_compute.
  - intros p Hp. exists zero_page. unfold qemu_ram. rewrite lookup_gset_to_gmap_Some. split; [|done]. apply elem_of_list_to_set, elem_of_seqZ. lia.
  - apply zero_pages.
Qed.

(** ** The disk: an image made by the packer *)
Definition blank_store (n : Z) : Store := mkState (BlockFile.mkFile (replicate (Z.to_nat (n * 512)) Byte.x00) 0) [].

Lemma blank_ok n : 0 <= n -> n * 512 < 2 ^ 63 -> wf (blank_store n) /\ held (blank_store n) = ∅ /\
  blocks_ok (content (blank_store n)) /\ forall b, is_Some (content (blank_store n) !! b) <-> 0 <= b < n.
Proof.
  intros Hn Hb. assert (Hl : zlen (replicate (Z.to_nat (n * 512)) Byte.x00) = n * 512) by (unfold zlen; rewrite length_replicate; lia).
  assert (Hw : wf (blank_store n)). { split_and!; cbn; [unfold BlockFile.ok; cbn; by rewrite Hl|constructor|constructor|done]. }
  split_and!; [done|done|intros i b; by apply content_length|]. intros b.
  assert (E : content (blank_store n) = BlockFile.disk (device (blank_store n))) by apply map_empty_union.
  rewrite E. split.
  - intros [x Hx]. apply BlockFile.disk_lookup in Hx as [Hx _]. cbn [device blank_store BlockFile.data] in Hx. rewrite Hl in Hx. change BLOCK_SZ with 512 in Hx. rewrite Z.div_mul in Hx by lia. lia.
  - intros Hx. eexists. apply BlockFile.disk_lookup. split; [|done]. cbn [device blank_store BlockFile.data]. rewrite Hl. change BLOCK_SZ with 512. rewrite Z.div_mul by lia. lia.
Qed.

Definition host (app : list byte) : option (list byte) := if decide (app = init_name) then Some init_data else None.
Abbreviation FS := (planned (16 * 2048) 1).
Abbreviation BLOCKS := (16 * 2048)%Z.
Definition image : named_files := [(init_name, init_data)].

Lemma init_name_ok : name_ok init_name.
Proof. split_and!; [by vm_compute|by vm_compute|]. by apply (bool_decide_unpack _). Qed.

Lemma image_packable : packable host image.
Proof.
  split; [apply NoDup_singleton| |by vm_compute|by vm_compute]. apply Forall_singleton.
  split; [apply init_name_ok|]. split; [done|]. split; by vm_compute.
Qed.

Lemma packed : exists d l, wf (St := Store) d /\ held d = ∅ /\ fs_view (content d) FS BLOCKS l image.
Proof.
  destruct (blank_ok BLOCKS) as (Hw & Hh & Hb & Hd); [lia|lia|].
  destruct (easy_fs_pack_ok (St := Store) host (content (blank_store BLOCKS)) image [[]] image_packable) as (σ' & Hc & [l Hv]); [done| |done|done|].
  { apply Forall_singleton. by apply (bool_decide_unpack _); vm_compute. }
  destruct (Hc _ Hw eq_refl Hh) as (d & _ & Hwd & Hcd & Hhd & _). exists d, l. split_and!; [done|done|by rewrite Hcd].
Qed.

(** ** The states after the boot *)
Lemma init_elf_ok : elf_ok board init_data init_elf.
Proof.
  split; [by vm_compute|by vm_compute|done| |by vm_compute|split; by vm_compute].
  apply Forall_singleton. right. split; [done|]. unfold seg_ok. split_and!; by vm_compute.
Qed.

(** The machine with only [initproc], which has the processor. *)
Record only_init (k : OS) (W : gmap (option nat) aspace) (l : directory) (t : nat) (tcb : TaskControlBlock) (v : aspace) : Prop := {
  oi_inv : kinv board LO HI BLOCKS SHAPES k W l image;
  oi_running : running (processor k) = Some t;
  oi_tasks : tasks k = {[t := tcb]};
  oi_space : W !! Some t = Some v;
  oi_queue : ready_queue k = [];
  oi_init : initproc k = t;
  oi_pid : pid tcb = IDLE_PID;
  oi_fds : fd_table (inner tcb) = [Some Stdin; Some Stdout; Some Stdout];
  oi_room : in_use W <= 40000;
  oi_shape : shape <$> areas (memory_set (inner tcb)) = shape <$> elf_areas init_elf;
  oi_page x b : x <> context_vpn -> elf_contents init_data init_elf x = Some b -> as_P v !! x = Some b;
  oi_fs : root_fs k = FS;
}.

Lemma total_pages_shape l l' : shape <$> l = shape <$> l' -> total_pages l = total_pages l'.
Proof.
  revert l'. induction l as [|a l IH]; intros [|b l'] E; try done. injection E as E1 _ _ E2. unfold total_pages in *. cbn [foldr]. rewrite (IH _ E2). unfold pages. by rewrite E1.
Qed.

Lemma oi_areas k W l t tcb v : only_init k W l t tcb v -> total_pages (areas (memory_set (inner tcb))) = 5.
Proof. intros Ho. rewrite (total_pages_shape _ _ (oi_shape _ _ _ _ _ _ Ho)). by vm_compute. Qed.

(** The machine has been switched on. *)
Record booted (d : Store) (k : OS) W l (t : nat) (tcb : TaskControlBlock) v : Prop := {
  bd_wf : wf d;
  bd_held : held d = ∅;
  bd_files : exists l0, fs_view (content d) FS BLOCKS l0 image;
  bd_boot : rust_main board qemu_layout qemu_end qemu_mmio (cold_boot d qemu_ram) = Ok (tt, k);
  bd_phase : at_phase board LO HI BLOCKS SHAPES InLoop k W l image;
  bd_queue : ready_queue k = [t];
  bd_tasks : tasks k = {[t := tcb]};
  bd_cx : task_cx (inner tcb) = goto_trap_return (get_top IDLE_PID);
  bd_init : only_init (scheduled_state k t [] tcb) W l t (with_inner tcb (set_status (inner tcb) Running)) v;
}.

Lemma boots : exists d k W l t tcb v, booted d k W l t tcb v.
Proof.
  destruct packed as (d & l & Hw & Hh & Hv).
  destruct (boot_ok (St := Store) board qemu_layout qemu_end qemu_mmio BLOCKS d qemu_ram FS l image init_data init_elf qemu_board Hw Hh Hv) as
    (k & W & l' & t & tcb & v & E & Hk & Hq & Hr & Hts & Hi & Hp & (ms & ppn & Hin) & Hvt & Hpg & Hcx & Hu & Hsh & Hfs); [done|apply init_elf_ok|by vm_compute|by vm_compute|by vm_compute|].
  exists d, k, W, l', t, tcb, v. pose proof (boot_seals board LO HI BLOCKS SHAPES k W l' image t tcb v init_elf Hk Hts Hp Hvt Hcx) as Hse.
  split; [exact Hw|exact Hh|by exists l|exact E|split; [exact Hk|split; [exact Hse|exact Hr]]|exact Hq|exact Hts|by rewrite Hin|]. clear E Hse.
  destruct (run_round_inv _ _ _ _ _ k W l' image t [] Hk Hr Hq) as (tcb' & v' & Ht & Hv' & _ & _ & Hk'). rewrite Hts, lookup_singleton_eq in Ht. injection Ht as <-.
  split; cbn [processor running tasks scheduled_state set_processor set_tasks set_ready_queue inner with_inner pid ready_queue initproc fd_table memory_set set_status]; try done.
  - by rewrite Hts, insert_singleton_eq.
  - by rewrite Hin.
  - etrans; [exact Hu|]. by vm_compute.
Qed.

Lemma init_running : exists k W l t tcb v, only_init k W l t tcb v.
Proof. destruct boots as (d & k & W & l & t & tcb & v & [_ _ _ _ _ _ _ _ Ho]). by eexists _, _, _, _, _, _. Qed.

Lemma init_code : elf_contents init_data init_elf 16 = Some (page_image init_data 0).
Proof. by vm_compute. Qed.

(** The program of [initproc] in its memory. *)
Section Program.
Variable v : aspace.
Hypothesis Hcode : as_P v !! 16 = Some (page_image init_data 0).
Hypothesis Hpage : is_Some (as_D v !! 16).

Lemma code_mapped p n : 0x10000 <= p -> p + n <= 0x11000 -> mapped v p n.
Proof. intros H1 H2 y Hy. by replace (y / 4096) with 16 by dlia. Qed.

Lemma code_byte i : (i < 9)%nat -> user_byte (as_P v) (0x10000 + Z.of_nat i) = init_data !! i.
Proof.
  intros Hi. unfold user_byte. replace ((0x10000 + Z.of_nat i) / 4096) with 16 by dlia. rewrite Hcode. cbn [mbind option_bind].
  replace (Z.to_nat ((0x10000 + Z.of_nat i) mod 4096)) with i by dlia. do 9 (destruct i as [|i]; [by vm_compute|]). lia.
Qed.

Lemma code_str : user_str board v 0x10000 init_name.
Proof.
  split_and!; [lia|by vm_compute|by apply Nat.ltb_lt|by apply code_mapped|intros i c Hc|change (0x10000 + zlen init_name) with (0x10000 + Z.of_nat 8); by rewrite code_byte by lia].
  pose proof (lookup_lt_Some _ _ _ Hc) as Hl. change (length init_name) with 8%nat in Hl. rewrite code_byte by lia.
  do 8 (destruct i as [|i]; [cbn in Hc; injection Hc as <-; split; [by vm_compute|done]|]). lia.
Qed.

Lemma code_chars : chars init_name = init_name.
Proof. by vm_compute. Qed.

Lemma code_data : user_data (as_P v) 0x10000 init_name.
Proof. intros i Hi. change (length init_name) with 8%nat in Hi. rewrite code_byte by lia. do 8 (destruct i as [|i]; [done|]). lia. Qed.
End Program.

Lemma space_data (lo hi : Z) (m : Machine StackFrameAllocator) (W : gmap (option nat) aspace) (i : option nat) v x b : world lo hi m W -> W !! i = Some v -> as_P v !! x = Some b -> is_Some (as_D v !! x).
Proof.
  intros HW Hv HP. pose proof (w_space _ _ _ _ HW _ _ Hv) as Hsp. pose proof (sp_pages _ _ _ _ _ _ _ _ Hsp x) as E. rewrite HP in E. destruct (as_D v !! x); [by eexists|done].
Qed.

Lemma only_init_code k W l t tcb v : only_init k W l t tcb v -> as_P v !! 16 = Some (page_image init_data 0) /\ is_Some (as_D v !! 16).
Proof.
  intros Ho. assert (Hp : as_P v !! 16 = Some (page_image init_data 0)) by (apply (oi_page _ _ _ _ _ _ Ho); [by vm_compute|apply init_code]).
  split; [done|]. eapply space_data; [|apply (oi_space _ _ _ _ _ _ Ho)|exact Hp]. apply (mi_world _ _ _ _ _ _ _ _ _ (ki_mem _ _ _ _ _ _ _ _ _ (oi_inv _ _ _ _ _ _ Ho))).
Qed.

(** ** A child *)

(** [initproc] has forked and waits; its child has the processor. *)
Record child_runs (k : OS) W l (t c : nat) (tcb ctcb : TaskControlBlock) (v vc : aspace) : Prop := {
  cr_inv : kinv board LO HI BLOCKS SHAPES k W l image;
  cr_running : running (processor k) = Some c;
  cr_ne : c <> t;
  cr_queue : ready_queue k = [t];
  cr_init : initproc k = t;
  cr_parent : tasks k !! t = Some tcb;
  cr_child : tasks k !! c = Some ctcb;
  cr_children : children (inner tcb) = [c];
  cr_none : children (inner ctcb) = [];
  cr_space : W !! Some t = Some v;
  cr_child_space : W !! Some c = Some vc;
  cr_pid : pid ctcb <> IDLE_PID;
  cr_code : as_P v !! 16 = Some (page_image init_data 0);
  cr_child_code : as_P vc !! 16 = Some (page_image init_data 0);
}.

Lemma no_children (k : OS) t tcb W l : kinv board LO HI BLOCKS SHAPES k W l image -> tasks k = {[t := tcb]} -> children (inner tcb) = [].
Proof.
  intros Hk Hts. assert (Ht : tasks k !! t = Some tcb) by (rewrite Hts; apply lookup_singleton_eq). pose proof (ki_tree _ _ _ _ _ _ _ _ _ Hk) as Htr.
  destruct (children (inner tcb)) as [|c cs] eqn:Ec; [done|]. exfalso. destruct (tr_child _ _ Htr t tcb c Ht) as (x & Hx & _); [rewrite Ec; by left|].
  rewrite Hts in Hx. apply lookup_singleton_Some in Hx as [<- _]. apply (tr_self _ _ Htr t tcb Ht). rewrite Ec. by left.
Qed.

Lemma init_forks : exists k W l t c tcb ctcb v vc, child_runs k W l t c tcb ctcb v vc.
Proof.
  destruct init_running as (k & W & l & t & tcb & v & Ho). pose proof Ho as [Hk Hr Hts Hv Hq Hi Hp Hfd Hroom _ _ _]. pose proof (oi_areas _ _ _ _ _ _ Ho) as Hpg. destruct (only_init_code _ _ _ _ _ _ Ho) as [Hcode Hd].
  assert (Ht : tasks k !! t = Some tcb) by (rewrite Hts; apply lookup_singleton_eq). pose proof (ki_fresh _ _ _ _ _ _ _ _ _ Hk t ltac:(eauto)) as Hfr.
  destruct (sys_fork_inv board LO HI BLOCKS SHAPES (so_lo _ _ _ _ qemu_setup) (so_low _ _ _ _ qemu_setup) (so_small _ _ _ _ qemu_setup) (so_tramp _ _ _ _ qemu_setup) k W l image t tcb v Hk Hr Ht Hv)
    as (pd & ppn & ms & k1 & vc & W1 & cx & _ & Hk1 & Hpd & Hts1 & Hq1 & Hpr1 & [_ Hi1] & Ho1 & Hvc & _ & _ & HP & _); [rewrite Hpg, LO_eq, HI_eq; lia|].
  set (c := next_ref k) in *. assert (Hne : c <> t) by lia. rewrite <- Hpr1 in Hr. rewrite <- Ho1 in Hv by done.
  destruct (suspend_inv board LO HI BLOCKS SHAPES k1 W1 l image t InYield v Hk1 Hr Hv I) as (tcb1 & Ht1 & _ & Hk2). set (k2 := suspended_state k1 t tcb1 InYield) in *.
  destruct (run_round_inv board LO HI BLOCKS SHAPES k2 W1 l image c [t] Hk2 eq_refl) as (ctcb & vc' & Hc & Hvc' & _ & _ & Hk3); [cbn; by rewrite Hq1, Hq|].
  rewrite Hts1, lookup_insert_eq in Ht1. injection Ht1 as <-. rewrite Hvc in Hvc'. injection Hvc' as <-.
  unfold k2 in Hc. cbn [tasks suspended_state set_tasks] in Hc. rewrite lookup_insert_ne, Hts1, lookup_insert_ne, lookup_insert_eq in Hc by done. injection Hc as <-.
  eexists _, W1, l, t, c, _, _, v, vc. split; [exact Hk3|done|done|done| | |apply lookup_insert_eq| |done|done|done| |done|].
  - cbn. by rewrite Hi1.
  - cbn [tasks scheduled_state set_processor set_tasks set_ready_queue k2 suspended_state]. rewrite lookup_insert_ne by done. apply lookup_insert_eq.
  - cbn. by rewrite (no_children k t tcb W l Hk Hts).
  - cbn. intros ->. apply Hpd, elem_of_live. by exists t, tcb.
  - rewrite HP; [done|by vm_compute].
Qed.

(** The child has exited and [initproc] has the processor. *)
Record child_exited (k : OS) W l (t c : nat) (tcb ctcb : TaskControlBlock) (v : aspace) (code : Z) : Prop := {
  ce_inv : kinv board LO HI BLOCKS SHAPES k W l image;
  ce_running : running (processor k) = Some t;
  ce_task : tasks k !! t = Some tcb;
  ce_child : tasks k !! c = Some ctcb;
  ce_children : children (inner tcb) = [c];
  ce_zombie : task_status (inner ctcb) = Zombie;
  ce_code : exit_code (inner ctcb) = code;
  ce_space : W !! Some t = Some v;
  ce_program : as_P v !! 16 = Some (page_image init_data 0);
}.

Lemma init_reaps code : exists k W l t c tcb ctcb v, child_exited k W l t c tcb ctcb v code.
Proof.
  destruct init_forks as (k & W & l & t & c & tcb & ctcb & v & vc & [Hk Hr Hne Hq Hi Ht Hc Hch Hno Hv Hvc Hp Hcd _]).
  destruct (exit_inv board LO HI BLOCKS SHAPES k W l image c ctcb vc code Hk Hr Hc Hvc Hp) as (m & _ & Hk1). set (k1 := exited_state k c ctcb code m) in *.
  destruct (run_round_inv board LO HI BLOCKS SHAPES k1 _ l image t [] Hk1 eq_refl) as (tcb' & v' & Ht' & Hv' & _ & _ & Hk2); [done|].
  unfold k1 in Ht'. cbn [tasks exited_state] in Ht'. rewrite Hno in Ht'. rewrite lookup_insert_ne in Ht' by done. change (tasks k !! t = Some tcb') in Ht'. rewrite Ht in Ht'. injection Ht' as <-.
  rewrite lookup_insert_ne in Hv' by congruence. assert (v' = v) as -> by congruence.
  eexists _, _, l, t, c, _, (exited ctcb code), v. split; [exact Hk2|done|apply lookup_insert_eq| |done|done|done|by rewrite lookup_insert_ne by congruence|done].
  cbn [tasks scheduled_state set_processor set_tasks set_ready_queue k1 exited_state]. rewrite lookup_insert_ne by done. apply lookup_insert_eq.
Qed.

(** ** A run

    [initproc] is dispatched and forks; it stores into its first page while the
    child waits; the timer takes the processor from it, the child is dispatched
    and killed by a fault. *)
Abbreviation QRUN := (runs_to (St := Store) (F := StackFrameAllocator) board LO HI BLOCKS SHAPES).
Abbreviation QSTEP := (step (St := Store) (F := StackFrameAllocator) board LO HI BLOCKS SHAPES).

Definition fork_registers : TrapContext := mkTrapContext (<[17%nat := SYSCALL_FORK]> (replicate 32 0)) 0 0x10000 0 0 0.

Lemma fork_registers_ok : cx_ok fork_registers.
Proof. split; [done|]. repeat (apply Forall_cons_2; [split; by vm_compute|]). constructor. Qed.

(** The first dispatch enters the program. *)
Lemma run_starts : exists d k0 W0 l t tcb0 v0 k tcb v, booted d k0 W0 l t tcb0 v0 /\ QRUN (InLoop, k0) [t] (InUser, k) /\ only_init k W0 l t tcb v.
Proof.
  destruct boots as (d & k0 & W & l & t & tcb & v & Hbd). pose proof Hbd as [_ _ _ _ (Hk0 & _ & Hr0) Hq Hts Hcx Ho]. set (k1 := scheduled_state k0 t [] tcb) in *.
  destruct (run_round_inv board LO HI BLOCKS SHAPES k0 W l image t [] Hk0 Hr0 Hq) as (tcb' & v' & Ht & _ & _ & E1 & _). rewrite Hts, lookup_singleton_eq in Ht. injection Ht as <-.
  set (tcb1 := with_inner tcb (set_status (inner tcb) Running)) in *. assert (Ht1 : tasks k1 !! t = Some tcb1) by apply lookup_insert_eq. pose proof Ho as [Hk Hr Hts1 Hv Hq1 Hi Hp Hfd Hroom Hsh Hpg Hfs].
  destruct (trap_return_inv board LO HI BLOCKS SHAPES k1 W l image t v Hk Hr Hv) as [E2 Hk2].
  exists d, k0, W, l, t, tcb, v, (set_stvec k1 FromUser), tcb1, v. split; [exact Hbd|]. split; [|by split].
  eapply (run_step _ _ _ _ _ _ _ _ [] [t]); [constructor|]. apply (step_loop _ _ _ _ _ k0 t [] (restore_to board v) (set_stvec k1 FromUser) Hq).
  unfold run_tasks. erewrite bind_Ok; [|exact E1]. cbv iota beta. erewrite bind_Ok; [|by apply (get_inner_ok t tcb1)]. change (task_cx (inner tcb1)) with (task_cx (inner tcb)). by rewrite Hcx.
Qed.

(** It saves the number of the call it makes. *)
Lemma run_asks k W l t tcb v : only_init k W l t tcb v ->
  exists k' W' v' cx, QSTEP (InUser, k) [] (InUser, k') /\ only_init k' W' l t tcb v' /\ space_cx v' = Some cx /\ xs cx !! 17%nat = Some SYSCALL_FORK.
Proof.
  intros [Hk Hr Hts Hv Hq Hi Hp Hfd Hroom Hsh Hpg Hfs]. assert (Ht : tasks k !! t = Some tcb) by (rewrite Hts; apply lookup_singleton_eq).
  pose proof (current_ok board LO HI BLOCKS SHAPES k W l image t tcb v Hk Hr Ht Hv) as Hok.
  destruct (task_cx_modify board LO HI BLOCKS SHAPES (so_lo _ _ _ _ qemu_setup) k W l image t tcb v (saved_words fork_registers) Hk Ht Hv Hok) as (m & old & E & Hk' & Hold & _ & Hcx); [intros; apply saved_words_ok; [apply fork_registers_ok|done]|].
  destruct (set_cx_same v (saved_words fork_registers)) as (_ & _ & HP).
  eexists (set_machine k m), _, _, _. split; [apply step_save; exists t, tcb, fork_registers, m; split_and!; [done|done|apply fork_registers_ok| |done]|split; [|split; [exact Hcx|done]]].
  - unfold on_machine in E. destruct (modify_cx _ _ (machine k)) as [[[] m']|e]; [|done]. assert (Em : set_machine k m' = set_machine k m) by congruence. apply (f_equal machine) in Em. cbn in Em. by subst m'.
  - split; try done; [apply lookup_insert_eq|by rewrite (in_use_same W (Some t) v) by (done || apply set_cx_owns)|]. intros x b Hx Hb. rewrite HP by done. by apply Hpg.
Qed.

(** The parent runs on, its child waits in the queue with the same first page. *)
Record forked (k : OS) W l (t c : nat) (tcb ctcb : TaskControlBlock) (v vc : aspace) : Prop := {
  fk_inv : kinv board LO HI BLOCKS SHAPES k W l image;
  fk_running : running (processor k) = Some t;
  fk_ne : c <> t;
  fk_queue : ready_queue k = [c];
  fk_parent : tasks k !! t = Some tcb;
  fk_child : tasks k !! c = Some ctcb;
  fk_pid : pid ctcb <> IDLE_PID;
  fk_space : W !! Some t = Some v;
  fk_child_space : W !! Some c = Some vc;
  fk_new : task_cx (inner ctcb) = goto_trap_return (get_top (pid ctcb)) /\ parent (inner ctcb) = Some t /\ children (inner ctcb) = [];
  fk_code : as_P v !! 16 = Some (page_image init_data 0);
  fk_child_code : as_P vc !! 16 = Some (page_image init_data 0);
  fk_flags : pte_flags <$> as_G v !! 16 = Some (Z.lor (Z.lor (Z.lor MP_R MP_W) (Z.lor MP_X MP_U)) PTE_V);
  fk_child_page : is_Some (as_G vc !! 16);
}.

Lemma init_flags k W l t tcb v : only_init k W l t tcb v -> pte_flags <$> as_G v !! 16 = Some (Z.lor (Z.lor (Z.lor MP_R MP_W) (Z.lor MP_X MP_U)) PTE_V).
Proof.
  intros [Hk Hr Hts Hv _ _ _ _ _ Hsh _ _]. assert (Ht : tasks k !! t = Some tcb) by (rewrite Hts; apply lookup_singleton_eq).
  pose proof (current_ok board LO HI BLOCKS SHAPES k W l image t tcb v Hk Hr Ht Hv) as Hok.
  pose proof (w_space _ _ _ _ (mi_world _ _ _ _ _ _ _ _ _ (ki_mem _ _ _ _ _ _ _ _ _ Hk)) _ _ Hv) as Hsp.
  apply (elf_flags init_elf (memory_set (inner tcb)) _ (as_D v) (seg_area init_header) 16); [apply Hok|exact Hsh|by left|done|by vm_compute|].
  intros q Hq. pose proof (space_frame_range _ _ _ _ _ _ _ _ _ _ Hsp Hq). lia.
Qed.

(** The fork returns to the parent. *)
Lemma run_forks k W l t tcb v cx : only_init k W l t tcb v -> space_cx v = Some cx -> xs cx !! 17%nat = Some SYSCALL_FORK -> enters_handler board k ->
  exists k' W' c tcb' ctcb v' vc, QSTEP (InUser, k) [] (InUser, k') /\ forked k' W' l t c tcb' ctcb v' vc.
Proof.
  intros Ho Hcx H17 He. pose proof (init_flags _ _ _ _ _ _ Ho) as Hfl. pose proof (oi_areas _ _ _ _ _ _ Ho) as Hpg. destruct (only_init_code _ _ _ _ _ _ Ho) as [Hcode _].
  destruct Ho as [Hk Hr Hts Hv Hq Hi Hp _ Hroom _ _ _]. assert (Ht : tasks k !! t = Some tcb) by (rewrite Hts; apply lookup_singleton_eq).
  assert (Hb : behaves board LO HI BLOCKS SHAPES k UserEnvCall) by (apply (fork_behaves board LO HI BLOCKS SHAPES qemu_setup k W l image t tcb v cx); [done..|rewrite Hpg, LO_eq, HI_eq; lia]).
  destruct (env_call_enters board LO HI BLOCKS SHAPES qemu_setup k W l image t 0 Hk Hr) as (tcb' & v0 & cx' & m & Ht' & Hv0 & Hcx' & _ & _ & Hk1 & _ & E).
  assert (tcb' = tcb) as -> by congruence. assert (v0 = v) as -> by congruence. assert (cx' = cx) as -> by congruence.
  set (v1 := set_cx v next_cx) in *. set (k1 := set_machine (set_stvec k FromKernel) m) in *. rewrite H17 in E. cbn [default] in E.
  assert (Hv1 : <[Some t := v1]> W !! Some t = Some v1) by apply lookup_insert_eq. pose proof (ki_fresh _ _ _ _ _ _ _ _ _ Hk1 t ltac:(by exists tcb)) as Hfr.
  destruct (sys_fork_inv board LO HI BLOCKS SHAPES (so_lo _ _ _ _ qemu_setup) (so_low _ _ _ _ qemu_setup) (so_small _ _ _ _ qemu_setup) (so_tramp _ _ _ _ qemu_setup) k1 _ l image t tcb v1 Hk1 Hr Ht Hv1)
    as (pd & ppn & ms & k2 & vc & W2 & cx2 & E2 & Hk2 & Hpd & Hts2 & Hq2 & Hpr2 & _ & Ho2 & Hvc & _ & _ & HP & HG & _).
  { rewrite Hpg, LO_eq, HI_eq, (in_use_same W (Some t) v) by (done || apply set_cx_owns). lia. }
  set (c := next_ref k1) in *. assert (Hne : c <> t) by lia. rewrite <- Ho2 in Hv1 by done. change (running (processor k1) = Some t) in Hr. rewrite <- Hpr2 in Hr.
  destruct (syscall_return_inv board LO HI BLOCKS SHAPES (so_lo _ _ _ _ qemu_setup) k2 W2 l image t v1 pd Hk2 Hr Hv1) as (m' & E3 & Hk3 & _).
  set (k3 := set_stvec (set_machine k2 m') FromUser) in *. set (v3 := set_cx v1 _) in *.
  destruct (set_cx_same v next_cx) as (_ & G1 & P1), (set_cx_same v1 (fun cx => set_x cx 10 (w64 pd))) as (_ & G3 & P3). fold v1 in P1, G1. fold v3 in P3, G3.
  eexists k3, _, c, _, _, v3, vc. split.
  - apply (step_trap _ _ _ _ _ k UserEnvCall 0 (restore_to board v3) k3 He Hb). rewrite E.
    change (syscall board SYSCALL_FORK _ _ _) with (sys_fork (St := Store) (F := StackFrameAllocator) board). by rewrite (bind_Ok _ _ _ _ _ E2).
  - split; [exact Hk3|exact Hr|done|cbn; rewrite Hq2; change (ready_queue k ++ [c] = [c]); by rewrite Hq|cbn; rewrite Hts2; apply lookup_insert_eq|cbn; rewrite Hts2, lookup_insert_ne by done; apply lookup_insert_eq| |apply lookup_insert_eq|rewrite lookup_insert_ne by congruence; exact Hvc|done|..].
    + cbn. intros ->. apply Hpd, elem_of_live. exists t, tcb. by split.
    + rewrite P3, P1 by (by vm_compute). exact Hcode.
    + rewrite HP, P1 by (by vm_compute). exact Hcode.
    + by rewrite G3, G1.
    + specialize (HG 16). rewrite G1, Hfl in HG. destruct (as_G vc !! 16); [by eexists|done].
Qed.

(** The parent overwrites its first page. *)
Lemma run_stores k W l t c tcb ctcb v vc : forked k W l t c tcb ctcb v vc -> exists k' pte, QSTEP (InUser, k) [] (InUser, k') /\
  user_view k t 16 = Some (pte, page_image init_data 0) /\ user_view k' t 16 = Some (pte, zero_page).
Proof.
  intros [Hk Hr Hne Hq Ht Hc Hp Hv Hvc _ Hcode _ Hfl _]. pose proof (mi_world _ _ _ _ _ _ _ _ _ (ki_mem _ _ _ _ _ _ _ _ _ Hk)) as HW. pose proof (w_space _ _ _ _ HW _ _ Hv) as Hsp.
  pose proof (current_ok board LO HI BLOCKS SHAPES k W l image t tcb v Hk Hr Ht Hv) as Hok. destruct (as_G v !! 16) as [pte|] eqn:HG; [|done]. cbn in Hfl. injection Hfl as Hfl.
  assert (Hn16 : 16 <> trampoline_vpn) by (by vm_compute). pose proof (mapped_page board LO HI BLOCKS SHAPES k W l image t tcb v 16 pte Hk Ht Hv Hok HG Hn16) as HD.
  destruct (world_write LO HI _ W (Some t) v 16 _ zero_page HW Hv HD) as (m & E & HW'); [by vm_compute|]. exists (set_machine k m), pte.
  assert (Hk' : kinv board LO HI BLOCKS SHAPES (set_machine k m) (<[Some t := set_page v 16 zero_page]> W) l image) by (by eapply page_inv).
  split_and!.
  - apply step_store. exists t, tcb, 16, pte, zero_page, m. split_and!; [done|done|lia|lia| | |by vm_compute|done|done].
    + rewrite <- (uo_pt _ _ _ _ Hok). by eapply space_translate.
    + unfold user_page, is_valid, PageTable.writable. rewrite Hfl. split_and!; by vm_compute.
  - rewrite (user_view_space board LO HI BLOCKS SHAPES k W l image t tcb v 16 Hk Ht Hv Hok) by (done || lia). by rewrite HG, Hcode.
  - pose proof (current_ok board LO HI BLOCKS SHAPES _ _ l image t tcb _ Hk' Hr Ht (lookup_insert_eq _ _ _)) as Hok'.
    rewrite (user_view_space board LO HI BLOCKS SHAPES _ _ l image t tcb (set_page v 16 zero_page) 16 Hk' Ht (lookup_insert_eq _ _ _) Hok') by (done || lia).
    cbn [as_G as_P set_page]. rewrite HG, lookup_insert_eq. done.
Qed.

(** The timer gives the processor to the child. *)
Lemma run_switches k W l t c tcb ctcb v vc : forked k W l t c tcb ctcb v vc -> enters_handler board k ->
  exists k1 k2 ctcb', QSTEP (InUser, k) [] (InLoop, k1) /\ QSTEP (InLoop, k1) [c] (InUser, k2) /\ kinv board LO HI BLOCKS SHAPES k2 W l image /\
    running (processor k2) = Some c /\ tasks k2 !! c = Some ctcb' /\ pid ctcb' = pid ctcb /\ parent (inner ctcb') = Some t /\ children (inner ctcb') = [].
Proof.
  intros [Hk Hr Hne Hq Ht Hc Hp Hv Hvc (Hcx & Hpa & Hch) _ _ _ _] He.
  set (k0 := set_timer (set_reads (set_stvec k FromKernel) (S (reads k))) (w64 (w64 (read_time board (reads k)) + CLOCK_FREQ / TICKS_PER_SEC))).
  assert (Hk0 : kinv board LO HI BLOCKS SHAPES k0 W l image) by (apply kinv_timer, kinv_reads, kinv_stvec; exact Hk).
  destruct (suspend_inv board LO HI BLOCKS SHAPES k0 W l image t InTimer v Hk0 Hr Hv I) as (tcb' & Ht' & E & Hk1). set (k1 := suspended_state k0 t tcb' InTimer) in *.
  assert (Hq1 : ready_queue k1 = c :: [t]) by (cbn; by rewrite Hq). destruct (run_round_inv board LO HI BLOCKS SHAPES k1 W l image c [t] Hk1 eq_refl Hq1) as (x & y & Hx & Hy & _ & E1 & Hk2).
  assert (Hx' : tasks k1 !! c = Some ctcb) by (cbn; by rewrite lookup_insert_ne). assert (x = ctcb) as -> by congruence. assert (y = vc) as -> by congruence.
  set (k2 := scheduled_state k1 c [t] ctcb) in *. set (ctcb' := with_inner ctcb (set_status (inner ctcb) Running)).
  assert (Hc2 : tasks k2 !! c = Some ctcb') by apply lookup_insert_eq. destruct (trap_return_inv board LO HI BLOCKS SHAPES k2 W l image c vc Hk2 eq_refl Hvc) as [E2 Hk3].
  exists k1, (set_stvec k2 FromUser), ctcb'. split_and!; [| |exact Hk3|done|exact Hc2|done|done|done].
  - apply (step_trap _ _ _ _ _ k SupervisorTimer 0 Idle k1 He); [by intros ? ? ? ? _ _|].
    change (trap_handler board SupervisorTimer 0 k) with ((let* f := suspend_current_and_run_next InTimer in leave board f) k0). by rewrite (bind_Ok _ _ _ _ _ E).
  - apply (step_loop _ _ _ _ _ k1 c [t] (restore_to board vc) (set_stvec k2 FromUser) Hq1).
    unfold run_tasks. erewrite bind_Ok; [|exact E1]. cbv iota beta. erewrite bind_Ok; [|by apply (get_inner_ok c ctcb')]. change (task_cx (inner ctcb')) with (task_cx (inner ctcb)). by rewrite Hcx.
Qed.

(** A fault of the child is an exit. *)
Lemma run_faults k W l t c ctcb : kinv board LO HI BLOCKS SHAPES k W l image -> running (processor k) = Some c -> tasks k !! c = Some ctcb -> pid ctcb <> IDLE_PID -> parent (inner ctcb) = Some t ->
  enters_handler board k -> exists k' ztcb, QSTEP (InUser, k) [] (InLoop, k') /\ tasks k' !! c = Some ztcb /\ task_status (inner ztcb) = Zombie /\ exit_code (inner ztcb) = -2 /\
    parent (inner ztcb) = Some t /\ pid ztcb = pid ctcb.
Proof.
  intros Hk Hr Hc Hp Hpa He. destruct (fault_exits board LO HI BLOCKS SHAPES qemu_setup k W l image c StorePageFault 0 Hk Hr ltac:(unfold faults; set_solver)) as (o & E). set (k1 := set_console _ _) in E.
  assert (Hk1 : kinv board LO HI BLOCKS SHAPES k1 W l image) by (by apply kinv_console, kinv_stvec). destruct (running_task _ _ _ _ _ _ _ _ _ Hk c Hr) as (x & v & _ & _ & Hv & _).
  destruct (exit_inv board LO HI BLOCKS SHAPES k1 W l image c ctcb v (-2) Hk1 Hr Hc Hv Hp) as (m & E1 & _). exists (exited_state k1 c ctcb (-2) m), (exited ctcb (-2)).
  split_and!; [|apply lookup_insert_eq|done|done|done|done]. apply (step_trap _ _ _ _ _ k StorePageFault 0 Idle _ He); [by intros ? ? ? ? _ _|]. rewrite E. by rewrite (bind_Ok _ _ _ _ _ E1).
Qed.

(** What the waiting child maps. *)
Lemma forked_view k W l t c tcb ctcb v vc : forked k W l t c tcb ctcb v vc -> exists pte, user_view k c 16 = Some (pte, page_image init_data 0).
Proof.
  intros [Hk _ _ Hq _ Hc _ _ Hvc _ _ Hcode _ [pte HG]]. destruct (queued_task board LO HI BLOCKS SHAPES k W l image c Hk) as (x & y & Hx & _ & Hy & Hok); [rewrite Hq; by left|].
  assert (x = ctcb) as -> by congruence. assert (y = vc) as -> by congruence.
  exists pte. rewrite (user_view_space board LO HI BLOCKS SHAPES k W l image c ctcb vc 16 Hk Hc Hvc Hok) by (lia || by vm_compute).
  by rewrite HG, Hcode.
Qed.
