(* ===== verification/SysTheorems.v ===== *)
(** * The whole system: packing, booting, running

    The theorems about runs of the machine, from the image the packer makes to
    any state the kernel reaches. *)

From S2P Require Import Prelude BlockDev BlockStore BlockCache Bitmap Layout DiskCodec Tree BuildTree TreeOps ClearTree InodeOps FileData Efs Vfs FsInv FsAlloc FsUpdate FsOps FsDir FsCreate FsSpec FsRefine Pack EfsTest Address Frames PageTable PtInv PtOps PtRefine Space MemorySet AreaOps MsOps MsLife MsBuild UserMem World Proc Kernel OsInode Task Syscall Boot Pids CxMem KLogic KInv KSched KProc KFork KTree KExit KWait KTable KFile KBuf KIo KExec KSafe KRun KBoot KDemo.

Section System.
Context {St : Type} `{BlockStoreSpec St}.
Variables (env : Env) (layout : KernelLayout) (MEMORY_END : Z) (MMIO : list (Z * Z)) (N : Z).
Abbreviation lo := (first_frame layout).
Abbreviation hi := (last_frame MEMORY_END).
Abbreviation shapes := (kernel_shapes layout MEMORY_END MMIO).
Abbreviation kinv := (kinv env lo hi N shapes).

(** A machine that can start: the board, a disk that holds the files [a], and
    among them a program [initproc] that fits in memory. *)
Record bootable (d : St) (r : gmap Z (list byte)) (a : named_files) (data : list byte) (elf : ElfFile) : Prop := {
  bt_board : board_ok env layout MEMORY_END MMIO r;
  bt_wf : wf d;
  bt_held : held d = ∅;
  bt_files : exists fs, fs_rep (content d) fs N a;
  bt_init : lookup_name init_name a = Some data;
  bt_elf : elf_ok env data elf;
  bt_room : kernel_tables layout MEMORY_END MMIO + 9 + 3 * total_pages (elf_areas elf) <= hi - lo;
  bt_data : zlen data <= 512 * (Z.of_nat (loops env) - 1);
}.

(** The states of a machine that was switched on. *)
Definition reachable (s : phase * Kernel St StackFrameAllocator) : Prop :=
  exists d r a data elf k0 ds, bootable d r a data elf /\ rust_main env layout MEMORY_END MMIO (cold_boot d r) = Ok (tt, k0) /\
    runs_to env lo hi N shapes (InLoop, k0) ds s.

Lemma elf_pages_nonneg data elf : elf_ok env data elf -> 0 <= total_pages (elf_areas elf).
Proof. intros Hel. rewrite total_elf. pose proof (segs_nonneg data (eo_len _ _ _ Hel) _ (eo_headers _ _ _ Hel)). lia. Qed.

Lemma bootable_boots d r a data elf : bootable d r a data elf ->
  exists k W l t tcb v, rust_main env layout MEMORY_END MMIO (cold_boot d r) = Ok (tt, k) /\ kinv k W l a /\
    ready_queue k = [t] /\ running (processor k) = None /\ tasks k = {[t := tcb]} /\ initproc k = t /\ pid tcb = IDLE_PID /\
    (exists ms ppn, inner tcb = first_inner ms ppn (elf_sp elf)) /\ W !! Some t = Some v /\
    (forall x b, x <> context_vpn -> elf_contents data elf x = Some b -> as_P v !! x = Some b) /\
    space_cx v = Some (start_cx env elf (ms_token (kernel_space k)) IDLE_PID).
Proof.
  intros [Hb Hw Hh (fs & l & Hv) Hi He Hr Hd].
  destruct (boot_ok env layout MEMORY_END MMIO N d r fs l a data elf Hb Hw Hh Hv Hi He Hr (elf_pages_nonneg _ _ He) Hd) as
    (k & W & l' & t & tcb & v & E & Hk & Hq & Hp & Hts & Hini & Hpid & Hin & Hvt & Hpg & Hcx & _). exists k, W, l', t, tcb, v. by split_and!.
Qed.

Lemma reachable_setup s : reachable s -> setup_ok env lo hi shapes.
Proof. intros (d & r & a & data & elf & k0 & ds & [Hb _ _ _ _ _ _ _] & _). apply (bo_setup _ _ _ _ _ Hb). Qed.

Lemma reachable_inv p k : reachable (p, k) -> exists W l a, at_phase env lo hi N shapes p k W l a.
Proof.
  intros Hre. pose proof (reachable_setup _ Hre) as Hset. destruct Hre as (d & r & a & data & elf & k0 & ds & Hbt & E & Hrun).
  destruct (bootable_boots _ _ _ _ _ Hbt) as (k1 & W & l & t & tcb & v & E' & Hk & _ & Hp & Hts & _ & Hpid & _ & Hv & _ & Hcx). assert (k1 = k0) as -> by congruence.
  destruct (run_inv env lo hi N shapes Hset InLoop k0 ds p k W l a) as (W' & l' & a' & arr & Hp' & _); [|done|by exists W', l', a'].
  split_and!; [done|by eapply (boot_seals env lo hi N shapes)|done].
Qed.

Lemma reachable_step s ds s' : reachable s -> step env lo hi N shapes s ds s' -> reachable s'.
Proof. intros (d & r & a & data & elf & k0 & ds0 & Hbt & E & Hrun) Hst. exists d, r, a, data, elf, k0, (ds0 ++ ds). split_and!; [done|done|by econstructor]. Qed.

Lemma reachable_enters k : reachable (InUser, k) -> enters_handler env k.
Proof.
  intros Hre. pose proof (reachable_setup _ Hre) as Hset. destruct (reachable_inv _ _ Hre) as (W & l & a & Hk & Hse & t & Hr). by eapply (sealed_enters env lo hi N shapes).
Qed.

(** The first dispatch. *)
Lemma bootable_runs d r a data elf : bootable d r a data elf ->
  exists k k' W l t tcb v, rust_main env layout MEMORY_END MMIO (cold_boot d r) = Ok (tt, k) /\ ready_queue k = [t] /\
    run_tasks env k = Ok (restore_to env v, k') /\ kinv k' W l a /\ running (processor k') = Some t /\ ready_queue k' = [] /\
    tasks k' = {[t := tcb]} /\ initproc k' = t /\ pid tcb = IDLE_PID /\ fd_table (inner tcb) = [Some Stdin; Some Stdout; Some Stdout] /\
    stvec k' = FromUser /\ W !! Some t = Some v /\
    (forall x b, x <> context_vpn -> elf_contents data elf x = Some b -> as_P v !! x = Some b) /\
    space_cx v = Some (start_cx env elf (ms_token (kernel_space k')) IDLE_PID).
Proof.
  intros Hbt. destruct (bootable_boots _ _ _ _ _ Hbt) as (k & W & l & t & tcb & v & E & Hk & Hq & Hr & Hts & Hi & Hp & (ms & ppn & Hin) & Hv & Hpg & Hcx).
  destruct (run_round_inv _ _ _ _ _ k W l a t [] Hk Hr Hq) as (tcb' & v' & Ht & _ & _ & E1 & Hk1). rewrite Hts, lookup_singleton_eq in Ht. injection Ht as <-.
  set (k1 := scheduled_state k t [] tcb) in *. set (tcb1 := with_inner tcb (set_status (inner tcb) Running)).
  destruct (trap_return_inv env lo hi N shapes k1 W l a t v Hk1 eq_refl Hv) as [E2 Hk2].
  exists k, (set_stvec k1 FromUser), W, l, t, tcb1, v. split_and!; try done.
  - unfold run_tasks. erewrite bind_Ok; [|exact E1]. cbv iota beta. erewrite bind_Ok; [|by apply (get_inner_ok t tcb1), lookup_insert_eq].
    unfold tcb1. rewrite Hin. exact E2.
  - cbn. by rewrite Hts, insert_singleton_eq.
  - unfold tcb1. by rewrite Hin.
Qed.

(** C1: the kernel boots.  On a machine with a good board and a disk that holds
    a program [initproc], [rust_main] reaches the scheduler, and the scheduler
    enters user mode in that program: its only task has pid 0, the file's
    contents in its pages and a trap context that starts at its entry point. *)
Theorem boot_enters_initproc d r a data elf : bootable d r a data elf ->
  exists k k' W l t tcb v, rust_main env layout MEMORY_END MMIO (cold_boot d r) = Ok (tt, k) /\
    run_tasks env k = Ok (restore_to env v, k') /\ kinv k' W l a /\ running (processor k') = Some t /\ ready_queue k' = [] /\
    tasks k' = {[t := tcb]} /\ initproc k' = t /\ pid tcb = IDLE_PID /\ fd_table (inner tcb) = [Some Stdin; Some Stdout; Some Stdout] /\
    stvec k' = FromUser /\ W !! Some t = Some v /\
    (forall x b, x <> context_vpn -> elf_contents data elf x = Some b -> as_P v !! x = Some b) /\
    space_cx v = Some (start_cx env elf (ms_token (kernel_space k')) IDLE_PID).
Proof.
  intros Hbt. destruct (bootable_runs d r a data elf Hbt) as (k & k' & W & l & t & tcb & v & E & _ & R). exists k, k', W, l, t, tcb, v. by split.
Qed.

(** C2: every state the machine reaches satisfies the kernel's invariant, and the
    trap contexts of the live tasks hold the words through which a trap enters
    the kernel.  (The runs are those in which every system call that returns is
    well formed.) *)
Theorem reachable_invariant p k : reachable (p, k) -> (forall ok, p <> Halted ok) -> exists W l a, kinv k W l a /\ seals env k W.
Proof.
  intros Hre Hp. destruct (reachable_inv p k Hre) as (W & l & a & Hph). exists W, l, a. split; [by eapply at_phase_inv|].
  destruct p as [| |ok|]; [apply Hph..|by destruct (Hp ok)|done].
Qed.

(** C3: the kernel never gets stuck.  In every state the machine reaches with a
    program running, [__alltraps] enters the handler in the kernel's address space
    and on the stack of the task, whatever the cause of the trap; and if the call
    is well formed, the handler comes to an end, without a panic, a double borrow
    or an endless loop, unless it is asked to print something else than ASCII.
    When no program is running, the scheduler finds one to run.  (The states are
    those of runs in which every system call that returns is well formed.) *)
Theorem kernel_progress k : reachable (InUser, k) \/ reachable (InLoop, k) ->
  match running (processor k) with
  | Some t => enters_handler env k /\ forall scause stval, behaves env lo hi N shapes k scause ->
      (exists c k', trap_handler env scause stval k = Ok (c, k') /\ reachable (phase_of c, k')) \/
      (trap_handler env scause stval k = Fail Panic /\ ~ plain_text env lo hi N shapes k scause)
  | None => exists t q c k', ready_queue k = t :: q /\ run_tasks env k = Ok (c, k') /\ reachable (phase_of c, k')
  end.
Proof.
  intros Hre. assert (Hset : setup_ok env lo hi shapes) by (by destruct Hre as [Hre|Hre]; apply reachable_setup in Hre).
  destruct Hre as [Hre|Hre]; destruct (reachable_inv _ _ Hre) as (W & l & a & Hph); destruct Hph as (Hk & Hse & Hr).
  - destruct Hr as [t Hr]. rewrite Hr. pose proof (reachable_enters k Hre) as He. split; [done|]. intros scause stval Hb.
    destruct (trap_safe env lo hi N shapes Hset k W l a t scause stval Hk Hr (Hb _ _ _ _ Hk Hr)) as [(c & k' & E & _)|[E Hn]]; [left|right; split; [done|intros Hp; by eapply Hn, Hp]].
    exists c, k'. split; [done|]. eapply reachable_step; [done|]. by eapply step_trap.
  - rewrite Hr. destruct (run_tasks_safe env lo hi N shapes Hset k W l a Hk Hr) as (t & q & tcb & c & k' & Hq & E & _). exists t, q, c, k'. split_and!; [done|done|].
    eapply reachable_step; [done|]. by eapply step_loop.
Qed.

(** C6: the kernel refines the abstract process manager.  In every run of the
    machine the table of processes changes by the transitions of its
    specification only (a fork by the running process, an exit, a wait, a yield,
    a dispatch of the head of the queue), and a parent that reaps a child is
    told the code the child exited with.  (The runs are those in which every
    system call that returns is well formed.) *)
Theorem kernel_refines_processes p k ds p' k' : reachable (p, k) -> runs_to env lo hi N shapes (p, k) ds (p', k') -> (forall ok, p' <> Halted ok) ->
  exists es, tsteps (table_of k) es (table_of k') /\ codes_delivered (table_of k) es.
Proof.
  intros Hre Hrun Hh. destruct (reachable_inv p k Hre) as (W & l & a & Hph).
  destruct (run_inv env lo hi N shapes (reachable_setup _ Hre) p k ds p' k' W l a Hph Hrun) as (_ & _ & _ & arr & _ & _ & Hm).
  destruct (Hm Hh) as [es Hes]. exists es. split; [done|]. by eapply tsteps_delivered.
Qed.

(** C5: scheduling is round-robin.  The task at position [i] of the ready queue
    is the [i]-th one dispatched from now on; until then it moves to the front,
    one place per dispatch.  (The runs are those in which every system call that
    returns is well formed; faults, timer interrupts and panics are free.) *)
Theorem round_robin p k ds p' k' u i : reachable (p, k) -> runs_to env lo hi N shapes (p, k) ds (p', k') -> ready_queue k !! i = Some u ->
  if decide (i < length ds)%nat then ds !! i = Some u else ready_queue k' !! (i - length ds)%nat = Some u.
Proof.
  intros Hre Hrun Hi. destruct (reachable_inv p k Hre) as (W & l & a & Hph).
  destruct (run_inv env lo hi N shapes (reachable_setup _ Hre) p k ds p' k' W l a Hph Hrun) as (_ & _ & _ & arr & _ & E & _).
  assert (Hu : (ds ++ ready_queue k') !! i = Some u) by (rewrite <- E; by apply lookup_app_l_Some). case_decide.
  - by rewrite lookup_app_l in Hu.
  - by rewrite lookup_app_r in Hu by lia.
Qed.

(** C4: processes are isolated.  While a task waits in the ready queue, the stores
    the others make in their own pages, their faults and their well-formed system
    calls leave its memory alone: every page it maps keeps its entry and its
    contents until it is dispatched.  (Calls whose arguments are not valid are not
    in these runs, and the block device writes into the buffer it is given.) *)
Theorem waiting_memory_unchanged p k ds p' k' u vpn : reachable (p, k) -> runs_to env lo hi N shapes (p, k) ds (p', k') ->
  (forall ok, p' <> Halted ok) -> u ∈ ready_queue k -> u ∉ ds -> 0 <= vpn < 2 ^ 27 -> vpn <> trampoline_vpn ->
  user_view k' u vpn = user_view k u vpn.
Proof.
  intros Hre Hrun Hh Hu Hds Hv Hne. pose proof (reachable_setup _ Hre) as Hset. destruct (reachable_inv p k Hre) as (W & l & a & Hph).
  destruct (run_keeps env lo hi N shapes Hset p k ds p' k' W l a u Hph Hrun Hu Hds Hh) as (W' & l' & a' & Hph' & Hu' & EW).
  assert (Hk' : kinv k' W' l' a') by (by eapply at_phase_inv).
  assert (Hk : kinv k W l a). { eapply at_phase_inv; [done|]. intros ok ->. apply run_halted in Hrun. injection Hrun as -> _. by destruct (Hh ok). }
  destruct (queued_task env lo hi N shapes k W l a u Hk Hu) as (tcb & v & Ht & _ & Hvt & Hok).
  destruct (queued_task env lo hi N shapes k' W' l' a' u Hk' Hu') as (tcb' & v' & Ht' & _ & Hvt' & Hok'). rewrite EW, Hvt in Hvt'. injection Hvt' as <-.
  rewrite (user_view_space env lo hi N shapes k' W' l' a' u tcb' v vpn Hk' Ht') by (done || by rewrite EW).
  by rewrite (user_view_space env lo hi N shapes k W l a u tcb v vpn Hk Ht).
Qed.

(** Every reference the kernel holds is to an object of the kind it is used as. *)
Record well_typed (k : Kernel St StackFrameAllocator) : Prop := {
  wt_borrows : borrows k = [];
  wt_init : exists tcb, tasks k !! initproc k = Some tcb /\ pid tcb = IDLE_PID /\ task_status (inner tcb) <> Zombie;
  wt_queue t : t ∈ ready_queue k -> exists tcb, tasks k !! t = Some tcb /\ task_status (inner tcb) = Ready;
  wt_running t : running (processor k) = Some t -> exists tcb, tasks k !! t = Some tcb /\ task_status (inner tcb) = Running;
  wt_children t tcb c : tasks k !! t = Some tcb -> c ∈ children (inner tcb) -> exists ctcb, tasks k !! c = Some ctcb /\ parent (inner ctcb) = Some t;
  wt_parent t tcb : tasks k !! t = Some tcb -> t <> initproc k -> exists p ptcb, parent (inner tcb) = Some p /\ tasks k !! p = Some ptcb /\ t ∈ children (inner ptcb);
  wt_fds t tcb r : tasks k !! t = Some tcb -> Some (OSFile r) ∈ fd_table (inner tcb) -> is_Some (files k !! r);
  wt_pids t t' tcb tcb' : tasks k !! t = Some tcb -> tasks k !! t' = Some tcb' -> pid tcb = pid tcb' -> t = t';
}.

(** C19: no reference dangles: in every state the machine reaches between two
    traps, in runs whose system calls are well formed, no cell is borrowed, and the queue, the processor, the children, the
    parents and the descriptors refer to live objects of the right kind. *)
Theorem reachable_well_typed p k : reachable (p, k) -> (forall ok, p <> Halted ok) -> well_typed k.
Proof.
  intros Hre Hp. destruct (reachable_inv p k Hre) as (W & l & a & Hph). destruct (at_phase_inv _ _ _ _ _ _ _ _ _ _ Hph Hp) as [Hb Hm Hs Ht Hf _ _]. split.
  - done.
  - destruct (tr_init _ _ Ht) as (tcb & ? & ? & ? & _). by exists tcb.
  - intros t. by apply (sc_queue _ _ _ _ Hs).
  - intros t. by apply (sc_running _ _ _ _ Hs).
  - apply (tr_child _ _ Ht).
  - apply (tr_parent _ _ Ht).
  - apply (fi_fds _ _ _ _ _ _ _ Hf).
  - apply (mi_pid_inj _ _ _ _ _ _ _ _ _ Hm).
Qed.

(** C18: no process is lost.  In every state the machine reaches, as long as the
    system calls that return are well formed, a task that is ready is in the queue, once; a task that runs is the processor's; a task that
    has exited is in neither, holds no data pages and no children, and is listed
    once by a parent that can still wait for it. *)
Theorem tasks_accounted p k t tcb : reachable (p, k) -> (forall ok, p <> Halted ok) -> tasks k !! t = Some tcb ->
  NoDup (ready_queue k) /\
  match task_status (inner tcb) with
  | Ready => t ∈ ready_queue k /\ running (processor k) <> Some t
  | Running => running (processor k) = Some t /\ (t ∉ ready_queue k)
  | Zombie => (t ∉ ready_queue k) /\ running (processor k) <> Some t /\ areas (memory_set (inner tcb)) = [] /\ children (inner tcb) = [] /\
      exists q ptcb, parent (inner tcb) = Some q /\ tasks k !! q = Some ptcb /\ NoDup (children (inner ptcb)) /\ t ∈ children (inner ptcb) /\
        task_status (inner ptcb) <> Zombie
  end.
Proof.
  intros Hre Hp Ht. destruct (reachable_inv p k Hre) as (W & l & a & Hph). pose proof (at_phase_inv _ _ _ _ _ _ _ _ _ _ Hph Hp) as Hk. pose proof Hk as [_ Hm [Hnd Hq Hr _] Htr _ _ _].
  split; [done|]. assert (Hnq : task_status (inner tcb) <> Ready -> t ∉ ready_queue k) by (intros Hne Hin; apply Hq in Hin as (x & Hx & ?); congruence).
  assert (Hnr : task_status (inner tcb) <> Running -> running (processor k) <> Some t) by (intros Hne Hin; apply Hr in Hin as (x & Hx & ?); congruence).
  destruct (task_status (inner tcb)) eqn:Es.
  - split; [apply Hq; eauto|auto].
  - split; [apply Hr; eauto|auto].
  - split_and!; [auto|auto| |by apply (tr_zombie _ _ Htr t)|].
    + destruct (task_space _ _ _ _ _ _ _ _ _ Hk t tcb Ht) as (v & _ & Hok). unfold task_ok in Hok. rewrite decide_True in Hok by done. apply Hok.
    + assert (Hne : t <> initproc k) by (intros ->; destruct (tr_init _ _ Htr) as (x & Hx & _ & ? & _); congruence).
      destruct (tr_parent _ _ Htr t tcb Ht Hne) as (q & ptcb & H1 & H2 & H3). exists q, ptcb. split_and!; [done|done|by apply (tr_nodup _ _ Htr q)|done|].
      intros Hz. rewrite (tr_zombie _ _ Htr q ptcb H2 Hz) in H3. by apply not_elem_of_nil in H3.
Qed.

(** C20: kernel stacks do not overflow into each other.  In every state the
    machine reaches, as long as the system calls that return are well formed, the
    two pages of a task's kernel stack are mapped readable
    and writable, the page below them is not mapped, and at least one such page
    lies between the stacks of two tasks. *)
Theorem kernel_stacks_guarded p k t tcb : reachable (p, k) -> (forall ok, p <> Halted ok) -> tasks k !! t = Some tcb ->
  let pos := kernel_stack_position (kernel_stack tcb) in let bottom := floor (va_from pos.1) in let look := fun x => translate (page_table (kernel_space k)) x (machine k) in
  pos.2 = pos.1 + KERNEL_STACK_SIZE /\
  (forall x, bottom <= x < bottom + 2 -> exists pte, look x = Ok (Some pte, machine k) /\ pte_flags pte = Z.lor (Z.lor MP_R MP_W) PTE_V) /\
  (exists r, look (bottom - 1) = Ok (r, machine k) /\ valid_entry r = None) /\
  forall t' tcb', tasks k !! t' = Some tcb' -> t' <> t -> let pos' := kernel_stack_position (kernel_stack tcb') in
    pos.2 + PAGE_SIZE <= pos'.1 \/ pos'.2 + PAGE_SIZE <= pos.1.
Proof.
  intros Hre Hp Ht. destruct (reachable_inv p k Hre) as (W & l & a & Hph). pose proof (at_phase_inv _ _ _ _ _ _ _ _ _ _ Hph Hp) as Hk. pose proof (ki_mem _ _ _ _ _ _ _ _ _ Hk) as Hm.
  pose proof (so_low _ _ _ _ (reachable_setup _ Hre)) as Hlow. destruct (mi_kernel _ _ _ _ _ _ _ _ _ Hm) as (v & ps & Hv & Hko & Hps).
  pose proof (w_space _ _ _ _ (mi_world _ _ _ _ _ _ _ _ _ Hm) _ _ Hv) as Hsp. unfold space_of in Hsp. rewrite (ko_pt _ _ _ _ Hko) in Hsp.
  assert (Hpid : forall u x, tasks k !! u = Some x -> pid x ∈ ps /\ 0 <= pid x < 2 ^ 24).
  { intros u x Hx. assert (Hin : pid x ∈ ps) by (apply Hps, elem_of_live; eauto). split; [done|]. apply (proj1 (Forall_forall _ _) (ko_pids _ _ _ _ Hko) _ Hin). }
  destruct (Hpid t tcb Ht) as [Hin Hrg]. rewrite (mi_stack _ _ _ _ _ _ _ _ _ Hm t tcb Ht). remember (pid tcb) as q eqn:Eq. cbv zeta.
  assert (Hbot : floor (va_from (kernel_stack_position q).1) = 2 ^ 27 - 3 - 3 * q).
  { rewrite stack_position by (unfold max_pid; lia). cbn [fst]. replace (TRAMPOLINE - q * 12288 - 8192) with (TRAMPOLINE - (q * 12288 + 8192)) by lia. rewrite high_va by lia. unfold floor. change PAGE_SIZE with 4096. dlia. }
  rewrite Hbot. split_and!.
  - rewrite stack_position by (unfold max_pid; lia). cbn [fst snd]. change KERNEL_STACK_SIZE with 8192. lia.
  - intros x Hx. destruct (stack_entry shapes _ v ps q x Hko Hin ltac:(unfold in_stack; lia)) as (f & HD & HG). exists (pte_new f (Z.lor (Z.lor MP_R MP_W) PTE_V)).
    split; [by eapply space_translate|]. pose proof (space_frame_range _ _ _ _ _ _ _ _ _ _ Hsp HD). apply pte_flags_new; [lia|done].
  - destruct (translate_valid lo hi _ _ _ _ _ _ (2 ^ 27 - 3 - 3 * q - 1) Hsp ltac:(lia)) as (r & E & Hr). exists r. split; [done|]. rewrite Hr.
    replace (2 ^ 27 - 3 - 3 * q - 1) with (2 ^ 27 - 4 - 3 * q) by lia. by apply (stack_guard shapes Hlow _ _ _ _ Hko).
  - intros t' tcb' Ht' Hne. rewrite (mi_stack _ _ _ _ _ _ _ _ _ Hm t' tcb' Ht'). destruct (Hpid t' tcb' Ht') as [_ Hrg'].
    assert (pid tcb' <> q) by (intros E; apply Hne; apply (mi_pid_inj _ _ _ _ _ _ _ _ _ Hm t' t tcb' tcb); congruence). rewrite !stack_position by (unfold max_pid; lia). cbn [fst snd]. change PAGE_SIZE with 4096. lia.
Qed.

End System.

(** ** The packer and the kernel *)
Section Packing.
Context {Host St : Type} `{BlockStoreSpec Host} `{BlockStoreSpec St}.
Variables (env : Env) (layout : KernelLayout) (MEMORY_END : Z) (MMIO : list (Z * Z)) (host_file : list byte -> option (list byte)).
Abbreviation BLOCKS := (16 * 2048)%Z.
Abbreviation FS := (planned (16 * 2048) 1).
Abbreviation with_ext := (zip_with (fun n e => n ++ Byte.x2e :: e)).

(** C8: what the packer writes, the kernel boots.  Given programs with distinct
    names that fit in 16 MiB, [easy_fs_pack] leaves an image on the device that
    holds exactly those files; and a kernel started on that image, through any
    cache, runs the program that was packed as [initproc]. *)
Theorem packed_image_boots σ apps exts r data elf :
  blocks_ok σ -> (forall b, is_Some (σ !! b) <-> 0 <= b < BLOCKS) ->
  packable host_file apps -> length exts = length apps -> Forall (fun n => Byte.x2e ∉ n) apps.*1 ->
  board_ok env layout MEMORY_END MMIO r -> lookup_name init_name apps = Some data -> elf_ok env data elf ->
  kernel_tables layout MEMORY_END MMIO + 9 + 3 * total_pages (elf_areas elf) <= last_frame MEMORY_END - first_frame layout ->
  zlen data <= 512 * (Z.of_nat (loops env) - 1) ->
  exists σ', commits (St := Host) σ (easy_fs_pack host_file (with_ext apps.*1 exts)) tt σ' /\ fs_rep σ' FS BLOCKS apps /\
    forall d : St, wf d -> held d = ∅ -> content d = σ' ->
      exists k W l t v, rust_main env layout MEMORY_END MMIO (cold_boot d r) = Ok (tt, k) /\
        kinv env (first_frame layout) (last_frame MEMORY_END) BLOCKS (kernel_shapes layout MEMORY_END MMIO) k W l apps /\
        ready_queue k = [t] /\ initproc k = t /\ W !! Some t = Some v /\
        (forall x b, x <> context_vpn -> elf_contents data elf x = Some b -> as_P v !! x = Some b) /\
        space_cx v = Some (start_cx env elf (ms_token (kernel_space k)) IDLE_PID).
Proof.
  intros Hb Hd Hp Hl Hdot Hbo Hi He Hroom Hdata. destruct (easy_fs_pack_ok (St := Host) host_file σ apps exts Hp Hl Hdot Hb Hd) as (σ' & Hc & Hrep).
  exists σ'. split_and!; [done|done|]. intros d Hw Hh <-.
  assert (Hbt : bootable env layout MEMORY_END MMIO BLOCKS d r apps data elf) by (split; eauto).
  destruct (bootable_boots _ _ _ _ _ _ _ _ _ _ Hbt) as (k & W & l & t & tcb & v & E & Hk & Hq & _ & _ & Hini & _ & _ & Hv & Hpg & Hcx). exists k, W, l, t, v. by split_and!.
Qed.

(** The packer panics on a directory entry without an extension, after it
    has formatted the image, and on a second entry with the same stem. *)
Theorem pack_panics (s : Host) :
  wf s -> held s = ∅ -> (forall b, is_Some (content s !! b) <-> 0 <= b < BLOCKS) ->
  (forall entries e, e ∈ entries -> Byte.x2e ∉ e -> easy_fs_pack host_file entries s = Fail Panic) /\
  (forall apps exts n, packable host_file apps -> length exts = length (apps.*1 ++ [n]) -> Forall (fun n => Byte.x2e ∉ n) (apps.*1 ++ [n]) ->
     n ∈ apps.*1 -> easy_fs_pack host_file (with_ext (apps.*1 ++ [n]) exts) s = Fail Panic).
Proof.
  intros Hw Hh Hd. assert (Hb : blocks_ok (content s)) by (intros i b; by apply content_length).
  destruct (efs_create_runs (St := Host) (content s) BLOCKS 1 ltac:(by vm_compute) Hb Hd) as (σ1 & di & Hc & Hfd). destruct (Hc s Hw eq_refl Hh) as (s1 & E1 & Hs1). split.
  - intros entries e He Hdot. unfold easy_fs_pack. rewrite (bind_Ok _ _ _ _ _ E1). by rewrite (app_names_panic entries e).
  - intros apps exts n Hp Hl Hdot Hn. unfold easy_fs_pack. rewrite (bind_Ok _ _ _ _ _ E1), app_names_ok by done. cbn [lift]. rewrite bind_ret.
    destruct (pack_apps_ok (St := Host) host_file apps σ1 [] Hp) as (σ' & Hrep & Hloop); [by eexists _, _, _|]. destruct (Hloop s1) as (s2 & E2 & Hs2); [by destruct Hs1 as (? & ? & ? & ?)|].
    assert (Hhost : is_Some (host_file n)). { apply list_elem_of_fmap in Hn as (e & -> & He). destruct (proj1 (Forall_forall _ _) (pk_ok _ _ Hp) e He) as (_ & -> & _). eauto. }
    rewrite (for_each_app _ _ _ _ _ _ _ E2). cbn [for_each]. unfold bind. by rewrite (pack_app_again host_file σ' apps n Hn Hhost Hrep s2 Hs2).
Qed.
End Packing.

(** C22: the test of the file system passes.  Through any cache on any device of
    65536 blocks, and whatever digits are drawn, none of the assertions of
    [efs_test] fails: the greeting and the eleven strings, up to 40000 blocks long,
    are read back as they were written; in the end the image holds the last of
    them. *)
Theorem efs_test_passes {St} `{BlockStoreSpec St} random (s : St) : wf s -> held s = ∅ -> (forall b, is_Some (content s !! b) <-> 0 <= b < 65536) ->
  exists s' from, efs_test random s = Ok (tt, s') /\
    fs_rep (content s') (planned 65536 1) 65536 [(filea_name, random_digits random from (Z.to_nat (40000 * 512))); (fileb_name, [])].
Proof.
  intros Hw Hh Hd. destruct (efs_test_ok (St := St) random (content s)) as (σ' & from & Hr & Hrep); [intros i b; by apply content_length|done|].
  destruct (Hr s Hw eq_refl Hh) as (s' & E & _ & <- & _). by exists s', from.
Qed.

(** ** The hypotheses hold on the QEMU board

    Each theorem is applied to states of one run: [initproc] forks, stores into
    its memory while the child waits, and loses the processor to the child,
    which is killed by a fault. *)
Abbreviation QREACH := (reachable (St := Store) board qemu_layout qemu_end qemu_mmio (16 * 2048)).
Abbreviation QBOOT := (bootable (St := Store) board qemu_layout qemu_end qemu_mmio (16 * 2048)).

Lemma qemu_bootable : exists d, QBOOT d qemu_ram image init_data init_elf.
Proof.
  destruct packed as (d & l & Hw & Hh & Hv). exists d. split; [exact qemu_board|exact Hw|exact Hh|by eexists _, l|done|exact init_elf_ok|by vm_compute|by vm_compute].
Qed.

Lemma boot_enters_initproc_witness : exists d k k' v, rust_main (St := Store) board qemu_layout qemu_end qemu_mmio (cold_boot d qemu_ram) = Ok (tt, k) /\
  run_tasks board k = Ok (restore_to board v, k').
Proof.
  destruct qemu_bootable as [d Hbt].
  destruct (boot_enters_initproc (St := Store) board qemu_layout qemu_end qemu_mmio (16 * 2048) d qemu_ram image init_data init_elf Hbt) as (k & k' & W & l & t & tcb & v & E & E' & _).
  exists d, k, k', v. split; [exact E|exact E'].
Defined.

(** [initproc] is about to fork. *)
Lemma qemu_asks : exists k W l t tcb v cx, QREACH (InUser, k) /\ only_init k W l t tcb v /\ space_cx v = Some cx /\ xs cx !! 17%nat = Some SYSCALL_FORK.
Proof.
  destruct run_starts as (d & k0 & W0 & l & t & tcb0 & v0 & k & tcb & v & Hbd & Hrun & Ho). destruct (run_asks k W0 l t tcb v Ho) as (k' & W' & v' & cx & Hst & Ho' & Hcx & H17).
  exists k', W', l, t, tcb, v', cx. split; [|done]. eapply reachable_step; [|exact Hst].
  destruct Hbd as [Hw Hh [l0 Hf] Eb _ _ _ _ _]. exists d, qemu_ram, image, init_data, init_elf, k0, [t]. split; [|split; [exact Eb|exact Hrun]].
  split; [exact qemu_board|exact Hw|exact Hh|by eexists _, l0|done|exact init_elf_ok|by vm_compute|by vm_compute].
Qed.

(** It has forked. *)
Lemma qemu_forked : exists (k k' : OS) W l t c tcb ctcb v vc, QREACH (InUser, k) /\ ready_queue k = [] /\ QSTEP (InUser, k) [] (InUser, k') /\ QREACH (InUser, k') /\ forked k' W l t c tcb ctcb v vc.
Proof.
  destruct qemu_asks as (k & W & l & t & tcb & v & cx & Hre & Ho & Hcx & H17).
  destruct (run_forks k W l t tcb v cx Ho Hcx H17 (reachable_enters _ _ _ _ _ _ Hre)) as (k' & W' & c & tcb' & ctcb & v' & vc & Hst & Hf).
  exists k, k', W', l, t, c, tcb', ctcb, v', vc. split; [exact Hre|]. split; [apply Ho|]. split; [exact Hst|]. split; [by eapply reachable_step|exact Hf].
Qed.

(** The child has been killed. *)
Lemma qemu_killed : exists (k k' : OS) t c ctcb, QREACH (InUser, k) /\ ready_queue k = [] /\ QRUN (InUser, k) [c] (InLoop, k') /\ tasks k' !! c = Some ctcb /\
  task_status (inner ctcb) = Zombie /\ exit_code (inner ctcb) = -2 /\ parent (inner ctcb) = Some t.
Proof.
  destruct qemu_forked as (k & k1 & W & l & t & c & tcb & ctcb & v & vc & Hre & Hq & Hst & Hre1 & Hf).
  destruct (run_switches k1 W l t c tcb ctcb v vc Hf (reachable_enters _ _ _ _ _ _ Hre1)) as (k2 & k3 & x & Hst2 & Hst3 & Hk3 & Hr3 & Hx & Hpx & Hpa & _).
  assert (Hre3 : QREACH (InUser, k3)) by (eapply reachable_step; [|exact Hst3]; by eapply reachable_step).
  destruct (run_faults k3 W l t c x Hk3 Hr3 Hx) as (k4 & z & Hst4 & Hz & Hzs & Hzc & Hzp & _); [rewrite Hpx; exact (fk_pid _ _ _ _ _ _ _ _ _ Hf)|done|by apply (reachable_enters _ _ _ _ _ _ Hre3)|].
  exists k, k4, t, c, z. split; [exact Hre|]. split; [exact Hq|]. split; [|by split_and!].
  apply (run_step _ _ _ _ _ _ (InUser, k3) _ [c] []); [|exact Hst4]. apply (run_step _ _ _ _ _ _ (InLoop, k2) _ [] [c]); [|exact Hst3].
  apply (run_step _ _ _ _ _ _ (InUser, k1) _ [] []); [|exact Hst2]. apply (run_step _ _ _ _ _ _ (InUser, k) _ [] []); [constructor|exact Hst].
Qed.

Lemma runs_reach s ds s' : QREACH s -> QRUN s ds s' -> QREACH s'.
Proof. intros Hre Hrun. induction Hrun as [|s s1 s2 ds ds' _ IH Hst]; [done|]. eapply reachable_step; [by apply IH|exact Hst]. Qed.

(** A fork, a switch and an exit are transitions of the table. *)
Lemma kernel_refines_processes_witness : exists (k k' : OS) c ctcb es, QREACH (InUser, k) /\ ready_queue k = [] /\ tasks k' !! c = Some ctcb /\ exit_code (inner ctcb) = -2 /\
  tsteps (table_of k) es (table_of k') /\ codes_delivered (table_of k) es.
Proof.
  destruct qemu_killed as (k & k' & t & c & z & Hre & Hq & Hrun & Hz & Hs & Hc & Hp).
  destruct (kernel_refines_processes board qemu_layout qemu_end qemu_mmio (16 * 2048) InUser k [c] InLoop k' Hre Hrun ltac:(done)) as (es & H1 & H2).
  exists k, k', c, z, es. split; [exact Hre|]. split; [exact Hq|]. split; [exact Hz|]. split; [exact Hc|]. split; [exact H1|exact H2].
Defined.

Lemma reachable_invariant_witness : exists k W l a t, (kinv board LO HI (16 * 2048) SHAPES k W l a /\ seals board k W) /\ running (processor (St := Store) k) = Some t.
Proof.
  destruct qemu_forked as (k0 & k & W0 & l0 & t & c & tcb & ctcb & v & vc & _ & _ & _ & Hre & Hf).
  destruct (reachable_invariant (St := Store) board qemu_layout qemu_end qemu_mmio (16 * 2048) InUser k Hre ltac:(done)) as (W & l & a & Hk). exists k, W, l, a, t. split; [exact Hk|exact (fk_running _ _ _ _ _ _ _ _ _ Hf)].
Defined.

(** The fork of [initproc] is well formed, and is handled. *)
Lemma kernel_progress_witness : exists (k : OS) t c k', running (processor k) = Some t /\ enters_handler board k /\ behaves board LO HI (16 * 2048) SHAPES k UserEnvCall /\
  trap_handler board UserEnvCall 0 k = Ok (c, k').
Proof.
  destruct qemu_asks as (k & W & l & t & tcb & v & cx & Hre & Ho & Hcx & H17). pose proof (oi_running _ _ _ _ _ _ Ho) as Hr.
  assert (Ht : tasks k !! t = Some tcb) by (rewrite (oi_tasks _ _ _ _ _ _ Ho); apply lookup_singleton_eq).
  assert (Hb : behaves board LO HI (16 * 2048) SHAPES k UserEnvCall).
  { apply (fork_behaves board LO HI (16 * 2048) SHAPES qemu_setup k W l image t tcb v cx); [apply Ho|exact Hr|exact Ht|apply Ho|exact Hcx|exact H17|].
    rewrite (oi_areas _ _ _ _ _ _ Ho), LO_eq, HI_eq. pose proof (oi_room _ _ _ _ _ _ Ho). lia. }
  pose proof (kernel_progress (St := Store) board qemu_layout qemu_end qemu_mmio (16 * 2048) k (or_introl Hre)) as Hp. rewrite Hr in Hp. destruct Hp as [He Hp].
  destruct (Hp UserEnvCall 0 Hb) as [(c & k' & E & _)|[_ Hn]]; [exists k, t, c, k'; split; [exact Hr|split; [exact He|split; [exact Hb|exact E]]]|].
  exfalso. apply Hn. intros W' l' a' t' Hk' Hr' tcb' v' cx' Ht' Hv' Hcx'. assert (t' = t) as -> by congruence. assert (tcb' = tcb) as -> by congruence.
  rewrite (cx_unique board LO HI (16 * 2048) SHAPES qemu_setup k W l image W' l' a' t tcb v v' (oi_inv _ _ _ _ _ _ Ho) Hk' Hr Ht (oi_space _ _ _ _ _ _ Ho) Hv') in Hcx'.
  assert (cx' = cx) as -> by congruence. cbv beta zeta. rewrite H17. done.
Defined.

(** The child is first in the queue, and is the first one dispatched. *)
Lemma round_robin_witness : exists (k k' : OS) c, QREACH (InUser, k) /\ ready_queue k = [c] /\ QRUN (InUser, k) [c] (InUser, k') /\ [c] !! 0%nat = Some c.
Proof.
  destruct qemu_forked as (k0 & k1 & W & l & t & c & tcb & ctcb & v & vc & _ & _ & _ & Hre & Hf).
  destruct (run_switches k1 W l t c tcb ctcb v vc Hf (reachable_enters _ _ _ _ _ _ Hre)) as (k2 & k3 & x & Hst2 & Hst3 & _).
  assert (Hrun : QRUN (InUser, k1) ([] ++ [c]) (InUser, k3)) by (eapply run_step; [|exact Hst3]; apply (run_step _ _ _ _ _ _ (InUser, k1) _ [] []); [constructor|exact Hst2]).
  pose proof (round_robin (St := Store) board qemu_layout qemu_end qemu_mmio (16 * 2048) InUser k1 _ InUser k3 c 0 Hre Hrun ltac:(by rewrite (fk_queue _ _ _ _ _ _ _ _ _ Hf))) as Hrr.
  exists k1, k3, c. split; [exact Hre|]. split; [exact (fk_queue _ _ _ _ _ _ _ _ _ Hf)|]. split; [exact Hrun|exact Hrr].
Defined.

(** The parent overwrites its first page; the child's, mapped at the same
    address, still holds the program. *)
Lemma waiting_memory_unchanged_witness : exists (k k' : OS) t c pte pte', QREACH (InUser, k) /\ QRUN (InUser, k) [] (InUser, k') /\ running (processor k) = Some t /\ c ∈ ready_queue k /\
  user_view k t 16 = Some (pte, page_image init_data 0) /\ user_view k' t 16 = Some (pte, zero_page) /\
  user_view k c 16 = Some (pte', page_image init_data 0) /\ user_view k' c 16 = Some (pte', page_image init_data 0).
Proof.
  destruct qemu_forked as (k0 & k & W & l & t & c & tcb & ctcb & v & vc & _ & _ & _ & Hre & Hf).
  destruct (run_stores k W l t c tcb ctcb v vc Hf) as (k' & pte & Hst & Hv1 & Hv2). destruct (forked_view k W l t c tcb ctcb v vc Hf) as (pte' & Hc).
  assert (Hin : c ∈ ready_queue k) by (rewrite (fk_queue _ _ _ _ _ _ _ _ _ Hf); by left).
  assert (Hrun : QRUN (InUser, k) [] (InUser, k')) by (apply (run_step _ _ _ _ _ _ (InUser, k) _ [] []); [constructor|exact Hst]).
  pose proof (waiting_memory_unchanged (St := Store) board qemu_layout qemu_end qemu_mmio (16 * 2048) InUser k [] InUser k' c 16 Hre Hrun ltac:(done) Hin (not_elem_of_nil _) ltac:(lia) ltac:(by vm_compute)) as Hw.
  exists k, k', t, c, pte, pte'. split; [exact Hre|]. split; [exact Hrun|]. split; [exact (fk_running _ _ _ _ _ _ _ _ _ Hf)|]. split; [exact Hin|]. split; [exact Hv1|]. split; [exact Hv2|]. split; [exact Hc|]. rewrite Hw. exact Hc.
Defined.

Lemma reachable_well_typed_witness : exists (k : OS) c, ready_queue k = [c] /\ well_typed k.
Proof.
  destruct qemu_forked as (k0 & k & W & l & t & c & tcb & ctcb & v & vc & _ & _ & _ & Hre & Hf). exists k, c. split; [exact (fk_queue _ _ _ _ _ _ _ _ _ Hf)|].
  by apply (reachable_well_typed (St := Store) board qemu_layout qemu_end qemu_mmio (16 * 2048) InUser k Hre).
Defined.

(** The child that was killed is a zombie its parent still lists. *)
Lemma tasks_accounted_witness : exists (k : OS) c z q ptcb, tasks k !! c = Some z /\ task_status (inner z) = Zombie /\ (c ∉ ready_queue k) /\ areas (memory_set (inner z)) = [] /\
  parent (inner z) = Some q /\ tasks k !! q = Some ptcb /\ c ∈ children (inner ptcb).
Proof.
  destruct qemu_killed as (k0 & k & t & c & z & Hre & _ & Hrun & Hz & Hs & _).
  pose proof (tasks_accounted (St := Store) board qemu_layout qemu_end qemu_mmio (16 * 2048) InLoop k c z (runs_reach _ _ _ Hre Hrun) ltac:(done) Hz) as [_ Ha]. rewrite Hs in Ha.
  destruct Ha as (H1 & _ & H2 & _ & q & ptcb & H3 & H4 & _ & H5 & _). exists k, c, z, q, ptcb.
  split; [exact Hz|]. split; [exact Hs|]. split; [exact H1|]. split; [exact H2|]. split; [exact H3|]. split; [exact H4|exact H5].
Defined.

(** Between the stacks of the parent and of its child there is a guard page. *)
Lemma kernel_stacks_guarded_witness : exists (k : OS) t c tcb ctcb, tasks k !! t = Some tcb /\ tasks k !! c = Some ctcb /\ c <> t /\
  let pos := kernel_stack_position (kernel_stack tcb) in let pos' := kernel_stack_position (kernel_stack ctcb) in
  pos.2 + PAGE_SIZE <= pos'.1 \/ pos'.2 + PAGE_SIZE <= pos.1.
Proof.
  destruct qemu_forked as (k0 & k & W & l & t & c & tcb & ctcb & v & vc & _ & _ & _ & Hre & Hf). pose proof Hf as [_ _ Hne _ Ht Hc _ _ _ _ _ _ _ _].
  destruct (kernel_stacks_guarded (St := Store) board qemu_layout qemu_end qemu_mmio (16 * 2048) InUser k t tcb Hre ltac:(done) Ht) as (_ & _ & _ & Hg).
  exists k, t, c, tcb, ctcb. split; [exact Ht|]. split; [exact Hc|]. split; [exact Hne|]. exact (Hg c ctcb Hc Hne).
Defined.

Lemma packed_image_boots_witness : exists σ', commits (St := Store) (content (blank_store (16 * 2048))) (easy_fs_pack host [init_name ++ [Byte.x2e; Byte.x72; Byte.x73]]) tt σ' /\
  fs_rep σ' (planned (16 * 2048) 1) (16 * 2048) image.
Proof.
  destruct (blank_ok (16 * 2048)) as (_ & _ & Hb & Hd); [lia|lia|].
  destruct (packed_image_boots (Host := Store) (St := Store) board qemu_layout qemu_end qemu_mmio host _ image [[Byte.x72; Byte.x73]] qemu_ram init_data init_elf Hb Hd image_packable) as (σ' & Hc & Hrep & _).
  - done.
  - apply Forall_singleton. by apply (bool_decide_unpack _).
  - exact qemu_board.
  - done.
  - exact init_elf_ok.
  - by vm_compute.
  - by vm_compute.
  - exists σ'. split; [exact Hc|exact Hrep].
Defined.

Lemma pack_panics_witness : easy_fs_pack host [init_name] (blank_store (16 * 2048)) = Fail Panic.
Proof.
  destruct (blank_ok (16 * 2048)) as (Hw & Hh & _ & Hd); [lia|lia|].
  apply (proj1 (pack_panics (Host := Store) host (blank_store (16 * 2048)) Hw Hh Hd) [init_name] init_name); [by left|by apply (bool_decide_unpack _)].
Defined.

Lemma efs_test_passes_witness : exists s', efs_test (St := Store) (fun _ => 7) (blank_store 65536) = Ok (tt, s').
Proof.
  destruct (blank_ok 65536) as (Hw & Hh & _ & Hd); [lia|lia|]. destruct (efs_test_passes (St := Store) (fun _ => 7) (blank_store 65536) Hw Hh Hd) as (s' & from & E & _). exists s'. exact E.
Defined.
