(* ===== verification/KernelTheorems.v ===== *)
(** * System calls and traps: what each one does

    The states are those of the kernel's invariant with a task [t] running, whose
    address space is [v].  The witnesses are states of the QEMU board. *)

From S2P Require Import Prelude BlockDev BlockStore BlockCache Bitmap Layout DiskCodec Tree BuildTree TreeOps ClearTree InodeOps FileData Efs Vfs FsInv FsAlloc FsUpdate FsOps FsDir FsCreate FsSpec FsRefine Pack Address Frames PageTable PtInv PtOps PtRefine Space MemorySet AreaOps MsOps MsLife MsBuild UserMem World Kernel OsInode Task Syscall Boot Pids CxMem Asm KLogic KInv KSched KProc KFork KTree KExit KWait KFile KBuf KIo KExec KSafe KRun KBoot KDemo SysTheorems.

Section Kernel.
Context {St F : Type} `{BlockStoreSpec St} `{FrameAllocatorSpec F}.
Variables (env : Env) (lo hi N : Z) (base : list (VPNRange * MapType * Z)).
Implicit Types (k : Kernel St F) (W : gmap (option nat) aspace) (v : aspace) (l : directory) (a : named_files).
Abbreviation kinv := (kinv env lo hi N base).

(** The task [t] runs in the address space [v]. *)
Record runs_as k W l a (t : nat) (tcb : TaskControlBlock) v : Prop := {
  ra_setup : setup_ok env lo hi base;
  ra_inv : kinv k W l a;
  ra_running : running (processor k) = Some t;
  ra_task : tasks k !! t = Some tcb;
  ra_space : W !! Some t = Some v;
}.

(** ** Processes *)

(** C11: [fork] makes a child in the image of its parent: a new task with a pid
    no live task has, at the end of the ready queue, with the parent's
    descriptors, page permissions and contents, in frames of its own; its trap
    context differs in the kernel stack and in the result, which is 0 in the
    child and the child's pid in the parent. *)
Theorem fork_correct k W l a t tcb v : runs_as k W l a t tcb v ->
  in_use W + 9 + 3 * total_pages (areas (memory_set (inner tcb))) <= hi - lo ->
  exists pd k' c ctcb vc W' cx, sys_fork env k = Ok (Value pd, k') /\ kinv k' W' l a /\ (pd ∉ live (tasks k)) /\
    tasks k !! c = None /\ tasks k' !! c = Some ctcb /\ pid ctcb = pd /\ parent (inner ctcb) = Some t /\ children (inner ctcb) = [] /\
    fd_table (inner ctcb) = fd_table (inner tcb) /\ task_status (inner ctcb) = Ready /\
    tasks k' !! t = Some (with_inner tcb (set_children (inner tcb) (children (inner tcb) ++ [c]))) /\
    ready_queue k' = ready_queue k ++ [c] /\ (forall u, u <> c -> W' !! Some u = W !! Some u) /\ W' !! Some c = Some vc /\
    space_cx v = Some cx /\ space_cx vc = Some (set_x (set_kernel_sp cx (get_top pd)) 10 0) /\
    (forall x, x <> context_vpn -> as_P vc !! x = as_P v !! x) /\ (forall x, pte_flags <$> as_G vc !! x = pte_flags <$> as_G v !! x) /\
    forall x y p, as_D v !! x = Some p -> as_D vc !! y <> Some p.
Proof.
  intros [Hset Hk Hr Ht Hv] Hroom. destruct Hset as [Hlo Hlow Hsmall Htr _ _].
  destruct (sys_fork_inv env lo hi N base Hlo Hlow Hsmall Htr k W l a t tcb v Hk Hr Ht Hv Hroom) as (pd & ppn & ms & k' & vc & W' & cx & E & Hk' & Hpd & Hts & Hq & _ & _ & Ho & Hvc & Hcx & Hcxc & HP & Hfl & _).
  set (c := next_ref k) in *. assert (Hne : t <> c) by (pose proof (ki_fresh _ _ _ _ _ _ _ _ _ Hk t ltac:(eauto)); unfold c; lia).
  exists pd, k', c, (new_child t pd ppn ms (inner tcb)), vc, W', cx. split_and!; try done.
  - apply eq_None_not_Some. intros Hs. pose proof (ki_fresh _ _ _ _ _ _ _ _ _ Hk c Hs). unfold c in *. lia.
  - by rewrite Hts, lookup_insert_ne, lookup_insert_eq.
  - by rewrite Hts, lookup_insert_eq.
  - intros x y p Hx Hy. pose proof (mi_world _ _ _ _ _ _ _ _ _ (ki_mem _ _ _ _ _ _ _ _ _ Hk')) as HW. rewrite <- Ho in Hv by done.
    assert (Hd : owns v ## owns vc) by (eapply (world_disj lo hi _ W' (Some t) (Some c)); [done|done|done|congruence]).
    apply (Hd p); apply elem_of_owned; eauto.
Qed.

(** C14: [exec] replaces the program.  The task gets the address space of the
    file's program, with the file's contents and a trap context at its entry
    point, and keeps its pid, kernel stack, descriptors and children; no other
    address space changes.  When there is no such file nothing changes and the
    result is -1. *)
Theorem exec_correct k W l a t tcb v ptr cs : runs_as k W l a t tcb v -> user_str env v ptr cs ->
  match lookup_name (chars cs) a with
  | None => exists d, sys_exec env ptr k = Ok (Value (-1), set_disk k d) /\ kinv (set_disk k d) W l a
  | Some data => forall elf, elf_ok env data elf -> in_use W + 3 + 3 * total_pages (elf_areas elf) <= hi - lo -> zlen data <= 512 * (Z.of_nat (loops env) - 1) ->
      exists k' v' l' ms ppn, sys_exec env ptr k = Ok (Value 0, k') /\ kinv k' (<[Some t := v']> W) l' a /\
        tasks k' = <[t := with_memory tcb ms ppn]> (tasks k) /\ ready_queue k' = ready_queue k /\ running (processor k') = Some t /\
        shape <$> areas ms = shape <$> elf_areas elf /\ (forall x b, x <> context_vpn -> elf_contents data elf x = Some b -> as_P v' !! x = Some b) /\
        space_cx v' = Some (start_cx env elf (ms_token (kernel_space k)) (kernel_stack tcb))
  end.
Proof.
  intros [Hset Hk Hr Ht Hv] Hs. destruct Hset as [Hlo Hlow Hsmall Htr Henv _]. destruct (lookup_name (chars cs) a) as [data|] eqn:El.
  - intros elf Hel Hroom Hfu. destruct (sys_exec_ok env lo hi N base) with (k := k) (W := W) (l := l) (a := a) (t := t) (tcb := tcb) (v := v) (ptr := ptr) (cs := cs) (data := data) (elf := elf)
      as (d & m & fl & ms & ppn & v' & l' & E & Hk' & Hsh & Hpg & Hcx); try done. eexists _, v', l', ms, ppn. split_and!; [exact E|exact Hk'|done..].
  - by eapply (sys_exec_missing env lo hi N base Hlo).
Qed.

(** The frames of the data of a task that has exited are free. *)
Lemma exit_frees m W t v x p : world lo hi m W -> W !! Some t = Some v -> as_D v !! x = Some p ->
  p ∉ total (<[Some t := mkSpace (as_pt v) (as_G v) ∅ ∅]> W).
Proof.
  intros HW Hv Hx (i & w & Hw & Hp)%elem_of_total. rewrite lookup_insert in Hw. case_decide as Hi.
  - injection Hw as <-. apply elem_of_owned in Hp as [Hp|(y & Hy)]; [|by destruct (lookup_empty_Some y p)]. by apply (sp_sep _ _ _ _ _ _ _ _ (w_space _ _ _ _ HW _ _ Hv) x p Hx).
  - apply (world_disj lo hi m W (Some t) i v w HW Hv Hw Hi p); [apply elem_of_owned; eauto|done].
Qed.

(** C12: [exit] keeps only what the parent needs.  The task becomes a zombie with
    its exit code, its children become those of [initproc], every frame of its
    data returns to the allocator, and the scheduler takes over; when [initproc]
    itself exits the machine powers off. *)
Theorem exit_correct k W l a t tcb v code : runs_as k W l a t tcb v ->
  if decide (pid tcb = IDLE_PID) then exists k', sys_exit env code k = Ok (PowerOff (code =? 0), k')
  else exists k' ztcb itcb, sys_exit env code k = Ok (Switched, k') /\ kinv k' (<[Some t := mkSpace (as_pt v) (as_G v) ∅ ∅]> W) l a /\
    tasks k' !! t = Some ztcb /\ task_status (inner ztcb) = Zombie /\ exit_code (inner ztcb) = code /\ children (inner ztcb) = [] /\
    running (processor k') = None /\ ready_queue k' = ready_queue k /\
    (forall c ctcb, c ∈ children (inner tcb) -> tasks k !! c = Some ctcb -> tasks k' !! c = Some (with_inner ctcb (set_parent (inner ctcb) (Some (initproc k))))) /\
    tasks k !! initproc k = Some itcb /\
    tasks k' !! initproc k = Some (with_inner itcb (set_children (inner itcb) (children (inner itcb) ++ children (inner tcb)))) /\
    machine_ok lo hi (machine k') (total (<[Some t := mkSpace (as_pt v) (as_G v) ∅ ∅]> W)) /\
    forall x p, as_D v !! x = Some p -> p ∉ total (<[Some t := mkSpace (as_pt v) (as_G v) ∅ ∅]> W).
Proof.
  intros [Hset Hk Hr Ht Hv]. unfold sys_exit. case_decide as Hp.
  { eexists. erewrite bind_Ok; [|by eapply exit_idle]. done. }
  destruct (exit_inv env lo hi N base) with (k := k) (W := W) (l := l) (a := a) (t := t) (tcb := tcb) (v := v) (code := code) as (m & E & Hk'); try done; [by destruct Hset..|].
  pose proof (ki_tree _ _ _ _ _ _ _ _ _ Hk) as Htr. destruct (tr_init _ _ Htr) as (itcb & Hi & Hip & _ & Hpar).
  assert (Hti : t <> initproc k) by (intros ->; congruence).
  assert (Hic : initproc k ∉ children (inner tcb)) by (intros Hin; destruct (tr_child _ _ Htr t tcb _ Ht Hin) as (x & Hx & ?); congruence).
  assert (Hlive : forall c, c ∈ children (inner tcb) -> is_Some (tasks k !! c)) by (intros c Hin; destruct (tr_child _ _ Htr t tcb c Ht Hin) as (x & Hx & _); eauto).
  assert (Had : forall u, u <> t -> tasks (exited_state k t tcb code m) !! u = adopted_at (tasks k) (initproc k) (children (inner tcb)) u).
  { intros u Hu. cbn. rewrite lookup_insert_ne by done. apply lookup_adopted; [done|by apply (tr_nodup _ _ Htr t)|done|by exists itcb]. }
  eexists _, (exited tcb code), itcb. split; [erewrite bind_Ok; [|exact E]; done|]. split_and!; try done.
  - apply lookup_insert_eq.
  - intros c ctcb Hc Hct. rewrite Had by (intros ->; by apply (tr_self _ _ Htr t tcb Ht)). unfold adopted_at. rewrite decide_False by (intros ->; done). by rewrite decide_True, Hct.
  - rewrite Had by done. unfold adopted_at. by rewrite decide_True, Hi.
  - apply (w_machine _ _ _ _ (mi_world _ _ _ _ _ _ _ _ _ (ki_mem _ _ _ _ _ _ _ _ _ Hk'))).
  - intros x p. apply (exit_frees (machine k)); [apply (mi_world _ _ _ _ _ _ _ _ _ (ki_mem _ _ _ _ _ _ _ _ _ Hk))|done].
Qed.

(** C13: [waitpid] has three results.  -1 when no child matches the pid, -2 when
    one does but none of those has exited; otherwise the first child that has
    exited is reaped: its exit code is stored at the pointer, its pid returned,
    and the task with its address space, kernel stack and pid is gone. *)
Theorem waitpid_correct k W l a t tcb v wpid ptr : runs_as k W l a t tcb v ->
  if existsb (child_matches (tasks k) wpid) (children (inner tcb)) then
    match first_zombie (tasks k) wpid (children (inner tcb)) 0 with
    | None => sys_waitpid env wpid ptr k = Ok (Value (-2), k)
    | Some (_, c) => 0 <= ptr < 2 ^ 39 -> ptr mod 4 = 0 -> is_Some (as_D v !! (ptr / 4096)) ->
        exists ctcb cs1 cs2 b k' W', children (inner tcb) = cs1 ++ c :: cs2 /\ tasks k !! c = Some ctcb /\ task_status (inner ctcb) = Zombie /\
          child_matches (tasks k) wpid c = true /\ as_P v !! (ptr / 4096) = Some b /\
          sys_waitpid env wpid ptr k = Ok (Value (pid ctcb), k') /\ kinv k' W' l a /\
          tasks k' = delete c (<[t := with_inner tcb (set_children (inner tcb) (cs1 ++ cs2))]> (tasks k)) /\
          ready_queue k' = ready_queue k /\ processor k' = processor k /\
          W' !! Some t = Some (set_page v (ptr / 4096) (put_i32 b (ptr mod 4096) (exit_code (inner ctcb)))) /\ W' !! Some c = None /\
          (forall u, u <> t -> u <> c -> W' !! Some u = W !! Some u) /\ (pid ctcb ∉ live (tasks k'))
    end
  else sys_waitpid env wpid ptr k = Ok (Value (-1), k).
Proof.
  intros [Hset Hk Hr Ht Hv]. destruct Hset as [Hlo Hlow Hsmall Htr Henv Hloops]. destruct (existsb _ _) eqn:He; [|by eapply wait_no_child].
  destruct (first_zombie _ _ _ _) as [[idx c]|] eqn:Ez; [|by eapply wait_running]. intros Hp Hal Hd.
  assert (Hdp : data_page (as_G v) (as_D v) (ptr / 4096)) by (eapply user_data_page; [by eapply current_ok|done]).
  destruct (wait_found env lo hi N base) with (k := k) (W := W) (l := l) (a := a) (t := t) (tcb := tcb) (v := v) (wpid := wpid) (ptr := ptr) (idx := idx) (c := c)
    as (ctcb & cs1 & cs2 & b & k' & W' & Hch & Hc & Hz & Hm & Hb & E & Hk' & Hts & Hq & Hpr & _ & Hv' & Hc' & Hoth & _); try done.
  exists ctcb, cs1, cs2, b, k', W'. split_and!; try done. rewrite elem_of_live, Hts. intros (u & x & Hx & Hpid). apply lookup_delete_Some in Hx as [Hne Hx].
  pose proof (mi_pid_inj _ _ _ _ _ _ _ _ _ (ki_mem _ _ _ _ _ _ _ _ _ Hk)) as Hinj. rewrite lookup_insert in Hx. case_decide as Hu.
  - injection Hx as <-. subst u. apply Hne. by apply (Hinj c t ctcb tcb).
  - apply Hne. by apply (Hinj c u ctcb x).
Qed.

(** ** Files *)

Lemma open_spec_lookup name flags a a' : open_spec name flags a = Some a' -> is_Some (lookup_name name a').
Proof.
  unfold open_spec. destruct (lookup_name name a) as [c|] eqn:El.
  - intros [= <-]. destruct (_ || _); [rewrite lookup_update; eauto|eauto].
  - destruct (contains flags CREATE); [intros [= <-]|done]. exists []. by apply lookup_last, lookup_None_notin.
Qed.

Lemma fd_insert_first {A} (table : list (option A)) file j : (j < (fd_insert table file).1)%nat -> exists o, table !! j = Some (Some o).
Proof.
  unfold fd_insert. destruct (list_find (fun o => o = None) table) as [[fd o]|] eqn:E; cbn [fst]; intros Hj.
  - apply list_find_Some in E as (Hfd & _ & Hb). destruct (lookup_lt_is_Some_2 table j) as [[x|] Hx]; [apply lookup_lt_Some in Hfd; lia|by exists x|]. by destruct (Hb j None Hx Hj).
  - apply list_find_None in E. destruct (lookup_lt_is_Some_2 table j Hj) as [[x|] Hx]; [by exists x|]. by destruct (proj1 (Forall_lookup _ _) E j None Hx).
Qed.

(** [open] finds or creates the file.  With CREATE a file that exists is
    emptied and a missing one is created, with TRUNC it is emptied, otherwise it
    is left as it is; the new descriptor is the first free one, at offset 0,
    with the access the flags ask for.  A missing file without CREATE gives -1. *)
Theorem open_correct k W l a t tcb v ptr cs flags : runs_as k W l a t tcb v ->
  user_str env v ptr cs -> flags_from_bits flags = Some flags -> open_ok (root_fs k) N (chars cs) flags a -> zlen (fd_table (inner tcb)) < 2 ^ 63 ->
  match open_spec (chars cs) flags a with
  | Some a' => exists fd table f k' l', sys_open env ptr flags k = Ok (Value (Z.of_nat fd), k') /\ kinv k' W l' a' /\
      (fd, table) = fd_insert (fd_table (inner tcb)) (OSFile (next_ref k)) /\ mjoin (fd_table (inner tcb) !! fd) = None /\
      (forall j, (j < fd)%nat -> exists o, fd_table (inner tcb) !! j = Some (Some o)) /\
      (forall j, mjoin (table !! j) = if decide (j = fd) then Some (OSFile (next_ref k)) else mjoin (fd_table (inner tcb) !! j)) /\
      tasks k' = <[t := with_inner tcb (set_fd_table (inner tcb) table)]> (tasks k) /\
      files k' = <[next_ref k := f]> (files k) /\ os_offset f = 0 /\ (os_readable f, os_writable f) = read_write flags /\
      exists c, open_on k' l' a' (next_ref k) f (chars cs) c
  | None => exists d', sys_open env ptr flags k = Ok (Value (-1), set_disk k d') /\ kinv (set_disk k d') W l a
  end.
Proof.
  intros [Hset Hk Hr Ht Hv] Hs Hfl Hop Hlen.
  pose proof (sys_open_ok env lo hi N base (so_lo _ _ _ _ Hset) k W l a t tcb v ptr cs flags Hk Hr Ht Hv Hs Hfl Hop Hlen) as Ho. cbv zeta in Ho.
  destruct (fd_insert_lookup (fd_table (inner tcb)) (OSFile (next_ref k))) as [Hfree Hrest]. pose proof (fd_insert_first (fd_table (inner tcb)) (OSFile (next_ref k))) as Hfirst.
  destruct (open_spec (chars cs) flags a) as [a'|] eqn:Es; [|exact Ho]. destruct Ho as (i & l' & d' & [Hi _] & E & Hk'). destruct (open_spec_lookup _ _ _ _ Es) as [c Hc].
  destruct (fd_insert (fd_table (inner tcb)) (OSFile (next_ref k))) as [fd table]. cbn [fst snd] in *.
  eexists fd, table, _, _, l'. split_and!; [exact E|exact Hk'|done|done|done| |done|done|done|by destruct (read_write flags)|].
  - intros j. rewrite Hrest. by case_decide.
  - exists c. split_and!; [apply lookup_insert_eq|done|by exists i].
Qed.

(** [write] on an open file puts the user's bytes into the file at the
    descriptor's offset, extending it when it ends before, and advances the
    offset; the other files and every address space are unchanged. *)
Theorem write_file_correct k W l a t tcb v fd buf len r f name c data : runs_as k W l a t tcb v ->
  0 <= fd -> fd_of tcb fd = Some (OSFile r) -> open_on k l a r f name c -> os_writable f = true ->
  buffer_ok env v buf len -> zlen data = len -> user_data (as_P v) buf data -> os_offset f + len <= MAX_SIZE ->
  fs_weight (after_write name c (os_offset f) data a) <= N - data_area_start_block (root_fs k) ->
  exists d, let k' := set_files (set_disk k d) (<[r := set_offset f (os_offset f + len)]> (files k)) in
    sys_write env fd buf len k = Ok (Value len, k') /\ kinv k' W l (after_write name c (os_offset f) data a).
Proof.
  intros [Hset Hk Hr Ht Hv] Hfd Hof Hop Hw (B1 & B2 & B3 & B4 & B5) Hl Hd Hm Hroom. by apply (sys_write_file env lo hi N base k W l a t tcb v Hk Hr Ht Hv fd buf len r f name c data).
Qed.

(** [read] on an open file copies the file's bytes from the descriptor's
    offset into the user's buffer, as many as the buffer and the rest of the file
    hold, and advances the offset by their number; the rest of the user's memory
    is unchanged. *)
Theorem read_file_correct k W l a t tcb v fd buf len r f name c : runs_as k W l a t tcb v ->
  0 <= fd -> fd_of tcb fd = Some (OSFile r) -> open_on k l a r f name c -> os_readable f = true ->
  buffer_ok env v buf len -> os_offset f < 2 ^ 62 ->
  let n := Z.min len (Z.max 0 (zlen c - os_offset f)) in
  exists d m P, let k' := set_files (set_disk (set_machine k m) d) (<[r := set_offset f (os_offset f + n)]> (files k)) in
    sys_read env fd buf len k = Ok (Value n, k') /\ kinv k' (<[Some t := mkSpace (as_pt v) (as_G v) (as_D v) P]> W) l a /\
    forall y, user_byte P y = if decide (buf <= y < buf + n) then c !! Z.to_nat (os_offset f + (y - buf)) else user_byte (as_P v) y.
Proof.
  intros [Hset Hk Hr Ht Hv] Hfd Hof Hop Hw (B1 & B2 & B3 & B4 & B5) Hoff. by apply (sys_read_file env lo hi N base k W l a t tcb v Hk Hr Ht Hv fd buf len r f name c).
Qed.

(** A file just opened. *)
Lemma open_fresh k W l a t tcb v ptr cs flags a' : runs_as k W l a t tcb v -> user_str env v ptr cs -> flags_from_bits flags = Some flags ->
  open_ok (root_fs k) N (chars cs) flags a -> zlen (fd_table (inner tcb)) < 2 ^ 63 -> open_spec (chars cs) flags a = Some a' ->
  exists fd k' l' tcb' f c, sys_open env ptr flags k = Ok (Value (Z.of_nat fd), k') /\ runs_as k' W l' a' t tcb' v /\ fd_of tcb' (Z.of_nat fd) = Some (OSFile (next_ref k)) /\
    open_on k' l' a' (next_ref k) f (chars cs) c /\ os_offset f = 0 /\ os_readable f = (read_write flags).1 /\ os_writable f = (read_write flags).2 /\
    root_fs k' = root_fs k /\ zlen (fd_table (inner tcb')) <= zlen (fd_table (inner tcb)) + 1.
Proof.
  intros [Hset Hk Hr Ht Hv] Hs Hfl Hop Hlen Es.
  pose proof (sys_open_ok env lo hi N base (so_lo _ _ _ _ Hset) k W l a t tcb v ptr cs flags Hk Hr Ht Hv Hs Hfl Hop Hlen) as Ho. cbv zeta in Ho. rewrite Es in Ho.
  destruct Ho as (i & l' & d' & [Hi _] & E & Hk'). destruct (open_spec_lookup _ _ _ _ Es) as [c Hc]. destruct (fd_insert_lookup (fd_table (inner tcb)) (OSFile (next_ref k))) as [_ Hrest].
  set (f := os_inode_new (read_write flags).1 (read_write flags).2 (vinode (root_fs k) i)) in *.
  eexists _, _, l', _, f, c. split; [exact E|]. split; [split; [done|exact Hk'|done|apply lookup_insert_eq|done]|]. split_and!; [|split_and!; [apply lookup_insert_eq|done|by exists i]|done..|].
  - unfold fd_of. cbn [fd_table inner with_inner set_fd_table]. rewrite Nat2Z.id, Hrest. by rewrite decide_True.
  - cbn [fd_table inner with_inner set_fd_table]. unfold fd_insert. destruct (list_find _ _) as [[? ?]|]; cbn [snd]; unfold zlen; [rewrite length_insert|rewrite length_app; cbn]; lia.
Qed.

(** C40: what one descriptor writes another reads.  A file is created (or
    emptied), written and opened again for reading; the read returns the number
    of bytes written and puts exactly those bytes into the destination. *)
Theorem file_roundtrip k W l a t tcb v ptr cs buf data dst : let flags := Z.lor CREATE WRONLY in
  runs_as k W l a t tcb v -> user_str env v ptr cs -> open_ok (root_fs k) N (chars cs) flags a -> zlen (fd_table (inner tcb)) + 1 < 2 ^ 63 ->
  buffer_ok env v buf (zlen data) -> buffer_ok env v dst (zlen data) -> user_data (as_P v) buf data -> 0 < zlen data <= MAX_SIZE ->
  (forall a', open_spec (chars cs) flags a = Some a' -> fs_weight (update_name (chars cs) data a') <= N - data_area_start_block (root_fs k)) ->
  exists fd k1 k2 fd' k3 k4 W' l' a' v', sys_open env ptr flags k = Ok (Value fd, k1) /\ sys_write env fd buf (zlen data) k1 = Ok (Value (zlen data), k2) /\
    sys_open env ptr RDONLY k2 = Ok (Value fd', k3) /\ sys_read env fd' dst (zlen data) k3 = Ok (Value (zlen data), k4) /\
    kinv k4 W' l' a' /\ lookup_name (chars cs) a' = Some data /\ W' !! Some t = Some v' /\
    forall i, (i < length data)%nat -> user_byte (as_P v') (dst + Z.of_nat i) = data !! i.
Proof.
  intros flags Hra Hs Hop Hlen (B1 & B2 & B3 & B4 & B5) (D1 & D2 & D3 & D4 & D5) Hd Hz Hroom.
  assert (Es : exists a', open_spec (chars cs) flags a = Some a' /\ lookup_name (chars cs) a' = Some []).
  { unfold open_spec. change (contains flags CREATE) with true. cbn [orb]. destruct (lookup_name (chars cs) a) as [c|] eqn:El; eexists; (split; [done|]).
    - apply lookup_update. eauto.
    - apply lookup_last. by apply lookup_None_notin. }
  destruct Es as (a1 & Es & Hc1). destruct (open_fresh k W l a t tcb v ptr cs flags a1 Hra Hs eq_refl Hop ltac:(lia) Es) as (fd & k1 & l1 & tcb1 & f & c & E1 & Hra1 & Hfd & Hon & Hoff & _ & Hw & Hfs & Hlt).
  assert (c = []) as -> by (destruct Hon as (_ & Hc & _); congruence). pose proof Hra1 as [Hset Hk1 Hr1 Ht1 Hv1].
  assert (Haw : after_write (chars cs) [] 0 data a1 = update_name (chars cs) data a1) by (unfold after_write; rewrite written_empty; destruct data; [change (zlen []) with 0 in Hz; lia|done]).
  destruct (sys_write_file env lo hi N base k1 W l1 a1 t tcb1 v Hk1 Hr1 Ht1 Hv1 (Z.of_nat fd) buf (zlen data) (next_ref k) f (chars cs) [] data) as (d2 & E2 & Hk2); try done; [lia|rewrite Hoff; lia| |].
  { rewrite Hoff, Hfs, Haw. by apply Hroom. }
  rewrite Hoff in Hk2, E2. rewrite Haw in Hk2.
  set (a2 := update_name (chars cs) data a1) in *. set (k2 := set_files _ _) in *. assert (Hc2 : lookup_name (chars cs) a2 = Some data) by (apply lookup_update; eauto).
  assert (Hra2 : runs_as k2 W l1 a2 t tcb1 v) by (split; done).
  destruct (open_fresh k2 W l1 a2 t tcb1 v ptr cs RDONLY a2 Hra2 Hs eq_refl (open_read_ok N _ _ _) ltac:(lia) (open_read_none _ _ _ Hc2)) as (fd' & k3 & l3 & tcb3 & f3 & c3 & E3 & Hra3 & Hfd3 & Hon3 & Hoff3 & Hrd & _).
  assert (c3 = data) as -> by (destruct Hon3 as (_ & Hc & _); congruence). pose proof Hra3 as [_ Hk3 Hr3 Ht3 Hv3].
  destruct (sys_read_file env lo hi N base k3 W l3 a2 t tcb3 v Hk3 Hr3 Ht3 Hv3 (Z.of_nat fd') dst (zlen data) (next_ref k2) f3 (chars cs) data) as (d4 & m & P & E4 & Hk4 & HP); try done; [lia|by rewrite Hoff3|].
  rewrite Hoff3 in E4, HP, Hk4. replace (Z.min (zlen data) (Z.max 0 (zlen data - 0))) with (zlen data) in * by lia.
  eexists (Z.of_nat fd), k1, k2, (Z.of_nat fd'), k3, _, _, l3, a2, _. split_and!; [exact E1|exact E2|exact E3|exact E4|exact Hk4|done|apply lookup_insert_eq|].
  intros i Hi. cbn [as_P]. rewrite HP, decide_True by (unfold zlen; lia). f_equal. lia.
Qed.

(** ** The console *)

(** C28: reading the console waits without holding the processor.  While there
    is no character the task goes to the end of the ready queue, to try again
    when it is dispatched; when there is one its low byte is stored at the
    buffer and the result is 1. *)
Theorem read_stdin_correct k W l a t tcb v fd buf : runs_as k W l a t tcb v -> 0 <= fd -> fd_of tcb fd = Some Stdin -> buffer_ok env v buf 1 ->
  exists s, as_D v !! (buf / 4096) = Some (sl_page s) /\ sl_from s = buf mod 4096 /\ slice_len s = 1 /\
  let c := w64 (console_getchar env (reads k)) in
  if c =? 0 then exists k' tcb', sys_read env fd buf 1 k = Ok (Switched, k') /\ kinv k' W l a /\ ready_queue k' = ready_queue k ++ [t] /\
      running (processor k') = None /\ tasks k' !! t = Some tcb' /\ task_cx (inner tcb') = suspended (InStdin [s])
  else exists k' v', sys_read env fd buf 1 k = Ok (Value 1, k') /\ kinv k' (<[Some t := v']> W) l a /\ ready_queue k' = ready_queue k /\
      as_D v' = as_D v /\ forall y, user_byte (as_P v') y = if decide (y = buf) then Some (byte.of_Z (w8 c)) else user_byte (as_P v) y.
Proof.
  intros [Hset Hk Hr Ht Hv] Hfd Ef Hbuf. pose proof (mi_world _ _ _ _ _ _ _ _ _ (ki_mem _ _ _ _ _ _ _ _ _ Hk)) as HW.
  destruct (sys_read_stdin env lo hi N base k W l a t tcb v Hk Hr Ht Hv fd buf Hfd Ef Hbuf) as (s & Hp & Hs1 & Hpg & Hfr & E). exists s. split_and!; [done..|].
  pose proof (stdin_loop_ok env lo hi N base k W l a t tcb v Hk Hr Ht Hv s Hp Hs1) as Hloop. cbv zeta in *. rewrite <- E in Hloop. destruct (w64 _ =? 0).
  - destruct Hloop as [E' Hk']. eexists _, _. split; [exact E'|]. split_and!; [exact Hk'|done|done|apply lookup_insert_eq|done].
  - destruct Hloop as (x & b & m & Hx & _ & Hb & E' & Hk'). eexists _, _. split; [exact E'|]. split; [exact Hk'|]. split_and!; [done|done|]. intros y.
    assert (x = buf / 4096) as -> by (eapply (sp_inj _ _ _ _ _ _ _ _ (w_space _ _ _ _ HW _ _ Hv)); eauto).
    destruct (space_page lo hi _ _ _ _ _ _ _ _ (w_space _ _ _ _ HW _ _ Hv) Hx) as (b' & Hb' & _ & Hlb). assert (b' = b) as -> by congruence.
    unfold user_byte. cbn [as_P set_page]. rewrite lookup_insert. pose proof (Z.mod_pos_bound buf 4096 ltac:(lia)). pose proof (Z.mod_pos_bound y 4096 ltac:(lia)). case_decide as Hy.
    + rewrite <- Hy, Hb. cbn [mbind option_bind]. rewrite Hfr. case_decide as Hyb; [rewrite Hyb; apply list_lookup_insert_eq; rewrite Hlb; unfold page_len; lia|].
      apply list_lookup_insert_ne. intros En. apply Hyb. pose proof (Z.div_mod y 4096). pose proof (Z.div_mod buf 4096). lia.
    + rewrite decide_False; [done|congruence].
Qed.

(** Writing to the console prints the bytes in order, whatever pages the
    buffer spans, and returns their number. *)
Theorem write_stdout_correct k W l a t tcb v fd buf len data : runs_as k W l a t tcb v -> 0 <= fd -> fd_of tcb fd = Some Stdout ->
  buffer_ok env v buf len -> zlen data = len -> user_data (as_P v) buf data -> Forall (fun b => byte.unsigned b < 128) data ->
  exists k', sys_write env fd buf len k = Ok (Value len, k') /\ kinv k' W l a /\ console k' = console k ++ ((fun b => Char (byte.unsigned b)) <$> data).
Proof.
  intros [Hset Hk Hr Ht Hv] Hfd Ef (B1 & B2 & B3 & B4 & B5) Hl Hd Ha. eexists. split; [by eapply (sys_write_stdout env lo hi N base k W l a t tcb v)|]. split; [by apply kinv_console|done].
Qed.

(** ** Traps *)

(** A timer interrupt takes the processor: the next one is programmed, and
    the task goes to the end of the ready queue with its memory as it was. *)
Theorem timer_preempts k W l a t tcb v stval : runs_as k W l a t tcb v ->
  exists k' tcb', trap_handler env SupervisorTimer stval k = Ok (Idle, k') /\ kinv k' W l a /\ ready_queue k' = ready_queue k ++ [t] /\
    running (processor k') = None /\ tasks k' = <[t := tcb']> (tasks k) /\ task_status (inner tcb') = Ready /\ task_cx (inner tcb') = suspended InTimer /\
    memory_set (inner tcb') = memory_set (inner tcb) /\ machine k' = machine k /\ timer k' = w64 (w64 (read_time env (reads k)) + CLOCK_FREQ / TICKS_PER_SEC).
Proof.
  intros [Hset Hk Hr Ht Hv]. set (k1 := set_timer (set_reads (set_stvec k FromKernel) (S (reads k))) (w64 (w64 (read_time env (reads k)) + CLOCK_FREQ / TICKS_PER_SEC))).
  assert (Hk1 : kinv k1 W l a) by (apply kinv_timer, kinv_reads, kinv_stvec; exact Hk).
  destruct (suspend_inv env lo hi N base k1 W l a t InTimer v Hk1 Hr Hv I) as (tcb1 & Ht1 & E & Hk'). assert (tcb1 = tcb) as -> by (cbn in Ht1; congruence).
  eexists _, _. split; [change (trap_handler env SupervisorTimer stval k) with ((let* f := suspend_current_and_run_next InTimer in leave env f) k1); by rewrite (bind_Ok _ _ _ _ _ E)|].
  split; [exact Hk'|]. by split_and!.
Qed.

(** C27: a program that faults is killed, and only it: the trap is reported, the
    task becomes a zombie with exit code -2 (-3 for an illegal instruction) and
    the scheduler takes over, with every other address space as it was. *)
Theorem fault_kills k W l a t tcb v scause stval : runs_as k W l a t tcb v -> pid tcb <> IDLE_PID -> scause ∈ faults ->
  exists k' ztcb o, trap_handler env scause stval k = Ok (Idle, k') /\ kinv k' (<[Some t := mkSpace (as_pt v) (as_G v) ∅ ∅]> W) l a /\
    tasks k' !! t = Some ztcb /\ task_status (inner ztcb) = Zombie /\ exit_code (inner ztcb) = fault_code scause /\
    running (processor k') = None /\ ready_queue k' = ready_queue k /\ console k' = console k ++ [o].
Proof.
  intros [Hset Hk Hr Ht Hv] Hp Hin. destruct (fault_exits env lo hi N base Hset k W l a t scause stval Hk Hr Hin) as (o & ->). set (k1 := set_console _ _).
  assert (Hk1 : kinv k1 W l a) by (by apply kinv_console, kinv_stvec).
  destruct (exit_inv env lo hi N base) with (k := k1) (W := W) (l := l) (a := a) (t := t) (tcb := tcb) (v := v) (code := fault_code scause) as (m & E & Hk'); try done; [by destruct Hset..|].
  eexists _, (exited tcb (fault_code scause)), o. split; [by rewrite (bind_Ok _ _ _ _ _ E)|]. split_and!; [exact Hk'|apply lookup_insert_eq|done..].
Qed.

(** For [getpid] the saved program counter is that of the next instruction, a0
    holds the pid, and every other register, page and task is as it was. *)
Lemma getpid_trap_returns k W l a t tcb v cx stval : runs_as k W l a t tcb v -> space_cx v = Some cx -> xs cx !! 17%nat = Some SYSCALL_GETPID ->
  exists k' v', trap_handler env UserEnvCall stval k = Ok (Restore (w64 (restore_offset env + TRAMPOLINE)) TRAP_CONTEXT (ms_token (memory_set (inner tcb))), k') /\
    kinv k' (<[Some t := v']> W) l a /\ space_cx v' = Some (set_x (set_sepc cx (w64 (sepc cx + 4))) 10 (pid tcb)) /\
    as_G v' = as_G v /\ (forall x, x <> context_vpn -> as_P v' !! x = as_P v !! x) /\
    tasks k' = tasks k /\ ready_queue k' = ready_queue k /\ processor k' = processor k /\ stvec k' = FromUser.
Proof.
  intros [Hset Hk Hr Ht Hv] Hcx H17. destruct (env_call_enters env lo hi N base Hset k W l a t stval Hk Hr) as (tcb' & v0 & cx' & m & Ht' & Hv' & Hcx' & _ & Hcx1 & Hk1 & _ & ->).
  assert (tcb' = tcb) as -> by congruence. assert (v0 = v) as -> by congruence. assert (cx' = cx) as -> by congruence. rewrite H17. cbn [default].
  set (v1 := set_cx v next_cx) in *. set (k1 := set_machine _ m) in *. assert (Hv1 : <[Some t := v1]> W !! Some t = Some v1) by apply lookup_insert_eq.
  assert (Hp : 0 <= pid tcb < max_pid) by (by eapply pid_range). unfold max_pid in Hp.
  assert (E : sys_getpid k1 = Ok (Value (pid tcb), k1)) by (eapply (sys_getpid_ok env lo hi N base); eauto; lia).
  change (syscall env (default 0 (Some SYSCALL_GETPID)) _ _ _) with (sys_getpid (St := St) (F := F)). rewrite (bind_Ok _ _ _ _ _ E).
  destruct (syscall_return_inv env lo hi N base (so_lo _ _ _ _ Hset) k1 _ l a t v1 (pid tcb) Hk1 Hr Hv1) as (m' & Er & Hk2 & cx2 & Hc2 & Hc3).
  rewrite (w64_small (pid tcb)) in * by lia. rewrite insert_insert_eq in Hk2. set (v2 := set_cx v1 _) in *. assert (cx2 = next_cx cx) as -> by congruence.
  destruct (set_cx_same v next_cx) as (P1 & G1 & C1), (set_cx_same v1 (fun cx => set_x cx 10 (pid tcb))) as (P2 & G2 & C2). fold v1 in P1, G1, C1. fold v2 in P2, G2, C2.
  eexists _, v2. split; [cbn [finish]; rewrite Er; unfold restore_to; rewrite P2, P1|split; [exact Hk2|]].
  - destruct (running_task _ _ _ _ _ _ _ _ _ Hk t Hr) as (tcb0 & v0 & Ht0 & _ & Hv0 & Huo). assert (tcb0 = tcb) as -> by congruence. assert (v0 = v) as -> by congruence. by rewrite (uo_pt _ _ _ _ Huo).
  - split_and!; [done|congruence| |done..]. intros x Hx. by rewrite C2, C1.
Qed.

(** A hart in user mode, in the address space [v] of a task, with the context of
    its last trap [old] where [__alltraps] expects it. *)
Record in_user (h : Hart) (tcb : TaskControlBlock) v (old : TrapContext) (rest : gmap (Z * Z) Z) : Prop := {
  iu_regs : length (regs h) = 32%nat;
  iu_u64 : Forall is_u64 (regs h) /\ is_u64 (csr_status h) /\ is_u64 (csr_epc h);
  iu_satp : csr_satp h = ms_token (memory_set (inner tcb));
  iu_scratch : csr_scratch h = TRAP_CONTEXT;
  iu_cx : space_cx v = Some old;
  iu_mem : mem_at h (csr_satp h) TRAP_CONTEXT (words_of_cx old) rest;
}.

Lemma saved_ok h old : Forall is_u64 (regs h) /\ is_u64 (csr_status h) /\ is_u64 (csr_epc h) -> cx_ok old -> cx_ok (saved h old).
Proof.
  intros (Hr & Hs & He) [Hl Hc]. split; [done|]. unfold words_of_cx in *. apply Forall_app in Hc as [Hx Hk].
  apply Forall_app. split.
  - apply Forall_fmap, Forall_forall. intros i Hi. cbn. apply elem_of_seq in Hi. case_decide.
    + apply (Forall_lookup_total_1 _ _ _ Hx). lia.
    + unfold reg. case_decide; [done|]. destruct (regs h !! i) as [w|] eqn:Hw; cbn; [by apply (Forall_lookup_1 _ _ _ _ Hr Hw)|done].
  - repeat (apply Forall_cons in Hk as [? Hk]). repeat (apply Forall_cons_2; [done|]). constructor.
Qed.

Lemma saved_reg h old i : (i < 32)%nat -> xs (saved h old) !! i = Some (if decide (i = 0%nat \/ i = 4%nat) then xs old !!! i else reg h i).
Proof. intros Hi. unfold saved. cbn [xs]. rewrite list_lookup_fmap, lookup_seq_lt by done. done. Qed.

(** C15: a system call from user mode and back.  [__alltraps] saves the program's
    registers where the kernel looks for them and enters [trap_handler] on the
    kernel stack; the handler serves [getpid]; whatever the kernel left in the
    registers, [__restore] then resumes the program after its [ecall], in its
    own address space, with its registers as they were (tp is the kernel's) but
    for a0, which holds the pid, and ready for the next trap. *)
Theorem system_call_roundtrip k W l a t tcb v stval h old rest : runs_as k W l a t tcb v -> in_user h tcb v old rest -> reg h 17 = SYSCALL_GETPID ->
  exists h1 m k2 v2 cx2,
    exec_routine alltraps h = Some (h1, trap_handler_ptr old) /\ csr_satp h1 = kernel_satp old /\ reg h1 sp = kernel_sp old /\
    mem_at h1 (csr_satp h) TRAP_CONTEXT (words_of_cx (saved h old)) rest /\
    on_machine (modify_cx (trap_cx_ppn (inner tcb)) (saved h)) k = Ok (tt, set_machine k m) /\
    trap_handler env UserEnvCall stval (set_machine k m) = Ok (Restore (w64 (restore_offset env + TRAMPOLINE)) TRAP_CONTEXT (csr_satp h), k2) /\
    kinv k2 (<[Some t := v2]> W) l a /\ space_cx v2 = Some cx2 /\
    forall h2 rest2, length (regs h2) = 32%nat -> reg h2 a0 = TRAP_CONTEXT -> reg h2 a1 = csr_satp h -> mem_at h2 (csr_satp h) TRAP_CONTEXT (words_of_cx cx2) rest2 ->
      exists h3, exec_routine restore h2 = Some (h3, w64 (csr_epc h + 4)) /\ csr_satp h3 = csr_satp h /\ csr_scratch h3 = TRAP_CONTEXT /\
        csr_status h3 = csr_status h /\ words h3 = words h2 /\ reg h3 10 = pid tcb /\
        forall i, (0 < i < 32)%nat -> i <> 4%nat -> i <> 10%nat -> reg h3 i = reg h i.
Proof.
  intros Hra [Hl Hu Hs Hc Hcx Hm] H17. pose proof Hra as [Hset Hk Hr Ht Hv].
  assert (Huo : user_ok (tramp env) (memory_set (inner tcb)) (trap_cx_ppn (inner tcb)) v) by (by eapply current_ok).
  destruct (task_cx_modify env lo hi N base (so_lo _ _ _ _ Hset) k W l a t tcb v (saved h) Hk Ht Hv Huo) as (m & cx & Em & Hk' & Hcx1 & Hok & Hcx2); [intros; by apply saved_ok|].
  assert (cx = old) as -> by congruence. assert (Hfit : block_fits TRAP_CONTEXT cx_words) by (split; unfold TRAP_CONTEXT; vm_compute; congruence).
  rewrite <- Hc in Hm. destruct (alltraps_ok h old rest Hl (proj1 Hok) ltac:(by rewrite Hc) Hm) as (h1 & pc & E1 & -> & Hm1 & Hs1 & Hsp1 & _).
  destruct (getpid_trap_returns (set_machine k m) (<[Some t := set_cx v (saved h)]> W) l a t tcb (set_cx v (saved h)) (saved h old) stval) as (k2 & v2 & E2 & Hk2 & Hcx3 & _).
  { split; try done. apply lookup_insert_eq. } { done. } { rewrite saved_reg by lia. cbn [decide]. by rewrite H17. }
  rewrite insert_insert_eq in Hk2. rewrite <- Hs in E2. eexists h1, m, k2, v2, _. rewrite Hc in Hm1. split_and!; [done..|exact Hcx3|].
  intros h2 rest2 Hl2 Ha0 Ha1 Hm2. set (cx2 := set_x _ 10 (pid tcb)) in *.
  assert (Hx2 : length (xs cx2) = 32%nat) by (unfold cx2; cbn [xs set_x set_sepc saved]; by rewrite length_insert, length_fmap, length_seq).
  rewrite <- Ha0, <- Ha1 in Hm2. destruct (restore_ok h2 cx2 rest2 Hl2 Hx2 ltac:(by rewrite Ha0) Hm2) as (h3 & pc & E3 & -> & [R1 _ R3 R4 R5 R6]).
  exists h3. rewrite Ha1 in R5. rewrite Ha0 in R4. split_and!; try done.
  - rewrite R1 by lia. apply list_lookup_total_correct. unfold cx2. cbn [xs set_x set_sepc saved]. rewrite list_lookup_insert_eq; [done|]. rewrite length_fmap, length_seq. lia.
  - intros i Hi H4 H10. rewrite R1 by lia. apply list_lookup_total_correct. unfold cx2. cbn [xs set_x set_sepc].
    rewrite list_lookup_insert_ne by done. rewrite saved_reg by lia. case_decide; [lia|done].
Qed.

(** C39: calls the kernel does not survive.  A system call number it does not
    know, flags of [open] with an unknown bit, a read of the console with a
    length other than 1, and a trap it does not expect are panics of the kernel:
    a program can stop the machine with any of them. *)
Theorem hostile_calls_panic k W l a t tcb v : runs_as k W l a t tcb v ->
  (forall cx stval, space_cx v = Some cx ->
     (default 0 (xs cx !! 17%nat) ∉ [SYSCALL_OPEN; SYSCALL_CLOSE; SYSCALL_READ; SYSCALL_WRITE; SYSCALL_EXIT; SYSCALL_YIELD; SYSCALL_GET_TIME; SYSCALL_GETPID; SYSCALL_FORK; SYSCALL_EXEC; SYSCALL_WAITPID]) ->
     trap_handler env UserEnvCall stval k = Fail Panic) /\
  (forall ptr cs flags, user_str env v ptr cs -> flags_from_bits flags = None -> sys_open env ptr flags k = Fail Panic) /\
  (forall fd buf len, 0 <= fd -> fd_of tcb fd = Some Stdin -> buffer_ok env v buf len -> len <> 1 -> sys_read env fd buf len k = Fail Panic) /\
  (forall stval, trap_handler env OtherTrap stval k = Fail Panic).
Proof.
  intros [Hset Hk Hr Ht Hv]. split_and!.
  - intros cx stval Hcx Hid. destruct (env_call_enters env lo hi N base Hset k W l a t stval Hk Hr) as (tcb' & v0 & cx' & m & _ & Hv' & Hcx' & _ & _ & _ & _ & ->).
    assert (v0 = v) as -> by congruence. assert (cx' = cx) as -> by congruence. cbv zeta. revert Hid. generalize (default 0 (xs cx !! 17%nat)). intros id Hid.
    repeat (apply not_elem_of_cons in Hid as [? Hid]). unfold syscall. by rewrite !(proj2 (Z.eqb_neq _ _)) by done.
  - intros ptr cs flags Hs Hfl. unfold sys_open. erewrite bind_Ok; [|apply (current_task_ok t); [by eapply free|done]].
    erewrite bind_Ok; [|apply (current_user_token_ok t tcb); [by eapply free|by eapply free|done|done]]. erewrite bind_Ok; [|eapply user_str_ok; eauto; apply (so_lo _ _ _ _ Hset)]. by rewrite Hfl.
  - intros fd buf len Hfd Ef (B1 & B2 & B3 & B4 & B5) Hlen. destruct (buffers_ok env lo hi N base k W l a t tcb v Hk Hr Ht Hv buf len B1 B2 B3 B4 B5) as (ss & E & Hseg & Hsl).
    unfold sys_read. erewrite bind_Ok; [|apply (current_user_token_ok t tcb); eauto using free]. erewrite bind_Ok; [|apply (current_task_ok t); eauto using free].
    erewrite bind_Ok; [|eapply (get_fd_ok env lo hi N base k W l a t tcb); eauto; intros file; by eapply readable_ok]. rewrite Ef. cbn [mbind option_bind readable].
    erewrite bind_Ok; [|exact E]. cbn [file_read]. unfold stdin_read. rewrite (buffer_len_ok (as_D v) buf ss 0 Hseg) by lia. rewrite Hsl. by rewrite (proj2 (Z.eqb_neq _ _)) by lia.
  - done.
Qed.

End Kernel.

(** ** Every trap enters the kernel *)
Section Entry.
Context {St : Type} `{BlockStoreSpec St}.
Variables (env : Env) (layout : KernelLayout) (MEMORY_END : Z) (MMIO : list (Z * Z)) (N : Z).
Abbreviation kinv := (kinv env (first_frame layout) (last_frame MEMORY_END) N (kernel_shapes layout MEMORY_END MMIO)).

(** C24: a program cannot redirect its traps.  In every state the machine reaches
    with a program running, as long as the system calls that return are well
    formed, the instructions of [__alltraps] end in the kernel's address space, at
    the top of the task's kernel stack and at [trap_handler], with the program's
    registers saved in its trap context: whatever the program put in its
    registers and pages. *)
Theorem traps_enter_kernel k W l a t tcb v h old rest :
  reachable (St := St) env layout MEMORY_END MMIO N (InUser, k) -> kinv k W l a -> running (processor k) = Some t -> tasks k !! t = Some tcb -> W !! Some t = Some v ->
  in_user h tcb v old rest ->
  exists h1, exec_routine alltraps h = Some (h1, trap_handler_addr env) /\ csr_satp h1 = ms_token (kernel_space k) /\ reg h1 sp = get_top (kernel_stack tcb) /\
    mem_at h1 (csr_satp h) TRAP_CONTEXT (words_of_cx (saved h old)) rest.
Proof.
  intros Hre Hk Hr Ht Hv [Hl Hu Hs Hc Hcx Hm]. pose proof (reachable_setup _ _ _ _ _ _ Hre) as Hset. destruct (reachable_enters _ _ _ _ _ _ Hre) as (t' & tcb' & Hr' & Ht' & He).
  assert (t' = t) as -> by congruence. assert (tcb' = tcb) as -> by congruence. rewrite (trap_entry_cx env _ _ N _ Hset k W l a t tcb v Hk Hr Ht Hv) in He. unfold space_entry in He. rewrite Hcx in He.
  injection He as E1 E2 E3. pose proof (current_ok env _ _ N _ k W l a t tcb v Hk Hr Ht Hv) as Hok.
  destruct (task_cx_read env _ _ N _ (so_lo _ _ _ _ Hset) k W l a t tcb v Hk Ht Hv Hok) as (cx & _ & Hcx' & Hcxo). assert (cx = old) as -> by congruence.
  assert (Hfit : block_fits TRAP_CONTEXT cx_words) by (split; unfold TRAP_CONTEXT; vm_compute; congruence). rewrite <- Hc in Hm.
  destruct (alltraps_ok h old rest Hl (proj1 Hcxo) ltac:(by rewrite Hc) Hm) as (h1 & pc & Er & -> & Hm1 & Hs1 & Hsp1 & _). rewrite Hc in Hm1.
  exists h1. rewrite Er, Hs1, Hsp1, E1, E2, E3. by split_and!.
Qed.
End Entry.

(** ** The hypotheses hold on the QEMU board *)
Abbreviation QRUNS := (runs_as (St := Store) board LO HI (16 * 2048) SHAPES).

Lemma init_runs_as k W l t tcb v : only_init k W l t tcb v -> QRUNS k W l image t tcb v.
Proof. intros [Hk Hr Hts Hv _ _ _ _ _ _ _ _]. split; [exact qemu_setup|done|done|rewrite Hts; apply lookup_singleton_eq|done]. Qed.

Lemma child_runs_as k W l t c tcb ctcb v vc : child_runs k W l t c tcb ctcb v vc -> QRUNS k W l image c ctcb vc.
Proof. intros []. split; [exact qemu_setup|done..]. Qed.

Lemma exited_runs_as k W l t c tcb ctcb v code : child_exited k W l t c tcb ctcb v code -> QRUNS k W l image t tcb v.
Proof. intros []. split; [exact qemu_setup|done..]. Qed.

Lemma code_buffer_at v p n : is_Some (as_D v !! 16) -> 0x10000 <= p -> 0 <= n -> p + n <= 0x11000 -> buffer_ok board v p n.
Proof. intros Hd Hp Hn Hn'. unfold buffer_ok. split_and!; [lia|lia|lia|apply code_mapped; [done|lia|lia]|cbn; assert (n / 4096 <= 1) by dlia; lia]. Qed.

Lemma code_buffer v n : is_Some (as_D v !! 16) -> 0 <= n <= 4096 -> buffer_ok board v 0x10000 n.
Proof. intros Hd Hn. apply code_buffer_at; [done|lia..]. Qed.

Lemma fork_correct_witness : exists (k : OS) pd k', sys_fork board k = Ok (Value pd, k') /\ exists c, ready_queue k' = ready_queue k ++ [c].
Proof.
  destruct init_running as (k & W & l & t & tcb & v & Ho).
  destruct (fork_correct (St := Store) board LO HI (16 * 2048) SHAPES k W l image t tcb v (init_runs_as _ _ _ _ _ _ Ho)) as (pd & k' & c & ctcb & vc & W' & cx & E & _ & _ & _ & _ & _ & _ & _ & _ & _ & _ & Hq & _).
  - rewrite (oi_areas _ _ _ _ _ _ Ho), LO_eq, HI_eq. pose proof (oi_room _ _ _ _ _ _ Ho). lia.
  - exists k, pd, k'. split; [exact E|]. exists c. exact Hq.
Defined.

(** [initproc] executes itself. *)
Lemma exec_correct_witness : exists (k : OS) k', sys_exec board 0x10000 k = Ok (Value 0, k').
Proof.
  destruct init_running as (k & W & l & t & tcb & v & Ho). destruct (only_init_code _ _ _ _ _ _ Ho) as [Hc Hd].
  pose proof (exec_correct (St := Store) board LO HI (16 * 2048) SHAPES k W l image t tcb v 0x10000 init_name (init_runs_as _ _ _ _ _ _ Ho) (code_str v Hc Hd)) as He.
  rewrite code_chars in He. change (lookup_name init_name image) with (Some init_data) in He. destruct (He init_elf init_elf_ok) as (k' & v' & l' & ms & ppn & E & _).
  - rewrite LO_eq, HI_eq. pose proof (oi_room _ _ _ _ _ _ Ho). change (total_pages (elf_areas init_elf)) with 5. lia.
  - by vm_compute.
  - exists k, k'. exact E.
Defined.

Lemma exit_correct_witness : exists (k : OS) k', sys_exit board 3 k = Ok (Switched, k').
Proof.
  destruct init_forks as (k & W & l & t & c & tcb & ctcb & v & vc & Hc).
  pose proof (exit_correct (St := Store) board LO HI (16 * 2048) SHAPES k W l image c ctcb vc 3 (child_runs_as _ _ _ _ _ _ _ _ _ Hc)) as He.
  rewrite decide_False in He by apply (cr_pid _ _ _ _ _ _ _ _ _ Hc). destruct He as (k' & ztcb & itcb & E & _). exists k, k'. exact E.
Defined.

Lemma waitpid_correct_witness : exists (k : OS) p k', sys_waitpid board (-1) 0x10000 k = Ok (Value p, k').
Proof.
  destruct (init_reaps 3) as (k & W & l & t & c & tcb & ctcb & v & Hc). pose proof Hc as [Hk Hr Ht Hct Hch Hz _ Hv Hpg].
  pose proof (waitpid_correct (St := Store) board LO HI (16 * 2048) SHAPES k W l image t tcb v (-1) 0x10000 (exited_runs_as _ _ _ _ _ _ _ _ _ Hc)) as Hw.
  assert (Hzc : child_zombie (tasks k) c = true) by (unfold child_zombie, is_zombie; rewrite Hct, Hz; reflexivity).
  rewrite Hch in Hw. cbn [existsb first_zombie] in Hw. rewrite Hzc in Hw. cbn in Hw. destruct Hw as (ctcb' & cs1 & cs2 & b & k' & W' & _ & _ & _ & _ & _ & E & _).
  - lia.
  - reflexivity.
  - eapply space_data; [apply (mi_world _ _ _ _ _ _ _ _ _ (ki_mem _ _ _ _ _ _ _ _ _ Hk))|exact Hv|exact Hpg].
  - exists k, (pid ctcb'), k'. exact E.
Defined.

Lemma open_correct_witness : exists (k : OS) fd k', sys_open board 0x10000 RDWR k = Ok (Value (Z.of_nat fd), k').
Proof.
  destruct init_running as (k & W & l & t & tcb & v & Ho). destruct (only_init_code _ _ _ _ _ _ Ho) as [Hc Hd].
  pose proof (open_correct (St := Store) board LO HI (16 * 2048) SHAPES k W l image t tcb v 0x10000 init_name RDWR (init_runs_as _ _ _ _ _ _ Ho) (code_str v Hc Hd) eq_refl) as Hop.
  rewrite code_chars in Hop. destruct Hop as (fd & table & f & k' & l' & E & _).
  - unfold open_ok. change (lookup_name init_name image) with (Some init_data). intros [=].
  - rewrite (oi_fds _ _ _ _ _ _ Ho). by vm_compute.
  - exists k, fd, k'. exact E.
Defined.

(** [initproc] has opened its own file for reading and writing. *)
Lemma init_opens : exists (k : OS) W l t tcb v fd r f, QRUNS k W l image t tcb v /\ fd_of tcb (Z.of_nat fd) = Some (OSFile r) /\ open_on k l image r f init_name init_data /\
  os_offset f = 0 /\ os_readable f = true /\ os_writable f = true /\ as_P v !! 16 = Some (page_image init_data 0) /\ is_Some (as_D v !! 16) /\ root_fs k = planned (16 * 2048) 1.
Proof.
  destruct init_running as (k & W & l & t & tcb & v & Ho). destruct (only_init_code _ _ _ _ _ _ Ho) as [Hc Hd].
  destruct (open_fresh (St := Store) board LO HI (16 * 2048) SHAPES k W l image t tcb v 0x10000 init_name RDWR image (init_runs_as _ _ _ _ _ _ Ho) (code_str v Hc Hd) eq_refl) as
    (fd & k' & l' & tcb' & f & c & E & Hra & Hfd & Hon & Hoff & Hrd & Hwr & Hfs & _).
  - rewrite code_chars. unfold open_ok. change (lookup_name init_name image) with (Some init_data). intros [=].
  - rewrite (oi_fds _ _ _ _ _ _ Ho). by vm_compute.
  - by rewrite code_chars.
  - rewrite code_chars in Hon. assert (c = init_data) as -> by (destruct Hon as (_ & Hl & _); by injection Hl). eexists k', W, l', t, tcb', v, fd, _, f. split_and!; [exact Hra|exact Hfd|exact Hon|done..|].
    rewrite Hfs. apply (oi_fs _ _ _ _ _ _ Ho).
Qed.

Lemma write_file_correct_witness : exists (k : OS) fd k', sys_write board fd 0x10000 8 k = Ok (Value 8, k').
Proof.
  destruct init_opens as (k & W & l & t & tcb & v & fd & r & f & Hra & Hfd & Hon & Hoff & _ & Hw & Hc & Hd & Hfs).
  destruct (write_file_correct (St := Store) board LO HI (16 * 2048) SHAPES k W l image t tcb v (Z.of_nat fd) 0x10000 8 r f init_name init_data init_name Hra) as (d & E & _).
  - lia.
  - exact Hfd.
  - exact Hon.
  - exact Hw.
  - apply code_buffer; [exact Hd|lia].
  - reflexivity.
  - by apply code_data.
  - rewrite Hoff. by vm_compute.
  - rewrite Hoff, Hfs. by vm_compute.
  - eexists k, (Z.of_nat fd), _. exact E.
Defined.

Lemma read_file_correct_witness : exists (k : OS) fd k', sys_read board fd 0x10000 100 k = Ok (Value 9, k').
Proof.
  destruct init_opens as (k & W & l & t & tcb & v & fd & r & f & Hra & Hfd & Hon & Hoff & Hrd & _ & Hc & Hd & _).
  destruct (read_file_correct (St := Store) board LO HI (16 * 2048) SHAPES k W l image t tcb v (Z.of_nat fd) 0x10000 100 r f init_name init_data Hra) as (d & m & P & E & _).
  - lia.
  - exact Hfd.
  - exact Hon.
  - exact Hrd.
  - apply code_buffer; [exact Hd|lia].
  - by rewrite Hoff.
  - rewrite Hoff in E. change (Z.min 100 (Z.max 0 (zlen init_data - 0))) with 9 in E. eexists k, (Z.of_nat fd), _. exact E.
Defined.

Lemma file_roundtrip_witness : exists (k k1 k2 k3 k4 : OS) fd fd', sys_open board 0x10000 (Z.lor CREATE WRONLY) k = Ok (Value fd, k1) /\
  sys_write board fd 0x10000 8 k1 = Ok (Value 8, k2) /\ sys_open board 0x10000 RDONLY k2 = Ok (Value fd', k3) /\ sys_read board fd' 0x10800 8 k3 = Ok (Value 8, k4) /\
  exists W' t v', W' !! Some t = Some v' /\ (exists l' a', kinv board LO HI (16 * 2048) SHAPES k4 W' l' a') /\ user_byte (as_P v') 0x10800 = Some Byte.x69.
Proof.
  destruct init_running as (k & W & l & t & tcb & v & Ho). destruct (only_init_code _ _ _ _ _ _ Ho) as [Hc Hd].
  destruct (file_roundtrip (St := Store) board LO HI (16 * 2048) SHAPES k W l image t tcb v 0x10000 init_name 0x10000 init_name 0x10800 (init_runs_as _ _ _ _ _ _ Ho) (code_str v Hc Hd))
    as (fd & k1 & k2 & fd' & k3 & k4 & W' & l' & a' & v' & E1 & E2 & E3 & E4 & Hk' & _ & Hv' & Hby).
  - rewrite code_chars. unfold open_ok. change (lookup_name init_name image) with (Some init_data). intros _. by vm_compute.
  - rewrite (oi_fds _ _ _ _ _ _ Ho). by vm_compute.
  - apply code_buffer; [exact Hd|by vm_compute].
  - apply code_buffer_at; [exact Hd|by vm_compute..].
  - by apply code_data.
  - by vm_compute.
  - intros a' Ea. rewrite code_chars in *. injection Ea as <-. rewrite (oi_fs _ _ _ _ _ _ Ho). by vm_compute.
  - exists k, k1, k2, k3, k4, fd, fd'. split; [exact E1|]. split; [exact E2|]. split; [exact E3|]. split; [exact E4|].
    exists W', t, v'. split; [exact Hv'|]. split; [by exists l', a'|]. exact (Hby 0%nat ltac:(by vm_compute; lia)).
Defined.

Lemma read_stdin_correct_witness : exists (k : OS) k', sys_read board 0 0x10000 1 k = Ok (Value 1, k').
Proof.
  destruct init_running as (k & W & l & t & tcb & v & Ho). destruct (only_init_code _ _ _ _ _ _ Ho) as [Hc Hd].
  destruct (read_stdin_correct (St := Store) board LO HI (16 * 2048) SHAPES k W l image t tcb v 0 0x10000 (init_runs_as _ _ _ _ _ _ Ho)) as (s & _ & _ & _ & k' & v' & E & _).
  - lia.
  - unfold fd_of. by rewrite (oi_fds _ _ _ _ _ _ Ho).
  - apply code_buffer; [exact Hd|lia].
  - exists k, k'. exact E.
Defined.

Lemma write_stdout_correct_witness : exists (k : OS) k', sys_write board 1 0x10000 8 k = Ok (Value 8, k').
Proof.
  destruct init_running as (k & W & l & t & tcb & v & Ho). destruct (only_init_code _ _ _ _ _ _ Ho) as [Hc Hd].
  destruct (write_stdout_correct (St := Store) board LO HI (16 * 2048) SHAPES k W l image t tcb v 1 0x10000 8 init_name (init_runs_as _ _ _ _ _ _ Ho)) as (k' & E & _).
  - lia.
  - unfold fd_of. by rewrite (oi_fds _ _ _ _ _ _ Ho).
  - apply code_buffer; [exact Hd|lia].
  - reflexivity.
  - by apply code_data.
  - apply (bool_decide_unpack _). by vm_compute.
  - exists k, k'. exact E.
Defined.

Lemma timer_preempts_witness : exists (k : OS) k', trap_handler board SupervisorTimer 0 k = Ok (Idle, k').
Proof.
  destruct init_running as (k & W & l & t & tcb & v & Ho).
  destruct (timer_preempts (St := Store) board LO HI (16 * 2048) SHAPES k W l image t tcb v 0 (init_runs_as _ _ _ _ _ _ Ho)) as (k' & tcb' & E & _). exists k, k'. exact E.
Defined.

Lemma fault_kills_witness : exists (k : OS) k', trap_handler board LoadPageFault 0 k = Ok (Idle, k').
Proof.
  destruct init_forks as (k & W & l & t & c & tcb & ctcb & v & vc & Hc).
  destruct (fault_kills (St := Store) board LO HI (16 * 2048) SHAPES k W l image c ctcb vc LoadPageFault 0 (child_runs_as _ _ _ _ _ _ _ _ _ Hc) (cr_pid _ _ _ _ _ _ _ _ _ Hc)) as (k' & z & o & E & _).
  - unfold faults. set_solver.
  - exists k, k'. exact E.
Defined.

(** A hart about to call [getpid] as [initproc]. *)
Definition user_hart (satp : Z) (old : TrapContext) : Hart :=
  mkHart (<[17%nat := SYSCALL_GETPID]> (replicate 32 0)) TRAP_CONTEXT 0 0x10000 satp (block satp TRAP_CONTEXT (words_of_cx old)).

(** [initproc], back from its fork, makes another call. *)
Lemma traps_enter_kernel_witness : exists (k : OS) t tcb h h1, running (processor k) = Some t /\ tasks k !! t = Some tcb /\ reg h 17 = SYSCALL_GETPID /\
  exec_routine alltraps h = Some (h1, trap_handler_addr board) /\ csr_satp h1 = ms_token (kernel_space k) /\ reg h1 sp = get_top (kernel_stack tcb).
Proof.
  destruct qemu_forked as (k0 & k & W & l & t & c & tcb & ctcb & v & vc & _ & _ & _ & Hre & Hf). pose proof Hf as [Hk Hr _ _ Ht _ _ Hv _ _ _ _ _ _].
  pose proof (current_ok board LO HI (16 * 2048) SHAPES k W l image t tcb v Hk Hr Ht Hv) as Hok.
  destruct (task_cx_read board LO HI (16 * 2048) SHAPES (so_lo _ _ _ _ qemu_setup) k W l image t tcb v Hk Ht Hv Hok) as (old & _ & Hcx & _).
  set (h := user_hart (ms_token (memory_set (inner tcb))) old).
  destruct (traps_enter_kernel (St := Store) board qemu_layout qemu_end qemu_mmio (16 * 2048) k W l image t tcb v h old ∅ Hre Hk Hr Ht Hv) as (h1 & E & H1 & H2 & _).
  - split; try done; [|unfold mem_at; by rewrite (right_id_L ∅ (∪))]. split_and!; [|done..]. apply (bool_decide_unpack _). by vm_compute.
  - exists k, t, tcb, h, h1. split; [exact Hr|]. split; [exact Ht|]. split; [reflexivity|]. split; [exact E|]. split; [exact H1|exact H2].
Defined.

Lemma system_call_roundtrip_witness : exists (k : OS) h h1 h2 h3 c k2,
  exec_routine alltraps h = Some h1 /\ trap_handler board UserEnvCall 0 k = Ok (c, k2) /\ exec_routine restore h2 = Some (h3, 0x10004).
Proof.
  destruct init_running as (k & W & l & t & tcb & v & Ho). pose proof (init_runs_as _ _ _ _ _ _ Ho) as Hra. destruct Hra as [_ Hk Hr Ht Hv].
  assert (Huo : user_ok (tramp board) (memory_set (inner tcb)) (trap_cx_ppn (inner tcb)) v) by (by eapply current_ok).
  destruct (task_cx_modify board LO HI (16 * 2048) SHAPES (so_lo _ _ _ _ qemu_setup) k W l image t tcb v (fun cx => cx) Hk Ht Hv Huo) as (m0 & old & _ & _ & Hcx & _ & _); [done|].
  set (satp := ms_token (memory_set (inner tcb))). set (h := user_hart satp old).
  destruct (system_call_roundtrip (St := Store) board LO HI (16 * 2048) SHAPES k W l image t tcb v 0 h old ∅ (init_runs_as _ _ _ _ _ _ Ho)) as (h1 & m & k2 & v2 & cx2 & E1 & _ & _ & _ & _ & E2 & _ & _ & Hback).
  - split; try done; [|unfold mem_at; by rewrite (right_id_L ∅ (∪))]. split_and!; [|done..]. apply (bool_decide_unpack _). by vm_compute.
  - reflexivity.
  - destruct (Hback (mkHart (<[10%nat := TRAP_CONTEXT]> (<[11%nat := satp]> (replicate 32 0))) 0 0 0 0 (block satp TRAP_CONTEXT (words_of_cx cx2))) ∅) as (h3 & E3 & _); try done.
    { unfold mem_at. by rewrite (right_id_L ∅ (∪)). }
    eexists _, h, _, _, h3, _, _. split; [exact E1|]. split; [exact E2|]. exact E3.
Defined.

Lemma hostile_calls_panic_witness : exists k : OS, sys_open board 0x10000 2048 k = Fail Panic /\ sys_read board 0 0x10000 2 k = Fail Panic.
Proof.
  destruct init_running as (k & W & l & t & tcb & v & Ho). destruct (only_init_code _ _ _ _ _ _ Ho) as [Hc Hd].
  destruct (hostile_calls_panic (St := Store) board LO HI (16 * 2048) SHAPES k W l image t tcb v (init_runs_as _ _ _ _ _ _ Ho)) as (_ & Hopen & Hread & _).
  exists k. split; [by apply (Hopen 0x10000 init_name 2048 (code_str v Hc Hd))|].
  apply Hread; [lia|unfold fd_of; by rewrite (oi_fds _ _ _ _ _ _ Ho)|apply code_buffer; [exact Hd|lia]|lia].
Defined.
