(* ===== verification/FileTheorems.v ===== *)
(** * The kernel serves the calls on files

    A process of the kernel whose descriptors and files are those of a process of
    [UserFiles] gets the answers of [fcall] to the calls it passes in the registers
    of user/src/syscall.rs; the tests on files end as they should. *)

From Stdlib Require Import String.
From S2P Require Import Prelude BlockDev BlockStore BlockCache Bitmap Layout DiskCodec Tree BuildTree TreeOps ClearTree InodeOps FileData Efs Vfs FsInv FsAlloc FsUpdate FsOps FsDir FsCreate FsSpec FsRefine Pack Address Frames PageTable PtInv PtOps PtRefine Space MemorySet AreaOps MsOps MsLife MsBuild UserMem World Kernel OsInode Task Syscall Boot Pids CxMem Asm KLogic KInv KSched KProc KFork KTree KExit KWait KFile KBuf KIo KExec KSafe KRun KBoot User Unix UserLogic UserFiles KDemo KernelTheorems.

(** ** Two tables of descriptors *)
Lemma fd_insert_cons {A} (o : option A) t x : fd_insert (o :: t) x = match o with None => (O, Some x :: t) | Some z => (S (fd_insert t x).1, Some z :: (fd_insert t x).2) end.
Proof.
  unfold fd_insert. cbn [list_find]. destruct o as [z|]; [rewrite decide_False by done|by rewrite decide_True]. destruct (list_find _ t) as [[fd o]|]; done.
Qed.

Lemma fd_insert_same {A B} (t : list (option A)) (u : list (option B)) x y : length t = length u -> (forall j, mjoin (t !! j) = None <-> mjoin (u !! j) = None) ->
  (fd_insert t x).1 = (fd_insert u y).1 /\ length (fd_insert t x).2 = length (fd_insert u y).2.
Proof.
  revert u. induction t as [|o t IH]; intros [|d u] Hl Hn; try discriminate Hl; [done|]. rewrite !fd_insert_cons. pose proof (Hn O) as H0. cbn in H0. injection Hl as Hl.
  destruct (IH u Hl (fun j => Hn (S j))) as [E1 E2]. destruct o as [z|], d as [w|]; cbn [fst snd length]; [by rewrite E1, E2|discriminate (proj2 H0 eq_refl)|discriminate (proj1 H0 eq_refl)|by rewrite Hl].
Qed.

Lemma entry_clear {A} (t : list (option A)) i j x : mjoin (<[i := None]> t !! j) = Some x -> mjoin (t !! j) = Some x.
Proof. rewrite list_lookup_insert. case_decide; [done|]. done. Qed.

(** Opening a file loses none, and it is there. *)
Lemma open_keeps name flags a a' : open_spec name flags a = Some a' ->
  (forall n, is_Some (lookup_name n a) -> is_Some (lookup_name n a')) /\ is_Some (lookup_name name a').
Proof.
  intros E. split; [|by eapply open_spec_lookup]. intros n Hn. destruct (decide (n = name)) as [->|Hne]; [by eapply open_spec_lookup|].
  unfold open_spec in E. destruct (lookup_name name a); [destruct (_ || _)|destruct (contains flags CREATE); [|done]]; injection E as <-;
    rewrite ?lookup_update_ne, ?lookup_app_ne by done; done.
Qed.

Section Serving.
Context {St F : Type} `{BlockStoreSpec St} `{FrameAllocatorSpec F}.
Variables (env : Env) (lo hi N : Z) (base : list (VPNRange * MapType * Z)).
Implicit Types (k : Kernel St F) (W : gmap (option nat) aspace) (v : aspace) (l : directory) (a : named_files) (s : fproc).
Abbreviation kinv := (kinv env lo hi N base).
Abbreviation runs_as := (runs_as env lo hi N base).

(** ** The process in the kernel *)
Definition desc_ok k l a (o : option FileObj) (d : option desc) : Prop :=
  match o, d with
  | None, None | Some Stdin, Some ConsoleIn | Some Stdout, Some ConsoleOut => True
  | Some (OSFile r), Some (OpenFile name offset rd wr) =>
      exists f c, open_on k l a r f name c /\ os_offset f = offset /\ os_readable f = rd /\ os_writable f = wr
  | _, _ => False
  end.

(** The descriptors of the task [tcb] are those of [s]; no two are the same open
    file; the console shows [pre] and what [s] has printed. *)
Record view k l (tcb : TaskControlBlock) s (pre : list output) : Prop := {
  vw_len : length (fd_table (inner tcb)) = length (pfds s);
  vw_fd j : desc_ok k l (pfiles s) (mjoin (fd_table (inner tcb) !! j)) (mjoin (pfds s !! j));
  vw_alias i j r : mjoin (fd_table (inner tcb) !! i) = Some (OSFile r) -> mjoin (fd_table (inner tcb) !! j) = Some (OSFile r) -> i = j;
  vw_out : console k = pre ++ ((fun b => Char (byte.unsigned b)) <$> pout s);
}.

(** What a call passes is in the memory of the process. *)
Definition passes {R} (e : sysE R) (ptr : Z) v : Prop :=
  match e with
  | SysOpen path flags => 0 <= flags < 2 ^ 32 /\ exists cs, c_string path = Some cs /\ user_str env v ptr cs
  | SysClose fd => 0 <= fd
  | SysRead fd len => 0 <= fd /\ buffer_ok env v ptr len
  | SysWrite fd buffer => 0 <= fd /\ buffer_ok env v ptr (zlen buffer) /\ user_data (as_P v) ptr buffer
  | _ => False
  end.

(** The disk, and the table of descriptors, have room for what the call does. *)
Definition room {R} (e : sysE R) (fs : EasyFileSystem) s : Prop :=
  match e with
  | SysOpen path flags => zlen (pfds s) < 2 ^ 63 /\ forall cs, c_string path = Some cs -> open_ok fs N (chars cs) flags (pfiles s)
  | SysRead fd len => forall name offset rd wr, fd_at s fd = Some (OpenFile name offset rd wr) -> offset < 2 ^ 62
  | SysWrite fd buffer => forall name offset rd wr c, fd_at s fd = Some (OpenFile name offset rd wr) -> lookup_name name (pfiles s) = Some c ->
      offset + zlen buffer <= MAX_SIZE /\ fs_weight (after_write name c offset buffer (pfiles s)) <= N - data_area_start_block fs
  | _ => True
  end.

(** What is returned in a0, and what is put into memory. *)
Definition returned {R} (e : sysE R) : R -> Z :=
  match e in sysE R return R -> Z with
  | SysRead _ _ => fst
  | SysWaitpid _ => fst
  | SysExit _ => fun r => match r with end
  | SysOpen _ _ | SysClose _ | SysWrite _ _ | SysYield | SysGetTime | SysGetPid | SysFork | SysExec _ => fun r => r
  end.

Definition received {R} (e : sysE R) (ptr : Z) v : R -> aspace -> Prop :=
  match e in sysE R return R -> aspace -> Prop with
  | SysRead _ _ => fun r v' => forall y, user_byte (as_P v') y = if decide (ptr <= y < ptr + zlen r.2) then r.2 !! Z.to_nat (y - ptr) else user_byte (as_P v) y
  | _ => fun _ v' => v' = v
  end.

(** A call of the process, through the registers. *)
Definition user_call {R} (e : sysE R) (ptr : Z) : cmd (Kernel St F) flow :=
  let '(id, a0, a1, a2) := UserSyscall.registers e ptr in syscall env id a0 a1 a2.

(** The kernel serves [e] as [fcall] says. *)
Definition served {R} (e : sysE R) (ptr : Z) k W l (t : nat) (tcb : TaskControlBlock) v s pre : Prop :=
  forall r s', fcall e s = Some (r, s') -> exists k' W' l' tcb' v',
    user_call e ptr k = Ok (Value (returned e r), k') /\ runs_as k' W' l' (pfiles s') t tcb' v' /\ view k' l' tcb' s' pre /\ received e ptr v r v'.

Lemma desc_keep k l a k' l' a' o d : desc_ok k l a o d -> root_fs k' = root_fs k -> (forall n i, assoc n l = Some i -> assoc n l' = Some i) ->
  (forall n, is_Some (lookup_name n a) -> is_Some (lookup_name n a')) -> (forall r, o = Some (OSFile r) -> files k' !! r = files k !! r) -> desc_ok k' l' a' o d.
Proof.
  intros Hd Hfs Hl Ha Hf. destruct o as [[| |r]|], d as [[| |name off rd wr]|]; try done. destruct Hd as (f & c & (Hr & Hc & i & Hi & Ei) & Hrest).
  destruct (Ha name) as [c' Hc']; [eauto|]. exists f, c'. split; [|done]. split_and!; [by rewrite Hf|done|]. exists i. split; [by apply Hl|by rewrite Hfs].
Qed.

Lemma view_at k l tcb s pre fd : view k l tcb s pre -> desc_ok k l (pfiles s) (fd_of tcb fd) (fd_at s fd).
Proof. intros Hv. apply (vw_fd _ _ _ _ _ Hv). Qed.

Lemma desc_none k l a o d : desc_ok k l a o d -> o = None <-> d = None.
Proof. by destruct o as [[| |?]|], d as [[| |????]|]. Qed.

Section Calls.
Variables (k : Kernel St F) (W : gmap (option nat) aspace) (l : directory) (t : nat) (tcb : TaskControlBlock) (v : aspace) (s : fproc) (pre : list output) (ptr : Z).
Hypothesis Hra : runs_as k W l (pfiles s) t tcb v.
Hypothesis Hvw : view k l tcb s pre.

Lemma serve_close fd : 0 <= fd -> served (SysClose fd) ptr k W l t tcb v s pre.
Proof.
  intros Hfd r s' E. cbn [fcall] in E. destruct Hra as [Hset Hk Hr Ht Hv]. pose proof (sys_close_ok env lo hi N base k W l (pfiles s) t tcb v Hk Hr Ht Hv fd Hfd) as Hc. cbv zeta in Hc.
  pose proof (view_at _ _ _ _ _ fd Hvw) as Hd. destruct (fd_of tcb fd) as [file|] eqn:Ef, (fd_at s fd) as [d|] eqn:Ed; try (by destruct file); try done.
  - destruct Hc as [Ec Hk']. injection E as <- <-. eexists _, W, l, _, v. split; [exact Ec|]. split; [split; [done|exact Hk'|done|apply lookup_insert_eq|done]|]. split; [|done].
    destruct Hvw as [Hl Hfds Hal Hout]. split; cbn [inner with_inner fd_table set_fd_table pfds set_fd pfiles pout console set_tasks].
    + by rewrite !length_insert.
    + intros j. destruct (decide (j = Z.to_nat fd)) as [->|Hne]; [|rewrite !list_lookup_insert_ne by done; by apply (desc_keep k l (pfiles s))].
      assert (Hlt : (Z.to_nat fd < length (pfds s))%nat) by (unfold fd_at in Ed; destruct (pfds s !! Z.to_nat fd) eqn:Ep; [by eapply lookup_lt_Some|done]).
      by rewrite !list_lookup_insert_eq by lia.
    + intros i j q Hi Hj. apply (Hal i j q); by eapply entry_clear.
    + done.
  - injection E as <- <-. exists k, W, l, tcb, v. split; [exact Hc|]. split; [done|]. by split.
Qed.

Lemma serve_open path flags : passes (SysOpen path flags) ptr v -> room (SysOpen path flags) (root_fs k) s -> served (SysOpen path flags) ptr k W l t tcb v s pre.
Proof.
  intros (Hfl & cs & Hcs & Hstr) [Hlen Hroom] r s' E. cbn [fcall] in E. rewrite Hcs in E. destruct (flags_from_bits flags) as [fl|] eqn:Eb; [|done].
  assert (fl = flags) as -> by (unfold flags_from_bits in Eb; by destruct (_ =? 0); [injection Eb as <-|]). destruct Hra as [Hset Hk Hr Ht Hv].
  assert (Hlen' : zlen (fd_table (inner tcb)) < 2 ^ 63) by (unfold zlen; by rewrite (vw_len _ _ _ _ _ Hvw)).
  pose proof (sys_open_ok env lo hi N base (so_lo _ _ _ _ Hset) k W l (pfiles s) t tcb v ptr cs flags Hk Hr Ht Hv Hstr Eb (Hroom cs Hcs) Hlen') as Ho. cbv zeta in Ho.
  assert (Ec : user_call (SysOpen path flags) ptr k = sys_open env ptr flags k) by (unfold user_call, UserSyscall.registers, syscall; cbn; by rewrite w32_small).
  destruct (open_spec (chars cs) flags (pfiles s)) as [a'|] eqn:Es.
  - destruct Ho as (i & l' & d' & [Hi Hgrow] & E1 & Hk'). destruct (fd_insert_same (fd_table (inner tcb)) (pfds s) (OSFile (next_ref k)) (OpenFile (chars cs) 0 (read_write flags).1 (read_write flags).2)) as [F1 F2];
      [apply Hvw|intros j; apply (desc_none k l (pfiles s)), (vw_fd _ _ _ _ _ Hvw)|].
    pose proof (proj2 (fd_insert_lookup (fd_table (inner tcb)) (OSFile (next_ref k)))) as L1. pose proof (proj2 (fd_insert_lookup (pfds s) (OpenFile (chars cs) 0 (read_write flags).1 (read_write flags).2))) as L2.
    destruct (fd_insert (pfds s) _) as [fd fds]. cbn [fst snd] in *. injection E as <- <-. rewrite F1 in *. eexists _, W, l', _, v. split; [rewrite Ec; exact E1|]. split; [split; [done|exact Hk'|done|apply lookup_insert_eq|done]|]. split; [|done].
    pose proof (open_keeps (chars cs) flags (pfiles s) a' Es) as [Hkeep [c Hc]].
    assert (Hold : forall j q, mjoin (fd_table (inner tcb) !! j) = Some (OSFile q) -> q <> next_ref k).
    { intros j q Hj ->. destruct (fd_file env lo hi N base k W l (pfiles s) t tcb Hk Ht (Z.of_nat j) (next_ref k)) as (f & Hf & _); [unfold fd_of; by rewrite Nat2Z.id|].
      pose proof (ki_fresh_file _ _ _ _ _ _ _ _ _ Hk (next_ref k)) as Hlt. rewrite Hf in Hlt. specialize (Hlt ltac:(eauto)). lia. }
    split; cbn [inner with_inner fd_table set_fd_table pfds pfiles pout].
    + done.
    + intros j. rewrite L1, L2. case_decide as Hj.
      * eexists _, c. split; [split_and!; [apply lookup_insert_eq|exact Hc|by exists i]|]. by destruct (read_write flags).
      * apply (desc_keep k l (pfiles s)); [apply (vw_fd _ _ _ _ _ Hvw)|done|done|done|]. intros q Hq. cbn [files set_tasks opened set_next_ref set_files]. rewrite lookup_insert_ne; [done|]. by apply not_eq_sym, (Hold j).
    + intros j j' q. rewrite !L1. case_decide as Hj; case_decide as Hj'; [by subst| | |apply (vw_alias _ _ _ _ _ Hvw)].
      * intros [= <-] Hq. by destruct (Hold _ _ Hq).
      * intros Hq [= <-]. by destruct (Hold _ _ Hq).
    + apply (vw_out _ _ _ _ _ Hvw).
  - destruct Ho as (d' & E1 & Hk'). injection E as <- <-. exists (set_disk k d'), W, l, tcb, v. split; [by rewrite Ec|]. split; [by split|]. split; [|done]. destruct Hvw as [Hl Hfds Hal Hout]. split; [done|intros j; by apply (desc_keep k l (pfiles s))|done|done].
Qed.

(** The file of the descriptor [fd] has moved to the offset [o]. *)
Lemma view_offset k' fd r f name c offset rd wr o a' : fd_of tcb fd = Some (OSFile r) -> fd_at s fd = Some (OpenFile name offset rd wr) -> open_on k l (pfiles s) r f name c ->
  os_readable f = rd -> os_writable f = wr -> root_fs k' = root_fs k -> files k' = <[r := set_offset f o]> (files k) -> console k' = console k ->
  (forall n, is_Some (lookup_name n (pfiles s)) -> is_Some (lookup_name n a')) -> view k' l tcb (set_pfiles (set_fd s fd (Some (OpenFile name o rd wr))) a') pre.
Proof.
  intros Hof Hat (Hr & Hc & i & Hi & Ei) Hrd Hwr Hfs Hfl Hco Hkeep. destruct Hvw as [Hl Hfds Hal Hout]. split; cbn [pfds set_fd set_pfiles pfiles pout].
  - by rewrite length_insert.
  - assert (Hlt : (Z.to_nat fd < length (pfds s))%nat) by (unfold fd_at in Hat; destruct (pfds s !! Z.to_nat fd) eqn:Ep; [by eapply lookup_lt_Some|done]).
    intros j. destruct (decide (j = Z.to_nat fd)) as [->|Hne].
    + rewrite list_lookup_insert_eq by done. change (mjoin (fd_table (inner tcb) !! Z.to_nat fd)) with (fd_of tcb fd). rewrite Hof. destruct (Hkeep name) as [c' Hc']; [eauto|].
      exists (set_offset f o), c'. split_and!; [|done|done|done]. split_and!; [rewrite Hfl; apply lookup_insert_eq|done|]. exists i. by rewrite Hfs.
    + rewrite list_lookup_insert_ne by done. apply (desc_keep k l (pfiles s)); [apply Hfds|done|done|done|]. intros q Hq. rewrite Hfl, lookup_insert_ne; [done|]. intros <-.
      apply Hne. by apply (Hal _ _ r).
  - done.
  - by rewrite Hco.
Qed.

Lemma serve_read fd len : passes (SysRead fd len) ptr v -> room (SysRead fd len) (root_fs k) s -> served (SysRead fd len) ptr k W l t tcb v s pre.
Proof.
  intros [Hfd Hbuf] Hroom r s' E. pose proof Hra as [Hset Hk Hr Ht Hv]. pose proof (view_at _ _ _ _ _ fd Hvw) as Hd. pose proof Hbuf as (B1 & B2 & B3 & B4 & B5). cbn [fcall] in E.
  assert (Hden : (forall file, fd_of tcb fd = Some file -> readable k file = false) -> r = (-1, []) -> s' = s -> exists k' W' l' tcb' v',
    user_call (SysRead fd len) ptr k = Ok (Value (returned (SysRead fd len) r), k') /\ runs_as k' W' l' (pfiles s') t tcb' v' /\ view k' l' tcb' s' pre /\ received (SysRead fd len) ptr v r v').
  { intros Hdn -> ->. exists k, W, l, tcb, v. split; [by apply (sys_read_denied env lo hi N base k W l (pfiles s) t tcb)|]. split; [done|]. split; [done|].
    intros y. rewrite decide_False; [done|]. change (zlen _) with 0. lia. }
  destruct (fd_at s fd) as [[| |name offset rd wr]|] eqn:Ed, (fd_of tcb fd) as [[| |q]|] eqn:Ef; try done; try (injection E as <- <-; apply Hden; [by intros ? [= <-]|done|done]).
  - destruct Hd as (f & c & Hop & Hoff & Hrd & Hwr). pose proof Hop as (Hq & Hc & _). destruct rd; [|injection E as <- <-; apply Hden; [intros ? [= <-]; cbn; by rewrite Hq|done|done]].
    rewrite Hc in E. injection E as <- <-. set (data := take _ _).
    destruct (sys_read_file env lo hi N base k W l (pfiles s) t tcb v Hk Hr Ht Hv fd ptr len q f name c Hfd Ef Hop Hrd B1 B2 B3 B4 B5) as (d & m & P & E1 & Hk' & HP); [rewrite Hoff; by eapply Hroom|].
    assert (Hnn : 0 <= offset) by (destruct (fd_file env lo hi N base k W l (pfiles s) t tcb Hk Ht fd q Ef) as (f' & Hf' & Hof); assert (f' = f) as -> by congruence; lia).
    assert (En : Z.min len (Z.max 0 (zlen c - os_offset f)) = zlen data).
    { unfold data, zlen. rewrite length_take, length_drop. lia. }
    rewrite En in *. rewrite Hoff in *. eexists _, _, l, tcb, _. split; [exact E1|]. split; [split; [done|exact Hk'|done|done|apply lookup_insert_eq]|]. split.
    + by apply (view_offset _ fd q f name c offset true wr (offset + zlen data) (pfiles s)).
    + intros y. cbn [as_P snd]. rewrite HP. destruct (decide (ptr <= y < ptr + zlen data)) as [Hy|]; [|done]. unfold data in *. rewrite lookup_take_lt by (unfold zlen in Hy; rewrite length_take in Hy; lia).
      rewrite lookup_drop. f_equal. lia.
Qed.

Lemma after_write_keeps name c offset data a n : is_Some (lookup_name n a) -> is_Some (lookup_name n (after_write name c offset data a)).
Proof.
  intros Hn. unfold after_write. destruct data; [done|]. destruct (decide (n = name)) as [->|Hne]; [rewrite lookup_update by done; eauto|by rewrite lookup_update_ne].
Qed.

Lemma serve_write fd buffer : passes (SysWrite fd buffer) ptr v -> room (SysWrite fd buffer) (root_fs k) s -> served (SysWrite fd buffer) ptr k W l t tcb v s pre.
Proof.
  intros (Hfd & Hbuf & Hdata) Hroom r s' E. pose proof Hra as [Hset Hk Hr Ht Hv]. pose proof (view_at _ _ _ _ _ fd Hvw) as Hd. pose proof Hbuf as (B1 & B2 & B3 & B4 & B5). cbn [fcall] in E.
  assert (Hden : (forall file, fd_of tcb fd = Some file -> writable k file = false) -> r = -1 -> s' = s -> exists k' W' l' tcb' v',
    user_call (SysWrite fd buffer) ptr k = Ok (Value (returned (SysWrite fd buffer) r), k') /\ runs_as k' W' l' (pfiles s') t tcb' v' /\ view k' l' tcb' s' pre /\ received (SysWrite fd buffer) ptr v r v').
  { intros Hdn -> ->. exists k, W, l, tcb, v. split; [by apply (sys_write_denied env lo hi N base k W l (pfiles s) t tcb)|]. by split. }
  destruct (fd_at s fd) as [[| |name offset rd wr]|] eqn:Ed, (fd_of tcb fd) as [[| |q]|] eqn:Ef; try done; try (injection E as <- <-; apply Hden; [by intros ? [= <-]|done|done]).
  - destruct (ascii buffer) eqn:Ea; [|done]. injection E as <- <-. apply ascii_Forall in Ea. eexists _, W, l, tcb, v.
    split; [by apply (sys_write_stdout env lo hi N base k W l (pfiles s) t tcb v Hk Hr Ht Hv fd ptr (zlen buffer) buffer)|]. split; [split; [done|by apply kinv_console|done|done|done]|]. split; [|done].
    destruct Hvw as [Hl Hfds Hal Hout]. split; [done|intros j; by apply (desc_keep k l (pfiles s))|done|]. cbn [console set_console prints pout]. by rewrite Hout, fmap_app, app_assoc.
  - destruct Hd as (f & c & Hop & Hoff & Hrd & Hwr). pose proof Hop as (Hq & Hc & _). destruct wr; [|injection E as <- <-; apply Hden; [intros ? [= <-]; cbn; by rewrite Hq|done|done]].
    rewrite Hc in E. injection E as <- <-. destruct (Hroom name offset rd true c Ed Hc) as [Hmax Hwt].
    destruct (sys_write_file env lo hi N base k W l (pfiles s) t tcb v Hk Hr Ht Hv fd ptr (zlen buffer) q f name c buffer Hfd Ef Hop Hwr B1 B3 B4 B5 eq_refl Hdata) as (d & E1 & Hk'); [by rewrite Hoff..|].
    rewrite Hoff in *. eexists _, W, l, tcb, v. split; [exact E1|]. split; [by split|]. split; [|done].
    apply (view_offset _ fd q f name c offset rd true); try done. intros n. apply after_write_keeps.
Qed.
End Calls.

(** C9: the kernel serves the calls on files as their specification says.  A
    process passes [open], [close], [read] or [write] in the registers its library
    uses, with the path or the buffer in its memory, on a disk with room: the
    kernel returns the result the abstract process gets, puts the bytes read, and
    nothing else, into the memory, and the descriptors, their offsets, the files
    and the console are again those of the abstract process. *)
Theorem kernel_serves_files {R} (e : sysE R) ptr k W l t tcb v s pre : runs_as k W l (pfiles s) t tcb v -> view k l tcb s pre -> passes e ptr v -> room e (root_fs k) s ->
  served e ptr k W l t tcb v s pre.
Proof.
  intros Hra Hvw Hp Hroom. destruct e as [path flags|fd|fd len|fd buffer|code| | | | |path|pid]; try done; [by apply serve_open|by apply serve_close|by apply serve_read|by apply serve_write].
Qed.

End Serving.

(** ** The tests on files *)

(** C25: the file tests pass.  [filetest_simple] ends with code 0 whatever files
    there are: its file holds the text, the others and the descriptors are as
    before.  Run after it, with the descriptors it finds, [cat_filea] ends with
    code 0 and prints the text and a newline. *)
Theorem file_tests_pass s : std s 2 -> exists s1, completes (start filetest_simple.main) s (inr 0) s1 /\ same_fds s s1 /\ pout s1 = pout s ++ line "file_test passed!" /\
  (forall n, lookup_name n (pfiles s1) = if decide (n = str "filea") then Some (str "Hello, world!") else lookup_name n (pfiles s)) /\
  forall fds times, let s2 := mkFproc (pfiles s1) fds (pout s1) times in std s2 1 ->
    exists s3, completes (start cat_filea.main) s2 (inr 0) s3 /\ pfiles s3 = pfiles s1 /\ pout s3 = pout s1 ++ line "Hello, world!" /\ same_fds s2 s3.
Proof.
  intros Hs. destruct (filetest_simple_completes s Hs) as (s1 & E & Hf & Hoth & Hout & Hfds & _). exists s1. split_and!; [by apply completes_start|done|done| |].
  - intros n. case_decide as Hn; [by rewrite Hn|by apply Hoth].
  - intros fds times s2 Hs2. destruct (cat_filea_completes s2 _ Hs2 Hf eq_refl) as (s3 & E3 & Hf3 & Hout3 & Hfds3). exists s3. split; [by apply completes_start|]. by split_and!.
Qed.

(** C38: [huge_write] leaves the file of one MiB, 1024 times its buffer, and keeps
    the others.  It ends with code 0 if the clock has moved; if it has not, the
    division by the time it took panics and the code is -1. *)
Theorem huge_write_correct s t0 t1 times : std s 1 -> ptimes s = t0 :: t1 :: times -> t0 <= t1 < t0 + 2 ^ 64 ->
  exists s', completes (start huge_write.main) s (inr (if t1 =? t0 then -1 else 0)) s' /\
    forall n, lookup_name n (pfiles s') = if decide (n = str "testf") then Some (concat (replicate 1024 huge_write.buffer)) else lookup_name n (pfiles s).
Proof.
  intros Hs Ht Hle. destruct (huge_write_completes s t0 t1 times Hs Ht Hle) as (r & s' & E & Hr & Hf & Hoth). exists s'. split.
  - destruct (t1 =? t0); subst r; [by apply completes_stop|by apply completes_start].
  - intros n. case_decide as Hn; [by rewrite Hn|by apply Hoth].
Qed.

(** ** Instances *)
Definition fresh (times : list Z) : fproc := mkFproc image [Some ConsoleIn; Some ConsoleOut; Some ConsoleOut] [] times.

Lemma fresh_std n times : n < 1000 -> std (fresh times) n.
Proof. intros Hn. split; [done|done|]. change (zlen _) with 3. lia. Qed.

Lemma file_tests_pass_witness : exists s', completes (start filetest_simple.main) (fresh []) (inr 0) s' /\ lookup_name (str "filea") (pfiles s') = Some (str "Hello, world!").
Proof.
  destruct (file_tests_pass (fresh []) (fresh_std 2 [] ltac:(lia))) as (s' & E & _ & _ & Hf & _). exists s'. split; [exact E|]. rewrite Hf. by rewrite decide_True.
Defined.

Lemma huge_write_correct_witness : exists s', completes (start huge_write.main) (fresh [7; 7]) (inr (-1)) s'.
Proof.
  destruct (huge_write_correct (fresh [7; 7]) 7 7 [] (fresh_std 1 _ ltac:(lia)) eq_refl ltac:(lia)) as (s' & E & _). exists s'. exact E.
Defined.

Lemma kernel_serves_files_witness : exists (k k' : OS), user_call board (SysOpen init_data 0) 0x10000 k = Ok (Value 3, k').
Proof.
  destruct init_running as (k & W & l & t & tcb & v & Ho). destruct (only_init_code _ _ _ _ _ _ Ho) as [Hc Hd].
  destruct (kernel_serves_files (St := Store) board LO HI (16 * 2048) SHAPES (SysOpen init_data 0) 0x10000 k W l t tcb v (fresh []) (console k) (init_runs_as _ _ _ _ _ _ Ho)) with
    (r := 3) (s' := mkFproc image [Some ConsoleIn; Some ConsoleOut; Some ConsoleOut; Some (OpenFile init_name 0 true false)] [] []) as (k' & W' & l' & tcb' & v' & E & _).
  - split; rewrite ?(oi_fds _ _ _ _ _ _ Ho).
    + done.
    + intros [|[|[|j]]]; done.
    + intros [|[|[|i]]] j r; done.
    + by rewrite app_nil_r.
  - split; [lia|]. exists init_name. split; [reflexivity|]. by apply code_str.
  - split; [by vm_compute|]. intros cs [= <-]. apply open_read_ok.
  - by vm_compute.
  - exists k, k'. exact E.
Defined.
