(* ===== verification/CacheTheorems.v ===== *)
(** * Theorems on the block cache and its device

    The cache over a device behaves like the device without a cache, keeps at
    most sixteen blocks, evicts in order of arrival, and writes everything back
    when synchronised. *)

From S2P Require Import Prelude BlockDev BlockStore BlockCache.

(** ** A client of the cache: whole-block accesses, one statement each *)
Definition raw_view : View (list byte) := mkView BLOCK_SZ (fun b => Ok b) (fun _ t => t).

Inductive op :=
  | OpRead (id : Z)
  | OpWrite (id : Z) (b : list byte)
  | OpSync.

Section Client.
Context {St : Type} `{BlockStore St}.

Definition do_op (o : op) : cmd St (list byte) :=
  match o with
  | OpRead id => read raw_view id 0 (fun b => ret b)
  | OpWrite id b => modify raw_view id 0 (fun old => ret (old, b))
  | OpSync => sync_all;; ret []
  end.

Fixpoint do_ops (os : list op) : cmd St (list (list byte)) :=
  match os with
  | [] => ret []
  | o :: os => let* b := do_op o in let* bs := do_ops os in ret (b :: bs)
  end.
End Client.

(** The same accesses on a plain map. *)
Definition spec_op (o : op) (σ : gmap Z (list byte)) : list byte * gmap Z (list byte) :=
  match o with
  | OpRead id => (default [] (σ !! id), σ)
  | OpWrite id b => (default [] (σ !! id), <[id := b]> σ)
  | OpSync => ([], σ)
  end.

Fixpoint spec_ops (os : list op) (σ : gmap Z (list byte)) : list (list byte) * gmap Z (list byte) :=
  match os with
  | [] => ([], σ)
  | o :: os => let '(b, σ1) := spec_op o σ in let '(bs, σ2) := spec_ops os σ1 in (b :: bs, σ2)
  end.

(** Accesses to existing blocks, with whole blocks. *)
Definition op_ok (σ : gmap Z (list byte)) (o : op) : Prop :=
  match o with
  | OpRead id => is_Some (σ !! id)
  | OpWrite id b => is_Some (σ !! id) /\ length b = block_len
  | OpSync => True
  end.

Lemma op_ok_spec σ o o' : op_ok σ o' -> op_ok σ o -> op_ok (spec_op o σ).2 o'.
Proof.
  destruct o as [|id b|]; [done| |done]. simpl. intros H' _. unfold op_ok in *.
  destruct o'; [rewrite lookup_insert; case_decide; eauto| |done].
  destruct H'. split; [|done]. rewrite lookup_insert. case_decide; eauto.
Qed.

(** ** The operations as a transition system *)
Section Theorems.
Context {D : Type} `{BlockDeviceSpec D}.
Implicit Types (s : CacheState D).

(** Statements of the file system: a block of the disk is acquired, a locked one
    is referenced, written or released, everything is synchronised. *)
Inductive cache_step : CacheState D -> CacheState D -> Prop :=
  | step_acquire s s' id :
      is_Some (disk (device s) !! id) -> acquire id s = Ok (tt, s') -> cache_step s s'
  | step_get_mut s s' id b :
      id ∈ locks (queue s) -> get_mut id s = Ok (b, s') -> cache_step s s'
  | step_put s s' id b :
      id ∈ locks (queue s) -> length b = block_len -> put id b s = Ok (tt, s') -> cache_step s s'
  | step_release s s' id :
      id ∈ locks (queue s) -> release id s = Ok (tt, s') -> cache_step s s'
  | step_sync_all s s' : sync_all s = Ok (tt, s') -> cache_step s s'.

Lemma boot_wf (d : D) : dev_ok d -> cache_wf (mkState d []) /\ logical (mkState d []) = disk d
  /\ locks (queue (mkState d [])) = ∅.
Proof.
  intros Hd. split_and!.
  - unfold cache_wf. simpl. split_and!; [done|constructor|constructor|done].
  - unfold logical, cached. simpl. apply (left_id_L ∅ (∪)).
  - done.
Qed.

Lemma do_op_ok s o :
  cache_wf s -> locks (queue s) = ∅ -> op_ok (logical s) o ->
  exists s', do_op o s = Ok ((spec_op o (logical s)).1, s') /\ cache_wf s' /\ locks (queue s') = ∅ /\
    logical s' = (spec_op o (logical s)).2 /\
    (o = OpSync -> disk (device s') = logical s').
Proof.
  intros Hs Hl Ho. assert (Hlk : forall id, lockable (∅ : gset Z) id) by (intros; by split).
  destruct o as [id|id b|]; simpl in Ho |- *.
  - destruct Ho as [b Hb]. pose proof (logical_length _ _ _ Hs Hb) as Hlen.
    destruct (runs_read_block (St := CacheState D) ∅ (logical s) (logical s) raw_view id b b
      (fun b => ret b) b) with (s := s) as (s' & E & ? & ? & ?); [done|done|done|done|done|apply runs_ret|done..|].
    exists s'. by rewrite Hb.
  - destruct Ho as [[b0 Hb0] Hb]. pose proof (logical_length _ _ _ Hs Hb0) as Hlen.
    destruct (runs_modify_block (St := CacheState D) ∅ (logical s) (logical s) raw_view id b0 b0 b
      (fun old => ret (old, b)) b0) with (s := s) as (s' & E & ? & ? & ?); [done|done|done|done|done|done|apply runs_ret|done..|].
    exists s'. by rewrite Hb0.
  - destruct (block_cache_sync_all_ok s Hs Hl) as (s' & E & ? & ? & ? & ?).
    exists s'. split_and!; [etrans; [apply (bind_Ok _ _ _ _ _ E)|done]|done..].
Qed.

Lemma do_ops_ok os s :
  cache_wf s -> locks (queue s) = ∅ -> Forall (op_ok (logical s)) os ->
  exists s', do_ops os s = Ok ((spec_ops os (logical s)).1, s') /\ cache_wf s' /\
    locks (queue s') = ∅ /\ logical s' = (spec_ops os (logical s)).2.
Proof.
  revert s. induction os as [|o os IH]; intros s Hs Hl Hos; [by exists s|].
  apply Forall_cons in Hos as [Ho Hos].
  destruct (do_op_ok s o Hs Hl Ho) as (s1 & E1 & Hs1 & Hl1 & Hlog1 & _).
  destruct (IH s1 Hs1 Hl1) as (s2 & E2 & Hs2 & Hl2 & Hlog2).
  { rewrite Hlog1. eapply Forall_impl; [done|]. intros o' Ho'. by apply op_ok_spec. }
  exists s2. simpl. rewrite (bind_Ok _ _ _ _ _ E1), (bind_Ok _ _ _ _ _ E2).
  rewrite Hlog1 in Hlog2 |- *.
  destruct (spec_op o (logical s)) as [b σ1]. simpl in *. by destruct (spec_ops os σ1).
Qed.

(** A hit on a locked entry, and a miss with every entry locked. *)
Lemma acquire_locked s id : cache_wf s -> id ∈ locks (queue s) -> acquire id s = Fail Deadlock.
Proof.
  intros Hs Hl. apply held_entry in Hl as (i & a & Hi & Hl). pose proof Hs as (_ & Hnd & _).
  cbn. unfold bind, get_block_cache, lock, arc_of, get_queue, set_arc, bind.
  rewrite (find_id_Some _ _ _ _ Hnd Hi). simpl.
  rewrite (find_id_Some id _ i (mkArc (inner a) (strong_count a + 1) (locked a))).
  - simpl. by rewrite Hl.
  - by rewrite (insert_keys _ _ _ a).
  - apply list_lookup_insert_eq. by eapply lookup_lt_Some.
Qed.

Lemma locks_keys s : cache_wf s ->
  locks (queue s) ⊆ list_to_set (queue s).*1 /\ size (list_to_set (queue s).*1 : gset Z) = length (queue s).
Proof.
  intros (_ & Hnd & _). split; [|rewrite size_list_to_set by done; apply length_fmap].
  intros id Hid. apply locks_spec in Hid as (i & a & Hi & _). apply elem_of_list_to_set.
  apply list_elem_of_fmap. exists (id, a). split; [done|]. by eapply list_elem_of_lookup_2.
Qed.

Lemma all_locked_no_victim s :
  cache_wf s -> Z.of_nat (size (locks (queue s))) = BLOCK_CACHE_SIZE ->
  zlen (queue s) = BLOCK_CACHE_SIZE /\ find_victim (queue s) = None /\
  forall id, id ∈ (queue s).*1 -> id ∈ locks (queue s).
Proof.
  intros Hs Hsz. destruct (locks_keys s Hs) as [Hsub Hk]. destruct Hs as (_ & Hnd & Hf & Hlen).
  pose proof (subseteq_size _ _ Hsub) as Hle. rewrite Hk in Hle.
  assert (Heq : locks (queue s) = list_to_set (queue s).*1).
  { apply set_subseteq_size_eq; [done|]. unfold zlen in Hlen. lia. }
  split; [unfold zlen in *; lia|]. split.
  - unfold find_victim. assert (E : list_find (fun p : Z * CacheArc => strong_count p.2 = 1) (queue s) = None).
    { apply list_find_None, Forall_forall. intros [id a] Hin Hc. simpl in Hc.
      assert (Hid : id ∈ locks (queue s)).
      { rewrite Heq. apply elem_of_list_to_set. apply list_elem_of_fmap. by exists (id, a). }
      apply locks_spec in Hid as (i & a' & Hi & Hl). apply list_elem_of_lookup in Hin as [j Hj].
      assert (i = j) as ->.
      { eapply NoDup_lookup; [done| |]; rewrite list_lookup_fmap; [by rewrite Hi|by rewrite Hj]. }
      assert (a' = a) as -> by congruence. eapply Forall_lookup_1 in Hj; [|done].
      destruct Hj as (_ & _ & Hs & _). simpl in Hs. rewrite Hl in Hs. lia. }
    by rewrite E.
  - intros id Hid. rewrite Heq. by apply elem_of_list_to_set.
Qed.

Lemma acquire_full s id :
  cache_wf s -> Z.of_nat (size (locks (queue s))) = BLOCK_CACHE_SIZE -> id ∉ locks (queue s) ->
  acquire id s = Fail Panic.
Proof.
  intros Hs Hsz Hid. destruct (all_locked_no_victim s Hs Hsz) as (Hfull & Hnv & Hall).
  assert (Hnin : id ∉ (queue s).*1) by (intros Hin; by apply Hid, Hall).
  cbn. unfold bind at 1, get_block_cache, get_queue at 1, bind at 1.
  rewrite (find_id_None _ _ Hnin). unfold make_room, get_queue, bind. rewrite Hfull, Z.eqb_refl, Hnv. done.
Qed.

(** A successful acquisition met the preconditions of the interface. *)
Lemma acquire_inv s s' id :
  cache_wf s -> acquire id s = Ok (tt, s') ->
  (id ∉ locks (queue s)) /\ Z.of_nat (size (locks (queue s))) < BLOCK_CACHE_SIZE.
Proof.
  intros Hs E. assert (Hid : id ∉ locks (queue s)).
  { intros Hin. by rewrite (acquire_locked s id Hs Hin) in E. }
  split; [done|]. destruct (decide (Z.of_nat (size (locks (queue s))) = BLOCK_CACHE_SIZE)) as [Hsz|Hsz].
  - by rewrite (acquire_full s id Hs Hsz Hid) in E.
  - destruct (locks_keys s Hs) as [Hsub Hk]. pose proof (subseteq_size _ _ Hsub) as Hle. rewrite Hk in Hle.
    destruct Hs as (_ & _ & _ & Hlen). unfold zlen in Hlen. lia.
Qed.

(** [block_cache_sync_all] deadlocks on a locked entry. *)
Lemma sync_entry_inv s s' i :
  sync_entry i s = Ok (tt, s') ->
  (forall j id a, queue s !! j = Some (id, a) -> locked a = true ->
     i <> j /\ queue s' !! j = Some (id, a)).
Proof.
  intros E j id a Hj Hl. unfold sync_entry, get_queue, bind at 1 in E.
  destruct (queue s !! i) as [[id' a']|] eqn:Hi.
  - destruct (locked a') eqn:Hl'; [done|]. assert (i <> j) by congruence. split; [done|].
    unfold on_device, bind in E. destruct (sync (inner a') (device s)) as [[c d]|]; [|done].
    unfold set_arc in E. injection E as <-. simpl. by rewrite list_lookup_insert_ne.
  - injection E as <-. split; [congruence|done].
Qed.

Lemma sync_all_inv n i s s' j id a :
  for_each (seq i n) (fun i _ => sync_entry i) tt s = Ok (tt, s') ->
  queue s !! j = Some (id, a) -> locked a = true -> (i <= j < i + n)%nat -> False.
Proof.
  revert i s. induction n as [|n IH]; intros i s E Hj Hl Hij; [lia|].
  simpl in E. unfold bind in E. destruct (sync_entry i s) as [[[] s1]|] eqn:E1; [|done].
  destruct (sync_entry_inv _ _ _ E1 j id a Hj Hl) as [Hne Hj1].
  apply (IH (S i) s1 E Hj1 Hl). lia.
Qed.

Lemma sync_all_unlocked s s' : block_cache_sync_all s = Ok (tt, s') -> locks (queue s) = ∅.
Proof.
  intros E. unfold block_cache_sync_all, get_queue, bind at 1 in E.
  apply set_eq. intros id. split; [|set_solver]. intros (j & a & Hj & Hl)%locks_spec. exfalso.
  eapply sync_all_inv; [exact E|done|done|]. apply lookup_lt_Some in Hj. lia.
Qed.

Lemma cache_step_wf s s' : cache_wf s -> cache_step s s' -> cache_wf s'.
Proof.
  intros Hs Hstep. destruct Hstep as [s s' id Hd E|s s' id b Hl E|s s' id b Hl Hb E|s s' id Hl E|s s' E].
  - destruct (acquire_inv s s' id Hs E) as [Hid Hsz].
    destruct (cache_acquire_ok s id) as (s2 & E2 & ? & _); [done|by apply logical_dom|done|done|]. congruence.
  - pose proof Hl as (i & a & Hi & _)%locks_spec. pose proof (logical_in _ _ _ _ Hs Hi) as Hlog.
    destruct (cache_mut_ok s id _ Hs Hl Hlog) as (s2 & E2 & ? & _). simpl in E. congruence.
  - destruct (cache_put_ok s id b Hs Hl Hb) as (s2 & E2 & ? & _). simpl in E. congruence.
  - destruct (drop_guard_ok s id Hs Hl) as (s2 & E2 & ? & _). simpl in E. congruence.
  - pose proof (sync_all_unlocked s s' E) as Hl.
    destruct (block_cache_sync_all_ok s Hs Hl) as (s2 & E2 & ? & _). simpl in E. congruence.
Qed.

End Theorems.

(** ** Properties *)

(** C16: the cache is transparent.  Any sequence of block reads, block writes and
    synchronisations through the cache returns what the same sequence returns
    on a plain map of blocks, whatever is evicted and reloaded on the way; when
    the sequence ends with [block_cache_sync_all], the device holds that map. *)
Theorem cache_transparent {D} `{BlockDeviceSpec D} (d : D) (os : list op) :
  dev_ok d -> Forall (op_ok (disk d)) os ->
  exists s', do_ops (os ++ [OpSync]) (mkState d []) = Ok ((spec_ops os (disk d)).1 ++ [[]], s') /\
    logical s' = (spec_ops os (disk d)).2 /\ disk (device s') = (spec_ops os (disk d)).2.
Proof.
  intros Hd Hos. destruct (boot_wf d Hd) as (Hs & Hlog & Hl). rewrite <- Hlog in *. clear Hlog.
  revert Hs Hl Hos. generalize (mkState d []). clear Hd. induction os as [|o os IH]; intros s Hs Hl Hos.
  - destruct (do_op_ok s OpSync Hs Hl I) as (s1 & E1 & _ & _ & Hlog1 & Hdisk).
    exists s1. cbn [app do_ops]. rewrite (bind_Ok _ _ _ _ _ E1). split; [done|]. simpl in Hlog1.
    rewrite <- Hlog1. split; [done|by apply Hdisk].
  - apply Forall_cons in Hos as [Ho Hos].
    destruct (do_op_ok s o Hs Hl Ho) as (s1 & E1 & Hs1 & Hl1 & Hlog1 & _).
    destruct (IH s1 Hs1 Hl1) as (s2 & E2 & Hlog2 & Hd2).
    { rewrite Hlog1. eapply Forall_impl; [done|]. intros o' Ho'. by apply op_ok_spec. }
    exists s2. cbn [app do_ops spec_ops]. rewrite (bind_Ok _ _ _ _ _ E1), (bind_Ok _ _ _ _ _ E2).
    rewrite Hlog1 in *. destruct (spec_op o (logical s)) as [b σ1]. simpl in *.
    by destruct (spec_ops os σ1).
Qed.

#[local] Existing Instance BlockFile.file_device.
#[local] Existing Instance BlockFile.file_device_spec.

(** A host file of [n] zero blocks. *)
Definition zero_file (n : nat) : BlockFile.File :=
  BlockFile.mkFile (replicate (block_len * n) Byte.x00) 0.

Lemma zero_file_block n id :
  0 <= id < Z.of_nat n -> is_Some (BlockFile.disk (zero_file n) !! id).
Proof.
  intros Hid. eexists. apply BlockFile.disk_lookup. split; [|done].
  change (BlockFile.data (zero_file n)) with (replicate (block_len * n) Byte.x00).
  unfold zlen. rewrite length_replicate, Nat2Z.inj_mul. change (Z.of_nat block_len) with BLOCK_SZ.
  rewrite Z.mul_comm, Z.div_mul by done. lia.
Qed.

Lemma cache_transparent_witness :
  exists s', do_ops [OpWrite 1 (replicate 512 Byte.x41); OpRead 1; OpSync] (mkState (zero_file 2) [])
    = Ok ([replicate 512 Byte.x00; replicate 512 Byte.x41; []], s').
Proof.
  destruct (cache_transparent (zero_file 2) [OpWrite 1 (replicate 512 Byte.x41); OpRead 1])
    as (s' & E & _).
  - done.
  - repeat constructor; by apply zero_file_block.
  - exists s'. refine (eq_trans E _). vm_compute. reflexivity.
Defined.

(** The invariant of the cache.  In every state reached from an empty cache
    over a good device, at most sixteen blocks are cached, no block twice, a
    clean cached block equals the block on the device, and an entry is
    referenced by the queue alone unless it is locked. *)
Theorem cache_reachable_invariant {D} `{BlockDeviceSpec D} (d : D) (s : CacheState D) :
  dev_ok d -> rtc cache_step (mkState d []) s ->
  zlen (queue s) <= BLOCK_CACHE_SIZE /\ NoDup (queue s).*1 /\
  forall id a, (id, a) ∈ queue s ->
    block_id (inner a) = id /\ strong_count a = (if locked a then 2 else 1) /\
    (modified (inner a) = false -> disk (device s) !! id = Some (cache (inner a))).
Proof.
  intros Hd Hr. assert (Hs : cache_wf s).
  { destruct (boot_wf d Hd) as (Hs & _). revert Hs. generalize dependent (mkState d []).
    intros s0 Hr. induction Hr as [|s1 s2 s3 Hstep _ IH]; [done|]. intros Hs. by eapply IH, cache_step_wf. }
  pose proof Hs as (_ & Hnd & Hf & Hlen). split_and!; [done|done|]. intros id a Hin.
  eapply Forall_forall in Hf; [|done]. destruct Hf as (Hid & _ & Hc & b & Hb & Hclean). simpl in *.
  split_and!; [done|done|]. intros Hm. rewrite Hb. by rewrite (Hclean Hm).
Qed.

Lemma cache_reachable_invariant_witness :
  exists s : CacheState BlockFile.File, s <> mkState (zero_file 1) [] /\ zlen (queue s) <= 16.
Proof.
  destruct (boot_wf (zero_file 1)) as (Hs & Hlog & Hl); [done|].
  destruct (cache_acquire_ok (mkState (zero_file 1) []) 0) as (s' & E & _ & _ & Hlk);
    [done|rewrite Hlog; by apply zero_file_block|by rewrite Hl|by rewrite Hl|].
  exists s'. split; [intros ->; rewrite Hl in Hlk; set_solver|].
  apply (cache_reachable_invariant (zero_file 1) s'); [done|].
  apply rtc_once. apply (step_acquire _ _ 0); [by apply zero_file_block|exact E].
Defined.

(** Acquiring a block of the disk has exactly three outcomes.  A block that
    is locked already deadlocks; with sixteen blocks locked another one panics
    ("Run out of BlockCache!"); otherwise the block is locked and the contents
    of the disk as its clients see it do not change. *)
Theorem acquire_outcomes {D} `{BlockDeviceSpec D} (s : CacheState D) (id : Z) :
  cache_wf s -> is_Some (disk (device s) !! id) ->
  if decide (id ∈ locks (queue s)) then acquire id s = Fail Deadlock
  else if decide (Z.of_nat (size (locks (queue s))) < BLOCK_CACHE_SIZE) then
    exists s', acquire id s = Ok (tt, s') /\ cache_wf s' /\ logical s' = logical s /\
      locks (queue s') = {[id]} ∪ locks (queue s)
  else acquire id s = Fail Panic.
Proof.
  intros Hs Hid. case_decide as Hl; [by apply acquire_locked|]. case_decide as Hsz.
  - apply cache_acquire_ok; [done|by apply logical_dom|done|done].
  - apply acquire_full; [done| |done]. destruct (locks_keys s Hs) as [Hsub Hk].
    pose proof (subseteq_size _ _ Hsub) as Hle. rewrite Hk in Hle.
    destruct Hs as (_ & _ & _ & Hlen). unfold zlen in Hlen. lia.
Qed.

Lemma acquire_outcomes_witness :
  exists s', acquire 0 (mkState (zero_file 1) []) = Ok (tt, s').
Proof.
  pose proof (acquire_outcomes (mkState (zero_file 1) []) 0) as E.
  destruct E as (s' & E & _); [by apply boot_wf|by apply zero_file_block|]. by exists s'.
Defined.

(** Substitution is first-in first-out among the blocks nobody uses.  A miss
    on a full cache drops the first entry that is not locked, after its bytes
    have been written to the device, and appends the new block at the end of
    the queue; every entry before the dropped one is locked. *)
Theorem eviction_fifo {D} `{BlockDeviceSpec D} (s : CacheState D) (id : Z) (b : list byte) :
  cache_wf s -> zlen (queue s) = BLOCK_CACHE_SIZE ->
  Z.of_nat (size (locks (queue s))) < BLOCK_CACHE_SIZE ->
  disk (device s) !! id = Some b -> (id ∉ (queue s).*1) ->
  exists k vid va d', queue s !! k = Some (vid, va) /\ locked va = false /\
    (forall j p, (j < k)%nat -> queue s !! j = Some p -> locked p.2 = true) /\
    get_block_cache id s =
      Ok (tt, mkState d' (delete k (queue s) ++ [(id, mkArc (mkCache b id false) 2 false)])) /\
    disk d' = <[vid := cache (inner va)]> (disk (device s)).
Proof.
  intros Hs Hfull Hsz Hb Hnin.
  destruct (victim_exists s Hs Hfull Hsz) as (k & vid & va & Hv & Hk & Hl).
  destruct (sync_ok (device s) vid va) as (d1 & E1 & Hdk1 & Hd1); [apply Hs|by eapply entry_at|].
  assert (Hb1 : disk d1 !! id = Some b).
  { rewrite Hdk1, lookup_insert_ne; [done|]. intros ->. apply Hnin.
    apply list_elem_of_fmap. exists (id, va). split; [done|]. by eapply list_elem_of_lookup_2. }
  destruct (cache_new_ok d1 id b Hd1 Hb1) as (d2 & E2 & Hdk2 & Hd2).
  exists k, vid, va, d2. split_and!; [done|done| | |congruence].
  - intros j p Hjk Hj. unfold find_victim in Hv.
    destruct (list_find _ (queue s)) as [[k' p']|] eqn:E; [|done]. injection Hv as -> _.
    apply list_find_Some in E as (_ & _ & Hbefore). specialize (Hbefore j p Hj Hjk).
    pose proof Hs as (_ & _ & Hf & _). eapply Forall_lookup_1 in Hf; [|exact Hj].
    destruct Hf as (_ & _ & Hc & _). by destruct (locked p.2).
  - unfold get_block_cache, get_queue, bind at 1. rewrite (find_id_None _ _ Hnin).
    unfold make_room, get_queue, set_queue, on_device, bind. rewrite Hfull, Z.eqb_refl, Hv. simpl.
    rewrite E1. simpl. by rewrite E2.
Qed.

(** Sixteen blocks read, so sixteen cached. *)
Definition full_cache : CacheState BlockFile.File :=
  match do_ops (OpRead <$> seqZ 0 16) (mkState (zero_file 17) []) with
  | Ok (_, s) => s
  | Fail _ => mkState (zero_file 17) []
  end.

Lemma full_cache_ok :
  cache_wf full_cache /\ locks (queue full_cache) = ∅ /\ zlen (queue full_cache) = 16.
Proof.
  destruct (boot_wf (zero_file 17)) as (Hs & Hlog & Hl); [done|].
  destruct (do_ops_ok (OpRead <$> seqZ 0 16) (mkState (zero_file 17) [])) as (s' & E & Hs' & Hl' & _);
    [done|done| |].
  { rewrite Hlog. apply Forall_fmap, Forall_forall. intros i Hi%elem_of_seqZ.
    apply zero_file_block. lia. }
  assert (full_cache = s') as -> by (unfold full_cache; by rewrite E).
  split_and!; [done|done|]. assert (s' = full_cache) as -> by (unfold full_cache; by rewrite E).
  vm_compute. reflexivity.
Qed.

Lemma eviction_fifo_witness :
  exists d' q, get_block_cache 16 full_cache = Ok (tt, mkState d' q).
Proof.
  destruct full_cache_ok as (Hs & Hl & Hfull).
  destruct (eviction_fifo full_cache 16 (replicate 512 Byte.x00)) as (k & vid & va & d' & _ & _ & _ & E & _).
  - exact Hs.
  - exact Hfull.
  - by rewrite Hl.
  - vm_compute. reflexivity.
  - vm_compute. intros Hin. repeat (apply elem_of_cons in Hin as [Hin|Hin]; [done|]).
    by apply not_elem_of_nil in Hin.
  - eauto.
Defined.

(** [block_cache_sync_all] makes the disk durable.  With no block locked it
    succeeds, leaves the contents its clients see unchanged, and leaves on the
    device exactly those contents, so that a cache started again on the device
    sees them too. *)
Theorem sync_all_durable {D} `{BlockDeviceSpec D} (s : CacheState D) :
  cache_wf s -> locks (queue s) = ∅ ->
  exists s', block_cache_sync_all s = Ok (tt, s') /\ cache_wf s' /\
    disk (device s') = logical s /\ logical s' = logical s /\
    logical (mkState (device s') []) = logical s.
Proof.
  intros Hs Hl. destruct (block_cache_sync_all_ok s Hs Hl) as (s' & E & Hs' & Hlog & _ & Hdisk).
  exists s'. split_and!; [done|done|congruence|done|].
  destruct (boot_wf (device s')) as (_ & -> & _); [apply Hs'|congruence].
Qed.

Lemma sync_all_durable_witness : exists s', block_cache_sync_all full_cache = Ok (tt, s').
Proof.
  destruct full_cache_ok as (Hs & Hl & _).
  destruct (sync_all_durable full_cache Hs Hl) as (s' & E & _). by exists s'.
Defined.

(** The packer's device stores blocks.  Writing a block inside the host file
    succeeds, reading it back returns the bytes written, and reading any other
    block returns what it did before. *)
Theorem block_file_roundtrip (f : BlockFile.File) (id id' : Z) (b b' buf : list byte) :
  BlockFile.ok f -> is_Some (BlockFile.disk f !! id) -> length b = block_len -> length buf = block_len ->
  id' <> id -> BlockFile.disk f !! id' = Some b' ->
  exists f1 f2 f3, BlockFile.write_block id b f = Ok (tt, f1) /\
    BlockFile.read_block id buf f1 = Ok (b, f2) /\ BlockFile.read_block id' buf f2 = Ok (b', f3).
Proof.
  intros Hok Hid Hb Hbuf Hne Hb'.
  destruct (BlockFile.write_block_ok f id b Hok Hid Hb) as (f1 & E1 & Hd1 & Hok1).
  destruct (BlockFile.read_block_ok f1 id b buf) as (f2 & E2 & Hd2 & Hok2);
    [done|rewrite Hd1; apply lookup_insert_eq|done|].
  destruct (BlockFile.read_block_ok f2 id' b' buf) as (f3 & E3 & _);
    [done|rewrite Hd2, Hd1, lookup_insert_ne; done|done|].
  by exists f1, f2, f3.
Qed.

Lemma block_file_roundtrip_witness :
  exists f1 f2, BlockFile.write_block 1 (replicate 512 Byte.x41) (zero_file 2) = Ok (tt, f1) /\
    BlockFile.read_block 1 (replicate 512 Byte.x00) f1 = Ok (replicate 512 Byte.x41, f2).
Proof.
  destruct (block_file_roundtrip (zero_file 2) 1 0 (replicate 512 Byte.x41) (replicate 512 Byte.x00)
    (replicate 512 Byte.x00)) as (f1 & f2 & f3 & E1 & E2 & _).
  - done.
  - by apply zero_file_block.
  - done.
  - done.
  - done.
  - vm_compute. reflexivity.
  - by exists f1, f2.
Defined.
