(* ===== verification/BitmapTheorems.v ===== *)
(** * Theorems on bitmaps (easy-fs/src/bitmap.rs) *)

From S2P Require Import Prelude BlockDev BlockStore BlockCache CacheTheorems Bitmap.

Section Bitmaps.
Context {St : Type} `{BlockStoreSpec St}.
Implicit Types (L : gset Z) (σ : gmap Z (list byte)) (bm : Bitmap).

(** [Bitmap::alloc] is first-fit.  It returns the least clear bit and sets
    that bit and no other; it returns nothing exactly when every bit is set,
    and then changes nothing. *)
Theorem alloc_first_fit L σ bm :
  bitmap_ok σ bm -> bitmap_free L bm ->
  exists r σ', runs (St := St) L σ (alloc bm) r σ' /\
    match r with
    | Some k => 0 <= k < capacity bm /\ bitmap_bit σ bm k = Some false /\
        (forall j, 0 <= j < k -> bitmap_bit σ bm j = Some true) /\
        (forall j, 0 <= j < capacity bm ->
           bitmap_bit σ' bm j = if decide (j = k) then Some true else bitmap_bit σ bm j)
    | None => σ' = σ /\ forall j, 0 <= j < capacity bm -> bitmap_bit σ bm j = Some true
    end.
Proof.
  intros Hok Hfree. destruct (alloc_ok L σ bm Hok Hfree) as (r & σ' & Hr & Hp).
  exists r, σ'. split; [done|]. destruct r; [|done]. destruct Hp as (? & ? & ? & ? & _). done.
Qed.

(** [Bitmap::dealloc] of a bit that is set clears that bit and no other, and
    touches no block but the one that holds it. *)
Theorem dealloc_exact L σ bm k :
  bitmap_ok σ bm -> bitmap_free L bm -> 0 <= k < capacity bm -> bitmap_bit σ bm k = Some true ->
  exists σ', runs (St := St) L σ (dealloc bm k) tt σ' /\
    (forall j, 0 <= j < capacity bm ->
       bitmap_bit σ' bm j = if decide (j = k) then Some false else bitmap_bit σ bm j) /\
    (forall id, id <> start_block_id bm + k / BLOCK_BITS -> σ' !! id = σ !! id).
Proof.
  intros Hok Hfree Hk Hset. destruct (dealloc_ok L σ bm k Hok Hfree Hk Hset) as (σ' & Hr & ? & ? & _).
  by exists σ'.
Qed.

(** Freeing a bit that is clear panics: the assertion of [dealloc] catches a
    double free. *)
Theorem dealloc_clear_panics L σ bm k :
  bitmap_ok σ bm -> bitmap_free L bm -> 0 <= k < capacity bm -> bitmap_bit σ bm k = Some false ->
  fails (St := St) L σ (dealloc bm k) Panic.
Proof.
  intros Hok [Hsz Hfree] Hk Hclear. pose proof Hok as [H1 H2 H3 H4]. unfold capacity in Hk.
  set (c := k / BLOCK_BITS). set (m := k mod BLOCK_BITS).
  assert (Hc : 0 <= c < blocks bm) by (unfold c, BLOCK_BITS, BLOCK_SZ in *; dlia).
  assert (Hm : 0 <= m < BLOCK_BITS) by (unfold m, BLOCK_BITS, BLOCK_SZ in *; dlia).
  destruct (H4 c Hc) as (b & Hb & Hlen). pose proof (dec_words_ok b Hlen) as Hl.
  destruct (bit_split m Hm) as (Hp & Ht & Hmeq).
  destruct (word_at _ (Z.to_nat (m / 64)) Hl) as (w & Hw & Hwr); [lia|].
  unfold bitmap_bit in Hclear. fold c m in Hclear. rewrite Hb in Hclear. simpl in Hclear.
  unfold block_bit in Hclear. rewrite Hw in Hclear. simpl in Hclear. injection Hclear as Hclear.
  unfold dealloc, decomposition. fold c m. rewrite w64_small by lia. rewrite (Z.add_comm c).
  eapply (fails_modify _ _ bitmap_view); [|done| |].
  - split_and!; [by apply Hfree|done|done|done|done|done].
  - by rewrite field_all.
  - eapply exec_bind_fails; [by apply runs_lift, index_Ok; [lia|]|].
    apply fails_bind, fails_assert. by rewrite test_bit by lia.
Qed.

(** Allocating and freeing is the identity on the bitmap: the bit [alloc]
    returned can be freed, and afterwards every bit is what it was. *)
Theorem alloc_dealloc_roundtrip L σ bm k σ1 :
  bitmap_ok σ bm -> bitmap_free L bm -> runs (St := St) L σ (alloc bm) (Some k) σ1 ->
  (exists s : St, wf s /\ content s = σ /\ held s = L) ->
  exists σ2, runs (St := St) L σ1 (dealloc bm k) tt σ2 /\
    forall j, 0 <= j < capacity bm -> bitmap_bit σ2 bm j = bitmap_bit σ bm j.
Proof.
  intros Hok Hfree Hrun (s & Hs & Hc & Hh).
  destruct (alloc_ok L σ bm Hok Hfree) as (r & σ' & Hr & Hp).
  destruct (Hrun s Hs Hc Hh) as (s1 & E1 & _ & Hc1 & _).
  destruct (Hr s Hs Hc Hh) as (s2 & E2 & _ & Hc2 & _).
  assert (r = Some k /\ σ' = σ1) as [-> ->] by (split; congruence).
  destruct Hp as (Hk & Hfalse & _ & Hbits & _ & Hok1).
  destruct (dealloc_ok L σ1 bm k) as (σ2 & Hr2 & Hb2 & _);
    [done|done|done|rewrite Hbits by done; by rewrite decide_True|].
  exists σ2. split; [done|]. intros j Hj. rewrite Hb2 by done. case_decide as E; [by subst j|].
  rewrite Hbits by done. by rewrite decide_False.
Qed.

End Bitmaps.

(** ** Instances: a bitmap of one block, all clear or all set *)
#[local] Existing Instance BlockFile.file_device.
#[local] Existing Instance BlockFile.file_device_spec.

Definition one_block (b : byte) : gmap Z (list byte) := {[ 0 := replicate 512 b ]}.
Definition one_bitmap : Bitmap := mkBitmap 0 1.

Lemma one_bitmap_ok b : bitmap_ok (one_block b) one_bitmap.
Proof.
  split; [done..|]. simpl. intros i Hi. exists (replicate 512 b). split; [|apply length_replicate].
  replace (0 + i) with 0 by lia. apply lookup_singleton_eq.
Qed.

Lemma one_bitmap_free : bitmap_free ∅ one_bitmap.
Proof. split; [done|]. set_solver. Qed.

Lemma alloc_first_fit_witness :
  exists r σ', runs (St := CacheState BlockFile.File) ∅ (one_block Byte.x00) (alloc one_bitmap) r σ'.
Proof.
  destruct (alloc_first_fit (St := CacheState BlockFile.File) ∅ (one_block Byte.x00) one_bitmap)
    as (r & σ' & Hr & _).
  - apply one_bitmap_ok.
  - apply one_bitmap_free.
  - by exists r, σ'.
Defined.

Lemma dealloc_exact_witness :
  exists σ', runs (St := CacheState BlockFile.File) ∅ (one_block Byte.xff) (dealloc one_bitmap 100) tt σ'.
Proof.
  destruct (dealloc_exact (St := CacheState BlockFile.File) ∅ (one_block Byte.xff) one_bitmap 100)
    as (σ' & Hr & _).
  - apply one_bitmap_ok.
  - apply one_bitmap_free.
  - vm_compute. by split.
  - vm_compute. reflexivity.
  - by exists σ'.
Defined.

Lemma dealloc_clear_panics_witness :
  fails (St := CacheState BlockFile.File) ∅ (one_block Byte.x00) (dealloc one_bitmap 100) Panic.
Proof.
  apply (dealloc_clear_panics (St := CacheState BlockFile.File)).
  - apply one_bitmap_ok.
  - apply one_bitmap_free.
  - vm_compute. by split.
  - vm_compute. reflexivity.
Defined.

Lemma alloc_dealloc_roundtrip_witness :
  exists k σ1 σ2, runs (St := CacheState BlockFile.File) ∅ (BlockFile.disk (zero_file 1)) (alloc one_bitmap) (Some k) σ1 /\
    runs (St := CacheState BlockFile.File) ∅ σ1 (dealloc one_bitmap k) tt σ2.
Proof.
  assert (Hok : bitmap_ok (BlockFile.disk (zero_file 1)) one_bitmap).
  { split; [done..|]. simpl. intros i Hi. exists (replicate 512 Byte.x00).
    replace (0 + i) with 0 by lia. split; [vm_compute; reflexivity|done]. }
  destruct (alloc_ok (St := CacheState BlockFile.File) ∅ _ one_bitmap Hok one_bitmap_free)
    as ([k|] & σ1 & Hr & Hp).
  - destruct (alloc_dealloc_roundtrip (St := CacheState BlockFile.File) ∅ (BlockFile.disk (zero_file 1))
      one_bitmap k σ1) as (σ2 & Hr2 & _).
    + exact Hok.
    + exact one_bitmap_free.
    + exact Hr.
    + destruct (boot_wf (zero_file 1)) as (? & ? & ?); [done|]. by exists (mkState (zero_file 1) []).
    + by exists k, σ1, σ2.
  - exfalso. destruct Hp as [_ Hall]. specialize (Hall 0 ltac:(vm_compute; by split)).
    vm_compute in Hall. discriminate.
Defined.
