(* ===== verification/InodeTheorems.v ===== *)
(** * Theorems on inodes and directory entries (easy-fs/src/layout.rs) *)

From S2P Require Import Prelude BlockDev BlockStore BlockCache CacheTheorems Layout DiskCodec Tree BuildTree TreeOps ClearTree Inode InodeOps FileData.

(** ** An instance: a file of 14000 bytes, 27 direct blocks and one under indirect1 *)
#[local] Existing Instance BlockFile.file_device.
#[local] Existing Instance BlockFile.file_device_spec.
#[local] Abbreviation Store := (CacheState BlockFile.File).

Definition ex_inode : DiskInode := mkInode 14000 (seqZ 100 27) 127 0 0 File.
Definition ex_trees : Trees := mkTrees (Node 127 [Node 128 []]) (Node 0 []) (Node 0 []).
Definition ex_store : gmap Z (list byte) :=
  <[127 := enc_words 4 (128 :: replicate 127 0)]>
    (list_to_map ((fun i => (i, replicate 512 Byte.x41)) <$> seqZ 100 200)).

(** Executable checks of the side conditions. *)
Definition avail_check (σ : gmap Z (list byte)) (L : gset Z) (bs : list Z) : bool :=
  bool_decide (NoDup bs) &&
  forallb (fun b => bool_decide (is_Some (σ !! b)) && bool_decide (b ∉ L) &&
                    (0 <=? b) && (b <? 2 ^ 32)) bs.

Lemma avail_check_ok σ L bs : avail_check σ L bs = true -> avail σ L bs.
Proof.
  intros [Hnd Hf]%andb_true_iff. apply bool_decide_eq_true in Hnd. split; [done|].
  intros b Hb. rewrite forallb_forall in Hf. specialize (Hf b ltac:(by apply list_elem_of_In)).
  rewrite !andb_true_iff, !bool_decide_eq_true in Hf. destruct Hf as [[[? ?] ?] ?].
  split; [done|]. split; [done|]. split; [by apply Z.leb_le|by apply Z.ltb_lt].
Qed.

Lemma ex_blocks : blocks_ok ex_store.
Proof.
  intros id b Hb. unfold ex_store in Hb. apply lookup_insert_Some in Hb as [[_ <-]|[_ Hb]].
  - by rewrite enc_words_length.
  - apply elem_of_list_to_map_2, list_elem_of_fmap in Hb as (i & Heq & _). by injection Heq as -> ->.
Qed.

Lemma ex_file_ok : file_ok ∅ ex_store ex_inode ex_trees.
Proof.
  assert (Hn : data_blocks ex_inode = 28) by (vm_compute; reflexivity).
  split; rewrite ?Hn.
  - split; [done| |by vm_compute|].
    + apply Forall_forall. intros z Hz%elem_of_seqZ. lia.
    + split_and!; [|intros Hlt; lia..]. intros _. split; [done|].
      exists (128 :: replicate 127 0).
      split_and!; [vm_compute; reflexivity|by vm_compute|by vm_compute|vm_compute; reflexivity|].
      intros [|i] c Hc; [|done]. injection Hc as <-. split; [done|]. by vm_compute.
  - by vm_compute.
  - apply ex_blocks.
  - apply avail_check_ok. vm_compute. reflexivity.
Qed.

Section Inodes.
Context {St : Type} `{BlockStoreSpec St}.
Implicit Types (L : gset Z) (σ : gmap Z (list byte)) (di : DiskInode) (T : Trees).

(** [get_block_id] finds the data blocks of a file.  For every position
    below the number of data blocks, through however many indirect blocks, it
    returns the block at that position of the file. *)
Theorem get_block_id_correct L σ di T k :
  file_ok L σ di T -> Z.of_nat (base.size L) < BLOCK_CACHE_SIZE -> 0 <= k < data_blocks di ->
  exists id, data_ids (data_blocks di) di T !! Z.to_nat k = Some id /\
    runs (St := St) L σ (get_block_id di k) id σ.
Proof. intros Hf HL Hk. apply get_block_id_runs; [apply Hf|apply Hf|apply Hf|done|done]. Qed.

(** [increase_size] appends.  Given the blocks [blocks_num_needed] asks
    for, it takes all of them and no more; the data blocks the file had keep
    their positions and their contents, every block the file owned or was given
    is owned by it once, and nothing but indirect blocks of the file is written. *)
Theorem increase_size_correct L σ di T new_size bl :
  file_ok L σ di T -> size di <= new_size <= MAX_SIZE ->
  Z.of_nat (base.size L) + 3 <= BLOCK_CACHE_SIZE ->
  avail σ L (owned (data_blocks di) di T ++ bl) -> blocks_num_needed di new_size = Ok (zlen bl) ->
  exists di' T' σ', runs (St := St) L σ (increase_size di new_size bl) di' σ' /\
    size di' = new_size /\ type_ di' = type_ di /\ file_ok L σ' di' T' /\
    owned (data_blocks di') di' T' ≡ₚ owned (data_blocks di) di T ++ bl /\
    (exists ext, (forall b, b ∈ ext -> b ∈ bl) /\ file_bytes σ' di' T' = file_bytes σ di T ++ bytes_of σ ext) /\
    (forall b, b ∉ tree_indexes (data_blocks di') T' -> σ' !! b = σ !! b).
Proof.
  intros Hf Hsz HL Hav Hneed. pose proof (fok_size _ _ _ _ Hf) as Hs0.
  rewrite blocks_num_needed_weight in Hneed by lia. injection Hneed as Hneed.
  destruct (increase_size_file (St := St) L σ di T new_size bl) as (di' & T' & σ' & ?);
    [done|done|done|done|lia|]. exists di', T', σ'. naive_solver.
Qed.

(** [clear_size] returns exactly the blocks of the file, each once, and
    leaves an inode of size zero; their number is [total_blocks] of the old size,
    so the assertion of [Inode::clear] holds. *)
Theorem clear_size_correct L σ di T :
  file_ok L σ di T -> Z.of_nat (base.size L) + 3 <= BLOCK_CACHE_SIZE -> clearable (data_blocks di) ->
  exists di', runs (St := St) L σ (clear_size di) (owned (data_blocks di) di T, di') σ /\
    size di' = 0 /\ type_ di' = type_ di /\ NoDup (owned (data_blocks di) di T) /\
    zlen (owned (data_blocks di) di T) = total_blocks (size di).
Proof.
  intros Hf HL Hcl. destruct (clear_size_runs (St := St) L σ di T) as (di' & (Hs & Ht & _) & Hrun);
    [apply Hf|apply Hf|apply Hf|done|done|].
  exists di'. split_and!; [done|done|done|apply Hf|].
  rewrite total_blocks_weight by apply Hf. eapply owned_length, Hf.
Qed.

(** [total_blocks] counts.  For every size the inode can represent it is
    the number of data blocks plus the number of indirect blocks of the three
    trees, and [blocks_num_needed] is the exact difference, without wrapping;
    a smaller new size panics. *)
Theorem block_counts_exact di new_size :
  0 <= size di <= MAX_SIZE -> 0 <= new_size <= MAX_SIZE ->
  total_blocks new_size = file_weight (_data_blocks new_size) /\
  blocks_num_needed di new_size =
    if size di <=? new_size
    then Ok (file_weight (_data_blocks new_size) - file_weight (data_blocks di)) else Fail Panic.
Proof.
  intros Hs Hn. split; [by apply total_blocks_weight|].
  destruct (Z.leb_spec (size di) new_size); [apply blocks_num_needed_weight; lia|].
  unfold blocks_num_needed. by rewrite Z.geb_leb, (proj2 (Z.leb_gt _ _)) by lia.
Qed.

(** [read_at] reads the file.  It returns the bytes of the file from the
    offset on, as many as fit in the buffer, and leaves the rest of the buffer;
    past the end it returns zero.  Block boundaries do not show. *)
Theorem read_at_correct L σ di T offset buf :
  file_ok L σ di T -> Z.of_nat (base.size L) < BLOCK_CACHE_SIZE ->
  0 <= offset -> offset + zlen buf < 2 ^ 64 ->
  let out := take (length buf) (drop (Z.to_nat offset) (file_contents σ di T)) in
  runs (St := St) L σ (read_at di offset buf) (zlen out, out ++ drop (length out) buf) σ.
Proof. intros Hf HL Hoff H64. by apply read_at_runs. Qed.

(** [write_at] overwrites a range of the file.  The bytes written replace
    those at the offset, up to the end of the file; the rest of the file, its
    blocks and every block that is not a data block of the file are unchanged. *)
Theorem write_at_correct L σ di T offset buf :
  file_ok L σ di T -> Z.of_nat (base.size L) < BLOCK_CACHE_SIZE ->
  0 <= offset < size di -> 0 < zlen buf -> offset + zlen buf < 2 ^ 64 ->
  let w := take (Z.to_nat (size di - offset)) buf in
  exists σ', runs (St := St) L σ (write_at di offset buf) (zlen w) σ' /\ file_ok L σ' di T /\
    file_contents σ' di T = splice (file_contents σ di T) (Z.to_nat offset) w /\
    (forall b, b ∉ data_ids (data_blocks di) di T -> σ' !! b = σ !! b).
Proof.
  intros Hf HL Hoff Hb H64 w. destruct (write_at_runs (St := St) L σ di T offset buf) as (σ' & ? & ? & _ & ? & ?);
    [done..|]. by exists σ'.
Qed.

(** What was written is read back. *)
Theorem read_after_write L σ di T offset buf rbuf :
  file_ok L σ di T -> Z.of_nat (base.size L) < BLOCK_CACHE_SIZE ->
  0 <= offset -> offset + zlen buf <= size di -> 0 < zlen buf -> length rbuf = length buf ->
  exists σ', runs (St := St) L σ
      (let* n := write_at di offset buf in let* (m, out) := read_at di offset rbuf in ret (n, m, out))
      (zlen buf, zlen buf, buf) σ'.
Proof.
  intros Hf HL Hoff Hfit Hb Hlen. pose proof (fok_size _ _ _ _ Hf) as Hsz.
  assert (H64 : offset + zlen buf < 2 ^ 64) by (change MAX_SIZE with 1082209792 in Hsz; lia).
  destruct (write_at_runs (St := St) L σ di T offset buf) as (σ1 & Hrun & Hf1 & _ & Hc & _); [done|done|lia..|].
  rewrite take_ge in Hrun, Hc by (unfold zlen in Hfit; lia).
  pose proof (contents_length _ _ _ _ Hf) as Hcl.
  pose proof (read_at_runs (St := St) L σ1 di T offset rbuf Hf1 HL Hoff) as Hr. cbv zeta in Hr.
  rewrite Hc, Hlen, take_drop_splice in Hr by (unfold zlen in *; lia).
  rewrite drop_ge, app_nil_r in Hr by lia.
  exists σ1. eapply runs_bind; [exact Hrun|]. eapply runs_bind; [apply Hr; unfold zlen in *; lia|]. apply runs_ret.
Qed.

End Inodes.

(** A directory entry gives its name back.  Every name of at most 27 bytes
    of valid UTF-8 without a zero byte is stored and read back by [name]. *)
Theorem dirent_name_roundtrip name i :
  name_ok name -> 0 <= i < 2 ^ 32 ->
  exists e, dirent_new name i = Ok e /\ dirent_name (dirent_of_bytes (dirent_as_bytes e)) = Ok name /\
    dirent_inode_number (dirent_of_bytes (dirent_as_bytes e)) = i.
Proof.
  intros Hn Hi. pose proof Hn as (Hlen & _). unfold NAME_LENGTH_LIMIT, zlen in Hlen.
  eexists. split; [apply dirent_new_ok; unfold NAME_LENGTH_LIMIT, zlen; lia|].
  rewrite dirent_bytes_roundtrip; [|cbn [ent_name]; rewrite length_app, length_replicate; lia|done].
  split; [|done]. eapply dirent_name_new; [done|]. apply dirent_new_ok. unfold NAME_LENGTH_LIMIT, zlen. lia.
Qed.

(** A name of 28 bytes is accepted but cannot be read.  [DirEntry::new]
    succeeds although the limit is 27, the terminating zero is missing, and
    [name] indexes past the array and panics. *)
Theorem dirent_name_28_panics name i :
  zlen name = 28 -> Byte.x00 ∉ name ->
  exists e, dirent_new name i = Ok e /\ dirent_name e = Fail Panic.
Proof.
  intros Hlen Hnz. unfold zlen in Hlen. eexists.
  split; [apply dirent_new_ok; unfold NAME_LENGTH_LIMIT, zlen; lia|].
  replace (28 - length name)%nat with 0%nat by lia. unfold dirent_name. cbn [ent_name replicate].
  rewrite app_nil_r. destruct (list_find _ name) as [[k b]|] eqn:E; [|done].
  apply list_find_Some in E as (Hk & -> & _). by apply list_elem_of_lookup_2 in Hk.
Qed.

(** ** Witnesses *)
Lemma get_block_id_correct_witness :
  exists id, runs (St := Store) ∅ ex_store (get_block_id ex_inode 27) id ex_store.
Proof.
  destruct (get_block_id_correct (St := Store) ∅ ex_store ex_inode ex_trees 27) as (id & _ & Hr).
  - apply ex_file_ok.
  - done.
  - by vm_compute.
  - by exists id.
Defined.

Lemma increase_size_correct_witness :
  exists di' σ', runs (St := Store) ∅ ex_store (increase_size ex_inode 15000 [200; 201]) di' σ'.
Proof.
  destruct (increase_size_correct (St := Store) ∅ ex_store ex_inode ex_trees 15000 [200; 201])
    as (di' & T' & σ' & Hr & _).
  - apply ex_file_ok.
  - by vm_compute.
  - done.
  - apply avail_check_ok. vm_compute. reflexivity.
  - vm_compute. reflexivity.
  - by exists di', σ'.
Defined.

Lemma clear_size_correct_witness :
  exists di', runs (St := Store) ∅ ex_store (clear_size ex_inode) (seqZ 100 29, di') ex_store.
Proof.
  destruct (clear_size_correct (St := Store) ∅ ex_store ex_inode ex_trees) as (di' & Hr & _).
  - apply ex_file_ok.
  - done.
  - by vm_compute.
  - exists di'. exact Hr.
Defined.

Lemma block_counts_exact_witness :
  total_blocks 15000 = 31 /\ blocks_num_needed ex_inode 15000 = Ok 2.
Proof.
  destruct (block_counts_exact ex_inode 15000) as [E1 E2].
  - by vm_compute.
  - by vm_compute.
  - rewrite E1, E2. vm_compute. split; reflexivity.
Defined.

Lemma read_at_correct_witness :
  runs (St := Store) ∅ ex_store (read_at ex_inode 13999 [Byte.x00; Byte.x01]) (1, [Byte.x41; Byte.x01]) ex_store.
Proof.
  apply (read_at_correct (St := Store) ∅ ex_store ex_inode ex_trees 13999 [Byte.x00; Byte.x01]).
  - apply ex_file_ok.
  - done.
  - done.
  - done.
Defined.

Lemma write_at_correct_witness :
  exists σ', runs (St := Store) ∅ ex_store (write_at ex_inode 13822 (replicate 4 Byte.x42)) 4 σ'.
Proof.
  destruct (write_at_correct (St := Store) ∅ ex_store ex_inode ex_trees 13822 (replicate 4 Byte.x42))
    as (σ' & Hr & _).
  - apply ex_file_ok.
  - done.
  - by vm_compute.
  - done.
  - done.
  - by exists σ'.
Defined.

Lemma read_after_write_witness :
  exists σ', runs (St := Store) ∅ ex_store
    (let* n := write_at ex_inode 13822 (replicate 4 Byte.x42) in
     let* (m, out) := read_at ex_inode 13822 (replicate 4 Byte.x00) in ret (n, m, out))
    (4, 4, replicate 4 Byte.x42) σ'.
Proof.
  destruct (read_after_write (St := Store) ∅ ex_store ex_inode ex_trees 13822 (replicate 4 Byte.x42)
    (replicate 4 Byte.x00)) as (σ' & Hr).
  - apply ex_file_ok.
  - done.
  - done.
  - by vm_compute.
  - done.
  - done.
  - by exists σ'.
Defined.

Lemma dirent_name_roundtrip_witness :
  exists e, dirent_new [Byte.x61; Byte.x62] 7 = Ok e /\ dirent_name e = Ok [Byte.x61; Byte.x62].
Proof.
  destruct (dirent_name_roundtrip [Byte.x61; Byte.x62] 7) as (e & He & Hn & _).
  - split_and!; [done|done|]. by apply (bool_decide_unpack _).
  - done.
  - exists e. split; [done|]. injection He as <-. exact Hn.
Defined.

Lemma dirent_name_28_panics_witness :
  exists e, dirent_new (replicate 28 Byte.x61) 7 = Ok e /\ dirent_name e = Fail Panic.
Proof.
  apply (dirent_name_28_panics (replicate 28 Byte.x61) 7).
  - done.
  - by apply (bool_decide_unpack _).
Defined.
